(* ===== verification/_CoqProject ===== *)
-Q . S2P
Prelude.v
LibBase.v
CString.v
Timekeep.v
AuthToken.v
Session.v
FingerprintHal.v
TapSubHal.v
TapSubHalProofs.v
ColorFmt.v
AudioEffect.v
VoiceProcessing.v
FloatArith.v
VolumeListener.v
CameraHints.v
Jail.v
Bluetooth.v
Firmware.v
PowerStats.v
GraphicBuffer.v
XmlText.v
XmlDocument.v
XmlGrammar.v
XmlRefine.v
XmlPrinter.v
XmlRoundtrip.v
XmlPool.v
XmlTree.v
XmlForest.v
XmlTreeProofs.v
XmlDelete.v
XmlClone.v
XmlClient.v
XmlFind.v
XmlNumber.v
XmlVisit.v
XmlAttributes.v
XmlBuffer.v
XmlStrings.v
XmlErrors.v
KernelAbi.v
KernelDrm.v
KernelDisplay.v
KernelMsm.v
