(* ===== verification/Prelude.v ===== *)
(** * DiamaneOS Fairphone 6 device tree: verification development

    The repository adapts Android to the Fairphone 6.  Most of it is configuration;
    its own programs are small C and C++ services and libraries that sit between the
    platform and the stock vendor software.  They share no state and run in
    different processes, so each is modelled on its own, in a file that reads
    like the source it models: a record for the state (static variables, members,
    heap), one definition per function with the source's name, and theorems that
    hold for every sequence of calls and, where the code has threads, for every
    interleaving of its critical sections.

    ** The parts and the files that model them

    - [Timekeep.v]: [timekeep/] ([Record.h], [Record.cpp], [main.cpp]), the daemon
      that keeps the time across reboots although the real-time clock cannot be
      written.  [record] is the saved pair of RTC time and offset; [restore],
      [measure] and [timekeepd] are the functions of the daemon, with every 64-bit
      operation checked for overflow; the file system is a log of directory and
      data operations that a crash may cut at any point.  Theorems: the clock is
      only ever set forward and a reboot restores it; the record file is replaced
      atomically; text and record round-trip; the daemon never overflows and keeps
      its record recent.
    - [AuthToken.v] and [Session.v]: [fingerprint/Session.cpp], [Session.h] and
      [LegacyHal.h], a session of the fingerprint HAL over the vendor's module.
      [AuthToken] is the byte layout of authentication tokens; [Session] is a state
      monad over the members behind the two locks, with callbacks to the framework
      and calls to the module as events.  A step function interleaves requests,
      waiting threads and the module's callbacks in every order the locks allow.  Theorems: the session
      refines an abstract contract, each operation gets exactly one terminal
      result, an unlock comes from a match of the right user, a detached session is
      silent but for answers to generateChallenge, revokeChallenge and getAuthenticatorId
      that the module had already given (an exception the header's comment does not make), and the
      behaviour of held matches and removals.
    - [FingerprintHal.v]: [fingerprint/Fingerprint.cpp], [PressToAuth.h],
      [ModuleFactoryService.cpp] and [main.cpp], the service around the sessions:
      opening the module, creating and replacing sessions, routing messages.  Each
      thread inside [createSession] or [notify] stands at the lock it takes next,
      and the sessions are those of [Session.v].  Theorems: every session of the
      service belongs to the user it was created for, gets just the messages that came while it was
      current and the steps of its own client, and runs as one on its own, so the theorems of [Session.v] hold in it;
      at most the current session is live; parcels are read within their bounds.
    - [TapSubHal.v] and [TapSubHalProofs.v]: [sensors/TapSubHal.cpp], the one-shot
      tap sensors.  [members] is the state behind the mutex, [locals] that of the
      thread, and [tap_step] interleaves the calls of the sensor service with the
      thread, which stands at a [place] of its loop, whatever the kernel answers.
      Theorems: no more events than activations; held double taps go out once and in time;
      the thread never sleeps over work; a gesture goes off exactly after five
      idle minutes; the destructor terminates and leaves a gesture on only if a write failed or
      the takeover after a crash could not have it.
    - [ColorFmt.v]: [compat/kernel-headers/include/display/media/mmm_color_fmt.h],
      strides, scan lines and buffer sizes of video formats in 32-bit arithmetic.
      Theorems: each buffer size is the one the header's comments document (but for odd heights and
      the luma lines of NV12_BPP10_UBWC, where code and comment differ), a buffer
      holds every plane of a frame, and the used size never exceeds the allocated
      one, for frames up to 16384 by 16384, the bound below which nothing wraps.
    - [AudioEffect.v], [VoiceProcessing.v]: [audio/effects/voice_processing.c], the
      stand-in for the DSP's echo canceller and noise suppressor.  The heap of
      sessions is explicit and following a bad pointer is undefined.  Theorems: no
      client can make it follow one, and the library refines a map from session and
      effect to state.
    - [FloatArith.v], [VolumeListener.v]: [audio/effects/volume_listener.c], which
      turns the volumes of the streams on the speaker into a gain and a calibration
      level for the audio HAL, with [float] and [double] rounded as IEEE 754 says.
      The conversion of a negative number to [uint32_t], which the code makes when nothing is heard,
      is undefined unless the platform says otherwise.  Theorems: gain and level sent last are those of the current streams
      while the calibration for headsets is off, with the exceptions the code has; the loop over the table finds the greatest
      step; mixing is monotone; samples saturate.
    - [CameraHints.v]: [power/libqti-perfd-client/] ([camera_hints.cpp],
      [client.c]), camera performance hints forwarded to the power HAL by a worker
      thread.  [hints] is the state behind the lock; [wstep] interleaves the camera
      threads with the worker and with the arrival of its one-way calls, which may fail, be late or be
      lost.  Theorems: as long as nothing went wrong, when the
      worker is idle and its calls have arrived the power HAL does what the requests ask for; the exported calls
      refine a finite map; whatever fails, no boost of the camera runs for more than 5 s from now.
    - [Jail.v]: [camera/seccomp/camxjail.c] and [media/seccomp/], the seccomp loaders
      of the camera provider and the codec service, and the gate that decides which
      hardware codecs are offered.  Theorems: neither offers anything unconfined, the
      rewritten filter answers as the policy does with EPERM for traps, and exactly the
      codecs that the mode, variant, specification and decoder node of the boot allow can be reached.
    - [Firmware.v]: [firmware/] ([FirmwareRelease.cpp], [FirmwareRelease.h],
      [main.cpp]), which reports the firmware release of the booted slot.  Theorems:
      the reported value is true of the partitions, however reads are cut, or "unknown" without a
      slot or a valid table, and the
      parser accepts only complete tables.
    - [Bluetooth.v]: [bluetooth/service.cpp], which confines itself, names the
      Bluetooth chip and starts the vendor's HCI service.  Theorem: everything it does is
      done under its seccomp policy, or it aborts.
    - [PowerStats.v]: [power/stats/], the sleep counters of the [qcom_stats] driver.
      Theorems: a request is answered for whole entities in order, or refused; record
      names are read back; [dump] is always defined.
    - [GraphicBuffer.v]: [compat/codec2-v34/], Android 14's [GraphicBuffer] for the
      stock codec library.  The objects, the clones of the mapper and the hardware
      buffers are explicit.  Theorems: nothing is freed twice, used after release
      or leaked; without a hardware decoder the library gets no buffer.
    - [compat/tinyxml2-v34/], the tinyxml2 the stock libraries need, with the project's
      fix of character references, in four groups of files.
      Reading: [XmlText.v] is the text layer, over a buffer of bytes that is decoded in
      place; [XmlDocument.v] the parser and the loading of files, with errors, lines and
      the limit of depth; [XmlGrammar.v] the same parser on strings that do not change, as the
      specification; [XmlRefine.v] the proof.  Theorems: decoding in place equals decoding from a copy;
      character references are read as their digits say; the parser terminates, stays in its buffer
      and gives what the specification gives; documents are well formed; files that cannot be
      read are reported.  [XmlErrors.v] is the text of error messages.  Theorem: it fits its buffer and tells the error
      and the line.
      Writing: [XmlPrinter.v] and [XmlRoundtrip.v]; [XmlBuffer.v] is the memory that the printer
      writes to.  Theorems: a saved document is loaded
      again as it was, if it is one that text can carry ([printable_document]; texts of white space only, for one,
      are lost); what is printed to memory is one C string of that text.
      Nodes: [XmlPool.v] is the dynamic array and the memory pools, with the class
      [MemPool] that documents use; [XmlTree.v] the nodes on a heap of addresses with
      their five pointers, and every call that inserts, removes, deletes, copies or compares
      them; [XmlForest.v] the forest a heap stands for; [XmlTreeProofs.v], [XmlDelete.v],
      [XmlClone.v], [XmlFind.v] the theorems about each group of calls, [XmlClient.v] those about all
      of them.  Theorems: a pool gives out no item twice; every legal call is defined and does to
      the pointers what the forest operation says; one order of nodes makes [InsertAfterChild] follow
      a null pointer; [Clear] frees every node of a document built by calls; [DeepCopy] copies a document.
      [XmlAttributes.v] are the attributes of elements as linked cells of a pool, [XmlStrings.v]
      the strings that pairs own, [XmlVisit.v] the walk of a visitor along the pointers.  Theorems: the cells
      do what the lists of [XmlTree.v] do, and none is lost; every string is deleted once; a printable document that was
      built by calls is printed as text that the parser reads as the same tree.
      Values: [XmlNumber.v] is the conversion of integers and truth values.  Theorem: values are
      read back (truth values with their default names).
    - [compat/kernel-headers/include/]: [KernelAbi.v] has C's structures, their layout and
      the numbers of [ioctl] requests; [KernelDrm.v] are [drm.h] and [drm_mode.h], [KernelDisplay.v] the display
      driver's [sde_drm.h] and [msm_drm_pp.h], [KernelMsm.v] the other headers and the devices.  Theorems:
      requests that 32-bit and 64-bit clients send with different numbers are just the 26 old ones;
      no device has two requests of one number; members of structures are aligned and
      apart; flags that share a word share no bit.
    - [LibBase.v]: the interface to Android's libbase, with a reference
      implementation.  [CString.v]: the C string functions used.  This file: undefined behaviour as a value, machine
      integers, strings and decimal text, and the tactics all files use.

    ** Conventions

    A [w]-bit integer is a [Z]; wrap-around and overflow are written out.  The monad
    [ub] marks executions that C or C++ gives no meaning to.  Code that is not in the
    repository (the vendor's fingerprint module, the power and audio HALs, libbase,
    SHA-256, jsoncpp, libminijail, binder, the sensors HAL, gralloc, the kernel) is a class of operations, with a class
    of laws where the code relies on documented behaviour, or an argument; a
    reference instance in the same file shows that the laws can hold and lets
    the model run on concrete inputs.  Each theorem named by a claim (C1, C2, ...)
    with hypotheses has a witness that applies it to such an input.

    ** Fuel and bounds

    The search for a free handle in [CameraHints] has fuel 33: of 33 different
    candidates at most 32 are in the table ([next_handle_total]).  Decimal text is
    produced with as much fuel as a number has binary digits ([log2_fuel]).  The
    tap thread, once told to stop, ends within 12 of its steps ([stop_terminates]), a bound on the rank
    of the places of its loop.  [GetStr] has as much fuel as the text has bytes, and collapsing white
    space as much as the document has: each round reads at least one ([loop_decode],
    [collapse_loop_spec]).  The parser has as much fuel as its buffer has bytes: each child and each
    attribute takes one at least ([Parse_refines] shows that it is enough).  Deleting or copying a subtree of
    [n] nodes takes fuel [2 * n + 1] ([Clear_frees_document], [DeepCopy_copies]); a loop over siblings as much as the heap has nodes
    ([searches_find]), and so has the walk of a visitor ([node_Accept_ok]); a loop over attributes as much as there are
    cells ([seek_ok]).  All other
    recursion is structural (over lists, remaining table entries, or the answers of
    successive reads).  Theorems about runs of a session ask for at most 2^64 - 1 steps, so
    that the 64-bit operation numbers do not repeat.

    ** What is not modelled

    Log output and tracing; [power/stats/service.cpp], which only registers its
    object; of tinyxml2 [float] and
    [double] as text, and the wrapper [XMLHandle], and that its parser builds the nodes with
    [InsertEndChild] (it builds the list of them); of the kernel headers enumerations and constants that only name
    a value (parameters, modes, versions); the Java app, init scripts,
    policies and resources. *)

From Stdlib Require Export ZArith Lia Bool.
From stdpp Require Export base numbers option gmap strings list.
From Stdlib Require Ascii.

#[global] Open Scope Z_scope.

Abbreviation ascii := Ascii.ascii.
Abbreviation N_of_ascii := Ascii.N_of_ascii.
Delimit Scope char_scope with char.
Export Ascii.AsciiSyntax.

#[global] Arguments String.append !_ _ : simpl nomatch.

(** ** Undefined behaviour as a value

    C and C++ code of the repository is translated into the monad [ub]: [Undef]
    marks an execution the language gives no meaning to (signed overflow, a call
    through a null function pointer, a use of freed memory), [Ret] an ordinary result. *)

Inductive ub (A : Type) : Type :=
| Undef : ub A
| Ret : A -> ub A.

Arguments Undef {A}.
Arguments Ret {A} _.

#[global] Instance ub_ret : MRet ub := @Ret.
#[global] Instance ub_bind : MBind ub := fun A B f m =>
  match m with
  | Undef => Undef
  | Ret a => f a
  end.

(** ** Machine integers

    A [w]-bit integer is a [Z]; the wrap-around of unsigned arithmetic and the
    range of signed arithmetic are written out. *)

Definition INT32_MIN : Z := -2147483648.
Definition INT32_MAX : Z := 2147483647.
Definition UINT32_MAX : Z := 4294967295.
Definition INT64_MIN : Z := -9223372036854775808.
Definition INT64_MAX : Z := 9223372036854775807.
Definition UINT64_MAX : Z := 18446744073709551615.

Definition is_i32 (z : Z) : Prop := INT32_MIN <= z <= INT32_MAX.
Definition is_u32 (z : Z) : Prop := 0 <= z <= UINT32_MAX.
Definition is_i64 (z : Z) : Prop := INT64_MIN <= z <= INT64_MAX.
Definition is_u64 (z : Z) : Prop := 0 <= z <= UINT64_MAX.

Definition in_i64 (z : Z) : bool := (INT64_MIN <=? z) && (z <=? INT64_MAX).
Definition in_i32 (z : Z) : bool := (INT32_MIN <=? z) && (z <=? INT32_MAX).

(** Reduction of an unsigned value to its width. *)
Definition u8 (z : Z) : Z := z mod 2 ^ 8.
Definition u16 (z : Z) : Z := z mod 2 ^ 16.
Definition u32 (z : Z) : Z := z mod 2 ^ 32.
Definition u64 (z : Z) : Z := z mod 2 ^ 64.

(** Conversion to a signed type of the same width (two's complement). *)
Definition i32 (z : Z) : Z := (z + 2 ^ 31) mod 2 ^ 32 - 2 ^ 31.
Definition i64 (z : Z) : Z := (z + 2 ^ 63) mod 2 ^ 64 - 2 ^ 63.

(** Signed 64-bit arithmetic: a result outside the type is undefined. *)
Definition chk64 (z : Z) : ub Z := if in_i64 z then Ret z else Undef.
Definition add64 (a b : Z) : ub Z := chk64 (a + b).
Definition sub64 (a b : Z) : ub Z := chk64 (a - b).
Definition mul64 (a b : Z) : ub Z := chk64 (a * b).
Definition abs64 (a : Z) : ub Z := chk64 (Z.abs a).
Definition chk32 (z : Z) : ub Z := if in_i32 z then Ret z else Undef.

Lemma chk32_ret z : is_i32 z -> chk32 z = Ret z.
Proof. unfold chk32, in_i32, is_i32. intros [? ?]. by rewrite !(proj2 (Z.leb_le _ _)). Qed.

(** ** Strings *)

Definition char_code (c : ascii) : Z := Z.of_N (N_of_ascii c).
Definition char_of (z : Z) : ascii := Ascii.ascii_of_N (Z.to_N z).
Definition newline : ascii := Ascii.ascii_of_nat 10.
Definition space : ascii := " "%char.

(** ['0' <= c <= '9'] *)
Definition is_digit (c : ascii) : bool := (48 <=? char_code c) && (char_code c <=? 57).

(** Prepends the decimal digits of [n] to [acc]; [n] has at most [fuel] digits. *)
Fixpoint dec_digits (fuel : nat) (n : Z) (acc : string) : string :=
  match fuel with
  | O => acc
  | S f =>
      let acc' := String (char_of (48 + n mod 10)) acc in
      if n / 10 =? 0 then acc' else dec_digits f (n / 10) acc'
  end.

(** [std::to_string] of an integer.  A number has no more decimal than binary
    digits, which bounds the recursion. *)
Definition to_string (z : Z) : string :=
  let m := Z.abs z in
  let digits := dec_digits (S (Z.to_nat (Z.log2 m))) m "" in
  if z <? 0 then String "-" digits else digits.

(** The value of a string of digits read left to right, from [acc]. *)
Fixpoint digits_value (acc : Z) (s : string) : Z :=
  match s with
  | EmptyString => acc
  | String c t => digits_value (acc * 10 + (char_code c - 48)) t
  end.

Fixpoint str_forallb (p : ascii -> bool) (s : string) : bool :=
  match s with
  | EmptyString => true
  | String c t => p c && str_forallb p t
  end.

(** The last character, [std::string_view::back] of a non-empty view. *)
Fixpoint str_last (s : string) : option ascii :=
  match s with
  | EmptyString => None
  | String c EmptyString => Some c
  | String _ t => str_last t
  end.

(** [remove_suffix(1)] of a non-empty view. *)
Fixpoint str_init (s : string) : string :=
  match s with
  | EmptyString => EmptyString
  | String _ EmptyString => EmptyString
  | String c t => String c (str_init t)
  end.

(** ** Tactics *)

(** Split the boolean connectives and comparisons of a hypothesis or the goal. *)
Ltac boolprop :=
  repeat match goal with
  | H : _ && _ = true |- _ => apply andb_true_iff in H; destruct H
  | H : _ || _ = false |- _ => apply orb_false_iff in H; destruct H
  | H : negb _ = true |- _ => apply negb_true_iff in H
  | H : negb _ = false |- _ => apply negb_false_iff in H
  | H : (_ <=? _) = true |- _ => apply Z.leb_le in H
  | H : (_ <=? _) = false |- _ => apply Z.leb_gt in H
  | H : (_ <? _) = true |- _ => apply Z.ltb_lt in H
  | H : (_ <? _) = false |- _ => apply Z.ltb_ge in H
  | H : (_ =? _) = true |- _ => apply Z.eqb_eq in H
  | H : (_ =? _) = false |- _ => apply Z.eqb_neq in H
  | H : bool_decide _ = true |- _ => apply bool_decide_eq_true in H
  | H : bool_decide _ = false |- _ => apply bool_decide_eq_false in H
  end.

(** Case analysis on the conditions of the [if]s and [match]es of a hypothesis
    or of the goal, keeping the equations. *)
Ltac case_goal :=
  match goal with
  | |- context [if ?b then _ else _] => destruct b eqn:?
  | |- context [match ?x with _ => _ end] => destruct x eqn:?
  end.
Ltac case_hyp H :=
  match type of H with
  | context [if ?b then _ else _] => destruct b eqn:?
  | context [match ?x with _ => _ end] => destruct x eqn:?
  end.

(** Division and remainder by constants inside [lia]. *)
#[export] Ltac Zify.zify_post_hook ::= Z.to_euclidean_division_equations.

(** ** Automation database *)

Create HintDb fp6 discriminated.

(** ** Lemmas on [ub] and the integers *)

Lemma in_i64_spec z : in_i64 z = true <-> is_i64 z.
Proof. unfold in_i64, is_i64. rewrite andb_true_iff, !Z.leb_le. tauto. Qed.

Lemma chk64_ok z : is_i64 z -> chk64 z = Ret z.
Proof. intros H. apply in_i64_spec in H. unfold chk64. now rewrite H. Qed.

Lemma chk64_inv z a : chk64 z = Ret a -> a = z /\ is_i64 z.
Proof.
  unfold chk64. destruct (in_i64 z) eqn:E; intros [= <-].
  split; [reflexivity | now apply in_i64_spec].
Qed.

Lemma add64_ok a b : is_i64 (a + b) -> add64 a b = Ret (a + b).
Proof. apply chk64_ok. Qed.
Lemma sub64_ok a b : is_i64 (a - b) -> sub64 a b = Ret (a - b).
Proof. apply chk64_ok. Qed.
Lemma mul64_ok a b : is_i64 (a * b) -> mul64 a b = Ret (a * b).
Proof. apply chk64_ok. Qed.
Lemma abs64_ok a : is_i64 (Z.abs a) -> abs64 a = Ret (Z.abs a).
Proof. apply chk64_ok. Qed.

#[export] Hint Resolve add64_ok sub64_ok mul64_ok abs64_ok chk64_ok : fp6.

(** Unfold the numeric ranges and decide by linear arithmetic. *)
Ltac range :=
  unfold is_i64, is_u64, is_i32, is_u32, INT64_MIN, INT64_MAX, UINT64_MAX,
    INT32_MIN, INT32_MAX, UINT32_MAX in *; lia.

(** Run the checked 64-bit operations of a goal, leaving to [lia] that no
    intermediate result overflows. *)
Ltac run64 :=
  repeat (first [ rewrite mul64_ok by range | rewrite add64_ok by range
                | rewrite sub64_ok by range | rewrite abs64_ok by range ];
          cbn [mbind ub_bind]).

Lemma u32_small z : is_u32 z -> u32 z = z.
Proof. intros H. apply Z.mod_small. range. Qed.
Lemma u64_small z : is_u64 z -> u64 z = z.
Proof. intros H. apply Z.mod_small. range. Qed.
Lemma i32_small z : is_i32 z -> i32 z = z.
Proof. intros H. unfold i32. rewrite Z.mod_small; range. Qed.
Lemma i64_small z : is_i64 z -> i64 z = z.
Proof. intros H. unfold i64. rewrite Z.mod_small; range. Qed.
Lemma u32_range z : is_u32 (u32 z).
Proof. unfold u32. pose proof (Z.mod_pos_bound z (2 ^ 32)). range. Qed.
Lemma u64_range z : is_u64 (u64 z).
Proof. unfold u64. pose proof (Z.mod_pos_bound z (2 ^ 64)). range. Qed.

#[export] Hint Resolve u32_range u64_range : fp6.

(** ** Lemmas on strings *)

Lemma str_app_assoc a b c : (a +:+ b) +:+ c = a +:+ (b +:+ c).
Proof. induction a; cbn; congruence. Qed.
Lemma str_app_nil_r a : a +:+ "" = a.
Proof. induction a; cbn; congruence. Qed.
Lemma str_length_app a b :
  String.length (a +:+ b) = (String.length a + String.length b)%nat.
Proof. induction a; cbn; congruence. Qed.
Lemma str_forallb_app p a b :
  str_forallb p (a +:+ b) = str_forallb p a && str_forallb p b.
Proof. induction a as [|c a IH]; cbn; [reflexivity | now rewrite IH, andb_assoc]. Qed.

Lemma str_last_snoc s c : str_last (s +:+ String c "") = Some c.
Proof.
  induction s as [|d s IH]; [reflexivity|]. cbn.
  destruct (s +:+ String c "") eqn:E; [destruct s; discriminate | exact IH].
Qed.
Lemma str_init_snoc s c : str_init (s +:+ String c "") = s.
Proof.
  induction s as [|d s IH]; [reflexivity|]. cbn.
  destruct (s +:+ String c "") eqn:E; [destruct s; discriminate | now rewrite IH].
Qed.

Create Rewrite HintDb str.
#[export] Hint Rewrite str_app_assoc str_app_nil_r str_length_app str_forallb_app
  str_last_snoc str_init_snoc : str.

(** ** Lemmas on decimal text *)

Lemma char_code_of z : 0 <= z < 256 -> char_code (char_of z) = z.
Proof.
  intros H. unfold char_code, char_of.
  rewrite Ascii.N_ascii_embedding by lia. lia.
Qed.

Lemma digit_code n : char_code (char_of (48 + n mod 10)) = 48 + n mod 10.
Proof. pose proof (Z.mod_pos_bound n 10). apply char_code_of. lia. Qed.

Lemma dec_digits_value f n acc :
  0 <= n < 2 ^ Z.of_nat f ->
  digits_value 0 (dec_digits f n acc) = digits_value n acc.
Proof.
  revert n acc. induction f as [|f IH]; intros n acc Hn.
  - assert (n = 0) as -> by (change (2 ^ Z.of_nat 0) with 1 in Hn; lia). reflexivity.
  - cbn [dec_digits]. rewrite Nat2Z.inj_succ, Z.pow_succ_r in Hn by lia.
    pose proof (Z.div_mod n 10). pose proof (Z.mod_pos_bound n 10).
    destruct (n / 10 =? 0) eqn:E; boolprop.
    + cbn [digits_value]. rewrite digit_code. f_equal. lia.
    + rewrite IH by lia. cbn [digits_value]. rewrite digit_code. f_equal. lia.
Qed.

Lemma dec_digits_length f n acc k :
  0 <= n < 10 ^ Z.of_nat k -> (1 <= k)%nat ->
  (String.length (dec_digits f n acc) <= k + String.length acc)%nat.
Proof.
  revert n acc k. induction f as [|f IH]; intros n acc k Hn Hk; cbn [dec_digits]; [lia|].
  destruct (n / 10 =? 0) eqn:E; boolprop; [cbn; lia|].
  destruct k as [|[|k]]; [lia| change (10 ^ Z.of_nat 1) with 10 in Hn; lia |].
  rewrite Nat2Z.inj_succ, Z.pow_succ_r in Hn by lia.
  etransitivity; [apply (IH _ _ (S k)); [split; [lia|] | lia] | cbn; lia].
  apply Z.div_lt_upper_bound; lia.
Qed.

Lemma dec_digits_forallb p f n acc :
  (forall d, 48 <= char_code d <= 57 -> p d = true) ->
  str_forallb p acc = true -> str_forallb p (dec_digits f n acc) = true.
Proof.
  intros Hp. revert n acc. induction f as [|f IH]; intros n acc Hacc; cbn [dec_digits]; [easy|].
  assert (str_forallb p (String (char_of (48 + n mod 10)) acc) = true).
  { cbn. rewrite Hacc, Hp; [easy|]. rewrite digit_code.
    pose proof (Z.mod_pos_bound n 10). lia. }
  destruct (n / 10 =? 0); auto.
Qed.

Lemma dec_digits_head f n acc :
  exists c t, dec_digits (S f) n acc = String c t /\ is_digit c = true.
Proof.
  assert (forall f n c acc, is_digit c = true -> exists d t,
    dec_digits f n (String c acc) = String d t /\ is_digit d = true) as Haux.
  { clear. induction f as [|f IH]; intros n c acc Hc; cbn [dec_digits]; [eauto|].
    assert (is_digit (char_of (48 + n mod 10)) = true).
    { unfold is_digit. rewrite digit_code. pose proof (Z.mod_pos_bound n 10).
      apply andb_true_iff; rewrite !Z.leb_le; lia. }
    destruct (n / 10 =? 0); eauto. }
  cbn [dec_digits].
  assert (is_digit (char_of (48 + n mod 10)) = true).
  { unfold is_digit. rewrite digit_code. pose proof (Z.mod_pos_bound n 10).
    apply andb_true_iff; rewrite !Z.leb_le; lia. }
  destruct (n / 10 =? 0); eauto.
Qed.

Lemma log2_fuel n : 0 <= n -> 0 <= n < 2 ^ Z.of_nat (S (Z.to_nat (Z.log2 n))).
Proof.
  intros H. split; [exact H|]. pose proof (Z.log2_nonneg n).
  rewrite Nat2Z.inj_succ, Z2Nat.id by lia.
  destruct (Z.eq_dec n 0) as [->|]; [reflexivity|].
  apply Z.log2_spec. lia.
Qed.

(** The text of a number is an optional sign and digits. *)
Lemma to_string_forallb p z :
  (forall d, 48 <= char_code d <= 57 -> p d = true) -> p "-"%char = true ->
  str_forallb p (to_string z) = true.
Proof.
  intros Hp Hm. unfold to_string.
  pose proof (dec_digits_forallb p (S (Z.to_nat (Z.log2 (Z.abs z)))) (Z.abs z) "" Hp eq_refl).
  destruct (z <? 0); cbn [str_forallb]; rewrite ?Hm; assumption.
Qed.

Lemma to_string_length z k :
  Z.abs z < 10 ^ Z.of_nat k -> (1 <= k)%nat -> (String.length (to_string z) <= S k)%nat.
Proof.
  intros Hz Hk. unfold to_string.
  pose proof (dec_digits_length (S (Z.to_nat (Z.log2 (Z.abs z)))) (Z.abs z) "" k
    ltac:(lia) Hk) as H. change (String.length "") with O in H.
  destruct (z <? 0); cbn [String.length]; lia.
Qed.
