(* ===== verification/LibBase.v ===== *)
(** * Interface to libbase

    [android-base] is not part of the repository.  The functions of it the
    daemons call are an interface: [LibBase] holds the operations, [LibBaseLaws]
    the documented behaviour the proofs rely on.  [RefLibBase] is one
    implementation of the interface, used to evaluate the model on concrete
    inputs; it shows that the laws can hold together. *)

From S2P Require Import Prelude.

(** No character of [s] is [c]. *)
Definition str_free (c : ascii) (s : string) : bool :=
  str_forallb (fun d => negb (bool_decide (d = c))) s.

Class LibBase := {
  (** [Split(s, delimiters)] *)
  Split : string -> string -> list string;
  (** [ParseInt(s, &out, min, max)]; [None] when it returns false *)
  ParseInt : string -> Z -> Z -> option Z;
  (** [Trim(s)] *)
  Trim : string -> string;
}.

Class LibBaseLaws (L : LibBase) : Prop := {
  (** Splitting a joined list of fields gives the fields back. *)
  Split_concat : forall (c : ascii) (fs : list string),
    fs <> [] -> Forall (fun f => str_free c f = true) fs ->
    Split (String.concat (String c "") fs) (String c "") = fs;
  (** The decimal representation of a value in range is read back. *)
  ParseInt_to_string : forall z lo hi,
    lo <= z <= hi -> ParseInt (to_string z) lo hi = Some z;
  (** A value read lies between the bounds passed. *)
  ParseInt_range : forall s lo hi z, ParseInt s lo hi = Some z -> lo <= z <= hi;
}.

(** ** The reference implementation *)

Fixpoint split_on (c : ascii) (s : string) : list string :=
  match s with
  | EmptyString => [""]
  | String d t =>
      if bool_decide (d = c) then "" :: split_on c t
      else match split_on c t with
           | [] => [String d ""]
           | p :: ps => String d p :: ps
           end
  end.

Definition is_space (c : ascii) : bool :=
  (char_code c =? 32) || ((9 <=? char_code c) && (char_code c <=? 13)).

Fixpoint ltrim (s : string) : string :=
  match s with
  | EmptyString => EmptyString
  | String c t => if is_space c then ltrim t else s
  end.

Fixpoint rtrim (s : string) : string :=
  match s with
  | EmptyString => EmptyString
  | String c t =>
      match rtrim t with
      | EmptyString => if is_space c then EmptyString else String c EmptyString
      | t' => String c t'
      end
  end.

Definition ref_parse_int (s : string) (lo hi : Z) : option Z :=
  let z := match s with
           | String "-" t => - digits_value 0 t
           | _ => digits_value 0 s
           end in
  let digits := match s with String "-" t => t | _ => s end in
  if negb (bool_decide (digits = "")) && str_forallb is_digit digits &&
     (lo <=? z) && (z <=? hi)
  then Some z else None.

#[global] Instance RefLibBase : LibBase := {|
  Split := fun s sep => match sep with
                        | String c EmptyString => split_on c s
                        | _ => [s]
                        end;
  ParseInt := ref_parse_int;
  Trim := fun s => rtrim (ltrim s);
|}.

(** ** Facts about splitting and decimal text *)

Lemma split_on_nonempty c s : split_on c s <> [].
Proof. destruct s as [|d t]; cbn; [easy|]. case_bool_decide; [easy|]. now destruct (split_on c t). Qed.

Lemma split_on_free_app c f s :
  str_free c f = true ->
  split_on c (f +:+ String c s) = f :: split_on c s.
Proof.
  induction f as [|d f IH]; cbn; intros H.
  - now rewrite bool_decide_true.
  - boolprop. rewrite bool_decide_false by easy. now rewrite IH.
Qed.

Lemma split_on_free c f : str_free c f = true -> split_on c f = [f].
Proof.
  induction f as [|d f IH]; cbn; intros H; [easy|].
  boolprop. rewrite bool_decide_false by easy. now rewrite IH.
Qed.

Lemma concat_cons2 sep f g fs :
  String.concat sep (f :: g :: fs) = f +:+ (sep +:+ String.concat sep (g :: fs)).
Proof. reflexivity. Qed.

Lemma split_on_concat c fs :
  fs <> [] -> Forall (fun f => str_free c f = true) fs ->
  split_on c (String.concat (String c "") fs) = fs.
Proof.
  intros Hne Hall. induction Hall as [|f fs Hf Hall IH]; [easy|].
  destruct fs as [|g fs]; [now apply split_on_free|].
  rewrite concat_cons2. cbn [String.append]. rewrite split_on_free_app by exact Hf.
  now rewrite IH.
Qed.

Lemma ref_parse_int_to_string z lo hi :
  lo <= z <= hi -> ref_parse_int (to_string z) lo hi = Some z.
Proof.
  intros Hz. unfold to_string.
  set (f := Z.to_nat (Z.log2 (Z.abs z))).
  assert (digits_value 0 (dec_digits (S f) (Z.abs z) "") = Z.abs z) as Hv
    by (apply dec_digits_value; apply log2_fuel; lia).
  assert (str_forallb is_digit (dec_digits (S f) (Z.abs z) "") = true) as Hd.
  { apply dec_digits_forallb; [|easy]. intros d Hd. unfold is_digit.
    apply andb_true_iff; rewrite !Z.leb_le; lia. }
  destruct (dec_digits_head f (Z.abs z) "") as (c & t & Ht & Hc).
  destruct (z <? 0) eqn:E; boolprop.
  - unfold ref_parse_int. rewrite Hv, Hd, bool_decide_false by now rewrite Ht.
    rewrite Z.abs_neq, Z.opp_involutive by lia. cbn [negb andb].
    destruct (lo <=? z) eqn:?, (z <=? hi) eqn:?; boolprop; try lia; easy.
  - rewrite Ht in *. unfold ref_parse_int.
    assert (forall A (x y : A), match c with "-"%char => x | _ => y end = y) as Hm.
    { intros A x y. destruct c as [[] [] [] [] [] [] [] []]; try reflexivity; discriminate Hc. }
    rewrite Hm, !Hm, Hv, Hd, bool_decide_false by easy. cbn [negb andb].
    rewrite Z.abs_eq by lia.
    destruct (lo <=? z) eqn:?, (z <=? hi) eqn:?; boolprop; try lia; easy.
Qed.

#[global] Instance RefLibBase_laws : LibBaseLaws RefLibBase.
Proof.
  split.
  - intros c fs Hne Hall. now apply split_on_concat.
  - apply ref_parse_int_to_string.
  - intros s lo hi z. cbn. unfold ref_parse_int. case_goal; intros [= <-]. boolprop. lia.
Qed.
