(* ===== verification/CString.v ===== *)
(** * C strings and number parsing

    The functions of the C library that the sensor sub-HAL and the Bluetooth
    service call on text they read: [strstr], [atoi], [strtoul] in base 16, and the
    cut of a buffer at its first NUL.  Text is a [string] of bytes. *)

From S2P Require Import Prelude LibBase.

(** The string a [char] buffer holds: everything before the first NUL. *)
Fixpoint c_str (s : string) : string :=
  match s with
  | EmptyString => EmptyString
  | String c t => if char_code c =? 0 then EmptyString else String c (c_str t)
  end.

(** What a [read] of at most [n] bytes can leave in a buffer. *)
Fixpoint str_take (n : nat) (s : string) : string :=
  match n, s with
  | S m, String c t => String c (str_take m t)
  | _, _ => EmptyString
  end.

(** [strstr(s, pat)]: the rest of [s] from the first occurrence of [pat]. *)
Fixpoint strstr (s pat : string) : option string :=
  if String.prefix pat s then Some s
  else match s with
       | EmptyString => None
       | String _ t => strstr t pat
       end.

(** [s + n] for a pointer into a string that is at least [n] long. *)
Fixpoint str_drop (n : nat) (s : string) : string :=
  match n, s with
  | S m, String _ t => str_drop m t
  | _, _ => s
  end.

(** The value of the leading decimal digits. *)
Fixpoint leading_dec (acc : Z) (s : string) : Z :=
  match s with
  | String c t => if is_digit c then leading_dec (acc * 10 + (char_code c - 48)) t else acc
  | EmptyString => acc
  end.

(** An optional sign: whether it is a minus, and the rest. *)
Definition take_sign (s : string) : bool * string :=
  match s with
  | String c t =>
      if bool_decide (c = "-"%char) then (true, t)
      else if bool_decide (c = "+"%char) then (false, t) else (false, s)
  | EmptyString => (false, s)
  end.

(** [atoi(s)]. Callers read at most 7 characters, which [int] can hold
    ([atoi_range]). *)
Definition atoi (s : string) : Z :=
  let '(neg, digits) := take_sign (ltrim s) in
  let v := leading_dec 0 digits in
  if neg then - v else v.

Definition hex_value (c : ascii) : option Z :=
  let z := char_code c in
  if is_digit c then Some (z - 48)
  else if (97 <=? z) && (z <=? 102) then Some (z - 87)
  else if (65 <=? z) && (z <=? 70) then Some (z - 55)
  else None.

Fixpoint leading_hex (acc : Z) (s : string) : Z :=
  match s with
  | String c t =>
      match hex_value c with
      | Some d => leading_hex (acc * 16 + d) t
      | None => acc
      end
  | EmptyString => acc
  end.

(** An optional ["0x"]; without digits after it the value is 0 either way. *)
Definition skip_0x (s : string) : string :=
  match s with
  | String c (String x t) =>
      if bool_decide (c = "0"%char) && (bool_decide (x = "x"%char) || bool_decide (x = "X"%char))
      then t else s
  | _ => s
  end.

(** [strtoul(s, nullptr, 16)]: a value out of range reads as [ULONG_MAX], and a
    minus sign negates in [unsigned long]. *)
Definition strtoul16 (s : string) : Z :=
  let '(neg, digits) := take_sign (ltrim s) in
  let v := leading_hex 0 (skip_0x digits) in
  if UINT64_MAX <? v then UINT64_MAX
  else if neg then u64 (- v) else v.

(** ** Bounds *)

Lemma str_take_length n s : (String.length (str_take n s) <= n)%nat.
Proof. revert s; induction n as [|n IH]; intros [|c s]; cbn; try lia. specialize (IH s); lia. Qed.

Lemma c_str_length s : (String.length (c_str s) <= String.length s)%nat.
Proof. induction s as [|c s IH]; cbn; [lia|]. case_goal; cbn; lia. Qed.

Lemma ltrim_length s : (String.length (ltrim s) <= String.length s)%nat.
Proof. induction s as [|c s IH]; cbn; [lia|]. case_goal; cbn; lia. Qed.

Lemma take_sign_length s neg d :
  take_sign s = (neg, d) -> (String.length d <= String.length s)%nat.
Proof. destruct s as [|c t]; cbn; [intros [= <- <-]; cbn; lia|]. repeat case_goal; intros [= <- <-]; cbn; lia. Qed.

Lemma leading_dec_range acc s n :
  0 <= acc < 10 ^ Z.of_nat n ->
  0 <= leading_dec acc s < 10 ^ (Z.of_nat n + Z.of_nat (String.length s)).
Proof.
  revert acc n. induction s as [|c s IH]; intros acc n H; cbn [leading_dec String.length].
  - now rewrite Z.add_0_r.
  - rewrite Nat2Z.inj_succ.
    assert (10 ^ Z.of_nat n <= 10 ^ (Z.of_nat n + Z.succ (Z.of_nat (String.length s))))
      by (apply Z.pow_le_mono_r; lia).
    destruct (is_digit c) eqn:E; [|lia].
    unfold is_digit in E. boolprop.
    replace (Z.of_nat n + Z.succ _) with (Z.of_nat (S n) + Z.of_nat (String.length s)) by lia.
    apply IH. rewrite Nat2Z.inj_succ, Z.pow_succ_r by lia. lia.
Qed.

(** A number of at most [n] characters has at most [n] digits. *)
Lemma atoi_range s n :
  (String.length s <= n)%nat -> - 10 ^ Z.of_nat n < atoi s < 10 ^ Z.of_nat n.
Proof.
  intros H. unfold atoi. destruct (take_sign (ltrim s)) as [neg d] eqn:E.
  apply take_sign_length in E. pose proof (ltrim_length s).
  pose proof (leading_dec_range 0 d 0 ltac:(change (10 ^ Z.of_nat 0) with 1; lia)) as Hd.
  assert (10 ^ (Z.of_nat 0 + Z.of_nat (String.length d)) <= 10 ^ Z.of_nat n)
    by (apply Z.pow_le_mono_r; lia).
  destruct neg; lia.
Qed.

(** The text after the first occurrence starts with the pattern. *)
Lemma strstr_prefix s pat r : strstr s pat = Some r -> String.prefix pat r = true.
Proof.
  revert r. induction s as [|c s IH]; intros r; cbn [strstr].
  - destruct (String.prefix pat "") eqn:E; [now intros [= <-] | discriminate].
  - destruct (String.prefix pat (String c s)) eqn:E; [now intros [= <-] | apply IH].
Qed.

Lemma leading_hex_nonneg acc s : 0 <= acc -> 0 <= leading_hex acc s.
Proof.
  revert acc. induction s as [|c s IH]; intros acc H; cbn [leading_hex]; [lia|].
  destruct (hex_value c) as [d|] eqn:E; [|lia]. apply IH.
  assert (0 <= d); [|lia].
  unfold hex_value, is_digit in E.
  repeat case_hyp E; simplify_eq; boolprop; lia.
Qed.

Lemma strtoul16_range s : is_u64 (strtoul16 s).
Proof.
  unfold strtoul16. destruct (take_sign (ltrim s)) as [neg d].
  pose proof (leading_hex_nonneg 0 (skip_0x d) ltac:(lia)).
  destruct (UINT64_MAX <? leading_hex 0 (skip_0x d)) eqn:E; [range|]. boolprop.
  destruct neg; [apply u64_range | range].
Qed.

Example strtoul16_mode : strtoul16 "5]" = 5.
Proof. reflexivity. Qed.
Example atoi_report : atoi (String "3" (String newline "")) = 3.
Proof. reflexivity. Qed.
