(* ===== verification/Timekeep.v ===== *)
(** * timekeepd: the clock across reboots

    Models [timekeep/Record.h], [timekeep/Record.cpp] and [timekeep/main.cpp]:
    the saved record and its text form, the boot-time restore decision, the
    save decision, the atomic replacement of the record file step by step, and
    the daemon's loop.  [int64_t] arithmetic is checked: an overflow is
    [Undef].  libbase is the interface of [LibBase]. *)

From S2P Require Import Prelude LibBase.

(** ** Record.h / Record.cpp *)

Record record := mkRecord {
  offsetMs : Z;  (* CLOCK_REALTIME minus the RTC counter, milliseconds *)
  rtcSec : Z;    (* RTC counter at the measurement *)
}.

#[global] Instance record_eq_dec : EqDecision record.
Proof. solve_decision. Defined.

Definition wallMs (r : record) : ub Z :=
  a ← mul64 (rtcSec r) 1000; add64 a (offsetMs r).

Definition kSaveThresholdMs : Z := 1000.
Definition kRefreshMs : Z := 60 * 60 * 1000.
Definition kUnsetClockMarginMs : Z := 60 * 1000.

Definition kVersion : Z := 1.
Definition kMaxRtcSec : Z := UINT32_MAX.
Definition kMinWallMs : Z := 1767225600000.
Definition kMaxWallMs : Z := 4102444800000.

(** The conjunction is evaluated left to right and stops at the first false
    conjunct, so [wallMs] runs only on bounded fields. *)
Definition valid (r : record) : ub bool :=
  if (0 <=? rtcSec r) && (rtcSec r <=? kMaxRtcSec) &&
     (- kMaxRtcSec * 1000 <=? offsetMs r) && (offsetMs r <? kMaxWallMs)
  then w ← wallMs r;
       if kMinWallMs <=? w then w' ← wallMs r; Ret (w' <? kMaxWallMs)
       else Ret false
  else Ret false.

Definition formatRecord (r : record) : string :=
  to_string kVersion +:+ " " +:+ to_string (offsetMs r) +:+ " " +:+
  to_string (rtcSec r) +:+ String newline "".

(** What to set the clock to at boot, [None] to leave it alone. *)
Definition restoreTargetMs (saved : record) (rtc nowMs : Z) : ub (option Z) :=
  rtcMs ← mul64 rtc 1000;
  d ← sub64 nowMs rtcMs;
  a ← abs64 d;
  if kUnsetClockMarginMs <=? a then Ret None else
  savedWallMs ← wallMs saved;
  if savedWallMs <=? nowMs then Ret None else
  if rtc <? rtcSec saved then Ret (Some savedWallMs) else
  rtcMs' ← mul64 rtc 1000;
  targetMs ← add64 rtcMs' (offsetMs saved);
  if kMaxWallMs <=? targetMs then Ret None else Ret (Some targetMs).

Definition needsSave (saved : option record) (current : record) : ub bool :=
  v ← valid current;
  if negb v then Ret false else
  a ← abs64 (offsetMs current);
  if a <? kUnsetClockMarginMs then Ret false else
  match saved with
  | None => Ret true
  | Some s =>
      if rtcSec current <? rtcSec s then Ret true else
      d ← sub64 (offsetMs current) (offsetMs s);
      a' ← abs64 d;
      if kSaveThresholdMs <=? a' then Ret true else
      w ← wallMs current;
      w' ← wallMs s;
      dw ← sub64 w w';
      Ret (kRefreshMs <=? dw)
  end.

(** ** main.cpp: files *)

Record timespec := mkTimespec { tv_sec : Z; tv_nsec : Z }.

(** [realtimeMs], from what [clock_gettime(CLOCK_REALTIME)] returned *)
Definition realtimeMs (ts : timespec) : ub Z :=
  a ← mul64 (tv_sec ts) 1000; add64 a (Z.quot (tv_nsec ts) 1000000).

(** [read] of at most 64 bytes; a full buffer counts as too large. [None] is a
    file that cannot be opened or read. *)
Definition kSmallFile : nat := 64.
Definition readSmallFile (file : option string) : option string :=
  match file with
  | None => None
  | Some text => if (kSmallFile <=? String.length text)%nat then None else Some text
  end.

Definition kRecordPath : string := "/data/vendor/timekeepd/offset".
Definition kTempPath : string := "/data/vendor/timekeepd/offset.tmp".

(** The file system below [/data/vendor/timekeepd], as POSIX and f2fs document
    it: the directory and the file contents as processes see them, the directory
    as last made durable, and the files whose contents are durable.  [fsync] of a
    file makes its contents durable, [fsync] of the directory the names. *)
Record fs := mkFs {
  dir : gmap string nat;
  ddir : gmap string nat;
  data : gmap nat string;
  synced : gset nat;
  next_inode : nat;
}.

Definition fs_empty : fs := mkFs ∅ ∅ ∅ ∅ 0.

(** [open(path, O_WRONLY | O_CREAT | O_TRUNC)] *)
Definition fs_open_trunc (p : string) (s : fs) : nat * fs :=
  match dir s !! p with
  | Some i => (i, mkFs (dir s) (ddir s) (<[i := ""]> (data s)) (synced s ∖ {[i]}) (next_inode s))
  | None =>
      let i := next_inode s in
      (i, mkFs (<[p := i]> (dir s)) (ddir s) (<[i := ""]> (data s)) (synced s ∖ {[i]}) (S i))
  end.

(** [write] of a prefix of the text, or all of it. *)
Definition fs_write (i : nat) (text : string) (s : fs) : fs :=
  mkFs (dir s) (ddir s) (<[i := text]> (data s)) (synced s ∖ {[i]}) (next_inode s).

Definition fs_fsync (i : nat) (s : fs) : fs :=
  mkFs (dir s) (ddir s) (data s) ({[i]} ∪ synced s) (next_inode s).

Definition fs_rename (p q : string) (s : fs) : fs :=
  match dir s !! p with
  | Some i => mkFs (<[q := i]> (delete p (dir s))) (ddir s) (data s) (synced s) (next_inode s)
  | None => s
  end.

Definition fs_sync_dir (s : fs) : fs :=
  mkFs (dir s) (dir s) (data s) (synced s) (next_inode s).

Definition fs_read (p : string) (s : fs) : option string :=
  i ← dir s !! p; data s !! i.

(** A power loss: either directory survives, and a file whose contents were not
    made durable can hold anything.  The names change together: [rename] is atomic on disk
    too, as it is on a file system with a journal; one that could keep half of a [rename]
    is not covered. *)
Inductive fs_crash (s : fs) : fs -> Prop :=
| fs_crash_intro d dat :
    d = dir s \/ d = ddir s ->
    (forall i, i ∈ synced s -> dat !! i = data s !! i) ->
    fs_crash s (mkFs d d dat (synced s) (next_inode s)).

(** The outcome of each system call of one save. [written] is what reached the
    file when the write failed. *)
Record save_io := mkSaveIo {
  open_ok : bool;
  write_ok : bool;
  written : string;
  fsync_ok : bool;
  rename_ok : bool;
  sync_dir_ok : bool;
}.

(** [saveRecord]: every state the file system goes through, in order, and the
    result.  [syncDir] is its last call. *)
Definition saveRecord (io : save_io) (r : record) (s : fs) : list fs * bool :=
  if negb (open_ok io) then ([], false) else
  let '(fd, s1) := fs_open_trunc kTempPath s in
  if negb (write_ok io) then ([s1; fs_write fd (written io) s1], false) else
  let s2 := fs_write fd (formatRecord r) s1 in
  if negb (fsync_ok io) then ([s1; s2], false) else
  let s3 := fs_fsync fd s2 in
  if negb (rename_ok io) then ([s1; s2; s3], false) else
  let s4 := fs_rename kTempPath kRecordPath s3 in
  if negb (sync_dir_ok io) then ([s1; s2; s3; s4], false) else
  ([s1; s2; s3; s4; fs_sync_dir s4], true).

Definition last_fs (s : fs) (trace : list fs) : fs := default s (last trace).

Section WithLibBase.
Context {L : LibBase}.

Definition parseRecord (text : string) : ub (option record) :=
  match str_last text with
  | None => Ret None
  | Some c =>
      if negb (bool_decide (c = newline)) then Ret None else
      match Split (str_init text) " " with
      | [f0; f1; f2] =>
          match ParseInt f0 INT32_MIN INT32_MAX with
          | None => Ret None
          | Some version =>
              if negb (version =? kVersion) then Ret None else
              match ParseInt f1 INT64_MIN INT64_MAX, ParseInt f2 INT64_MIN INT64_MAX with
              | Some o, Some s =>
                  v ← valid (mkRecord o s);
                  Ret (if v : bool then Some (mkRecord o s) else None)
              | _, _ => Ret None
              end
          end
      | _ => Ret None
      end
  end.

(** ** main.cpp: the daemon *)

Definition readRtcSec (file : option string) : option Z :=
  match readSmallFile file with
  | None => None
  | Some text => ParseInt (Trim text) 0 UINT32_MAX
  end.

Definition loadRecord (file : option string) : ub (option record) :=
  match readSmallFile file with
  | None => Ret None
  | Some text => parseRecord text
  end.

(** [restore]: the time set, if any, from the record file, the RTC file and the
    system clock. *)
Definition restore (recordFile rtcFile : option string) (now : timespec) : ub (option timespec) :=
  saved ← loadRecord recordFile;
  match saved with
  | None => Ret None
  | Some s =>
      match readRtcSec rtcFile with
      | None => Ret None
      | Some rtc =>
          nowMs ← realtimeMs now;
          t ← restoreTargetMs s rtc nowMs;
          Ret (match t with
               | None => None
               | Some target => Some (mkTimespec (Z.quot target 1000) (Z.rem target 1000 * 1000000))
               end)
      end
  end.

(** What the daemon sees when it wakes up: the RTC file, the clock and how the
    system calls of a save would go. *)
Record wake := mkWake { w_rtc : option string; w_now : timespec; w_io : save_io }.

Record daemon := mkDaemon { d_saved : option record; d_fs : fs }.

(** [measure] *)
Definition measure (w : wake) (d : daemon) : ub daemon :=
  match readRtcSec (w_rtc w) with
  | None => Ret d
  | Some rtc =>
      rtcMs ← mul64 rtc 1000;
      nowMs ← realtimeMs (w_now w);
      o ← sub64 nowMs rtcMs;
      let current := mkRecord o rtc in
      need ← needsSave (d_saved d) current;
      if negb need then Ret d else
      let '(trace, ok) := saveRecord (w_io w) current (d_fs d) in
      Ret (mkDaemon (if ok then Some current else d_saved d) (last_fs (d_fs d) trace))
  end.

(** [main] without arguments: load the record, then measure at every wake. *)
Fixpoint measure_loop (ws : list wake) (d : daemon) : ub daemon :=
  match ws with
  | [] => Ret d
  | w :: ws => d' ← measure w d; measure_loop ws d'
  end.

Definition timekeepd (s : fs) (ws : list wake) : ub daemon :=
  saved ← loadRecord (fs_read kRecordPath s);
  measure_loop ws (mkDaemon saved s).

End WithLibBase.

(** [arm]: the absolute second the timer is set to; [kRecheckSec] later. *)
Definition kRecheckSec : Z := Z.quot kRefreshMs 1000.
Definition arm (nowMs : Z) : Z := Z.quot nowMs 1000 + kRecheckSec.

(** ** The record, its text and the overflow checks *)

(** The records [valid] accepts, on unbounded integers. *)
Definition Valid (r : record) : Prop :=
  0 <= rtcSec r <= kMaxRtcSec /\
  - kMaxRtcSec * 1000 <= offsetMs r < kMaxWallMs /\
  kMinWallMs <= rtcSec r * 1000 + offsetMs r < kMaxWallMs.

Definition wall (r : record) : Z := rtcSec r * 1000 + offsetMs r.

Ltac consts :=
  unfold Valid, wall, kSaveThresholdMs, kRefreshMs, kUnsetClockMarginMs, kMaxRtcSec,
    kMinWallMs, kMaxWallMs, UINT32_MAX in *.

(** [valid] never overflows, whatever the fields, and decides [Valid]. *)
Lemma valid_spec r : exists b, valid r = Ret b /\ (b = true <-> Valid r).
Proof.
  unfold valid, wallMs. destruct r as [o s]. cbn [offsetMs rtcSec].
  destruct ((0 <=? s) && _ && _ && _) eqn:E; boolprop; consts.
  - run64. destruct (_ <=? _) eqn:E'; boolprop; eexists; (split; [reflexivity|]);
      [rewrite Z.ltb_lt|]; cbn in *; split; intros; try discriminate; lia.
  - exists false. split; [reflexivity|]. split; [discriminate|]. intros H. cbn in *.
    repeat rewrite andb_false_iff in E. rewrite !Z.leb_gt, Z.ltb_ge in E. lia.
Qed.

Lemma valid_true r : Valid r -> valid r = Ret true.
Proof. intros H. destruct (valid_spec r) as (b & -> & Hb). f_equal. now apply Hb. Qed.

Lemma Valid_wallMs r : Valid r -> wallMs r = Ret (wall r).
Proof. intros H. unfold wallMs. consts. now run64. Qed.

Lemma Valid_i64 r : Valid r -> is_i64 (offsetMs r) /\ is_i64 (rtcSec r).
Proof. intros H. consts. range. Qed.

#[export] Hint Resolve valid_true Valid_wallMs Valid_i64 : fp6.

Lemma Valid_needsSave saved r :
  (forall s, saved = Some s -> Valid s) ->
  exists b, needsSave saved r = Ret b /\
    (b = true -> Valid r) /\
    (b = false -> Valid r -> kUnsetClockMarginMs <= Z.abs (offsetMs r) ->
     exists s, saved = Some s /\ rtcSec s <= rtcSec r /\
       Z.abs (offsetMs r - offsetMs s) < kSaveThresholdMs /\ wall r - wall s < kRefreshMs).
Proof.
  intros Hsaved. unfold needsSave. destruct (valid_spec r) as (v & -> & Hv).
  cbn [mbind ub_bind]. destruct v; cbn [negb]; [| exists false; split; [easy | split; [easy | intros _ Hr; apply Hv in Hr; discriminate]]].
  assert (Valid r) as Hr by now apply Hv.
  pose proof (Valid_i64 r Hr). rewrite abs64_ok by (consts; range). cbn [mbind ub_bind].
  destruct (Z.abs (offsetMs r) <? kUnsetClockMarginMs) eqn:E; boolprop;
    [exists false; split; [easy|]; split; [easy | intros; lia] |].
  destruct saved as [s|]; [| exists true; split; [easy | split; easy]].
  assert (Valid s) as Hs by now apply Hsaved.
  destruct (rtcSec r <? rtcSec s) eqn:E1; boolprop; [exists true; split; [easy | split; easy] |].
  rewrite sub64_ok by (consts; range). cbn [mbind ub_bind].
  rewrite abs64_ok by (consts; range). cbn [mbind ub_bind].
  destruct (kSaveThresholdMs <=? _) eqn:E2; boolprop; [exists true; split; [easy | split; easy] |].
  rewrite !Valid_wallMs by assumption. cbn [mbind ub_bind].
  rewrite sub64_ok by (consts; range). cbn [mbind ub_bind].
  eexists; split; [reflexivity|]. split; [easy|]. intros E3 _ _. boolprop. eauto 6.
Qed.

(** The restore decision on a valid record, without overflow checks. *)
Lemma restoreTargetMs_eq saved rtc nowMs :
  Valid saved -> is_u32 rtc -> Z.abs nowMs <= INT64_MAX / 2 ->
  restoreTargetMs saved rtc nowMs = Ret
    (if kUnsetClockMarginMs <=? Z.abs (nowMs - rtc * 1000) then None else
     if wall saved <=? nowMs then None else
     if rtc <? rtcSec saved then Some (wall saved) else
     if kMaxWallMs <=? rtc * 1000 + offsetMs saved then None
     else Some (rtc * 1000 + offsetMs saved)).
Proof.
  intros Hs Hrtc Hnow. change (INT64_MAX / 2) with 4611686018427387903 in Hnow.
  unfold restoreTargetMs. run64.
  destruct (_ <=? Z.abs _); [reflexivity|]. rewrite Valid_wallMs by exact Hs.
  cbn [mbind ub_bind]. destruct (_ <=? nowMs); [reflexivity|].
  destruct (rtc <? _); [reflexivity|].
  consts. run64. now destruct (_ <=? _).
Qed.

(** ** Text round trip *)

Section RoundTrip.
Context {L : LibBase} {LL : LibBaseLaws L}.

Lemma to_string_no_space z : str_free space (to_string z) = true.
Proof.
  apply to_string_forallb; [|reflexivity]. intros d Hd. apply negb_true_iff.
  apply bool_decide_eq_false. intros ->.
  change (char_code space) with 32 in Hd. lia.
Qed.

Lemma formatRecord_fields r :
  formatRecord r =
  String.concat " " [to_string kVersion; to_string (offsetMs r); to_string (rtcSec r)] +:+
  String newline "".
Proof.
  unfold formatRecord. rewrite !concat_cons2. cbn [String.concat].
  now rewrite !str_app_assoc.
Qed.

Lemma parse_format r : Valid r -> parseRecord (formatRecord r) = Ret (Some r).
Proof.
  intros Hr. pose proof (Valid_i64 r Hr) as [Ho Hs].
  unfold parseRecord. rewrite formatRecord_fields, str_last_snoc, str_init_snoc.
  rewrite bool_decide_true by reflexivity. cbn [negb].
  change " " with (String space ""). rewrite Split_concat;
    [| easy | repeat constructor; apply to_string_no_space].
  rewrite !ParseInt_to_string by (range || (unfold kVersion; range)).
  change (kVersion =? kVersion) with true. cbn [negb].
  destruct r as [o s]. now rewrite valid_true.
Qed.

Lemma formatRecord_short r : Valid r -> (String.length (formatRecord r) < kSmallFile)%nat.
Proof.
  intros Hr. unfold formatRecord. autorewrite with str. cbn [String.length].
  assert (String.length (to_string (offsetMs r)) <= 14)%nat
    by (apply to_string_length; [consts; cbn; lia | lia]).
  assert (String.length (to_string (rtcSec r)) <= 11)%nat
    by (apply to_string_length; [consts; cbn; lia | lia]).
  change (String.length (to_string kVersion)) with 1%nat. unfold kSmallFile. lia.
Qed.

Lemma load_format r : Valid r -> loadRecord (Some (formatRecord r)) = Ret (Some r).
Proof.
  intros Hr. unfold loadRecord, readSmallFile.
  pose proof (formatRecord_short r Hr).
  destruct (_ <=? _)%nat eqn:E; [apply Nat.leb_le in E; lia | now apply parse_format].
Qed.

(** Whatever the text, parsing has defined behaviour and yields valid records. *)
Lemma parseRecord_total text :
  exists o, parseRecord text = Ret o /\ forall r, o = Some r -> Valid r.
Proof.
  unfold parseRecord.
  repeat (case_goal; try (eexists; split; [reflexivity | discriminate])).
  destruct (valid_spec (mkRecord z0 z1)) as (b & -> & Hb). cbn [mbind ub_bind].
  eexists; split; [reflexivity|]. destruct b; intros r [= <-]. now apply Hb.
Qed.

Lemma loadRecord_total file :
  exists o, loadRecord file = Ret o /\ forall r, o = Some r -> Valid r.
Proof.
  unfold loadRecord. destruct (readSmallFile file);
    [apply parseRecord_total | eexists; split; [reflexivity | discriminate]].
Qed.

Lemma readRtcSec_range file rtc : readRtcSec file = Some rtc -> is_u32 rtc.
Proof.
  unfold readRtcSec. destruct (readSmallFile file); [|discriminate].
  intros H%ParseInt_range. range.
Qed.

End RoundTrip.

(** ** The record file under power loss *)

(** States the file system can reach: saves that stop at any point (the process
    can be killed between two calls) and power losses, in any order.  [hist]
    holds the records passed to [saveRecord]. *)
Inductive fs_reach : list record -> fs -> Prop :=
| reach_empty : fs_reach [] fs_empty
| reach_save hist s s' io r :
    fs_reach hist s -> s' ∈ (saveRecord io r s).1 -> fs_reach (r :: hist) s'
| reach_crash hist s s' : fs_reach hist s -> fs_crash s s' -> fs_reach hist s'.

(** A directory whose record, if any, is a complete one. *)
Definition dir_ok (hist : list record) (s : fs) (d : gmap string nat) : Prop :=
  (forall p i, d !! p = Some i -> (i < next_inode s)%nat) /\
  (forall i, d !! kRecordPath = Some i ->
     i ∈ synced s /\ exists r, r ∈ hist /\ data s !! i = Some (formatRecord r)).

(** The temporary file of [d] is not the record of [e]. *)
Definition apart (d e : gmap string nat) : Prop :=
  forall i j, d !! kTempPath = Some j -> e !! kRecordPath = Some i -> i <> j.

Definition fs_inv (hist : list record) (s : fs) : Prop :=
  dir_ok hist s (dir s) /\ dir_ok hist s (ddir s) /\
  apart (dir s) (dir s) /\ apart (dir s) (ddir s) /\ apart (ddir s) (ddir s).

Lemma dir_ok_mono hist hist' s d : hist ⊆ hist' -> dir_ok hist s d -> dir_ok hist' s d.
Proof. intros Hsub [H1 H2]. split; [exact H1|]. intros i Hi. destruct (H2 i Hi) as (? & r & ? & ?).
  split; [done|]. exists r. split; [now apply Hsub | done].
Qed.

(** Rewriting a file that is not a record leaves the records alone. *)
Lemma dir_ok_write hist s d i text s' :
  dir_ok hist s d -> d !! kRecordPath <> Some i ->
  data s' = <[i := text]> (data s) -> synced s' = synced s ∖ {[i]} ->
  (next_inode s <= next_inode s')%nat -> dir_ok hist s' d.
Proof.
  intros [H1 H2] Hne Hdata Hsync Hnext. split.
  - intros p j Hj. specialize (H1 p j Hj). lia.
  - intros j Hj. destruct (H2 j Hj) as (Hs & r & Hr & Hd).
    assert (j <> i) by congruence. rewrite Hdata, Hsync, lookup_insert_ne by done.
    split; [rewrite elem_of_difference, elem_of_singleton; done | eauto].
Qed.

Lemma dir_ok_next hist s d i : dir_ok hist s d -> (next_inode s <= i)%nat -> d !! kRecordPath <> Some i.
Proof. intros [H _] Hi Hd. specialize (H _ _ Hd). lia. Qed.

Lemma open_trunc_inv hist s fd s1 :
  fs_inv hist s -> fs_open_trunc kTempPath s = (fd, s1) ->
  fs_inv hist s1 /\ dir s1 !! kTempPath = Some fd /\ ddir s1 = ddir s.
Proof.
  intros (Hd & Hdd & A1 & A2 & A3). unfold fs_open_trunc.
  destruct (dir s !! kTempPath) as [i|] eqn:E; intros [= <- <-].
  - split; [|done]. assert (dir s !! kRecordPath <> Some i /\ ddir s !! kRecordPath <> Some i)
      as [N1 N2] by (split; intros N; [exact (A1 _ _ E N eq_refl) | exact (A2 _ _ E N eq_refl)]).
    split; [|split; [|done]]; eapply dir_ok_write; eauto.
  - pose proof (dir_ok_next _ _ _ (next_inode s) Hd ltac:(lia)) as N1.
    pose proof (dir_ok_next _ _ _ (next_inode s) Hdd ltac:(lia)) as N2.
    assert (dir_ok hist (mkFs (<[kTempPath := next_inode s]> (dir s)) (ddir s)
      (<[next_inode s := ""]> (data s)) (synced s ∖ {[next_inode s]}) (S (next_inode s)))
      (dir s)) as Hd' by (eapply dir_ok_write; eauto; cbn; lia).
    split; [|split; [apply lookup_insert_eq | done]].
    split; [|split; [|split; [|split]]]; cbn [dir ddir]; [| eapply dir_ok_write; eauto; cbn; lia | | | done].
    + destruct Hd' as [H1 H2]. split.
      * intros p j. rewrite lookup_insert. case_decide; [intros [= <-]; cbn; lia | apply H1].
      * intros j. rewrite lookup_insert_ne by done. apply H2.
    + intros a b. rewrite lookup_insert_eq, lookup_insert_ne by done. congruence.
    + intros a b. rewrite lookup_insert_eq. congruence.
Qed.

Lemma write_inv hist s fd text :
  fs_inv hist s -> dir s !! kTempPath = Some fd -> fs_inv hist (fs_write fd text s).
Proof.
  intros (Hd & Hdd & A1 & A2 & A3) Ht.
  assert (dir s !! kRecordPath <> Some fd /\ ddir s !! kRecordPath <> Some fd)
    as [N1 N2] by (split; intros N; [exact (A1 _ _ Ht N eq_refl) | exact (A2 _ _ Ht N eq_refl)]).
  split; [|split; [|done]]; cbn [dir ddir fs_write]; eapply dir_ok_write; eauto.
Qed.

Lemma fsync_inv hist s fd : fs_inv hist s -> fs_inv hist (fs_fsync fd s).
Proof.
  intros (Hd & Hdd & A). split; [|split; [|done]];
    (split; [apply Hd || apply Hdd |]); cbn; intros i Hi;
    [destruct Hd as [_ H] | destruct Hdd as [_ H]]; destruct (H i Hi); split; set_solver.
Qed.

Lemma rename_inv hist s fd r :
  fs_inv hist s -> dir s !! kTempPath = Some fd -> data s !! fd = Some (formatRecord r) ->
  fd ∈ synced s -> r ∈ hist -> fs_inv hist (fs_rename kTempPath kRecordPath s).
Proof.
  intros (Hd & Hdd & A1 & A2 & A3) Ht Hdata Hsync Hr. unfold fs_rename. rewrite Ht.
  split; [|split; [|split; [|split; [|done]]]]; cbn [dir ddir]; [| done | |].
  - split; cbn [synced data next_inode].
    + intros p i. rewrite lookup_insert. case_decide.
      * intros [= <-]. eapply Hd; eauto.
      * intros [_ H']%lookup_delete_Some. eapply Hd; eauto.
    + intros i. rewrite lookup_insert_eq. intros [= <-]. eauto.
  - intros i j. rewrite lookup_insert_ne, lookup_delete_eq by done. done.
  - intros i j. rewrite lookup_insert_ne, lookup_delete_eq by done. done.
Qed.

Lemma sync_dir_inv hist s : fs_inv hist s -> fs_inv hist (fs_sync_dir s).
Proof. intros (Hd & Hdd & A1 & A2 & A3). exact (conj Hd (conj Hd (conj A1 (conj A1 A1)))). Qed.

Lemma fs_inv_mono hist r s : fs_inv hist s -> fs_inv (r :: hist) s.
Proof.
  intros (Hd & Hdd & A). split; [|split; [|done]];
    (eapply dir_ok_mono; [|eassumption]); intros x Hx; now apply list_elem_of_further.
Qed.

Lemma saveRecord_inv hist io r s s' :
  fs_inv hist s -> s' ∈ (saveRecord io r s).1 -> fs_inv (r :: hist) s'.
Proof.
  intros Hinv%(fs_inv_mono _ r). unfold saveRecord.
  destruct (open_ok io); cbn [negb]; [|set_solver].
  destruct (fs_open_trunc kTempPath s) as [fd s1] eqn:E.
  destruct (open_trunc_inv _ _ _ _ Hinv E) as (I1 & T1 & _).
  pose proof (write_inv _ _ _ (written io) I1 T1) as I1'.
  pose proof (write_inv _ _ _ (formatRecord r) I1 T1) as I2.
  pose proof (fsync_inv _ _ fd I2) as I3.
  assert (fs_inv (r :: hist) (fs_rename kTempPath kRecordPath
    (fs_fsync fd (fs_write fd (formatRecord r) s1)))) as I4.
  { apply (rename_inv _ _ fd r I3); [done | apply lookup_insert_eq | cbn; set_solver | set_solver]. }
  pose proof (sync_dir_inv _ _ I4) as I5.
  repeat case_goal; cbn [fst]; rewrite ?elem_of_cons, ?elem_of_nil; intuition (subst; auto).
Qed.

Lemma crash_inv hist s s' : fs_inv hist s -> fs_crash s s' -> fs_inv hist s'.
Proof.
  intros (Hd & Hdd & A1 & A2 & A3) [d dat Hor Hdat].
  assert (dir_ok hist (mkFs d d dat (synced s) (next_inode s)) d) as Hok.
  { destruct Hor as [-> | ->]; [destruct Hd as [H1 H2] | destruct Hdd as [H1 H2]];
      (split; [exact H1|]); cbn; intros i Hi; destruct (H2 i Hi) as (Hs & r & Hr & Hx);
      (split; [exact Hs|]); exists r; split; trivial; rewrite Hdat by exact Hs; exact Hx. }
  repeat split; try (apply Hok); destruct Hor as [-> | ->]; done.
Qed.

Lemma fs_reach_inv hist s : fs_reach hist s -> fs_inv hist s.
Proof.
  induction 1; [| eauto using saveRecord_inv | eauto using crash_inv].
  assert (dir_ok [] fs_empty ∅) by (split; intros *; rewrite lookup_empty; discriminate).
  assert (apart ∅ ∅) by (intros ? ?; rewrite lookup_empty; discriminate).
  unfold fs_inv. cbn [dir ddir fs_empty]. auto.
Qed.

(** ** Facts the daemon's theorems share *)

(** [clock_gettime] returns a normalised time between the epoch and the
    kernel's last representable second. *)
Definition ktime (ts : timespec) : Prop :=
  0 <= tv_sec ts <= 9223372036 /\ 0 <= tv_nsec ts < 1000000000.

Definition ms_of (ts : timespec) : Z := tv_sec ts * 1000 + tv_nsec ts / 1000000.

Definition all_ok (io : save_io) : Prop :=
  open_ok io = true /\ write_ok io = true /\ fsync_ok io = true /\
  rename_ok io = true /\ sync_dir_ok io = true.

Lemma realtimeMs_ok ts : ktime ts -> realtimeMs ts = Ret (ms_of ts).
Proof.
  intros [H1 H2]. unfold realtimeMs, ms_of. rewrite Z.quot_div_nonneg by lia. now run64.
Qed.

Lemma ktime_ms ts : ktime ts -> 0 <= ms_of ts <= 9223372036999.
Proof. unfold ktime, ms_of. lia. Qed.

Lemma split_ms t : 0 <= t ->
  ms_of (mkTimespec (Z.quot t 1000) (Z.rem t 1000 * 1000000)) = t.
Proof.
  intros H. unfold ms_of. cbn [tv_sec tv_nsec].
  rewrite Z.quot_div_nonneg, Z.rem_mod_nonneg, Z.div_mul by lia. lia.
Qed.

Lemma saveRecord_ok io r s :
  all_ok io ->
  exists s', saveRecord io r s = (s', true) /\
    fs_read kRecordPath (last_fs s s') = Some (formatRecord r).
Proof.
  intros (E1 & E2 & E3 & E4 & E5).
  unfold saveRecord. rewrite E1, E2, E3, E4, E5. cbn [negb].
  destruct (fs_open_trunc kTempPath s) as [fd s1] eqn:E.
  assert (dir s1 !! kTempPath = Some fd) as Hd.
  { unfold fs_open_trunc in E. destruct (dir s !! kTempPath) eqn:Et; injection E as <- <-;
      [done | apply lookup_insert_eq]. }
  eexists. split; [reflexivity|].
  set (s3 := fs_fsync fd (fs_write fd (formatRecord r) s1)).
  change (fs_read kRecordPath (fs_sync_dir (fs_rename kTempPath kRecordPath s3)) =
          Some (formatRecord r)).
  assert (dir s3 !! kTempPath = Some fd) as Hd3 by exact Hd.
  assert (data s3 !! fd = Some (formatRecord r)) as Hx by apply lookup_insert_eq.
  unfold fs_rename. rewrite Hd3. unfold fs_read, fs_sync_dir. cbn [dir data].
  rewrite lookup_insert_eq. exact Hx.
Qed.

(** A wake used by the concrete instances below: counter at 900 s, clock in 2026,
    every system call succeeds. *)
Definition ex_wake : wake :=
  mkWake (Some ("900" +:+ String newline "")) (mkTimespec 1780000000 0)
    (mkSaveIo true true "" true true true).

Section Daemon.
Context {L : LibBase} {LL : LibBaseLaws L}.

(** One measurement: never undefined, keeps the record in memory valid, and
    leaves the saved time recent when its save succeeds. *)
Lemma measure_spec w d :
  ktime (w_now w) -> (forall r, d_saved d = Some r -> Valid r) ->
  exists d', measure w d = Ret d' /\ (forall r, d_saved d' = Some r -> Valid r) /\
    (all_ok (w_io w) -> loadRecord (fs_read kRecordPath (d_fs d)) = Ret (d_saved d) ->
     loadRecord (fs_read kRecordPath (d_fs d')) = Ret (d_saved d')) /\
    (forall s, all_ok (w_io w) -> readRtcSec (w_rtc w) = Some s ->
     let cur := mkRecord (ms_of (w_now w) - s * 1000) s in
     Valid cur -> kUnsetClockMarginMs <= Z.abs (offsetMs cur) ->
     exists r, d_saved d' = Some r /\ rtcSec r <= s /\
       Z.abs (offsetMs cur - offsetMs r) < kSaveThresholdMs /\
       wall cur - wall r < kRefreshMs).
Proof.
  intros Hk Hsaved. unfold measure. pose proof (ktime_ms _ Hk) as Hms.
  destruct (readRtcSec (w_rtc w)) as [s|] eqn:Ertc; [| exists d; repeat (split; [done|]); intros; discriminate].
  pose proof (readRtcSec_range _ _ Ertc) as Hs.
  rewrite mul64_ok by range. cbn [mbind ub_bind].
  rewrite realtimeMs_ok by exact Hk. cbn [mbind ub_bind].
  rewrite sub64_ok by range. cbn [mbind ub_bind].
  set (cur := mkRecord (ms_of (w_now w) - s * 1000) s).
  destruct (Valid_needsSave (d_saved d) cur Hsaved) as (b & -> & Htrue & Hfalse).
  cbn [mbind ub_bind]. destruct b; cbn [negb].
  - destruct (saveRecord (w_io w) cur (d_fs d)) as [trace ok] eqn:E.
    assert (Valid cur) as Hcur by auto.
    eexists; split; [reflexivity|]. split; [|split]; cbn [d_saved d_fs].
    + intros r. destruct ok; [intros [= <-] | ]; auto.
    + intros Hok _. destruct (saveRecord_ok _ cur (d_fs d) Hok) as (s' & E' & Hread).
      rewrite E in E'. injection E' as -> ->. rewrite Hread. now apply load_format.
    + intros s' Hok [= <-] _ _. destruct (saveRecord_ok _ cur (d_fs d) Hok) as (s'' & E' & _).
      rewrite E in E'. injection E' as -> ->. exists cur. split; [done|]. subst cur. consts.
      cbn [offsetMs rtcSec]. lia.
  - exists d. split; [done|]. split; [done|]. split; [done|].
    intros s' _ [= <-] Hcur Habs. destruct (Hfalse eq_refl Hcur Habs) as (r & -> & H).
    exists r. split; [done | exact H].
Qed.

Lemma measure_loop_spec ws d :
  Forall (fun w => ktime (w_now w)) ws -> (forall r, d_saved d = Some r -> Valid r) ->
  exists d', measure_loop ws d = Ret d' /\ (forall r, d_saved d' = Some r -> Valid r) /\
    (Forall (fun w => all_ok (w_io w)) ws ->
     loadRecord (fs_read kRecordPath (d_fs d)) = Ret (d_saved d) ->
     loadRecord (fs_read kRecordPath (d_fs d')) = Ret (d_saved d')).
Proof.
  intros Hk. revert d. induction Hk as [|w ws Hw Hk IH]; intros d Hd; cbn [measure_loop].
  - eauto.
  - destruct (measure_spec w d Hw Hd) as (d1 & -> & H1 & H2 & _). cbn [mbind ub_bind].
    destruct (IH d1 H1) as (d2 & E2 & H3 & H4). exists d2. split; [exact E2|].
    split; [exact H3|]. intros Hok Hload. inversion Hok; subst. auto.
Qed.

(** Restoring, on any files and any kernel time. *)
Lemma restore_spec recordFile rtcFile now :
  ktime now ->
  exists o, restore recordFile rtcFile now = Ret o /\
    forall ts, o = Some ts ->
      0 <= tv_nsec ts < 1000000000 /\ ms_of now < ms_of ts /\
      kMinWallMs <= ms_of ts < kMaxWallMs /\
      exists r, loadRecord recordFile = Ret (Some r) /\ wall r <= ms_of ts.
Proof.
  intros Hk. unfold restore. pose proof (ktime_ms _ Hk) as Hms.
  destruct (loadRecord_total recordFile) as ([r|] & -> & Hr); cbn [mbind ub_bind];
    [| eexists; split; [reflexivity | discriminate]].
  specialize (Hr r eq_refl).
  destruct (readRtcSec rtcFile) as [rtc|] eqn:Ertc; [| eexists; split; [reflexivity | discriminate]].
  pose proof (readRtcSec_range _ _ Ertc) as Hrtc.
  rewrite realtimeMs_ok by exact Hk. cbn [mbind ub_bind].
  rewrite restoreTargetMs_eq by (trivial; change (INT64_MAX / 2) with 4611686018427387903; lia).
  cbn [mbind ub_bind]. eexists; split; [reflexivity|]. intros ts Hts.
  match type of Hts with match ?x with _ => _ end = _ => destruct x as [t|] eqn:Et end;
    [injection Hts as <- | discriminate].
  assert (ms_of now < t /\ kMinWallMs <= t < kMaxWallMs /\ wall r <= t) as (H1 & H2 & H3).
  { repeat case_hyp Et; try discriminate; injection Et as <-; boolprop; consts; lia. }
  assert (0 <= t) by (consts; lia). rewrite split_ms by assumption.
  split; [| eauto 6]. cbn [tv_nsec]. rewrite Z.rem_mod_nonneg by lia. lia.
Qed.

End Daemon.

(** ** Properties *)

(** C14. Restoring the clock at boot is always defined behaviour and can only move
    the clock forward: a time that is set is a normalised [timespec], later than
    the current clock, not before the time of the saved record, and between
    2026 and 2100. *)
Theorem restore_only_forward {L : LibBase} {LL : LibBaseLaws L}
    (recordFile rtcFile : option string) (now : timespec) :
  ktime now ->
  exists o, restore recordFile rtcFile now = Ret o /\
    forall ts, o = Some ts ->
      0 <= tv_nsec ts < 1000000000 /\ ms_of now < ms_of ts /\
      kMinWallMs <= ms_of ts < kMaxWallMs /\
      exists r, loadRecord recordFile = Ret (Some r) /\ wall r <= ms_of ts.
Proof. apply restore_spec. Qed.

Lemma restore_only_forward_witness :
  ktime (mkTimespec 1000 500000000) /\
  (exists o, restore (L := RefLibBase) (Some ("1 1780000000000 900" +:+ String newline ""))
     (Some ("1000" +:+ String newline "")) (mkTimespec 1000 500000000) = Ret o /\
   forall ts, o = Some ts ->
     0 <= tv_nsec ts < 1000000000 /\ 1000500 < ms_of ts /\
     kMinWallMs <= ms_of ts < kMaxWallMs /\
     exists r, loadRecord (L := RefLibBase) (Some ("1 1780000000000 900" +:+ String newline "")) =
       Ret (Some r) /\ wall r <= ms_of ts).
Proof.
  assert (ktime (mkTimespec 1000 500000000)) as H by (unfold ktime; cbn; lia).
  split; [exact H|]. exact (restore_only_forward _ _ _ H).
Defined.



(** Writing and reading back a record gives the record, also through the
    64-byte file reader, for every record the daemon accepts. *)
Theorem record_roundtrip {L : LibBase} {LL : LibBaseLaws L} (r : record) :
  valid r = Ret true ->
  loadRecord (Some (formatRecord r)) = Ret (Some r) /\
  (String.length (formatRecord r) < kSmallFile)%nat.
Proof.
  intros H. destruct (valid_spec r) as (b & E & Hb). rewrite E in H. injection H as ->.
  assert (Valid r) by now apply Hb. split; [now apply load_format | now apply formatRecord_short].
Qed.

Lemma record_roundtrip_witness :
  valid (mkRecord 1780000000000 900) = Ret true /\
  loadRecord (L := RefLibBase) (Some (formatRecord (mkRecord 1780000000000 900))) =
    Ret (Some (mkRecord 1780000000000 900)) /\
  (String.length (formatRecord (mkRecord 1780000000000 900)) < kSmallFile)%nat.
Proof.
  assert (valid (mkRecord 1780000000000 900) = Ret true) as H by reflexivity.
  split; [exact H|]. exact (record_roundtrip (L := RefLibBase) _ H).
Defined.

(** C31. The record file is never torn: after any number of saves that stop at
    any system call and of power losses, in any order, the record file is absent
    or holds the complete text of a record that was passed to [saveRecord]. *)
Theorem record_file_atomic (hist : list record) (s : fs) :
  fs_reach hist s ->
  fs_read kRecordPath s = None \/
  exists r, r ∈ hist /\ fs_read kRecordPath s = Some (formatRecord r).
Proof.
  intros H%fs_reach_inv. destruct H as ((_ & Hrec) & _). unfold fs_read.
  destruct (dir s !! kRecordPath) as [i|] eqn:E; [right | now left].
  destruct (Hrec i eq_refl) as (_ & r & Hr & Hd). exists r. split; [exact Hr | exact Hd].
Qed.

Lemma record_file_atomic_witness :
  let r := mkRecord 1780000000000 900 in
  let s := last_fs fs_empty (saveRecord (mkSaveIo true true "" true true false) r fs_empty).1 in
  fs_read kRecordPath s = None \/
  exists r', r' ∈ [r] /\ fs_read kRecordPath s = Some (formatRecord r').
Proof.
  cbv zeta. apply record_file_atomic.
  apply (reach_save [] fs_empty _ (mkSaveIo true true "" true true false)); [apply reach_empty |].
  apply list_elem_of_lookup_2 with (i := 3%nat). reflexivity.
Defined.

(** The daemon runs without undefined behaviour on any file system contents
    and any sequence of wakes, with any system call failing; the record it holds
    is always a valid one, and while the saves succeed it is the record a reboot
    would load. *)
Theorem timekeepd_defined {L : LibBase} {LL : LibBaseLaws L} (s : fs) (ws : list wake) :
  Forall (fun w => ktime (w_now w)) ws ->
  exists d, timekeepd s ws = Ret d /\
    (forall r, d_saved d = Some r -> valid r = Ret true) /\
    (Forall (fun w => all_ok (w_io w)) ws ->
     loadRecord (fs_read kRecordPath (d_fs d)) = Ret (d_saved d)).
Proof.
  intros Hk. unfold timekeepd.
  destruct (loadRecord_total (fs_read kRecordPath s)) as (o & E & Ho).
  rewrite E. cbn [mbind ub_bind].
  destruct (measure_loop_spec ws (mkDaemon o s) Hk Ho) as (d & Ed & H1 & H2).
  exists d. split; [exact Ed|]. split; [intros r Hr; apply valid_true; eauto | auto].
Qed.

Lemma timekeepd_defined_witness :
  let ws := [ex_wake] in
  Forall (fun w => ktime (w_now w)) ws /\
  exists d, timekeepd (L := RefLibBase) fs_empty ws = Ret d /\
    (forall r, d_saved d = Some r -> valid r = Ret true) /\
    (Forall (fun w => all_ok (w_io w)) ws ->
     loadRecord (L := RefLibBase) (fs_read kRecordPath (d_fs d)) = Ret (d_saved d)).
Proof.
  intros ws. assert (Forall (fun w => ktime (w_now w)) ws) as H
    by (repeat constructor; cbn; lia).
  split; [exact H|]. exact (timekeepd_defined (L := RefLibBase) fs_empty ws H).
Defined.

(** The saved time stays recent: after a measurement whose system calls
    succeed, with a plausible clock that is ahead of the counter, the record held
    is at most one hour (and the offset less than a second) behind it. *)
Theorem measure_keeps_recent {L : LibBase} {LL : LibBaseLaws L} (w : wake) (d : daemon) (s : Z) :
  ktime (w_now w) -> (forall r, d_saved d = Some r -> valid r = Ret true) ->
  all_ok (w_io w) -> readRtcSec (w_rtc w) = Some s ->
  let cur := mkRecord (ms_of (w_now w) - s * 1000) s in
  valid cur = Ret true -> kUnsetClockMarginMs <= Z.abs (offsetMs cur) ->
  exists d' r, measure w d = Ret d' /\ d_saved d' = Some r /\ rtcSec r <= s /\
    Z.abs (offsetMs cur - offsetMs r) < kSaveThresholdMs /\
    (rtcSec cur * 1000 + offsetMs cur) - (rtcSec r * 1000 + offsetMs r) < kRefreshMs.
Proof.
  intros Hk Hsaved Hok Hrtc cur Hcur Habs.
  assert (forall r, valid r = Ret true -> Valid r) as Hv.
  { intros r Hr. destruct (valid_spec r) as (b & E & Hb). rewrite E in Hr.
    injection Hr as ->. now apply Hb. }
  destruct (measure_spec w d Hk ltac:(auto)) as (d' & -> & _ & _ & H).
  destruct (H s Hok Hrtc (Hv _ Hcur) Habs) as (r & Hr & H'). eauto 8.
Qed.

Lemma measure_keeps_recent_witness :
  exists d' r,
    measure (L := RefLibBase) ex_wake (mkDaemon None fs_empty) = Ret d' /\
    d_saved d' = Some r /\ rtcSec r <= 900 /\
    Z.abs (ms_of (w_now ex_wake) - 900 * 1000 - offsetMs r) < kSaveThresholdMs /\
    (900 * 1000 + (ms_of (w_now ex_wake) - 900 * 1000)) - (rtcSec r * 1000 + offsetMs r) <
      kRefreshMs.
Proof.
  apply (measure_keeps_recent (L := RefLibBase) ex_wake (mkDaemon None fs_empty) 900).
  - unfold ktime; cbn; lia.
  - discriminate.
  - repeat split.
  - vm_compute; reflexivity.
  - vm_compute; reflexivity.
  - vm_compute; discriminate.
Defined.
