(* ===== verification/AuthToken.v ===== *)
(** * Hardware auth tokens

    Models [toLegacy] and [fromLegacy] of [fingerprint/Session.cpp]: the
    conversion between the AIDL token and the packed token of the legacy
    fingerprint module, whose authenticator type and timestamp are stored in
    network byte order (the device is little-endian). *)

From S2P Require Import Prelude.

(** ** Byte order *)

(** The low [n] bytes of [z], least significant first. *)
Fixpoint le_bytes (n : nat) (z : Z) : list Z :=
  match n with
  | O => []
  | S m => z mod 256 :: le_bytes m (z / 256)
  end.

Fixpoint le_value (bs : list Z) : Z :=
  match bs with
  | [] => 0
  | b :: t => b + 256 * le_value t
  end.

(** [htobe32]/[be32toh] and [htobe64]/[be64toh] on a little-endian machine. *)
Definition bswap (n : nat) (z : Z) : Z := le_value (reverse (le_bytes n z)).
Definition htobe32 (z : Z) : Z := bswap 4 z.
Definition htobe64 (z : Z) : Z := bswap 8 z.

(** ** Tokens *)

(** The AIDL [HardwareAuthToken]; integer fields are signed. *)
Record HardwareAuthToken := mkHat {
  hat_challenge : Z;
  hat_userId : Z;
  hat_authenticatorId : Z;
  hat_authenticatorType : Z;
  hat_timestamp : Z;
  hat_mac : list Z;
}.

(** The packed [hw_auth_token_t]; integer fields are unsigned. *)
Record hw_auth_token_t := mkToken {
  tok_version : Z;
  tok_challenge : Z;
  tok_user_id : Z;
  tok_authenticator_id : Z;
  tok_authenticator_type : Z;
  tok_timestamp : Z;
  tok_hmac : list Z;
}.

#[global] Instance hat_eq_dec : EqDecision HardwareAuthToken.
Proof. solve_decision. Defined.
#[global] Instance token_eq_dec : EqDecision hw_auth_token_t.
Proof. solve_decision. Defined.

Definition hmac_size : nat := 32.

(** [memcpy] of at most [sizeof(token.hmac)] bytes into a zeroed array. *)
Definition copy_mac (mac : list Z) : list Z :=
  take hmac_size mac ++ replicate (hmac_size - length mac) 0.

Definition toLegacy (version : Z) (hat : HardwareAuthToken) : hw_auth_token_t := {|
  tok_version := version;
  tok_challenge := u64 (hat_challenge hat);
  tok_user_id := u64 (hat_userId hat);
  tok_authenticator_id := u64 (hat_authenticatorId hat);
  tok_authenticator_type := htobe32 (u32 (hat_authenticatorType hat));
  tok_timestamp := htobe64 (u64 (hat_timestamp hat));
  tok_hmac := copy_mac (hat_mac hat);
|}.

Definition fromLegacy (token : hw_auth_token_t) : HardwareAuthToken := {|
  hat_challenge := i64 (tok_challenge token);
  hat_userId := i64 (tok_user_id token);
  hat_authenticatorId := i64 (tok_authenticator_id token);
  hat_authenticatorType := i32 (htobe32 (tok_authenticator_type token));
  hat_timestamp := i64 (htobe64 (tok_timestamp token));
  hat_mac := tok_hmac token;
|}.

(** ** Lemmas *)

Lemma length_le_bytes n z : length (le_bytes n z) = n.
Proof. revert z. induction n; intros; cbn; congruence. Qed.

Lemma le_bytes_value n z : 0 <= z < 256 ^ Z.of_nat n -> le_value (le_bytes n z) = z.
Proof.
  revert z. induction n as [|n IH]; intros z Hz.
  - change (256 ^ Z.of_nat 0) with 1 in Hz. cbn. lia.
  - cbn. rewrite Nat2Z.inj_succ, Z.pow_succ_r in Hz by lia. rewrite IH; lia.
Qed.

Lemma le_bytes_range n z : Forall (fun b => 0 <= b < 256) (le_bytes n z).
Proof. revert z. induction n; intros; cbn; constructor; auto. lia. Qed.

Lemma le_value_bytes bs :
  Forall (fun b => 0 <= b < 256) bs -> le_bytes (length bs) (le_value bs) = bs.
Proof.
  induction 1 as [|b bs Hb Hbs IH]; cbn; [easy|]. f_equal; [lia|].
  replace ((b + 256 * le_value bs) / 256) with (le_value bs) by lia. exact IH.
Qed.

Lemma le_value_range bs :
  Forall (fun b => 0 <= b < 256) bs -> 0 <= le_value bs < 256 ^ Z.of_nat (length bs).
Proof.
  induction 1 as [|b bs Hb Hbs IH]; cbn [le_value length]; [cbn; lia|].
  rewrite Nat2Z.inj_succ, Z.pow_succ_r by lia. lia.
Qed.

Lemma rev_bytes_range n z : Forall (fun b => 0 <= b < 256) (reverse (le_bytes n z)).
Proof. apply Forall_reverse, le_bytes_range. Qed.

Lemma bswap_range n z : 0 <= bswap n z < 256 ^ Z.of_nat n.
Proof.
  unfold bswap. pose proof (le_value_range _ (rev_bytes_range n z)) as H.
  now rewrite length_reverse, length_le_bytes in H.
Qed.

(** Swapping the bytes twice is the identity on [n]-byte values. *)
Lemma bswap_bswap n z : 0 <= z < 256 ^ Z.of_nat n -> bswap n (bswap n z) = z.
Proof.
  intros Hz. unfold bswap at 1 2.
  assert (length (reverse (le_bytes n z)) = n) as Hl
    by now rewrite length_reverse, length_le_bytes.
  rewrite <- Hl at 1. rewrite le_value_bytes by apply rev_bytes_range.
  rewrite reverse_involutive. now apply le_bytes_value.
Qed.

Lemma htobe32_twice z : is_u32 z -> htobe32 (htobe32 z) = z.
Proof. intros H. apply (bswap_bswap 4). change (256 ^ Z.of_nat 4) with 4294967296. range. Qed.
Lemma htobe64_twice z : is_u64 z -> htobe64 (htobe64 z) = z.
Proof. intros H. apply (bswap_bswap 8). change (256 ^ Z.of_nat 8) with 18446744073709551616. range. Qed.

Lemma i64_u64 z : is_i64 z -> i64 (u64 z) = z.
Proof.
  intros H. unfold i64, u64. rewrite Zplus_mod_idemp_l, Z.mod_small; range.
Qed.
Lemma i32_u32 z : is_i32 z -> i32 (u32 z) = z.
Proof.
  intros H. unfold i32, u32. rewrite Zplus_mod_idemp_l, Z.mod_small; range.
Qed.
Lemma u64_i64 z : is_u64 z -> u64 (i64 z) = z.
Proof.
  intros H. unfold i64, u64.
  rewrite Zminus_mod_idemp_l, Z.add_simpl_r, Z.mod_small; range.
Qed.
Lemma u32_i32 z : is_u32 z -> u32 (i32 z) = z.
Proof.
  intros H. unfold i32, u32.
  rewrite Zminus_mod_idemp_l, Z.add_simpl_r, Z.mod_small; range.
Qed.

Lemma copy_mac_full mac : length mac = hmac_size -> copy_mac mac = mac.
Proof.
  intros H. unfold copy_mac. rewrite H, Nat.sub_diag, take_ge by lia. apply app_nil_r.
Qed.

(** ** Properties *)

(** The tokens of the AIDL side: 64-bit (type: 32-bit) signed fields. *)
Definition hat_ok (hat : HardwareAuthToken) : Prop :=
  is_i64 (hat_challenge hat) /\ is_i64 (hat_userId hat) /\ is_i64 (hat_authenticatorId hat) /\
  is_i32 (hat_authenticatorType hat) /\ is_i64 (hat_timestamp hat).

(** The tokens of the module side: unsigned fields and a full HMAC. *)
Definition token_ok (t : hw_auth_token_t) : Prop :=
  is_u64 (tok_challenge t) /\ is_u64 (tok_user_id t) /\ is_u64 (tok_authenticator_id t) /\
  is_u32 (tok_authenticator_type t) /\ is_u64 (tok_timestamp t) /\ length (tok_hmac t) = hmac_size.

(** Auth tokens survive the translation both ways: an AIDL token comes back
    with every field unchanged and its MAC cut or zero-padded to 32 bytes, and a
    module token comes back unchanged but for the version, which is always the
    header's. *)
Theorem token_roundtrip (version : Z) (hat : HardwareAuthToken) (t : hw_auth_token_t) :
  hat_ok hat -> token_ok t ->
  fromLegacy (toLegacy version hat) =
    mkHat (hat_challenge hat) (hat_userId hat) (hat_authenticatorId hat)
      (hat_authenticatorType hat) (hat_timestamp hat) (copy_mac (hat_mac hat)) /\
  (length (hat_mac hat) = hmac_size -> fromLegacy (toLegacy version hat) = hat) /\
  toLegacy version (fromLegacy t) =
    mkToken version (tok_challenge t) (tok_user_id t) (tok_authenticator_id t)
      (tok_authenticator_type t) (tok_timestamp t) (tok_hmac t).
Proof.
  intros (H1 & H2 & H3 & H4 & H5) (K1 & K2 & K3 & K4 & K5 & K6).
  assert (fromLegacy (toLegacy version hat) =
    mkHat (hat_challenge hat) (hat_userId hat) (hat_authenticatorId hat)
      (hat_authenticatorType hat) (hat_timestamp hat) (copy_mac (hat_mac hat))) as E.
  { unfold fromLegacy, toLegacy. cbn -[htobe32 htobe64 i64 u64 i32 u32 copy_mac].
    rewrite htobe32_twice, htobe64_twice by auto with fp6.
    now rewrite !i64_u64, i32_u32. }
  split; [exact E|]. split.
  - intros Hl. rewrite E, copy_mac_full by exact Hl. now destruct hat.
  - unfold fromLegacy, toLegacy. cbn -[htobe32 htobe64 i64 u64 i32 u32 copy_mac].
    pose proof (bswap_range 4 (tok_authenticator_type t)) as B4.
    pose proof (bswap_range 8 (tok_timestamp t)) as B8.
    change (256 ^ Z.of_nat 4) with 4294967296 in B4.
    change (256 ^ Z.of_nat 8) with 18446744073709551616 in B8.
    rewrite !u64_i64, u32_i32 by (trivial; unfold htobe32, htobe64; range).
    rewrite htobe32_twice, htobe64_twice, copy_mac_full by assumption.
    reflexivity.
Qed.

Lemma token_roundtrip_witness :
  let hat := mkHat (-5) 10 77 2 123456789 (replicate 32 7) in
  let t := toLegacy 0 hat in
  fromLegacy (toLegacy 0 hat) = mkHat (-5) 10 77 2 123456789 (copy_mac (replicate 32 7)) /\
  (length (replicate 32 7) = hmac_size -> fromLegacy (toLegacy 0 hat) = hat) /\
  toLegacy 0 (fromLegacy t) =
    mkToken 0 (tok_challenge t) (tok_user_id t) (tok_authenticator_id t)
      (tok_authenticator_type t) (tok_timestamp t) (tok_hmac t).
Proof.
  intros hat t. apply (token_roundtrip 0 hat t).
  - unfold hat_ok. cbn. range.
  - unfold token_ok. vm_compute. intuition congruence.
Defined.
