(* ===== verification/Session.v ===== *)
(** * The fingerprint session

    Models [fingerprint/Session.h], [fingerprint/Session.cpp] and the message
    layout of [fingerprint/LegacyHal.h].  The state of one session is [session];
    each critical section of the session's own lock [mMutex] is one definition in
    the state-and-output monad [sm].  A request that calls into the module holds
    [moduleMutex] over the call; [pc] is where such a request stands, [task] what
    a thread that waits for the lock (or has left it) still has to do, and [step]
    interleaves them with the module's callbacks, so that every order of critical
    sections the two locks allow is an execution of the model.  The module itself
    is not modelled: it may call back at any time and return any code.

    [contract] is the promise of Session.h as an automaton over the calls the
    session makes: one terminal result per operation, results only of the running
    operation's kind, nothing into the module after the session is detached, and to the
    client then only answers the module had given before (which the comment of [detach]
    does not allow for). *)

From S2P Require Import Prelude AuthToken.

(** ** Constants of headers outside the repository

    [hardware/fingerprint.h], [hardware/hw_auth_token.h] and the AIDL enums. *)

Class LegacyHeader := {
  FINGERPRINT_ERROR_HW_UNAVAILABLE : Z;
  FINGERPRINT_ERROR_UNABLE_TO_REMOVE : Z;
  FINGERPRINT_ERROR_VENDOR_BASE : Z;
  FINGERPRINT_ACQUIRED_GOOD : Z;
  FINGERPRINT_ACQUIRED_TOO_FAST : Z;
  FINGERPRINT_ACQUIRED_VENDOR_BASE : Z;
  HW_AUTH_TOKEN_VERSION : Z;
  Error_UNABLE_TO_PROCESS : Z;
  Error_VENDOR : Z;
  AcquiredInfo_INSUFFICIENT : Z;
  AcquiredInfo_VENDOR : Z;
}.

(** ** Data *)

Inductive OpKind :=
| kNone | kEnroll | kAuthenticate | kDetectInteraction | kEnumerate | kRemove
| kInvalidateAuthenticatorId | kResetLockout.

#[global] Instance OpKind_eq_dec : EqDecision OpKind.
Proof. solve_decision. Defined.

(** [common::DisplayState]; the code tells only these apart. *)
Inductive DisplayState := UNKNOWN | NO_UI | AOD | OtherDisplay.

#[global] Instance DisplayState_eq_dec : EqDecision DisplayState.
Proof. solve_decision. Defined.

(** [context.authenticateReason]: absent, a reason without the vendor extension,
    or a vendor reason with the press-to-auth flag its parcelable decodes to
    ([None]: no or unreadable parcelable). *)
Inductive AuthenticateReason :=
| OtherReason
| vendorAuthenticateReason (pressToAuth : option bool).

Record OperationContext := mkContext {
  displayState : DisplayState;
  authenticateReason : option AuthenticateReason;
}.

(** Finger id and group id of a message, [uint32_t]. *)
Record finger := mkFinger { fid : Z; gid : Z }.

(** [fp6::LockoutKind] and [fp6::LockoutMsg] *)
Definition kLockoutTimed : Z := 0.
Definition kLockoutPermanent : Z := 1.
Definition kLockoutCleared : Z := 2.
Record LockoutMsg := mkLockout { lo_kind : Z; lo_reserved : Z; durationMillis : Z }.

(** [fingerprint_msg_t], by its type: the legacy types, [fp6::kMsgLockout],
    [fp6::kMsgInteractionDetected] and anything else. *)
Inductive message :=
| MsgError (error : Z)
| MsgAcquired (acquired_info : Z)
| MsgTemplateEnrolling (f : finger) (samples_remaining : Z)
| MsgTemplateRemoved (f : finger)
| MsgAuthenticated (f : finger) (token : hw_auth_token_t)
| MsgTemplateEnumerating (f : finger) (remaining_templates : Z)
| MsgLockout (lockout : LockoutMsg)
| MsgInteractionDetected
| MsgUnknown (type : Z).

(** Calls on [mCb], the framework's [ISessionCallback]. *)
Inductive callback :=
| onError (error vendorCode : Z)
| onAcquired (info vendorCode : Z)
| onEnrollmentProgress (enrollmentId remaining : Z)
| onAuthenticationSucceeded (enrollmentId : Z) (hat : HardwareAuthToken)
| onAuthenticationFailed
| onInteractionDetected
| onEnrollmentsEnumerated (ids : list Z)
| onEnrollmentsRemoved (ids : list Z)
| onLockoutTimed (millis : Z)
| onLockoutPermanent
| onLockoutCleared
| onChallengeGenerated (challenge : Z)
| onChallengeRevoked (challenge : Z)
| onAuthenticatorIdRetrieved (id : Z)
| onAuthenticatorIdInvalidated (id : Z)
| onSessionClosed.
#[global] Instance callback_eq_dec : EqDecision callback.
Proof. solve_decision. Defined.

(** Calls into the module. *)
Inductive devcall :=
| DevPreEnroll
| DevPostEnroll
| DevEnroll (token : hw_auth_token_t) (group timeout : Z)
| DevAuthenticate (operationId group : Z)
| DevDetectInteraction
| DevEnumerate
| DevRemove (group id : Z)
| DevGetAuthenticatorId
| DevInvalidateAuthenticatorId
| DevResetLockout (token : hw_auth_token_t)
| DevCancel (op : Z).          (* [op]: the operation it is meant for *)

(** What a thread that does not hold [moduleMutex] has left to do. *)
Inductive task :=
| TRearm (op : Z)              (* the thread [rearm] starts *)
| TStopSensor (op : Z)         (* [onContextChanged] after its critical section *)
| TAuthenticate (operationId : Z)  (* [authenticateWithContext] after it *)
| TDetach (clientDied : bool)  (* [close] after it, [onClientDied] *)
| TDeliver (c : callback).     (* a callback made after [moduleMutex] was released *)

(** Everything observable the session does, in order.  [ECb] records the
    operation and whether the screen gate was closed when the call was made;
    [ERx] is a message the session accepted, with the operation running then (0:
    none); [EBegin] and [EDetach] mark the changes of the operation state. *)
Inductive event :=
| EBegin (op : Z) (kind : OpKind)
| ECb (op : Z) (gated : bool) (c : callback)
| EDev (c : devcall)
| ERx (op : Z) (m : message)
| EDetach (mayCancel : bool)
| EOnDetach
| ESpawn (t : task).

Record session := mkSession {
  mUserId : Z;
  mNextOp : Z;
  mOp : Z;
  mOpKind : OpKind;
  mOpEnded : bool;
  mDetached : bool;
  mEnumerated : list Z;
  mRemoved : list Z;
  mAuthOperationId : Z;
  mPressToAuth : bool;
  mDisplayState : DisplayState;
  mHeldMatch : bool;
  mHeldEnrollmentId : Z;
  mHeldHat : HardwareAuthToken;
  mHeldAt : Z;
}.

(** The constructor: the member initialisers of Session.h. *)
Definition empty_hat : HardwareAuthToken := mkHat 0 0 0 0 0 [].
Definition new_session (userId : Z) : session :=
  mkSession userId 0 0 kNone true false [] [] 0 false UNKNOWN false 0 empty_hat 0.

(** Same enrollment timeout the framework used with legacy modules. *)
Definition kEnrollTimeoutSec : Z := 60.
(** A second, in nanoseconds of the steady clock. *)
Definition kHeldMatchWindow : Z := 1000 * 1000000.

(** ** The monad of a critical section *)

Definition sm (A : Type) : Type := session -> A * session * list event.

#[global] Instance sm_ret : MRet sm := fun A a s => (a, s, []).
#[global] Instance sm_bind : MBind sm := fun A B f m s =>
  let '(a, s1, o1) := m s in
  let '(b, s2, o2) := f a s1 in
  (b, s2, o1 ++ o2).

Definition get : sm session := fun s => (s, s, []).
Definition put (s' : session) : sm unit := fun _ => (tt, s', []).
Definition emit (e : event) : sm unit := fun s => (tt, s, [e]).
Definition skip : sm unit := mret tt.

Notation "m1 ;; m2" := (mbind (M := sm) (fun _ => m2) m1)
  (at level 100, m2 at level 200, right associativity).

(** Field updates. *)
Definition with_op (op : Z) (kind : OpKind) (s : session) : session :=
  mkSession (mUserId s) op op kind false (mDetached s) [] [] (mAuthOperationId s)
    (mPressToAuth s) (mDisplayState s) false (mHeldEnrollmentId s) (mHeldHat s) (mHeldAt s).
Definition with_ended (s : session) : session :=
  mkSession (mUserId s) (mNextOp s) (mOp s) (mOpKind s) true (mDetached s) (mEnumerated s)
    (mRemoved s) (mAuthOperationId s) (mPressToAuth s) (mDisplayState s) false
    (mHeldEnrollmentId s) (mHeldHat s) (mHeldAt s).
Definition with_detached (s : session) : session :=
  mkSession (mUserId s) (mNextOp s) (mOp s) (mOpKind s) (mOpEnded s) true (mEnumerated s)
    (mRemoved s) (mAuthOperationId s) (mPressToAuth s) (mDisplayState s) (mHeldMatch s)
    (mHeldEnrollmentId s) (mHeldHat s) (mHeldAt s).
Definition with_enumerated (l : list Z) (s : session) : session :=
  mkSession (mUserId s) (mNextOp s) (mOp s) (mOpKind s) (mOpEnded s) (mDetached s) l
    (mRemoved s) (mAuthOperationId s) (mPressToAuth s) (mDisplayState s) (mHeldMatch s)
    (mHeldEnrollmentId s) (mHeldHat s) (mHeldAt s).
Definition with_removed (l : list Z) (s : session) : session :=
  mkSession (mUserId s) (mNextOp s) (mOp s) (mOpKind s) (mOpEnded s) (mDetached s)
    (mEnumerated s) l (mAuthOperationId s) (mPressToAuth s) (mDisplayState s) (mHeldMatch s)
    (mHeldEnrollmentId s) (mHeldHat s) (mHeldAt s).
Definition with_auth_id (i : Z) (s : session) : session :=
  mkSession (mUserId s) (mNextOp s) (mOp s) (mOpKind s) (mOpEnded s) (mDetached s)
    (mEnumerated s) (mRemoved s) i (mPressToAuth s) (mDisplayState s) (mHeldMatch s)
    (mHeldEnrollmentId s) (mHeldHat s) (mHeldAt s).
Definition with_context (p : bool) (d : DisplayState) (s : session) : session :=
  mkSession (mUserId s) (mNextOp s) (mOp s) (mOpKind s) (mOpEnded s) (mDetached s)
    (mEnumerated s) (mRemoved s) (mAuthOperationId s) p d (mHeldMatch s)
    (mHeldEnrollmentId s) (mHeldHat s) (mHeldAt s).
Definition with_held (h : bool) (i : Z) (hat : HardwareAuthToken) (at_ : Z) (s : session) : session :=
  mkSession (mUserId s) (mNextOp s) (mOp s) (mOpKind s) (mOpEnded s) (mDetached s)
    (mEnumerated s) (mRemoved s) (mAuthOperationId s) (mPressToAuth s) (mDisplayState s)
    h i hat at_.

(** ** The session's own helpers *)

(** [runningLocked(op)] *)
Definition runningLocked (op : Z) (s : session) : bool :=
  negb (mDetached s) && (mOp s =? op) && negb (mOpEnded s).

(** [runningLocked(kind)] *)
Definition runningKind (kind : OpKind) (s : session) : bool :=
  negb (mOpEnded s) && bool_decide (mOpKind s = kind).

Definition screenGatedLocked (s : session) : bool :=
  runningKind kAuthenticate s && mPressToAuth s &&
  (bool_decide (mDisplayState s = NO_UI) || bool_decide (mDisplayState s = AOD)).

(** A call on [mCb]. *)
Definition cb (c : callback) : sm unit :=
  s ← get; emit (ECb (mOp s) (screenGatedLocked s) c).

Definition beginOperation (kind : OpKind) : sm Z :=
  s ← get;
  if mDetached s then mret 0 else
  let op := u64 (mNextOp s + 1) in
  put (with_op op kind s);; emit (EBegin op kind);; mret op.

Definition endOperationLocked : sm unit := s ← get; put (with_ended s).

Definition updateContextLocked (context : OperationContext) : sm unit :=
  s ← get;
  let press := match authenticateReason context with
               | None => mPressToAuth s
               | Some (vendorAuthenticateReason (Some b)) => b
               | Some _ => false
               end in
  put (with_context press (displayState context) s).

(** [rearm] starts a thread. *)
Definition rearm (op : Z) : sm unit := emit (ESpawn (TRearm op)).

Section WithHeader.
Context {H : LegacyHeader}.

Definition toAidlError (error : Z) : Z * Z :=
  if (FINGERPRINT_ERROR_HW_UNAVAILABLE <=? error) && (error <=? FINGERPRINT_ERROR_UNABLE_TO_REMOVE)
  then (error, 0)
  else if FINGERPRINT_ERROR_VENDOR_BASE <=? error
       then (Error_VENDOR, error - FINGERPRINT_ERROR_VENDOR_BASE)
       else (Error_UNABLE_TO_PROCESS, 0).

Definition toAidlAcquired (info : Z) : Z * Z :=
  if (FINGERPRINT_ACQUIRED_GOOD <=? info) && (info <=? FINGERPRINT_ACQUIRED_TOO_FAST)
  then (info + 1, 0)
  else if FINGERPRINT_ACQUIRED_VENDOR_BASE <=? info
       then (AcquiredInfo_VENDOR, info - FINGERPRINT_ACQUIRED_VENDOR_BASE)
       else (AcquiredInfo_INSUFFICIENT, 0).

Definition failOperation (op : Z) : sm unit :=
  s ← get;
  if runningLocked op s
  then cb (onError Error_UNABLE_TO_PROCESS 0);; endOperationLocked
  else skip.

(** ** Messages of the module *)

Definition onAuthenticatedMsg (now : Z) (f : finger) (token : hw_auth_token_t) : sm unit :=
  s ← get;
  if runningKind kDetectInteraction s then cb onInteractionDetected;; endOperationLocked else
  if negb (runningKind kAuthenticate s) then skip else
  if screenGatedLocked s then
    if negb (fid f =? 0) && (gid f =? u32 (mUserId s))
    then put (with_held true (i32 (fid f)) (fromLegacy token) now s);; rearm (mOp s)
    else skip
  else if fid f =? 0 then cb onAuthenticationFailed
  else if negb (gid f =? u32 (mUserId s)) then cb onAuthenticationFailed
  else cb (onAuthenticationSucceeded (i32 (fid f)) (fromLegacy token));; endOperationLocked.

Definition onLockoutMsg (lockout : LockoutMsg) : sm unit :=
  s ← get;
  if lo_kind lockout =? kLockoutTimed then
    cb (onLockoutTimed (durationMillis lockout));;
    (if runningKind kAuthenticate s || runningKind kDetectInteraction s
     then endOperationLocked else skip)
  else if lo_kind lockout =? kLockoutPermanent then
    cb onLockoutPermanent;;
    (if runningKind kAuthenticate s || runningKind kDetectInteraction s
     then endOperationLocked else skip)
  else if lo_kind lockout =? kLockoutCleared then
    cb onLockoutCleared;;
    (if runningKind kResetLockout s then endOperationLocked else skip)
  else skip.

(** [onMessage], at time [now] of the steady clock. *)
Definition onMessage (now : Z) (msg : message) : sm unit :=
  s ← get;
  if mDetached s then skip else
  emit (ERx (if mOpEnded s then 0 else mOp s) msg);;
  match msg with
  | MsgError error =>
      if mOpEnded s then skip else
      let '(err, vendorCode) := toAidlError error in
      cb (onError err vendorCode);; endOperationLocked
  | MsgAcquired info =>
      if negb (runningKind kEnroll s) && negb (runningKind kAuthenticate s) &&
         negb (runningKind kDetectInteraction s) then skip else
      if screenGatedLocked s then skip else
      let '(i, vendorCode) := toAidlAcquired info in cb (onAcquired i vendorCode)
  | MsgTemplateEnrolling f remaining =>
      if negb (runningKind kEnroll s) then skip else
      if negb (gid f =? u32 (mUserId s)) then skip else
      cb (onEnrollmentProgress (i32 (fid f)) (i32 remaining));;
      (if remaining =? 0 then endOperationLocked else skip)
  | MsgTemplateRemoved f =>
      if negb (runningKind kRemove s) then skip else
      if negb (fid f =? 0) then put (with_removed (mRemoved s ++ [i32 (fid f)]) s) else skip
  | MsgAuthenticated f token => onAuthenticatedMsg now f token
  | MsgTemplateEnumerating f remaining =>
      if negb (runningKind kEnumerate s) then skip else
      (if negb (fid f =? 0) then put (with_enumerated (mEnumerated s ++ [i32 (fid f)]) s) else skip);;
      (if remaining =? 0
       then s1 ← get;
            put (with_enumerated [] s1);;
            cb (onEnrollmentsEnumerated (mEnumerated s1));; endOperationLocked
       else skip)
  | MsgLockout lockout => onLockoutMsg lockout
  | MsgInteractionDetected =>
      if negb (runningKind kDetectInteraction s) then skip else
      cb onInteractionDetected;; endOperationLocked
  | MsgUnknown _ => skip
  end.

(** [onContextChanged]: the critical section. The returned task stops the sensor
    after a held match was delivered. *)
Definition onContextChanged (now : Z) (context : OperationContext) : sm unit :=
  updateContextLocked context;;
  s ← get;
  if mDetached s || mOpEnded s || negb (mHeldMatch s) || screenGatedLocked s then skip else
  put (with_held false (mHeldEnrollmentId s) (mHeldHat s) (mHeldAt s) s);;
  if now - mHeldAt s <=? kHeldMatchWindow
  then cb (onAuthenticationSucceeded (mHeldEnrollmentId s) (mHeldHat s));;
       endOperationLocked;;
       (if negb (mOp s =? 0) then emit (ESpawn (TStopSensor (mOp s))) else skip)
  else skip.

(** ** Requests of the client

    Each runs with [moduleMutex] held, from its start to its first call into the
    module; [Wait pc] says where it then stands, [Done] that it returned without
    one and with which status. *)

Inductive status := StatusOk | EX_ILLEGAL_STATE.

Inductive pc :=
| PStoreAuthId (op operationId : Z)  (* authenticate: before storing the id *)
| PCall (op : Z)             (* a call whose failure ends operation [op] *)
| PRemove (op : Z) (todo : list Z)   (* in remove(); ids still to remove *)
| PRemoveDone (op : Z)       (* after the loop of removeEnrollments *)
| PInvalidate (op : Z)       (* in invalidateAuthenticatorId() *)
| PInvalidateDone (op id : Z)
| PPreEnroll | PPostEnroll (challenge : Z) | PGetAuthenticatorId
| PCancel                    (* in cancel(); its result is only logged *)
| PDetachCancel.             (* in cancel() on behalf of a dead client *)

Inductive outcome := Done (st : status) | Wait (p : pc).

(** The reserved slots of the module that are not null. *)
Record device := mkDevice {
  has_invalidate : bool;
  has_reset_lockout : bool;
  has_detect : bool;
}.

Definition sessionClosed : outcome := Done EX_ILLEGAL_STATE.
Definition dev (c : devcall) : sm unit := emit (EDev c).

Definition generateChallenge : sm outcome :=
  s ← get; if mDetached s then mret sessionClosed else
  dev DevPreEnroll;; mret (Wait PPreEnroll).

Definition revokeChallenge (challenge : Z) : sm outcome :=
  s ← get; if mDetached s then mret sessionClosed else
  dev DevPostEnroll;; mret (Wait (PPostEnroll challenge)).

Definition getAuthenticatorId : sm outcome :=
  s ← get; if mDetached s then mret sessionClosed else
  dev DevGetAuthenticatorId;; mret (Wait PGetAuthenticatorId).

Definition enroll (hat : HardwareAuthToken) : sm outcome :=
  op ← beginOperation kEnroll;
  if op =? 0 then mret sessionClosed else
  s ← get;
  dev (DevEnroll (toLegacy HW_AUTH_TOKEN_VERSION hat) (mUserId s) kEnrollTimeoutSec);;
  mret (Wait (PCall op)).

Definition authenticate (operationId : Z) : sm outcome :=
  op ← beginOperation kAuthenticate;
  if op =? 0 then mret sessionClosed else mret (Wait (PStoreAuthId op operationId)).

Definition detectInteraction (d : device) : sm outcome :=
  op ← beginOperation kDetectInteraction;
  if op =? 0 then mret sessionClosed else
  if negb (has_detect d) then failOperation op;; mret (Done StatusOk) else
  dev DevDetectInteraction;; mret (Wait (PCall op)).

Definition enumerateEnrollments : sm outcome :=
  op ← beginOperation kEnumerate;
  if op =? 0 then mret sessionClosed else
  dev DevEnumerate;; mret (Wait (PCall op)).

(** The loop of [removeEnrollments]: id 0 is skipped. *)
Fixpoint remove_next (op : Z) (ids : list Z) : sm outcome :=
  match ids with
  | [] => mret (Wait (PRemoveDone op))
  | id :: rest =>
      if id =? 0 then remove_next op rest else
      s ← get; dev (DevRemove (mUserId s) id);; mret (Wait (PRemove op rest))
  end.

Definition removeEnrollments (ids : list Z) : sm outcome :=
  op ← beginOperation kRemove;
  if op =? 0 then mret sessionClosed else remove_next op ids.

Definition invalidateAuthenticatorId (d : device) : sm outcome :=
  op ← beginOperation kInvalidateAuthenticatorId;
  if op =? 0 then mret sessionClosed else
  if negb (has_invalidate d) then failOperation op;; mret (Done StatusOk) else
  dev DevInvalidateAuthenticatorId;; mret (Wait (PInvalidate op)).

Definition resetLockout (d : device) (hat : HardwareAuthToken) : sm outcome :=
  op ← beginOperation kResetLockout;
  if op =? 0 then mret sessionClosed else
  if negb (has_reset_lockout d) then failOperation op;; mret (Done StatusOk) else
  dev (DevResetLockout (toLegacy HW_AUTH_TOKEN_VERSION hat));; mret (Wait (PCall op)).

Definition cancel (op : Z) : sm outcome :=
  s ← get;
  if negb (runningLocked op s) then mret (Done StatusOk) else
  dev (DevCancel op);; mret (Wait PCancel).

(** [detach]; [EOnDetach] is the call of [mOnDetach]. *)
Definition detach (clientDied : bool) : sm outcome :=
  s ← get;
  if mDetached s then mret (Done StatusOk) else
  let running := negb (mOpEnded s) in
  put (with_detached s);; emit (EDetach (clientDied && running));;
  if clientDied && running then dev (DevCancel (mOp s));; mret (Wait PDetachCancel)
  else emit EOnDetach;; mret (Done StatusOk).

(** [close]: its critical section; [detach] follows. *)
Definition close : sm unit :=
  s ← get;
  if mDetached s then skip else cb onSessionClosed;; emit (ESpawn (TDetach false)).

(** [authenticateWithContext]: its critical section; [authenticate] follows. *)
Definition authenticateWithContext (operationId : Z) (context : OperationContext) : sm unit :=
  updateContextLocked context;; emit (ESpawn (TAuthenticate operationId)).

(** The thread of [rearm], and [stopSensorAfter], once they have the lock. *)
Definition rearm_thread (op : Z) : sm outcome :=
  s ← get;
  if negb (runningLocked op s) then mret (Done StatusOk) else
  dev (DevAuthenticate (mAuthOperationId s) (mUserId s));; mret (Wait (PCall op)).

Definition stopSensorAfter (op : Z) : sm outcome :=
  s ← get;
  if mDetached s || negb (mOp s =? op) then mret (Done StatusOk) else
  dev (DevCancel op);; mret (Wait PCancel).

(** What the holder of [moduleMutex] does next: after the module returned [err]
    (and [value], for the calls with a result) or, at [PStoreAuthId],
    [PRemoveDone] and [PInvalidateDone], its next critical section. *)
Definition resume (p : pc) (err value : Z) : sm outcome :=
  match p with
  | PStoreAuthId op operationId =>
      s ← get;
      put (with_auth_id operationId s);;
      dev (DevAuthenticate operationId (mUserId s));; mret (Wait (PCall op))
  | PCall op => (if negb (err =? 0) then failOperation op else skip);; mret (Done StatusOk)
  | PRemove op todo => remove_next op todo
  | PRemoveDone op =>
      s ← get;
      if negb (runningLocked op s) then mret (Done StatusOk) else
      put (with_removed [] s);;
      cb (onEnrollmentsRemoved (mRemoved s));; endOperationLocked;; mret (Done StatusOk)
  | PInvalidate op =>
      if negb (err =? 0) then failOperation op;; mret (Done StatusOk)
      else mret (Wait (PInvalidateDone op value))
  | PInvalidateDone op id =>
      s ← get;
      if negb (runningLocked op s) then mret (Done StatusOk) else
      cb (onAuthenticatorIdInvalidated (i64 id));; endOperationLocked;; mret (Done StatusOk)
  | PPreEnroll =>
      emit (ESpawn (TDeliver (onChallengeGenerated (i64 value))));; mret (Done StatusOk)
  | PPostEnroll challenge =>
      emit (ESpawn (TDeliver (onChallengeRevoked challenge)));; mret (Done StatusOk)
  | PGetAuthenticatorId =>
      emit (ESpawn (TDeliver (onAuthenticatorIdRetrieved (i64 value))));; mret (Done StatusOk)
  | PCancel => mret (Done StatusOk)
  | PDetachCancel => emit EOnDetach;; mret (Done StatusOk)
  end.

Definition run_task (t : task) : sm outcome :=
  match t with
  | TRearm op => rearm_thread op
  | TStopSensor op => stopSensorAfter op
  | TAuthenticate operationId => authenticate operationId
  | TDetach clientDied => detach clientDied
  | TDeliver c => cb c;; mret (Done StatusOk)
  end.

(** ** Interleaving *)

Inductive label :=
| LMessage (now : Z) (m : message)      (* the module's callback *)
| LContext (now : Z) (c : OperationContext)
| LAuthenticateWithContext (operationId : Z) (c : OperationContext)
| LClose
| LDetach (clientDied : bool)            (* [onClientDied]; [createSession], of the session before *)
| LTask (i : nat)                        (* the [i]-th waiting thread goes on *)
| LReturn (err value : Z)                (* the holder of the lock goes on *)
| LGenerateChallenge | LRevokeChallenge (challenge : Z) | LGetAuthenticatorId
| LEnroll (hat : HardwareAuthToken) | LAuthenticate (operationId : Z) | LDetectInteraction
| LEnumerate | LRemove (ids : list Z) | LInvalidate | LResetLockout (hat : HardwareAuthToken)
| LCancel (op : Z).

Record sys := mkSys {
  ses : session;
  holder : option pc;      (* who holds [moduleMutex] *)
  tasks : list task;
  trace : list event;
}.

Definition new_sys (userId : Z) : sys := mkSys (new_session userId) None [] [].

Definition spawned (o : list event) : list task :=
  omap (fun e => match e with ESpawn t => Some t | _ => None end) o.

(** Run one critical section. *)
Definition atomically {A} (m : sm A) (y : sys) : A * sys :=
  let '(a, s, o) := m (ses y) in
  (a, mkSys s (holder y) (tasks y ++ spawned o) (trace y ++ o)).

Definition set_holder (h : option pc) (y : sys) : sys := mkSys (ses y) h (tasks y) (trace y).

(** Run a section that has [moduleMutex], and keep the lock while it waits. *)
Definition locked (m : sm outcome) (y : sys) : sys :=
  let '(r, y1) := atomically m y in
  set_holder (match r with Wait p => Some p | Done _ => None end) y1.

(** [moduleMutex] must be free to start a request. *)
Definition acquire (m : sm outcome) (y : sys) : option sys :=
  match holder y with None => Some (locked m y) | Some _ => None end.

Definition step (d : device) (l : label) (y : sys) : option sys :=
  match l with
  | LMessage now m => Some (atomically (onMessage now m) y).2
  | LContext now c => Some (atomically (onContextChanged now c) y).2
  | LAuthenticateWithContext i c => Some (atomically (authenticateWithContext i c) y).2
  | LClose => Some (atomically close y).2
  | LDetach clientDied => acquire (detach clientDied) y
  | LTask i =>
      match tasks y !! i with
      | None => None
      | Some t =>
          let y' := mkSys (ses y) (holder y) (delete i (tasks y)) (trace y) in
          match t with
          | TDeliver _ => Some (atomically (run_task t) y').2
          | _ => acquire (run_task t) y'
          end
      end
  | LReturn err value =>
      match holder y with
      | None => None
      | Some p => Some (locked (resume p err value) y)
      end
  | LGenerateChallenge => acquire generateChallenge y
  | LRevokeChallenge c => acquire (revokeChallenge c) y
  | LGetAuthenticatorId => acquire getAuthenticatorId y
  | LEnroll hat => acquire (enroll hat) y
  | LAuthenticate i => acquire (authenticate i) y
  | LDetectInteraction => acquire (detectInteraction d) y
  | LEnumerate => acquire enumerateEnrollments y
  | LRemove ids => acquire (removeEnrollments ids) y
  | LInvalidate => acquire (invalidateAuthenticatorId d) y
  | LResetLockout hat => acquire (resetLockout d hat) y
  | LCancel op => acquire (cancel op) y
  end.

Fixpoint run (d : device) (ls : list label) (y : sys) : option sys :=
  match ls with
  | [] => Some y
  | l :: ls => y' ← step d l y; run d ls y'
  end.

End WithHeader.

(** ** The contract of Session.h *)

(** Callbacks that end an operation of kind [k] when it is running. *)
Definition ends (k : OpKind) (c : callback) : bool :=
  match c, k with
  | onError _ _, _ => true
  | onEnrollmentProgress _ r, kEnroll => r =? 0
  | onAuthenticationSucceeded _ _, kAuthenticate => true
  | onInteractionDetected, kDetectInteraction => true
  | onEnrollmentsEnumerated _, kEnumerate => true
  | onEnrollmentsRemoved _, kRemove => true
  | onAuthenticatorIdInvalidated _, kInvalidateAuthenticatorId => true
  | onLockoutTimed _, (kAuthenticate | kDetectInteraction) => true
  | onLockoutPermanent, (kAuthenticate | kDetectInteraction) => true
  | onLockoutCleared, kResetLockout => true
  | _, _ => false
  end.

(** Callbacks that report progress of a running operation of kind [k]. *)
Definition progress (k : OpKind) (c : callback) : bool :=
  match c, k with
  | onAcquired _ _, (kEnroll | kAuthenticate | kDetectInteraction) => true
  | onEnrollmentProgress _ r, kEnroll => negb (r =? 0)
  | onAuthenticationFailed, kAuthenticate => true
  | _, _ => false
  end.

(** Callbacks that belong to no operation. *)
Definition unrelated (c : callback) : bool :=
  match c with
  | onLockoutTimed _ | onLockoutPermanent | onLockoutCleared | onSessionClosed => true
  | _ => false
  end.

(** Answers to requests that are not operations; they are made without a lock. *)
Definition unlocked_answer (c : callback) : bool :=
  match c with
  | onChallengeGenerated _ | onChallengeRevoked _ | onAuthenticatorIdRetrieved _ => true
  | _ => false
  end.

(** The answers among the waiting threads. *)
Definition answers_of (ts : list task) : list callback :=
  omap (fun t => match t with TDeliver c => Some c | _ => None end) ts.

(** [c_matches] holds the matches of the session's own user the module reported
    for an operation: operation, finger and token.  [c_due] holds the answers that requests
    which are not operations still owe: the module has returned and the lock is free. *)
Record cstate := mkC {
  c_user : Z;
  c_running : option (Z * OpKind);
  c_last : Z;
  c_closed : bool;
  c_may_cancel : bool;
  c_matches : list (Z * Z * HardwareAuthToken);
  c_due : list callback;
}.

Definition c_init (user : Z) : cstate := mkC user None 0 false false [] [].

(** An authentication succeeds only with the screen gate open and for a match the
    module reported for this user and this operation; nothing is acquired with
    the gate closed. *)
Definition genuine (op : Z) (gated : bool) (c : callback) (q : cstate) : bool :=
  match c with
  | onAuthenticationSucceeded id hat => negb gated && bool_decide ((op, id, hat) ∈ c_matches q)
  | onAcquired _ _ => negb gated
  | _ => true
  end.

Definition with_due (due : list callback) (q : cstate) : cstate :=
  mkC (c_user q) (c_running q) (c_last q) (c_closed q) (c_may_cancel q) (c_matches q) due.

(** [l] without the first [c] of it. *)
Fixpoint take_out (c : callback) (l : list callback) : option (list callback) :=
  match l with
  | [] => None
  | x :: l => if decide (x = c) then Some l else cons x <$> take_out c l
  end.

(** An answer is made only where one is due, and once.  It is the one kind of callback that may come after
    the session was detached: the comment of [detach] in Session.h has no such exception, but the
    code makes these calls after it released the lock. *)
Definition contract_cb (op : Z) (gated : bool) (c : callback) (q : cstate) : option cstate :=
  if unlocked_answer c then flip with_due q <$> take_out c (c_due q) else
  if c_closed q || negb (genuine op gated c q) then None else
  match c_running q with
  | Some (op', k) =>
      if negb (op =? op') then None else
      if ends k c
      then Some (mkC (c_user q) None (c_last q) false (c_may_cancel q) (c_matches q) (c_due q)) else
      if progress k c || unrelated c then Some q else None
  | None => if unrelated c then Some q else None
  end.

(** A cancel is meant for the newest operation, and after the session is
    detached only the one for a dead client is left. *)
Definition contract_dev (c : devcall) (q : cstate) : option cstate :=
  match c with
  | DevCancel op =>
      if negb (op =? c_last q) then None else
      if negb (c_closed q) then Some q else
      if c_may_cancel q
      then Some (mkC (c_user q) None (c_last q) true false (c_matches q) (c_due q)) else None
  | _ => if c_closed q then None else Some q
  end.

Definition contract (q : cstate) (e : event) : option cstate :=
  match e with
  | EBegin op k =>
      if c_closed q || negb (op =? c_last q + 1) then None
      else Some (mkC (c_user q) (Some (op, k)) op false (c_may_cancel q) (c_matches q) (c_due q))
  | ECb op gated c => contract_cb op gated c q
  | EDev c => contract_dev c q
  | ERx op m =>
      if c_closed q then None else
      match m with
      | MsgAuthenticated f token =>
          if negb (fid f =? 0) && (gid f =? u32 (c_user q))
          then Some (mkC (c_user q) (c_running q) (c_last q) false (c_may_cancel q)
                 ((op, i32 (fid f), fromLegacy token) :: c_matches q) (c_due q))
          else Some q
      | _ => Some q
      end
  | EDetach mayCancel =>
      if c_closed q then None
      else Some (mkC (c_user q) None (c_last q) true mayCancel (c_matches q) (c_due q))
  | EOnDetach => if c_closed q && negb (c_may_cancel q) then Some q else None
  | ESpawn (TDeliver c) =>
      if c_closed q || negb (unlocked_answer c) then None else Some (with_due (c_due q ++ [c]) q)
  | ESpawn _ => Some q
  end.

Fixpoint accepts (q : cstate) (t : list event) : option cstate :=
  match t with
  | [] => Some q
  | e :: t => q' ← contract q e; accepts q' t
  end.

(** The finger, template and sample counts of a message are [uint32_t]. *)
Definition msg_ok (m : message) : Prop :=
  match m with
  | MsgTemplateEnrolling f r => is_u32 (fid f) /\ is_u32 (gid f) /\ is_u32 r
  | MsgTemplateRemoved f => is_u32 (fid f) /\ is_u32 (gid f)
  | MsgAuthenticated f _ => is_u32 (fid f) /\ is_u32 (gid f)
  | MsgTemplateEnumerating f r => is_u32 (fid f) /\ is_u32 (gid f) /\ is_u32 r
  | _ => True
  end.

Definition label_ok (l : label) : Prop :=
  match l with LMessage _ m => msg_ok m | _ => True end.

(** ** Simulation *)

(** The contract state a session corresponds to. *)
Record related (s : session) (q : cstate) : Prop := mkRelated {
  rel_user : c_user q = mUserId s;
  rel_running : c_running q = if mDetached s || mOpEnded s then None else Some (mOp s, mOpKind s);
  rel_last : c_last q = mNextOp s;
  rel_op : mOp s = mNextOp s;
  rel_closed : c_closed q = mDetached s;
  rel_cancel : c_may_cancel q = false;
  rel_held : mHeldMatch s = true -> mOpEnded s = false ->
    (mOp s, mHeldEnrollmentId s, mHeldHat s) ∈ c_matches q /\ mOpKind s = kAuthenticate;
}.

(** Triples: section [m], run in [s] with the contract in [q], makes calls the
    contract accepts, makes itself none of the answers that are due, and establishes [Q]. *)
Definition triple {A} (m : sm A) (s : session) (q : cstate)
    (Q : A -> session -> cstate -> Prop) : Prop :=
  let '(a, s', o) := m s in
  exists q', accepts q o = Some q' /\ c_due q' = c_due q ++ answers_of (spawned o) /\ Q a s' q'.

Lemma spawned_app t1 t2 : spawned (t1 ++ t2) = spawned t1 ++ spawned t2.
Proof. apply omap_app. Qed.
Lemma answers_app t1 t2 : answers_of (t1 ++ t2) = answers_of t1 ++ answers_of t2.
Proof. apply omap_app. Qed.

Lemma accepts_app q t1 t2 : accepts q (t1 ++ t2) = (q' ← accepts q t1; accepts q' t2).
Proof.
  revert q. induction t1 as [|e t1 IH]; intros q; cbn; [reflexivity|].
  destruct (contract q e); cbn; [apply IH | reflexivity].
Qed.

Lemma triple_ret {A} (a : A) s q (Q : A -> session -> cstate -> Prop) :
  Q a s q -> triple (mret a) s q Q.
Proof. intros HQ. exists q. cbn. rewrite app_nil_r. auto. Qed.

Lemma triple_bind {A B} (m : sm A) (f : A -> sm B) s q Q :
  triple m s q (fun a s' q' => triple (f a) s' q' Q) -> triple (mbind f m) s q Q.
Proof.
  unfold triple, mbind, sm_bind. destruct (m s) as [[a s1] o1]. intros (q1 & E1 & D1 & H1).
  destruct (f a s1) as [[b s2] o2]. destruct H1 as (q2 & E2 & D2 & H2).
  exists q2. split; [rewrite accepts_app, E1; exact E2 | split; [|exact H2]].
  now rewrite spawned_app, answers_app, app_assoc, <- D1.
Qed.

Lemma triple_get s q (Q : session -> session -> cstate -> Prop) : Q s s q -> triple get s q Q.
Proof. intros HQ. exists q. cbn. rewrite app_nil_r. auto. Qed.

Lemma triple_put s s' q (Q : unit -> session -> cstate -> Prop) : Q tt s' q -> triple (put s') s q Q.
Proof. intros HQ. exists q. cbn. rewrite app_nil_r. auto. Qed.

(** The event is no answer that is due. *)
Definition not_due (e : event) : bool := match e with ECb _ _ c => negb (unlocked_answer c) | _ => true end.

Lemma contract_due q e q' : contract q e = Some q' -> not_due e = true -> c_due q' = c_due q ++ answers_of (spawned [e]).
Proof.
  intros E Hn. destruct e as [op k|op g c|c|op m|b| |t]; cbn in E, Hn |- *; rewrite ?app_nil_r.
  - destruct (_ || _); now simplify_eq.
  - unfold contract_cb in E. destruct (unlocked_answer c); [discriminate|]. repeat case_match; now simplify_eq.
  - unfold contract_dev in E. repeat case_match; now simplify_eq.
  - repeat case_match; now simplify_eq.
  - destruct (c_closed q); now simplify_eq.
  - destruct (_ && _); now simplify_eq.
  - destruct t; cbn in E |- *; rewrite ?app_nil_r; try (now simplify_eq). destruct (_ || _); now simplify_eq.
Qed.

Lemma triple_emit e s q q' (Q : unit -> session -> cstate -> Prop) :
  contract q e = Some q' -> not_due e = true -> Q tt s q' -> triple (emit e) s q Q.
Proof.
  intros E Hn HQ. exists q'. split; [cbn; now rewrite E | split; [|exact HQ]]. now apply contract_due.
Qed.

Lemma triple_weaken {A} (m : sm A) s q (Q Q' : A -> session -> cstate -> Prop) :
  triple m s q Q -> (forall a s' q', Q a s' q' -> Q' a s' q') -> triple m s q Q'.
Proof.
  unfold triple. destruct (m s) as [[a s'] o]. intros (q' & E & D & HQ) Hw. eauto.
Qed.

(** What a section without [moduleMutex] keeps: it starts no operation. *)
Definition kept {A} (s : session) : A -> session -> cstate -> Prop :=
  fun _ s' q' => related s' q' /\ mDetached s' = mDetached s /\
    mNextOp s' = mNextOp s /\ mOpKind s' = mOpKind s.

Lemma kept_same {A} s q (a : A) : related s q -> kept s a s q.
Proof. intros R. split; [exact R | auto]. Qed.

Lemma i32_zero r : is_u32 r -> (i32 r =? 0) = (r =? 0).
Proof.
  intros H. destruct (r =? 0) eqn:E; boolprop; [subst; reflexivity|].
  apply Z.eqb_neq. unfold i32. range.
Qed.

Lemma runningKind_true k s : runningKind k s = true -> mOpEnded s = false /\ mOpKind s = k.
Proof. unfold runningKind. intros ?; boolprop; auto. Qed.

Lemma runningLocked_true op s :
  runningLocked op s = true -> mDetached s = false /\ mOp s = op /\ mOpEnded s = false.
Proof. unfold runningLocked. intros ?; boolprop; auto. Qed.

(** The callback that ends the running operation. *)
Lemma triple_finish c s q (Q : unit -> session -> cstate -> Prop) :
  related s q -> mDetached s = false -> mOpEnded s = false ->
  ends (mOpKind s) c = true -> unlocked_answer c = false ->
  genuine (mOp s) (screenGatedLocked s) c q = true ->
  (forall q', related (with_ended s) q' -> Q tt (with_ended s) q') ->
  triple (cb c;; endOperationLocked) s q Q.
Proof.
  intros R Hd He Hends Hun Hgen HQ.
  apply triple_bind. unfold cb. apply triple_bind, triple_get. eapply triple_emit.
  - cbn. unfold contract_cb. rewrite Hun, Hgen, (rel_closed _ _ R), (rel_running _ _ R), Hd, He.
    cbn. now rewrite Z.eqb_refl, Hends.
  - cbn. now rewrite Hun.
  - unfold endOperationLocked. apply triple_bind, triple_get, triple_put. apply HQ.
    destruct R. split; cbn; rewrite ?Hd; auto. discriminate.
Qed.


(** A callback that leaves the operation running, or belongs to none. *)
Lemma triple_cb_stay c s q (Q : unit -> session -> cstate -> Prop) :
  related s q -> mDetached s = false -> unlocked_answer c = false ->
  genuine (mOp s) (screenGatedLocked s) c q = true ->
  (mOpEnded s = true /\ unrelated c = true \/
   mOpEnded s = false /\ ends (mOpKind s) c = false /\ progress (mOpKind s) c || unrelated c = true) ->
  Q tt s q -> triple (cb c) s q Q.
Proof.
  intros R Hd Hun Hgen Hcase HQ. unfold cb. apply triple_bind, triple_get.
  apply triple_emit with (q' := q); [|cbn; now rewrite Hun|exact HQ].
  cbn. unfold contract_cb. rewrite Hun, Hgen, (rel_closed _ _ R), (rel_running _ _ R), Hd.
  cbn. destruct Hcase as [(-> & Hu) | (-> & He & Hp)]; cbn.
  - now rewrite Hu.
  - now rewrite Z.eqb_refl, He, Hp.
Qed.

Lemma related_put s s' q :
  related s q -> mUserId s' = mUserId s -> mNextOp s' = mNextOp s -> mOp s' = mOp s ->
  mOpKind s' = mOpKind s -> mOpEnded s' = mOpEnded s -> mDetached s' = mDetached s ->
  (mHeldMatch s' = true -> mOpEnded s' = false ->
   (mOp s', mHeldEnrollmentId s', mHeldHat s') ∈ c_matches q /\ mOpKind s' = kAuthenticate) ->
  related s' q.
Proof. intros [] E1 E2 E3 E4 E5 E6 Hh. split; try congruence; [|exact Hh]. now rewrite E3, E4, E5, E6. Qed.

Lemma kept_put {A} s s' q (a : A) :
  related s q -> mUserId s' = mUserId s -> mNextOp s' = mNextOp s -> mOp s' = mOp s ->
  mOpKind s' = mOpKind s -> mOpEnded s' = mOpEnded s -> mDetached s' = mDetached s ->
  (mHeldMatch s' = true -> mOpEnded s' = false ->
   (mOp s', mHeldEnrollmentId s', mHeldHat s') ∈ c_matches q /\ mOpKind s' = kAuthenticate) ->
  kept s a s' q.
Proof.
  intros R E1 E2 E3 E4 E5 E6 Hh. split; [eapply related_put; eauto | auto].
Qed.

Lemma kept_ended {A} s q (a : A) : related (with_ended s) q -> kept s a (with_ended s) q.
Proof. intros R. split; [exact R | auto]. Qed.

#[export] Hint Resolve kept_same kept_ended : fp6.

Section Simulation.
Context {H : LegacyHeader}.

Lemma sim_failOperation op s q : related s q -> triple (failOperation op) s q (kept s).
Proof.
  intros R. unfold failOperation. apply triple_bind, triple_get.
  destruct (runningLocked op s) eqn:E; [|now apply triple_ret, kept_same].
  apply runningLocked_true in E as (Hd & _ & He).
  eapply triple_finish; eauto with fp6.
Qed.

Lemma sim_authenticated now f token s q :
  related s q -> mDetached s = false ->
  (mOpEnded s = false -> fid f <> 0 -> gid f = u32 (mUserId s) ->
   (mOp s, i32 (fid f), fromLegacy token) ∈ c_matches q) ->
  triple (onAuthenticatedMsg now f token) s q (kept s).
Proof.
  intros R Hd Hmatch. unfold onAuthenticatedMsg. apply triple_bind, triple_get.
  destruct (runningKind kDetectInteraction s) eqn:Ek.
  { apply runningKind_true in Ek as [He Ek].
    eapply triple_finish; eauto with fp6. now rewrite Ek. }
  destruct (runningKind kAuthenticate s) eqn:Ea; cbn [negb]; [|now apply triple_ret, kept_same].
  apply runningKind_true in Ea as [He Ea].
  destruct (screenGatedLocked s) eqn:Eg.
  { destruct (_ && _) eqn:E; boolprop; [|now apply triple_ret, kept_same].
    apply triple_bind, triple_put. eapply triple_emit; [reflexivity..|].
    apply kept_put; cbn; auto. }
  destruct (fid f =? 0) eqn:E0; boolprop.
  { eapply triple_cb_stay; eauto with fp6. right. rewrite Ea. auto. }
  destruct (gid f =? _) eqn:E1; cbn [negb]; boolprop.
  - eapply triple_finish; eauto with fp6; rewrite ?Ea; auto.
    cbn. rewrite Eg. cbn. apply bool_decide_eq_true. auto.
  - eapply triple_cb_stay; eauto with fp6. right. rewrite Ea. auto.
Qed.

Lemma sim_lockout lockout s q :
  related s q -> mDetached s = false -> triple (onLockoutMsg lockout) s q (kept s).
Proof.
  intros R Hd. unfold onLockoutMsg. apply triple_bind, triple_get.
  assert (forall c, unlocked_answer c = false -> unrelated c = true -> progress (mOpKind s) c = false ->
    genuine (mOp s) (screenGatedLocked s) c q = true ->
    forall b, (b = true -> mOpEnded s = false) -> (b = negb (mOpEnded s) && ends (mOpKind s) c) ->
    triple (cb c;; (if b then endOperationLocked else skip)) s q (kept s)) as Haux.
  { intros c Hun Hu Hp Hg b Hb Eb. destruct b.
    - eapply triple_finish; eauto with fp6.
      rewrite Hb in Eb by reflexivity. cbn in Eb. congruence.
    - apply triple_bind. eapply triple_cb_stay; eauto.
      + destruct (mOpEnded s); [left; auto | right; cbn in Eb; rewrite Hu, orb_true_r; auto].
      + now apply triple_ret, kept_same. }
  destruct (lo_kind lockout =? kLockoutTimed);
    [|destruct (lo_kind lockout =? kLockoutPermanent);
    [|destruct (lo_kind lockout =? kLockoutCleared); [|now apply triple_ret, kept_same]]].
  all: apply Haux; try reflexivity; try (destruct (mOpKind s); reflexivity).
  all: unfold runningKind; destruct (mOpEnded s), (mOpKind s);
    first [reflexivity | intros Hb; vm_compute in Hb; congruence].
Qed.

(** The contract takes note of a message; a match of the right user becomes genuine. *)
Lemma contract_received m s q :
  related s q -> mDetached s = false ->
  exists q', contract q (ERx (if mOpEnded s then 0 else mOp s) m) = Some q' /\ related s q' /\
    forall f token, m = MsgAuthenticated f token -> mOpEnded s = false -> fid f <> 0 ->
      gid f = u32 (mUserId s) -> (mOp s, i32 (fid f), fromLegacy token) ∈ c_matches q'.
Proof.
  intros R Hd. cbn. rewrite (rel_closed _ _ R), Hd. destruct m; try (exists q; split; [reflexivity | split; [exact R | discriminate]]).
  destruct (negb (fid f =? 0) && (gid f =? u32 (c_user q))) eqn:E.
  - eexists. split; [reflexivity|]. split.
    + destruct R. split; cbn; try assumption; try congruence.
      intros Hh He. split; [right|]; now apply rel_held0.
    + intros f' t' [= <- <-] -> _ _. left.
  - exists q. split; [reflexivity|]. split; [exact R|]. intros f' t' [= <- <-] _ Hf Hg.
    rewrite (rel_user _ _ R), Hg, Z.eqb_refl, andb_true_r in E. boolprop. congruence.
Qed.

Lemma sim_onMessage now m s q :
  related s q -> msg_ok m -> triple (onMessage now m) s q (kept s).
Proof.
  intros R Hm. unfold onMessage. apply triple_bind, triple_get.
  destruct (mDetached s) eqn:Hd; [now apply triple_ret, kept_same|].
  apply triple_bind.
  destruct (contract_received m s q R Hd) as (q' & Eq & R' & Hmatch).
  eapply triple_emit; [exact Eq|reflexivity|]. clear Eq R q. rename q' into q, R' into R.
  destruct m as [err|info|f r|f|f token|f r|lo| |ty].
  - destruct (mOpEnded s) eqn:He; [now apply triple_ret, kept_same|].
    destruct (toAidlError err). eapply triple_finish; eauto with fp6.
  - destruct (_ && _ && _) eqn:E; [now apply triple_ret, kept_same|].
    destruct (screenGatedLocked s) eqn:Eg; [now apply triple_ret, kept_same|].
    destruct (toAidlAcquired info). eapply triple_cb_stay; eauto with fp6.
    { cbn. now rewrite Eg. }
    right. unfold runningKind in E. destruct (mOpEnded s); [discriminate|].
    destruct (mOpKind s); try discriminate; auto.
  - destruct (runningKind kEnroll s) eqn:Ek; cbn [negb]; [|now apply triple_ret, kept_same].
    apply runningKind_true in Ek as [He Ek].
    destruct (gid f =? _); cbn [negb]; [|now apply triple_ret, kept_same].
    pose proof (i32_zero r ltac:(apply Hm)) as Hz. destruct (r =? 0) eqn:Er.
    + eapply triple_finish; eauto with fp6. rewrite Ek. cbn. now rewrite Hz.
    + apply triple_bind. eapply triple_cb_stay; eauto with fp6; [|now apply triple_ret, kept_same].
      right. rewrite Ek. cbn. now rewrite Hz.
  - destruct (runningKind kRemove s); cbn [negb]; [|now apply triple_ret, kept_same].
    destruct (fid f =? 0); cbn [negb]; [now apply triple_ret, kept_same|].
    apply triple_put, kept_put; auto; apply R.
  - apply sim_authenticated; eauto.
  - destruct (runningKind kEnumerate s) eqn:Ek; cbn [negb]; [|now apply triple_ret, kept_same].
    apply runningKind_true in Ek as [He Ek].
    assert (forall s1, related s1 q -> mDetached s1 = false -> mOpEnded s1 = false ->
      mOpKind s1 = kEnumerate -> mNextOp s1 = mNextOp s ->
      triple (if r =? 0 then s2 ← get; put (with_enumerated [] s2);;
              cb (onEnrollmentsEnumerated (mEnumerated s2));; endOperationLocked else skip)
        s1 q (kept s)) as Haux.
    { intros s1 R1 Hd1 He1 Hk1 Hn1. destruct (r =? 0).
      - apply triple_bind, triple_get, triple_bind, triple_put.
        eapply triple_finish; cbn; auto; [| now rewrite Hk1 |].
        + eapply related_put; eauto; apply R1.
        + intros q' R'. split; [exact R'|]. cbn. repeat split; congruence.
      - apply triple_ret. split; [exact R1 | repeat split; congruence]. }
    apply triple_bind. destruct (fid f =? 0); cbn [negb].
    + now apply triple_ret, Haux.
    + apply triple_put, Haux; auto. eapply related_put; eauto; apply R.
  - now apply sim_lockout.
  - destruct (runningKind kDetectInteraction s) eqn:Ek; cbn [negb]; [|now apply triple_ret, kept_same].
    apply runningKind_true in Ek as [He Ek].
    eapply triple_finish; eauto with fp6. now rewrite Ek.
  - now apply triple_ret, kept_same.
Qed.

End Simulation.

(** ** The requests and the executions *)

(** The holder of [moduleMutex] keeps the session attached, but for [detach], and
    the kind of its operation. *)
Definition holder_ok (h : option pc) (s : session) : Prop :=
  match h with
  | None => True
  | Some PDetachCancel => mDetached s = true
  | Some p => mDetached s = false /\
      match p with
      | PRemove op _ | PRemoveDone op => mOp s = op -> mOpKind s = kRemove
      | PInvalidate op | PInvalidateDone op _ => mOp s = op -> mOpKind s = kInvalidateAuthenticatorId
      | _ => True
      end
  end.

Definition out_holder (r : outcome) : option pc :=
  match r with Wait p => Some p | Done _ => None end.

(** What a section that has [moduleMutex] keeps, started in a session whose
    newest operation was [n]. *)
Definition kept_locked (n : Z) : outcome -> session -> cstate -> Prop :=
  fun r s' q' => related s' q' /\ n <= mNextOp s' <= n + 1 /\ holder_ok (out_holder r) s'.

(** Operation ids do not wrap around yet. *)
Definition ids_left (s : session) : Prop := 0 <= mNextOp s < UINT64_MAX.

Lemma kept_done n s q st : related s q -> n <= mNextOp s <= n + 1 -> kept_locked n (Done st) s q.
Proof. intros R Hn. split; [exact R | split; [exact Hn | exact I]]. Qed.

Lemma kept_wait n p s q :
  related s q -> n <= mNextOp s <= n + 1 -> holder_ok (Some p) s -> kept_locked n (Wait p) s q.
Proof. intros R Hn Hp. split; [exact R | split; [exact Hn | exact Hp]]. Qed.

(** Ends of sections: the postcondition from the hypotheses. *)
Ltac done_ := apply triple_ret, kept_done; [assumption | cbn in *; lia].
Ltac wait_ := apply triple_ret, kept_wait; [assumption | cbn in *; lia | cbn in *; auto].

Section Requests.
Context {H : LegacyHeader}.

(** A module call of an attached session. *)
Lemma triple_dev c s q (Q : unit -> session -> cstate -> Prop) :
  related s q -> mDetached s = false ->
  match c with DevCancel op => op = mOp s | _ => True end ->
  Q tt s q -> triple (dev c) s q Q.
Proof.
  intros R Hd Hc HQ. unfold dev. apply triple_emit with (q' := q); [|reflexivity|exact HQ].
  cbn. unfold contract_dev. rewrite (rel_closed _ _ R), (rel_last _ _ R), Hd, <- (rel_op _ _ R).
  destruct c; subst; rewrite ?Z.eqb_refl; reflexivity.
Qed.

Lemma related_begin s q k :
  related s q -> mDetached s = false -> ids_left s ->
  contract q (EBegin (u64 (mNextOp s + 1)) k) =
    Some (mkC (c_user q) (Some (mNextOp s + 1, k)) (mNextOp s + 1) false (c_may_cancel q) (c_matches q) (c_due q)) /\
  related (with_op (u64 (mNextOp s + 1)) k s)
    (mkC (c_user q) (Some (mNextOp s + 1, k)) (mNextOp s + 1) false (c_may_cancel q) (c_matches q) (c_due q)).
Proof.
  intros R Hd Hids. unfold ids_left in Hids. rewrite u64_small by range. split.
  - cbn. rewrite (rel_closed _ _ R), (rel_last _ _ R), Hd, Z.eqb_refl. reflexivity.
  - destruct R. split; cbn; rewrite ?Hd; auto. discriminate.
Qed.

(** A request starts an operation, or the session is detached and refuses it. *)
Lemma triple_begin k (f : Z -> sm outcome) s q :
  related s q -> ids_left s ->
  (forall s' q', related s' q' -> mDetached s' = false -> mNextOp s' = mNextOp s + 1 ->
     mOpKind s' = k -> mOpEnded s' = false ->
     triple (f (mNextOp s + 1)) s' q' (kept_locked (mNextOp s))) ->
  triple (op ← beginOperation k; if op =? 0 then mret sessionClosed else f op) s q
    (kept_locked (mNextOp s)).
Proof.
  intros R Hids Hopen. apply triple_bind. unfold beginOperation.
  apply triple_bind, triple_get. destruct (mDetached s) eqn:Hd.
  { apply triple_ret. cbn. done_. }
  destruct (related_begin s q k R Hd Hids) as [E R'].
  apply triple_bind, triple_put, triple_bind. eapply triple_emit; [exact E|reflexivity|].
  apply triple_ret. unfold ids_left in Hids. rewrite u64_small in * by range.
  replace (mNextOp s + 1 =? 0) with false by (symmetry; apply Z.eqb_neq; lia).
  apply Hopen; auto.
Qed.

Lemma sim_fail_done op n s q :
  related s q -> n <= mNextOp s <= n + 1 ->
  triple (failOperation op;; mret (Done StatusOk)) s q (kept_locked n).
Proof.
  intros R Hn. apply triple_bind.
  eapply triple_weaken; [now apply sim_failOperation|].
  intros [] s' q' (R' & _ & Hn' & _). done_.
Qed.

(** The callback that ends the operation, from a request's last section. *)
Lemma sim_finish_done c n s q :
  related s q -> mDetached s = false -> mOpEnded s = false ->
  ends (mOpKind s) c = true -> unlocked_answer c = false ->
  genuine (mOp s) (screenGatedLocked s) c q = true -> n <= mNextOp s <= n + 1 ->
  triple (cb c;; endOperationLocked;; mret (Done StatusOk)) s q (kept_locked n).
Proof.
  intros R Hd He Hends Hun Hgen Hn.
  apply triple_bind. unfold cb. apply triple_bind, triple_get. eapply triple_emit.
  - cbn. unfold contract_cb. rewrite Hun, Hgen, (rel_closed _ _ R), (rel_running _ _ R), Hd, He.
    cbn. now rewrite Z.eqb_refl, Hends.
  - cbn. now rewrite Hun.
  - unfold endOperationLocked. apply triple_bind, triple_bind, triple_get, triple_put.
    apply triple_ret, kept_done; [|exact Hn].
    destruct R. split; cbn; rewrite ?Hd; auto. discriminate.
Qed.

Lemma sim_remove_next op ids n s q :
  related s q -> mDetached s = false -> (mOp s = op -> mOpKind s = kRemove) ->
  n <= mNextOp s <= n + 1 -> triple (remove_next op ids) s q (kept_locked n).
Proof.
  intros R Hd Hk Hn. induction ids as [|id ids IH]; cbn.
  - wait_.
  - destruct (id =? 0); [exact IH|]. apply triple_bind, triple_get, triple_bind.
    apply triple_dev; trivial. wait_.
Qed.

Lemma sim_authenticate i s q :
  related s q -> ids_left s -> triple (authenticate i) s q (kept_locked (mNextOp s)).
Proof. intros R Hids. apply triple_begin; auto. intros s' q' R' Hd' Hn' Hk' He'. wait_. Qed.

Lemma sim_detach died s q : related s q -> triple (detach died) s q (kept_locked (mNextOp s)).
Proof.
  intros R. unfold detach. apply triple_bind, triple_get.
  destruct (mDetached s) eqn:Hd; [done_|].
  set (b := died && negb (mOpEnded s)).
  apply triple_bind, triple_put, triple_bind. eapply triple_emit; [|reflexivity|].
  { cbn. now rewrite (rel_closed _ _ R), Hd. }
  assert (related (with_detached s) (mkC (c_user q) None (c_last q) true false (c_matches q) (c_due q))) as R'.
  { destruct R. split; cbn; auto. }
  destruct b; apply triple_bind.
  - apply triple_emit with (q' := mkC (c_user q) None (c_last q) true false (c_matches q) (c_due q)).
    { cbn. now rewrite (rel_last _ _ R), (rel_op _ _ R), Z.eqb_refl. }
    { reflexivity. }
    wait_.
  - eapply triple_emit; [reflexivity..|]. done_.
Qed.

(** One module call of an attached session outside an operation. *)
Lemma sim_plain_call c p s q :
  related s q -> match c with DevCancel _ => False | _ => True end ->
  (mDetached s = false -> holder_ok (Some p) s) ->
  triple (s0 ← get; if mDetached s0 then mret sessionClosed else dev c;; mret (Wait p)) s q
    (kept_locked (mNextOp s)).
Proof.
  intros R Hc Hp. apply triple_bind, triple_get.
  destruct (mDetached s) eqn:Hd; [done_|].
  apply triple_bind, triple_dev; [exact R | exact Hd | now destruct c |].
  apply triple_ret, kept_wait; [exact R | lia | auto].
Qed.

Lemma sim_run_task t s q :
  related s q -> ids_left s -> answers_of [t] = [] ->
  triple (run_task t) s q (kept_locked (mNextOp s)).
Proof.
  intros R Hids Ht. destruct t as [op|op|i|died|c]; cbn.
  - unfold rearm_thread. apply triple_bind, triple_get.
    destruct (runningLocked op s) eqn:E; cbn [negb]; [|done_].
    apply runningLocked_true in E as (Hd & _ & _). apply triple_bind, triple_dev; trivial. wait_.
  - unfold stopSensorAfter. apply triple_bind, triple_get.
    destruct (_ || _) eqn:E; [done_|].
    boolprop. apply triple_bind, triple_dev; auto. wait_.
  - now apply sim_authenticate.
  - now apply sim_detach.
  - discriminate.
Qed.

(** A request that is no operation leaves its answer to be made without the lock. *)
Lemma triple_answer c s q (Q : unit -> session -> cstate -> Prop) :
  related s q -> mDetached s = false -> unlocked_answer c = true ->
  (forall q', related s q' -> Q tt s q') -> triple (emit (ESpawn (TDeliver c))) s q Q.
Proof.
  intros R Hd Hc HQ. eapply triple_emit.
  - cbn. now rewrite (rel_closed _ _ R), Hd, Hc.
  - reflexivity.
  - apply HQ. now destruct R.
Qed.

Lemma sim_resume p err value s q :
  related s q -> holder_ok (Some p) s -> triple (resume p err value) s q (kept_locked (mNextOp s)).
Proof.
  intros R Hp. destruct p; cbn in Hp |- *;
    try match type of Hp with _ /\ _ => destruct Hp as [Hd Hk] end.
  - apply triple_bind, triple_get, triple_bind, triple_put, triple_bind.
    assert (related (with_auth_id operationId s) q) by (eapply related_put; eauto; apply R).
    apply triple_dev; trivial. wait_.
  - destruct (err =? 0); cbn [negb].
    + apply triple_bind, triple_ret. done_.
    + apply sim_fail_done; [exact R | lia].
  - apply sim_remove_next; auto; lia.
  - apply triple_bind, triple_get.
    destruct (runningLocked op s) eqn:E; cbn [negb]; [|done_].
    apply runningLocked_true in E as (_ & Eo & He).
    apply triple_bind, triple_put, sim_finish_done; cbn; auto; try lia.
    + eapply related_put; eauto; apply R.
    + now rewrite Hk.
  - destruct (err =? 0); cbn [negb]; [wait_ | apply sim_fail_done; [exact R | lia]].
  - apply triple_bind, triple_get.
    destruct (runningLocked op s) eqn:E; cbn [negb]; [|done_].
    apply runningLocked_true in E as (_ & Eo & He).
    apply sim_finish_done; auto; [now rewrite Hk | lia].
  - apply triple_bind, triple_answer; [done | done | done |]. intros q' R'. done_.
  - apply triple_bind, triple_answer; [done | done | done |]. intros q' R'. done_.
  - apply triple_bind, triple_answer; [done | done | done |]. intros q' R'. done_.
  - done_.
  - apply triple_bind. apply triple_emit with (q' := q); [|reflexivity|done_].
    cbn. now rewrite (rel_closed _ _ R), Hp, (rel_cancel _ _ R).
Qed.

(** The sections without [moduleMutex]. *)
Lemma related_context press disp s q : related s q -> related (with_context press disp s) q.
Proof. intros R. eapply related_put; eauto; apply R. Qed.

Lemma sim_onContextChanged now c s q :
  related s q -> triple (onContextChanged now c) s q (kept s).
Proof.
  intros R. unfold onContextChanged, updateContextLocked.
  apply triple_bind, triple_bind, triple_get, triple_put.
  set (s1 := with_context _ _ s).
  assert (related s1 q) as R1 by now apply related_context.
  assert (forall m : sm unit, triple m s1 q (kept s1) -> triple m s1 q (kept s)) as Hs1.
  { intros m Hm. eapply triple_weaken; [exact Hm|]. intros a s' q' Hk. exact Hk. }
  apply Hs1. clear Hs1. clearbody s1. clear s R.
  apply triple_bind, triple_get.
  destruct (_ || _ || _ || _) eqn:E; [now apply triple_ret, kept_same|]. boolprop.
  match goal with Hh : mHeldMatch s1 = true, He : mOpEnded s1 = false |- _ =>
    destruct (rel_held _ _ R1 Hh He) as [Hin Hk] end.
  set (s2 := with_held _ _ _ _ s1).
  assert (related s2 q) as R2 by (eapply related_put; eauto; discriminate).
  apply triple_bind, triple_put.
  destruct (_ <=? _); [|apply triple_ret; split; [exact R2 | auto]].
  assert (forall m1 m2 m3 : sm unit, triple ((m1;; m2);; m3) s2 q (kept s1) ->
    triple (m1;; m2;; m3) s2 q (kept s1)) as Hassoc.
  { intros m1 m2 m3. unfold triple, mbind, sm_bind.
    destruct (m1 s2) as [[? ?] ?], (m2 _) as [[? ?] ?], (m3 _) as [[? ?] ?].
    now rewrite app_assoc. }
  apply Hassoc. clear Hassoc. apply triple_bind.
  assert (screenGatedLocked s2 = false) as Hg by assumption.
  eapply triple_finish; cbn; rewrite ?Hk; eauto.
  - rewrite Hg. now apply bool_decide_eq_true.
  - intros q' R'. destruct (negb _); [eapply triple_emit; [reflexivity..|] | apply triple_ret];
      split; auto.
Qed.

Lemma sim_close s q : related s q -> triple close s q (kept s).
Proof.
  intros R. unfold close. apply triple_bind, triple_get.
  destruct (mDetached s) eqn:Hd; [now apply triple_ret, kept_same|].
  apply triple_bind. eapply triple_cb_stay; eauto.
  - destruct (mOpEnded s); [left | right]; auto.
  - eapply triple_emit; [reflexivity..|]. now apply kept_same.
Qed.

Lemma sim_authenticateWithContext i c s q :
  related s q -> triple (authenticateWithContext i c) s q (kept s).
Proof.
  intros R. unfold authenticateWithContext, updateContextLocked.
  apply triple_bind, triple_bind, triple_get, triple_put.
  eapply triple_emit; [reflexivity..|]. split; [now apply related_context | auto].
Qed.

(** ** Executions *)

(** The answers that are due are those that threads wait to make. *)
Definition owed (ts : list task) (q : cstate) : Prop :=
  c_due q ≡ₚ answers_of ts /\ Forall (fun c => unlocked_answer c = true) (answers_of ts).

(** The contract has accepted all calls so far, and its state is the session's;
    at most [n] operations were started. *)
Definition invariant (user n : Z) (y : sys) : Prop :=
  exists q, accepts (c_init user) (trace y) = Some q /\ related (ses y) q /\
    holder_ok (holder y) (ses y) /\ owed (tasks y) q /\
    0 <= mNextOp (ses y) <= n.

Lemma accepts_spawned q o q' :
  accepts q o = Some q' -> Forall (fun c => unlocked_answer c = true) (answers_of (spawned o)).
Proof.
  revert q. induction o as [|e o IH]; intros q E; cbn; [constructor|].
  cbn in E. destruct (contract q e) as [q1|] eqn:Ec; [|discriminate].
  destruct e as [| | | | | |[| | | |c]]; cbn; eauto. constructor; eauto.
  cbn in Ec. destruct (c_closed q); [discriminate|]. now destruct (unlocked_answer c).
Qed.

Lemma owed_more ts q o q' : owed ts q -> accepts q o = Some q' -> c_due q' = c_due q ++ answers_of (spawned o) ->
  owed (ts ++ spawned o) q'.
Proof.
  intros [Hd Hu] Eo Ed. unfold owed. rewrite answers_app, Ed, Hd. split; [done|].
  apply Forall_app. split; [exact Hu | eapply accepts_spawned; eauto].
Qed.

Lemma holder_kept h s s' q q' (a : unit) :
  related s q -> kept s a s' q' -> holder_ok h s -> holder_ok h s'.
Proof.
  intros R (R' & Ed & En & Ek). unfold holder_ok.
  pose proof (rel_op _ _ R). pose proof (rel_op _ _ R').
  assert (mOp s' = mOp s) as Eo by congruence. rewrite Ed, Ek, Eo. auto.
Qed.

(** A section without the lock keeps the invariant. *)
Lemma inv_atomically (m : sm unit) user n y :
  (forall q, related (ses y) q -> triple m (ses y) q (kept (ses y))) ->
  invariant user n y -> invariant user n (atomically m y).2.
Proof.
  intros Hm (q & Ea & R & Hh & Ht & Hn). specialize (Hm q R). unfold triple in Hm. unfold atomically.
  destruct (m (ses y)) as [[a s'] o]. destruct Hm as (q' & Eo & Ed & Hk).
  exists q'; cbn; split; [|split; [|split; [|split]]].
  - rewrite accepts_app, Ea. exact Eo.
  - apply Hk.
  - eapply holder_kept; eauto.
  - eapply owed_more; eauto.
  - destruct Hk as (_ & _ & -> & _). exact Hn.
Qed.

(** A section with the lock keeps it, and may start one operation. *)
Lemma inv_locked (m : sm outcome) user n y :
  (forall q, related (ses y) q -> triple m (ses y) q (kept_locked (mNextOp (ses y)))) ->
  invariant user n y -> invariant user (n + 1) (locked m y).
Proof.
  intros Hm (q & Ea & R & Hh & Ht & Hn). specialize (Hm q R). unfold triple in Hm.
  unfold locked, atomically.
  destruct (m (ses y)) as [[a s'] o]. destruct Hm as (q' & Eo & Ed & R' & Hn' & Hh').
  exists q'; cbn; split; [|split; [|split; [|split]]].
  - rewrite accepts_app, Ea. exact Eo.
  - exact R'.
  - destruct a; exact Hh'.
  - eapply owed_more; eauto.
  - lia.
Qed.

Lemma inv_more user n m y : n <= m -> invariant user n y -> invariant user m y.
Proof. intros Hnm (q & Ea & R & Hh & Ht & Hn). exists q. repeat (split; [assumption|]). lia. Qed.

Lemma inv_acquire (m : sm outcome) user n y y' :
  (forall q, related (ses y) q -> triple m (ses y) q (kept_locked (mNextOp (ses y)))) ->
  invariant user n y -> acquire m y = Some y' -> invariant user (n + 1) y'.
Proof.
  intros Hm Hi. unfold acquire. destruct (holder y); [discriminate|]. intros [= <-].
  now apply inv_locked.
Qed.

(** A request that starts an operation, makes one module call and waits. *)
Ltac request :=
  intros q R; apply triple_begin; auto;
  intros s' q' R' Hd' Hn' Hk' He';
  try match goal with |- triple (if negb ?b then _ else _) _ _ _ =>
    destruct b; cbn [negb]; [|apply sim_fail_done; [exact R' | lia]] end;
  try (apply triple_bind, triple_get);
  apply triple_bind, triple_dev; trivial; wait_.

Lemma take_out_perm c l l' : l ≡ₚ c :: l' -> exists l1, take_out c l = Some l1 /\ l1 ≡ₚ l'.
Proof.
  revert l'. induction l as [|x l IH]; intros l' Hp; cbn; [now apply Permutation_nil_cons in Hp|].
  destruct (decide (x = c)) as [->|Hn].
  - exists l. split; [done|]. now apply Permutation_cons_inv in Hp.
  - assert (Hin : c ∈ l).
    { assert (c ∈ x :: l) as Hc by (rewrite Hp; apply list_elem_of_here). set_solver. }
    apply elem_of_Permutation in Hin as [l2 Hl2]. destruct (IH l2 Hl2) as (l1 & -> & Hl1).
    exists (x :: l1). split; [done|]. rewrite Hl1. apply (Permutation_cons_inv (a := c)). rewrite <- Hp, Hl2. constructor.
Qed.

Lemma answers_delete ts i t : ts !! i = Some t -> answers_of ts ≡ₚ answers_of [t] ++ answers_of (delete i ts).
Proof.
  intros Hi. rewrite <- answers_app. unfold answers_of. apply omap_Permutation. now apply delete_Permutation.
Qed.

(** An answer made after the lock was released. *)
Lemma inv_deliver i c user n y :
  tasks y !! i = Some (TDeliver c) -> invariant user n y ->
  invariant user (n + 1)
    (atomically (run_task (TDeliver c)) (mkSys (ses y) (holder y) (delete i (tasks y)) (trace y))).2.
Proof.
  intros Hi (q & Ea & R & Hh & [Hd Hu] & Hn). pose proof (answers_delete _ _ _ Hi) as Hp. cbn in Hp.
  rewrite Hp in Hd, Hu. apply Forall_cons in Hu as [Hc Hu]. destruct (take_out_perm _ _ _ Hd) as (due & Et & Hd').
  exists (with_due due q). unfold atomically, run_task, cb, mbind, sm_bind, get, emit, mret, sm_ret. simpl fst; simpl snd.
  cbn [ses holder tasks trace app spawned omap list_omap].
  split; [|split; [now destruct R | split; [exact Hh | split; [|lia]]]].
  - rewrite accepts_app, Ea. cbn. unfold contract_cb. now rewrite Hc, Et.
  - cbn. rewrite app_nil_r. now split.
Qed.

Lemma inv_step d l user n y y' :
  label_ok l -> n < UINT64_MAX -> invariant user n y -> step d l y = Some y' ->
  invariant user (n + 1) y'.
Proof.
  intros Hl Hmax Hi. assert (ids_left (ses y)) as Hleft.
  { destruct Hi as (? & _ & _ & _ & _ & ?). unfold ids_left. lia. }
  assert (forall m : sm unit, (forall q, related (ses y) q -> triple m (ses y) q (kept (ses y))) ->
    Some (atomically m y).2 = Some y' -> invariant user (n + 1) y') as Hplain.
  { intros m Hm [= <-]. apply inv_more with (n := n); [lia | now apply inv_atomically]. }
  destruct l as [now m|now c|i c| |died|i|err value| |ch| |hat|i| | |ids| |hat|op]; cbn [step].
  - apply Hplain. intros q R. now apply sim_onMessage.
  - apply Hplain. intros q R. now apply sim_onContextChanged.
  - apply Hplain. intros q R. now apply sim_authenticateWithContext.
  - apply Hplain. intros q R. now apply sim_close.
  - apply inv_acquire; [|exact Hi]. intros q R. now apply sim_detach.
  - destruct (tasks y !! i) as [t|] eqn:Et; [|discriminate].
    set (y0 := mkSys (ses y) (holder y) (delete i (tasks y)) (trace y)).
    assert (answers_of [t] = [] -> invariant user n y0) as Hi0.
    { intros Ht. destruct Hi as (q & Ea & R & Hh & [Hd Hu] & Hn). exists q. repeat (split; [assumption|]). split; [|exact Hn].
      pose proof (answers_delete _ _ _ Et) as Hp. rewrite Ht in Hp. cbn in Hp. split; cbn; now rewrite <- Hp. }
    destruct t as [op|op|oi|died|c];
      try (apply inv_acquire; [|now apply Hi0]; intros q0 R0; now apply sim_run_task).
    intros E. apply Some_inj in E as <-. now apply inv_deliver.
  - destruct (holder y) as [p|] eqn:Ep; [|discriminate]. intros [= <-].
    apply inv_locked; [|exact Hi]. intros q R. apply sim_resume; [exact R|].
    destruct Hi as (? & _ & _ & Hh & _). now rewrite <- Ep.
  - apply inv_acquire; [|exact Hi]. intros q R. apply sim_plain_call; cbn; auto.
  - apply inv_acquire; [|exact Hi]. intros q R. apply sim_plain_call; cbn; auto.
  - apply inv_acquire; [|exact Hi]. intros q R. apply sim_plain_call; cbn; auto.
  - apply inv_acquire; [|exact Hi]. request.
  - apply inv_acquire; [|exact Hi]. intros q R. now apply sim_authenticate.
  - apply inv_acquire; [|exact Hi]. request.
  - apply inv_acquire; [|exact Hi]. request.
  - apply inv_acquire; [|exact Hi]. intros q R. apply triple_begin; auto.
    intros s' q' R' Hd' Hn' Hk' He'. apply sim_remove_next; auto. lia.
  - apply inv_acquire; [|exact Hi]. request.
  - apply inv_acquire; [|exact Hi]. request.
  - apply inv_acquire; [|exact Hi]. intros q R. unfold cancel. apply triple_bind, triple_get.
    destruct (runningLocked op _) eqn:E; cbn [negb]; [|done_].
    apply runningLocked_true in E as (Hd & Eo & He).
    apply triple_bind, triple_dev; auto. wait_.
Qed.

Lemma inv_run d user ls n y y' :
  Forall label_ok ls -> n + Z.of_nat (length ls) <= UINT64_MAX -> invariant user n y ->
  run d ls y = Some y' -> invariant user (n + Z.of_nat (length ls)) y'.
Proof.
  revert n y. induction ls as [|l ls IH]; intros n y Hls Hn Hi Hr; cbn in Hr.
  - injection Hr as <-. cbn. now rewrite Z.add_0_r.
  - destruct (step d l y) as [y1|] eqn:Es; [|discriminate]. cbn in Hr.
    inversion_clear Hls. cbn [length] in *.
    replace (n + Z.of_nat (S (length ls))) with (n + 1 + Z.of_nat (length ls)) by lia.
    eapply IH; eauto; [lia|]. eapply inv_step; eauto. lia.
Qed.

Lemma inv_start user : invariant user 0 (new_sys user).
Proof. exists (c_init user). repeat split; try done. Qed.

End Requests.

(** ** What acceptance by the contract means for a trace *)

(** An operation that was started keeps its kind. *)
Definition kind_fixed (op : Z) (k : OpKind) (q : cstate) : Prop :=
  op <= c_last q /\ forall k', c_running q = Some (op, k') -> k' = k.

(** An operation that is over. *)
Definition over (op : Z) (q : cstate) : Prop :=
  op <= c_last q /\ forall k', c_running q <> Some (op, k').

(** The cases of an accepted event. *)
Ltac accepted :=
  repeat first
    [ progress simplify_eq
    | match goal with
      | H : flip with_due _ <$> ?o = Some _ |- _ => destruct o eqn:?; cbn in H
      | H : (if ?b then _ else _) = Some _ |- _ => destruct b eqn:?
      | H : match ?x with _ => _ end = Some _ |- _ => destruct x eqn:?
      end ];
  cbn in *; boolprop.

Lemma contract_last q e q' :
  contract q e = Some q' ->
  (c_running q' = c_running q \/ c_running q' = None) /\ c_last q' = c_last q \/
  exists k, e = EBegin (c_last q + 1) k /\ c_running q' = Some (c_last q + 1, k) /\ c_last q' = c_last q + 1.
Proof.
  destruct e as [op k|op g c|c|op m|b| |t]; cbn; intros E;
    unfold contract_cb, contract_dev in E; accepted; subst; eauto 6.
Qed.

Lemma contract_user q e q' : contract q e = Some q' -> c_user q' = c_user q.
Proof.
  destruct e as [op k|op g c|c|op m|b| |t]; cbn; intros E;
    unfold contract_cb, contract_dev in E; accepted; auto.
Qed.

Lemma kind_fixed_step op k q e q' :
  contract q e = Some q' -> kind_fixed op k q -> kind_fixed op k q'.
Proof.
  intros E [Hl Hk]. destruct (contract_last _ _ _ E) as [[[Er|Er] El]|(k' & -> & Er & El)].
  - split; [lia|]. intros k'. rewrite Er. apply Hk.
  - split; [lia|]. intros k'. rewrite Er. discriminate.
  - split; [lia|]. intros k''. rewrite Er. intros [= ? <-]. lia.
Qed.

Lemma over_step op q e q' : contract q e = Some q' -> over op q -> over op q'.
Proof.
  intros E [Hl Hk]. destruct (contract_last _ _ _ E) as [[[Er|Er] El]|(k' & -> & Er & El)].
  - split; [lia|]. intros k'. rewrite Er. apply Hk.
  - split; [lia|]. intros k'. rewrite Er. discriminate.
  - split; [lia|]. intros k''. rewrite Er. intros [= ? <-]. lia.
Qed.

(** A property of contract states that events keep holds after any trace. *)
Lemma accepts_keeps (P : cstate -> Prop) t q q' :
  (forall q1 e q2, contract q1 e = Some q2 -> P q1 -> P q2) ->
  accepts q t = Some q' -> P q -> P q'.
Proof.
  intros Hp. revert q. induction t as [|e t IH]; intros q E Hq; cbn in E; [now simplify_eq|].
  destruct (contract q e) eqn:Ec; [|discriminate]. eauto.
Qed.

Lemma accepts_split t1 e t2 q q' :
  accepts q (t1 ++ e :: t2) = Some q' ->
  exists q1 q2, accepts q t1 = Some q1 /\ contract q1 e = Some q2 /\ accepts q2 t2 = Some q'.
Proof.
  rewrite accepts_app. intros E. destruct (accepts q t1) as [q1|]; [|discriminate]. cbn in E.
  destruct (contract q1 e) as [q2|] eqn:Ec; [|discriminate]. eauto 6.
Qed.

Lemma accepts_in e t q q' :
  e ∈ t -> accepts q t = Some q' ->
  exists t1 t2 q1 q2, t = t1 ++ e :: t2 /\ accepts q t1 = Some q1 /\ contract q1 e = Some q2 /\
    accepts q2 t2 = Some q'.
Proof.
  intros (t1 & t2 & ->)%list_elem_of_split E.
  destruct (accepts_split _ _ _ _ _ E) as (q1 & q2 & ?). exists t1, t2, q1, q2. auto.
Qed.

Lemma accepts_started op k t q q' :
  EBegin op k ∈ t -> accepts q t = Some q' -> kind_fixed op k q'.
Proof.
  intros Hin E. destruct (accepts_in _ _ _ _ Hin E) as (t1 & t2 & q1 & q2 & _ & _ & Ec & E2).
  eapply accepts_keeps; [apply kind_fixed_step | exact E2 |].
  cbn in Ec. destruct (_ || _) eqn:Eo; [discriminate|]. simplify_eq.
  split; cbn; [lia|]. intros k' [= ->]. reflexivity.
Qed.

Lemma over_after op k g c q q' :
  kind_fixed op k q -> ends k c = true -> contract q (ECb op g c) = Some q' -> over op q'.
Proof.
  intros [Hl Hk] He. cbn. unfold contract_cb.
  destruct (unlocked_answer c) eqn:Eu; [now destruct c, k|].
  destruct (_ || _); [discriminate|].
  destruct (c_running q) as [[op' k']|] eqn:Er.
  - destruct (op =? op') eqn:Eo; boolprop; [subst op'|discriminate].
    rewrite (Hk k' eq_refl), He. intros [= <-]. split; [exact Hl | discriminate].
  - destruct (unrelated c); [|discriminate]. intros [= <-]. split; [exact Hl|]. now rewrite Er.
Qed.

Lemma over_callback op g c q q' :
  over op q -> contract q (ECb op g c) = Some q' -> unrelated c || unlocked_answer c = true.
Proof.
  intros [_ Hk]. cbn. unfold contract_cb.
  destruct (unlocked_answer c); [now rewrite orb_true_r|].
  destruct (_ || _); [discriminate|].
  destruct (c_running q) as [[op' k']|] eqn:Er.
  - destruct (op =? op') eqn:Eo; boolprop; [subst op'|discriminate]. now destruct (Hk k').
  - destruct (unrelated c); [reflexivity | discriminate].
Qed.

(** The module reported a match of [user] for operation [op]. *)
Definition reported (user op id : Z) (hat : HardwareAuthToken) (t : list event) : Prop :=
  exists f token, ERx op (MsgAuthenticated f token) ∈ t /\ fid f <> 0 /\ gid f = u32 user /\
    id = i32 (fid f) /\ hat = fromLegacy token.

(** Where the contract's state comes from. *)
Lemma accepts_history user t q :
  accepts (c_init user) t = Some q ->
  c_user q = user /\
  (forall op id hat, (op, id, hat) ∈ c_matches q -> reported user op id hat t) /\
  (forall op k, c_running q = Some (op, k) -> EBegin op k ∈ t).
Proof.
  revert q. induction t as [|e t IH] using rev_ind; intros q E.
  { cbn in E. simplify_eq. split; [reflexivity | split; [intros ? ? ? Hin; now apply not_elem_of_nil in Hin | discriminate]]. }
  rewrite accepts_app in E. destruct (accepts _ t) as [q1|]; [|discriminate]. cbn in E.
  destruct (contract q1 e) as [q2|] eqn:Ec; [|discriminate]. cbn in E. simplify_eq.
  destruct (IH q1 eq_refl) as (Hu & Hm & Hr). split; [now rewrite (contract_user _ _ _ Ec) | split].
  - intros op id hat Hin.
    assert ((op, id, hat) ∈ c_matches q1 \/ reported user op id hat (t ++ [e])) as [Ho|]; [|
      destruct (Hm _ _ _ Ho) as (f & token & H1 & H2); exists f, token;
      split; [apply elem_of_app; now left | exact H2] | assumption].
    destruct e as [op' k'|op' g c|c|op' m|b| |t']; cbn in Ec;
      unfold contract_cb, contract_dev in Ec; accepted; auto.
    apply elem_of_cons in Hin as [[= -> -> ->]|]; [right|auto].
    eexists _, _. split; [apply elem_of_app; right; apply list_elem_of_singleton; reflexivity|].
    repeat split; congruence.
  - intros op k Er. destruct (contract_last _ _ _ Ec) as [[[Er'|Er'] El]|(k' & -> & Er' & El)].
    + apply elem_of_app. left. apply Hr. congruence.
    + congruence.
    + rewrite Er' in Er. simplify_eq. apply elem_of_app. right. now apply list_elem_of_singleton.
Qed.

(** What a detached session may still do. *)
Definition silent (e : event) : bool :=
  match e with
  | EBegin _ _ | ERx _ _ | EDetach _ => false
  | ECb _ _ c => unlocked_answer c
  | EDev (DevCancel _) | EOnDetach | ESpawn _ => true
  | EDev _ => false
  end.

Definition module_calls (t : list event) : list devcall :=
  omap (fun e => match e with EDev c => Some c | _ => None end) t.

Lemma accepts_closed t q q' :
  c_closed q = true -> accepts q t = Some q' ->
  forallb silent t = true /\ (length (module_calls t) <= if c_may_cancel q then 1 else 0)%nat.
Proof.
  revert q. induction t as [|e t IH]; intros q Hc E; cbn in E |- *.
  { split; [reflexivity | apply Nat.le_0_l]. }
  destruct (contract q e) as [q1|] eqn:Ec; [|discriminate]. cbn in E.
  assert (silent e = true /\ c_closed q1 = true /\
    (match e with EDev _ => c_may_cancel q = true /\ c_may_cancel q1 = false
     | _ => c_may_cancel q1 = c_may_cancel q end)) as (Hs & Hc1 & Hm).
  { destruct e as [op k|op g c|c|op m|b| |t']; cbn in Ec;
      unfold contract_cb, contract_dev in Ec; rewrite ?Hc in Ec; cbn in Ec; accepted; auto. }
  destruct (IH _ Hc1 E) as [Hf Hn]. rewrite Hs. split; [exact Hf|].
  destruct e; cbn; try (rewrite <- Hm; exact Hn).
  destruct Hm as [-> Hm]. rewrite Hm in Hn. cbn. unfold module_calls in Hn. lia.
Qed.

Definition callbacks (t : list event) : list callback :=
  omap (fun e => match e with ECb _ _ c => Some c | _ => None end) t.

Lemma take_out_some c l l' : take_out c l = Some l' -> l ≡ₚ c :: l'.
Proof.
  revert l'. induction l as [|x l IH]; intros l' E; cbn in E; [discriminate|].
  destruct (decide (x = c)) as [->|_]; simplify_eq; [done|].
  destruct (take_out c l) as [l1|]; [|discriminate]. cbn in E. simplify_eq.
  rewrite (IH l1 eq_refl). constructor.
Qed.

(** What a closed session still calls was due when it was closed. *)
Lemma closed_callbacks t q q' :
  c_closed q = true -> accepts q t = Some q' -> callbacks t ++ c_due q' ≡ₚ c_due q.
Proof.
  revert q. induction t as [|e t IH]; intros q Hc E; cbn in E |- *; [now simplify_eq|].
  destruct (contract q e) as [q1|] eqn:Ec; [|discriminate]. cbn in E.
  destruct e as [op k|op g c|c|op m|b| |[| | | |c]]; cbn in Ec;
    unfold contract_cb, contract_dev in Ec; rewrite ?Hc in Ec; cbn in Ec; accepted;
    try exact (IH _ Hc E); try (now refine (IH _ _ E)).
  match goal with Et : take_out _ _ = Some ?l |- _ =>
    rewrite (take_out_some _ _ _ Et); constructor; exact (IH (with_due l q) Hc E) end.
Qed.

(** Only what a request left to be answered can be due. *)
Lemma due_was_spawned t q q' : accepts q t = Some q' -> c_due q' ⊆+ c_due q ++ answers_of (spawned t).
Proof.
  revert q. induction t as [|e t IH]; intros q E; cbn in E |- *; [simplify_eq; now rewrite app_nil_r|].
  destruct (contract q e) as [q1|] eqn:Ec; [|discriminate]. cbn in E. specialize (IH _ E). etrans; [exact IH|].
  destruct (not_due e) eqn:Hn.
  - rewrite (contract_due _ _ _ Ec Hn), <- app_assoc, <- answers_app, <- spawned_app. reflexivity.
  - destruct e as [|op g c| | | | |]; try discriminate. cbn in Ec, Hn. unfold contract_cb in Ec.
    destruct (unlocked_answer c); [|discriminate]. destruct (take_out c (c_due q)) as [due|] eqn:Et; [|discriminate].
    cbn in Ec. simplify_eq. cbn. apply take_out_some in Et. rewrite Et. now apply submseteq_cons.
Qed.

(** ** A removal from the request to its result *)

(** One id of the request: the id, whether the module reports its removal, and
    what [remove] returns. *)
Record removal := mkRemoval { rm_id : Z; rm_reported : bool; rm_err : Z }.

(** What the module does, call after call. *)
Definition module_removes (r : removal) : list label :=
  if rm_id r =? 0 then [] else
  (if rm_reported r then [LMessage 0 (MsgTemplateRemoved (mkFinger (u32 (rm_id r)) 0))] else [])
  ++ [LReturn (rm_err r) 0].

Definition nonzero (l : list removal) : list removal := filter (fun r => rm_id r <> 0) l.
Definition removed_ids (l : list removal) : list Z :=
  rm_id <$> filter (fun r => rm_id r <> 0 /\ rm_reported r = true) l.

Lemma run_app {H : LegacyHeader} d l1 l2 y : run d (l1 ++ l2) y = (y' ← run d l1 y; run d l2 y').
Proof.
  revert y. induction l1 as [|l l1 IH]; intros y; cbn; [reflexivity|].
  destruct (step d l y); cbn; auto.
Qed.

Lemma module_calls_app t1 t2 : module_calls (t1 ++ t2) = module_calls t1 ++ module_calls t2.
Proof. apply omap_app. Qed.
Lemma callbacks_app t1 t2 : callbacks (t1 ++ t2) = callbacks t1 ++ callbacks t2.
Proof. apply omap_app. Qed.

Section Removal.
Context {H : LegacyHeader}.
Variable d : device.

(** The session while [removeEnrollments] runs. *)
Definition removing (op : Z) (s : session) : Prop :=
  mDetached s = false /\ mOp s = op /\ mOpEnded s = false /\ mOpKind s = kRemove.

Lemma removing_running op s : removing op s -> runningLocked op s = true /\ runningKind kRemove s = true.
Proof.
  intros (Hd & Ho & He & Hk). unfold runningLocked, runningKind. rewrite Hd, Ho, He, Hk.
  rewrite Z.eqb_refl. auto.
Qed.

(** The module reports one removal. *)
Lemma report_removal op id y :
  removing op (ses y) -> is_i32 id -> id <> 0 ->
  exists y', step d (LMessage 0 (MsgTemplateRemoved (mkFinger (u32 id) 0))) y = Some y' /\
    ses y' = with_removed (mRemoved (ses y) ++ [id]) (ses y) /\ holder y' = holder y /\
    tasks y' = tasks y /\ exists e, trace y' = trace y ++ [ERx op e].
Proof.
  intros Hr Hi Hz. pose proof Hr as (Hd & Ho & He & Hk).
  destruct (removing_running _ _ Hr) as [_ Hrk].
  assert ((u32 id =? 0) = false) as Hu.
  { apply Z.eqb_neq. intros Hc. apply Hz. rewrite <- (i32_u32 id Hi), Hc. reflexivity. }
  cbn [step]. unfold atomically, onMessage, mbind, sm_bind, get, emit, put, skip.
  rewrite Hd, Hrk, He. cbn [negb fid]. rewrite Hu. cbn. rewrite i32_u32 by exact Hi.
  eexists. split; [reflexivity|]. cbn. rewrite app_nil_r, Ho.
  repeat split; eauto.
Qed.

(** The loop of [removeEnrollments] with the module's answers. *)
Lemma remove_loop op l y :
  removing op (ses y) -> Forall (fun r => is_i32 (rm_id r)) l ->
  exists y' t,
    run d (flat_map module_removes l ++ [LReturn 0 0])
      (locked (remove_next op (rm_id <$> l)) y) = Some y' /\
    trace y' = trace y ++ t /\
    module_calls t = (fun r => DevRemove (mUserId (ses y)) (rm_id r)) <$> nonzero l /\
    callbacks t = [onEnrollmentsRemoved (mRemoved (ses y) ++ removed_ids l)] /\
    holder y' = None /\ mOpEnded (ses y') = true.
Proof.
  revert y. induction l as [|[id rep err] l IH]; intros y Hr Hi.
  - pose proof Hr as (Hd & Ho & He & Hk). destruct (removing_running _ _ Hr) as [Hrl _].
    cbn [fmap list_fmap flat_map app run remove_next step locked atomically mret sm_ret holder set_holder resume].
    unfold mbind at 2, sm_bind, get, locked at 1, atomically, set_holder. cbn [ses].
    rewrite Hrl. unfold cb, endOperationLocked, mbind, sm_bind, put, emit, get.
    eexists _, _. split; [reflexivity|]. cbn. rewrite (app_nil_r (trace y)).
    split; [reflexivity|]. cbn. now rewrite app_nil_r.
  - inversion_clear Hi as [|? ? Hid Hil]. cbn in Hid.
    unfold nonzero, removed_ids. cbn [fmap list_fmap rm_id flat_map module_removes].
    rewrite !filter_cons. cbn [rm_id rm_reported].
    destruct (decide (id = 0)) as [->|Hz].
    { destruct (IH y Hr Hil) as (y' & t & E & Et & Em & Ec & Eh). exists y', t.
      rewrite decide_False by congruence. rewrite decide_False by naive_solver. auto. }
    rewrite decide_True by congruence.
    unfold module_removes at 1. cbn [rm_id rm_reported rm_err].
    replace (id =? 0) with false by (symmetry; now apply Z.eqb_neq).
    set (y1 := locked (remove_next op (id :: (rm_id <$> l))) y).
    assert (ses y1 = ses y /\ holder y1 = Some (PRemove op (rm_id <$> l)) /\
      trace y1 = trace y ++ [EDev (DevRemove (mUserId (ses y)) id)]) as (Es & Eh & Et1).
    { unfold y1. cbn. replace (id =? 0) with false by (symmetry; now apply Z.eqb_neq).
      unfold locked, atomically, mbind, sm_bind, get, dev, emit. cbn. auto. }
    clearbody y1. rewrite <- !app_assoc, run_app.
    assert (exists y2, run d (if rep then [LMessage 0 (MsgTemplateRemoved (mkFinger (u32 id) 0))] else []) y1
        = Some y2 /\ removing op (ses y2) /\ mUserId (ses y2) = mUserId (ses y) /\
        mRemoved (ses y2) = mRemoved (ses y) ++ (if rep then [id] else []) /\
        holder y2 = holder y1 /\
        exists t, trace y2 = trace y1 ++ t /\ module_calls t = [] /\ callbacks t = [])
      as (y2 & E2 & Hr2 & Hu2 & Hm2 & Hh2 & t2 & Et2 & Emt2 & Ect2).
    { rewrite <- Es in Hr |- *. destruct rep.
      - destruct (report_removal op id y1 Hr Hid Hz) as (y2 & E2 & Es2 & Eh2 & _ & e & Et2).
        exists y2. cbn [run]. rewrite E2. cbn [mbind option_bind run]. rewrite Es2. repeat (split; [auto|]).
        exists [ERx op e]. auto.
      - exists y1. rewrite app_nil_r. repeat (split; [auto|]). exists []. rewrite app_nil_r. auto. }
    rewrite E2. cbn [mbind option_bind app run step]. rewrite Hh2, Eh. cbn [mbind option_bind].
    destruct (IH y2 Hr2 Hil) as (y' & t & E & Et & Em & Ec & Eh').
    exists y', (EDev (DevRemove (mUserId (ses y)) id) :: t2 ++ t). split; [exact E|].
    split; [rewrite Et, Et2, Et1; now rewrite <- !app_assoc|].
    cbn. fold (module_calls (t2 ++ t)) (callbacks (t2 ++ t)).
    rewrite module_calls_app, callbacks_app, Emt2, Ect2, Em, Ec, Hu2, Hm2. cbn.
    split; [reflexivity|]. split; [|exact Eh'].
    rewrite <- app_assoc. destruct rep.
    + rewrite decide_True by auto. reflexivity.
    + rewrite decide_False by naive_solver. reflexivity.
Qed.

End Removal.

(** ** Theorems *)

(** The values of the AOSP headers. *)
#[local] Instance AospHeader : LegacyHeader := {|
  FINGERPRINT_ERROR_HW_UNAVAILABLE := 1;
  FINGERPRINT_ERROR_UNABLE_TO_REMOVE := 6;
  FINGERPRINT_ERROR_VENDOR_BASE := 1000;
  FINGERPRINT_ACQUIRED_GOOD := 0;
  FINGERPRINT_ACQUIRED_TOO_FAST := 5;
  FINGERPRINT_ACQUIRED_VENDOR_BASE := 1000;
  HW_AUTH_TOKEN_VERSION := 0;
  Error_UNABLE_TO_PROCESS := 2;
  Error_VENDOR := 7;
  AcquiredInfo_INSUFFICIENT := 3;
  AcquiredInfo_VENDOR := 7;
|}.

(** A whole module, and an execution of user 10: an unlock attempt with the
    screen off is held, the sensor is re-armed, the screen turns on, the match is
    delivered and the sensor stopped; the client dies in the next operation. *)
Definition full_device : device := mkDevice true true true.
Definition example_token : hw_auth_token_t := mkToken 0 1 2 3 4 5 (replicate 32 7).
Definition example_labels : list label :=
  [ LAuthenticateWithContext 77
      (mkContext AOD (Some (vendorAuthenticateReason (Some true))));
    LTask 0; LReturn 0 0;
    LMessage 1000 (MsgAuthenticated (mkFinger 3 10) example_token);
    LReturn 0 0; LTask 0; LReturn 0 0;
    LContext 5000 (mkContext OtherDisplay None);
    LMessage 5500 (MsgLockout (mkLockout 2 0 0));
    LTask 0; LMessage 6000 (MsgError 5); LReturn 0 0;
    LAuthenticate 78; LReturn 0 0; LReturn 0 0;
    LGenerateChallenge; LReturn 0 9;
    LDetach true; LReturn 0 0; LTask 0 ].
Definition example_end : sys :=
  default (new_sys 10) (run full_device example_labels (new_sys 10)).

Lemma example_labels_ok : Forall label_ok example_labels.
Proof. repeat constructor; vm_compute; (discriminate || reflexivity). Qed.

Section Claims.
Context {H : LegacyHeader}.
Variable d : device.

(** C1. Every execution of a session, under any interleaving of client requests,
    module callbacks and the threads they start, makes only calls that the
    contract allows: operations one after another, results of the running operation's
    kind, one terminal result each, genuine unlocks only, each answer to
    generateChallenge, revokeChallenge and getAuthenticatorId made once, and once
    detached no use of the module but the cancel for a dead client.  Once detached the
    client is called with nothing but such answers, of requests whose module call had
    returned before the detach, each at most once.  The comment of [detach] in
    [Session.h] ("stops delivering ... callbacks") does not make this exception; the code
    does ([answer_after_detach]). *)
Theorem session_refines_contract user ls y :
  Forall label_ok ls -> Z.of_nat (length ls) <= UINT64_MAX ->
  run d ls (new_sys user) = Some y ->
  is_Some (accepts (c_init user) (trace y)) /\
  (forall mayCancel t1 t2, trace y = t1 ++ EDetach mayCancel :: t2 -> callbacks t2 ⊆+ answers_of (spawned t1)).
Proof.
  intros Hl Hn Hr. destruct (inv_run d user ls 0 _ _ Hl Hn (inv_start user) Hr) as (q & E & _).
  split; [eauto|]. intros mayCancel t1 t2 Et. rewrite Et in E.
  destruct (accepts_split _ _ _ _ _ E) as (q1 & q2 & E1 & E2 & E3). pose proof (due_was_spawned _ _ _ E1) as Hd.
  cbn in E2, Hd. destruct (c_closed q1); [discriminate|]. simplify_eq. unshelve epose proof (closed_callbacks t2 _ _ _ E3) as Hp; [done|].
  cbn in Hp. etrans; [|exact Hd]. rewrite <- Hp. apply submseteq_inserts_r. reflexivity.
Qed.

(** C28. Once an operation has its terminal result, no later callback reports
    anything about it: only lockout notices, the close notice and the answers to
    requests that are not operations may still come. *)
Theorem one_result_per_operation user ls y op k g c t1 t2 g' c' :
  Forall label_ok ls -> Z.of_nat (length ls) <= UINT64_MAX ->
  run d ls (new_sys user) = Some y ->
  trace y = t1 ++ ECb op g c :: t2 -> EBegin op k ∈ t1 -> ends k c = true ->
  ECb op g' c' ∈ t2 -> unrelated c' || unlocked_answer c' = true.
Proof.
  intros Hl Hn Hr Et Hb He Hin.
  destruct (inv_run d user ls 0 _ _ Hl Hn (inv_start user) Hr) as (q & E & _).
  rewrite Et in E. destruct (accepts_split _ _ _ _ _ E) as (q1 & q2 & E1 & E2 & E3).
  pose proof (over_after _ _ _ _ _ _ (accepts_started _ _ _ _ _ Hb E1) He E2) as Ho.
  destruct (accepts_in _ _ _ _ Hin E3) as (t3 & t4 & q3 & q4 & _ & E4 & E5 & _).
  eapply over_callback; [|exact E5].
  eapply accepts_keeps; [apply over_step | exact E4 | exact Ho].
Qed.

(** C7. An unlock is reported only with the screen gate open, in a running
    authentication of this session, and for a match the module itself reported
    for this session's user during that same operation, with that match's finger
    and token. *)
Theorem unlock_is_genuine user ls y op g id hat t1 t2 :
  Forall label_ok ls -> Z.of_nat (length ls) <= UINT64_MAX ->
  run d ls (new_sys user) = Some y ->
  trace y = t1 ++ ECb op g (onAuthenticationSucceeded id hat) :: t2 ->
  g = false /\ EBegin op kAuthenticate ∈ t1 /\ reported user op id hat t1.
Proof.
  intros Hl Hn Hr Et.
  destruct (inv_run d user ls 0 _ _ Hl Hn (inv_start user) Hr) as (q & E & _).
  rewrite Et in E. destruct (accepts_split _ _ _ _ _ E) as (q1 & q2 & E1 & E2 & _).
  destruct (accepts_history _ _ _ E1) as (Hu & Hm & Hrun).
  cbn in E2. unfold contract_cb in E2. cbn in E2. accepted. subst.
  split; [reflexivity | split; [|auto]].
  destruct (c_running q1) as [[op' k]|] eqn:Er; [|discriminate].
  accepted. destruct o; cbn in *; try discriminate. subst. now apply Hrun.
Qed.

(** After a session is detached it starts no operation, accepts no message
    and makes no callback but the pending answers; the module sees at most one
    more call, the cancel for a dead client's running operation. *)
Theorem detached_session_is_silent user ls y mayCancel t1 t2 :
  Forall label_ok ls -> Z.of_nat (length ls) <= UINT64_MAX ->
  run d ls (new_sys user) = Some y ->
  trace y = t1 ++ EDetach mayCancel :: t2 ->
  forallb silent t2 = true /\ (length (module_calls t2) <= if mayCancel then 1 else 0)%nat.
Proof.
  intros Hl Hn Hr Et.
  destruct (inv_run d user ls 0 _ _ Hl Hn (inv_start user) Hr) as (q & E & _).
  rewrite Et in E. destruct (accepts_split _ _ _ _ _ E) as (q1 & q2 & _ & E2 & E3).
  cbn in E2. destruct (c_closed q1); [discriminate|]. simplify_eq.
  refine (accepts_closed t2 _ q _ E3). reflexivity.
Qed.

(** A context update releases a held match exactly when the operation still
    runs, the screen gate is open under the new context and the match is at most
    [kHeldMatchWindow] old; it then ends the operation and stops the sensor. In
    every other case it calls nothing. *)
Theorem context_releases_held_match now c s s' o :
  onContextChanged now c s = (tt, s', o) -> mOp s <> 0 ->
  let s1 := (updateContextLocked c s).1.2 in
  let release := negb (mDetached s) && negb (mOpEnded s) && mHeldMatch s &&
                 negb (screenGatedLocked s1) && (now - mHeldAt s <=? kHeldMatchWindow) in
  o = (if release
       then [ECb (mOp s) false (onAuthenticationSucceeded (mHeldEnrollmentId s) (mHeldHat s));
             ESpawn (TStopSensor (mOp s))]
       else []) /\
  mOpEnded s' = mOpEnded s || release /\
  (mHeldMatch s' = true -> mHeldMatch s = true /\
     (mDetached s || mOpEnded s || screenGatedLocked s1 = true)).
Proof.
  intros E Ho. cbv zeta.
  unfold onContextChanged, updateContextLocked, mbind, sm_bind, get, put in *. cbn [fst snd] in *.
  set (s1 := with_context _ _ s) in *.
  assert (mDetached s1 = mDetached s /\ mOpEnded s1 = mOpEnded s /\ mHeldMatch s1 = mHeldMatch s /\
    mHeldAt s1 = mHeldAt s /\ mOp s1 = mOp s /\ mHeldEnrollmentId s1 = mHeldEnrollmentId s /\
    mHeldHat s1 = mHeldHat s) as (E1 & E2 & E3 & E4 & E5 & E6 & E7) by auto 10.
  clearbody s1. rewrite E1, E2, E3, E4, E5, E6, E7 in E.
  replace (mOp s =? 0) with false in E by (symmetry; now apply Z.eqb_neq).
  destruct (mDetached s), (mOpEnded s) eqn:?, (mHeldMatch s) eqn:?, (screenGatedLocked s1) eqn:?;
    cbn in E |- *; simplify_eq; rewrite ?E2, ?E3; auto.
  unfold screenGatedLocked, runningKind in *.
  destruct (_ <=? _); cbn in E; unfold cb, endOperationLocked, mbind, sm_bind, get, put, emit in E; cbn in E; simplify_eq.
  - assert (screenGatedLocked (with_held false (mHeldEnrollmentId s) (mHeldHat s) (mHeldAt s) s1)
      = false) as Hg by assumption.
    rewrite Hg, E5. split; [reflexivity | split; [reflexivity | discriminate]].
  - auto.
Qed.

End Claims.

Section RemovalClaim.
Context {H : LegacyHeader}.
Variable d : device.

(** removeEnrollments calls the module once for every nonzero id in order,
    whatever each call returns, and then reports exactly the removals the module
    announced, in order, as the operation's one result, and frees the module. *)
Theorem remove_reports_removed l y :
  holder y = None -> mDetached (ses y) = false -> ids_left (ses y) ->
  Forall (fun r => is_i32 (rm_id r)) l ->
  exists y' t,
    run d (LRemove (rm_id <$> l) :: flat_map module_removes l ++ [LReturn 0 0]) y = Some y' /\
    trace y' = trace y ++ EBegin (mNextOp (ses y) + 1) kRemove :: t /\
    module_calls t = (fun r => DevRemove (mUserId (ses y)) (rm_id r)) <$> nonzero l /\
    callbacks t = [onEnrollmentsRemoved (removed_ids l)] /\
    holder y' = None /\ mOpEnded (ses y') = true.
Proof.
  intros Hh Hd Hids Hl. unfold ids_left in Hids.
  set (op := mNextOp (ses y) + 1).
  set (y1 := mkSys (with_op op kRemove (ses y)) (holder y) (tasks y) (trace y ++ [EBegin op kRemove])).
  destruct (remove_loop d op l y1) as (y' & t & E & Et & Em & Ec & Hr); [|exact Hl|].
  { unfold removing. auto. }
  exists y', t. split.
  - cbn [run step]. unfold acquire. rewrite Hh. cbn [mbind option_bind]. rewrite <- E. f_equal.
    unfold locked, atomically, removeEnrollments, beginOperation, mbind, sm_bind, get, put, emit, mret, sm_ret.
    rewrite Hd, u64_small by range. fold op.
    replace (op =? 0) with false by (symmetry; apply Z.eqb_neq; lia). cbn [ses y1].
    destruct (remove_next op _ _) as [[r s2] o2]. unfold set_holder. cbn.
    now rewrite <- app_assoc.
  - rewrite Et. cbn. rewrite <- app_assoc. auto.
Qed.

End RemovalClaim.

(** *** Witnesses *)

(** A client closes the session while the answer to its challenge is on the way. *)
Definition late_labels : list label := [LGenerateChallenge; LReturn 0 9; LClose; LTask 1; LTask 0].

Lemma session_refines_contract_witness :
  is_Some (accepts (c_init 10) (trace example_end)) /\
  exists y, run full_device late_labels (new_sys 10) = Some y /\
    callbacks (drop 5 (trace y)) = [onChallengeGenerated 9] /\
    callbacks (drop 5 (trace y)) ⊆+ answers_of (spawned (take 4 (trace y))).
Proof.
  split.
  - apply (session_refines_contract full_device 10 example_labels example_end).
    + exact example_labels_ok.
    + vm_compute; discriminate.
    + vm_compute; reflexivity.
  - eexists. split; [vm_compute; reflexivity|]. split; [vm_compute; reflexivity|].
    refine (proj2 (session_refines_contract full_device 10 late_labels _ _ _ _) false _ _ _).
    + repeat constructor.
    + vm_compute; discriminate.
    + vm_compute; reflexivity.
    + vm_compute; reflexivity.
Defined.

Lemma one_result_per_operation_witness :
  ECb 1 false onLockoutCleared ∈ drop 7 (trace example_end) /\
  unrelated onLockoutCleared || unlocked_answer onLockoutCleared = true.
Proof.
  assert (ECb 1 false onLockoutCleared ∈ drop 7 (trace example_end)) as Hin
    by (vm_compute; do 2 right; left).
  split; [exact Hin|].
  apply (one_result_per_operation full_device 10 example_labels example_end 1 kAuthenticate false
    (onAuthenticationSucceeded 3 (fromLegacy example_token)) (take 6 (trace example_end))
    (drop 7 (trace example_end)) false onLockoutCleared).
  - exact example_labels_ok.
  - vm_compute; discriminate.
  - vm_compute; reflexivity.
  - vm_compute; reflexivity.
  - vm_compute; right; left.
  - reflexivity.
  - exact Hin.
Defined.

Lemma unlock_is_genuine_witness :
  EBegin 1 kAuthenticate ∈ take 6 (trace example_end) /\
  reported 10 1 3 (fromLegacy example_token) (take 6 (trace example_end)).
Proof.
  apply (unlock_is_genuine full_device 10 example_labels example_end 1 false 3
    (fromLegacy example_token) (take 6 (trace example_end)) (drop 7 (trace example_end))).
  - exact example_labels_ok.
  - vm_compute; discriminate.
  - vm_compute; reflexivity.
  - vm_compute; reflexivity.
Defined.

Lemma detached_session_is_silent_witness :
  module_calls (drop 17 (trace example_end)) = [DevCancel 2] /\
  forallb silent (drop 17 (trace example_end)) = true.
Proof.
  split; [vm_compute; reflexivity|].
  apply (detached_session_is_silent full_device 10 example_labels example_end true
    (take 16 (trace example_end)) (drop 17 (trace example_end))).
  - exact example_labels_ok.
  - vm_compute; discriminate.
  - vm_compute; reflexivity.
  - vm_compute; reflexivity.
Defined.

(** The session of the example after the match was held. *)
Definition held_session : session :=
  ses (default (new_sys 10) (run full_device (take 7 example_labels) (new_sys 10))).
Definition screen_on : OperationContext := mkContext OtherDisplay None.

Lemma context_releases_held_match_witness :
  mHeldMatch held_session = true /\
  (onContextChanged 5000 screen_on held_session).2 =
    [ECb 1 false (onAuthenticationSucceeded 3 (fromLegacy example_token)); ESpawn (TStopSensor 1)].
Proof.
  split; [vm_compute; reflexivity|].
  destruct (context_releases_held_match 5000 screen_on held_session
    (onContextChanged 5000 screen_on held_session).1.2
    (onContextChanged 5000 screen_on held_session).2) as [E _].
  - vm_compute; reflexivity.
  - vm_compute; discriminate.
  - rewrite E. vm_compute; reflexivity.
Defined.

Lemma remove_reports_removed_witness :
  exists y' t,
    trace y' = EBegin 1 kRemove :: t /\
    module_calls t = [DevRemove 10 4; DevRemove 10 6] /\
    callbacks t = [onEnrollmentsRemoved [4]].
Proof.
  destruct (remove_reports_removed full_device
    [mkRemoval 4 true 0; mkRemoval 0 true 0; mkRemoval 6 false (-5)] (new_sys 10))
    as (y' & t & _ & Et & Em & Ec & _).
  - reflexivity.
  - reflexivity.
  - vm_compute. split; [discriminate | reflexivity].
  - repeat constructor; vm_compute; discriminate.
  - exists y', t. split; [exact Et | split; [rewrite Em | rewrite Ec]; vm_compute; reflexivity].
Defined.

(** Session.h says of [detach] that it stops callbacks; an answer that is
    made after [moduleMutex] was released can still follow it. *)
Theorem answer_after_detach :
  exists y, run full_device [LGenerateChallenge; LReturn 0 9; LClose; LTask 1; LTask 0] (new_sys 10)
      = Some y /\
    trace y = [EDev DevPreEnroll; ESpawn (TDeliver (onChallengeGenerated 9));
               ECb 0 false onSessionClosed; ESpawn (TDetach false); EDetach false; EOnDetach;
               ECb 0 false (onChallengeGenerated 9)].
Proof. eexists. split; vm_compute; reflexivity. Qed.
