(* ===== verification/FingerprintHal.v ===== *)
(** * The fingerprint service

    [fingerprint/Fingerprint.cpp], [Fingerprint.h], [PressToAuth.h],
    [ModuleFactoryService.cpp] and [main.cpp]: the service that opens the vendor's
    module, creates sessions and routes the module's messages.  A session is a
    [sys] of [Session]; the service keeps the list of the sessions made so far, the
    one its [mSession] points to, and what its threads have left to do.
    [moduleMutex] is one lock for all sessions.  Theorems: every session of the
    service is that of the user it was created for, gets just its own steps and the
    messages that came while it was current, and behaves as a session on its own does; a session the client holds is
    detached or the current one (or about to be detached), reading the
    press-to-auth parcelable never overflows or leaves the parcelable, and the
    module's factory service is never registered. *)

From S2P Require Import Prelude AuthToken Session.

(** ** Binder, which is not in the repository *)

Class Binder := {
  STATUS_OK : Z;
  STATUS_INVALID_OPERATION : Z;
  STATUS_BAD_VALUE : Z;
  (** [AParcel] and the calls of [PressToAuth] on it: status, value, new state *)
  AParcel : Type;
  AParcel_getDataPosition : AParcel -> Z;
  AParcel_readInt32 : AParcel -> Z * Z * AParcel;
  AParcel_readBool : AParcel -> Z * bool * AParcel;
  AParcel_setDataPosition : AParcel -> Z -> Z * AParcel;
}.

(** What the NDK documents: the codes differ, positions are [int32_t] and not
    negative, a read moves on, and setting a position that succeeds sets it. *)
Class BinderLaws (B : Binder) : Prop := {
  bad_value_not_ok : STATUS_BAD_VALUE <> STATUS_OK;
  position_range : forall p, 0 <= AParcel_getDataPosition p <= INT32_MAX;
  readInt32_range : forall p v p', AParcel_readInt32 p = (STATUS_OK, v, p') -> is_i32 v;
  readInt32_moves : forall p st v p', AParcel_readInt32 p = (st, v, p') ->
    AParcel_getDataPosition p <= AParcel_getDataPosition p';
  set_position : forall p z p', AParcel_setDataPosition p z = (STATUS_OK, p') ->
    AParcel_getDataPosition p' = z;
}.

(** ** [PressToAuth.h] *)

Section PressToAuth.
Context `{Binder}.

(** [readFromParcel]: the status, [pressToAuthEnabled] (false before) and the parcel;
    signed arithmetic in [int32_t]. *)
Definition readFromParcel (parcel : AParcel) : ub (Z * bool * AParcel) :=
  let start := AParcel_getDataPosition parcel in
  let '(status, size, parcel) := AParcel_readInt32 parcel in
  if negb (status =? STATUS_OK) then Ret (status, false, parcel)
  else if size <? 4 then Ret (STATUS_BAD_VALUE, false, parcel)
  else
    room ← chk32 (INT32_MAX - size);
    if room <? start then Ret (STATUS_BAD_VALUE, false, parcel)
    else
      read ← chk32 (AParcel_getDataPosition parcel - start);
      let '(status, enabled, parcel) :=
        if read <? size then AParcel_readBool parcel else (STATUS_OK, false, parcel) in
      if negb (status =? STATUS_OK) then Ret (status, enabled, parcel)
      else
        end_ ← chk32 (start + size);
        let '(status, parcel) := AParcel_setDataPosition parcel end_ in
        Ret (status, enabled, parcel).

Definition writeToParcel : Z := STATUS_INVALID_OPERATION.
End PressToAuth.

(** ** [ModuleFactoryService.cpp] and the interposed registration of [main.cpp] *)

Definition kModuleFactoryService : string := "FocalFingerprintService".

(** [addServiceUnlessModuleFactory]: [None] is a null [instance]. *)
Definition addServiceUnlessModuleFactory {B R} (EX_NONE : R) (addService : B -> option string -> R)
    (binder : B) (instance : option string) : R :=
  if bool_decide (instance = Some kModuleFactoryService) then EX_NONE
  else addService binder instance.

(** [AServiceManager_addService] of this process: [next] is libbinder_ndk's
    function, [None] when [dlsym] does not find it, which aborts. *)
Definition AServiceManager_addService {B R} (EX_NONE : R)
    (next : option (B -> option string -> R)) (binder : B) (instance : option string) : option R :=
  match next with
  | None => None
  | Some next => Some (addServiceUnlessModuleFactory EX_NONE next binder instance)
  end.

(** ** Opening the module *)

(** Answers of [hw_get_module], [open] and [set_notify]. *)
Record module_answers := {
  get_module_err : Z;
  has_open : bool;
  open_err : Z;
  open_device : option Z;      (* the device's version, [None] for no device *)
  set_notify_err : Z;
}.

(** [create]: whether there is a service (and [sInstance] points to it).
    [kModuleVersion] is version 2.1 as Android's headers encode it. *)
Definition create (kModuleVersion : Z) (a : module_answers) : bool :=
  if negb (get_module_err a =? 0) then false
  else if negb (has_open a) || negb (open_err a =? 0) then false
  else match open_device a with
       | None => false
       | Some version =>
           if negb (version =? kModuleVersion) then false
           else if negb (set_notify_err a =? 0) then false
           else true
       end.

(** [main] up to the thread pool: [false] is an abort.  The service is registered
    under [instance] through [AServiceManager_addService]. *)
Definition main (kModuleVersion : Z) (a : module_answers) (next : option (unit -> option string -> Z))
    (STATUS_OK_ : Z) (instance : string) : bool :=
  if create kModuleVersion a then
    match AServiceManager_addService STATUS_OK_ next tt (Some instance) with
    | Some status => status =? STATUS_OK_
    | None => false
    end
  else false.

(** ** [getSensorProps] *)

Definition kSensorId : Z := 5.
Definition kMaxEnrollmentsPerUser : Z := 5.
Definition kSensorLocationX : Z := 1116.
Definition kSensorLocationY : Z := 1100.
Definition kSensorRadius : Z := 100.

Inductive SensorStrength := CONVENIENCE | WEAK | STRONG.
Inductive FingerprintSensorType := OtherSensorType | POWER_BUTTON.

Record SensorProps := {
  sensorId : Z;
  sensorStrength : SensorStrength;
  maxEnrollmentsPerUser : Z;
  sensorType : FingerprintSensorType;
  sensorLocations : list (Z * Z * Z);
  supportsNavigationGestures : bool;
  supportsDetectInteraction : bool;
  halHandlesDisplayTouches : bool;
  halControlsIllumination : bool;
}.

Definition getSensorProps : list SensorProps :=
  [ {| sensorId := kSensorId; sensorStrength := STRONG;
       maxEnrollmentsPerUser := kMaxEnrollmentsPerUser; sensorType := POWER_BUTTON;
       sensorLocations := [(kSensorLocationX, kSensorLocationY, kSensorRadius)];
       supportsNavigationGestures := false; supportsDetectInteraction := true;
       halHandlesDisplayTouches := false; halControlsIllumination := false |} ].

(** ** Sessions *)

(** What a thread of the service has left to do.  The first four are
    [createSession] for the session [i]; a session is its position in the list. *)
Inductive hal_thread :=
| TGroup (i : nat) (userId : Z)          (* before [moduleLock] *)
| TInGroup (i : nat)                     (* in [set_active_group], with the lock *)
| TExchange (i : nat)                    (* before [mSessionMutex] *)
| TDetachPrevious (i previous : nat)     (* before [previous->detach(false)] *)
| TOnDetach (i : nat)                    (* before the lock of [mOnDetach] *)
| TNotify (i : nat) (m : message).       (* [notify], with the session it read *)

Inductive session_result :=
| CreateIllegalArgument
| CreateStatus (status : Z)
| CreateServiceSpecific (err : Z)
| CreateOk (i : nat).

(** Calls outside the process. *)
Inductive hal_call :=
| CallMkdir (path : string)
| CallSetActiveGroup (userId : Z) (path : string)
| CallReturn (r : session_result).

Record fp_hal := FpHal {
  h_sessions : list sys;
  mSession : option nat;
  h_threads : list hal_thread;
  h_out : list nat;              (* the sessions clients were given *)
  h_calls : list hal_call;
}.

Definition hal_init : fp_hal := FpHal [] None [] [] [].

(** [StringPrintf("/data/vendor_de/%d/fpdata", userId)] *)
Definition fpdata_path (userId : Z) : string :=
  "/data/vendor_de/" +:+ to_string userId +:+ "/fpdata".

Section Service.
Context `{LegacyHeader} `{Binder} (d : device).

(** [watchClient]: local callbacks cannot die separately. *)
Definition watchClient (link_status : Z) : Z :=
  if link_status =? STATUS_INVALID_OPERATION then STATUS_OK else link_status.

(** [createSession] up to [moduleLock]. *)
Definition createSession (sensor userId : Z) (cb_null : bool) (link_status : Z) (h : fp_hal)
  : fp_hal :=
  if negb (sensor =? kSensorId) || cb_null then
    FpHal (h_sessions h) (mSession h) (h_threads h) (h_out h)
      (h_calls h ++ [CallReturn CreateIllegalArgument])
  else if negb (watchClient link_status =? STATUS_OK) then
    FpHal (h_sessions h) (mSession h) (h_threads h) (h_out h)
      (h_calls h ++ [CallReturn (CreateStatus (watchClient link_status))])
  else
    FpHal (h_sessions h ++ [new_sys userId]) (mSession h)
      (h_threads h ++ [TGroup (length (h_sessions h)) userId]) (h_out h)
      (h_calls h ++ [CallMkdir (fpdata_path userId)]).

(** [moduleMutex] is free. *)
Definition module_free (h : fp_hal) : bool :=
  forallb (fun y => bool_decide (holder y = None)) (h_sessions h) &&
  forallb (fun t => match t with TInGroup _ => false | _ => true end) (h_threads h).

(** A step of session [i] and the thread its [mOnDetach] needs. *)
Definition session_step (i : nat) (l : label) (h : fp_hal) : option fp_hal :=
  y ← h_sessions h !! i;
  y' ← step d l y;
  let called := drop (length (trace y)) (trace y') in
  Some (FpHal (<[i := y']> (h_sessions h)) (mSession h)
          (h_threads h ++ (if existsb (fun e => match e with EOnDetach => true | _ => false end) called
                           then [TOnDetach i] else []))
          (h_out h) (h_calls h)).

(** Whether a step of a session has to get [moduleMutex]. *)
Definition needs_module (l : label) (y : sys) : bool :=
  match l with
  | LMessage _ _ | LContext _ _ | LAuthenticateWithContext _ _ | LClose | LReturn _ _ => false
  | LTask i => match tasks y !! i with Some (TDeliver _) => false | _ => true end
  | _ => true
  end.

(** The steps a session takes on its own: waiting threads, the holder of the lock and
    a dead client always; the requests of its client once it has the session. *)
Definition own_step (h : fp_hal) (i : nat) (l : label) : bool :=
  match l with
  | LMessage _ _ | LDetach false => false
  | LTask _ | LReturn _ _ | LDetach true => true
  | _ => bool_decide (i ∈ h_out h)
  end.

Definition with_threads (h : fp_hal) (ts : list hal_thread) : fp_hal :=
  FpHal (h_sessions h) (mSession h) ts (h_out h) (h_calls h).
Definition with_call (h : fp_hal) (c : hal_call) : fp_hal :=
  FpHal (h_sessions h) (mSession h) (h_threads h) (h_out h) (h_calls h ++ [c]).
(** [*out = session] *)
Definition with_out (h : fp_hal) (i : nat) : fp_hal :=
  FpHal (h_sessions h) (mSession h) (h_threads h) (h_out h ++ [i])
    (h_calls h ++ [CallReturn (CreateOk i)]).

(** The exchange of [mSession], and what follows it. *)
Definition exchange_session (k i : nat) (h : fp_hal) : fp_hal :=
  let h' := FpHal (h_sessions h) (Some i) (h_threads h) (h_out h) (h_calls h) in
  match mSession h with
  | Some p => with_threads h' (<[k := TDetachPrevious i p]> (h_threads h))
  | None => with_out (with_threads h' (delete k (h_threads h))) i
  end.

(** The callback [mOnDetach] of session [i]. *)
Definition on_detach (i : nat) (h : fp_hal) : fp_hal :=
  FpHal (h_sessions h) (if bool_decide (mSession h = Some i) then None else mSession h)
    (h_threads h) (h_out h) (h_calls h).

(** Thread [k] goes on; [err] is what the module returned, [now] the time. *)
Definition thread_step (k : nat) (err now : Z) (h : fp_hal) : option fp_hal :=
  t ← h_threads h !! k;
  let gone := with_threads h (delete k (h_threads h)) in
  match t with
  | TGroup i userId =>
      if module_free h
      then Some (with_call (with_threads h (<[k := TInGroup i]> (h_threads h)))
                   (CallSetActiveGroup userId (fpdata_path userId)))
      else None
  | TInGroup i =>
      if negb (err =? 0) then Some (with_call gone (CallReturn (CreateServiceSpecific err)))
      else Some (with_threads h (<[k := TExchange i]> (h_threads h)))
  | TExchange i => Some (exchange_session k i h)
  | TDetachPrevious i p =>
      if module_free h
      then h' ← session_step p (LDetach false) gone; Some (with_out h' i)
      else None
  | TOnDetach i => Some (on_detach i gone)
  | TNotify i m => session_step i (LMessage now m) gone
  end.

(** [notify]: [None] is a null message. *)
Definition notify (msg : option message) (h : fp_hal) : fp_hal :=
  match msg, mSession h with
  | Some m, Some i => with_threads h (h_threads h ++ [TNotify i m])
  | _, _ => h
  end.

Inductive hal_label :=
| HCreateSession (sensor userId : Z) (cb_null : bool) (link_status : Z)
| HThread (k : nat) (err now : Z)
| HNotify (msg : option message)
| HSession (i : nat) (l : label).

Definition hal_step (l : hal_label) (h : fp_hal) : option fp_hal :=
  match l with
  | HCreateSession sensor userId cb_null st => Some (createSession sensor userId cb_null st h)
  | HThread k err now => thread_step k err now h
  | HNotify msg => Some (notify msg h)
  | HSession i l =>
      y ← h_sessions h !! i;
      if own_step h i l && (negb (needs_module l y) || module_free h)
      then session_step i l h else None
  end.

Fixpoint hal_run (ls : list hal_label) (h : fp_hal) : option fp_hal :=
  match ls with
  | [] => Some h
  | l :: ls => h' ← hal_step l h; hal_run ls h'
  end.

End Service.

(** ** Detaching, in the trace of a session *)

Lemma contract_closed q e q' :
  contract q e = Some q' ->
  c_closed q' = true <-> c_closed q = true \/ exists b, e = EDetach b.
Proof.
  intros E. destruct e as [op k|op g c|c|op m|b| |[| | | |c]]; cbn in E;
    unfold contract_cb, contract_dev in E; accepted;
    (split; [|intros [?|(? & ?)]]); try congruence; try discriminate; eauto.
Qed.

Lemma accepts_closed_iff t q q' :
  accepts q t = Some q' ->
  c_closed q' = true <-> c_closed q = true \/ exists b, EDetach b ∈ t.
Proof.
  revert q. induction t as [|e t IH]; intros q; cbn [accepts].
  - intros [= <-]. split; [auto|]. intros [|(b & Hb)]; [assumption | now apply elem_of_nil in Hb].
  - destruct (contract q e) as [q1|] eqn:Ec; [|discriminate]. cbn. intros E.
    rewrite (IH _ E), (contract_closed _ _ _ Ec). split.
    + intros [[|(b & ->)]|(b & Hb)]; [auto | right; exists b; set_solver | right; exists b; set_solver].
    + intros [|(b & Hb)]; [auto|]. apply elem_of_cons in Hb as [<-|]; eauto.
Qed.

Lemma accepts_ondetach t q q' :
  accepts q t = Some q' -> EOnDetach ∈ t -> exists b, c_closed q = true \/ EDetach b ∈ t.
Proof.
  revert q. induction t as [|e t IH]; intros q; cbn [accepts]; [intros _ Hx; now apply elem_of_nil in Hx|].
  destruct (contract q e) as [q1|] eqn:Ec; [|discriminate]. cbn. intros E Hin.
  apply elem_of_cons in Hin as [<-|Hin].
  - cbn in Ec. exists true. left. now destruct (c_closed q).
  - destruct (IH _ E Hin) as (b & [Hc|Hb]); [|exists b; set_solver].
    apply (contract_closed _ _ _ Ec) in Hc as [|(b' & ->)]; [exists b; auto | exists b'; set_solver].
Qed.

Section Composition.
Context `{LegacyHeader} `{Binder} (d : device).

Lemma step_trace l y y' : step d l y = Some y' -> exists o, trace y' = trace y ++ o.
Proof.
  assert (forall A (m : sm A) z, exists o, trace (atomically m z).2 = trace z ++ o) as Ha.
  { intros A m z. unfold atomically. destruct (m (ses z)) as [[a s] o]. now exists o. }
  assert (forall m z, exists o, trace (locked m z) = trace z ++ o) as Hl.
  { intros m z. unfold locked. pose proof (Ha _ m z) as Hm.
    destruct (atomically m z) as [r z1]. exact Hm. }
  assert (forall m z z', acquire m z = Some z' -> exists o, trace z' = trace z ++ o) as Hq.
  { intros m z z'. unfold acquire. destruct (holder z); [discriminate|]. intros [= <-]. apply Hl. }
  assert (forall A (m : sm A) z z', Some (atomically m z).2 = Some z' -> exists o, trace z' = trace z ++ o)
    as Hs by (intros A m z z' E; apply Some_inj in E as <-; apply Ha).
  destruct l as [now m|now c|i c| |died|i|err value| |ch| |hat|i| | |ids| |hat|op]; cbn [step];
    try (apply Hq); try (apply Hs).
  - destruct (tasks y !! i) as [t|]; [|discriminate].
    destruct t; intros E; first [now apply Hq in E | now apply Hs in E].
  - destruct (holder y); [|discriminate]. intros [= <-]. apply Hl.
Qed.

Lemma run_snoc ls l y y1 y2 :
  run d ls y = Some y1 -> step d l y1 = Some y2 -> run d (ls ++ [l]) y = Some y2.
Proof.
  revert y. induction ls as [|l' ls IH]; intros y; cbn [run app].
  - intros [= <-] E. now rewrite E.
  - destruct (step d l' y) as [y'|]; [|discriminate]. cbn. apply IH.
Qed.

(** A session that was made for a user and took [n] steps at most. *)
Definition session_run (n : nat) (y : sys) : Prop :=
  exists user ls, Forall label_ok ls /\ (length ls <= n)%nat /\ run d ls (new_sys user) = Some y.

Lemma session_run_step n l y y' :
  session_run n y -> label_ok l -> step d l y = Some y' -> session_run (S n) y'.
Proof.
  intros (user & ls & Hok & Hn & Hr) Hl Hs. exists user, (ls ++ [l]). split; [|split].
  - apply Forall_app. auto.
  - rewrite length_app. cbn. lia.
  - eapply run_snoc; eauto.
Qed.

Lemma session_run_more n m y : (n <= m)%nat -> session_run n y -> session_run m y.
Proof. intros Hnm (user & ls & Hok & Hn & Hr). exists user, ls. auto with lia. Qed.

(** Whether a session is detached is in its trace. *)
Lemma session_run_closed n y :
  Z.of_nat n <= UINT64_MAX -> session_run n y ->
  (mDetached (ses y) = true <-> exists b, EDetach b ∈ trace y) /\
  (EOnDetach ∈ trace y -> exists b, EDetach b ∈ trace y).
Proof.
  intros Hmax (user & ls & Hok & Hn & Hr).
  destruct (inv_run d user ls 0 _ _ Hok ltac:(lia) (inv_start user) Hr) as (q & Ea & R & _).
  pose proof (accepts_closed_iff _ _ _ Ea) as Hc. rewrite (rel_closed _ _ R) in Hc. cbn in Hc.
  split; [rewrite Hc; split; [intros [|]; [discriminate | assumption] | auto]|].
  intros Hin. destruct (accepts_ondetach _ _ _ Ea Hin) as (b & [Hx|Hb]); [discriminate | eauto].
Qed.

(** ** The invariant of the service *)

Definition detached_in (h : fp_hal) (i : nat) : Prop :=
  exists y b, h_sessions h !! i = Some y /\ EDetach b ∈ trace y.

(** A session that got into [mSession] is still there, is about to be detached or is. *)
Definition covered (h : fp_hal) (i : nat) : Prop :=
  mSession h = Some i \/ (exists j, TDetachPrevious j i ∈ h_threads h) \/ detached_in h i.

Definition installed (h : fp_hal) (i : nat) : Prop :=
  i ∈ h_out h \/ exists p, TDetachPrevious i p ∈ h_threads h.

Definition thread_ok (h : fp_hal) (t : hal_thread) : Prop :=
  match t with
  | TNotify _ m => msg_ok m
  | TOnDetach i => exists y, h_sessions h !! i = Some y /\ EOnDetach ∈ trace y
  | _ => True
  end.

Definition hal_inv (n : nat) (h : fp_hal) : Prop :=
  (forall i y, h_sessions h !! i = Some y -> session_run n y) /\
  (forall t, t ∈ h_threads h -> thread_ok h t) /\
  (forall i, installed h i -> covered h i).

(** Sessions only grow in number, and their traces only grow. *)
Definition grows (h h' : fp_hal) : Prop :=
  forall i y, h_sessions h !! i = Some y ->
    exists y' o, h_sessions h' !! i = Some y' /\ trace y' = trace y ++ o.

Lemma grows_thread h h' t : grows h h' -> thread_ok h t -> thread_ok h' t.
Proof.
  intros Hg. destruct t; cbn; auto. intros (y & Hy & He).
  destruct (Hg _ _ Hy) as (y' & o & Hy' & Ey). exists y'. rewrite Ey. set_solver.
Qed.

Lemma grows_detached h h' i : grows h h' -> detached_in h i -> detached_in h' i.
Proof.
  intros Hg (y & b & Hy & He). destruct (Hg _ _ Hy) as (y' & o & Hy' & Ey).
  exists y', b. split; [exact Hy'|]. rewrite Ey. set_solver.
Qed.

Lemma grows_same h h' : h_sessions h' = h_sessions h -> grows h h'.
Proof. intros E i y Hy. exists y, []. rewrite E, app_nil_r. auto. Qed.

(** A session takes a step, in a service whose other state is that of [h0]. *)
Lemma session_step_spec i l h h' :
  session_step d i l h = Some h' -> exists y y' ts,
    h_sessions h !! i = Some y /\ step d l y = Some y' /\
    h_sessions h' = <[i := y']> (h_sessions h) /\
    mSession h' = mSession h /\ h_out h' = h_out h /\ h_threads h' = h_threads h ++ ts /\
    (forall t, t ∈ ts -> t = TOnDetach i /\ EOnDetach ∈ trace y').
Proof.
  unfold session_step. destruct (h_sessions h !! i) as [y|] eqn:Hy; [|discriminate]. cbn.
  destruct (step d l y) as [y'|] eqn:Hs; [|discriminate]. cbn. intros [= <-].
  exists y, y'. eexists. split; [reflexivity|]. split; [exact Hs|]. repeat (split; [reflexivity|]).
  intros t. destruct (existsb _ _) eqn:E; [|set_solver].
  intros Ht. apply list_elem_of_singleton in Ht. split; [exact Ht|].
  apply existsb_exists in E as (e & He & Hm). destruct e; try discriminate.
  apply list_elem_of_In in He. rewrite <- (take_drop (length (trace y)) (trace y')).
  set_solver.
Qed.

Lemma session_step_grows i l h h' : session_step d i l h = Some h' -> grows h h'.
Proof.
  intros E. apply session_step_spec in E as (y & y' & ts & Hy & Hs & Es & _).
  intros j z Hz. rewrite Es. destruct (decide (i = j)) as [<-|Hne].
  - rewrite list_lookup_insert_eq by (now apply lookup_lt_Some in Hy).
    apply step_trace in Hs as (o & Ho). exists y', o. split; [reflexivity | congruence].
  - rewrite list_lookup_insert_ne by assumption. exists z, []. rewrite app_nil_r. auto.
Qed.

Lemma session_step_inv n i l h h' :
  label_ok l -> hal_inv n h -> session_step d i l h = Some h' -> hal_inv (S n) h'.
Proof.
  intros Hl (H1 & H2 & H3) E. pose proof (session_step_grows _ _ _ _ E) as Hg.
  apply session_step_spec in E as (y & y' & ts & Hy & Hs & Es & Em & Eo & Et & Hts).
  split; [|split].
  - intros j z. rewrite Es. destruct (decide (i = j)) as [<-|Hne].
    + rewrite list_lookup_insert_eq by (now apply lookup_lt_Some in Hy). intros [= <-].
      eapply session_run_step; eauto.
    + rewrite list_lookup_insert_ne by assumption. intros Hz.
      eapply session_run_more; [|apply (H1 _ _ Hz)]. lia.
  - intros t. rewrite Et, elem_of_app. intros [Ht|Ht]; [eapply grows_thread; eauto|].
    destruct (Hts t Ht) as [-> He]. exists y'. rewrite Es.
    rewrite list_lookup_insert_eq by (now apply lookup_lt_Some in Hy). auto.
  - intros j Hj. assert (installed h j) as Hj'.
    { destruct Hj as [|(p & Hp)]; [left; congruence|]. rewrite Et in Hp.
      apply elem_of_app in Hp as [|Hp]; [right; eauto|]. now destruct (Hts _ Hp). }
    destruct (H3 j Hj') as [|[(k & Hk)|Hd]]; [left; congruence | |].
    + right; left. exists k. rewrite Et. set_solver.
    + right; right. eapply grows_detached; eauto.
Qed.

Lemma detach_step b y y' : step d (LDetach b) y = Some y' -> mDetached (ses y') = true.
Proof.
  cbn [step]. unfold acquire. destruct (holder y); [discriminate|]. intros [= <-].
  unfold locked, atomically, detach, mbind, sm_bind, get, put, emit, dev, mret, sm_ret.
  destruct (mDetached (ses y)) eqn:E; [now cbn|].
  destruct (b && negb (mOpEnded (ses y))); now cbn.
Qed.

Lemma delete_insert_same {A} (l : list A) k x : delete k (<[k := x]> l) = delete k l.
Proof. revert k. induction l as [|y l IH]; intros [|k]; cbn; [easy.. | now rewrite IH]. Qed.

(** Replacing or removing thread [k]. *)
Lemma thread_split (ts : list hal_thread) k t0 :
  ts !! k = Some t0 ->
  (forall t, t ∈ ts <-> t = t0 \/ t ∈ delete k ts) /\
  (forall t1 t, t ∈ <[k := t1]> ts <-> t = t1 \/ t ∈ delete k ts).
Proof.
  intros Hk. split.
  - intros t. rewrite (delete_Permutation ts k t0 Hk) at 1. apply elem_of_cons.
  - intros t1 t. assert (<[k := t1]> ts !! k = Some t1) as Hk1.
    { apply list_lookup_insert_eq. now apply lookup_lt_Some in Hk. }
    rewrite (delete_Permutation _ k t1 Hk1) at 1. rewrite elem_of_cons.
    now rewrite delete_insert_same.
Qed.

(** Threads come and go, but for those that are to detach a session. *)
Lemma hal_inv_threads n h h' :
  hal_inv n h -> h_sessions h' = h_sessions h -> mSession h' = mSession h -> h_out h' = h_out h ->
  (forall t, t ∈ h_threads h' -> t ∈ h_threads h \/
     (thread_ok h t /\ forall i p, t <> TDetachPrevious i p)) ->
  (forall i p, TDetachPrevious i p ∈ h_threads h -> TDetachPrevious i p ∈ h_threads h') ->
  hal_inv n h'.
Proof.
  intros (H1 & H2 & H3) Es Em Eo Hnew Hkeep. pose proof (grows_same h h' Es) as Hg.
  split; [|split].
  - intros i y. rewrite Es. apply H1.
  - intros t Ht. eapply grows_thread; [exact Hg|]. destruct (Hnew t Ht) as [|[? _]]; auto.
  - intros i Hi. assert (installed h i) as Hi'.
    { destruct Hi as [|(p & Hp)]; [left; congruence|].
      destruct (Hnew _ Hp) as [|[_ Hx]]; [right; eauto | now destruct (Hx i p)]. }
    destruct (H3 i Hi') as [|[(k & Hk)|Hd]]; [left; congruence | right; left; eauto |].
    right; right. eapply grows_detached; eauto.
Qed.

Lemma exchange_inv n k i h :
  h_threads h !! k = Some (TExchange i) -> hal_inv n h -> hal_inv (S n) (exchange_session k i h).
Proof.
  intros Hk (H1 & H2 & H3). destruct (thread_split _ _ _ Hk) as [Hall Hset].
  assert (grows h (exchange_session k i h)) as Hg
    by (apply grows_same; unfold exchange_session; now destruct (mSession h)).
  assert (forall j, detached_in h j -> detached_in (exchange_session k i h) j) as Hdet
    by (intros j; now apply grows_detached).
  unfold exchange_session in *. destruct (mSession h) as [p|] eqn:Ep; (split; [|split]); cbn in *.
  - intros j y Hy. eapply session_run_more; [|apply (H1 _ _ Hy)]. lia.
  - intros t Ht. apply Hset in Ht as [->|Ht]; [exact I|].
    eapply grows_thread; [exact Hg|]. apply H2, Hall. auto.
  - intros j Hj. destruct (decide (j = i)) as [->|Hne]; [now left|]. right.
    assert (installed h j) as Hj'.
    { destruct Hj as [|(q & Hq)]; [now left|]. cbn in Hq. apply Hset in Hq as [[= -> _]|Hq]; [easy|].
      right. exists q. apply Hall. auto. }
    destruct (H3 j Hj') as [Ec|[(q & Hq)|Hd]]; [| |right; now apply Hdet].
    + left. exists i. cbn. apply Hset. left. congruence.
    + left. exists q. cbn. apply Hset. right. apply Hall in Hq as [|]; [discriminate | assumption].
  - intros j y Hy. eapply session_run_more; [|apply (H1 _ _ Hy)]. lia.
  - intros t Ht. eapply grows_thread; [exact Hg|]. apply H2, Hall. auto.
  - intros j Hj. destruct (decide (j = i)) as [->|Hne]; [now left|]. right.
    assert (installed h j) as Hj'.
    { destruct Hj as [Hj|(q & Hq)]; cbn in *; [|right; exists q; apply Hall; auto].
      left. set_solver. }
    destruct (H3 j Hj') as [Ec|[(q & Hq)|Hd]]; [congruence | | right; now apply Hdet].
    left. exists q. cbn. apply Hall in Hq as [|]; [discriminate | assumption].
Qed.

Lemma on_detach_inv n k i h :
  Z.of_nat n <= UINT64_MAX -> h_threads h !! k = Some (TOnDetach i) -> hal_inv n h ->
  hal_inv (S n) (on_detach i (with_threads h (delete k (h_threads h)))).
Proof.
  intros Hmax Hk (H1 & H2 & H3). destruct (thread_split _ _ _ Hk) as [Hall _].
  set (h' := on_detach _ _). assert (grows h h') as Hg by now apply grows_same.
  split; [|split].
  - intros j y Hy. eapply session_run_more; [|apply (H1 _ _ Hy)]. lia.
  - intros t Ht. eapply grows_thread; [exact Hg|]. apply H2, Hall. auto.
  - intros j Hj. assert (installed h j) as Hj'.
    { destruct Hj as [|(q & Hq)]; [now left|]. right. exists q. apply Hall. auto. }
    destruct (H3 j Hj') as [Ec|[(q & Hq)|Hd]].
    + destruct (decide (i = j)) as [<-|Hne].
      * right; right. destruct (H2 (TOnDetach i)) as (y & Hy & He); [apply Hall; auto|].
        destruct (session_run_closed n y Hmax (H1 _ _ Hy)) as [_ Hc].
        destruct (Hc He) as (b & Hb). exists y, b. auto.
      * left. cbn. rewrite Ec, bool_decide_false by congruence. reflexivity.
    + right; left. exists q. cbn. apply Hall in Hq as [|]; [discriminate | assumption].
    + right; right. now apply (grows_detached h).
Qed.

Lemma detach_previous_inv n k i p h h' :
  Z.of_nat (S n) <= UINT64_MAX ->
  h_threads h !! k = Some (TDetachPrevious i p) -> hal_inv n h ->
  session_step d p (LDetach false) (with_threads h (delete k (h_threads h))) = Some h' ->
  hal_inv (S n) (with_out h' i).
Proof.
  intros Hmax Hk Hi E. destruct (thread_split _ _ _ Hk) as [Hall _].
  pose proof (session_step_spec _ _ _ _ E) as (y & y' & ts & Hy & Hs & Es & Em & Eo & Et & Hts).
  cbn in Hy, Es, Em, Eo, Et.
  (* the same step with the thread still there *)
  assert (exists h1, session_step d p (LDetach false) h = Some h1 /\ h_sessions h1 = h_sessions h' /\
    mSession h1 = mSession h' /\ h_out h1 = h_out h' /\
    (forall t, t ∈ h_threads h1 <-> t = TDetachPrevious i p \/ t ∈ h_threads h')) as
    (h1 & E1 & Es1 & Em1 & Eo1 & Et1).
  { unfold session_step in E |- *. cbn [with_threads h_sessions] in E. rewrite Hy in E |- *.
    cbn [mbind option_bind] in E |- *. rewrite Hs in E |- *. cbn in E |- *. injection E as <-. eexists; split; [reflexivity|]. cbn. repeat (split; [reflexivity|]).
    intros t. rewrite !elem_of_app, Hall. tauto. }
  pose proof (session_step_inv n p (LDetach false) h h1 I Hi E1) as (H1 & H2 & H3).
  assert (detached_in (with_out h' i) p) as Hd.
  { assert (h_sessions h' !! p = Some y') as Hp.
    { rewrite Es. apply list_lookup_insert_eq. now apply lookup_lt_Some in Hy. }
    destruct (session_run_closed (S n) y' Hmax (H1 p y' ltac:(now rewrite Es1))) as [[Hc _] _].
    destruct (Hc (detach_step _ _ _ Hs)) as (b & Hb). exists y', b. auto. }
  assert (grows h1 (with_out h' i)) as Hg by (apply grows_same; cbn; congruence).
  split; [|split].
  - intros j z Hz. apply (H1 j). cbn in Hz. congruence.
  - intros t Ht. eapply grows_thread; [exact Hg|]. apply H2, Et1. auto.
  - intros j Hj. assert (installed h1 j) as Hj'.
    { destruct Hj as [Hj|(q & Hq)]; cbn in *; [|right; exists q; apply Et1; auto].
      rewrite <- Eo1 in Hj. apply elem_of_app in Hj as [|Hj]; [now left|].
      apply list_elem_of_singleton in Hj as ->. right. exists p. apply Et1. auto. }
    destruct (H3 j Hj') as [Ec|[(q & Hq)|Hx]].
    + left. cbn. congruence.
    + apply Et1 in Hq as [[= -> ->]|Hq]; [right; right; exact Hd | right; left; now exists q].
    + right; right. now apply (grows_detached h1).
Qed.

Definition hal_label_ok (l : hal_label) : Prop :=
  match l with HNotify (Some m) => msg_ok m | _ => True end.

Lemma hal_inv_more n m h : (n <= m)%nat -> hal_inv n h -> hal_inv m h.
Proof.
  intros Hnm (H1 & H2 & H3). split; [|auto]. intros i y Hy.
  eapply session_run_more; [exact Hnm | eauto].
Qed.

Lemma thread_step_inv n k err now h h' :
  Z.of_nat (S n) <= UINT64_MAX -> hal_inv n h -> thread_step d k err now h = Some h' ->
  hal_inv (S n) h'.
Proof.
  intros Hmax Hi. unfold thread_step.
  destruct (h_threads h !! k) as [t|] eqn:Hk; [|discriminate]. cbn [mbind option_bind].
  destruct (thread_split _ _ _ Hk) as [Hall Hset].
  assert (forall t' c, (forall i p, t <> TDetachPrevious i p) -> thread_ok h t' ->
    (forall i p, t' <> TDetachPrevious i p) ->
    hal_inv (S n) (FpHal (h_sessions h) (mSession h) (<[k := t']> (h_threads h)) (h_out h) c)) as Hswap.
  { intros t' c Ht Hok Ht'. apply (hal_inv_more n); [lia|]. apply (hal_inv_threads n h); auto; cbn.
    - intros x Hx. apply Hset in Hx as [->|Hx]; [auto | left; apply Hall; auto].
    - intros i p Hp. apply Hset. right. apply Hall in Hp as [Hp|]; [now destruct (Ht i p) | assumption]. }
  assert ((forall i p, t <> TDetachPrevious i p) -> forall c,
    hal_inv n (FpHal (h_sessions h) (mSession h) (delete k (h_threads h)) (h_out h) c)) as Hgone.
  { intros Ht c. apply (hal_inv_threads n h); auto; cbn.
    - intros x Hx. left. apply Hall. auto.
    - intros i p Hp. apply Hall in Hp as [Hp|]; [now destruct (Ht i p) | assumption]. }
  destruct t as [i userId|i|i|i p|i|i m].
  - destruct (module_free h); [|discriminate]. intros [= <-]. now apply (Hswap (TInGroup i)).
  - destruct (negb (err =? 0)); intros [= <-]; [|now apply (Hswap (TExchange i))].
    apply (hal_inv_more n); [lia|]. now apply Hgone.
  - intros [= <-]. now apply exchange_inv.
  - destruct (module_free h); [|discriminate].
    destruct (session_step d p _ _) as [h1|] eqn:E; [|discriminate]. cbn. intros [= <-].
    eapply detach_previous_inv; eauto.
  - intros [= <-]. apply on_detach_inv; auto. lia.
  - intros E. refine (session_step_inv n i (LMessage now m) _ _ _ (Hgone _ _) E); [|easy].
    destruct Hi as (_ & H2 & _). apply (H2 (TNotify i m)). now apply list_elem_of_lookup_2 in Hk.
Qed.

Lemma createSession_inv n sensor userId cb_null st h :
  hal_inv n h -> hal_inv (S n) (createSession sensor userId cb_null st h).
Proof.
  intros Hi. pose proof Hi as (H1 & H2 & H3). unfold createSession.
  case_goal; [now apply (hal_inv_more n); [lia | exact Hi]|].
  case_goal; [now apply (hal_inv_more n); [lia | exact Hi]|].
  set (h' := FpHal _ _ _ _ _).
  assert (forall j y, h_sessions h !! j = Some y -> h_sessions h' !! j = Some y) as Hkeep.
  { intros j y Hy. cbn. rewrite lookup_app_l; [exact Hy | now apply lookup_lt_Some in Hy]. }
  assert (grows h h') as Hg by (intros j y Hy; exists y, []; rewrite app_nil_r; auto).
  split; [|split]; cbn.
  - intros j y Hy. apply lookup_app_Some in Hy as [Hy|[_ Hy]].
    + eapply session_run_more; [|apply (H1 _ _ Hy)]. lia.
    + apply list_lookup_singleton_Some in Hy as [_ <-]. exists userId, []. cbn. auto with lia.
  - intros t Ht. apply elem_of_app in Ht as [Ht|Ht]; [eapply grows_thread; eauto|].
    apply list_elem_of_singleton in Ht as ->. exact I.
  - intros j Hj. assert (installed h j) as Hj'.
    { destruct Hj as [|(p & Hp)]; [now left|]. right. exists p. cbn in Hp. set_solver. }
    destruct (H3 j Hj') as [|[(q & Hq)|Hd]]; [now left | right; left; exists q; cbn; set_solver |].
    right; right. eapply grows_detached; eauto.
Qed.

Lemma notify_inv n msg h :
  hal_label_ok (HNotify msg) -> hal_inv n h -> hal_inv (S n) (notify msg h).
Proof.
  intros Hm Hi. apply (hal_inv_more n); [lia|]. unfold notify.
  destruct msg as [m|]; [|exact Hi]. destruct (mSession h) as [i|] eqn:Ei; [|exact Hi].
  apply (hal_inv_threads n h); auto; cbn; [|set_solver].
  intros t Ht. apply elem_of_app in Ht as [|Ht]; [auto|].
  apply list_elem_of_singleton in Ht as ->. right. split; [exact Hm | easy].
Qed.

Lemma hal_step_inv n l h h' :
  hal_label_ok l -> Z.of_nat (S n) <= UINT64_MAX -> hal_inv n h -> hal_step d l h = Some h' ->
  hal_inv (S n) h'.
Proof.
  intros Hl Hmax Hi. destruct l as [sensor userId cb_null st|k err now|msg|i l]; cbn [hal_step].
  - intros [= <-]. now apply createSession_inv.
  - now apply thread_step_inv.
  - intros [= <-]. now apply notify_inv.
  - destruct (h_sessions h !! i) as [y|]; [|discriminate]. cbn.
    destruct (own_step h i l) eqn:Eo; [|discriminate].
    destruct (_ || _); [|discriminate]. cbn. apply session_step_inv; [|exact Hi].
    now destruct l.
Qed.

Lemma hal_run_inv ls n h h' :
  Forall hal_label_ok ls -> Z.of_nat (n + length ls) <= UINT64_MAX -> hal_inv n h ->
  hal_run d ls h = Some h' -> hal_inv (n + length ls) h'.
Proof.
  intros Hls. revert n h. induction Hls as [|l ls Hl Hls IH]; intros n h Hmax Hi; cbn [hal_run length].
  - intros [= <-]. now rewrite Nat.add_0_r.
  - destruct (hal_step d l h) as [h1|] eqn:E; [|discriminate]. cbn. cbn in Hmax.
    rewrite <- Nat.add_succ_comm in *. apply IH; [exact Hmax|]. eapply hal_step_inv; eauto. lia.
Qed.

Lemma hal_inv_init : hal_inv 0 hal_init.
Proof.
  split; [|split]; cbn; [easy | set_solver|]. intros i [Hi|(p & Hp)]; set_solver.
Qed.

(** ** What the service hands to each session *)

(** The user a call of [createSession] makes a session for. *)
Definition created_by (l : hal_label) : list Z :=
  match l with
  | HCreateSession sensor userId cb_null st =>
      if negb (sensor =? kSensorId) || cb_null || negb (watchClient st =? STATUS_OK) then [] else [userId]
  | _ => []
  end.
(** The steps the client of session [i], its waiting threads and the module take. *)
Definition own_by (i : nat) (l : hal_label) : list label :=
  match l with HSession j l' => if decide (j = i) then [l'] else [] | _ => [] end.
(** The message that the module reports while session [i] is the current one. *)
Definition routed_by (i : nat) (h : fp_hal) (l : hal_label) : list message :=
  match l with HNotify (Some m) => if decide (mSession h = Some i) then [m] else [] | _ => [] end.
Fixpoint routed (i : nat) (ls : list hal_label) (h : fp_hal) : list message :=
  match ls with
  | [] => []
  | l :: ls => routed_by i h l ++ default [] (routed i ls <$> hal_step d l h)
  end.

Definition messages_of (ls : list label) : list message :=
  omap (fun l => match l with LMessage _ m => Some m | _ => None end) ls.
(** The steps that are neither messages nor the [detach] by the next [createSession]. *)
Definition own_steps (ls : list label) : list label :=
  omap (fun l => match l with LMessage _ _ | LDetach false => None | _ => Some l end) ls.
(** The messages on the way to session [i]. *)
Definition waiting (i : nat) (ts : list hal_thread) : list message :=
  omap (fun t => match t with TNotify j m => if decide (j = i) then Some m else None | _ => None end) ts.

(** The users of the sessions, the messages routed to each and the steps taken in each. *)
Record ledger := Ledger { users : list Z; inbox : nat -> list message; taken : nat -> list label }.
Definition ledger_step (h : fp_hal) (l : hal_label) (G : ledger) : ledger :=
  Ledger (users G ++ created_by l) (fun i => inbox G i ++ routed_by i h l) (fun i => taken G i ++ own_by i l).

Definition grouped (U : list Z) (h : fp_hal) (i : nat) : Prop :=
  exists u, U !! i = Some u /\ CallSetActiveGroup u (fpdata_path u) ∈ h_calls h.
Definition group_ok (U : list Z) (h : fp_hal) (t : hal_thread) : Prop :=
  match t with
  | TGroup i u => U !! i = Some u
  | TInGroup i | TExchange i | TDetachPrevious i _ => grouped U h i
  | _ => True
  end.

(** Session [i] in state [y] has run as a session of its user, on its messages and its steps. *)
Definition ledger_run (n : nat) (G : ledger) (h : fp_hal) (i : nat) (y : sys) : Prop :=
  exists user ls, users G !! i = Some user /\ Forall label_ok ls /\ (length ls <= n)%nat /\
    run d ls (new_sys user) = Some y /\
    messages_of ls ++ waiting i (h_threads h) ⊆+ inbox G i /\ own_steps ls = taken G i.

Definition hands_out (n : nat) (G : ledger) (h : fp_hal) : Prop :=
  length (users G) = length (h_sessions h) /\
  (forall i y, h_sessions h !! i = Some y -> ledger_run n G h i y) /\
  (forall t, t ∈ h_threads h -> group_ok (users G) h t) /\
  (forall i, i ∈ h_out h -> grouped (users G) h i) /\
  (forall i, (length (h_sessions h) <= i)%nat -> taken G i = [] /\ waiting i (h_threads h) ⊆+ inbox G i).

Lemma grouped_more U U' h h' i :
  (forall c, c ∈ h_calls h -> c ∈ h_calls h') -> grouped U h i -> grouped (U ++ U') h' i.
Proof. intros Hc (u & Hu & Hin). exists u. split; [now apply lookup_app_l_Some | auto]. Qed.

Lemma group_ok_more U U' h h' t :
  (forall c, c ∈ h_calls h -> c ∈ h_calls h') -> group_ok U h t -> group_ok (U ++ U') h' t.
Proof. intros Hc. destruct t; cbn; auto; try (now apply grouped_more). apply lookup_app_l_Some. Qed.

(** A step that leaves the sessions as they are. *)
Lemma hands_out_same n G h h' l :
  hands_out n G h -> h_sessions h' = h_sessions h -> created_by l = [] -> (forall i, own_by i l = []) ->
  (forall c, c ∈ h_calls h -> c ∈ h_calls h') ->
  (forall i, waiting i (h_threads h') ⊆+ waiting i (h_threads h) ++ routed_by i h l) ->
  (forall t, t ∈ h_threads h' -> t ∈ h_threads h \/ group_ok (users G) h' t) ->
  (forall i, i ∈ h_out h' -> i ∈ h_out h \/ grouped (users G) h' i) ->
  hands_out (S n) (ledger_step h l G) h'.
Proof.
  intros (Hlen & Hrun & Hthr & Hout & Hnone) Es Ec Eo Hcalls Hw Ht Hi.
  assert (Hnil : forall X : list Z, X ++ [] = X) by apply app_nil_r.
  split; [|split; [|split; [|split]]]; cbn.
  - rewrite Ec, Hnil, Es. exact Hlen.
  - intros i y Hy. rewrite Es in Hy. destruct (Hrun i y Hy) as (u & ls & Hu & Hok & Hn & Hr & Hm & Hs).
    exists u, ls. cbn. rewrite Ec, Hnil, Eo, app_nil_r. split_and!; auto.
    etrans; [apply submseteq_skips_l, Hw|]. rewrite app_assoc. now apply submseteq_skips_r.
  - intros t Hin. rewrite Ec. destruct (Ht t Hin) as [Hin'|Hg]; [apply (group_ok_more _ _ h); auto|].
    now rewrite Hnil.
  - intros i Hin. rewrite Ec. destruct (Hi i Hin) as [Hin'|Hg]; [apply (grouped_more _ _ h); auto|].
    now rewrite Hnil.
  - intros i Hlt. rewrite Es in Hlt. destruct (Hnone i Hlt) as [Ht0 Hw0]. rewrite Eo, app_nil_r. split; [done|].
    etrans; [apply Hw|]. now apply submseteq_skips_r.
Qed.

Lemma session_step_calls i l h h' : session_step d i l h = Some h' -> h_calls h' = h_calls h.
Proof.
  unfold session_step. destruct (h_sessions h !! i) as [y|]; [|discriminate]. cbn.
  destruct (step d l y); [|discriminate]. cbn. now intros [= <-].
Qed.

Lemma waiting_app i ts ts' : waiting i (ts ++ ts') = waiting i ts ++ waiting i ts'.
Proof. apply omap_app. Qed.
Lemma waiting_delete i ts k t : ts !! k = Some t -> waiting i ts ≡ₚ waiting i [t] ++ waiting i (delete k ts).
Proof. intros Hk. rewrite <- waiting_app. apply omap_Permutation. now apply delete_Permutation. Qed.
Lemma waiting_insert i ts k t t' :
  ts !! k = Some t -> waiting i (<[k := t']> ts) ≡ₚ waiting i [t'] ++ waiting i (delete k ts).
Proof.
  intros Hk. rewrite (waiting_delete i (<[k := t']> ts) k t'), delete_insert_same; [done|].
  apply list_lookup_insert_eq. now apply lookup_lt_Some in Hk.
Qed.

(** A step of session [i] on label [l], in a service with the threads [ts]. *)
Lemma hands_out_step n G h hl l i ts h' :
  hands_out n G h -> label_ok l -> session_step d i l (with_threads h ts) = Some h' ->
  (forall t, t ∈ ts -> t ∈ h_threads h) ->
  created_by hl = [] -> (forall j, routed_by j h hl = []) ->
  (forall j, own_by j hl = if decide (j = i) then own_steps [l] else []) ->
  (forall j, (if decide (j = i) then messages_of [l] else []) ++ waiting j ts ⊆+ waiting j (h_threads h)) ->
  hands_out (S n) (ledger_step h hl G) h'.
Proof.
  intros (Hlen & Hrun & Hthr & Hout & Hnone) Hl E Hts Ec Er Eo Hw. pose proof (session_step_calls _ _ _ _ E) as Ecalls.
  apply session_step_spec in E as (y & y' & new & Hy & Hs & Es & _ & Eout & Et & Hnew). cbn in Hy, Es, Eout, Et, Ecalls.
  assert (Hcalls : forall c, c ∈ h_calls h -> c ∈ h_calls h') by (now rewrite Ecalls).
  assert (Hwait : forall j, waiting j (h_threads h') = waiting j ts).
  { intros j. rewrite Et, waiting_app. assert (waiting j new = []) as ->; [|apply app_nil_r].
    clear -Hnew. induction new as [|t new IH]; [done|]. cbn. destruct (Hnew t) as [-> _]; [set_solver|]. apply IH. set_solver. }
  split; [|split; [|split; [|split]]]; cbn.
  - rewrite Ec, app_nil_r, Es, length_insert. exact Hlen.
  - intros j z. rewrite Es. destruct (decide (j = i)) as [->|Hne].
    + rewrite list_lookup_insert_eq by (now apply lookup_lt_Some in Hy). intros [= <-].
      destruct (Hrun i y Hy) as (u & ls & Hu & Hok & Hn & Hr & Hm & Ho). exists u, (ls ++ [l]). cbn.
      specialize (Hw i). rewrite decide_True in Hw by done.
      rewrite Ec, Er, !app_nil_r, Eo, decide_True, Hwait by done. split_and!; [done| |rewrite length_app; cbn; lia| | |].
      * apply Forall_app. auto.
      * eapply run_snoc; eauto.
      * unfold messages_of at 1. rewrite omap_app, <- app_assoc. etrans; [|exact Hm]. now apply submseteq_skips_l.
      * unfold own_steps at 1. rewrite omap_app. now f_equal.
    + rewrite list_lookup_insert_ne by congruence. intros Hz.
      destruct (Hrun j z Hz) as (u & ls & Hu & Hok & Hn & Hr & Hm & Ho). exists u, ls. cbn.
      specialize (Hw j). rewrite decide_False in Hw by done.
      rewrite Ec, Er, !app_nil_r, Eo, decide_False, app_nil_r, Hwait by done. split_and!; auto.
      etrans; [|exact Hm]. now apply submseteq_skips_l.
  - intros t Ht. rewrite Et in Ht. apply elem_of_app in Ht as [Ht|Ht].
    + apply (group_ok_more _ _ h); auto.
    + now destruct (Hnew t Ht) as [-> _].
  - intros j Hj. rewrite Eout in Hj. apply (grouped_more _ _ h); auto.
  - intros j Hj. rewrite Es, length_insert in Hj. destruct (Hnone j Hj) as [Ht0 Hw0].
    assert (j <> i) by (intros ->; apply lookup_lt_Some in Hy; lia). specialize (Hw j). rewrite decide_False in Hw by done.
    rewrite Eo, Er, Ht0, decide_False, !app_nil_r, Hwait by done. split; [done|]. etrans; [exact Hw | exact Hw0].
Qed.

Lemma hands_out_given n G h i :
  hands_out n G h -> grouped (users G) h i -> hands_out n G (with_out h i).
Proof.
  intros (Hlen & Hrun & Hthr & Hout & Hnone) Hg.
  assert (Hcalls : forall c, c ∈ h_calls h -> c ∈ h_calls (with_out h i)) by (cbn; set_solver).
  assert (Hmore : forall j, grouped (users G) h j -> grouped (users G) (with_out h i) j).
  { intros j Hj. rewrite <- (app_nil_r (users G)). now apply (grouped_more _ _ h). }
  split; [exact Hlen | split; [exact Hrun | split; [|split; [|exact Hnone]]]].
  - intros t Ht. rewrite <- (app_nil_r (users G)). apply (group_ok_more _ _ h); auto.
  - intros j Hj. cbn in Hj. apply elem_of_app in Hj as [Hj|Hj]; [auto|]. apply list_elem_of_singleton in Hj as ->. auto.
Qed.

Lemma hands_out_create n G h sensor userId cb_null st :
  hands_out n G h ->
  hands_out (S n) (ledger_step h (HCreateSession sensor userId cb_null st) G) (createSession sensor userId cb_null st h).
Proof.
  intros Hh. unfold createSession.
  destruct (negb (sensor =? kSensorId) || cb_null) eqn:E1;
    [|destruct (negb (watchClient st =? STATUS_OK)) eqn:E2].
  1-2: apply (hands_out_same n G h); cbn -[waiting]; rewrite ?E1, ?E2; auto; try (intros; apply elem_of_app; now left).
  1-2: intros i; now rewrite app_nil_r.
  destruct Hh as (Hlen & Hrun & Hthr & Hout & Hnone). unfold ledger_step. cbn [created_by]. rewrite E1, E2. cbn [orb].
  assert (Hnew : (users G ++ [userId]) !! length (h_sessions h) = Some userId).
  { rewrite <- Hlen. rewrite lookup_app_r by lia. now rewrite Nat.sub_diag. }
  set (h' := FpHal _ _ _ _ _). assert (Hcalls : forall c, c ∈ h_calls h -> c ∈ h_calls h') by (cbn; set_solver).
  assert (Hw : forall i, waiting i (h_threads h') = waiting i (h_threads h)) by (intros i; cbn -[waiting]; rewrite waiting_app; apply app_nil_r).
  split; [|split; [|split; [|split]]]; cbn [users inbox taken].
  - cbn. rewrite !length_app, Hlen. reflexivity.
  - intros i y Hy. cbn in Hy. unfold ledger_run. cbn [users inbox taken routed_by own_by]. rewrite Hw, !app_nil_r.
    apply lookup_app_Some in Hy as [Hy|[Hge Hy]].
    + destruct (Hrun i y Hy) as (u & ls & Hu & Hok & Hn & Hr). exists u, ls. split_and!; auto; try apply Hr.
      now apply lookup_app_l_Some.
    + apply list_lookup_singleton_Some in Hy as [Hi <-]. assert (i = length (h_sessions h)) as -> by lia.
      destruct (Hnone _ (Nat.le_refl _)) as [Ht0 Hw0]. exists userId, []. split_and!; auto. cbn. lia.
  - intros t Ht. cbn in Ht. apply elem_of_app in Ht as [Ht|Ht]; [apply (group_ok_more _ _ h); auto|].
    apply list_elem_of_singleton in Ht as ->. exact Hnew.
  - intros i Hi. apply (grouped_more _ _ h); auto.
  - intros i Hi. cbn in Hi. rewrite length_app in Hi. cbn -[waiting]. rewrite !app_nil_r, waiting_app, app_nil_r. apply Hnone. lia.
Qed.

Ltac same_sessions n G h := apply (hands_out_same n G h); cbn -[waiting]; auto; try (intros; apply elem_of_app; now left).

Lemma hands_out_thread n G h k err now h' :
  hal_inv n h -> hands_out n G h -> thread_step d k err now h = Some h' ->
  hands_out (S n) (ledger_step h (HThread k err now) G) h'.
Proof.
  intros Hi Hh. unfold thread_step.
  destruct (h_threads h !! k) as [t|] eqn:Hk; [|discriminate]. cbn [mbind option_bind].
  destruct (thread_split _ _ _ Hk) as [Hall Hset].
  assert (Ht : group_ok (users G) h t) by (apply Hh; apply Hall; auto).
  assert (Hsub : forall t', t' ∈ delete k (h_threads h) -> t' ∈ h_threads h) by (intros t' Ht'; apply Hall; auto).
  assert (Hwd : forall j, waiting j (delete k (h_threads h)) ⊆+ waiting j (h_threads h)).
  { intros j. rewrite (waiting_delete j _ k t Hk). now apply submseteq_inserts_l. }
  assert (Hwi : forall j t', waiting j [t'] = [] -> waiting j (<[k := t']> (h_threads h)) ⊆+ waiting j (h_threads h)).
  { intros j t' E. rewrite (waiting_insert j _ k t t' Hk), E. apply Hwd. }
  assert (Hmore : forall i h1, (forall c, c ∈ h_calls h -> c ∈ h_calls h1) -> grouped (users G) h i -> grouped (users G) h1 i).
  { intros i h1 Hc Hg. rewrite <- (app_nil_r (users G)). now apply (grouped_more _ _ h). }
  destruct t as [i u|i|i|i p|i|i m]; cbn in Ht.
  - destruct (module_free h); [|discriminate]. intros [= <-]. same_sessions n G h.
    + intros j. rewrite app_nil_r. now apply Hwi.
    + intros t Hin. apply Hset in Hin as [->|Hin]; [right; exists u | auto].
      split; [exact Ht | cbn; apply elem_of_app; right; constructor].
  - destruct (negb (err =? 0)); intros [= <-]; same_sessions n G h.
    + intros j. now rewrite app_nil_r.
    + intros j. rewrite app_nil_r. now apply Hwi.
    + intros t Hin. apply Hset in Hin as [->|Hin]; auto.
  - intros [= <-]. unfold exchange_session. destruct (mSession h) as [p|]; same_sessions n G h.
    + intros j. rewrite app_nil_r. now apply Hwi.
    + intros t Hin. apply Hset in Hin as [->|Hin]; auto.
    + intros j. now rewrite app_nil_r.
    + intros j Hj. apply elem_of_app in Hj as [|Hj]; [auto|]. apply list_elem_of_singleton in Hj as ->. right.
      apply Hmore; [|done]. intros c Hc. apply elem_of_app. now left.
  - destruct (module_free h); [|discriminate].
    destruct (session_step d p _ _) as [h1|] eqn:E; [|discriminate]. cbn. intros [= <-].
    apply hands_out_given.
    + apply (hands_out_step n G h _ (LDetach false) p _ _ Hh I E Hsub); [done | done | |]; intros j;
        destruct (decide (j = p)); cbn -[waiting]; auto.
    + cbn. rewrite app_nil_r. apply Hmore; [|done]. apply session_step_calls in E. cbn in E. now rewrite E.
  - intros [= <-]. same_sessions n G h. intros j. now rewrite app_nil_r.
  - intros E. assert (Hm : msg_ok m).
    { destruct Hi as (_ & H2 & _). apply (H2 (TNotify i m)). now apply list_elem_of_lookup_2 in Hk. }
    apply (hands_out_step n G h _ (LMessage now m) i _ _ Hh Hm E Hsub); [done | done | |]; intros j.
    + cbn. now destruct (decide _).
    + rewrite (waiting_delete j _ k _ Hk). apply submseteq_skips_r. unfold waiting. cbn.
      destruct (decide (j = i)) as [->|Hne]; [now rewrite decide_True | apply submseteq_nil_l].
Qed.

Lemma hands_out_hal n G h l h' :
  hal_label_ok l -> hal_inv n h -> hands_out n G h -> hal_step d l h = Some h' ->
  hands_out (S n) (ledger_step h l G) h'.
Proof.
  intros Hl Hi Hh. destruct l as [sensor userId cb_null st|k err now|msg|i l]; cbn [hal_step].
  - intros [= <-]. now apply hands_out_create.
  - now apply hands_out_thread.
  - intros [= <-]. unfold notify. destruct msg as [m|], (mSession h) as [i|] eqn:Ei;
      same_sessions n G h; try (intros j; now rewrite ?app_nil_r).
    + intros j. rewrite Ei, waiting_app. apply submseteq_skips_l. unfold waiting. cbn.
      destruct (decide (i = j)) as [->|Hne]; [now rewrite decide_True|]. apply submseteq_nil_l.
    + intros t Ht. apply elem_of_app in Ht as [|Ht]; [auto|]. apply list_elem_of_singleton in Ht as ->. now right.
    + intros j. rewrite Ei, decide_False by done. now rewrite app_nil_r.
  - destruct (h_sessions h !! i) as [y|]; [|discriminate]. cbn.
    destruct (own_step h i l) eqn:Eo; [|discriminate].
    destruct (_ || _); [|discriminate]. cbn. intros E.
    assert (Hl' : own_steps [l] = [l] /\ messages_of [l] = [] /\ label_ok l) by (destruct l as [| | | |[]| | | | | | | | | | | | |]; done).
    destruct Hl' as (Ho & Hm & Hok). apply (hands_out_step n G h _ l i (h_threads h) h'); [exact Hh | exact Hok | now destruct h | done | done | done | |].
    + intros j. rewrite Ho. cbn. destruct (decide (i = j)) as [->|Hne]; [now rewrite decide_True | now rewrite decide_False].
    + intros j. rewrite Hm. now destruct (decide _).
Qed.

Lemma hands_out_run ls n G h h' :
  Forall hal_label_ok ls -> Z.of_nat (n + length ls) <= UINT64_MAX -> hal_inv n h -> hands_out n G h ->
  hal_run d ls h = Some h' -> exists G', hands_out (n + length ls) G' h' /\
    users G' = users G ++ flat_map created_by ls /\
    (forall i, inbox G' i = inbox G i ++ routed i ls h) /\ (forall i, taken G' i = taken G i ++ flat_map (own_by i) ls).
Proof.
  intros Hls. revert n G h. induction Hls as [|l ls Hl Hls IH]; intros n G h Hmax Hi Hh; cbn [hal_run length].
  - intros [= <-]. exists G. rewrite Nat.add_0_r. cbn. split_and!; auto; intros; now rewrite app_nil_r.
  - destruct (hal_step d l h) as [h1|] eqn:E; [|discriminate]. cbn [mbind option_bind]. cbn [length] in Hmax.
    rewrite <- Nat.add_succ_comm in *. intros Hr.
    destruct (IH (S n) (ledger_step h l G) h1) as (G' & Hh' & Hu & Hb & Ht);
      [exact Hmax | eapply hal_step_inv; eauto; lia | now apply hands_out_hal | exact Hr |].
    exists G'. split; [exact Hh'|]. cbn [routed flat_map]. rewrite E. cbn [fmap option_fmap option_map default]. split_and!.
    + rewrite Hu. cbn. now rewrite app_assoc.
    + intros i. rewrite Hb. cbn. now rewrite app_assoc.
    + intros i. rewrite Ht. cbn. now rewrite app_assoc.
Qed.

Lemma hands_out_init : hands_out 0 (Ledger [] (fun _ => []) (fun _ => [])) hal_init.
Proof. split_and!; cbn; [done | done | set_solver | set_solver | done]. Qed.
End Composition.

(** The module is told that its service was registered, and servicemanager never
    hears of it; every other registration is passed on. *)
Lemma addService_spec {B R} (EX_NONE : R) next (binder : B) instance :
  AServiceManager_addService EX_NONE (Some next) binder instance =
  Some (if bool_decide (instance = Some kModuleFactoryService) then EX_NONE else next binder instance).
Proof. reflexivity. Qed.

(** ** Properties *)


(** C25. A session that a client was given is detached, is the one [mSession] points to,
    or is about to be detached by the [createSession] that replaced it. So at most
    one session that is not being replaced gets the module's messages and reaches the
    module. *)
Theorem only_current_session_live `{LegacyHeader} `{Binder} (d : device) (ls : list hal_label)
    (h : fp_hal) (i : nat) (y : sys) :
  Forall hal_label_ok ls -> Z.of_nat (length ls) <= UINT64_MAX ->
  hal_run d ls hal_init = Some h -> i ∈ h_out h -> h_sessions h !! i = Some y ->
  mDetached (ses y) = true \/ mSession h = Some i \/
  exists j, TDetachPrevious j i ∈ h_threads h.
Proof.
  intros Hls Hmax Hrun Hi Hy.
  destruct (hal_run_inv d ls 0 _ _ Hls Hmax (hal_inv_init d) Hrun) as (H1 & _ & H3).
  destruct (H3 i (or_introl Hi)) as [|[|(y' & b & Hy' & Hb)]]; [auto | auto |].
  left. replace y' with y in Hb by congruence.
  destruct (session_run_closed d (0 + length ls) y Hmax (H1 i y Hy)) as [[_ Hc] _]. eauto.
Qed.

(** Reading the press-to-auth parcelable never overflows, whatever the parcel
    holds; if it succeeds the parcelable has at least its size header, lies before
    [INT32_MAX], and the parcel is left exactly at its end; a parcelable without the
    field reads as false. *)
Theorem readFromParcel_stays_inside `{B : Binder} `{!BinderLaws B} (parcel : AParcel) :
  exists status enabled parcel', readFromParcel parcel = Ret (status, enabled, parcel') /\
    (status = STATUS_OK -> exists size p1,
       AParcel_readInt32 parcel = (STATUS_OK, size, p1) /\ 4 <= size /\
       AParcel_getDataPosition parcel + size <= INT32_MAX /\
       AParcel_getDataPosition parcel' = AParcel_getDataPosition parcel + size /\
       (size <= AParcel_getDataPosition p1 - AParcel_getDataPosition parcel -> enabled = false)).
Proof.
  unfold readFromParcel. pose proof (position_range parcel) as Hstart.
  set (start := AParcel_getDataPosition parcel) in *.
  destruct (AParcel_readInt32 parcel) as [[st size] p1] eqn:Er.
  pose proof (readInt32_moves _ _ _ _ Er) as Hm. pose proof (position_range p1) as Hp1.
  destruct (st =? STATUS_OK) eqn:Est; cbn [negb]; boolprop.
  2: { do 3 eexists. split; [reflexivity|]. easy. }
  subst st. pose proof (readInt32_range _ _ _ Er) as Hsize.
  pose proof bad_value_not_ok as Hbad.
  destruct (size <? 4) eqn:E4; boolprop; [do 3 eexists; split; [reflexivity | easy]|].
  rewrite (chk32_ret (INT32_MAX - size)) by range. cbn [mbind ub_bind].
  destruct (INT32_MAX - size <? start) eqn:Eo; boolprop; [do 3 eexists; split; [reflexivity | easy]|].
  rewrite (chk32_ret (AParcel_getDataPosition p1 - start)) by range. cbn [mbind ub_bind].
  destruct (AParcel_getDataPosition p1 - start <? size) eqn:Es; boolprop;
    [destruct (AParcel_readBool p1) as [[st2 enabled] p2] eqn:Eb
    | pose (enabled := false); pose (p2 := p1); pose (st2 := STATUS_OK)];
    [destruct (st2 =? STATUS_OK) eqn:E2; cbn [negb]; boolprop;
       [|do 3 eexists; split; [reflexivity | easy]] | rewrite Z.eqb_refl; cbn [negb]].
  all: rewrite (chk32_ret (start + size)) by range; cbn [mbind ub_bind].
  all: match goal with |- context [AParcel_setDataPosition ?p ?z] =>
         destruct (AParcel_setDataPosition p z) as [st3 p3] eqn:E3 end.
  all: do 3 eexists; split; [reflexivity|]; intros ->; exists size, p1;
    apply set_position in E3; repeat split; auto; try lia.
Qed.

(** ** Concrete runs *)

#[local] Existing Instance AospHeader.

(** A parcel of 32-bit words with a position. *)
Definition ref_position (p : list Z * Z) : Z := Z.max 0 (Z.min p.2 INT32_MAX).
Definition ref_read (p : list Z * Z) : Z * Z * (list Z * Z) :=
  match p.1 !! Z.to_nat (ref_position p / 4) with
  | Some w => if p.2 <=? INT32_MAX - 4 then (0, i32 w, (p.1, ref_position p + 4)) else (-22, 0, p)
  | None => (-22, 0, p)
  end.
#[local] Instance ref_binder : Binder := {|
  STATUS_OK := 0;
  STATUS_INVALID_OPERATION := -38;
  STATUS_BAD_VALUE := -22;
  AParcel := list Z * Z;
  AParcel_getDataPosition := ref_position;
  AParcel_readInt32 := ref_read;
  AParcel_readBool := fun p => let '(st, v, p') := ref_read p in (st, negb (v =? 0), p');
  AParcel_setDataPosition := fun p z =>
    if (0 <=? z) && (z <=? INT32_MAX) then (0, (p.1, z)) else (-22, p);
|}.

#[local] Instance ref_binder_laws : BinderLaws ref_binder.
Proof.
  split; cbn.
  - discriminate.
  - intros p. unfold ref_position. range.
  - intros p v p'. unfold ref_read. repeat case_goal; intros [= <- <-].
    unfold i32. pose proof (Z.mod_pos_bound (z + 2 ^ 31) (2 ^ 32)). range.
  - intros p st v p'. unfold ref_read. repeat case_goal; intros [= <- <- <-]; unfold ref_position; cbn; boolprop; range.
  - intros p z p'. repeat case_goal; intros [= <-]. boolprop. unfold ref_position. cbn. range.
Qed.

(** A parcelable with its field set, after eight bytes of other data. *)
Lemma readFromParcel_stays_inside_witness :
  exists status enabled parcel',
    readFromParcel (H := ref_binder) ([0; 0; 8; 1; 9], 8) = Ret (status, enabled, parcel') /\
    (status = 0 -> ref_position parcel' = 16) /\ status = 0 /\ enabled = true.
Proof.
  destruct (readFromParcel_stays_inside (B := ref_binder) ([0; 0; 8; 1; 9], 8))
    as (st & en & p' & E & H).
  exists st, en, p'. split; [exact E|].
  vm_compute in E. injection E as <- <- <-. split; [|auto].
  intros _. reflexivity.
Defined.

(** Two clients one after the other; the service detaches the first one's session. *)
Definition two_clients : list hal_label :=
  [HCreateSession 5 0 false 0; HThread 0 0 0; HThread 0 0 0; HThread 0 0 0;
   HSession 0 (LAuthenticate 7);
   HSession 0 (LReturn 0 0); HSession 0 (LReturn 0 0);
   HCreateSession 5 10 false 0; HThread 0 0 0; HThread 0 0 0; HThread 0 0 0; HThread 0 0 0].
Definition two_clients_end : fp_hal := default hal_init (hal_run full_device two_clients hal_init).

Example two_clients_out : h_out two_clients_end = [0; 1]%nat /\ mSession two_clients_end = Some 1%nat.
Proof. vm_compute. auto. Qed.


Lemma only_current_session_live_witness :
  exists y, h_sessions two_clients_end !! 0%nat = Some y /\
  (mDetached (ses y) = true \/ mSession two_clients_end = Some 0%nat \/
   exists j, TDetachPrevious j 0%nat ∈ h_threads two_clients_end).
Proof.
  destruct (h_sessions two_clients_end !! 0%nat) as [y|] eqn:Hy; [|vm_compute in Hy; discriminate].
  exists y. split; [reflexivity|].
  apply (only_current_session_live full_device two_clients two_clients_end 0 y);
    [repeat constructor | vm_compute; discriminate | vm_compute; reflexivity | | exact Hy].
  vm_compute. constructor.
Defined.
