(* ===== verification/TapSubHal.v ===== *)
(** * Tap sensors of the touch controller

    [sensors/TapSubHal.cpp]: a sub-HAL of the sensors multi-HAL with two one-shot
    sensors, a single and a double tap on the touch controller.  [members] is the
    state behind [mMutex], [locals] what the thread of [run] keeps, and [tap] the
    whole object with its wake descriptor and the place the thread is at.  Each
    critical section of the thread, each of its runs of node I/O and each call of
    the framework is a step of [tap_step], so that a list of labels is an
    interleaving; the answers of the kernel are in the labels.  Reading number [n]
    of the clock is [clock n].  This file is the model; its theorems are in
    [TapSubHalProofs]. *)

From S2P Require Import Prelude LibBase CString.

(** ** The sensors *)

(** An index into [kSensors], and a [std::array] with one entry per sensor. *)
Inductive index := SingleTap | DoubleTap.

#[global] Instance index_eq_dec : EqDecision index.
Proof. solve_decision. Defined.

Definition indices : list index := [SingleTap; DoubleTap].

Record arr (A : Type) := Arr { at_single : A; at_double : A }.
Arguments Arr {A} _ _.
Arguments at_single {A} _.
Arguments at_double {A} _.

Definition get {A} (a : arr A) (i : index) : A :=
  match i with SingleTap => at_single a | DoubleTap => at_double a end.
Definition set {A} (a : arr A) (i : index) (x : A) : arr A :=
  match i with
  | SingleTap => Arr x (at_double a)
  | DoubleTap => Arr (at_single a) x
  end.
(** [fill(x)] *)
Definition filled {A} (x : A) : arr A := Arr x x.

Definition anyOf (flags : arr bool) : bool := at_single flags || at_double flags.

Record TapSensor := {
  handle : Z;
  name : string;
  typeString : string;
  typeOffset : Z;
  on : string;
  off : string;
  reportBit : Z;
  modeBit : Z;
  holdEarly : bool;
}.

Definition kSensors (i : index) : TapSensor :=
  match i with
  | SingleTap =>
      {| handle := 1; name := "Single tap"; typeString := "de.diamaneos.sensor.single_tap";
         typeOffset := 1; on := "1"; off := "-1"; reportBit := 1;
         modeBit := Z.shiftl 1 1; holdEarly := false |}
  | DoubleTap =>
      {| handle := 2; name := "Double tap"; typeString := "de.diamaneos.sensor.double_tap";
         typeOffset := 2; on := "2"; off := "-2"; reportBit := 2;
         modeBit := Z.shiftl 1 2; holdEarly := true |}
  end.

Definition kPermission : string := "android.permission.DEVICE_POWER".
Definition kEventValues : nat := 16.
Definition kIdleNs : Z := 5 * 60000000000.
Definition kIdleCheckMs : Z := 10000.
Definition kEarlyNs : Z := 1000000000.
Definition kEarlyDelayNs : Z := 300000000.

(** [indexOf]: [None] is the result -1. *)
Definition indexOf (h : Z) : option index :=
  if handle (kSensors SingleTap) =? h then Some SingleTap
  else if handle (kSensors DoubleTap) =? h then Some DoubleTap
  else None.

(** The constants of the sensors HAL interface, which is not in the repository. *)
Class SensorsHal := {
  DEVICE_PRIVATE_BASE : Z;
  ONE_SHOT_MODE : Z;
  WAKE_UP : Z;
}.

(** [Result] and [OperationMode] of the interface. *)
Inductive Result := OK | NO_MEMORY | BAD_VALUE | INVALID_OPERATION.
Inductive OperationMode := NORMAL | DATA_INJECTION.

#[global] Instance Result_eq_dec : EqDecision Result.
Proof. solve_decision. Defined.
#[global] Instance OperationMode_eq_dec : EqDecision OperationMode.
Proof. solve_decision. Defined.

Section Sensors.
Context `{SensorsHal}.

Definition typeOf (sensor : TapSensor) : Z := DEVICE_PRIVATE_BASE + typeOffset sensor.

(** The floats of the records are the integers 0, 1 and -1. *)
Record SensorInfo := {
  info_sensorHandle : Z;
  info_name : string;
  info_vendor : string;
  info_version : Z;
  info_type : Z;
  info_typeAsString : string;
  info_maxRange : Z;
  info_resolution : Z;
  info_power : Z;
  info_minDelay : Z;
  info_maxDelay : Z;
  info_fifoReservedEventCount : Z;
  info_fifoMaxEventCount : Z;
  info_requiredPermission : string;
  info_flags : Z;
}.

(** The body of the constructor's loop. *)
Definition sensor_info (sensor : TapSensor) : SensorInfo := {|
  info_sensorHandle := handle sensor;
  info_name := name sensor;
  info_vendor := "DiamaneOS";
  info_version := 1;
  info_type := typeOf sensor;
  info_typeAsString := typeString sensor;
  info_maxRange := 1;
  info_resolution := 1;
  info_power := 0;
  info_minDelay := -1;
  info_maxDelay := 0;
  info_fifoReservedEventCount := 0;
  info_fifoMaxEventCount := 0;
  info_requiredPermission := kPermission;
  info_flags := Z.lor (u32 ONE_SHOT_MODE) (u32 WAKE_UP);
|}.

Definition mSensorInfos : list SensorInfo := map (fun i => sensor_info (kSensors i)) indices.

Record Event := {
  timestamp : Z;
  sensorHandle : Z;
  sensorType : Z;
  values : list Z;
}.

End Sensors.

(** ** Node I/O

    [writeNode]: [None] when the node cannot be opened, else what [write] returns. *)
Definition writeNode (answer : option Z) (value : string) : bool :=
  match answer with
  | None => false
  | Some n => n =? Z.of_nat (String.length value)
  end.

(** [readReport]: the answer is [None] when [lseek] or [read] fails, else the
    bytes the node has to give. *)
Definition readReport (answer : option string) : option Z :=
  match answer with
  | None => None
  | Some bytes =>
      let buf := str_take 7 bytes in
      if bool_decide (buf = "") then None else Some (atoi (c_str buf))
  end.

(** [readMode]: the answer is [None] when [open] or [read] fails. *)
Definition readMode (answer : option string) : option Z :=
  match answer with
  | None => None
  | Some bytes =>
      let buf := str_take 31 bytes in
      if bool_decide (buf = "") then None
      else match strstr (c_str buf) "mode[" with
           | None => None
           | Some start => Some (strtoul16 (str_drop 5 start))
           end
  end.

(** The answers to the calls of one [arm]. *)
Record arm_io := {
  io_open : bool;              (* opening the report node succeeds *)
  io_report : option string;   (* reading it *)
  io_write : option Z;         (* writing the gesture node *)
}.

(** ** What the object does, in order

    [FFire] and [FHold] mark the calls of [fire] and the held taps: the sensor, for
    a held tap when it was seen and due, and the time. *)
Inductive effect :=
| FWrite (i : index) (turn_on : bool) (ok : bool)
| FPost (cb : Z) (events : list Event)
| FFireTap (i : index)
| FHold (i : index) (seen : Z)
| FFireHeld (i : index) (seen due now : Z)
| FWakelock (hold : bool).

(** ** State *)

Record members := {
  mCallback : option Z;
  mWantArmed : arr bool;
  mArmed : arr bool;
  mEarlyAt : arr Z;
  mEarlyDue : arr Z;
  mReported : arr Z;
  mStop : bool;
  mMode : OperationMode;
}.

Definition set_want (m : members) (a : arr bool) : members :=
  {| mCallback := mCallback m; mWantArmed := a; mArmed := mArmed m;
     mEarlyAt := mEarlyAt m; mEarlyDue := mEarlyDue m; mReported := mReported m;
     mStop := mStop m; mMode := mMode m |}.
Definition set_armed (m : members) (a : arr bool) : members :=
  {| mCallback := mCallback m; mWantArmed := mWantArmed m; mArmed := a;
     mEarlyAt := mEarlyAt m; mEarlyDue := mEarlyDue m; mReported := mReported m;
     mStop := mStop m; mMode := mMode m |}.
Definition set_early (m : members) (seen due : arr Z) : members :=
  {| mCallback := mCallback m; mWantArmed := mWantArmed m; mArmed := mArmed m;
     mEarlyAt := seen; mEarlyDue := due; mReported := mReported m;
     mStop := mStop m; mMode := mMode m |}.
Definition set_mode (m : members) (mode : OperationMode) : members :=
  {| mCallback := mCallback m; mWantArmed := mWantArmed m; mArmed := mArmed m;
     mEarlyAt := mEarlyAt m; mEarlyDue := mEarlyDue m; mReported := mReported m;
     mStop := mStop m; mMode := mode |}.
Definition set_stop (m : members) : members :=
  {| mCallback := mCallback m; mWantArmed := mWantArmed m; mArmed := mArmed m;
     mEarlyAt := mEarlyAt m; mEarlyDue := mEarlyDue m; mReported := mReported m;
     mStop := true; mMode := mMode m |}.

Definition members_init : members :=
  {| mCallback := None; mWantArmed := filled false; mArmed := filled false;
     mEarlyAt := filled 0; mEarlyDue := filled 0; mReported := filled 0;
     mStop := false; mMode := NORMAL |}.

(** ** The operations behind the lock

    A critical section: the members, the number of clock readings so far, the
    queued [events] and the trace, newest first. *)
Record section_state := Sec {
  sec_m : members;
  sec_k : nat;
  sec_events : list Event;
  sec_fx : list effect;
}.

(** What [fire] and the tests around it change of one sensor. *)
Definition upd_early (i : index) (seen due : Z) (m : members) : members :=
  set_early m (set (mEarlyAt m) i seen) (set (mEarlyDue m) i due).

Section Operations.
Context `{SensorsHal} (clock : nat -> Z).

Definition fire (i : index) (s : section_state) : section_state :=
  let m := sec_m s in
  let m' := {| mCallback := mCallback m; mWantArmed := set (mWantArmed m) i false;
               mArmed := mArmed m;
               mEarlyAt := set (mEarlyAt m) i 0; mEarlyDue := set (mEarlyDue m) i 0;
               mReported := set (mReported m) i (u32 (get (mReported m) i + 1));
               mStop := mStop m; mMode := mMode m |} in
  let event := {| timestamp := clock (sec_k s);
                  sensorHandle := handle (kSensors i);
                  sensorType := typeOf (kSensors i);
                  values := -1 :: -1 :: replicate (kEventValues - 2) 0 |} in
  Sec m' (S (sec_k s)) (sec_events s ++ [event]) (sec_fx s).

Definition log (e : effect) (s : section_state) : section_state :=
  Sec (sec_m s) (sec_k s) (sec_events s) (e :: sec_fx s).
Definition modify (f : members -> members) (s : section_state) : section_state :=
  Sec (f (sec_m s)) (sec_k s) (sec_events s) (sec_fx s).

(** The decision about a tap whose due time is known. *)
Definition fireDue (now : Z) (i : index) (st : section_state * Z) : section_state * Z :=
  let '(s, next) := st in
  let seen := get (mEarlyAt (sec_m s)) i in
  let due := get (mEarlyDue (sec_m s)) i in
  if kEarlyDelayNs <? now - due then (modify (upd_early i 0 0) s, next)
  else if due <=? now then (log (FFireHeld i seen due now) (fire i s), next)
  else if (next =? 0) || (due <? next) then (s, due)
  else (s, next).

(** The body of the loop of [fireEarly]. *)
Definition fireEarly_one (now : Z) (st : section_state * Z) (i : index) : section_state * Z :=
  let '(s, next) := st in
  let m := sec_m s in
  if negb (get (mWantArmed m) i) || (get (mEarlyAt m) i =? 0) ||
     negb (bool_decide (mMode m = NORMAL)) then
    (modify (upd_early i (if get (mWantArmed m) i then 0 else get (mEarlyAt m) i) 0) s, next)
  else if get (mEarlyDue m) i =? 0 then
    if kEarlyNs <? now - get (mEarlyAt m) i
    then (modify (upd_early i 0 (get (mEarlyDue m) i)) s, next)
    else fireDue now i (modify (upd_early i (get (mEarlyAt m) i) (now + kEarlyDelayNs)) s, next)
  else fireDue now i (s, next).

Definition fireEarly (s : section_state) : section_state * Z :=
  let now := clock (sec_k s) in
  fold_left (fireEarly_one now) indices
    (Sec (sec_m s) (S (sec_k s)) (sec_events s) (sec_fx s), 0).

(** [post]: the effects of handing [events] to the callback. *)
Definition post (callback : option Z) (events : list Event) : list effect :=
  match callback with
  | Some cb => match events with [] => [] | _ => [FPost cb events] end
  | None => []
  end.

(** The body of the loop of [report]. *)
Definition report_one (gestures : Z) (s : section_state) (i : index) : section_state :=
  if Z.land gestures (reportBit (kSensors i)) =? 0 then s
  else if get (mWantArmed (sec_m s)) i then log (FFireTap i) (fire i s)
  else if holdEarly (kSensors i) then
    let now := clock (sec_k s) in
    log (FHold i now)
      (Sec (upd_early i now 0 (sec_m s)) (S (sec_k s)) (sec_events s) (sec_fx s))
  else s.

(** The critical section of [report]: [None] for the early return. *)
Definition report_locked (gestures : Z) (s : section_state) : option section_state :=
  if bool_decide (mMode (sec_m s) = NORMAL)
  then Some (fold_left (report_one gestures) indices s)
  else None.

(** ** The calls of the framework, up to the end of their critical section *)

(** [initialize], the members; starting the thread is in [tap_step]. *)
Definition initialize (cb : option Z) (m : members) : members :=
  {| mCallback := cb; mWantArmed := filled false; mArmed := mArmed m;
     mEarlyAt := filled 0; mEarlyDue := filled 0; mReported := mReported m;
     mStop := mStop m; mMode := NORMAL |}.

Definition setOperationMode (mode : OperationMode) (m : members) : Result * members :=
  (OK, set_mode m mode).

Definition activate (h : Z) (enabled : bool) (m : members) : Result * members :=
  match indexOf h with
  | None => (BAD_VALUE, m)
  | Some i => (OK, set_want m (set (mWantArmed m) i enabled))
  end.

Definition batch (h : Z) : Result :=
  match indexOf h with Some _ => OK | None => BAD_VALUE end.
Definition flush (h : Z) : Result := BAD_VALUE.
Definition injectSensorData_2_1 (e : Event) : Result := INVALID_OPERATION.
Definition registerDirectChannel : Result * Z := (INVALID_OPERATION, -1).
Definition unregisterDirectChannel (channelHandle : Z) : Result := INVALID_OPERATION.
Definition configDirectReport (h channelHandle rate : Z) : Result * Z := (INVALID_OPERATION, 0).

(** One line of [debug]. *)
Definition debug_line (m : members) (i : index) : string :=
  let flag (b : bool) := if b then "1" else "0" in
  typeString (kSensors i) +:+ ": active " +:+ flag (get (mWantArmed m) i) +:+
  ", gesture on " +:+ flag (get (mArmed m) i) +:+
  ", reported " +:+ to_string (get (mReported m) i) +:+ String newline "".
Definition debug (m : members) : list string := map (debug_line m) indices.

(** ** The thread *)

Record locals := {
  armed : arr bool;
  idleSince : arr Z;
  lowPowerFailed : bool;
  earlyWakelock : bool;
  mReportFd : bool;             (* the report node is open *)
  want : arr bool;
  callback : option Z;
  early : list Event;
  earlyDue : Z;
  idle : bool;
}.

Definition locals_init : locals :=
  {| armed := filled false; idleSince := filled 0; lowPowerFailed := false;
     earlyWakelock := false; mReportFd := false; want := filled false; callback := None;
     early := []; earlyDue := 0; idle := false |}.

Definition with_arm (l : locals) (a : arr bool) (fd : bool) : locals :=
  {| armed := a; idleSince := idleSince l; lowPowerFailed := lowPowerFailed l;
     earlyWakelock := earlyWakelock l; mReportFd := fd; want := want l;
     callback := callback l; early := early l; earlyDue := earlyDue l; idle := idle l |}.

(** [arm]: the result, whether the report node is open afterwards, and the
    effects, newest first. *)
Definition arm (i : index) (anyArmed fd : bool) (io : arm_io) : bool * bool * list effect :=
  if fd || io_open io then
    if negb anyArmed && bool_decide (readReport (io_report io) = None)
    then (false, true, [])
    else
      let ok := writeNode (io_write io) (on (kSensors i)) in
      (ok, true, [FWrite i true ok])
  else (false, false, []).

(** [arm(i, anyOf(armed))] and, when it succeeds, [armed[i] = true]. *)
Definition arm_local (i : index) (io : arm_io) (l : locals) : bool * locals * list effect :=
  let '(ok, fd, fx) := arm i (anyOf (armed l)) (mReportFd l) io in
  (ok, with_arm l (if ok then set (armed l) i true else armed l) fd, fx).

(** The takeover at the start of [run]. *)
Definition takeover_one (mode : Z) (io : arr arm_io) (st : locals * list effect) (i : index)
  : locals * list effect :=
  let '(l, fx) := st in
  if Z.land mode (modeBit (kSensors i)) =? 0 then st
  else let '(_, l', fx') := arm_local i (get io i) l in (l', fx' ++ fx).

Definition takeover (mode : option string) (io : arr arm_io) (fx : list effect)
  : locals * list effect :=
  match readMode mode with
  | None => (locals_init, fx)
  | Some mode => fold_left (takeover_one mode io) indices (locals_init, fx)
  end.

(** The state of the loop that looks for idle gestures. *)
Record idle_state := {
  is_armed : arr bool;
  is_since : arr Z;
  is_idle : bool;
  is_low : bool;
  is_read : bool;
  is_failed : bool;
  is_off : arr bool;            (* the gestures this pass turned off *)
  is_fx : list effect;
}.

(** The read of the mode, once per pass. *)
Definition read_low_power (mode : option string) (s : idle_state) : idle_state :=
  if is_read s then s
  else
    let '(low, failed) := match readMode mode with
                          | Some current => (negb (Z.land current 1 =? 0), is_failed s)
                          | None => (is_low s, true)
                          end in
    {| is_armed := is_armed s; is_since := is_since s; is_idle := is_idle s; is_low := low;
       is_read := true; is_failed := failed; is_off := is_off s; is_fx := is_fx s |}.

Definition set_since (s : idle_state) (i : index) (t : Z) (idle : bool) : idle_state :=
  {| is_armed := is_armed s; is_since := set (is_since s) i t; is_idle := idle;
     is_low := is_low s; is_read := is_read s; is_failed := is_failed s;
     is_off := is_off s; is_fx := is_fx s |}.

(** The body of the loop. *)
Definition idle_one (now : Z) (want : arr bool) (mode : option string) (io : arr (option Z))
  (s : idle_state) (i : index) : idle_state :=
  if negb (get (is_armed s) i) || get want i then set_since s i 0 (is_idle s)
  else
    let s := read_low_power mode s in
    if negb (is_low s) then set_since s i 0 true
    else if get (is_since s) i =? 0 then set_since s i now true
    else if kIdleNs <=? now - get (is_since s) i then
      {| is_armed := set (is_armed s) i false; is_since := set (is_since s) i 0;
         is_idle := is_idle s; is_low := is_low s; is_read := is_read s;
         is_failed := is_failed s; is_off := set (is_off s) i true;
         is_fx := FWrite i false (writeNode (get io i) (off (kSensors i))) :: is_fx s |}
    else set_since s i (get (is_since s) i) true.

Definition idle_loop (now : Z) (mode : option string) (io : arr (option Z)) (l : locals)
  (fx : list effect) : idle_state :=
  fold_left (idle_one now (want l) mode io) indices
    {| is_armed := armed l; is_since := idleSince l; is_idle := false; is_low := false;
       is_read := false; is_failed := lowPowerFailed l; is_off := filled false; is_fx := fx |}.

Definition with_idle (l : locals) (s : idle_state) : locals :=
  {| armed := is_armed s; idleSince := is_since s; lowPowerFailed := is_failed s;
     earlyWakelock := earlyWakelock l; mReportFd := mReportFd l; want := want l;
     callback := callback l; early := early l; earlyDue := earlyDue l; idle := is_idle s |}.

(** The timeout of [poll]; integer division truncates. *)
Definition poll_timeout (idle : bool) (earlyDue now : Z) : Z :=
  if earlyDue =? 0 then (if idle then kIdleCheckMs else -1)
  else
    let waitMs := Z.quot (earlyDue - now) 1000000 + 1 in
    Z.min (Z.max waitMs 0) kIdleCheckMs.

(** [earlyWakelock] after [fireEarly]. *)
Definition hold_wakelock (l : locals) : bool * list effect :=
  if earlyDue l =? 0
  then (false, if earlyWakelock l then [FWakelock false] else [])
  else if negb (earlyWakelock l) && bool_decide (callback l <> None)
  then (true, [FWakelock true])
  else (earlyWakelock l, []).

(** What one pass of the loop saw of the gestures, with those it turned off. *)
Record pass := {
  p_now : Z;
  p_armed : arr bool;
  p_want : arr bool;
  p_low : bool;
  p_off : arr bool;
}.

(** Where the thread is in [run]. *)
Inductive place :=
| AtStart                       (* not started, or before the takeover *)
| AtTop                         (* at the lock and the wait of the loop *)
| AtPostEarly
| AtArm (todo : list index)     (* the loop that arms *)
| AtGiveUp (i : index) (todo : list index)   (* the lock after a failed [arm] *)
| AtIdle
| AtPublish                     (* the lock around [mArmed = armed] *)
| AtPoll (timeoutMs : Z)
| AtReport (gestures : Z)       (* the lock of [report] *)
| AtPost (cb : option Z) (events : list Event)
| AtDone.

Record tap := Tap {
  mem : members;
  joinable : bool;              (* [mThread] runs *)
  wakeFd : option bool;         (* [mWakeFd] is open, and readable *)
  wakers : nat;                 (* calls between their lock and [wakeThread] *)
  at_ : place;
  loc : locals;
  ticks : nat;                  (* clock readings so far *)
  trace : list effect;          (* newest first *)
  passes : list pass;           (* newest first *)
}.

Definition tap_init : tap :=
  Tap members_init false None 0 AtStart locals_init 0 [] [].

Inductive label :=
| Initialize (cb : option Z) (eventfd_ok : bool)
| SetOperationMode (mode : OperationMode)
| Activate (h : Z) (enabled : bool)
| Destroy                        (* [~TapSubHal] up to [wakeThread] *)
| WakeThread                     (* one of the calls gets to [wakeThread] *)
| Takeover (mode : option string) (io : arr arm_io)
| Top
| PostEarly
| ArmNext (io : arm_io)
| GiveUp
| Idle (mode : option string) (io : arr (option Z))
| Publish
| Poll (error wake_ready report_ready : bool) (bytes : option string)
| Report
| Post
| Exit (io : arr (option Z)).

Definition at_mem (s : tap) (m : members) (w : nat) : tap :=
  Tap m (joinable s) (wakeFd s) w (at_ s) (loc s) (ticks s) (trace s) (passes s).
Definition goto (s : tap) (p : place) : tap :=
  Tap (mem s) (joinable s) (wakeFd s) (wakers s) p (loc s) (ticks s) (trace s) (passes s).

(** A call that fails returns before [wakeThread]. *)
Definition wakers_after (r : Result) (n : nat) : nat :=
  match r with OK => S n | _ => n end.

(** [initialize]. *)
Definition step_initialize (cb : option Z) (eventfd_ok : bool) (s : tap) : tap :=
  let m := initialize cb (mem s) in
  if joinable s then at_mem s m (S (wakers s))
  else if eventfd_ok then
    Tap m true (Some false) (S (wakers s)) AtStart (loc s) (ticks s) (trace s) (passes s)
  else Tap m false None (wakers s) (at_ s) (loc s) (ticks s) (trace s) (passes s).

(** The predicate of [mCondition.wait]. *)
Definition wait_over (s : tap) : bool :=
  mStop (mem s) || anyOf (mWantArmed (mem s)) || anyOf (armed (loc s)).

(** The critical section at the top of the loop, when not stopped. *)
Definition step_top (s : tap) : tap :=
  let '(c, due) := fireEarly (Sec (mem s) (ticks s) [] (trace s)) in
  let l := loc s in
  let l' := {| armed := armed l; idleSince := idleSince l; lowPowerFailed := lowPowerFailed l;
               earlyWakelock := earlyWakelock l; mReportFd := mReportFd l;
               want := mWantArmed (sec_m c); callback := mCallback (sec_m c);
               early := sec_events c; earlyDue := due; idle := idle l |} in
  Tap (sec_m c) (joinable s) (wakeFd s) (wakers s) AtPostEarly l' (sec_k c) (sec_fx c) (passes s).

Definition step_post_early (s : tap) : tap :=
  let l := loc s in
  let '(w, fx) := hold_wakelock l in
  let l' := {| armed := armed l; idleSince := idleSince l; lowPowerFailed := lowPowerFailed l;
               earlyWakelock := w; mReportFd := mReportFd l; want := want l;
               callback := callback l; early := []; earlyDue := earlyDue l; idle := idle l |} in
  Tap (mem s) (joinable s) (wakeFd s) (wakers s) (AtArm indices) l' (ticks s)
    (fx ++ post (callback l) (early l) ++ trace s) (passes s).

(** One round of the loop that arms. *)
Definition step_arm (i : index) (todo : list index) (io : arm_io) (s : tap) : tap :=
  let l := loc s in
  if negb (get (want l) i) || get (armed l) i then goto s (AtArm todo)
  else
    let '(ok, l', fx) := arm_local i io l in
    Tap (mem s) (joinable s) (wakeFd s) (wakers s)
      (if ok then AtArm todo else AtGiveUp i todo) l' (ticks s) (fx ++ trace s) (passes s).

Definition step_idle (mode : option string) (io : arr (option Z)) (s : tap) : tap :=
  let now := clock (ticks s) in
  let st := idle_loop now mode io (loc s) (trace s) in
  let p := {| p_now := now; p_armed := armed (loc s); p_want := want (loc s);
              p_low := is_low st; p_off := is_off st |} in
  Tap (mem s) (joinable s) (wakeFd s) (wakers s) AtPublish (with_idle (loc s) st)
    (S (ticks s)) (is_fx st) (p :: passes s).

Definition step_publish (s : tap) : tap :=
  let m := set_armed (mem s) (armed (loc s)) in
  let l := loc s in
  if negb (anyOf (armed l))
  then Tap m (joinable s) (wakeFd s) (wakers s) AtTop l (ticks s) (trace s) (passes s)
  else
    let k := if earlyDue l =? 0 then ticks s else S (ticks s) in
    Tap m (joinable s) (wakeFd s) (wakers s)
      (AtPoll (poll_timeout (idle l) (earlyDue l) (clock (ticks s)))) l k (trace s) (passes s).

(** [poll] and what follows up to the lock of [report]. *)
Definition step_poll (error wake_ready report_ready : bool) (bytes : option string) (s : tap)
  : option tap :=
  if error then Some (goto s AtTop)
  else if wake_ready && negb (bool_decide (wakeFd s = Some true)) then None
  else
    let s' := if wake_ready
              then Tap (mem s) (joinable s) (Some false) (wakers s) (at_ s) (loc s) (ticks s)
                     (trace s) (passes s)
              else s in
    Some (goto s' (if report_ready then
                     match readReport bytes with
                     | Some g => if g =? 0 then AtTop else AtReport g
                     | None => AtTop
                     end
                   else AtTop)).

Definition step_report (gestures : Z) (s : tap) : tap :=
  match report_locked gestures (Sec (mem s) (ticks s) [] (trace s)) with
  | None => goto s AtTop
  | Some c =>
      Tap (sec_m c) (joinable s) (wakeFd s) (wakers s)
        (AtPost (mCallback (sec_m c)) (sec_events c)) (loc s) (sec_k c) (sec_fx c) (passes s)
  end.

(** The end of [run], after the loop. *)
Definition exit_writes (io : arr (option Z)) (a : arr bool) (fx : list effect) : list effect :=
  fold_left (fun fx i =>
    if get a i then FWrite i false (writeNode (get io i) (off (kSensors i))) :: fx else fx)
    indices fx.
Definition step_exit (io : arr (option Z)) (s : tap) : tap :=
  Tap (mem s) (joinable s) (wakeFd s) (wakers s) AtDone (loc s) (ticks s)
    (exit_writes io (armed (loc s)) (trace s)) (passes s).

(** One step; [None] when the label cannot happen in the state. *)
Definition tap_step (s : tap) (lb : label) : option tap :=
  match lb with
  | Initialize cb ok => if mStop (mem s) then None else Some (step_initialize cb ok s)
  | SetOperationMode mode =>
      if mStop (mem s) then None else Some (at_mem s (snd (setOperationMode mode (mem s))) (wakers s))
  | Activate h b =>
      if mStop (mem s) then None
      else let '(r, m) := activate h b (mem s) in
           Some (at_mem s m (wakers_after r (wakers s)))
  | Destroy =>
      if mStop (mem s) then None else Some (at_mem s (set_stop (mem s)) (S (wakers s)))
  | WakeThread =>
      match wakers s with
      | O => None
      | S n =>
          Some (Tap (mem s) (joinable s) (option_map (fun _ => true) (wakeFd s)) n (at_ s)
                  (loc s) (ticks s) (trace s) (passes s))
      end
  | Takeover mode io =>
      match at_ s, joinable s with
      | AtStart, true =>
          let '(l, fx) := takeover mode io (trace s) in
          Some (Tap (mem s) true (wakeFd s) (wakers s) AtTop l (ticks s) fx (passes s))
      | _, _ => None
      end
  | Top =>
      match at_ s with
      | AtTop => if wait_over s && negb (mStop (mem s)) then Some (step_top s) else None
      | _ => None
      end
  | Exit io =>
      match at_ s with
      | AtTop => if wait_over s && mStop (mem s) then Some (step_exit io s) else None
      | _ => None
      end
  | PostEarly => match at_ s with AtPostEarly => Some (step_post_early s) | _ => None end
  | ArmNext io =>
      match at_ s with
      | AtArm (i :: todo) => Some (step_arm i todo io s)
      | AtArm [] => Some (goto s AtIdle)
      | _ => None
      end
  | GiveUp =>
      match at_ s with
      | AtGiveUp i todo =>
          Some (goto (at_mem s (set_want (mem s) (set (mWantArmed (mem s)) i false)) (wakers s))
                  (AtArm todo))
      | _ => None
      end
  | Idle mode io => match at_ s with AtIdle => Some (step_idle mode io s) | _ => None end
  | Publish => match at_ s with AtPublish => Some (step_publish s) | _ => None end
  | Poll e w r bytes =>
      match at_ s with AtPoll _ => step_poll e w r bytes s | _ => None end
  | Report => match at_ s with AtReport g => Some (step_report g s) | _ => None end
  | Post =>
      match at_ s with
      | AtPost cb events =>
          Some (Tap (mem s) (joinable s) (wakeFd s) (wakers s) AtTop (loc s) (ticks s)
                  (post cb events ++ trace s) (passes s))
      | _ => None
      end
  end.

Fixpoint tap_run (s : tap) (ls : list label) : option tap :=
  match ls with
  | [] => Some s
  | lb :: ls => match tap_step s lb with Some s' => tap_run s' ls | None => None end
  end.

End Operations.
