(* ===== verification/TapSubHalProofs.v ===== *)
(** * Properties of the tap sensors

    Invariants of every interleaving of [TapSubHal], by induction on runs, and the
    theorems they give: an activation gives at most one event; a held double tap goes
    out only inside the documented times; the thread never blocks with work undone; a
    gesture goes off exactly after it was idle in low power for five minutes;
    destroying the object ends the thread and turns every gesture off that a write could
    turn off and that the takeover after a crash could have. *)

From S2P Require Import Prelude LibBase CString TapSubHal.

(** ** Proof support *)

Lemma get_set_eq {A} (a : arr A) i x : get (set a i x) i = x.
Proof. now destruct i. Qed.
Lemma get_set_ne {A} (a : arr A) i j x : i <> j -> get (set a i x) j = get a j.
Proof. now destruct i, j. Qed.
Lemma get_filled {A} (x : A) i : get (filled x) i = x.
Proof. now destruct i. Qed.
Lemma anyOf_false a i : anyOf a = false -> get a i = false.
Proof. unfold anyOf. intros H. apply orb_false_iff in H as [? ?]. now destruct i. Qed.
Lemma anyOf_true a i : get a i = true -> anyOf a = true.
Proof. unfold anyOf. destruct i; cbn; intros ->; [reflexivity | apply orb_true_r]. Qed.
Lemma set_same {A} (a : arr A) i : set a i (get a i) = a.
Proof. now destruct a, i. Qed.
Lemma set_twice {A} (a : arr A) i x y : set (set a i x) i y = set a i y.
Proof. now destruct a, i. Qed.

Create Rewrite HintDb tap.
#[export] Hint Rewrite @get_set_eq @get_filled @set_same @set_twice : tap.

(** Split a hypothesis [tap_step clock s lb = Some s'] into the cases of the code. *)
Ltac step_cases H :=
  unfold tap_step in H;
  repeat (case_hyp H; try discriminate H);
  try discriminate H; try injection H as <-.

Section Runs.
Context `{SensorsHal} (clock : nat -> Z).

(** An invariant of the steps is one of the runs. *)
Lemma tap_run_inv (P : tap -> Prop) :
  (forall s lb s', P s -> tap_step clock s lb = Some s' -> P s') ->
  forall ls s s', P s -> tap_run clock s ls = Some s' -> P s'.
Proof.
  intros Hstep ls. induction ls as [|lb ls IH]; intros s s' Hs; cbn [tap_run].
  - now intros [= <-].
  - destruct (tap_step clock s lb) as [s1|] eqn:E; [|discriminate]. eauto.
Qed.

(** ** The effects of node I/O are writes *)

Definition is_write (e : effect) : bool :=
  match e with FWrite _ _ _ => true | _ => false end.

(** [fx] is [fx0] with writes in front. *)
Definition adds_writes (fx0 fx : list effect) : Prop :=
  exists w, fx = w ++ fx0 /\ Forall (fun e => is_write e = true) w.

Lemma adds_writes_refl fx : adds_writes fx fx.
Proof. now exists []. Qed.
Lemma adds_writes_cons fx0 fx i b ok :
  adds_writes fx0 fx -> adds_writes fx0 (FWrite i b ok :: fx).
Proof. intros (w & -> & Hw). exists (FWrite i b ok :: w). split; [easy | now constructor]. Qed.
Hint Resolve adds_writes_refl adds_writes_cons : core.

Lemma arm_local_writes i io l ok l' fx fx0 fx1 :
  arm_local i io l = (ok, l', fx) -> adds_writes fx0 fx1 -> adds_writes fx0 (fx ++ fx1).
Proof.
  unfold arm_local, arm. intros E Hw. repeat case_hyp E; simplify_eq; cbn; auto.
Qed.

(** Arming changes only [armed] and the report descriptor. *)
Lemma arm_local_frame i io l ok l' fx :
  arm_local i io l = (ok, l', fx) -> exists fd,
    l' = with_arm l (if ok then set (armed l) i true else armed l) fd.
Proof. unfold arm_local. destruct (arm _ _ _ _) as [[ok' fd] fx']. intros [= <- <- <-]. eauto. Qed.

Lemma takeover_frame mode io fx :
  exists a fd, fst (takeover mode io fx) = with_arm locals_init a fd.
Proof.
  unfold takeover. destruct (readMode mode) as [md|]; [|now exists (filled false), false].
  assert (forall i st, (exists a fd, fst st = with_arm locals_init a fd) ->
    exists a fd, fst (takeover_one md io st i) = with_arm locals_init a fd) as Hone.
  { intros i [l f] (a & fd & E). cbn in E. subst l. unfold takeover_one. case_goal; [eauto|].
    destruct (arm_local _ _ _) as [[ok l'] f'] eqn:E.
    apply arm_local_frame in E as (fd' & ->). eexists _, _; reflexivity. }
  cbn [fold_left indices]. apply Hone, Hone. now exists (filled false), false.
Qed.

Lemma takeover_writes mode io fx : adds_writes fx (snd (takeover mode io fx)).
Proof.
  unfold takeover. destruct (readMode mode) as [md|]; [|cbn; auto].
  assert (forall i st, adds_writes fx (snd st) -> adds_writes fx (snd (takeover_one md io st i)))
    as Hone.
  { intros i [l f] Hst. unfold takeover_one. case_goal; [assumption|].
    destruct (arm_local i (get io i) l) as [[ok l'] f'] eqn:E.
    eapply arm_local_writes; eauto. }
  cbn [fold_left indices]. apply Hone, Hone. cbn; auto.
Qed.

Lemma idle_one_writes now want mode io s i fx :
  adds_writes fx (is_fx s) -> adds_writes fx (is_fx (idle_one now want mode io s i)).
Proof.
  intros Hs. assert (is_fx (read_low_power mode s) = is_fx s) as E.
  { unfold read_low_power. repeat case_goal; reflexivity. }
  unfold idle_one. repeat case_goal; cbn; rewrite ?E; auto.
Qed.

Lemma idle_loop_writes now mode io l fx : adds_writes fx (is_fx (idle_loop now mode io l fx)).
Proof. unfold idle_loop. cbn [fold_left indices]. repeat apply idle_one_writes. cbn; auto. Qed.

Lemma exit_writes_writes io a fx : adds_writes fx (exit_writes io a fx).
Proof. unfold exit_writes; cbn [fold_left indices]. repeat case_goal; auto. Qed.

(** ** One event per activation *)

Definition b2n (b : bool) : nat := if b then 1 else 0.

Definition of_sensor (i : index) (e : Event) : bool := sensorHandle e =? handle (kSensors i).
Fixpoint count_events (i : index) (es : list Event) : nat :=
  match es with
  | [] => 0
  | e :: es => b2n (of_sensor i e) + count_events i es
  end.

(** The events handed to the framework for a sensor. *)
Fixpoint events_out (i : index) (fx : list effect) : nat :=
  match fx with
  | [] => 0
  | FPost _ es :: fx => count_events i es + events_out i fx
  | _ :: fx => events_out i fx
  end.

(** The calls [activate(handle, true)] of an interleaving. *)
Definition is_activation (i : index) (lb : label) : bool :=
  match lb with
  | Activate h true => h =? handle (kSensors i)
  | _ => false
  end.
Fixpoint activations (i : index) (ls : list label) : nat :=
  match ls with
  | [] => 0
  | lb :: ls => b2n (is_activation i lb) + activations i ls
  end.

Lemma count_events_app i a b : count_events i (a ++ b) = (count_events i a + count_events i b)%nat.
Proof. induction a as [|e a IH]; cbn; [reflexivity | rewrite IH; lia]. Qed.
Lemma events_out_app i a b : events_out i (a ++ b) = (events_out i a + events_out i b)%nat.
Proof. induction a as [|[] a IH]; cbn; rewrite ?IH; lia. Qed.
Lemma events_out_post i cb es : (events_out i (post cb es) <= count_events i es)%nat.
Proof. destruct cb, es; cbn; lia. Qed.

(** Events of a sensor that are out or queued, and one more while it is active:
    [fire] keeps the sum. *)
Definition sec_sum (i : index) (c : section_state) : nat :=
  events_out i (sec_fx c) + count_events i (sec_events c) + b2n (get (mWantArmed (sec_m c)) i).

Lemma fire_sum i j c :
  get (mWantArmed (sec_m c)) j = true -> sec_sum i (fire clock j c) = sec_sum i c.
Proof.
  intros Hw. unfold sec_sum, fire; cbn. rewrite count_events_app; cbn.
  destruct i, j; cbn in *; rewrite ?Hw; cbn; lia.
Qed.

Lemma fireDue_sum now i j c n :
  get (mWantArmed (sec_m c)) j = true ->
  sec_sum i (fst (fireDue clock now j (c, n))) = sec_sum i c.
Proof.
  intros Hw. unfold fireDue. repeat case_goal; try reflexivity.
  cbn. rewrite <- (fire_sum i j c Hw). reflexivity.
Qed.

Lemma fireEarly_one_sum now i j st :
  sec_sum i (fst (fireEarly_one clock now st j)) = sec_sum i (fst st).
Proof.
  destruct st as [c n]. unfold fireEarly_one.
  destruct (get (mWantArmed (sec_m c)) j) eqn:Hw; cbn [negb orb].
  2: reflexivity.
  repeat case_goal; try reflexivity; rewrite fireDue_sum by assumption; reflexivity.
Qed.

Lemma fireEarly_sum i c : sec_sum i (fst (fireEarly clock c)) = sec_sum i c.
Proof. unfold fireEarly, indices. cbn [fold_left]. now rewrite !fireEarly_one_sum. Qed.

Lemma report_one_sum g i j c : sec_sum i (report_one clock g c j) = sec_sum i c.
Proof.
  unfold report_one. repeat case_goal; try reflexivity.
  rewrite <- (fire_sum i j c) by assumption. reflexivity.
Qed.

Lemma report_locked_sum g i c c' :
  report_locked clock g c = Some c' -> sec_sum i c' = sec_sum i c.
Proof.
  unfold report_locked, indices. case_goal; intros [= <-]. cbn [fold_left].
  now rewrite !report_one_sum.
Qed.
Lemma events_out_writes i fx fx' : adds_writes fx fx' -> events_out i fx' = events_out i fx.
Proof.
  intros (w & -> & Hw). induction Hw as [|e w He Hw IH]; [reflexivity|].
  now destruct e.
Qed.

Definition tap_sum (i : index) (s : tap) : nat :=
  events_out i (trace s) + count_events i (early (loc s)) +
  match at_ s with AtPost _ es => count_events i es | _ => 0 end +
  b2n (get (mWantArmed (mem s)) i).

Lemma step_top_sum i s : at_ s = AtTop -> (tap_sum i (step_top clock s) <= tap_sum i s)%nat.
Proof.
  intros E. unfold step_top, tap_sum. rewrite E.
  pose proof (fireEarly_sum i (Sec (mem s) (ticks s) [] (trace s))) as Hs.
  destruct (fireEarly clock _) as [c due]. unfold sec_sum in Hs; cbn in *. lia.
Qed.

Lemma step_report_sum i g s :
  at_ s = AtReport g -> (tap_sum i (step_report clock g s) <= tap_sum i s)%nat.
Proof.
  intros E. unfold step_report, tap_sum. rewrite E.
  destruct (report_locked clock g _) as [c|] eqn:Er; [|cbn; lia].
  apply (report_locked_sum g i) in Er. unfold sec_sum in Er; cbn in *. lia.
Qed.

Lemma step_io_sum i s lb s' :
  tap_step clock s lb = Some s' ->
  match lb with Takeover _ _ | PostEarly | ArmNext _ | Idle _ _ | Exit _ => True | _ => False end ->
  (tap_sum i s' <= tap_sum i s)%nat.
Proof.
  intros Hstep Hlb. destruct lb; try contradiction; step_cases Hstep; unfold tap_sum; cbn.
  - pose proof (takeover_writes mode io (trace s)) as Hw.
    destruct (takeover mode io (trace s)) as [l' fx'] eqn:Et. cbn in *.
    simplify_eq. rewrite (events_out_writes i _ _ Hw).
    pose proof (takeover_frame mode io (trace s)) as (a & fd & Ef). rewrite Et in Ef; cbn in Ef.
    subst l; cbn. lia.
  - unfold step_post_early. destruct (hold_wakelock (loc s)) as [w fx] eqn:Eh; cbn.
    rewrite !events_out_app. pose proof (events_out_post i (callback (loc s)) (early (loc s))).
    enough (events_out i fx = 0%nat) by lia.
    unfold hold_wakelock in Eh. repeat case_hyp Eh; simplify_eq; reflexivity.
  - lia.
  - unfold step_arm. case_goal; cbn; [lia|].
    destruct (arm_local i0 io (loc s)) as [[ok l'] fx] eqn:E. cbn.
    rewrite (events_out_writes i (trace s)) by (eapply arm_local_writes; eauto; auto).
    apply arm_local_frame in E as (fd & ->). destruct ok; cbn; lia.
  - rewrite (events_out_writes i (trace s)) by apply idle_loop_writes. lia.
  - rewrite (events_out_writes i (trace s)) by apply exit_writes_writes. lia.
Qed.

Lemma activate_cases h b m r m' :
  activate h b m = (r, m') ->
  (r = BAD_VALUE /\ m' = m) \/
  (exists i, handle (kSensors i) = h /\ r = OK /\ m' = set_want m (set (mWantArmed m) i b)).
Proof.
  unfold activate, indexOf. repeat case_goal; intros [= <- <-]; boolprop; eauto.
  all: right; [exists SingleTap || exists DoubleTap]; auto.
Qed.

Lemma step_activate_sum i h b s s' :
  tap_step clock s (Activate h b) = Some s' ->
  (tap_sum i s' <= tap_sum i s + b2n (is_activation i (Activate h b)))%nat.
Proof.
  cbn [tap_step]. destruct (mStop (mem s)); [discriminate|].
  destruct (activate h b (mem s)) as [r m'] eqn:E.
  apply activate_cases in E as [(-> & ->) | (j & <- & -> & ->)]; intros [= <-];
    unfold tap_sum; cbn; [lia|].
  destruct b, i, j; cbn; lia.
Qed.

Lemma step_poll_frame e w r bytes s s' :
  step_poll e w r bytes s = Some s' ->
  mem s' = mem s /\ loc s' = loc s /\ trace s' = trace s /\ passes s' = passes s /\
  ticks s' = ticks s /\ joinable s' = joinable s /\ wakers s' = wakers s /\
  (at_ s' = AtTop \/ exists g, at_ s' = AtReport g).
Proof.
  unfold step_poll. repeat case_goal; intros [= <-]; cbn; eauto 12.
Qed.

Lemma step_sum i s lb s' :
  tap_step clock s lb = Some s' ->
  (tap_sum i s' <= tap_sum i s + b2n (is_activation i lb))%nat.
Proof.
  intros Hstep. destruct lb;
    try (pose proof (step_io_sum i _ _ _ Hstep I); lia);
    try (now apply step_activate_sum);
    step_cases Hstep; try (unfold tap_sum; cbn; lia).
  - unfold step_initialize, tap_sum. destruct (joinable s), eventfd_ok; cbn; rewrite !get_filled; cbn; try lia.
  - pose proof (step_top_sum i s). intuition lia.
  - unfold tap_sum; cbn. destruct i, i0; cbn; lia.
  - unfold step_publish, tap_sum. destruct (negb _); cbn; lia.
  - apply step_poll_frame in Hstep as (E1 & E2 & E3 & _ & _ & _ & _ & Ha).
    unfold tap_sum. rewrite E1, E2, E3.
    destruct Ha as [-> | (? & ->)]; lia.
  - pose proof (step_report_sum i gestures s). intuition lia.
  - unfold tap_sum; cbn. rewrite events_out_app, Heqp.
    pose proof (events_out_post i cb events). lia.
Qed.

Lemma run_sum i ls s s' :
  tap_run clock s ls = Some s' -> (tap_sum i s' <= tap_sum i s + activations i ls)%nat.
Proof.
  revert s. induction ls as [|lb ls IH]; intros s; cbn [tap_run activations].
  - intros [= <-]; lia.
  - destruct (tap_step clock s lb) as [s1|] eqn:E; [|discriminate].
    intros Hr. apply IH in Hr. apply (step_sum i) in E. lia.
Qed.
(** ** Held taps *)

(** The tap held for a sensor: the last one seen while it was inactive, unless an
    event went out since. *)
Fixpoint pending_hold (i : index) (fx : list effect) : option Z :=
  match fx with
  | [] => None
  | FHold j seen :: fx => if bool_decide (i = j) then Some seen else pending_hold i fx
  | FFireTap j :: fx => if bool_decide (i = j) then None else pending_hold i fx
  | FFireHeld j _ _ _ :: fx => if bool_decide (i = j) then None else pending_hold i fx
  | _ :: fx => pending_hold i fx
  end.

(** A due time for a tap seen at [seen]. *)
Definition due_for (seen due : Z) : Prop :=
  seen + kEarlyDelayNs <= due <= seen + kEarlyNs + kEarlyDelayNs.

(** A held tap goes out once, is the latest one seen, and is on time. *)
Definition held_on_time (i : index) (seen due now : Z) (before : list effect) : Prop :=
  i = DoubleTap /\ pending_hold i before = Some seen /\ due_for seen due /\
  due <= now <= due + kEarlyDelayNs.

Fixpoint holds_ok (fx : list effect) : Prop :=
  match fx with
  | [] => True
  | FFireHeld i seen due now :: fx => held_on_time i seen due now fx /\ holds_ok fx
  | _ :: fx => holds_ok fx
  end.

(** What the members say of a sensor, at time [t]. *)
Definition early_ok (t : Z) (m : members) (fx : list effect) (i : index) : Prop :=
  (get (mEarlyAt m) i <> 0 ->
     i = DoubleTap /\ pending_hold i fx = Some (get (mEarlyAt m) i) /\ get (mEarlyAt m) i <= t) /\
  (get (mEarlyDue m) i <> 0 ->
     get (mEarlyAt m) i <> 0 /\ due_for (get (mEarlyAt m) i) (get (mEarlyDue m) i)).

Definition holds_inv (t : Z) (m : members) (fx : list effect) : Prop :=
  (forall i, early_ok t m fx i) /\ holds_ok fx.

Definition sec_holds (t : Z) (c : section_state) : Prop := holds_inv t (sec_m c) (sec_fx c).

(** Forgetting the held tap of a sensor. *)
Lemma upd_early_holds t j c :
  sec_holds t c -> sec_holds t (modify (upd_early j 0 0) c).
Proof.
  intros [Hi Ho]. split; [|exact Ho]. intros i. specialize (Hi i).
  unfold early_ok in *; cbn. destruct i, j; cbn in *; tauto.
Qed.

Lemma fire_holds t j e c :
  (forall fx i, i <> j -> pending_hold i (e :: fx) = pending_hold i fx) ->
  holds_ok (e :: sec_fx c) -> sec_holds t c -> sec_holds t (log e (fire clock j c)).
Proof.
  intros Hp Ho [Hi _]. split; [|exact Ho]. intros i. specialize (Hi i).
  unfold early_ok in *. cbn [log fire sec_m sec_fx mEarlyAt mEarlyDue].
  destruct (decide (j = i)) as [->|Hne].
  - rewrite !get_set_eq. tauto.
  - rewrite !get_set_ne, Hp by congruence. exact Hi.
Qed.

Lemma fireDue_holds t now j c n :
  get (mEarlyAt (sec_m c)) j <> 0 -> get (mEarlyDue (sec_m c)) j <> 0 ->
  sec_holds t c -> sec_holds t (fst (fireDue clock now j (c, n))).
Proof.
  intros Hat Hdue Hc. unfold fireDue. repeat case_goal; cbn [fst]; try assumption.
  - now apply upd_early_holds.
  - boolprop. apply fire_holds; [| |assumption].
    { intros fx i Hne. cbn. now rewrite bool_decide_false. }
    destruct Hc as [Hi Ho]. destruct (Hi j) as [Ha Hd].
    specialize (Ha Hat) as (Ej & Hp & _). specialize (Hd Hdue) as [_ Hd].
    split; [|exact Ho]. unfold held_on_time. auto with lia.
Qed.

Lemma fireEarly_one_holds now j st :
  0 < now -> sec_holds now (fst st) -> sec_holds now (fst (fireEarly_one clock now st j)).
Proof.
  intros Hnow Hc. destruct st as [c n]. cbn [fst] in Hc. unfold fireEarly_one.
  destruct (get (mWantArmed (sec_m c)) j) eqn:Hw; cbn [negb orb].
  - destruct (get (mEarlyAt (sec_m c)) j =? 0) eqn:Hat; cbn [orb]; [now apply upd_early_holds|].
    destruct (bool_decide _); cbn [negb]; [|now apply upd_early_holds].
    boolprop. destruct (get (mEarlyDue (sec_m c)) j =? 0) eqn:Hdue; boolprop.
    + rewrite Hdue. case_goal; [now apply upd_early_holds|]. boolprop.
      assert (0 < kEarlyDelayNs) by (unfold kEarlyDelayNs; lia).
      apply fireDue_holds; cbn [modify upd_early set_early sec_m mEarlyAt mEarlyDue];
        rewrite ?get_set_eq; [assumption | lia |].
      destruct Hc as [Hi Ho]. split; [|exact Ho]. intros i.
      destruct (Hi j) as [Hj _]. specialize (Hj Hat) as (Ej & Hp & Hle).
      destruct (decide (j = i)) as [<-|Hne].
      * split; cbn [modify upd_early set_early sec_m sec_fx mEarlyAt mEarlyDue];
          rewrite !get_set_eq; [tauto|]. unfold due_for. intros _. split; [assumption | lia].
      * unfold early_ok. cbn [modify upd_early set_early sec_m sec_fx mEarlyAt mEarlyDue].
        rewrite !get_set_ne by congruence. apply Hi.
    + now apply fireDue_holds.
  - destruct Hc as [Hi Ho]. split; [|exact Ho]. intros i. specialize (Hi i).
    unfold early_ok in *; cbn. destruct i, j; cbn in *; tauto.
Qed.

Lemma fireEarly_holds c :
  0 < clock (sec_k c) -> sec_holds (clock (sec_k c)) c ->
  sec_holds (clock (sec_k c)) (fst (fireEarly clock c)).
Proof.
  intros Hnow Hc. unfold fireEarly. cbn [fold_left indices].
  now repeat apply fireEarly_one_holds.
Qed.
Lemma holds_inv_mono t t' m fx : t <= t' -> holds_inv t m fx -> holds_inv t' m fx.
Proof.
  intros Ht [Hi Ho]. split; [|exact Ho]. intros i. destruct (Hi i) as [Ha Hd].
  split; [|exact Hd]. intros Hne. destruct (Ha Hne) as (? & ? & ?). auto with lia.
Qed.

(** Effects that are no taps change nothing. *)
Definition no_tap (e : effect) : bool :=
  match e with FFireTap _ | FHold _ _ | FFireHeld _ _ _ _ => false | _ => true end.
Lemma holds_inv_app t m fx w :
  Forall (fun e => no_tap e = true) w -> holds_inv t m fx -> holds_inv t m (w ++ fx).
Proof.
  induction 1 as [|e w He Hw IH]; intros Hm; [exact Hm|].
  specialize (IH Hm). destruct e; try discriminate; exact IH.
Qed.
Lemma holds_inv_writes t m fx fx' :
  adds_writes fx fx' -> holds_inv t m fx -> holds_inv t m fx'.
Proof.
  intros (w & -> & Hw). apply holds_inv_app. eapply Forall_impl; [exact Hw|].
  now intros [] ?.
Qed.

(** Only the two arrays of held taps matter. *)
Lemma holds_inv_members t m m' fx :
  mEarlyAt m' = mEarlyAt m -> mEarlyDue m' = mEarlyDue m ->
  holds_inv t m fx -> holds_inv t m' fx.
Proof. unfold holds_inv, early_ok. now intros -> ->. Qed.

Hypothesis clock_pos : forall n, 0 < clock n.
Hypothesis clock_mono : forall n, clock n <= clock (S n).

Lemma report_one_holds g j c :
  sec_holds (clock (sec_k c)) c ->
  sec_holds (clock (sec_k (report_one clock g c j))) (report_one clock g c j).
Proof.
  intros Hc. unfold report_one. repeat case_goal; try assumption.
  - cbn [log fire sec_k]. eapply holds_inv_mono; [apply clock_mono|].
    apply fire_holds; [|apply Hc | exact Hc].
    intros fx i Hne. cbn. now rewrite bool_decide_false.
  - cbn [log sec_k]. eapply holds_inv_mono; [apply clock_mono|].
    destruct Hc as [Hi Ho]. split; [|exact Ho]. intros i. specialize (Hi i).
    pose proof (clock_pos (sec_k c)).
    assert (j = DoubleTap) as -> by now destruct j.
    unfold early_ok in *. destruct i; cbn in *; [tauto|].
    split; [|lia]. intros _. auto with lia.
Qed.

Lemma report_locked_holds g c c' :
  sec_holds (clock (sec_k c)) c -> report_locked clock g c = Some c' ->
  sec_holds (clock (sec_k c')) c'.
Proof.
  intros Hc. unfold report_locked. case_goal; intros [= <-]. cbn [fold_left indices].
  now repeat apply report_one_holds.
Qed.

Definition tap_holds (s : tap) : Prop := holds_inv (clock (ticks s)) (mem s) (trace s).

Lemma fireEarly_ticks c : (sec_k c <= sec_k (fst (fireEarly clock c)))%nat.
Proof.
  assert (forall now i st, (sec_k (fst st) <= sec_k (fst (fireEarly_one clock now st i)))%nat) as Hone.
  { intros now i [c0 n]. unfold fireEarly_one, fireDue. repeat case_goal; cbn; lia. }
  unfold fireEarly. cbn [fold_left indices].
  etransitivity; [|apply Hone]. etransitivity; [|apply Hone]. cbn; lia.
Qed.

Lemma clock_le n m : (n <= m)%nat -> clock n <= clock m.
Proof. induction 1; [lia|]. pose proof (clock_mono m). lia. Qed.

Lemma step_holds s lb s' : tap_holds s -> tap_step clock s lb = Some s' -> tap_holds s'.
Proof.
  unfold tap_holds. intros Hs Hstep.
  destruct lb; step_cases Hstep; try exact Hs; cbn [ticks mem trace at_mem goto].
  - unfold step_initialize.
    assert (holds_inv (clock (ticks s)) (initialize cb (mem s)) (trace s)).
    { destruct Hs as [_ Ho]. split; [|exact Ho]. intros []; split; cbn; tauto. }
    repeat case_goal; assumption.
  - match goal with E : activate _ _ _ = _ |- _ =>
      apply activate_cases in E as [(_ & ->) | (i & _ & _ & ->)] end; [exact Hs|].
    now apply (holds_inv_members _ (mem s)).
  - match goal with E : takeover _ _ _ = _ |- _ =>
      pose proof (takeover_writes mode io (trace s)) as Hw; rewrite E in Hw end.
    now apply (holds_inv_writes _ _ (trace s)).
  - unfold step_top. pose proof (fireEarly_holds (Sec (mem s) (ticks s) [] (trace s))) as Hf.
    pose proof (fireEarly_ticks (Sec (mem s) (ticks s) [] (trace s))) as Ht.
    destruct (fireEarly clock _) as [c due]. cbn in *.
    apply (holds_inv_mono (clock (ticks s))); [now apply clock_le | now apply Hf].
  - unfold step_post_early, hold_wakelock. repeat case_goal; cbn; try apply holds_inv_app;
      try assumption; try (unfold post; repeat case_goal; repeat constructor);
      apply (holds_inv_app _ _ _ [_]); try assumption; repeat constructor.
  - unfold step_arm. case_goal; [exact Hs|].
    destruct (arm_local _ _ _) as [[ok l'] fx] eqn:E. cbn.
    apply (holds_inv_writes _ _ (trace s)); [eapply arm_local_writes; eauto; auto | exact Hs].
  - cbn. apply (holds_inv_mono (clock (ticks s))); [apply clock_mono|].
    apply (holds_inv_writes _ _ (trace s)); [apply idle_loop_writes | exact Hs].
  - unfold step_publish. case_goal; cbn; [now apply (holds_inv_members _ (mem s))|].
    apply (holds_inv_mono (clock (ticks s))); [case_goal; [lia | apply clock_mono]|].
    now apply (holds_inv_members _ (mem s)).
  - apply step_poll_frame in Hstep as (-> & _ & -> & _ & -> & _). exact Hs.
  - unfold step_report. destruct (report_locked clock gestures _) as [c|] eqn:E; [|exact Hs].
    now apply report_locked_holds in E.
  - apply holds_inv_app; [|exact Hs]. unfold post. repeat case_goal; repeat constructor.
  - cbn. apply (holds_inv_writes _ _ (trace s)); [apply exit_writes_writes | exact Hs].
Qed.

Lemma run_holds ls s : tap_run clock tap_init ls = Some s -> tap_holds s.
Proof.
  apply (tap_run_inv tap_holds step_holds). split; [|exact I]. intros []; split; cbn; tauto.
Qed.

Lemma holds_ok_app fx a : holds_ok (a ++ fx) -> holds_ok fx.
Proof. induction a as [|[] a IH]; cbn; tauto. Qed.
(** ** Wake-ups *)

(** No call is on its way to [wakeThread] and the wake descriptor is not readable. *)
Definition quiet (s : tap) : Prop := wakers s = O /\ wakeFd s <> Some true.

(** Inside a pass, the sensors the pass has yet to arm. *)
Definition todo_of (p : place) : option (list index) :=
  match p with
  | AtPostEarly => Some indices
  | AtArm todo => Some todo
  | AtGiveUp i todo => Some (i :: todo)
  | AtIdle | AtPublish | AtPoll _ => Some []
  | _ => None
  end.

(** The snapshot of a pass against the members. *)
Definition want_ok (s : tap) (todo : list index) (i : index) : Prop :=
  (get (mWantArmed (mem s)) i = true ->
     get (want (loc s)) i = true /\ (i ∈ todo \/ get (armed (loc s)) i = true)) /\
  (get (mWantArmed (mem s)) i = false -> get (want (loc s)) i = true ->
     get (armed (loc s)) i = false /\ i ∉ todo).

Definition wake_inv (s : tap) : Prop :=
  (joinable s = true -> wakeFd s <> None) /\
  (at_ s <> AtStart -> joinable s = true) /\
  (forall i todo, at_ s = AtGiveUp i todo -> get (armed (loc s)) i = false) /\
  (forall todo, todo_of (at_ s) = Some todo ->
     NoDup todo /\ (quiet s -> mStop (mem s) = false /\ forall i, want_ok s todo i)).

Lemma NoDup_indices : NoDup indices.
Proof. clear clock_pos clock_mono. repeat constructor; set_solver. Qed.
Lemma nodup_indices_length (l : list index) : NoDup l -> (length l <= 2)%nat.
Proof. clear clock_pos clock_mono.
  intros Hn. change 2%nat with (length indices). apply submseteq_length, NoDup_submseteq; [exact Hn|].
  intros []; set_solver.
Qed.

(** The loop that looks for idle gestures turns off only what is not wanted, and
    sees every armed gesture that is not. *)
Lemma idle_one_armed now want mode io s i j :
  let s' := idle_one now want mode io s i in
  (get (is_armed s') j = true -> get (is_armed s) j = true) /\
  (get want j = true -> get (is_armed s') j = get (is_armed s) j) /\
  (is_idle s = true -> is_idle s' = true) /\
  (i = j -> get (is_armed s') j = true -> get want j = true \/ is_idle s' = true).
Proof.
  assert (is_armed (read_low_power mode s) = is_armed s /\
          is_idle (read_low_power mode s) = is_idle s) as [E1 E2].
  { unfold read_low_power. repeat case_goal; auto. }
  cbn zeta. unfold idle_one.
  destruct (get (is_armed s) i) eqn:Ea, (get want i) eqn:Ew; cbn [negb orb];
    [cbn; intuition congruence | | cbn; intuition congruence | cbn; intuition congruence].
  repeat case_goal; cbn; rewrite ?E1, ?E2; try (intuition congruence).
  destruct (decide (i = j)) as [<-|Hne].
  - rewrite get_set_eq. intuition congruence.
  - rewrite get_set_ne by assumption. intuition congruence.
Qed.

Lemma idle_loop_armed now mode io l fx j :
  let s' := idle_loop now mode io l fx in
  (get (is_armed s') j = true -> get (armed l) j = true) /\
  (get (want l) j = true -> get (is_armed s') j = get (armed l) j) /\
  (is_idle s' = false -> get (is_armed s') j = true -> get (want l) j = true).
Proof.
  cbn zeta. unfold idle_loop. cbn [fold_left indices].
  set (s0 := {| is_armed := armed l |}).
  pose proof (idle_one_armed now (want l) mode io s0 SingleTap j) as (A1 & B1 & C1 & D1).
  set (s1 := idle_one _ _ _ _ s0 SingleTap) in *.
  pose proof (idle_one_armed now (want l) mode io s1 DoubleTap j) as (A2 & B2 & C2 & D2).
  set (s2 := idle_one _ _ _ _ s1 DoubleTap) in *. clearbody s1 s2.
  cbn [s0 is_armed] in *. split; [|split]; [now auto | | ].
  - intros Hw. rewrite B2, B1 by assumption. reflexivity.
  - intros Hi Ha. destruct (is_idle s1) eqn:E1; [rewrite C2 in Hi by reflexivity; discriminate|].
    destruct j.
    + destruct D1; auto; congruence.
    + destruct D2; auto; congruence.
Qed.
(** A call that leaves a waker behind keeps the invariant. *)
Lemma wake_inv_call s m w : (0 < w)%nat -> wake_inv s -> wake_inv (at_mem s m w).
Proof.
  intros Hw (H1 & H2 & H3 & H4). split; [|split; [|split]]; auto.
  intros todo Ht. destruct (H4 todo Ht) as [Hn _]. split; [exact Hn|].
  intros [Hq _]. cbn in Hq. lia.
Qed.

Lemma step_arm_wake i todo io s :
  at_ s = AtArm (i :: todo) -> wake_inv s -> wake_inv (step_arm i todo io s).
Proof. clear clock_pos clock_mono.
  intros Ea (H1 & H2 & _ & H4). rewrite Ea in H4. specialize (H4 _ eq_refl) as [Hn Hq].
  apply NoDup_cons in Hn as [Hni Hn].
  assert (joinable s = true) as Hj by (apply H2; congruence).
  unfold step_arm. destruct (negb (get (want (loc s)) i) || get (armed (loc s)) i) eqn:Es.
  - split; [|split; [|split]]; auto; [discriminate|].
    intros t [= <-]. split; [exact Hn|]. intros Hs. specialize (Hq Hs) as [Hm Hw].
    split; [exact Hm|]. intros j. specialize (Hw j) as [Hw1 Hw2]. split; cbn in *.
    + intros Hj1. specialize (Hw1 Hj1) as [Hj2 Hj3]. split; [exact Hj2|].
      destruct Hj3 as [Hj3|]; [|auto]. apply elem_of_cons in Hj3 as [->|]; [|auto].
      right. rewrite Hj2 in Es. now destruct (get (armed (loc s)) i).
    + intros Hj1 Hj2. specialize (Hw2 Hj1 Hj2). set_solver.
  - apply orb_false_iff in Es as [Es Ef]. apply negb_false_iff in Es.
    destruct (arm_local i io (loc s)) as [[ok l'] fx] eqn:El.
    apply arm_local_frame in El as (fd & ->).
    destruct ok; (split; [|split; [|split]]); cbn; auto; try discriminate;
      try (intros ? ? [= <- <-]; assumption).
    + intros t [= <-]. split; [exact Hn|]. intros Hs. specialize (Hq Hs) as [Hm Hw].
      split; [exact Hm|]. intros j. specialize (Hw j) as [Hw1 Hw2]. split; cbn in *.
      * intros Hj1. specialize (Hw1 Hj1) as [Hj2 Hj3]. split; [exact Hj2|].
        destruct (decide (i = j)) as [<-|Hne]; [right; apply get_set_eq|].
        rewrite get_set_ne by assumption. set_solver.
      * intros Hj1 Hj2. specialize (Hw2 Hj1 Hj2) as [Hj3 Hj4].
        destruct (decide (i = j)) as [<-|Hne]; [set_solver|].
        rewrite get_set_ne by assumption. set_solver.
    + intros t [= <-]. split; [now constructor|]. intros Hs. apply (Hq Hs).
Qed.

Lemma step_give_up_wake i todo s :
  at_ s = AtGiveUp i todo -> wake_inv s ->
  wake_inv (goto (at_mem s (set_want (mem s) (set (mWantArmed (mem s)) i false)) (wakers s))
              (AtArm todo)).
Proof. clear clock_pos clock_mono.
  intros Ea (H1 & H2 & H3 & H4). rewrite Ea in H4. specialize (H4 _ eq_refl) as [Hn Hq].
  specialize (H3 i todo Ea). apply NoDup_cons in Hn as [Hni Hn].
  assert (joinable s = true) as Hj by (apply H2; congruence).
  split; [|split; [|split]]; cbn; auto; [discriminate|].
  intros t [= <-]. split; [exact Hn|]. intros Hs. specialize (Hq Hs) as [Hm Hw].
  split; [exact Hm|]. intros j. specialize (Hw j) as [Hw1 Hw2].
  unfold want_ok; cbn in *.
  destruct (decide (i = j)) as [<-|Hne].
  - rewrite get_set_eq. split; [discriminate|]. auto.
  - rewrite get_set_ne by assumption. split; [|set_solver].
    intros Hj1. specialize (Hw1 Hj1). set_solver.
Qed.

Lemma step_idle_wake mode io s :
  at_ s = AtIdle -> wake_inv s -> wake_inv (step_idle clock mode io s).
Proof. clear clock_pos clock_mono.
  intros Ea (H1 & H2 & _ & H4). rewrite Ea in H4. specialize (H4 _ eq_refl) as [Hn Hq].
  assert (joinable s = true) as Hj by (apply H2; congruence).
  split; [|split; [|split]]; cbn; auto; [discriminate|].
  intros t [= <-]. split; [exact Hn|]. intros Hs. specialize (Hq Hs) as [Hm Hw].
  split; [exact Hm|]. intros j. specialize (Hw j) as [Hw1 Hw2].
  pose proof (idle_loop_armed (clock (ticks s)) mode io (loc s) (trace s) j) as (A & B & _).
  unfold want_ok, step_idle. cbn [mem loc armed want with_idle]. split.
  - intros Hj1. specialize (Hw1 Hj1) as [Hj2 Hj3]. rewrite (B Hj2). auto.
  - intros Hj1 Hj2. specialize (Hw2 Hj1 Hj2). now rewrite (B Hj2).
Qed.

(** Outside a pass nothing is promised. *)
Lemma wake_inv_out s :
  joinable s = true -> wakeFd s <> None -> todo_of (at_ s) = None -> wake_inv s.
Proof.
  intros Hj Hf Ht. split; [auto|]. split; [auto|]. split.
  - intros i todo E. rewrite E in Ht. discriminate.
  - intros todo E. congruence.
Qed.

(** Steps inside a pass that change neither wishes nor gestures. *)
Lemma wake_inv_same s s' todo :
  wake_inv s -> todo_of (at_ s) = Some todo -> todo_of (at_ s') = Some todo ->
  (forall i t, at_ s' <> AtGiveUp i t) ->
  joinable s' = joinable s -> wakeFd s' = wakeFd s -> wakers s' = wakers s ->
  mWantArmed (mem s') = mWantArmed (mem s) -> mStop (mem s') = mStop (mem s) ->
  want (loc s') = want (loc s) -> armed (loc s') = armed (loc s) -> wake_inv s'.
Proof.
  intros (H1 & H2 & H3 & H4) Ht Ht' Hg Ej Ef Ew Em Es Ewa Ea.
  assert (at_ s <> AtStart) as Hns by (intros E; now rewrite E in Ht).
  unfold wake_inv, quiet, want_ok. rewrite Ej, Ef, Ew, Em, Es, Ewa, Ea, Ht'.
  split; [auto|]. split; [auto|]. split; [intros i t E; now apply Hg in E|].
  intros ? [= <-]. exact (H4 todo Ht).
Qed.

Lemma step_top_wake s :
  at_ s = AtTop -> mStop (mem s) = false -> joinable s = true -> wakeFd s <> None ->
  wake_inv (step_top clock s).
Proof. clear clock_pos clock_mono.
  intros Ea Hm Hj Hf. unfold step_top.
  assert (mStop (sec_m (fst (fireEarly clock (Sec (mem s) (ticks s) [] (trace s))))) = false) as Hm'.
  { assert (forall now st i, mStop (sec_m (fst (fireEarly_one clock now st i))) =
      mStop (sec_m (fst st))) as Hone.
    { intros now [c n] i. unfold fireEarly_one, fireDue. repeat case_goal; reflexivity. }
    unfold fireEarly. cbn [fold_left indices]. now rewrite !Hone. }
  destruct (fireEarly clock _) as [c due]. cbn in Hm'.
  split; [auto|]. split; [auto|]. split; [discriminate|].
  intros ? [= <-]. split; [apply NoDup_indices|]. intros _. split; [exact Hm'|].
  intros i. unfold want_ok; cbn. split; [|congruence].
  intros Hw. split; [exact Hw|]. left. destruct i; set_solver.
Qed.

Lemma step_wake s lb s' : wake_inv s -> tap_step clock s lb = Some s' -> wake_inv s'.
Proof.
  intros Hs Hstep. pose proof Hs as (H1 & H2 & H3 & H4).
  assert (at_ s <> AtStart -> joinable s = true /\ wakeFd s <> None) as Hr by auto.
  destruct lb; step_cases Hstep.
  all: try (apply wake_inv_call; [lia | exact Hs]).
  all: try (destruct Hr as [Hj Hf]; [congruence|]).
  - unfold step_initialize. destruct (joinable s) eqn:Ej; [apply wake_inv_call; [lia | exact Hs]|].
    destruct eventfd_ok; [now apply wake_inv_out|].
    assert (at_ s = AtStart) as Ea by (destruct (at_ s); auto; destruct Hr; congruence).
    split; [discriminate|]. cbn. rewrite Ea. split; [congruence|]. split; discriminate.
  - exact Hs.
  - match goal with E : activate _ _ _ = _ |- _ =>
      apply activate_cases in E as [(-> & ->) | (i & _ & -> & ->)] end; [|apply wake_inv_call; [cbn; lia | exact Hs]].
    now destruct s.
  - split; [destruct (wakeFd s); cbn; auto; discriminate|]. split; [exact H2|]. split; [exact H3|].
    intros todo Ht. destruct (H4 todo Ht) as [Hn _]. split; [exact Hn|]. intros [_ Hq]. cbn in Hq.
    destruct Hr as [_ Hf]; [intros E; now rewrite E in Ht|]. now destruct (wakeFd s).
  - apply wake_inv_out; auto.
  - boolprop. now apply step_top_wake.
  - unfold step_post_early. destruct (hold_wakelock (loc s)).
    eapply (wake_inv_same s _ indices); eauto; try now rewrite Heqp. all: discriminate.
  - eapply (wake_inv_same s _ []); eauto; try now rewrite Heqp. all: discriminate.
  - now apply step_arm_wake.
  - now apply step_give_up_wake.
  - now apply step_idle_wake.
  - unfold step_publish. case_goal; [now apply wake_inv_out|].
    eapply (wake_inv_same s _ []); eauto; try now rewrite Heqp. all: discriminate.
  - pose proof Hstep as Hp. apply step_poll_frame in Hp as (_ & _ & _ & _ & _ & Ej & _ & Ha).
    apply wake_inv_out; [congruence | | destruct Ha as [-> | (? & ->)]; reflexivity].
    unfold step_poll in Hstep. repeat case_hyp Hstep; simplify_eq; cbn; auto.
  - unfold step_report. case_goal; now apply wake_inv_out.
  - now apply wake_inv_out.
  - now apply wake_inv_out.
Qed.

(** ** What a pass leaves for [poll] *)

Lemma fireEarly_one_next now st i j :
  0 < now ->
  let st' := fireEarly_one clock now st i in
  (snd st <> 0 -> snd st' <> 0) /\
  (i = j -> get (mEarlyDue (sec_m (fst st'))) j <> 0 -> snd st' <> 0) /\
  (i <> j -> get (mEarlyDue (sec_m (fst st'))) j = get (mEarlyDue (sec_m (fst st))) j).
Proof.
  intros Hnow. destruct st as [c n]. unfold fireEarly_one, fireDue.
  repeat case_goal; boolprop; cbn in *; rewrite ?get_set_eq in *; boolprop;
    (split; [|split]); intros; subst; rewrite ?get_set_eq, ?get_set_ne in * by congruence;
    try lia; try congruence.
  all: match goal with H : (?a =? 0) || _ = true |- _ =>
         destruct (a =? 0) eqn:?; boolprop; lia | _ => idtac end.
  all: unfold kEarlyDelayNs in *; lia.
Qed.

Lemma fireEarly_next c j :
  0 < clock (sec_k c) -> snd (fireEarly clock c) = 0 ->
  get (mEarlyDue (sec_m (fst (fireEarly clock c)))) j = 0.
Proof.
  intros Hnow. unfold fireEarly. cbn [fold_left indices].
  set (now := clock (sec_k c)) in *. set (s0 := (_, _)).
  pose proof (fireEarly_one_next now s0 SingleTap j Hnow) as (A1 & B1 & C1).
  set (s1 := fireEarly_one _ _ s0 SingleTap) in *.
  pose proof (fireEarly_one_next now s1 DoubleTap j Hnow) as (A2 & B2 & C2).
  set (s2 := fireEarly_one _ _ s1 DoubleTap) in *. clearbody s1 s2. intros Hz.
  destruct j; [rewrite C2 by congruence|];
    match goal with |- ?x = 0 => destruct (Z.eq_dec x 0); [assumption|] end; intuition congruence.
Qed.

Definition pass_inv (s : tap) : Prop :=
  (todo_of (at_ s) <> None -> earlyDue (loc s) = 0 -> forall i, get (mEarlyDue (mem s)) i = 0) /\
  (at_ s = AtPublish \/ (exists t, at_ s = AtPoll t) -> idle (loc s) = false ->
     forall i, get (armed (loc s)) i = true -> get (want (loc s)) i = true) /\
  (forall t, at_ s = AtPoll t -> exists now, t = poll_timeout (idle (loc s)) (earlyDue (loc s)) now).

Lemma pass_inv_out s : todo_of (at_ s) = None -> pass_inv s.
Proof.
  intros Ht. split; [now rewrite Ht|]. split.
  - intros [E | (t & E)]; now rewrite E in Ht.
  - intros t E; now rewrite E in Ht.
Qed.

(** Before [AtIdle] only the due times count. *)
Lemma pass_inv_early s s' :
  pass_inv s -> todo_of (at_ s) <> None ->
  earlyDue (loc s') = earlyDue (loc s) -> mEarlyDue (mem s') = mEarlyDue (mem s) ->
  match at_ s' with AtPostEarly | AtArm _ | AtGiveUp _ _ | AtIdle => True | _ => False end ->
  pass_inv s'.
Proof.
  intros (H1 & _ & _) Ht El Em Ha. split; [|split].
  - rewrite El, Em. auto.
  - intros [E | (t & E)]; rewrite E in Ha; contradiction.
  - intros t E; rewrite E in Ha; contradiction.
Qed.

Lemma step_pass s lb s' : pass_inv s -> tap_step clock s lb = Some s' -> pass_inv s'.
Proof.
  intros Hs Hstep. pose proof Hs as (H1 & H2 & H3).
  destruct lb; step_cases Hstep; try exact Hs; try now apply pass_inv_out.
  - unfold step_initialize.
    assert (forall w, pass_inv (at_mem s (initialize cb (mem s)) w)) as Hm.
    { intros w. split; [|split; [exact H2 | exact H3]]. intros _ _ []; reflexivity. }
    repeat case_goal; [apply Hm | now apply pass_inv_out | apply (Hm (wakers s))].
  - match goal with E : activate _ _ _ = _ |- _ =>
      apply activate_cases in E as [(_ & ->) | (i & _ & _ & ->)] end; exact Hs.
  - unfold step_top. pose proof (fireEarly_next (Sec (mem s) (ticks s) [] (trace s))) as Hn.
    destruct (fireEarly clock _) as [c due]. cbn in Hn.
    split; [|split]; cbn; [auto | intros [? | (? & ?)]; discriminate | discriminate].
  - unfold step_post_early. destruct (hold_wakelock (loc s)).
    eapply pass_inv_early; eauto; [now rewrite Heqp | exact I].
  - eapply pass_inv_early; eauto; [now rewrite Heqp | exact I].
  - unfold step_arm. case_goal; [eapply pass_inv_early; eauto; [now rewrite Heqp | exact I]|].
    destruct (arm_local _ _ _) as [[ok l'] fx] eqn:E. apply arm_local_frame in E as (fd & ->).
    eapply pass_inv_early; eauto; [now rewrite Heqp | now destruct ok].
  - eapply pass_inv_early; eauto; [now rewrite Heqp | exact I].
  - split; [|split]; [| |discriminate].
    + intros _ Hd. refine (H1 _ Hd). discriminate.
    + intros _ Hi j. cbn in Hi |- *.
      pose proof (idle_loop_armed (clock (ticks s)) mode io (loc s) (trace s) j) as (_ & _ & Hd).
      now apply Hd.
  - unfold step_publish. case_goal; [now apply pass_inv_out|]. split; [|split].
    + intros _ Hd. refine (H1 _ Hd). discriminate.
    + intros _. apply H2. auto.
    + intros t [= <-]. cbn. eauto.
  - apply step_poll_frame in Hstep as (_ & _ & _ & _ & _ & _ & _ & Ha).
    apply pass_inv_out. now destruct Ha as [-> | (? & ->)].
  - unfold step_report. case_goal; now apply pass_inv_out.
Qed.

Lemma poll_timeout_range idle due now : -1 <= poll_timeout idle due now <= kIdleCheckMs.
Proof. unfold poll_timeout, kIdleCheckMs. repeat case_goal; lia. Qed.

Lemma poll_timeout_forever idle due now :
  poll_timeout idle due now = -1 -> idle = false /\ due = 0.
Proof.
  unfold poll_timeout, kIdleCheckMs.
  destruct (due =? 0) eqn:?, idle; intros; boolprop; try lia; auto.
Qed.

Lemma run_wake ls s : tap_run clock tap_init ls = Some s -> wake_inv s.
Proof.
  apply (tap_run_inv wake_inv step_wake). split; [discriminate|]. split; [easy|]. split; discriminate.
Qed.
Lemma run_pass ls s : tap_run clock tap_init ls = Some s -> pass_inv s.
Proof. apply (tap_run_inv pass_inv step_pass). now apply pass_inv_out. Qed.

(** ** The gestures of the controller *)

(** Whether the gesture is on in the controller: what the last write that reached it
    said, or, without one, how it was when the object was made ([before]). *)
Fixpoint gesture_on (before : index -> bool) (i : index) (fx : list effect) : bool :=
  match fx with
  | [] => before i
  | FWrite j b true :: fx => if bool_decide (i = j) then b else gesture_on before i fx
  | _ :: fx => gesture_on before i fx
  end.

(** No write that was to turn the gesture on succeeded. *)
Fixpoint never_armed (i : index) (fx : list effect) : bool :=
  match fx with
  | [] => true
  | FWrite j true true :: fx => negb (bool_decide (i = j)) && never_armed i fx
  | _ :: fx => never_armed i fx
  end.

(** A write that was to turn the gesture off failed. *)
Fixpoint off_failed (i : index) (fx : list effect) : bool :=
  match fx with
  | [] => false
  | FWrite j false false :: fx => bool_decide (i = j) || off_failed i fx
  | _ :: fx => off_failed i fx
  end.

(** The takeover cannot have the gesture: the mode cannot be read or does not show it, or
    the report cannot be opened or read, or the write fails. *)
Definition takeover_misses (mode : option string) (io : arr arm_io) (i : index) : Prop :=
  forall m, readMode mode = Some m -> Z.land m (modeBit (kSensors i)) <> 0 ->
  io_open (get io i) = false \/ readReport (io_report (get io i)) = None \/
  writeNode (io_write (get io i)) (on (kSensors i)) = false.

Section Gestures.
Variable before : index -> bool.

(** [armed] follows the controller, but for writes that failed and gestures that were on
    before and that the object never had; [E] is why not. *)
Definition left_on (E : index -> Prop) (fx : list effect) (i : index) : Prop :=
  off_failed i fx = true \/ before i = true /\ never_armed i fx = true /\ E i.
Definition gesture_ok (E : index -> Prop) (a : arr bool) (fx : list effect) (i : index) : Prop :=
  (get a i = true -> gesture_on before i fx = true) /\
  (gesture_on before i fx = true -> get a i = true \/ left_on E fx i).

Lemma gesture_ok_mono (E E' : index -> Prop) a fx i :
  (E i -> E' i) -> gesture_ok E a fx i -> gesture_ok E' a fx i.
Proof. unfold gesture_ok, left_on. tauto. Qed.

Definition no_write (e : effect) : bool := negb (is_write e).
Lemma gesture_ok_app E a fx w i :
  Forall (fun e => no_write e = true) w -> gesture_ok E a fx i -> gesture_ok E a (w ++ fx) i.
Proof.
  induction 1 as [|e w He Hw IH]; intros Hm; [exact Hm|].
  specialize (IH Hm). destruct e; try discriminate; exact IH.
Qed.

Lemma gesture_ok_on E a fx i j (ok : bool) :
  gesture_ok E a fx i ->
  gesture_ok E (if ok then set a j true else a) (FWrite j true ok :: fx) i.
Proof.
  intros Hi. destruct ok; [|exact Hi]. unfold gesture_ok, left_on in *; cbn.
  destruct (decide (j = i)) as [->|Hne].
  - rewrite bool_decide_true, get_set_eq by reflexivity. auto.
  - rewrite bool_decide_false, get_set_ne by congruence. exact Hi.
Qed.

Lemma gesture_ok_off E a fx i j ok :
  gesture_ok E a fx i -> gesture_ok E (set a j false) (FWrite j false ok :: fx) i.
Proof.
  intros [H1 H2]. unfold gesture_ok, left_on in *. destruct (decide (j = i)) as [->|Hne].
  - rewrite get_set_eq. destruct ok; cbn; rewrite bool_decide_true by reflexivity; auto.
    split; [discriminate | auto].
  - rewrite get_set_ne by assumption.
    destruct ok; cbn; rewrite bool_decide_false by congruence; auto.
Qed.

Lemma gesture_ok_arm E i j io l ok l' fx fx0 :
  arm_local j io l = (ok, l', fx) -> gesture_ok E (armed l) fx0 i ->
  gesture_ok E (armed l') (fx ++ fx0) i.
Proof.
  unfold arm_local, arm. intros Ea Hg. repeat case_hyp Ea; simplify_eq; cbn; auto;
    try (now apply (gesture_ok_on _ _ _ _ _ true)); now apply (gesture_ok_on _ _ _ _ _ false).
Qed.

Lemma arm_local_armed j io l ok l' fx : arm_local j io l = (ok, l', fx) ->
  if ok then get (armed l') j = true
  else io_open io = false \/ readReport (io_report io) = None \/ writeNode (io_write io) (on (kSensors j)) = false.
Proof.
  unfold arm_local, arm. destruct (mReportFd l || io_open io) eqn:Ef.
  - case_goal; [|destruct (writeNode _ _) eqn:Ew]; intros [= <- <- <-]; cbn; auto using get_set_eq.
    apply andb_prop in Heqb as [_ Hn]. apply bool_decide_eq_true in Hn. auto.
  - intros [= <- <- <-]. apply orb_false_iff in Ef as [_ ->]. auto.
Qed.

(** The turn of the gesture itself in the takeover. *)
Lemma takeover_self mode md io st i :
  readMode mode = Some md -> gesture_ok (fun _ => True) (armed (fst st)) (snd st) i ->
  gesture_ok (takeover_misses mode io) (armed (fst (takeover_one md io st i))) (snd (takeover_one md io st i)) i.
Proof.
  destruct st as [l f]. unfold takeover_one. intros Hm Hst. case_goal; boolprop.
  { eapply gesture_ok_mono; [|exact Hst]. intros _ m Hm'. congruence. }
  destruct (arm_local i (get io i) l) as [[ok l'] f'] eqn:E. pose proof (arm_local_armed _ _ _ _ _ _ E) as Ha.
  pose proof (gesture_ok_arm _ _ _ _ _ _ _ _ _ E Hst) as [H1 H2]. destruct ok; cbn in *.
  - split; auto.
  - eapply gesture_ok_mono; [|split; eassumption]. now intros _ m Hm' _.
Qed.

Lemma takeover_gestures mode io fx i :
  gesture_ok (fun _ => True) (filled false) fx i ->
  gesture_ok (takeover_misses mode io) (armed (fst (takeover mode io fx))) (snd (takeover mode io fx)) i.
Proof.
  intros H0. unfold takeover. destruct (readMode mode) as [md|] eqn:Em.
  2:{ eapply gesture_ok_mono; [|exact H0]. intros _ m Hm. congruence. }
  assert (forall E j st, gesture_ok E (armed (fst st)) (snd st) i ->
    gesture_ok E (armed (fst (takeover_one md io st j))) (snd (takeover_one md io st j)) i) as Hone.
  { intros E j [l f] Hst. unfold takeover_one. case_goal; [exact Hst|].
    destruct (arm_local j (get io j) l) as [[ok l'] f'] eqn:Ea. eapply gesture_ok_arm; eauto. }
  cbn [fold_left indices]. destruct i; [apply Hone, takeover_self | apply takeover_self, Hone]; auto.
Qed.

Lemma idle_loop_gestures E now mode io l fx i :
  gesture_ok E (armed l) fx i ->
  gesture_ok E (is_armed (idle_loop now mode io l fx)) (is_fx (idle_loop now mode io l fx)) i.
Proof.
  intros H0.
  assert (forall s j, gesture_ok E (is_armed s) (is_fx s) i ->
    gesture_ok E (is_armed (idle_one now (want l) mode io s j))
      (is_fx (idle_one now (want l) mode io s j)) i) as Hone.
  { intros s j Hs. assert (is_armed (read_low_power mode s) = is_armed s /\
      is_fx (read_low_power mode s) = is_fx s) as [E1 E2].
    { unfold read_low_power. repeat case_goal; auto. }
    unfold idle_one. repeat case_goal; cbn; rewrite ?E1, ?E2; auto. now apply gesture_ok_off. }
  unfold idle_loop. cbn [fold_left indices]. apply Hone, Hone, H0.
Qed.

Lemma exit_gestures E io a fx i :
  gesture_ok E a fx i ->
  gesture_on before i (exit_writes io a fx) = true -> left_on E (exit_writes io a fx) i.
Proof.
  intros Hg. assert (gesture_ok E (filled false) (exit_writes io a fx) i) as [_ H2].
  { assert (forall b f j, gesture_ok E b f i -> gesture_ok E (set b j false)
      (if get b j then FWrite j false (writeNode (get io j) (off (kSensors j))) :: f else f) i) as Hone.
    { intros b f j Hb. destruct (get b j) eqn:Ej; [now apply gesture_ok_off|].
      rewrite <- Ej, set_same. exact Hb. }
    pose proof (Hone _ _ DoubleTap (Hone _ _ SingleTap Hg)) as Hx. destruct a; exact Hx. }
  intros Hon. specialize (H2 Hon) as [Hx|]; [now rewrite get_filled in Hx | assumption].
Qed.

(** A critical section adds no writes. *)
Definition adds_no_writes (fx0 fx : list effect) : Prop :=
  exists w, fx = w ++ fx0 /\ Forall (fun e => no_write e = true) w.
Lemma adds_no_writes_cons fx0 fx e :
  no_write e = true -> adds_no_writes fx0 fx -> adds_no_writes fx0 (e :: fx).
Proof. intros He (w & -> & Hw). exists (e :: w). split; [easy | now constructor]. Qed.
Lemma adds_no_writes_refl fx : adds_no_writes fx fx.
Proof. now exists []. Qed.
Hint Resolve adds_no_writes_refl adds_no_writes_cons : core.

Lemma fireEarly_no_writes c : adds_no_writes (sec_fx c) (sec_fx (fst (fireEarly clock c))).
Proof.
  assert (forall now i st fx0, adds_no_writes fx0 (sec_fx (fst st)) ->
    adds_no_writes fx0 (sec_fx (fst (fireEarly_one clock now st i)))) as Hone.
  { intros now i [c0 n] fx0 H0. unfold fireEarly_one, fireDue. repeat case_goal; cbn in *; auto. }
  unfold fireEarly. cbn [fold_left indices]. apply Hone, Hone. cbn; auto.
Qed.

Lemma report_no_writes g c c' :
  report_locked clock g c = Some c' -> adds_no_writes (sec_fx c) (sec_fx c').
Proof.
  assert (forall i c0 fx0, adds_no_writes fx0 (sec_fx c0) ->
    adds_no_writes fx0 (sec_fx (report_one clock g c0 i))) as Hone.
  { intros i c0 fx0 H0. unfold report_one. repeat case_goal; cbn in *; auto. }
  unfold report_locked. case_goal; intros [= <-]. cbn [fold_left indices]. apply Hone, Hone; auto.
Qed.

Definition gestures_inv (E : index -> Prop) (s : tap) : Prop :=
  (at_ s = AtStart -> armed (loc s) = filled false /\
     forall i, gesture_ok (fun _ => True) (armed (loc s)) (trace s) i) /\
  (at_ s <> AtStart -> at_ s <> AtDone -> forall i, gesture_ok E (armed (loc s)) (trace s) i) /\
  (at_ s = AtDone -> forall i, gesture_on before i (trace s) = true -> left_on E (trace s) i).

(** Steps of the running thread that leave the gestures alone. *)
Lemma gestures_inv_run E s s' :
  (forall i, gesture_ok E (armed (loc s)) (trace s) i) ->
  at_ s' <> AtStart -> at_ s' <> AtDone ->
  armed (loc s') = armed (loc s) -> adds_no_writes (trace s) (trace s') -> gestures_inv E s'.
Proof.
  intros Hg H1 H2 Ea (w & Ew & Hw). split; [easy|]. split; [|easy].
  intros _ _ i. rewrite Ea, Ew. now apply gesture_ok_app.
Qed.

Lemma post_no_writes cb es fx : adds_no_writes fx (post cb es ++ fx).
Proof. unfold post. repeat case_goal; cbn; auto. Qed.

Lemma step_gestures E s lb s' :
  (forall mode io i, lb = Takeover mode io -> takeover_misses mode io i -> E i) ->
  wake_inv s -> gestures_inv E s -> tap_step clock s lb = Some s' -> gestures_inv E s'.
Proof.
  intros HE (_ & Hr & _) Hs Hstep. pose proof Hs as (H1 & H2 & H3).
  destruct lb; step_cases Hstep; try exact Hs;
    try (assert (forall i, gesture_ok E (armed (loc s)) (trace s) i) as Hg
           by (apply H2; discriminate));
    try (apply (gestures_inv_run E s); cbn; auto; discriminate).
  - unfold step_initialize. destruct (joinable s) eqn:Ej; [exact Hs|].
    assert (at_ s = AtStart) as Ea by (destruct (at_ s); auto; discriminate Hr; discriminate).
    rewrite Ea in *. destruct eventfd_ok; (split; [exact H1 | split; [exact H2 | discriminate]]).
  - destruct (H1 eq_refl) as [Ea Hg]. pose proof (takeover_gestures mode io (trace s)) as Ht. rewrite Heqp0 in Ht.
    split; [discriminate|]. split; [|discriminate]. intros _ _ i.
    apply (gesture_ok_mono (takeover_misses mode io)); [now apply HE|]. apply Ht.
    rewrite <- Ea. apply Hg.
  - unfold step_top. pose proof (fireEarly_no_writes (Sec (mem s) (ticks s) [] (trace s))) as Hw.
    destruct (fireEarly clock _) as [c due]. cbn in Hw.
    apply (gestures_inv_run E s); cbn; auto; discriminate.
  - unfold step_post_early, hold_wakelock.
    repeat case_goal; apply (gestures_inv_run E s); cbn; auto using post_no_writes; discriminate.
  - unfold step_arm. case_goal; [apply (gestures_inv_run E s); cbn; auto; discriminate|].
    destruct (arm_local _ _ _) as [[ok l'] fx] eqn:Ea.
    split; [now destruct ok|]. split; [|now destruct ok].
    intros _ _ j. eapply gesture_ok_arm; eauto.
  - split; [discriminate|]. split; [|discriminate]. intros _ _ i.
    now apply idle_loop_gestures.
  - unfold step_publish. case_goal; apply (gestures_inv_run E s); cbn; auto; discriminate.
  - apply step_poll_frame in Hstep as (_ & E2 & E3 & _ & _ & _ & _ & Ha).
    apply (gestures_inv_run E s); rewrite ?E2, ?E3; auto; destruct Ha as [-> | (? & ->)]; discriminate.
  - unfold step_report. destruct (report_locked clock gestures _) as [c|] eqn:Er;
      [apply report_no_writes in Er|]; apply (gestures_inv_run E s); cbn; auto; discriminate.
  - apply (gestures_inv_run E s); cbn; auto using post_no_writes; discriminate.
  - split; [discriminate|]. split; [easy|]. intros _ i. cbn. apply exit_gestures. apply Hg.
Qed.

(** The takeover of the run could not have the gesture. *)
Definition missed_in (ls : list label) (i : index) : Prop :=
  exists mode io, Takeover mode io ∈ ls /\ takeover_misses mode io i.

Lemma run_gestures ls s :
  tap_run clock tap_init ls = Some s -> wake_inv s /\ gestures_inv (missed_in ls) s.
Proof.
  assert (forall ls0 s0, (forall lb, lb ∈ ls0 -> lb ∈ ls) -> wake_inv s0 -> gestures_inv (missed_in ls) s0 ->
    tap_run clock s0 ls0 = Some s -> wake_inv s /\ gestures_inv (missed_in ls) s) as Hind.
  { induction ls0 as [|lb ls0 IH]; intros s0 Hin Hw Hg; cbn [tap_run]; [now intros [= <-]|].
    destruct (tap_step clock s0 lb) as [s1|] eqn:E1; [|discriminate]. apply IH; [intros; apply Hin; now right | |].
    - eapply step_wake; eauto.
    - eapply step_gestures; eauto. intros mode io i -> Hm. exists mode, io. split; [apply Hin; left | exact Hm]. }
  apply Hind; [auto | now apply (run_wake []) |]. split; [|split; [easy | discriminate]].
  intros _. split; [reflexivity|]. intros i. split; [now destruct i|]. intros Hb. right. right. auto.
Qed.
End Gestures.

(** ** The idle rule *)

(** The pass saw the gesture on in low power with its sensor inactive. *)
Definition idle_pass (i : index) (p : pass) : bool :=
  get (p_armed p) i && negb (get (p_want p) i) && p_low p.

(** When the current run of idle passes began, 0 if there is none. *)
Fixpoint streak_start (i : index) (ps : list pass) : Z :=
  match ps with
  | [] => 0
  | p :: ps =>
      if idle_pass i p && negb (get (p_off p) i)
      then if streak_start i ps =? 0 then p_now p else streak_start i ps
      else 0
  end.

(** Bit 0 of the mode, false when it cannot be read. *)
Definition low_of (mode : option string) : bool :=
  match readMode mode with
  | Some current => negb (Z.land current 1 =? 0)
  | None => false
  end.

(** One round of the loop, on the sensor it looks at. *)
Definition idle_round (now : Z) (want : arr bool) (low : bool) (i : index) (s s' : idle_state)
  : Prop :=
  let unused := get (is_armed s) i && negb (get want i) && low in
  let over := unused && negb (get (is_since s) i =? 0) &&
              (kIdleNs <=? now - get (is_since s) i) in
  is_off s' = (if over then set (is_off s) i true else is_off s) /\
  is_armed s' = (if over then set (is_armed s) i false else is_armed s) /\
  is_since s' = set (is_since s) i
    (if unused && negb over
     then if get (is_since s) i =? 0 then now else get (is_since s) i
     else 0).

Lemma idle_one_spec now want mode io s i :
  is_low s = is_read s && low_of mode ->
  let s' := idle_one now want mode io s i in
  is_low s' = is_read s' && low_of mode /\
  (is_read s = true \/ get (is_armed s) i && negb (get want i) = true -> is_read s' = true) /\
  idle_round now want (low_of mode) i s s'.
Proof.
  intros Hl. cbn zeta. unfold idle_one, idle_round.
  destruct (get (is_armed s) i) eqn:Ea, (get want i) eqn:Ew; cbn [negb orb andb];
    try (cbn; rewrite Hl; intuition congruence).
  assert (read_low_power mode s =
    {| is_armed := is_armed s; is_since := is_since s; is_idle := is_idle s;
       is_low := low_of mode; is_read := true;
       is_failed := is_failed (read_low_power mode s); is_off := is_off s; is_fx := is_fx s |}) as ->.
  { unfold read_low_power, low_of in *. destruct s as [? ? ? ? [] ? ? ?]; cbn in *; [now subst|].
    destruct (readMode mode); now rewrite ?Hl. }
  cbn [is_low is_since]. destruct (low_of mode); cbn [negb andb]; [|cbn; auto].
  destruct (get (is_since s) i =? 0) eqn:S0; cbn [negb andb]; [cbn; auto|].
  destruct (kIdleNs <=? now - get (is_since s) i); cbn; auto.
Qed.

Lemma idle_round_other now want low i j s s' :
  idle_round now want low i s s' -> i <> j ->
  get (is_off s') j = get (is_off s) j /\ get (is_armed s') j = get (is_armed s) j /\
  get (is_since s') j = get (is_since s) j.
Proof.
  intros (-> & -> & ->) Hne. rewrite get_set_ne by assumption.
  case_goal; now rewrite ?get_set_ne by assumption.
Qed.

Lemma idle_round_self now want low i s s' :
  idle_round now want low i s s' -> get (is_off s) i = false ->
  let unused := get (is_armed s) i && negb (get want i) && low in
  let over := unused && negb (get (is_since s) i =? 0) &&
              (kIdleNs <=? now - get (is_since s) i) in
  get (is_off s') i = over /\ get (is_armed s') i = get (is_armed s) i && negb over /\
  get (is_since s') i =
    (if unused && negb over
     then if get (is_since s) i =? 0 then now else get (is_since s) i
     else 0).
Proof.
  intros (-> & -> & ->) Hoff. cbn zeta. rewrite get_set_eq. split; [|split; [|reflexivity]].
  - now case_goal; rewrite ?get_set_eq.
  - case_goal; rewrite ?get_set_eq; [now rewrite andb_false_r | now rewrite andb_true_r].
Qed.

(** The loop computes start and end of the runs. *)
Lemma idle_loop_since now mode io l fx i :
  let s' := idle_loop now mode io l fx in
  let unused := get (armed l) i && negb (get (want l) i) && is_low s' in
  let over := unused && negb (get (idleSince l) i =? 0) &&
              (kIdleNs <=? now - get (idleSince l) i) in
  get (is_off s') i = over /\
  get (is_armed s') i = get (armed l) i && negb over /\
  get (is_since s') i =
    (if unused && negb over
     then if get (idleSince l) i =? 0 then now else get (idleSince l) i
     else 0).
Proof.
  cbn zeta. unfold idle_loop. cbn [fold_left indices]. set (s0 := {| is_armed := armed l |}).
  destruct (idle_one_spec now (want l) mode io s0 SingleTap eq_refl) as (L1 & R1 & I1).
  set (s1 := idle_one _ _ _ _ s0 SingleTap) in *.
  destruct (idle_one_spec now (want l) mode io s1 DoubleTap L1) as (L2 & R2 & I2).
  set (s2 := idle_one _ _ _ _ s1 DoubleTap) in *. clearbody s1 s2.
  destruct i.
  - destruct (idle_round_other _ _ _ _ SingleTap _ _ I2) as (-> & -> & ->); [discriminate|].
    assert (get (armed l) SingleTap && negb (get (want l) SingleTap) && is_low s2 =
            get (armed l) SingleTap && negb (get (want l) SingleTap) && low_of mode) as ->.
    { destruct (get (armed l) SingleTap && _) eqn:E; [|reflexivity].
      rewrite L2, R2; [reflexivity|]. left. apply R1. now right. }
    exact (idle_round_self _ _ _ _ _ _ I1 eq_refl).
  - destruct (idle_round_other _ _ _ _ DoubleTap _ _ I1) as (E1 & E2 & E3); [discriminate|].
    assert (get (armed l) DoubleTap && negb (get (want l) DoubleTap) && is_low s2 =
            get (armed l) DoubleTap && negb (get (want l) DoubleTap) && low_of mode) as ->.
    { destruct (get (armed l) DoubleTap && _) eqn:E; [|reflexivity].
      rewrite L2, R2; [reflexivity|]. right. now rewrite E2. }
    pose proof (idle_round_self _ _ _ _ _ _ I2 E1) as Hs. cbn zeta in Hs.
    rewrite E2, E3 in Hs. exact Hs.
Qed.

(** The last pass left the gesture on. *)
Definition kept (i : index) (ps : list pass) : Prop :=
  match ps with
  | [] => True
  | q :: _ => get (p_armed q) i = true /\ get (p_off q) i = false
  end.
Definition head_before (t : Z) (ps : list pass) : Prop :=
  match ps with [] => True | q :: _ => p_now q <= t end.

Fixpoint passes_ok (i : index) (ps : list pass) : Prop :=
  match ps with
  | [] => True
  | p :: ps =>
      0 < p_now p /\ head_before (p_now p) ps /\
      get (p_off p) i = idle_pass i p && negb (streak_start i ps =? 0) &&
                        (kIdleNs <=? p_now p - streak_start i ps) /\
      (get (p_armed p) i = true -> get (p_want p) i = false -> kept i ps) /\
      passes_ok i ps
  end.

(** Places where a pass may have armed what it found wanted. *)
Definition arming (p : place) : bool :=
  match p with AtPostEarly | AtArm _ | AtGiveUp _ _ | AtIdle => true | _ => false end.

Definition idle_inv (s : tap) : Prop :=
  (at_ s = AtStart -> passes s = []) /\
  head_before (clock (ticks s)) (passes s) /\
  forall i, passes_ok i (passes s) /\
    get (idleSince (loc s)) i = streak_start i (passes s) /\
    (get (armed (loc s)) i = true ->
       kept i (passes s) \/ (arming (at_ s) = true /\ get (want (loc s)) i = true)).

Lemma head_before_mono t t' ps : t <= t' -> head_before t ps -> head_before t' ps.
Proof. destruct ps; cbn; [easy | lia]. Qed.

(** Steps that leave passes and gestures alone. *)
Lemma idle_inv_same s s' :
  idle_inv s -> at_ s' <> AtStart -> (ticks s <= ticks s')%nat -> passes s' = passes s ->
  idleSince (loc s') = idleSince (loc s) -> armed (loc s') = armed (loc s) ->
  (arming (at_ s) = true -> arming (at_ s') = true /\ want (loc s') = want (loc s)) ->
  idle_inv s'.
Proof.
  intros (_ & H2 & H3) Ha Ht Ep Ei Er Hm. unfold idle_inv. rewrite Ep, Ei, Er.
  split; [easy|]. split; [exact (head_before_mono _ _ _ (clock_le _ _ Ht) H2)|].
  intros i. destruct (H3 i) as (Hp & Hs & Hk). split; [exact Hp|]. split; [exact Hs|].
  intros Hi. destruct (Hk Hi) as [|[Hr Hw]]; [auto|].
  destruct (Hm Hr) as [? ->]. auto.
Qed.

Lemma step_idle_idle mode io s :
  idle_inv s -> idle_inv (step_idle clock mode io s).
Proof.
  intros (_ & H2 & H3). split; [discriminate|]. unfold step_idle.
  cbn [ticks passes]. split; [apply clock_mono|]. intros i.
  destruct (H3 i) as (Hp & Hs & Hk).
  pose proof (idle_loop_since (clock (ticks s)) mode io (loc s) (trace s) i) as (Eo & Ea & Es).
  cbn [loc at_ with_idle armed idleSince arming]. rewrite Hs in *.
  split; [|split].
  - cbn [passes_ok p_now p_off p_armed p_want]. split; [apply clock_pos|]. split; [exact H2|].
    split; [exact Eo|]. split; [|exact Hp].
    intros Ha Hw. destruct (Hk Ha) as [|[_ Hx]]; [assumption | congruence].
  - cbn [streak_start p_off p_now]. unfold idle_pass. cbn [p_armed p_want p_low].
    rewrite Es, Eo. reflexivity.
  - intros Hx. left. cbn [kept p_armed p_off]. rewrite Eo. rewrite Ea in Hx.
    apply andb_true_iff in Hx as [? Hx]. now apply negb_true_iff in Hx.
Qed.

Lemma report_ticks g c c' :
  report_locked clock g c = Some c' -> (sec_k c <= sec_k c')%nat.
Proof.
  assert (forall i c0, (sec_k c0 <= sec_k (report_one clock g c0 i))%nat) as Hone.
  { intros i c0. unfold report_one. repeat case_goal; cbn; lia. }
  unfold report_locked. case_goal; intros [= <-]. cbn [fold_left indices].
  etransitivity; apply Hone.
Qed.

Lemma step_idle_inv s lb s' :
  wake_inv s -> idle_inv s -> tap_step clock s lb = Some s' -> idle_inv s'.
Proof.
  intros (_ & Hr & _) Hs Hstep. pose proof Hs as (H1 & H2 & H3).
  destruct lb; step_cases Hstep; try exact Hs;
    try (apply (idle_inv_same s); cbn; auto; congruence);
    try (apply (idle_inv_same s); rewrite ?Heqp; cbn; auto; congruence).
  - unfold step_initialize. destruct (joinable s) eqn:Ej; [exact Hs|].
    assert (at_ s = AtStart) as Ea by (destruct (at_ s); auto; discriminate Hr; discriminate).
    rewrite Ea in *. destruct eventfd_ok; (split; [exact H1 | split; [exact H2 | exact H3]]).
  - destruct (takeover_frame mode io (trace s)) as (a & fd & Ef). rewrite Heqp0 in Ef.
    cbn in Ef. subst l. specialize (H1 eq_refl).
    split; [discriminate|]. cbn. rewrite H1. split; [exact I|]. intros i.
    split; [exact I|]. split; [now destruct i | cbn; auto].
  - unfold step_top. pose proof (fireEarly_ticks (Sec (mem s) (ticks s) [] (trace s))) as Ht.
    destruct (fireEarly clock _) as [c due]. cbn in Ht.
    apply (idle_inv_same s); rewrite ?Heqp; cbn; auto; congruence.
  - unfold step_post_early. destruct (hold_wakelock (loc s)).
    apply (idle_inv_same s); rewrite ?Heqp; cbn; auto; congruence.
  - unfold step_arm. destruct (negb _ || _) eqn:Es;
      [apply (idle_inv_same s); rewrite ?Heqp; cbn; auto; congruence|].
    apply orb_false_iff in Es as [Es _]. apply negb_false_iff in Es.
    destruct (arm_local i io (loc s)) as [[ok l'] fx] eqn:E.
    apply arm_local_frame in E as (fd & ->).
    split; [now destruct ok|]. split; [exact H2|]. intros j. destruct (H3 j) as (Hp & Hsi & Hk).
    split; [exact Hp|]. split; [exact Hsi|]. cbn [loc with_arm armed want at_ passes].
    intros Hj. destruct (decide (i = j)) as [<-|Hne]; [right; now destruct ok|].
    assert (get (armed (loc s)) j = true) as Hj' by (destruct ok; [now rewrite get_set_ne in Hj|]; exact Hj).
    destruct (Hk Hj') as [|[_ Hw]]; [auto|]. right. split; [now destruct ok | exact Hw].
  - now apply step_idle_idle.
  - unfold step_publish. case_goal; apply (idle_inv_same s); rewrite ?Heqp; cbn;
      try congruence; auto. case_goal; lia.
  - apply step_poll_frame in Hstep as (_ & E2 & _ & E4 & E5 & _ & _ & Ha).
    apply (idle_inv_same s); rewrite ?E2, ?E4, ?E5, ?Heqp; auto; try discriminate.
    now destruct Ha as [-> | (? & ->)].
  - unfold step_report. destruct (report_locked clock gestures _) as [c|] eqn:E;
      [apply report_ticks in E|]; apply (idle_inv_same s); rewrite ?Heqp; cbn; auto; congruence.
Qed.

Lemma run_idle ls s : tap_run clock tap_init ls = Some s -> wake_inv s /\ idle_inv s.
Proof.
  apply (tap_run_inv (fun s => wake_inv s /\ idle_inv s)).
  - intros s0 lb s0' [Hw Hg] E. split; [eapply step_wake | eapply step_idle_inv]; eauto.
  - split; [now apply (run_wake [])|]. split; [reflexivity|]. split; [exact I|].
    intros i. split; [exact I|]. split; now destruct i.
Qed.

(** ** Runs of idle passes *)

Lemma passes_ok_app i a b : passes_ok i (a ++ b) -> passes_ok i b.
Proof. induction a as [|p a IH]; cbn; tauto. Qed.

(** A pass that turned a gesture off is followed by none that finds it idle. *)
Lemma idle_pass_kept i p ps : passes_ok i (p :: ps) -> idle_pass i p = true -> kept i ps.
Proof.
  intros (_ & _ & _ & Hk & _) Hp. unfold idle_pass in Hp. boolprop. auto.
Qed.

(** A run of idle passes that reaches back to [q]. *)
Lemma streak_covers i c q d :
  passes_ok i (c ++ q :: d) -> Forall (fun p => idle_pass i p = true) (c ++ [q]) ->
  kept i (c ++ q :: d) ->
  0 < streak_start i (c ++ q :: d) <= p_now q.
Proof.
  induction c as [|p c IH]; cbn [app]; intros Hok Hall Hk.
  - apply Forall_cons in Hall as [Hq _]. pose proof Hok as (Hpos & Hb & _ & _ & Hd).
    cbn in Hk. cbn [streak_start]. rewrite Hq. destruct Hk as [_ ->]. cbn [negb andb].
    destruct (streak_start i d =? 0) eqn:E; [lia|]. boolprop.
    clear - E Hd Hb. revert Hb E. generalize (p_now q). induction d as [|r d IHd]; intros t Hb E; cbn in *; [lia|].
    destruct Hd as (Hr1 & Hr2 & _ & _ & Hr3).
    destruct (idle_pass i r && negb (get (p_off r) i)); [|lia].
    destruct (streak_start i d =? 0) eqn:E0; [lia|]. boolprop.
    specialize (IHd Hr3 (p_now r) Hr2 E0). lia.
  - apply Forall_cons in Hall as [Hp Hall]. pose proof (idle_pass_kept _ _ _ Hok Hp) as Hk'.
    pose proof Hok as (_ & _ & _ & _ & Hok'). specialize (IH Hok' Hall Hk').
    cbn [streak_start]. rewrite Hp. cbn in Hk. destruct Hk as [_ ->]. cbn [negb andb].
    destruct (streak_start i (c ++ q :: d) =? 0) eqn:E; boolprop; lia.
Qed.

(** The start of a run is the time of a pass of the run. *)
Lemma streak_start_pass i ps :
  streak_start i ps <> 0 -> exists c q d, ps = c ++ q :: d /\
    Forall (fun p => idle_pass i p = true) (c ++ [q]) /\ p_now q = streak_start i ps.
Proof.
  induction ps as [|p ps IH]; cbn [streak_start]; [easy|].
  destruct (idle_pass i p) eqn:Hp; cbn [andb]; [|easy].
  destruct (get (p_off p) i); cbn [negb]; [easy|].
  destruct (streak_start i ps =? 0) eqn:E; boolprop; intros Hne.
  - exists [], p, ps. split; [reflexivity|]. split; [now repeat constructor | reflexivity].
  - destruct (IH E) as (c & q & d & -> & Hall & Hq). exists (p :: c), q, d.
    split; [reflexivity|]. split; [now constructor | exact Hq].
Qed.

(** ** Stopping *)

(** The labels of the thread. *)
Definition thread_label (lb : label) : bool :=
  match lb with
  | Initialize _ _ | SetOperationMode _ | Activate _ _ | Destroy | WakeThread => false
  | _ => true
  end.

(** How many steps the thread has left at most once [mStop] is set. *)
Definition rank (p : place) : nat :=
  match p with
  | AtDone => 0
  | AtTop => 1
  | AtStart | AtPost _ _ => 2
  | AtReport _ => 3
  | AtPoll _ => 4
  | AtPublish => 5
  | AtIdle => 6
  | AtArm todo => 7 + 2 * length todo
  | AtGiveUp _ todo => 8 + 2 * length todo
  | AtPostEarly => 12
  end.

Lemma step_rank s lb s' :
  thread_label lb = true -> mStop (mem s) = true -> tap_step clock s lb = Some s' ->
  (rank (at_ s') < rank (at_ s))%nat /\ mStop (mem s') = true /\
  wakers s' = wakers s /\ joinable s' = joinable s.
Proof.
  intros Hl Hm Hstep.
  destruct lb; try discriminate Hl; clear Hl; step_cases Hstep; rewrite ?Heqp; cbn; auto with lia.
  - boolprop. congruence.
  - unfold step_post_early. destruct (hold_wakelock (loc s)). cbn. auto with lia.
  - unfold step_arm. case_goal; [cbn; auto with lia|].
    destruct (arm_local _ _ _) as [[[] l'] fx]; cbn; auto with lia.
  - unfold step_publish. case_goal; cbn; auto with lia.
  - apply step_poll_frame in Hstep as (E1 & _ & _ & _ & _ & E6 & E7 & Ha).
    rewrite E1, E6, E7. destruct Ha as [-> | (? & ->)]; cbn; auto with lia.
  - unfold step_report. destruct (report_locked clock gestures _) as [c|] eqn:E; cbn; auto with lia.
    split; [lia|]. split; [|auto].
    assert (forall i c0, mStop (sec_m (report_one clock gestures c0 i)) = mStop (sec_m c0)) as Hone.
    { intros i c0. unfold report_one. repeat case_goal; reflexivity. }
    revert E. unfold report_locked. case_goal; intros [= <-]. cbn [fold_left indices].
    now rewrite !Hone.
Qed.

(** A stopped object whose waker has run has the eventfd signalled at [poll]. *)
Lemma stop_poll_ready s t :
  wake_inv s -> mStop (mem s) = true -> wakers s = O -> at_ s = AtPoll t -> wakeFd s = Some true.
Proof.
  intros (_ & _ & _ & H4) Hm Hw Ha. rewrite Ha in H4. destruct (H4 _ eq_refl) as [_ Hq].
  destruct (decide (wakeFd s = Some true)) as [E|Hne]; [exact E|].
  destruct Hq as [Hx _]; [split; assumption | congruence].
Qed.

Lemma stop_progress s :
  wake_inv s -> mStop (mem s) = true -> wakers s = O -> joinable s = true -> at_ s <> AtDone ->
  exists lb s', thread_label lb = true /\ tap_step clock s lb = Some s'.
Proof.
  intros Hwi Hm Hw Hj Hd.
  set (io := {| io_open := true; io_report := None; io_write := None |}).
  destruct (at_ s) eqn:Ea.
  - destruct (takeover None (filled io) (trace s)) as [l fx] eqn:E.
    exists (Takeover None (filled io)). cbn [tap_step]. rewrite Ea, Hj, E. eauto.
  - exists (Exit (filled None)). cbn. unfold wait_over. rewrite Ea, Hm. eauto.
  - exists PostEarly. cbn. rewrite Ea. eauto.
  - exists (ArmNext io). cbn. rewrite Ea. destruct todo; eauto.
  - exists GiveUp. cbn. rewrite Ea. eauto.
  - exists (Idle None (filled None)). cbn. rewrite Ea. eauto.
  - exists Publish. cbn. rewrite Ea. eauto.
  - exists (Poll false true false None). cbn. rewrite Ea. unfold step_poll.
    rewrite bool_decide_true by (eapply stop_poll_ready; eassumption). cbn. eauto.
  - exists Report. cbn. rewrite Ea. eauto.
  - exists Post. cbn. rewrite Ea. eauto.
  - easy.
Qed.

Lemma stop_run ls s s' :
  Forall (fun lb => thread_label lb = true) ls -> mStop (mem s) = true ->
  tap_run clock s ls = Some s' ->
  (length ls + rank (at_ s') <= rank (at_ s))%nat /\ mStop (mem s') = true /\
  wakers s' = wakers s /\ joinable s' = joinable s.
Proof.
  intros Hall. revert s. induction Hall as [|lb ls Hl Hall IH]; intros s Hm; cbn [tap_run].
  - intros [= <-]. auto with lia.
  - destruct (tap_step clock s lb) as [s1|] eqn:E; [|discriminate].
    apply step_rank in E as (Hr & Hm1 & E1 & E2); try assumption.
    intros Hrun. apply IH in Hrun as (? & ? & ? & ?); [|assumption]. cbn. auto with lia congruence.
Qed.

Lemma tap_run_app ls1 ls2 s :
  tap_run clock s (ls1 ++ ls2) =
  match tap_run clock s ls1 with Some s1 => tap_run clock s1 ls2 | None => None end.
Proof.
  revert s. induction ls1 as [|lb ls IH]; intros s; cbn; [reflexivity|].
  destruct (tap_step clock s lb); [apply IH | reflexivity].
Qed.

(** ** Taps on an active sensor *)

(** A report fires each active sensor whose bit it has, once. *)
Lemma report_fires g c c' i :
  report_locked clock g c = Some c' -> Z.land g (reportBit (kSensors i)) <> 0 ->
  get (mWantArmed (sec_m c)) i = true ->
  count_events i (sec_events c') = S (count_events i (sec_events c)) /\
  get (mWantArmed (sec_m c')) i = false /\
  get (mReported (sec_m c')) i = u32 (get (mReported (sec_m c)) i + 1) /\
  mCallback (sec_m c') = mCallback (sec_m c).
Proof.
  assert (forall c j, i <> j ->
    let c' := report_one clock g c j in
    count_events i (sec_events c') = count_events i (sec_events c) /\
    get (mWantArmed (sec_m c')) i = get (mWantArmed (sec_m c)) i /\
    get (mReported (sec_m c')) i = get (mReported (sec_m c)) i /\
    mCallback (sec_m c') = mCallback (sec_m c)) as Hother.
  { intros c0 j Hne. cbn zeta. unfold report_one. repeat case_goal; cbn; auto.
    rewrite count_events_app, !get_set_ne by congruence. destruct i, j; cbn; auto with lia; congruence. }
  assert (forall c, Z.land g (reportBit (kSensors i)) <> 0 -> get (mWantArmed (sec_m c)) i = true ->
    let c' := report_one clock g c i in
    count_events i (sec_events c') = S (count_events i (sec_events c)) /\
    get (mWantArmed (sec_m c')) i = false /\
    get (mReported (sec_m c')) i = u32 (get (mReported (sec_m c)) i + 1) /\
    mCallback (sec_m c') = mCallback (sec_m c)) as Hself.
  { intros c0 Hb Hw. cbn zeta. unfold report_one. apply Z.eqb_neq in Hb. rewrite Hb, Hw. cbn.
    rewrite count_events_app, !get_set_eq. destruct i; cbn; auto with lia. }
  unfold report_locked. case_goal; intros [= <-] Hb Hw. cbn [fold_left indices].
  destruct i.
  - destruct (Hother (report_one clock g c SingleTap) DoubleTap) as (-> & -> & -> & ->); [easy|].
    now apply Hself.
  - destruct (Hother c SingleTap) as (E1 & E2 & E3 & E4); [easy|].
    destruct (Hself (report_one clock g c SingleTap)) as (-> & -> & -> & ->); [exact Hb | congruence|].
    rewrite E1, E3, E4. auto.
Qed.
End Runs.

(** ** Properties *)

(** C2. One-shot sensors, for every interleaving of calls, thread and kernel
    answers: the events handed to the framework for a sensor, with one more while
    the sensor is active, are at most as many as the calls that activated it. *)
Theorem one_event_per_activation `{SensorsHal} (clock : nat -> Z) (ls : list label) (s : tap)
    (i : index) :
  tap_run clock tap_init ls = Some s ->
  (events_out i (trace s) + b2n (get (mWantArmed (mem s)) i) <= activations i ls)%nat.
Proof.
  intros Hrun. apply (run_sum clock i) in Hrun. unfold tap_sum in Hrun.
  change (events_out i (trace tap_init)) with O in Hrun.
  replace (b2n (get (mWantArmed (mem tap_init)) i)) with O in Hrun by (now destruct i).
  cbn in Hrun. lia.
Qed.

(** A held tap is always a double tap, goes out at most once and is the latest one
    seen; it is scheduled at most [kEarlyNs] after it was seen, and goes out not before
    and at most [kEarlyDelayNs] after its due time, [kEarlyDelayNs] after scheduling. *)
Theorem held_tap_on_time `{SensorsHal} (clock : nat -> Z) (ls : list label) (s : tap)
    (after before : list effect) (i : index) (seen due now : Z) :
  (forall n, 0 < clock n) -> (forall n, clock n <= clock (S n)) ->
  tap_run clock tap_init ls = Some s ->
  trace s = after ++ FFireHeld i seen due now :: before ->
  i = DoubleTap /\ pending_hold i before = Some seen /\
  seen <= due - kEarlyDelayNs <= seen + kEarlyNs /\
  due <= now <= due + kEarlyDelayNs.
Proof.
  intros Hp Hm Hrun Ht. apply run_holds in Hrun as [_ Ho]; try assumption.
  rewrite Ht in Ho. apply holds_ok_app in Ho as [(E & Hh & Hd & Hn) _].
  unfold due_for in Hd. auto with lia.
Qed.

(** C18. The thread never blocks in [poll] with work undone: when no call is on its way to
    the wake descriptor and the descriptor is not readable, the object is not being
    stopped and every active sensor has its gesture on.  The timeout is in range, and
    when it is infinite exactly the active sensors have their gesture on and no held
    tap is scheduled. *)
Theorem no_lost_wakeup `{SensorsHal} (clock : nat -> Z) (ls : list label) (s : tap) (t : Z) :
  (forall n, 0 < clock n) ->
  tap_run clock tap_init ls = Some s -> at_ s = AtPoll t ->
  -1 <= t <= kIdleCheckMs /\
  (wakers s = O -> wakeFd s <> Some true ->
   mStop (mem s) = false /\
   (forall i, get (mWantArmed (mem s)) i = true -> get (armed (loc s)) i = true) /\
   (t = -1 -> forall i, get (armed (loc s)) i = get (mWantArmed (mem s)) i /\
                        get (mEarlyDue (mem s)) i = 0)).
Proof.
  intros Hp Hrun Ha. pose proof (run_wake clock _ _ Hrun) as (_ & _ & _ & Hw).
  pose proof (run_pass clock Hp _ _ Hrun) as (Hd & Hi & Ht).
  destruct (Ht t Ha) as (now & ->). split; [apply poll_timeout_range|].
  intros Hq1 Hq2. rewrite Ha in Hw. destruct (Hw _ eq_refl) as [_ Hq].
  destruct Hq as [Hs Hok]; [split; assumption|]. split; [exact Hs|].
  assert (forall i, get (mWantArmed (mem s)) i = true -> get (armed (loc s)) i = true) as Hall.
  { intros i Hw1. destruct (proj1 (Hok i) Hw1) as [_ [Hx|]]; [now apply elem_of_nil in Hx | assumption]. }
  split; [exact Hall|]. intros Hf i. apply poll_timeout_forever in Hf as [Hidle Hdue].
  split; [|apply Hd; [now rewrite Ha | exact Hdue]].
  destruct (get (armed (loc s)) i) eqn:Ea, (get (mWantArmed (mem s)) i) eqn:Ew;
    try reflexivity; [|now rewrite Hall in Ea].
  destruct (proj2 (Hok i) Ew) as [Hx _]; [|congruence]. eapply Hi; eauto.
Qed.

(** The idle rule is exact: a pass turns a gesture off if and only if it and every
    pass back to one at least [kIdleNs] older found the gesture on in low power with
    its sensor inactive. *)
Theorem gesture_off_iff_idle `{SensorsHal} (clock : nat -> Z) (ls : list label) (s : tap)
    (later earlier : list pass) (p : pass) (i : index) :
  (forall n, 0 < clock n) -> (forall n, clock n <= clock (S n)) ->
  tap_run clock tap_init ls = Some s -> passes s = later ++ p :: earlier ->
  get (p_off p) i = true <->
  idle_pass i p = true /\ exists c q d, earlier = c ++ q :: d /\
    Forall (fun r => idle_pass i r = true) (c ++ [q]) /\ kIdleNs <= p_now p - p_now q.
Proof.
  intros Hp Hm Hrun Hps. apply run_idle in Hrun as [_ (_ & _ & Hi)]; try assumption.
  destruct (Hi i) as (Hok & _ & _). rewrite Hps in Hok. apply passes_ok_app in Hok.
  pose proof Hok as (_ & _ & Eo & _ & Hok'). rewrite Eo, !andb_true_iff, negb_true_iff,
    Z.eqb_neq, Z.leb_le. split.
  - intros [[Hidle Hs] Ht]. split; [exact Hidle|].
    destruct (streak_start_pass i earlier Hs) as (c & q & d & -> & Hall & Eq).
    exists c, q, d. rewrite Eq. auto.
  - intros [Hidle (c & q & d & -> & Hall & Ht)].
    pose proof (streak_covers i c q d Hok' Hall (idle_pass_kept _ _ _ Hok Hidle)).
    split; [split; [exact Hidle | lia] | lia].
Qed.

(** C22. Destroying the object ends the thread: once [mStop] is set and the waker has
    run, the thread takes at most 12 more steps whatever the kernel answers, and always
    has a next step until it is done ([poll] has the eventfd to return for).  When it is
    done, however the gestures were in the controller when the object was made ([before],
    on if the process crashed with them on), a gesture is still on only if a write that was
    to turn it off failed, or if it was on before and the object never had it: no write that
    turns it on succeeded and the takeover of this run could not have it (the mode could not
    be read or did not show it, or the report could not be opened or read, or the write
    failed). *)
Theorem stop_terminates `{SensorsHal} (clock : nat -> Z) (before : index -> bool)
    (ls ls' : list label) (s s' : tap) :
  tap_run clock tap_init ls = Some s ->
  mStop (mem s) = true -> wakers s = O -> joinable s = true ->
  Forall (fun lb => thread_label lb = true) ls' -> tap_run clock s ls' = Some s' ->
  (length ls' <= 12)%nat /\
  (at_ s' <> AtDone -> exists lb s'', thread_label lb = true /\ tap_step clock s' lb = Some s'') /\
  (forall t, at_ s' = AtPoll t -> wakeFd s' = Some true) /\
  (at_ s' = AtDone -> forall i, gesture_on before i (trace s') = true ->
     off_failed i (trace s') = true \/
     before i = true /\ never_armed i (trace s') = true /\
       exists mode io, Takeover mode io ∈ ls ++ ls' /\ takeover_misses mode io i).
Proof.
  intros Hrun Hm Hw Hj Hall Hrun'.
  assert (tap_run clock tap_init (ls ++ ls') = Some s') as Hfull
    by (now rewrite tap_run_app, Hrun).
  pose proof (run_gestures clock before _ _ Hfull) as [Hwi (_ & _ & Hd)].
  apply stop_run in Hrun' as (Hr & Hm' & Hw' & Hj'); try assumption.
  split; [|split; [|split; [|exact Hd]]].
  - enough (rank (at_ s) <= 12)%nat by lia.
    apply run_wake in Hrun as (_ & _ & _ & H4). destruct (at_ s) eqn:Ea; cbn; try lia.
    + destruct (H4 _ eq_refl) as [Hn _]. apply (nodup_indices_length todo) in Hn. lia.
    + destruct (H4 _ eq_refl) as [Hn _]. apply (nodup_indices_length (i :: todo)) in Hn. cbn in Hn. lia.
  - intros Hne. apply stop_progress; congruence || assumption.
  - intros t. apply stop_poll_ready; congruence || assumption.
Qed.

(** A tap on an active sensor is delivered: in normal mode, the report of its gesture
    queues exactly one event for the sensor, makes it inactive and counts it (in 32
    bits), and the events go to the callback registered at that moment. *)
Theorem active_tap_delivered `{SensorsHal} (clock : nat -> Z) (s : tap) (g cb : Z) (i : index) :
  at_ s = AtReport g -> mMode (mem s) = NORMAL -> mCallback (mem s) = Some cb ->
  Z.land g (reportBit (kSensors i)) <> 0 -> get (mWantArmed (mem s)) i = true ->
  exists s1 s2 es, tap_step clock s Report = Some s1 /\ tap_step clock s1 Post = Some s2 /\
    trace s2 = FPost cb es :: trace s1 /\ count_events i es = 1%nat /\
    get (mWantArmed (mem s1)) i = false /\
    get (mReported (mem s1)) i = u32 (get (mReported (mem s)) i + 1).
Proof.
  intros Ha Hm Hc Hb Hw. cbn [tap_step]. rewrite Ha.
  destruct (report_locked clock g (Sec (mem s) (ticks s) [] (trace s))) as [c|] eqn:E.
  2: { unfold report_locked in E. cbn in E. rewrite Hm in E. discriminate. }
  destruct (report_fires clock g _ c i E) as (En & Ew & Er & Ec); try assumption. cbn in *.
  unfold step_report. rewrite E, Ec, Hc. eexists _, _, (sec_events c).
  split; [reflexivity|]. split; [reflexivity|].
  destruct (sec_events c) eqn:Ee; [discriminate|]. auto.
Qed.

(** ** Concrete runs *)

(** The values Android documents. *)
#[local] Instance ref_sensors_hal : SensorsHal :=
  {| DEVICE_PRIVATE_BASE := 65536; ONE_SHOT_MODE := 6; WAKE_UP := 1 |}.

(** A clock that advances by [step] with each reading. *)
Definition steady (step : Z) (n : nat) : Z := step * (Z.of_nat n + 1).

Lemma steady_pos step n : 0 < step -> 0 < steady step n.
Proof. unfold steady. lia. Qed.
Lemma steady_mono step n : 0 < step -> steady step n <= steady step (S n).
Proof. unfold steady. nia. Qed.

Definition good_io (i : index) : arm_io :=
  {| io_open := true; io_report := Some (String "0" (String newline ""));
     io_write := Some (Z.of_nat (String.length (on (kSensors i)))) |}.
Definition io_none : arr (option Z) := filled (Some 2).
Definition mode_text (digit : ascii) : option string := Some ("1 mode[" +:+ String digit "]").
Definition report_text (digit : ascii) : option string := Some (String digit (String newline "")).

(** Starting the object with both gestures off. *)
Definition start_labels : list label :=
  [Initialize (Some 7) true; WakeThread;
   Takeover (mode_text "0"%char) (Arr (good_io SingleTap) (good_io DoubleTap))].
(** From the lock to [poll]; [mode] is the answer if gestures are unused. *)
Definition pass_labels (mode : option string) : list label :=
  [Top; PostEarly; ArmNext (good_io SingleTap); ArmNext (good_io DoubleTap);
   ArmNext (good_io SingleTap); Idle mode io_none; Publish].

(** A double tap on the active sensor, and one while it is inactive that is held. *)
Definition held_labels : list label :=
  start_labels ++ [Activate 2 true; WakeThread] ++ pass_labels (mode_text "5"%char) ++
  [Poll false true true (report_text "2"%char); Report; Post] ++
  pass_labels (mode_text "5"%char) ++
  [Poll false false true (report_text "2"%char); Report; Post; Activate 2 true; WakeThread] ++
  pass_labels (mode_text "5"%char) ++ [Poll false true false None] ++ pass_labels (mode_text "5"%char).

Definition run_of (step : Z) (ls : list label) : tap :=
  default tap_init (tap_run (steady step) tap_init ls).

Example held_run_posts : events_out DoubleTap (trace (run_of 150000000 held_labels)) = 2%nat.
Proof. vm_compute. reflexivity. Qed.

Lemma one_event_per_activation_witness :
  (events_out DoubleTap (trace (run_of 150000000 held_labels)) = 2 /\
   events_out DoubleTap (trace (run_of 150000000 held_labels)) +
   b2n (get (mWantArmed (mem (run_of 150000000 held_labels))) DoubleTap) <=
   activations DoubleTap held_labels)%nat.
Proof.
  split; [vm_compute; reflexivity|].
  apply (one_event_per_activation (steady 150000000) held_labels). vm_compute. reflexivity.
Defined.

Lemma held_tap_on_time_witness :
  let s := run_of 150000000 held_labels in
  exists after before, trace s = after ++ FFireHeld DoubleTap 900000000 1350000000 1500000000 :: before /\
  pending_hold DoubleTap before = Some 900000000.
Proof.
  exists (take 2 (trace (run_of 150000000 held_labels))),
    (drop 3 (trace (run_of 150000000 held_labels))).
  split; [vm_compute; reflexivity|].
  eapply (held_tap_on_time (steady 150000000) held_labels (run_of 150000000 held_labels)
    (take 2 (trace (run_of 150000000 held_labels))) _ DoubleTap 900000000 1350000000 1500000000).
  - intros n. now apply steady_pos.
  - intros n. now apply steady_mono.
  - vm_compute. reflexivity.
  - vm_compute. reflexivity.
Defined.

(** Waiting for a single tap. *)
Definition wait_labels : list label :=
  start_labels ++ [Activate 1 true; WakeThread] ++ pass_labels (mode_text "3"%char) ++
  [Poll false true false None] ++ pass_labels (mode_text "3"%char).

Lemma no_lost_wakeup_witness :
  let s := run_of 150000000 wait_labels in
  at_ s = AtPoll (-1) /\ get (armed (loc s)) SingleTap = get (mWantArmed (mem s)) SingleTap /\
  get (armed (loc s)) DoubleTap = false.
Proof.
  split; [vm_compute; reflexivity|]. split; [|vm_compute; reflexivity].
  refine (proj1 (proj2 (proj2 (proj2 (no_lost_wakeup (steady 150000000) wait_labels
    (run_of 150000000 wait_labels) (-1) _ _ _) _ _)) _ SingleTap)).
  - intros n. now apply steady_pos.
  - vm_compute. reflexivity.
  - vm_compute. reflexivity.
  - vm_compute. reflexivity.
  - vm_compute. discriminate.
  - reflexivity.
Defined.

(** The single tap is no longer wanted, and the phone stays in low power. *)
Definition idle_labels : list label :=
  wait_labels ++ [Activate 1 false; WakeThread; Poll false true false None] ++
  pass_labels (mode_text "3"%char) ++ [Poll false false false None] ++
  pass_labels (mode_text "3"%char) ++ [Poll false false false None] ++
  pass_labels (mode_text "3"%char).

Definition last_pass (s : tap) : pass :=
  default {| p_now := 0; p_armed := filled false; p_want := filled false; p_low := false;
             p_off := filled false |} (head (passes s)).

Lemma gesture_off_iff_idle_witness :
  get (p_off (last_pass (run_of 100000000000 idle_labels))) SingleTap = true /\
  idle_pass SingleTap (last_pass (run_of 100000000000 idle_labels)) = true.
Proof.
  assert (get (p_off (last_pass (run_of 100000000000 idle_labels))) SingleTap = true) as Hoff
    by (vm_compute; reflexivity).
  split; [exact Hoff|].
  refine (proj1 (proj1 (gesture_off_iff_idle (steady 100000000000) idle_labels
    (run_of 100000000000 idle_labels) [] (drop 1 (passes (run_of 100000000000 idle_labels)))
    (last_pass (run_of 100000000000 idle_labels)) SingleTap _ _ _ _) Hoff)).
  - intros n. now apply steady_pos.
  - intros n. now apply steady_mono.
  - vm_compute. reflexivity.
  - vm_compute. reflexivity.
Defined.

(** The gestures were left on by a crash; all writes succeed, so both are off at the end. *)
Lemma stop_terminates_witness :
  let s := run_of 150000000 (wait_labels ++ [Destroy; WakeThread]) in
  let s' := default s (tap_run (steady 150000000) s [Poll false true false None; Exit io_none]) in
  at_ s' = AtDone /\ gesture_on (fun _ => true) SingleTap (trace s) = true /\
  (2 <= 12)%nat /\ gesture_on (fun _ => true) SingleTap (trace s') = false.
Proof.
  split; [vm_compute; reflexivity|]. split; [vm_compute; reflexivity|].
  edestruct (stop_terminates (steady 150000000) (fun _ => true) (wait_labels ++ [Destroy; WakeThread])
    [Poll false true false None; Exit io_none]) as (Hn & _ & _ & Hd);
    [vm_compute; reflexivity | vm_compute; reflexivity | vm_compute; reflexivity | vm_compute; reflexivity
    | repeat constructor | vm_compute; reflexivity | ].
  split; [exact Hn|]. specialize (Hd eq_refl SingleTap). apply not_true_is_false. intros Hon.
  destruct (Hd Hon) as [Ho|(_ & Ho & _)]; vm_compute in Ho; discriminate.
Defined.

Lemma active_tap_delivered_witness :
  let s := run_of 150000000 (wait_labels ++ [Poll false false true (report_text "1"%char)]) in
  exists s1 s2 es, tap_step (steady 150000000) s Report = Some s1 /\
    tap_step (steady 150000000) s1 Post = Some s2 /\
    trace s2 = FPost 7 es :: trace s1 /\ count_events SingleTap es = 1%nat.
Proof.
  destruct (active_tap_delivered (steady 150000000)
    (run_of 150000000 (wait_labels ++ [Poll false false true (report_text "1"%char)])) 1 7 SingleTap)
    as (s1 & s2 & es & H1 & H2 & H3 & H4 & _);
    try (vm_compute; reflexivity); [vm_compute; discriminate|].
  exists s1, s2, es. auto.
Defined.
