(* ===== verification/ColorFmt.v ===== *)
(** * Sizes of video and display buffers

    Models [compat/kernel-headers/include/display/media/mmm_color_fmt.h], the
    header that gives every user of the video and display hardware the strides,
    scanlines and sizes of its buffers.  The functions keep the header's names and
    its 32-bit unsigned arithmetic ([u32]; the tile computations are in [int]).

    [Module Doc] is the other half of the header: the layout each enumerator's
    comment documents, plane by plane, over unbounded integers.  The theorems
    relate the two for frames of up to 16384 by 16384 pixels: no intermediate
    value wraps, the size is the documented one (but for odd heights and for
    NV12_BPP10_UBWC, where code and comment differ), and it holds the frame. *)

From S2P Require Import Prelude.

(** ** Macros *)

Definition INTERLACE_WIDTH_MAX : Z := 1920.
Definition INTERLACE_HEIGHT_MAX : Z := 1920.
Definition INTERLACE_MB_PER_FRAME_MAX : Z := (1920 * 1088) / 256.

(** Both macros work at the type of their arguments, whose conversion is [wrap]. *)
Definition MMM_COLOR_FMT_ALIGN (wrap : Z -> Z) (sz align : Z) : Z :=
  if negb (Z.land align (wrap (align - 1)) =? 0)
  then wrap (wrap (sz + align - 1) / align * align)
  else wrap (Z.land (wrap (sz + align - 1)) (wrap (Z.lnot (align - 1)))).

Definition MMM_COLOR_FMT_ROUNDUP (wrap : Z -> Z) (sz r : Z) : Z := wrap (sz + (r - 1)) / r.

(** ** Formats *)

Inductive mmm_color_fmts :=
| MMM_COLOR_FMT_NV12 | MMM_COLOR_FMT_NV21 | MMM_COLOR_FMT_NV12_UBWC
| MMM_COLOR_FMT_NV12_BPP10_UBWC | MMM_COLOR_FMT_RGBA8888 | MMM_COLOR_FMT_RGBA8888_UBWC
| MMM_COLOR_FMT_RGBA1010102_UBWC | MMM_COLOR_FMT_RGB565_UBWC | MMM_COLOR_FMT_P010_UBWC
| MMM_COLOR_FMT_P010 | MMM_COLOR_FMT_P010_512 | MMM_COLOR_FMT_NV12_512
| MMM_COLOR_FMT_RGBA16161616F_UBWC.

#[global] Instance mmm_color_fmts_eq_dec : EqDecision mmm_color_fmts.
Proof. solve_decision. Defined.

(** The enumerators count from 0; a [color_fmt] is any unsigned integer. *)
Definition all_fmts : list mmm_color_fmts :=
  [ MMM_COLOR_FMT_NV12; MMM_COLOR_FMT_NV21; MMM_COLOR_FMT_NV12_UBWC;
    MMM_COLOR_FMT_NV12_BPP10_UBWC; MMM_COLOR_FMT_RGBA8888; MMM_COLOR_FMT_RGBA8888_UBWC;
    MMM_COLOR_FMT_RGBA1010102_UBWC; MMM_COLOR_FMT_RGB565_UBWC; MMM_COLOR_FMT_P010_UBWC;
    MMM_COLOR_FMT_P010; MMM_COLOR_FMT_P010_512; MMM_COLOR_FMT_NV12_512;
    MMM_COLOR_FMT_RGBA16161616F_UBWC ].

Definition fmt_of (color_fmt : Z) : option mmm_color_fmts :=
  if color_fmt <? 0 then None else all_fmts !! Z.to_nat color_fmt.

(** ** Strides and scanlines *)

Definition MMM_COLOR_FMT_Y_STRIDE (color_fmt width : Z) : Z :=
  if width =? 0 then 0 else
  match fmt_of color_fmt with
  | Some MMM_COLOR_FMT_NV12_512 => MMM_COLOR_FMT_ALIGN u32 width 512
  | Some (MMM_COLOR_FMT_NV12 | MMM_COLOR_FMT_NV21 | MMM_COLOR_FMT_NV12_UBWC) =>
      MMM_COLOR_FMT_ALIGN u32 width 128
  | Some MMM_COLOR_FMT_NV12_BPP10_UBWC =>
      let stride := MMM_COLOR_FMT_ALIGN u32 width 192 in
      MMM_COLOR_FMT_ALIGN u32 (u32 (stride * 4) / 3) 256
  | Some (MMM_COLOR_FMT_P010_UBWC | MMM_COLOR_FMT_P010) =>
      MMM_COLOR_FMT_ALIGN u32 (u32 (width * 2)) 256
  | Some MMM_COLOR_FMT_P010_512 => MMM_COLOR_FMT_ALIGN u32 (u32 (width * 2)) 512
  | _ => 0
  end.

Definition MMM_COLOR_FMT_UV_STRIDE (color_fmt width : Z) : Z :=
  if width =? 0 then 0 else
  match fmt_of color_fmt with
  | Some MMM_COLOR_FMT_NV12_512 => MMM_COLOR_FMT_ALIGN u32 width 512
  | Some (MMM_COLOR_FMT_NV12 | MMM_COLOR_FMT_NV21 | MMM_COLOR_FMT_NV12_UBWC) =>
      MMM_COLOR_FMT_ALIGN u32 width 128
  | Some MMM_COLOR_FMT_NV12_BPP10_UBWC =>
      let stride := MMM_COLOR_FMT_ALIGN u32 width 192 in
      MMM_COLOR_FMT_ALIGN u32 (u32 (stride * 4) / 3) 256
  | Some (MMM_COLOR_FMT_P010_UBWC | MMM_COLOR_FMT_P010) =>
      MMM_COLOR_FMT_ALIGN u32 (u32 (width * 2)) 256
  | Some MMM_COLOR_FMT_P010_512 => MMM_COLOR_FMT_ALIGN u32 (u32 (width * 2)) 512
  | _ => 0
  end.

Definition MMM_COLOR_FMT_Y_SCANLINES (color_fmt height : Z) : Z :=
  if height =? 0 then 0 else
  match fmt_of color_fmt with
  | Some MMM_COLOR_FMT_NV12_512 => MMM_COLOR_FMT_ALIGN u32 height 512
  | Some (MMM_COLOR_FMT_NV12 | MMM_COLOR_FMT_NV21 | MMM_COLOR_FMT_NV12_UBWC
         | MMM_COLOR_FMT_P010_512 | MMM_COLOR_FMT_P010) => MMM_COLOR_FMT_ALIGN u32 height 32
  | Some (MMM_COLOR_FMT_NV12_BPP10_UBWC | MMM_COLOR_FMT_P010_UBWC) =>
      MMM_COLOR_FMT_ALIGN u32 height 16
  | _ => 0
  end.

(** [(x+1)>>1] *)
Definition half (x : Z) : Z := Z.shiftr (u32 (x + 1)) 1.

Definition MMM_COLOR_FMT_UV_SCANLINES (color_fmt height : Z) : Z :=
  if height =? 0 then 0 else
  match fmt_of color_fmt with
  | Some MMM_COLOR_FMT_NV12_512 => MMM_COLOR_FMT_ALIGN u32 (half height) 256
  | Some (MMM_COLOR_FMT_NV12 | MMM_COLOR_FMT_NV21 | MMM_COLOR_FMT_NV12_BPP10_UBWC
         | MMM_COLOR_FMT_P010_UBWC | MMM_COLOR_FMT_P010_512 | MMM_COLOR_FMT_P010) =>
      MMM_COLOR_FMT_ALIGN u32 (half height) 16
  | Some MMM_COLOR_FMT_NV12_UBWC => MMM_COLOR_FMT_ALIGN u32 (half height) 32
  | _ => 0
  end.

(** The tile counts are divided as unsigned and kept in an [int]. *)
Definition tiles (n tile align : Z) : Z :=
  u32 (MMM_COLOR_FMT_ALIGN i32 (i32 (MMM_COLOR_FMT_ROUNDUP u32 n tile)) align).

Definition MMM_COLOR_FMT_Y_META_STRIDE (color_fmt width : Z) : Z :=
  if width =? 0 then 0 else
  match fmt_of color_fmt with
  | Some (MMM_COLOR_FMT_NV12_UBWC | MMM_COLOR_FMT_P010_UBWC) => tiles width 32 64
  | Some MMM_COLOR_FMT_NV12_BPP10_UBWC => tiles width 48 64
  | _ => 0
  end.

Definition MMM_COLOR_FMT_Y_META_SCANLINES (color_fmt height : Z) : Z :=
  if height =? 0 then 0 else
  match fmt_of color_fmt with
  | Some MMM_COLOR_FMT_NV12_UBWC => tiles height 8 16
  | Some (MMM_COLOR_FMT_NV12_BPP10_UBWC | MMM_COLOR_FMT_P010_UBWC) => tiles height 4 16
  | _ => 0
  end.

Definition MMM_COLOR_FMT_UV_META_STRIDE (color_fmt width : Z) : Z :=
  if width =? 0 then 0 else
  match fmt_of color_fmt with
  | Some (MMM_COLOR_FMT_NV12_UBWC | MMM_COLOR_FMT_P010_UBWC) => tiles (half width) 16 64
  | Some MMM_COLOR_FMT_NV12_BPP10_UBWC => tiles (half width) 24 64
  | _ => 0
  end.

Definition MMM_COLOR_FMT_UV_META_SCANLINES (color_fmt height : Z) : Z :=
  if height =? 0 then 0 else
  match fmt_of color_fmt with
  | Some MMM_COLOR_FMT_NV12_UBWC => tiles (half height) 8 16
  | Some (MMM_COLOR_FMT_NV12_BPP10_UBWC | MMM_COLOR_FMT_P010_UBWC) => tiles (half height) 4 16
  | _ => 0
  end.

Definition MMM_COLOR_FMT_RGB_STRIDE (color_fmt width : Z) : Z :=
  if width =? 0 then 0 else
  match fmt_of color_fmt with
  | Some MMM_COLOR_FMT_RGBA8888 => MMM_COLOR_FMT_ALIGN u32 (u32 (width * 4)) 256
  | Some MMM_COLOR_FMT_RGB565_UBWC => MMM_COLOR_FMT_ALIGN u32 (u32 (width * 2)) 256
  | Some (MMM_COLOR_FMT_RGBA8888_UBWC | MMM_COLOR_FMT_RGBA1010102_UBWC) =>
      MMM_COLOR_FMT_ALIGN u32 (u32 (width * 4)) 256
  | Some MMM_COLOR_FMT_RGBA16161616F_UBWC => MMM_COLOR_FMT_ALIGN u32 (u32 (width * 8)) 256
  | _ => 0
  end.

Definition MMM_COLOR_FMT_RGB_SCANLINES (color_fmt height : Z) : Z :=
  if height =? 0 then 0 else
  match fmt_of color_fmt with
  | Some MMM_COLOR_FMT_RGBA8888 => MMM_COLOR_FMT_ALIGN u32 height 32
  | Some (MMM_COLOR_FMT_RGBA8888_UBWC | MMM_COLOR_FMT_RGBA1010102_UBWC
         | MMM_COLOR_FMT_RGB565_UBWC | MMM_COLOR_FMT_RGBA16161616F_UBWC) =>
      MMM_COLOR_FMT_ALIGN u32 height 16
  | _ => 0
  end.

Definition MMM_COLOR_FMT_RGB_META_STRIDE (color_fmt width : Z) : Z :=
  if width =? 0 then 0 else
  match fmt_of color_fmt with
  | Some (MMM_COLOR_FMT_RGBA8888_UBWC | MMM_COLOR_FMT_RGBA1010102_UBWC
         | MMM_COLOR_FMT_RGB565_UBWC) => tiles width 16 64
  | Some MMM_COLOR_FMT_RGBA16161616F_UBWC => tiles width 8 64
  | _ => 0
  end.

Definition MMM_COLOR_FMT_RGB_META_SCANLINES (color_fmt height : Z) : Z :=
  if height =? 0 then 0 else
  match fmt_of color_fmt with
  | Some (MMM_COLOR_FMT_RGBA8888_UBWC | MMM_COLOR_FMT_RGBA1010102_UBWC
         | MMM_COLOR_FMT_RGB565_UBWC | MMM_COLOR_FMT_RGBA16161616F_UBWC) => tiles height 4 16
  | _ => 0
  end.

(** ** Buffer sizes *)

(** A plane of [a * b] bytes, padded to a page. *)
Definition page_plane (a b : Z) : Z := MMM_COLOR_FMT_ALIGN u32 (u32 (a * b)) 4096.

(** The four planes of a compressed YUV picture of [height] lines. *)
Definition ubwc_yuv_size (color_fmt width height : Z) : Z :=
  let y_stride := MMM_COLOR_FMT_Y_STRIDE color_fmt width in
  let uv_stride := MMM_COLOR_FMT_UV_STRIDE color_fmt width in
  let y_sclines := MMM_COLOR_FMT_Y_SCANLINES color_fmt height in
  let y_ubwc_plane := page_plane y_stride y_sclines in
  let uv_sclines := MMM_COLOR_FMT_UV_SCANLINES color_fmt height in
  let uv_ubwc_plane := page_plane uv_stride uv_sclines in
  let y_meta_stride := MMM_COLOR_FMT_Y_META_STRIDE color_fmt width in
  let y_meta_scanlines := MMM_COLOR_FMT_Y_META_SCANLINES color_fmt height in
  let y_meta_plane := page_plane y_meta_stride y_meta_scanlines in
  let uv_meta_stride := MMM_COLOR_FMT_UV_META_STRIDE color_fmt width in
  let uv_meta_scanlines := MMM_COLOR_FMT_UV_META_SCANLINES color_fmt height in
  let uv_meta_plane := page_plane uv_meta_stride uv_meta_scanlines in
  u32 (u32 (u32 (y_ubwc_plane + uv_ubwc_plane) + y_meta_plane) + uv_meta_plane).

Definition MMM_COLOR_FMT_BUFFER_SIZE (color_fmt width height : Z) : Z :=
  let size :=
    if (width =? 0) || (height =? 0) then 0 else
    let y_stride := MMM_COLOR_FMT_Y_STRIDE color_fmt width in
    let uv_stride := MMM_COLOR_FMT_UV_STRIDE color_fmt width in
    let y_sclines := MMM_COLOR_FMT_Y_SCANLINES color_fmt height in
    let uv_sclines := MMM_COLOR_FMT_UV_SCANLINES color_fmt height in
    let rgb_stride := MMM_COLOR_FMT_RGB_STRIDE color_fmt width in
    let rgb_scanlines := MMM_COLOR_FMT_RGB_SCANLINES color_fmt height in
    match fmt_of color_fmt with
    | Some (MMM_COLOR_FMT_NV21 | MMM_COLOR_FMT_NV12 | MMM_COLOR_FMT_P010_512
           | MMM_COLOR_FMT_P010 | MMM_COLOR_FMT_NV12_512) =>
        let y_plane := u32 (y_stride * y_sclines) in
        let uv_plane := u32 (uv_stride * uv_sclines) in
        u32 (y_plane + uv_plane)
    | Some MMM_COLOR_FMT_NV12_UBWC =>
        if (width <=? INTERLACE_WIDTH_MAX) && (height <=? INTERLACE_HEIGHT_MAX) &&
           (u32 (height * width) / 256 <=? INTERLACE_MB_PER_FRAME_MAX)
        then u32 (ubwc_yuv_size color_fmt width (half height) * 2)
        else ubwc_yuv_size color_fmt width height
    | Some (MMM_COLOR_FMT_NV12_BPP10_UBWC | MMM_COLOR_FMT_P010_UBWC) =>
        ubwc_yuv_size color_fmt width height
    | Some MMM_COLOR_FMT_RGBA8888 => page_plane rgb_stride rgb_scanlines
    | Some (MMM_COLOR_FMT_RGBA8888_UBWC | MMM_COLOR_FMT_RGBA1010102_UBWC
           | MMM_COLOR_FMT_RGB565_UBWC | MMM_COLOR_FMT_RGBA16161616F_UBWC) =>
        let rgb_ubwc_plane := page_plane rgb_stride rgb_scanlines in
        let rgb_meta_plane := page_plane (MMM_COLOR_FMT_RGB_META_STRIDE color_fmt width)
                                (MMM_COLOR_FMT_RGB_META_SCANLINES color_fmt height) in
        u32 (rgb_ubwc_plane + rgb_meta_plane)
    | None => 0
    end in
  MMM_COLOR_FMT_ALIGN u32 size 4096.

Definition MMM_COLOR_FMT_BUFFER_SIZE_USED (color_fmt width height interlace : Z) : Z :=
  if (width =? 0) || (height =? 0) then 0 else
  if (interlace =? 0) && bool_decide (fmt_of color_fmt = Some MMM_COLOR_FMT_NV12_UBWC)
  then MMM_COLOR_FMT_ALIGN u32 (ubwc_yuv_size color_fmt width height) 4096
  else MMM_COLOR_FMT_BUFFER_SIZE color_fmt width height.

(** ** The documented layouts

    One definition per enumerator, from its comment: the planes in their order.
    [align] and [roundup] are those of the comments.  The comments leave the tile
    sizes open; they are taken from the functions above, with chroma tiles
    counted in pixels of the picture. *)

Module Doc.

Definition align (sz a : Z) : Z := (sz + a - 1) / a * a.
Definition roundup (n t : Z) : Z := (n + t - 1) / t.

Record plane := mkPlane { stride : Z; scanlines : Z }.
Definition bytes (p : plane) : Z := stride p * scanlines p.

(** Total size of planes that follow each other, or that start on pages. *)
Definition packed (ps : list plane) : Z := align (foldr (fun p n => bytes p + n) 0 ps) 4096.
Definition paged (ps : list plane) : Z :=
  align (foldr (fun p n => align (bytes p) 4096 + n) 0 ps) 4096.

Definition NV12 (Width Height : Z) : list plane :=
  [ mkPlane (align Width 128) (align Height 32);
    mkPlane (align Width 128) (align (Height / 2) 16) ].

Definition NV21 (Width Height : Z) : list plane :=
  [ mkPlane (align Width 128) (align Height 32);
    mkPlane (align Width 128) (align (Height / 2) 16) ].

Definition meta (Width Height TileWidth TileHeight : Z) : plane :=
  mkPlane (align (roundup Width TileWidth) 64) (align (roundup Height TileHeight) 16).

Definition NV12_UBWC_Progressive (Width Height : Z) : list plane :=
  [ meta Width Height 32 8;
    mkPlane (align Width 128) (align Height 32);
    meta Width Height 32 16;
    mkPlane (align Width 128) (align (Height / 2) 32) ].

Definition NV12_UBWC_Interlaced (Width Height : Z) : list plane :=
  let Half_height := Z.shiftr (Height + 1) 1 in
  let field :=
    [ meta Width Half_height 32 8;
      mkPlane (align Width 128) (align Half_height 32);
      meta Width Half_height 32 16;
      mkPlane (align Width 128) (align ((Half_height + 1) / 2) 32) ] in
  field ++ field.

Definition NV12_BPP10_UBWC (Width Height : Z) : list plane :=
  [ meta Width Height 48 4;
    mkPlane (align (Width * 4 / 3) 256) (align Height 32);
    meta Width Height 48 8;
    mkPlane (align (Width * 4 / 3) 256) (align (Height / 2) 16) ].

Definition RGBA8888 (Width Height : Z) : list plane :=
  [ mkPlane (align (Width * 4) 256) (align Height 32) ].

Definition RGBA8888_UBWC (Width Height : Z) : list plane :=
  [ meta Width Height 16 4; mkPlane (align (Width * 4) 256) (align Height 16) ].

Definition RGBA1010102_UBWC (Width Height : Z) : list plane :=
  [ meta Width Height 16 4; mkPlane (align (Width * 4) 256) (align Height 16) ].

Definition RGB565_UBWC (Width Height : Z) : list plane :=
  [ meta Width Height 16 4; mkPlane (align (Width * 2) 256) (align Height 16) ].

Definition P010_UBWC (Width Height : Z) : list plane :=
  [ meta Width Height 32 4;
    mkPlane (align (Width * 2) 256) (align Height 16);
    meta Width Height 32 8;
    mkPlane (align (Width * 2) 256) (align (Height / 2) 16) ].

Definition P010 (Width Height : Z) : list plane :=
  [ mkPlane (align (Width * 2) 256) (align Height 32);
    mkPlane (align (Width * 2) 256) (align (Height / 2) 16) ].

Definition P010_512 (Width Height : Z) : list plane :=
  [ mkPlane (align (Width * 2) 512) (align Height 32);
    mkPlane (align (Width * 2) 512) (align (Height / 2) 16) ].

Definition NV12_512 (Width Height : Z) : list plane :=
  [ mkPlane (align Width 512) (align Height 512);
    mkPlane (align Width 512) (align (Height / 2) 256) ].

Definition RGBA16161616F_UBWC (Width Height : Z) : list plane :=
  [ meta Width Height 8 4; mkPlane (align (Width * 8) 256) (align Height 16) ].

(** The total size of a format; an NV12 UBWC buffer has one of two types. *)
Definition size (f : mmm_color_fmts) (interlaced : bool) (Width Height : Z) : Z :=
  match f with
  | MMM_COLOR_FMT_NV12 => packed (NV12 Width Height)
  | MMM_COLOR_FMT_NV21 => packed (NV21 Width Height)
  | MMM_COLOR_FMT_NV12_UBWC =>
      paged (if interlaced then NV12_UBWC_Interlaced Width Height
             else NV12_UBWC_Progressive Width Height)
  | MMM_COLOR_FMT_NV12_BPP10_UBWC => paged (NV12_BPP10_UBWC Width Height)
  | MMM_COLOR_FMT_RGBA8888 => paged (RGBA8888 Width Height)
  | MMM_COLOR_FMT_RGBA8888_UBWC => paged (RGBA8888_UBWC Width Height)
  | MMM_COLOR_FMT_RGBA1010102_UBWC => paged (RGBA1010102_UBWC Width Height)
  | MMM_COLOR_FMT_RGB565_UBWC => paged (RGB565_UBWC Width Height)
  | MMM_COLOR_FMT_P010_UBWC => paged (P010_UBWC Width Height)
  | MMM_COLOR_FMT_P010 => packed (P010 Width Height)
  | MMM_COLOR_FMT_P010_512 => packed (P010_512 Width Height)
  | MMM_COLOR_FMT_NV12_512 => packed (NV12_512 Width Height)
  | MMM_COLOR_FMT_RGBA16161616F_UBWC => paged (RGBA16161616F_UBWC Width Height)
  end.

End Doc.

(** ** Alignment *)

(** The mask of the macro selects the multiple below, whatever the alignment. *)
Lemma pow2_of_mask a : 0 < a -> Z.land a (a - 1) = 0 -> a = 2 ^ Z.log2 a.
Proof.
  intros Ha Hm. destruct (Z.log2_spec a Ha) as [Hlo Hhi].
  destruct (Z.eq_dec a (2 ^ Z.log2 a)) as [|Hne]; [assumption|exfalso].
  assert (Z.log2 (a - 1) = Z.log2 a) as Hl by (apply Z.log2_unique; [apply Z.log2_nonneg | lia]).
  assert (Z.testbit (Z.land a (a - 1)) (Z.log2 a) = true) as Hb.
  { rewrite Z.land_spec. rewrite Z.bit_log2 by lia. rewrite <- Hl at 1.
    rewrite Z.bit_log2; [reflexivity|]. pose proof (Z.pow_pos_nonneg 2 (Z.log2 a) eq_refl (Z.log2_nonneg a)). lia. }
  now rewrite Hm, Z.bits_0 in Hb.
Qed.

Lemma land_below x k : 0 <= k -> Z.land x (Z.lnot (2 ^ k - 1)) = x / 2 ^ k * 2 ^ k.
Proof.
  intros Hk. rewrite <- Z.ldiff_land. replace (2 ^ k - 1) with (Z.ones k) by (rewrite Z.ones_equiv; lia).
  now rewrite Z.ldiff_ones_r, Z.shiftl_mul_pow2, Z.shiftr_div_pow2 by assumption.
Qed.

(** An integer type: values up to [M] and masks of them are represented exactly. *)
Record exact (wrap : Z -> Z) (M : Z) : Prop := mkExact {
  exact_val : forall x, 0 <= x <= M -> wrap x = x;
  exact_mask : forall x m, 0 <= x <= M -> - M <= m < 0 -> Z.land x (wrap m) = Z.land x m;
}.

Lemma exact_u32 : exact u32 UINT32_MAX.
Proof.
  split; [intros; apply u32_small; range|]. intros x m Hx _. unfold u32.
  assert (x = Z.land x (Z.ones 32)) as Ex.
  { rewrite Z.land_ones by lia. rewrite Z.mod_small; range. }
  rewrite <- Z.land_ones by lia. rewrite Ex at 2. rewrite <- Z.land_assoc. f_equal.
  apply Z.land_comm.
Qed.

Lemma exact_i32 : exact i32 INT32_MAX.
Proof.
  split; [intros; apply i32_small; range|]. intros x m Hx Hm. f_equal. apply i32_small. range.
Qed.

(** [MMM_COLOR_FMT_ALIGN], on both of its branches, is the documented [align]. *)
Lemma ALIGN_align wrap M sz a :
  exact wrap M -> 0 <= sz -> 0 < a <= M -> sz + a - 1 <= M ->
  MMM_COLOR_FMT_ALIGN wrap sz a = Doc.align sz a.
Proof.
  intros [Hv Hm] Hs Ha HM. unfold MMM_COLOR_FMT_ALIGN, Doc.align.
  assert (0 <= (sz + a - 1) / a * a <= sz + a - 1) as Hq.
  { split; [apply Z.mul_nonneg_nonneg; [apply Z.div_pos|]; lia|].
    rewrite Z.mul_comm. apply Z.mul_div_le. lia. }
  rewrite (Hv (a - 1)) by lia. rewrite (Hv (sz + a - 1)) by lia.
  destruct (Z.land a (a - 1) =? 0) eqn:E; cbn [negb]; boolprop.
  - pose proof (pow2_of_mask a ltac:(lia) E) as Ek.
    rewrite Hm by (unfold Z.lnot; lia).
    assert (Z.land (sz + a - 1) (Z.lnot (a - 1)) = (sz + a - 1) / a * a) as ->.
    { rewrite Ek. apply land_below, Z.log2_nonneg. }
    apply Hv. lia.
  - apply Hv. lia.
Qed.

Lemma align_bounds sz a : 0 < a -> sz <= Doc.align sz a <= sz + a - 1.
Proof.
  intros Ha. unfold Doc.align. pose proof (Z.div_mod (sz + a - 1) a ltac:(lia)) as E.
  pose proof (Z.mod_pos_bound (sz + a - 1) a Ha). rewrite Z.mul_comm. lia.
Qed.

Lemma align_divide sz a : (a | Doc.align sz a).
Proof. unfold Doc.align. eexists. reflexivity. Qed.

Lemma align_mono sz sz' a : 0 < a -> sz <= sz' -> Doc.align sz a <= Doc.align sz' a.
Proof.
  intros Ha Hs. unfold Doc.align. apply Z.mul_le_mono_nonneg_r; [lia|]. apply Z.div_le_mono; lia.
Qed.

(** A multiple of the alignment is not moved. *)
Lemma align_multiple sz a : 0 < a -> (a | sz) -> Doc.align sz a = sz.
Proof.
  intros Ha [q ->]. unfold Doc.align. f_equal.
  replace (q * a + a - 1) with (a - 1 + q * a) by lia.
  rewrite Z.div_add, Z.div_small; lia.
Qed.

(** ** Frames of up to 16384 by 16384 pixels: nothing wraps *)

Definition MAX_DIM : Z := 16384.
Definition dim_ok (x : Z) : Prop := 0 < x <= MAX_DIM.

Lemma align32 sz a : 0 <= sz <= 3221225472 -> 0 < a <= 4096 ->
  MMM_COLOR_FMT_ALIGN u32 sz a = Doc.align sz a.
Proof. intros. apply (ALIGN_align _ _ _ _ exact_u32); range. Qed.

Lemma half_ok x : 0 <= x <= MAX_DIM -> half x = (x + 1) / 2.
Proof.
  intros Hx. unfold half, MAX_DIM in *. rewrite u32_small by range. now rewrite Z.shiftr_div_pow2.
Qed.

Lemma roundup_bounds n t : 0 <= n -> 0 < t -> 0 <= Doc.roundup n t <= n.
Proof.
  intros Hn Ht. unfold Doc.roundup. split; [apply Z.div_pos; lia|].
  destruct (Z.eq_dec n 0) as [->|]; [rewrite Z.div_small; lia|].
  apply Z.div_le_upper_bound; nia.
Qed.

Lemma tiles_ok n t a : 0 <= n <= MAX_DIM -> 0 < t <= 64 -> 0 < a <= 64 ->
  tiles n t a = Doc.align (Doc.roundup n t) a.
Proof.
  intros Hn Ht Ha. unfold tiles, MMM_COLOR_FMT_ROUNDUP, MAX_DIM in *.
  replace (n + (t - 1)) with (n + t - 1) by lia. rewrite (u32_small (n + t - 1)) by range.
  fold (Doc.roundup n t). pose proof (roundup_bounds n t ltac:(lia) ltac:(lia)) as Hr.
  rewrite (i32_small (Doc.roundup n t)) by range.
  rewrite (ALIGN_align _ _ _ _ exact_i32) by range.
  pose proof (align_bounds (Doc.roundup n t) a ltac:(lia)). apply u32_small. range.
Qed.

(** A stride and a number of scanlines of a frame in range. *)
Definition plane_ok (a b : Z) : Prop := 0 <= a <= 8 * MAX_DIM + 511 /\ 0 <= b <= MAX_DIM + 511.

Lemma plane_bytes a b : plane_ok a b -> 0 <= a * b <= 2300000000.
Proof. unfold plane_ok, MAX_DIM. intros [? ?]. nia. Qed.

Lemma page_plane_ok a b : plane_ok a b -> page_plane a b = Doc.align (a * b) 4096.
Proof.
  intros H. apply plane_bytes in H. unfold page_plane. rewrite u32_small by range.
  apply align32; lia.
Qed.

Section Ideal.
Variables (color_fmt : Z) (f : mmm_color_fmts) (n : Z).
Hypothesis (Ef : fmt_of color_fmt = Some f) (Hn : dim_ok n).

(** Unfold a function at a known format, then remove the wrap-around. *)
Ltac ideal fn :=
  unfold fn; rewrite Ef; unfold dim_ok in Hn;
  replace (n =? 0) with false by (symmetry; apply Z.eqb_neq; lia);
  destruct f; try reflexivity;
  first [ apply tiles_ok; unfold MAX_DIM in *; lia
        | rewrite half_ok by lia; apply tiles_ok; unfold MAX_DIM in *; lia
        | rewrite ?u32_small by (unfold MAX_DIM in *; range); apply align32; unfold MAX_DIM in *; lia
        | rewrite half_ok by lia; apply align32; unfold MAX_DIM in *; lia
        | idtac ].

Lemma Y_STRIDE_ok : MMM_COLOR_FMT_Y_STRIDE color_fmt n =
  match f with
  | MMM_COLOR_FMT_NV12_512 => Doc.align n 512
  | MMM_COLOR_FMT_NV12 | MMM_COLOR_FMT_NV21 | MMM_COLOR_FMT_NV12_UBWC => Doc.align n 128
  | MMM_COLOR_FMT_NV12_BPP10_UBWC => Doc.align (n * 4 / 3) 256
  | MMM_COLOR_FMT_P010_UBWC | MMM_COLOR_FMT_P010 => Doc.align (n * 2) 256
  | MMM_COLOR_FMT_P010_512 => Doc.align (n * 2) 512
  | _ => 0
  end.
Proof.
  ideal MMM_COLOR_FMT_Y_STRIDE. cbv zeta. unfold MAX_DIM in *. rewrite (align32 n 192) by lia.
  pose proof (align_bounds n 192 ltac:(lia)). rewrite u32_small by range.
  rewrite align32 by lia. unfold Doc.align. lia.
Qed.

Lemma Y_SCANLINES_ok : MMM_COLOR_FMT_Y_SCANLINES color_fmt n =
  match f with
  | MMM_COLOR_FMT_NV12_512 => Doc.align n 512
  | MMM_COLOR_FMT_NV12 | MMM_COLOR_FMT_NV21 | MMM_COLOR_FMT_NV12_UBWC
  | MMM_COLOR_FMT_P010_512 | MMM_COLOR_FMT_P010 => Doc.align n 32
  | MMM_COLOR_FMT_NV12_BPP10_UBWC | MMM_COLOR_FMT_P010_UBWC => Doc.align n 16
  | _ => 0
  end.
Proof. ideal MMM_COLOR_FMT_Y_SCANLINES. Qed.

Lemma UV_SCANLINES_ok : MMM_COLOR_FMT_UV_SCANLINES color_fmt n =
  match f with
  | MMM_COLOR_FMT_NV12_512 => Doc.align ((n + 1) / 2) 256
  | MMM_COLOR_FMT_NV12 | MMM_COLOR_FMT_NV21 | MMM_COLOR_FMT_NV12_BPP10_UBWC
  | MMM_COLOR_FMT_P010_UBWC | MMM_COLOR_FMT_P010_512 | MMM_COLOR_FMT_P010 =>
      Doc.align ((n + 1) / 2) 16
  | MMM_COLOR_FMT_NV12_UBWC => Doc.align ((n + 1) / 2) 32
  | _ => 0
  end.
Proof. ideal MMM_COLOR_FMT_UV_SCANLINES. Qed.

Lemma Y_META_STRIDE_ok : MMM_COLOR_FMT_Y_META_STRIDE color_fmt n =
  match f with
  | MMM_COLOR_FMT_NV12_UBWC | MMM_COLOR_FMT_P010_UBWC => Doc.align (Doc.roundup n 32) 64
  | MMM_COLOR_FMT_NV12_BPP10_UBWC => Doc.align (Doc.roundup n 48) 64
  | _ => 0
  end.
Proof. ideal MMM_COLOR_FMT_Y_META_STRIDE. Qed.

Lemma Y_META_SCANLINES_ok : MMM_COLOR_FMT_Y_META_SCANLINES color_fmt n =
  match f with
  | MMM_COLOR_FMT_NV12_UBWC => Doc.align (Doc.roundup n 8) 16
  | MMM_COLOR_FMT_NV12_BPP10_UBWC | MMM_COLOR_FMT_P010_UBWC => Doc.align (Doc.roundup n 4) 16
  | _ => 0
  end.
Proof. ideal MMM_COLOR_FMT_Y_META_SCANLINES. Qed.

(** Chroma tiles, counted in pixels of the picture. *)
Lemma roundup_half t : 0 < t -> Doc.roundup ((n + 1) / 2) t = Doc.roundup n (2 * t).
Proof.
  intros Ht. unfold Doc.roundup, dim_ok in *.
  rewrite <- Z.div_div by lia. f_equal. lia.
Qed.

Lemma UV_META_STRIDE_ok : MMM_COLOR_FMT_UV_META_STRIDE color_fmt n =
  match f with
  | MMM_COLOR_FMT_NV12_UBWC | MMM_COLOR_FMT_P010_UBWC => Doc.align (Doc.roundup n 32) 64
  | MMM_COLOR_FMT_NV12_BPP10_UBWC => Doc.align (Doc.roundup n 48) 64
  | _ => 0
  end.
Proof.
  ideal MMM_COLOR_FMT_UV_META_STRIDE.
  all: rewrite half_ok, tiles_ok, roundup_half by (unfold MAX_DIM in *; lia); reflexivity.
Qed.

Lemma UV_META_SCANLINES_ok : MMM_COLOR_FMT_UV_META_SCANLINES color_fmt n =
  match f with
  | MMM_COLOR_FMT_NV12_UBWC => Doc.align (Doc.roundup n 16) 16
  | MMM_COLOR_FMT_NV12_BPP10_UBWC | MMM_COLOR_FMT_P010_UBWC => Doc.align (Doc.roundup n 8) 16
  | _ => 0
  end.
Proof.
  ideal MMM_COLOR_FMT_UV_META_SCANLINES.
  all: rewrite half_ok, tiles_ok, roundup_half by (unfold MAX_DIM in *; lia); reflexivity.
Qed.

Lemma RGB_STRIDE_ok : MMM_COLOR_FMT_RGB_STRIDE color_fmt n =
  match f with
  | MMM_COLOR_FMT_RGBA8888 | MMM_COLOR_FMT_RGBA8888_UBWC | MMM_COLOR_FMT_RGBA1010102_UBWC =>
      Doc.align (n * 4) 256
  | MMM_COLOR_FMT_RGB565_UBWC => Doc.align (n * 2) 256
  | MMM_COLOR_FMT_RGBA16161616F_UBWC => Doc.align (n * 8) 256
  | _ => 0
  end.
Proof. ideal MMM_COLOR_FMT_RGB_STRIDE. Qed.

Lemma RGB_SCANLINES_ok : MMM_COLOR_FMT_RGB_SCANLINES color_fmt n =
  match f with
  | MMM_COLOR_FMT_RGBA8888 => Doc.align n 32
  | MMM_COLOR_FMT_RGBA8888_UBWC | MMM_COLOR_FMT_RGBA1010102_UBWC
  | MMM_COLOR_FMT_RGB565_UBWC | MMM_COLOR_FMT_RGBA16161616F_UBWC => Doc.align n 16
  | _ => 0
  end.
Proof. ideal MMM_COLOR_FMT_RGB_SCANLINES. Qed.

Lemma RGB_META_STRIDE_ok : MMM_COLOR_FMT_RGB_META_STRIDE color_fmt n =
  match f with
  | MMM_COLOR_FMT_RGBA8888_UBWC | MMM_COLOR_FMT_RGBA1010102_UBWC
  | MMM_COLOR_FMT_RGB565_UBWC => Doc.align (Doc.roundup n 16) 64
  | MMM_COLOR_FMT_RGBA16161616F_UBWC => Doc.align (Doc.roundup n 8) 64
  | _ => 0
  end.
Proof. ideal MMM_COLOR_FMT_RGB_META_STRIDE. Qed.

Lemma RGB_META_SCANLINES_ok : MMM_COLOR_FMT_RGB_META_SCANLINES color_fmt n =
  match f with
  | MMM_COLOR_FMT_RGBA8888_UBWC | MMM_COLOR_FMT_RGBA1010102_UBWC
  | MMM_COLOR_FMT_RGB565_UBWC | MMM_COLOR_FMT_RGBA16161616F_UBWC => Doc.align (Doc.roundup n 4) 16
  | _ => 0
  end.
Proof. ideal MMM_COLOR_FMT_RGB_META_SCANLINES. Qed.

End Ideal.

(** ** Frames of odd height are laid out as if they had one more line *)

Definition up2 (h : Z) : Z := 2 * ((h + 1) / 2).

Lemma up2_half h : up2 h / 2 = (h + 1) / 2.
Proof. unfold up2. lia. Qed.

Lemma roundup_up2 h t : 0 < t -> Z.even t = true -> Doc.roundup (up2 h) t = Doc.roundup h t.
Proof.
  intros Ht Ee. apply Z.even_spec in Ee as [b ->].
  unfold Doc.roundup, up2. rewrite <- !Z.div_div by lia. f_equal. lia.
Qed.

Lemma align_up2 h a : 0 < a -> Z.even a = true -> Doc.align (up2 h) a = Doc.align h a.
Proof. intros Ha Ee. unfold Doc.align. f_equal. exact (roundup_up2 h a Ha Ee). Qed.

(** The layout of the buffers the functions compute: the documented one, but for
    the luma scanlines of NV12_BPP10_UBWC, which are aligned to 16. *)
Definition coded_layout (f : mmm_color_fmts) (interlaced : bool) (w h : Z) : list Doc.plane :=
  match f with
  | MMM_COLOR_FMT_NV12 => Doc.NV12 w h
  | MMM_COLOR_FMT_NV21 => Doc.NV21 w h
  | MMM_COLOR_FMT_NV12_UBWC =>
      if interlaced then Doc.NV12_UBWC_Interlaced w h else Doc.NV12_UBWC_Progressive w h
  | MMM_COLOR_FMT_NV12_BPP10_UBWC =>
      [ Doc.meta w h 48 4;
        Doc.mkPlane (Doc.align (w * 4 / 3) 256) (Doc.align h 16);
        Doc.meta w h 48 8;
        Doc.mkPlane (Doc.align (w * 4 / 3) 256) (Doc.align (h / 2) 16) ]
  | MMM_COLOR_FMT_RGBA8888 => Doc.RGBA8888 w h
  | MMM_COLOR_FMT_RGBA8888_UBWC => Doc.RGBA8888_UBWC w h
  | MMM_COLOR_FMT_RGBA1010102_UBWC => Doc.RGBA1010102_UBWC w h
  | MMM_COLOR_FMT_RGB565_UBWC => Doc.RGB565_UBWC w h
  | MMM_COLOR_FMT_P010_UBWC => Doc.P010_UBWC w h
  | MMM_COLOR_FMT_P010 => Doc.P010 w h
  | MMM_COLOR_FMT_P010_512 => Doc.P010_512 w h
  | MMM_COLOR_FMT_NV12_512 => Doc.NV12_512 w h
  | MMM_COLOR_FMT_RGBA16161616F_UBWC => Doc.RGBA16161616F_UBWC w h
  end.

(** Formats whose planes start on pages. *)
Definition paged_fmt (f : mmm_color_fmts) : bool :=
  match f with
  | MMM_COLOR_FMT_NV12 | MMM_COLOR_FMT_NV21 | MMM_COLOR_FMT_P010
  | MMM_COLOR_FMT_P010_512 | MMM_COLOR_FMT_NV12_512 => false
  | _ => true
  end.

Definition coded_size (f : mmm_color_fmts) (interlaced : bool) (w h : Z) : Z :=
  (if paged_fmt f then Doc.paged else Doc.packed) (coded_layout f interlaced w h).

(** The total of planes on pages, before the last alignment. *)
Definition pages (ps : list Doc.plane) : Z :=
  foldr (fun p n => Doc.align (Doc.bytes p) 4096 + n) 0 ps.

Definition yuv_ubwc (f : mmm_color_fmts) : bool :=
  match f with
  | MMM_COLOR_FMT_NV12_UBWC | MMM_COLOR_FMT_NV12_BPP10_UBWC | MMM_COLOR_FMT_P010_UBWC => true
  | _ => false
  end.

Lemma page_bound a b A B : 0 <= a <= A -> 0 <= b <= B ->
  0 <= Doc.align (a * b) 4096 <= A * B + 4095.
Proof.
  intros Ha Hb. pose proof (align_bounds (a * b) 4096 ltac:(lia)). nia.
Qed.

(** Bounds of aligned lengths and tile counts. *)
Lemma aligned_length x a b : 0 < a <= 512 -> 0 <= x <= b -> 0 <= Doc.align x a <= b + 511.
Proof. intros Ha Hx. pose proof (align_bounds x a ltac:(lia)). lia. Qed.

Lemma aligned_tiles x t a b :
  0 < t -> 0 < a <= 512 -> 0 < x <= b -> 0 <= Doc.align (Doc.roundup x t) a <= b + 511.
Proof. intros Ht Ha Hx. pose proof (roundup_bounds x t ltac:(lia) Ht). apply aligned_length; lia. Qed.

Lemma tiles_limit x t a : 0 < t -> 0 < a <= 512 -> 0 < x <= 16384 ->
  0 <= Doc.align (Doc.roundup x t) a <= 16895.
Proof. intros Ht Ha Hx. pose proof (aligned_tiles x t a x Ht Ha ltac:(lia)). lia. Qed.

(** The sum of four planes on pages cannot wrap. *)
Lemma sum_planes W L ys yl us ul ms ml ns nl :
  W <= 33279 -> L <= 16895 ->
  0 <= ys <= W -> 0 <= yl <= L -> 0 <= us <= W -> 0 <= ul <= L ->
  0 <= ms <= W -> 0 <= ml <= L -> 0 <= ns <= W -> 0 <= nl <= L ->
  u32 (u32 (u32 (page_plane ys yl + page_plane us ul) + page_plane ms ml) + page_plane ns nl) =
    Doc.align (ms * ml) 4096 + (Doc.align (ys * yl) 4096 + (Doc.align (ns * nl) 4096
          + (Doc.align (us * ul) 4096 + 0))) /\
  0 <= u32 (u32 (u32 (page_plane ys yl + page_plane us ul) + page_plane ms ml) + page_plane ns nl)
    <= 4 * (W * L + 4095).
Proof.
  intros HW HL H1 H2 H3 H4 H5 H6 H7 H8.
  rewrite !page_plane_ok by (unfold plane_ok, MAX_DIM; lia).
  pose proof (page_bound ys yl W L ltac:(lia) ltac:(lia)).
  pose proof (page_bound us ul W L ltac:(lia) ltac:(lia)).
  pose proof (page_bound ms ml W L ltac:(lia) ltac:(lia)).
  pose proof (page_bound ns nl W L ltac:(lia) ltac:(lia)).
  assert (W * L <= 33279 * 16895) by nia.
  rewrite (u32_small (_ + Doc.align (us * ul) 4096)) by range.
  rewrite (u32_small (_ + Doc.align (ms * ml) 4096)) by range.
  rewrite (u32_small (_ + Doc.align (ns * nl) 4096)) by range. lia.
Qed.

Lemma ubwc_yuv_size_ok color_fmt f w h :
  fmt_of color_fmt = Some f -> yuv_ubwc f = true -> dim_ok w -> dim_ok h ->
  ubwc_yuv_size color_fmt w h = pages (coded_layout f false w (up2 h)) /\
  0 <= ubwc_yuv_size color_fmt w h <= 4 * ((2 * w + 511) * (h + 511) + 4095).
Proof.
  intros Ef Hf Hw Hh. unfold ubwc_yuv_size. cbv zeta.
  change (MMM_COLOR_FMT_UV_STRIDE color_fmt w) with (MMM_COLOR_FMT_Y_STRIDE color_fmt w).
  rewrite (Y_STRIDE_ok _ _ _ Ef Hw), (Y_SCANLINES_ok _ _ _ Ef Hh),
    (UV_SCANLINES_ok _ _ _ Ef Hh), (Y_META_STRIDE_ok _ _ _ Ef Hw),
    (Y_META_SCANLINES_ok _ _ _ Ef Hh), (UV_META_STRIDE_ok _ _ _ Ef Hw),
    (UV_META_SCANLINES_ok _ _ _ Ef Hh).
  unfold dim_ok, MAX_DIM in *.
  destruct f; try discriminate; cbn [coded_layout];
    unfold Doc.NV12_UBWC_Progressive, Doc.P010_UBWC, pages, Doc.meta, Doc.bytes;
    cbn [foldr Doc.stride Doc.scanlines]; rewrite up2_half, !align_up2, !roundup_up2 by (lia || reflexivity).
  all: apply sum_planes; try (apply aligned_tiles; lia); try (apply aligned_length; lia); lia.
Qed.

(** The frames whose NV12 UBWC buffer may hold two fields. *)
Definition may_interlace (w h : Z) : bool :=
  (w <=? INTERLACE_WIDTH_MAX) && (h <=? INTERLACE_HEIGHT_MAX) &&
  (h * w / 256 <=? INTERLACE_MB_PER_FRAME_MAX).

Lemma pages_app ps qs : pages (ps ++ qs) = pages ps + pages qs.
Proof.
  unfold pages. induction ps as [|p ps IH]; cbn [foldr app]; [reflexivity|]. rewrite IH. lia.
Qed.

(** The two fields: each is a progressive picture of half the height. *)
Lemma interlaced_pages w h :
  pages (Doc.NV12_UBWC_Interlaced w h) = 2 * pages (Doc.NV12_UBWC_Progressive w (up2 ((h + 1) / 2))).
Proof.
  unfold Doc.NV12_UBWC_Interlaced. cbv zeta. rewrite pages_app, Z.shiftr_div_pow2 by lia.
  change (2 ^ 1) with 2. unfold Doc.NV12_UBWC_Progressive, Doc.meta.
  rewrite up2_half, !align_up2, !roundup_up2 by (lia || reflexivity). lia.
Qed.

Lemma paged_pages ps : Doc.paged ps = Doc.align (pages ps) 4096.
Proof. reflexivity. Qed.

Lemma bound_rgb w h : dim_ok w -> dim_ok h -> (8 * w + 511) * (h + 511) <= 2223100000.
Proof. unfold dim_ok, MAX_DIM. nia. Qed.
Lemma bound_yuv w h : dim_ok w -> dim_ok h -> (2 * w + 511) * (h + 511) <= 562300000.
Proof. unfold dim_ok, MAX_DIM. nia. Qed.

(** Two planes one after the other, and two planes on pages. *)
Lemma sum_packed W L ys yl us ul :
  W <= 33279 -> L <= 16895 -> 0 <= ys <= W -> 0 <= yl <= L -> 0 <= us <= W -> 0 <= ul <= L ->
  MMM_COLOR_FMT_ALIGN u32 (u32 (u32 (ys * yl) + u32 (us * ul))) 4096 =
    Doc.packed [Doc.mkPlane ys yl; Doc.mkPlane us ul].
Proof.
  intros HW HL H1 H2 H3 H4. unfold Doc.packed, Doc.bytes. cbn [foldr Doc.stride Doc.scanlines].
  assert (0 <= ys * yl <= 33279 * 16895) by nia. assert (0 <= us * ul <= 33279 * 16895) by nia.
  rewrite (u32_small (ys * yl)), (u32_small (us * ul)), u32_small by range.
  rewrite align32 by lia. f_equal. lia.
Qed.

Lemma sum_rgb W L rs rl ms ml :
  W <= 131583 -> L <= 16895 -> 0 <= rs <= W -> 0 <= rl <= L -> 0 <= ms <= 16895 -> 0 <= ml <= L ->
  MMM_COLOR_FMT_ALIGN u32 (u32 (page_plane rs rl + page_plane ms ml)) 4096 =
    Doc.paged [Doc.mkPlane ms ml; Doc.mkPlane rs rl].
Proof.
  intros HW HL H1 H2 H3 H4. unfold Doc.paged, Doc.bytes. cbn [foldr Doc.stride Doc.scanlines].
  rewrite !page_plane_ok by (unfold plane_ok, MAX_DIM; lia).
  pose proof (page_bound rs rl 131583 16895 ltac:(lia) ltac:(lia)).
  pose proof (page_bound ms ml 16895 16895 ltac:(lia) ltac:(lia)).
  rewrite u32_small by range. rewrite align32 by lia. f_equal. lia.
Qed.

(** The formats without compression, and the compressed RGB formats. *)
Ltac linear w h :=
  apply (sum_packed (2 * w + 511) (h + 511)); try (apply aligned_length; lia); lia.
Ltac rgb w h :=
  apply (sum_rgb (8 * w + 511) (h + 511));
  first [ lia | apply aligned_length; lia | apply aligned_tiles; lia
        | eapply tiles_limit; lia ].

(** What the code computes, in closed form. *)
Lemma BUFFER_SIZE_ok color_fmt f w h :
  fmt_of color_fmt = Some f -> dim_ok w -> dim_ok h ->
  MMM_COLOR_FMT_BUFFER_SIZE color_fmt w h = coded_size f (may_interlace w h) w (up2 h).
Proof.
  intros Ef Hw Hh. unfold MMM_COLOR_FMT_BUFFER_SIZE. cbv zeta.
  change (MMM_COLOR_FMT_UV_STRIDE color_fmt w) with (MMM_COLOR_FMT_Y_STRIDE color_fmt w).
  rewrite (Y_STRIDE_ok _ _ _ Ef Hw), (Y_SCANLINES_ok _ _ _ Ef Hh),
    (UV_SCANLINES_ok _ _ _ Ef Hh), (RGB_STRIDE_ok _ _ _ Ef Hw), (RGB_SCANLINES_ok _ _ _ Ef Hh),
    (RGB_META_STRIDE_ok _ _ _ Ef Hw), (RGB_META_SCANLINES_ok _ _ _ Ef Hh), Ef.
  assert ((w =? 0) || (h =? 0) = false) as -> by (unfold dim_ok in *; lia).
  pose proof Hw as Hw'. pose proof Hh as Hh'. unfold dim_ok, MAX_DIM in Hw', Hh'.
  unfold coded_size.
  destruct f; cbn [paged_fmt coded_layout].
  all: unfold Doc.NV12, Doc.NV21, Doc.P010, Doc.P010_512, Doc.NV12_512,
    Doc.RGBA8888_UBWC, Doc.RGBA1010102_UBWC, Doc.RGB565_UBWC, Doc.RGBA16161616F_UBWC, Doc.meta;
    rewrite ?up2_half, ?align_up2, ?roundup_up2 by (lia || reflexivity).
  - linear w h.
  - linear w h.
  - rewrite paged_pages. destruct (ubwc_yuv_size_ok _ _ w h Ef eq_refl Hw Hh) as [E B].
    pose proof (bound_yuv w h Hw Hh).
    assert (0 <= h * w <= 16384 * 16384) by nia.
    rewrite (u32_small (h * w)) by range.
    fold (may_interlace w h). destruct (may_interlace w h) eqn:Ei.
    + assert (dim_ok ((h + 1) / 2)) as Hhh by (unfold dim_ok, MAX_DIM in *; lia).
      destruct (ubwc_yuv_size_ok _ _ w _ Ef eq_refl Hw Hhh) as [E2 B2].
      rewrite half_ok by (unfold dim_ok, MAX_DIM in *; lia).
      unfold may_interlace, INTERLACE_WIDTH_MAX, INTERLACE_HEIGHT_MAX in Ei. boolprop.
      assert ((2 * w + 511) * ((h + 1) / 2 + 511) <= 4351 * 1471) by nia.
      rewrite u32_small, align32 by range. f_equal. rewrite E2, interlaced_pages.
      replace ((up2 h + 1) / 2) with ((h + 1) / 2) by (unfold up2; lia). apply Z.mul_comm.
    + rewrite align32 by range. now rewrite E.
  - rewrite paged_pages. destruct (ubwc_yuv_size_ok _ _ w h Ef eq_refl Hw Hh) as [E B].
    pose proof (bound_yuv w h Hw Hh). rewrite align32 by range. rewrite E. cbn [coded_layout].
    unfold Doc.meta. now rewrite up2_half, !align_up2, !roundup_up2 by (lia || reflexivity).
  - pose proof (aligned_length (w * 4) 256 (8 * w) ltac:(lia) ltac:(lia)).
    pose proof (aligned_length h 32 h ltac:(lia) ltac:(lia)).
    pose proof (page_bound (Doc.align (w * 4) 256) (Doc.align h 32) 131583 16895 ltac:(lia) ltac:(lia)).
    rewrite page_plane_ok by (unfold plane_ok, MAX_DIM; lia). rewrite align32 by lia.
    unfold Doc.RGBA8888, Doc.paged, Doc.bytes. cbn [foldr Doc.stride Doc.scanlines].
    now rewrite align_up2, Z.add_0_r by (lia || reflexivity).
  - rgb w h.
  - rgb w h.
  - rgb w h.
  - rewrite paged_pages. destruct (ubwc_yuv_size_ok _ _ w h Ef eq_refl Hw Hh) as [E B].
    pose proof (bound_yuv w h Hw Hh). rewrite align32 by range. now rewrite E.
  - linear w h.
  - linear w h.
  - linear w h.
  - rgb w h.
Qed.

(** ** Capacity *)

(** The bytes of a row and the rows a picture needs in each plane; for the
    metadata planes, one byte for each tile. *)
Definition picture (f : mmm_color_fmts) (w h : Z) : list Doc.plane :=
  let hw := (w + 1) / 2 in
  let hh := (h + 1) / 2 in
  match f with
  | MMM_COLOR_FMT_NV12 | MMM_COLOR_FMT_NV21 | MMM_COLOR_FMT_NV12_512 =>
      [Doc.mkPlane w h; Doc.mkPlane (2 * hw) hh]
  | MMM_COLOR_FMT_P010 | MMM_COLOR_FMT_P010_512 =>
      [Doc.mkPlane (2 * w) h; Doc.mkPlane (4 * hw) hh]
  | MMM_COLOR_FMT_NV12_UBWC =>
      [Doc.mkPlane (Doc.roundup w 32) (Doc.roundup h 8); Doc.mkPlane w h;
       Doc.mkPlane (Doc.roundup hw 16) (Doc.roundup hh 8); Doc.mkPlane (2 * hw) hh]
  | MMM_COLOR_FMT_NV12_BPP10_UBWC =>
      [Doc.mkPlane (Doc.roundup w 48) (Doc.roundup h 4); Doc.mkPlane (w * 4 / 3) h;
       Doc.mkPlane (Doc.roundup hw 24) (Doc.roundup hh 4); Doc.mkPlane (2 * hw * 4 / 3) hh]
  | MMM_COLOR_FMT_P010_UBWC =>
      [Doc.mkPlane (Doc.roundup w 32) (Doc.roundup h 4); Doc.mkPlane (2 * w) h;
       Doc.mkPlane (Doc.roundup hw 16) (Doc.roundup hh 4); Doc.mkPlane (4 * hw) hh]
  | MMM_COLOR_FMT_RGBA8888 => [Doc.mkPlane (4 * w) h]
  | MMM_COLOR_FMT_RGBA8888_UBWC | MMM_COLOR_FMT_RGBA1010102_UBWC =>
      [Doc.mkPlane (Doc.roundup w 16) (Doc.roundup h 4); Doc.mkPlane (4 * w) h]
  | MMM_COLOR_FMT_RGB565_UBWC =>
      [Doc.mkPlane (Doc.roundup w 16) (Doc.roundup h 4); Doc.mkPlane (2 * w) h]
  | MMM_COLOR_FMT_RGBA16161616F_UBWC =>
      [Doc.mkPlane (Doc.roundup w 8) (Doc.roundup h 4); Doc.mkPlane (8 * w) h]
  end.

(** An interlaced buffer holds two pictures of half the height. *)
Definition contents (f : mmm_color_fmts) (interlaced : bool) (w h : Z) : list Doc.plane :=
  if interlaced && bool_decide (f = MMM_COLOR_FMT_NV12_UBWC)
  then picture f w ((h + 1) / 2) ++ picture f w ((h + 1) / 2)
  else picture f w h.

Definition fits (need have : Doc.plane) : Prop :=
  Doc.stride need <= Doc.stride have /\ Doc.scanlines need <= Doc.scanlines have.

Definition total (ps : list Doc.plane) : Z := foldr (fun p n => Doc.bytes p + n) 0 ps.

Lemma total_pages ps : total ps <= pages ps.
Proof.
  unfold total, pages. induction ps as [|p ps IH]; cbn [foldr]; [lia|].
  pose proof (align_bounds (Doc.bytes p) 4096 ltac:(lia)). lia.
Qed.

Lemma coded_size_total f i w h : total (coded_layout f i w h) <= coded_size f i w h.
Proof.
  unfold coded_size. pose proof (total_pages (coded_layout f i w h)).
  destruct (paged_fmt f); [rewrite paged_pages | unfold Doc.packed; fold (total (coded_layout f i w h))].
  - pose proof (align_bounds (pages (coded_layout f i w h)) 4096 ltac:(lia)). lia.
  - pose proof (align_bounds (total (coded_layout f i w h)) 4096 ltac:(lia)). lia.
Qed.

(** Every plane has room for its rows. *)
Lemma layout_fits f i w h : 0 < w -> 0 < h ->
  Forall2 fits (contents f i w h) (coded_layout f i w (up2 h)).
Proof.
  intros Hw Hh. unfold contents.
  assert (forall s l s' l', s <= s' -> l <= l' -> fits (Doc.mkPlane s l) (Doc.mkPlane s' l')) as Hfit
    by (split; assumption).
  destruct f, i; cbn [coded_layout andb picture bool_decide decide decide_rel mmm_color_fmts_eq_dec
    mmm_color_fmts_rec mmm_color_fmts_rect sumbool_rec sumbool_rect app];
    unfold Doc.NV12, Doc.NV21, Doc.NV12_UBWC_Interlaced, Doc.NV12_UBWC_Progressive, Doc.RGBA8888,
      Doc.RGBA8888_UBWC, Doc.RGBA1010102_UBWC, Doc.RGB565_UBWC, Doc.P010_UBWC, Doc.P010, Doc.P010_512,
      Doc.NV12_512, Doc.RGBA16161616F_UBWC, Doc.meta; cbv zeta; cbn [app];
    repeat (constructor; [apply Hfit; unfold Doc.align, Doc.roundup, up2; rewrite ?Z.shiftr_div_pow2 by lia;
      change (2 ^ 1) with 2; lia|]); try constructor.
Qed.

(** ** Interlaced buffers hold progressive pictures too *)

Lemma align_double x y a : 0 < a -> x <= 2 * y -> Doc.align x a <= 2 * Doc.align y a.
Proof.
  intros Ha Hxy. pose proof (align_bounds y a Ha).
  rewrite <- (align_multiple (2 * Doc.align y a) a Ha); [apply align_mono; lia|].
  apply Z.divide_mul_r, align_divide.
Qed.

Lemma pages_halved w h : 0 < w -> 0 < h ->
  pages (Doc.NV12_UBWC_Progressive w (up2 h)) <= 2 * pages (Doc.NV12_UBWC_Progressive w (up2 ((h + 1) / 2))).
Proof.
  intros Hw Hh. unfold Doc.NV12_UBWC_Progressive, pages, Doc.meta, Doc.bytes.
  cbn [foldr Doc.stride Doc.scanlines]. rewrite !up2_half, !align_up2, !roundup_up2 by (lia || reflexivity).
  assert (forall a l l', 0 <= a -> l <= 2 * l' ->
    Doc.align (a * l) 4096 <= 2 * Doc.align (a * l') 4096) as Hp.
  { intros a l l' Ha Hl. apply align_double; [lia | nia]. }
  assert (0 <= Doc.align (Doc.roundup w 32) 64) by (unfold Doc.align, Doc.roundup; lia).
  assert (0 <= Doc.align w 128) by (unfold Doc.align; lia).
  pose proof (Hp (Doc.align (Doc.roundup w 32) 64) (Doc.align (Doc.roundup h 8) 16)
    (Doc.align (Doc.roundup ((h + 1) / 2) 8) 16) ltac:(assumption)
    ltac:(unfold Doc.align, Doc.roundup; lia)).
  pose proof (Hp (Doc.align w 128) (Doc.align h 32) (Doc.align ((h + 1) / 2) 32) ltac:(assumption)
    ltac:(unfold Doc.align; lia)).
  pose proof (Hp (Doc.align (Doc.roundup w 32) 64) (Doc.align (Doc.roundup h 16) 16)
    (Doc.align (Doc.roundup ((h + 1) / 2) 16) 16) ltac:(assumption)
    ltac:(unfold Doc.align, Doc.roundup; lia)).
  pose proof (Hp (Doc.align w 128) (Doc.align ((h + 1) / 2) 32) (Doc.align (((h + 1) / 2 + 1) / 2) 32)
    ltac:(assumption) ltac:(unfold Doc.align; lia)).
  lia.
Qed.

(** Aligning the luma scanlines of NV12_BPP10_UBWC to 16 needs no more than to 32. *)
Lemma bpp10_at_most w h :
  0 < w -> coded_size MMM_COLOR_FMT_NV12_BPP10_UBWC false w h <= Doc.size MMM_COLOR_FMT_NV12_BPP10_UBWC false w h.
Proof.
  intros Hw. unfold coded_size, Doc.size, Doc.paged. cbn [paged_fmt coded_layout Doc.NV12_BPP10_UBWC foldr].
  apply align_mono; [lia|]. apply Z.add_le_mono_l, Z.add_le_mono_r. apply align_mono; [lia|].
  unfold Doc.bytes. cbn [Doc.stride Doc.scanlines]. apply Z.mul_le_mono_nonneg_l; unfold Doc.align; lia.
Qed.

(** ** Theorems *)

Lemma up2_even h : up2 h = if Z.even h then h else h + 1.
Proof.
  unfold up2. destruct (Z.even h) eqn:E.
  - apply Z.even_spec in E as [k ->]. lia.
  - rewrite <- Z.negb_odd in E. apply negb_false_iff, Z.odd_spec in E as [k ->]. lia.
Qed.

(** C34. MMM_COLOR_FMT_BUFFER_SIZE returns the total size the comment of the format
    documents, without wrap-around, for all frames up to 16384 by 16384, with two
    exceptions that the comments do not make: a frame of odd height counts as one line
    more, and NV12_BPP10_UBWC has its luma scanlines aligned to 16 where its comment says
    32, so its buffers are at most as large as documented and can be smaller
    ([bpp10_smaller_than_documented]).  NV12 UBWC frames small enough to be interlaced get
    the interlaced layout. *)
Theorem buffer_size_documented color_fmt f w h :
  fmt_of color_fmt = Some f -> dim_ok w -> dim_ok h ->
  let Height := if Z.even h then h else h + 1 in
  match f with
  | MMM_COLOR_FMT_NV12_BPP10_UBWC =>
      MMM_COLOR_FMT_BUFFER_SIZE color_fmt w h = Doc.paged
        [ Doc.meta w Height 48 4;
          Doc.mkPlane (Doc.align (w * 4 / 3) 256) (Doc.align Height 16);
          Doc.meta w Height 48 8;
          Doc.mkPlane (Doc.align (w * 4 / 3) 256) (Doc.align (Height / 2) 16) ] /\
      MMM_COLOR_FMT_BUFFER_SIZE color_fmt w h <= Doc.size f false w Height
  | _ => MMM_COLOR_FMT_BUFFER_SIZE color_fmt w h = Doc.size f (may_interlace w h) w Height
  end.
Proof.
  intros Ef Hw Hh. cbv zeta. rewrite <- up2_even, (BUFFER_SIZE_ok _ _ _ _ Ef Hw Hh).
  destruct f; try reflexivity. split; [reflexivity|]. apply bpp10_at_most. apply Hw.
Qed.

Lemma buffer_size_documented_witness :
  MMM_COLOR_FMT_BUFFER_SIZE 2 1920 1079 = Doc.size MMM_COLOR_FMT_NV12_UBWC true 1920 1080 /\
  MMM_COLOR_FMT_BUFFER_SIZE 2 1920 1079 = 3219456.
Proof.
  split; [|vm_compute; reflexivity].
  apply (buffer_size_documented 2 MMM_COLOR_FMT_NV12_UBWC 1920 1079);
    [reflexivity | split; vm_compute; (reflexivity || discriminate) ..].
Defined.



(** The size in use never exceeds the size allocated, whatever the format
    number and whether or not the frame is interlaced: the interlaced layout
    NV12 UBWC buffers are allocated with also holds a progressive frame. *)
Theorem used_within_allocated color_fmt w h interlace :
  dim_ok w -> dim_ok h ->
  MMM_COLOR_FMT_BUFFER_SIZE_USED color_fmt w h interlace <= MMM_COLOR_FMT_BUFFER_SIZE color_fmt w h.
Proof.
  intros Hw Hh. unfold MMM_COLOR_FMT_BUFFER_SIZE_USED.
  assert ((w =? 0) || (h =? 0) = false) as -> by (unfold dim_ok in *; lia).
  destruct (interlace =? 0); cbn [andb]; [|lia].
  destruct (bool_decide_reflect (fmt_of color_fmt = Some MMM_COLOR_FMT_NV12_UBWC)) as [Ef|]; [|lia].
  rewrite (BUFFER_SIZE_ok _ _ _ _ Ef Hw Hh).
  destruct (ubwc_yuv_size_ok _ _ w h Ef eq_refl Hw Hh) as [E B]. pose proof (bound_yuv w h Hw Hh).
  rewrite align32 by range. rewrite E. unfold coded_size. cbn [paged_fmt coded_layout].
  rewrite paged_pages. apply align_mono; [lia|].
  destruct (may_interlace w h); [|lia]. rewrite interlaced_pages.
  replace ((up2 h + 1) / 2) with ((h + 1) / 2) by (unfold up2; lia).
  apply pages_halved; [apply Hw | apply Hh].
Qed.

Lemma used_within_allocated_witness :
  MMM_COLOR_FMT_BUFFER_SIZE_USED 2 1280 720 0 <= MMM_COLOR_FMT_BUFFER_SIZE 2 1280 720 /\
  MMM_COLOR_FMT_BUFFER_SIZE_USED 2 1280 720 0 = 1445888.
Proof.
  split; [|vm_compute; reflexivity].
  apply (used_within_allocated 2 1280 720 0); split; vm_compute; (reflexivity || discriminate).
Defined.

(** The comment of NV12_BPP10_UBWC documents luma scanlines aligned to 32;
    the code aligns them to 16, and its buffers can be smaller than documented. *)
Theorem bpp10_smaller_than_documented :
  MMM_COLOR_FMT_BUFFER_SIZE 3 1920 1072 < Doc.size MMM_COLOR_FMT_NV12_BPP10_UBWC false 1920 1072 /\
  MMM_COLOR_FMT_Y_SCANLINES 3 1072 = 1072 /\
  Doc.scanlines (nth 1 (Doc.NV12_BPP10_UBWC 1920 1072) (Doc.mkPlane 0 0)) = 1088.
Proof. split; [|split]; vm_compute; reflexivity. Qed.
