(* ===== verification/AudioEffect.v ===== *)
(** * What the audio effect libraries share

    The types of the platform's [hardware/audio_effect.h] that
    [voice_processing.c] and [volume_listener.c] both use, the error numbers they
    return, and the checks they make on reply buffers. *)

From S2P Require Import Prelude.

Record effect_uuid_t := mkUuid {
  timeLow : Z; timeMid : Z; timeHiAndVersion : Z; clockSeq : Z; node : list Z }.

#[global] Instance effect_uuid_eq_dec : EqDecision effect_uuid_t.
Proof. solve_decision. Defined.

Definition sizeof_int : Z := 4.
Definition ENOMEM : Z := 12.
Definition EINVAL : Z := 22.
Definition ENOSYS : Z := 38.
Definition ENODATA : Z := 61.

Record effect_descriptor_t := mkDescriptor {
  d_type : effect_uuid_t;
  d_uuid : effect_uuid_t;
  d_apiVersion : Z;
  d_flags : Z;
  d_cpuLoad : Z;
  d_memoryUsage : Z;
  d_name : string;
  d_implementor : string;
}.

(** [l[i]]; an index out of range is undefined. *)
Definition at_index {A} (l : list A) (i : Z) : ub A :=
  if i <? 0 then Undef else match l !! Z.to_nat i with Some x => Ret x | None => Undef end.

(** [*replySize]; [pReply] says that [pReplyData] is not null. *)
Definition reply_size (replySize : option Z) : ub Z :=
  match replySize with Some n => Ret n | None => Undef end.

(** [pReplyData == NULL || *replySize != n] *)
Definition bad_reply (pReply : bool) (replySize : option Z) (n : Z) : ub bool :=
  if negb pReply then Ret true else r ← reply_size replySize; Ret (negb (r =? n)).
