(* ===== verification/VoiceProcessing.v ===== *)
(** * The voice pre-processing effects

    Models [audio/effects/voice_processing.c], the effect library that stands for
    the echo canceller and the noise suppressor the modem DSP runs.  The heap of
    sessions is a finite map from addresses, the library's list of them a list of
    addresses, and a handle the address of a session with the index of one of its
    effects; following a null or dangling pointer is [Undef].  Every function of
    the file is a definition of its name, and the control interface keeps the
    order of its checks.

    [invariant] is the library's data structure invariant.  The abstract library
    [Spec] knows only which effect of which audio session exists and in which
    state; the implementation refines it. *)

From S2P Require Import Prelude AudioEffect.

(** ** Values of headers outside the repository *)

Class AudioEffectHeader := {
  FX_IID_AEC : effect_uuid_t;
  FX_IID_NS : effect_uuid_t;
  EFFECT_CONTROL_API_VERSION : Z;
  EFFECT_FLAG_TYPE_PRE_PROC : Z;
  EFFECT_FLAG_DEVICE_IND : Z;
  EFFECT_FLAG_HW_ACC_TUNNEL : Z;
  EFFECT_FLAG_OFFLOAD_SUPPORTED : Z;
  AUDIO_CHANNEL_IN_MONO : Z;
  AUDIO_FORMAT_PCM_16_BIT : Z;
  EFFECT_CONFIG_SMP_RATE : Z;
  EFFECT_CONFIG_CHANNELS : Z;
  EFFECT_CONFIG_FORMAT : Z;
  sizeof_effect_config_t : Z;
  sizeof_effect_param_t : Z;
}.

(** ** Data *)

Definition AEC_ID : Z := 0.
Definition NS_ID : Z := 1.
Definition NUM_ID : Z := 2.

Inductive session_state := SESSION_STATE_INIT | SESSION_STATE_CONFIG.

(** A state is only ever assigned one of these, so the [default] cases, which
    abort, have no counterpart. *)
Inductive effect_state :=
| EFFECT_STATE_INIT | EFFECT_STATE_CREATED | EFFECT_STATE_CONFIG | EFFECT_STATE_ACTIVE.

#[global] Instance effect_state_eq_dec : EqDecision effect_state.
Proof. solve_decision. Defined.

Definition addr : Type := Z.

Record effect_s := mkEffect {
  fx_id : Z;
  fx_state : effect_state;
  fx_session : option addr;
}.

Record buffer_config_t := mkBufferConfig {
  samplingRate : Z; channels : Z; format : Z; mask : Z }.
Record effect_config_t := mkConfig { inputCfg : buffer_config_t; outputCfg : buffer_config_t }.

Record session_s := mkVoiceSession {
  config : effect_config_t;
  effects : list effect_s;
  s_state : session_state;
  s_id : Z;
  s_io : Z;
  created_msk : Z;
  enabled_msk : Z;
  processed_msk : Z;
}.

(** The static variables and the heap. *)
Record lib := mkLib {
  init_status : Z;
  descriptors : list effect_descriptor_t;
  uuid_to_id_table : list (option effect_uuid_t);
  heap : gmap addr session_s;
  session_list : list addr;
}.

(** [(effect_handle_t)&effect->itfe]: the effect of a session. *)
Definition effect_handle_t : Type := addr * Z.

Section WithHeader.
Context {H : AudioEffectHeader}.

Definition effect_flags : Z :=
  Z.lor (Z.lor (Z.lor EFFECT_FLAG_TYPE_PRE_PROC EFFECT_FLAG_DEVICE_IND) EFFECT_FLAG_HW_ACC_TUNNEL)
    EFFECT_FLAG_OFFLOAD_SUPPORTED.

Definition qcom_default_aec_descriptor : effect_descriptor_t :=
  mkDescriptor
    (mkUuid 0x7b491460 0x8d4d 0x11e0 0xbd61 [0x00; 0x02; 0xa5; 0xd5; 0xc5; 0x1b])
    (mkUuid 0x0f8d0d2a 0x59e5 0x45fe 0xb6e4 [0x24; 0x8c; 0x8a; 0x79; 0x91; 0x09])
    EFFECT_CONTROL_API_VERSION effect_flags 0 0
    "Acoustic Echo Canceler" "Qualcomm Fluence".

Definition qcom_default_ns_descriptor : effect_descriptor_t :=
  mkDescriptor
    (mkUuid 0x58b4b260 0x8e06 0x11e0 0xaa8e [0x00; 0x02; 0xa5; 0xd5; 0xc5; 0x1b])
    (mkUuid 0x1d97bb0b 0x9e2f 0x4403 0x9ae3 [0x58; 0xc2; 0x55; 0x43; 0x06; 0xf8])
    EFFECT_CONTROL_API_VERSION effect_flags 0 0
    "Noise Suppression" "Qualcomm Fluence".

(** The library as it is loaded. *)
Definition lib_start : lib :=
  mkLib 1 [qcom_default_aec_descriptor; qcom_default_ns_descriptor] [None; None] ∅ [].

(** ** Pointers *)

Definition deref (st : lib) (p : option addr) : ub session_s :=
  match p with
  | None => Undef
  | Some a => match heap st !! a with Some s => Ret s | None => Undef end
  end.

Definition deref_effect (st : lib) (h : effect_handle_t) : ub effect_s :=
  s ← deref st (Some h.1); at_index (effects s) h.2.

Definition with_heap (m : gmap addr session_s) (st : lib) : lib :=
  mkLib (init_status st) (descriptors st) (uuid_to_id_table st) m (session_list st).
Definition with_list (l : list addr) (st : lib) : lib :=
  mkLib (init_status st) (descriptors st) (uuid_to_id_table st) (heap st) l.

(** Assign to the session, or the effect, at an address. *)
Definition modify (f : session_s -> session_s) (a : addr) (st : lib) : lib :=
  with_heap (alter f a (heap st)) st.

Definition with_masks (created enabled processed : Z) (s : session_s) : session_s :=
  mkVoiceSession (config s) (effects s) (s_state s) (s_id s) (s_io s) created enabled processed.
Definition with_effect (i : Z) (e : effect_s) (s : session_s) : session_s :=
  mkVoiceSession (config s) (<[Z.to_nat i := e]> (effects s)) (s_state s) (s_id s) (s_io s)
    (created_msk s) (enabled_msk s) (processed_msk s).
Definition with_config (c : effect_config_t) (v : session_state) (s : session_s) : session_s :=
  mkVoiceSession c (effects s) v (s_id s) (s_io s) (created_msk s) (enabled_msk s) (processed_msk s).

(** [1 << id] and [~(1 << id)] on [uint32_t] masks. *)
Definition bit (id : Z) : Z := u32 (Z.shiftl 1 id).
Definition clear (id m : Z) : Z := Z.land m (u32 (Z.lnot (Z.shiftl 1 id))).

(** ** Helper functions *)

Definition id_to_uuid (EFFECT_UUID_NULL : option effect_uuid_t) (st : lib) (id : Z)
    : ub (option effect_uuid_t) :=
  if NUM_ID <=? id then Ret EFFECT_UUID_NULL else at_index (uuid_to_id_table st) id.

(** The first index from [i] whose entry is [uuid], [NUM_ID] if there is none. *)
Fixpoint uuid_to_id_from (uuid : effect_uuid_t) (table : list (option effect_uuid_t)) (i : Z) : ub Z :=
  match table with
  | [] => Ret i
  | None :: _ => Undef
  | Some u :: table => if decide (uuid = u) then Ret i else uuid_to_id_from uuid table (i + 1)
  end.
Definition uuid_to_id (st : lib) (uuid : effect_uuid_t) : ub Z :=
  uuid_to_id_from uuid (uuid_to_id_table st) 0.

(** ** Effect functions *)

Definition session_set_fx_enabled (st : lib) (p : option addr) (id : Z) (enabled : bool) : ub lib :=
  s ← deref st p;
  match p with
  | None => Undef
  | Some a =>
      let m := if enabled then Z.lor (enabled_msk s) (bit id) else clear id (enabled_msk s) in
      Ret (modify (with_masks (created_msk s) m 0) a st)
  end.

Definition effect_set_state (st : lib) (h : effect_handle_t) (state : effect_state) : ub (Z * lib) :=
  e ← deref_effect st h;
  '(status, st1) ← match state, fx_state e with
    | EFFECT_STATE_INIT, EFFECT_STATE_ACTIVE =>
        st1 ← session_set_fx_enabled st (fx_session e) (fx_id e) false; Ret (0, st1)
    | EFFECT_STATE_INIT, _ => Ret (0, st)
    | EFFECT_STATE_CREATED, EFFECT_STATE_INIT => Ret (0, st)
    | EFFECT_STATE_CREATED, _ => Ret (- ENOSYS, st)
    | EFFECT_STATE_CONFIG, EFFECT_STATE_INIT => Ret (- ENOSYS, st)
    | EFFECT_STATE_CONFIG, EFFECT_STATE_ACTIVE =>
        st1 ← session_set_fx_enabled st (fx_session e) (fx_id e) false; Ret (0, st1)
    | EFFECT_STATE_CONFIG, _ => Ret (0, st)
    | EFFECT_STATE_ACTIVE, (EFFECT_STATE_INIT | EFFECT_STATE_CREATED) => Ret (- ENOSYS, st)
    | EFFECT_STATE_ACTIVE, EFFECT_STATE_ACTIVE => Ret (0, st)
    | EFFECT_STATE_ACTIVE, EFFECT_STATE_CONFIG =>
        st1 ← session_set_fx_enabled st (fx_session e) (fx_id e) true; Ret (0, st1)
    end;
  if status =? 0
  then Ret (status, modify (with_effect h.2 (mkEffect (fx_id e) state (fx_session e))) h.1 st1)
  else Ret (status, st1).

Definition effect_init (id : Z) (e : effect_s) : effect_s :=
  mkEffect id EFFECT_STATE_INIT (fx_session e).

Definition effect_create (st : lib) (h : effect_handle_t) (session : addr) : ub (Z * lib) :=
  e ← deref_effect st h;
  let st1 := modify (with_effect h.2 (mkEffect (fx_id e) (fx_state e) (Some session))) h.1 st in
  effect_set_state st1 h EFFECT_STATE_CREATED.

Definition effect_release (st : lib) (h : effect_handle_t) : ub (Z * lib) :=
  effect_set_state st h EFFECT_STATE_INIT.

(** ** Session functions *)

(** [calloc]: everything is zero. *)
Definition zero_config : effect_config_t :=
  mkConfig (mkBufferConfig 0 0 0 0) (mkBufferConfig 0 0 0 0).
Definition zero_effect : effect_s := mkEffect 0 EFFECT_STATE_INIT None.
Definition zero_session : session_s :=
  mkVoiceSession zero_config (replicate (Z.to_nat NUM_ID) zero_effect) SESSION_STATE_INIT 0 0 0 0 0.

Definition session_init (s : session_s) : session_s :=
  mkVoiceSession (config s) (imap (fun i e => effect_init (Z.of_nat i) e) (effects s))
    SESSION_STATE_INIT 0 0 0 (enabled_msk s) (processed_msk s).

Definition mono_16k (c : buffer_config_t) : buffer_config_t :=
  mkBufferConfig 16000 AUDIO_CHANNEL_IN_MONO AUDIO_FORMAT_PCM_16_BIT (mask c).

Definition session_create_effect (st : lib) (a : addr) (id : Z) : ub (Z * lib) :=
  s ← deref st (Some a);
  let st1 := if created_msk s =? 0
             then modify (fun s => with_masks (created_msk s) 0 0
                     (with_config (mkConfig (mono_16k (inputCfg (config s)))
                                            (mono_16k (outputCfg (config s)))) (s_state s) s)) a st
             else st in
  '(status, st2) ← effect_create st1 (a, id) a;
  if status <? 0 then Ret (status, st2) else
  Ret (status, modify (fun s => with_masks (Z.lor (created_msk s) (bit id)) (enabled_msk s)
                                  (processed_msk s) s) a st2).

(** [list_remove] and [free]. *)
Definition free_session (a : addr) (st : lib) : lib :=
  with_list (filter (fun b => b <> a) (session_list st)) (with_heap (delete a (heap st)) st).

Definition session_release_effect (st : lib) (a : addr) (fx : effect_handle_t) : ub (Z * lib) :=
  '(_, st1) ← effect_release st fx;
  e ← deref_effect st1 fx;
  s ← deref st1 (Some a);
  let st2 := modify (fun s => with_masks (clear (fx_id e) (created_msk s)) (enabled_msk s)
                                (processed_msk s) s) a st1 in
  s2 ← deref st2 (Some a);
  Ret (0, if created_msk s2 =? 0 then free_session a st2 else st2).

Definition session_set_config (st : lib) (p : option addr) (c : effect_config_t) : ub (Z * lib) :=
  if negb (samplingRate (inputCfg c) =? samplingRate (outputCfg c)) ||
     negb (format (inputCfg c) =? format (outputCfg c)) ||
     negb (format (inputCfg c) =? AUDIO_FORMAT_PCM_16_BIT)
  then Ret (- EINVAL, st) else
  s ← deref st p;
  if negb (enabled_msk s =? 0) then
    if negb (samplingRate (inputCfg (config s)) =? samplingRate (inputCfg c)) ||
       negb (channels (inputCfg (config s)) =? channels (inputCfg c)) ||
       negb (channels (outputCfg (config s)) =? channels (outputCfg c))
    then Ret (- ENOSYS, st) else Ret (0, st)
  else
    match p with
    | None => Undef
    | Some a => Ret (0, modify (with_config c SESSION_STATE_CONFIG) a st)
    end.

Definition session_get_config (st : lib) (p : option addr) : ub effect_config_t :=
  s ← deref st p;
  let m := Z.lor (Z.lor EFFECT_CONFIG_SMP_RATE EFFECT_CONFIG_CHANNELS) EFFECT_CONFIG_FORMAT in
  let set c := mkBufferConfig (samplingRate c) (channels c) (format c) m in
  Ret (mkConfig (set (inputCfg (config s))) (set (outputCfg (config s)))).

(** ** Global functions *)

(** The walk over the list: the session with this id, or [None] at its end. *)
Fixpoint find_session (st : lib) (l : list addr) (sessionId : Z) : ub (option addr) :=
  match l with
  | [] => Ret None
  | a :: l =>
      s ← deref st (Some a);
      if s_id s =? sessionId then Ret (Some a) else find_session st l sessionId
  end.

(** [calloc] returns [alloc]. *)
Definition get_session (st : lib) (id sessionId ioId : Z) (alloc : option addr)
    : ub (option addr * lib) :=
  found ← find_session st (session_list st) sessionId;
  match found with
  | Some a =>
      s ← deref st (Some a);
      if negb (Z.land (created_msk s) (bit id) =? 0) then Ret (None, st) else Ret (Some a, st)
  | None =>
      match alloc with
      | None => Ret (None, st)
      | Some a =>
          let s := session_init zero_session in
          let s := mkVoiceSession (config s) (effects s) (s_state s) sessionId ioId
                     (created_msk s) (enabled_msk s) (processed_msk s) in
          Ret (Some a, with_list (session_list st ++ [a]) (with_heap (<[a := s]> (heap st)) st))
      end
  end.

(** The descriptor library of the product, if it can be opened, and the
    descriptors it defines. *)
Definition product_lib : Type :=
  option (option effect_descriptor_t * option effect_descriptor_t).

Definition init (product : product_lib) (st : lib) : Z * lib :=
  if init_status st <=? 0 then (init_status st, st) else
  let ds := match product with
            | None => descriptors st
            | Some (aec, ns) =>
                let ds := match aec with Some d => <[0%nat := d]> (descriptors st) | None => descriptors st end in
                match ns with Some d => <[1%nat := d]> ds | None => ds end
            end in
  (0, mkLib 0 ds [Some FX_IID_AEC; Some FX_IID_NS] (heap st) []).

Definition get_descriptor (st : lib) (uuid : effect_uuid_t) : option effect_descriptor_t :=
  list_find (fun d => d_uuid d = uuid) (descriptors st) ≫= fun x => Some x.2.

(** ** Effect control interface *)

(** [inBuffer] and [outBuffer] and their [raw] pointers, null or not. *)
Definition fx_process (st : lib) (self : option effect_handle_t) (buffers : bool) : ub (Z * lib) :=
  match self with
  | None => Ret (- EINVAL, st)
  | Some h =>
      if negb buffers then Ret (- EINVAL, st) else
      e ← deref_effect st h;
      s ← deref st (fx_session e);
      match fx_session e with
      | None => Undef
      | Some a =>
          let processed := Z.lor (processed_msk s) (bit (fx_id e)) in
          if Z.land processed (enabled_msk s) =? enabled_msk s
          then Ret (0, modify (with_masks (created_msk s) (enabled_msk s) 0) a st)
          else Ret (- ENODATA, modify (with_masks (created_msk s) (enabled_msk s) processed) a st)
      end
  end.

Inductive effect_cmd :=
| EFFECT_CMD_INIT | EFFECT_CMD_SET_CONFIG | EFFECT_CMD_GET_CONFIG | EFFECT_CMD_RESET
| EFFECT_CMD_GET_PARAM | EFFECT_CMD_SET_PARAM | EFFECT_CMD_ENABLE | EFFECT_CMD_DISABLE
| EFFECT_CMD_SET_DEVICE | EFFECT_CMD_SET_INPUT_DEVICE | EFFECT_CMD_SET_VOLUME
| EFFECT_CMD_SET_AUDIO_MODE | EFFECT_CMD_OTHER.

#[global] Instance effect_cmd_eq_dec : EqDecision effect_cmd.
Proof. solve_decision. Defined.

(** The command data, as the types the code reads it at. *)
Record cmd_data := mkCmdData { as_config : effect_config_t; as_psize : Z }.

(** What is written to [pReplyData]. *)
Inductive reply :=
| NoReply
| ReplyInt (v : Z)
| ReplyConfig (c : effect_config_t)
| ReplyParam (copied status : Z).   (* the bytes copied from the command *)

Definition fx_command (st : lib) (self : option effect_handle_t) (cmdCode : effect_cmd) (cmdSize : Z)
    (pCmdData : option cmd_data) (replySize : option Z) (pReply : bool) : ub (Z * reply * lib) :=
  match self with
  | None => Ret (- EINVAL, NoReply, st)
  | Some h =>
      let invalid := Ret (- EINVAL, NoReply, st) in
      match cmdCode with
      | EFFECT_CMD_INIT =>
          bad ← bad_reply pReply replySize sizeof_int;
          if bad : bool then invalid else Ret (0, ReplyInt 0, st)
      | EFFECT_CMD_SET_CONFIG =>
          match pCmdData with
          | None => invalid
          | Some data =>
              if negb (cmdSize =? sizeof_effect_config_t) then invalid else
              bad ← bad_reply pReply replySize sizeof_int;
              if bad : bool then invalid else
              e ← deref_effect st h;
              '(r, st1) ← session_set_config st (fx_session e) (as_config data);
              if negb (r =? 0) then Ret (0, ReplyInt r, st1) else
              e1 ← deref_effect st1 h;
              if bool_decide (fx_state e1 = EFFECT_STATE_ACTIVE) then Ret (0, ReplyInt r, st1) else
              '(r2, st2) ← effect_set_state st1 h EFFECT_STATE_CONFIG;
              Ret (0, ReplyInt r2, st2)
          end
      | EFFECT_CMD_GET_CONFIG =>
          bad ← bad_reply pReply replySize sizeof_effect_config_t;
          if bad : bool then invalid else
          e ← deref_effect st h;
          c ← session_get_config st (fx_session e);
          Ret (0, ReplyConfig c, st)
      | EFFECT_CMD_RESET => Ret (0, NoReply, st)
      | EFFECT_CMD_GET_PARAM =>
          match pCmdData with
          | None => invalid
          | Some data =>
              if cmdSize <? sizeof_effect_param_t then invalid else
              if negb pReply then invalid else
              r ← reply_size replySize;
              if (r <? sizeof_effect_param_t) ||
                 (r - sizeof_effect_param_t <? as_psize data) ||
                 (cmdSize - sizeof_effect_param_t <? as_psize data)
              then invalid
              else Ret (0, ReplyParam (sizeof_effect_param_t + as_psize data) (- ENOSYS), st)
          end
      | EFFECT_CMD_SET_PARAM =>
          match pCmdData with
          | None => invalid
          | Some data =>
              if cmdSize <? sizeof_effect_param_t then invalid else
              bad ← bad_reply pReply replySize sizeof_int;
              if bad : bool then invalid else
              if negb (as_psize data =? sizeof_int) then invalid else
              Ret (0, ReplyInt (- ENOSYS), st)
          end
      | EFFECT_CMD_ENABLE =>
          bad ← bad_reply pReply replySize sizeof_int;
          if bad : bool then invalid else
          '(r, st1) ← effect_set_state st h EFFECT_STATE_ACTIVE; Ret (0, ReplyInt r, st1)
      | EFFECT_CMD_DISABLE =>
          bad ← bad_reply pReply replySize sizeof_int;
          if bad : bool then invalid else
          '(r, st1) ← effect_set_state st h EFFECT_STATE_CONFIG; Ret (0, ReplyInt r, st1)
      | EFFECT_CMD_SET_DEVICE | EFFECT_CMD_SET_INPUT_DEVICE | EFFECT_CMD_SET_VOLUME
      | EFFECT_CMD_SET_AUDIO_MODE =>
          match pCmdData with
          | None => invalid
          | Some _ => if negb (cmdSize =? sizeof_int) then invalid else Ret (0, NoReply, st)
          end
      | EFFECT_CMD_OTHER => invalid
      end
  end.

Definition fx_get_descriptor (st : lib) (self : option effect_handle_t) (pDescriptor : bool)
    : ub (Z * option effect_descriptor_t) :=
  match self with
  | None => Ret (- EINVAL, None)
  | Some h =>
      if negb pDescriptor then Ret (- EINVAL, None) else
      e ← deref_effect st h;
      d ← at_index (descriptors st) (fx_id e);
      Ret (0, Some d)
  end.

(** ** Effect library interface *)

(** The handle is returned when the status is 0. *)
Definition lib_create (product : product_lib) (alloc : option addr) (uuid : effect_uuid_t)
    (sessionId ioId : Z) (st : lib) : ub (Z * option effect_handle_t * lib) :=
  let '(i, st) := init product st in
  if negb (i =? 0) then Ret (i, None, st) else
  match get_descriptor st uuid with
  | None => Ret (- EINVAL, None, st)
  | Some desc =>
      id ← uuid_to_id st (d_type desc);
      if NUM_ID <=? id then Ret (- EINVAL, None, st) else
      '(session, st1) ← get_session st id sessionId ioId alloc;
      match session with
      | None => Ret (- EINVAL, None, st1)
      | Some a =>
          '(status, st2) ← session_create_effect st1 a id;
          s ← deref st2 (Some a);
          if (status <? 0) && (created_msk s =? 0)
          then Ret (status, Some (a, id), free_session a st2)
          else Ret (status, Some (a, id), st2)
      end
  end.

(** The walk of [lib_release] over the list. *)
Fixpoint on_list (l : list addr) (p : option addr) : bool :=
  match l with
  | [] => false
  | a :: l => if bool_decide (Some a = p) then true else on_list l p
  end.

Definition lib_release (product : product_lib) (interface : effect_handle_t) (st : lib) : ub (Z * lib) :=
  let '(i, st) := init product st in
  if negb (i =? 0) then Ret (i, st) else
  match session_list st with
  | [] => Ret (- EINVAL, st)
  | _ =>
      e ← deref_effect st interface;
      if on_list (session_list st) (fx_session e) then
        match fx_session e with
        | None => Undef
        | Some a => '(_, st1) ← session_release_effect st a interface; Ret (0, st1)
        end
      else Ret (- EINVAL, st)
  end.

Definition lib_get_descriptor (product : product_lib) (uuid : option effect_uuid_t)
    (pDescriptor : bool) (st : lib) : Z * option effect_descriptor_t * lib :=
  match uuid with
  | None => (- EINVAL, None, st)
  | Some u =>
      if negb pDescriptor then (- EINVAL, None, st) else
      let '(i, st) := init product st in
      if negb (i =? 0) then (i, None, st) else
      match get_descriptor st u with
      | None => (- EINVAL, None, st)
      | Some d => (0, Some d, st)
      end
  end.

End WithHeader.

(** Run the next statement of a monadic body whose first one returned. *)
Ltac ret_step :=
  match goal with |- context [mbind (M := ub) ?f (Ret ?x)] =>
    change (mbind (M := ub) f (Ret x)) with (f x) end; cbv beta iota zeta.

(** ** Well-formed sessions *)

Definition created (v : effect_state) : bool := negb (bool_decide (v = EFFECT_STATE_INIT)).
Definition active (v : effect_state) : bool := bool_decide (v = EFFECT_STATE_ACTIVE).
Definition bits (b0 b1 : bool) : Z := Z.b2z b0 + 2 * Z.b2z b1.

(** A session whose effects are in states [v0] and [v1]: the masks are those of
    the states. *)
Definition sess (c : effect_config_t) (v : session_state) (sid io : Z)
    (v0 : effect_state) (p0 : option addr) (v1 : effect_state) (p1 : option addr) (pr : Z) : session_s :=
  mkVoiceSession c [mkEffect 0 v0 p0; mkEffect 1 v1 p1] v sid io
    (bits (created v0) (created v1)) (bits (active v0) (active v1)) pr.

(** A session at address [a]; the effects in use point back to it. *)
Inductive session_ok (a : addr) : session_s -> Prop :=
| Session_ok c v sid io v0 p0 v1 p1 pr :
    (v0 <> EFFECT_STATE_INIT -> p0 = Some a) -> (v1 <> EFFECT_STATE_INIT -> p1 = Some a) ->
    0 <= pr < 4 -> session_ok a (sess c v sid io v0 p0 v1 p1 pr).

Definition put_session (a : addr) (s : session_s) (st : lib) : lib :=
  with_heap (<[a := s]> (heap st)) st.

Lemma modify_put f a s st : heap st !! a = Some s -> modify f a st = put_session a (f s) st.
Proof.
  intros E. unfold modify, put_session. f_equal. apply map_eq. intros b.
  destruct (decide (a = b)) as [<-|Hn].
  - rewrite lookup_alter_eq, lookup_insert_eq, E. reflexivity.
  - now rewrite lookup_alter_ne, lookup_insert_ne by assumption.
Qed.

Lemma put_put a s s' st : put_session a s (put_session a s' st) = put_session a s st.
Proof. unfold put_session, with_heap. cbn. now rewrite insert_insert_eq. Qed.

Lemma put_lookup a s st : heap (put_session a s st) !! a = Some s.
Proof. cbn. apply lookup_insert_eq. Qed.

Lemma put_same a s st : heap st !! a = Some s -> put_session a s st = st.
Proof. intros E. unfold put_session. rewrite insert_id by assumption. now destruct st. Qed.

Lemma deref_at st a s : heap st !! a = Some s -> deref st (Some a) = Ret s.
Proof. intros E. cbn. now rewrite E. Qed.

Lemma set_fx_enabled_at st a s id b : heap st !! a = Some s ->
  session_set_fx_enabled st (Some a) id b = Ret (put_session a
    (with_masks (created_msk s) (if b then Z.lor (enabled_msk s) (bit id) else clear id (enabled_msk s)) 0 s) st).
Proof.
  intros E. unfold session_set_fx_enabled. rewrite (deref_at _ _ _ E).
  ret_step. now rewrite (modify_put _ _ _ _ E).
Qed.

(** The transitions [effect_set_state] allows. *)
Definition transition (new cur : effect_state) : bool :=
  match new, cur with
  | EFFECT_STATE_INIT, _ => true
  | EFFECT_STATE_CREATED, EFFECT_STATE_INIT => true
  | EFFECT_STATE_CONFIG, EFFECT_STATE_INIT => false
  | EFFECT_STATE_CONFIG, _ => true
  | EFFECT_STATE_ACTIVE, (EFFECT_STATE_ACTIVE | EFFECT_STATE_CONFIG) => true
  | _, _ => false
  end.

(** A change of the enabled effects restarts the current round of processing. *)
Definition round_after (new cur : effect_state) (pr : Z) : Z :=
  if eqb (active new) (active cur) then pr else 0.

(** An effect of a session, by its index. *)
Definition is_id (i : Z) : Prop := i = 0 \/ i = 1.

(** The effect [i] of a session, set to state [new] (its masks, the round and the
    back pointer included). *)
Definition set_fx (i : Z) (new : effect_state) (a : addr) (s : session_s) : session_s :=
  match effects s with
  | [e0; e1] =>
      if i =? 0
      then sess (config s) (s_state s) (s_id s) (s_io s) new (Some a) (fx_state e1) (fx_session e1)
             (round_after new (fx_state e0) (processed_msk s))
      else sess (config s) (s_state s) (s_id s) (s_io s) (fx_state e0) (fx_session e0) new (Some a)
             (round_after new (fx_state e1) (processed_msk s))
  | _ => s
  end.

(** [effect_set_state] leaves the mask of the created effects to its callers. *)
Definition keep_created (s s' : session_s) : session_s :=
  with_masks (created_msk s) (enabled_msk s') (processed_msk s') s'.

Section Proofs.
Context {H : AudioEffectHeader}.

Lemma deref_effect_at st a s i :
  heap st !! a = Some s -> is_id i -> session_ok a s ->
  exists e, deref_effect st (a, i) = Ret e /\ effects s !! Z.to_nat i = Some e /\ fx_id e = i /\
    (fx_state e <> EFFECT_STATE_INIT -> fx_session e = Some a).
Proof.
  intros E Hi Hs. destruct Hs as [c v sid io v0 p0 v1 p1 pr H0 H1 Hpr].
  unfold deref_effect. cbn [fst snd]. rewrite (deref_at _ _ _ E).
  destruct Hi as [-> | ->]; eexists; (split; [reflexivity|]); auto.
Qed.

(** [effect_set_state] on an effect in use, or one that is being created. *)
Lemma effect_set_state_at st a s i e new :
  heap st !! a = Some s -> is_id i -> session_ok a s -> effects s !! Z.to_nat i = Some e ->
  fx_session e = Some a ->
  effect_set_state st (a, i) new =
    Ret (if transition new (fx_state e) then (0, put_session a (keep_created s (set_fx i new a s)) st)
         else (- ENOSYS, st)).
Proof.
  intros E Hi Hs He Hp. destruct (deref_effect_at _ _ _ _ E Hi Hs) as (e' & Ed & Ee & Eid & _).
  assert (e' = e) as -> by congruence. unfold effect_set_state. rewrite Ed.
  ret_step. rewrite Hp, !(set_fx_enabled_at _ _ _ _ _ E).
  destruct Hs as [c v sid io v0 p0 v1 p1 pr H0 H1 Hpr]. cbn [fst snd].
  destruct Hi as [-> | ->]; injection He as <-; cbn [fx_session] in Hp; subst;
    cbn [fx_id fx_state fx_session].
  - destruct new, v0; cbn [transition]; cbn -[modify put_session]; try reflexivity;
      erewrite modify_put by first [exact E | apply put_lookup]; rewrite ?put_put; destruct v1; reflexivity.
  - destruct new, v1; cbn [transition]; cbn -[modify put_session]; try reflexivity;
      erewrite modify_put by first [exact E | apply put_lookup]; rewrite ?put_put; destruct v0; reflexivity.
Qed.

Lemma set_fx_ok i new a s : session_ok a s -> session_ok a (set_fx i new a s).
Proof.
  intros [c v sid io v0 p0 v1 p1 pr H0 H1 Hpr]. unfold set_fx. cbn [effects sess].
  assert (forall cur, 0 <= round_after new cur pr < 4) by (intros; unfold round_after; case_match; lia).
  destruct (i =? 0); constructor; auto.
Qed.

(** The state of effect [i] of a session. *)
Definition state_at (i : Z) (s : session_s) : effect_state :=
  match effects s !! Z.to_nat i with Some e => fx_state e | None => EFFECT_STATE_INIT end.

(** A session without effects gets its default configuration. *)
Definition prepared (s : session_s) : session_s :=
  if created_msk s =? 0
  then with_masks (created_msk s) 0 0
         (with_config (mkConfig (mono_16k (inputCfg (config s))) (mono_16k (outputCfg (config s))))
            (s_state s) s)
  else s.

Lemma prepared_ok a s : session_ok a s -> session_ok a (prepared s).
Proof.
  intros [c v sid io v0 p0 v1 p1 pr H0 H1 Hpr]. unfold prepared. destruct (_ =? 0) eqn:E.
  - assert (v0 = EFFECT_STATE_INIT /\ v1 = EFFECT_STATE_INIT) as [-> ->]
      by (destruct v0, v1; cbn in E; try discriminate; auto).
    apply (Session_ok a (mkConfig (mono_16k (inputCfg c)) (mono_16k (outputCfg c))) v sid io
      EFFECT_STATE_INIT p0 EFFECT_STATE_INIT p1 0); auto; lia.
  - now constructor.
Qed.

Lemma create_effect_at st a s i :
  heap st !! a = Some s -> session_ok a s -> is_id i -> state_at i s = EFFECT_STATE_INIT ->
  session_create_effect st a i =
    Ret (0, put_session a (set_fx i EFFECT_STATE_CREATED a (prepared s)) st).
Proof.
  intros E Hs Hi Hv. unfold session_create_effect. rewrite (deref_at _ _ _ E).
  ret_step.
  assert ((if created_msk s =? 0
    then modify (fun s => with_masks (created_msk s) 0 0
                     (with_config (mkConfig (mono_16k (inputCfg (config s)))
                                            (mono_16k (outputCfg (config s)))) (s_state s) s)) a st
    else st) = put_session a (prepared s) st) as ->.
  { unfold prepared. destruct (_ =? 0); [now rewrite (modify_put _ _ _ _ E) | now rewrite put_same]. }
  pose proof (prepared_ok a s Hs) as Hs1.
  assert (state_at i (prepared s) = EFFECT_STATE_INIT) as Hv1
    by (unfold prepared; case_match; assumption).
  set (s1 := prepared s) in *. clearbody s1. clear E Hs Hv s.
  unfold effect_create. cbn [fst snd].
  destruct (deref_effect_at (put_session a s1 st) a s1 i (put_lookup _ _ _) Hi Hs1) as (e & -> & Ee & Eid & _).
  ret_step.
  rewrite (modify_put _ _ s1) by apply put_lookup. rewrite put_put.
  unfold state_at in Hv1. rewrite Ee in Hv1.
  set (e1 := mkEffect (fx_id e) (fx_state e) (Some a)).
  assert (session_ok a (with_effect i e1 s1) /\ effects (with_effect i e1 s1) !! Z.to_nat i = Some e1 /\
    set_fx i EFFECT_STATE_CREATED a (with_effect i e1 s1) = set_fx i EFFECT_STATE_CREATED a s1 /\
    created_msk (with_effect i e1 s1) = created_msk s1) as (Hs2 & He2 & Es2 & Ec2).
  { subst e1. destruct Hs1 as [c v sid io v0 p0 v1 p1 pr H0 H1 Hpr].
    destruct Hi as [-> | ->]; injection Ee as <-; cbn in Hv1; subst.
    - split; [apply (Session_ok a c v sid io EFFECT_STATE_INIT (Some a) v1 p1 pr); auto | auto].
    - split; [apply (Session_ok a c v sid io v0 p0 EFFECT_STATE_INIT (Some a) pr); auto | auto]. }
  rewrite (effect_set_state_at _ _ (with_effect i e1 s1) _ e1 _ (put_lookup _ _ _) Hi Hs2 He2 eq_refl).
  cbn [fx_state e1]. rewrite Hv1. cbn [transition]. ret_step.
  cbn [Z.ltb Z.compare]. rewrite put_put.
  rewrite (modify_put _ _ _ _ (put_lookup _ _ _)), put_put. do 3 f_equal.
  unfold keep_created. rewrite Es2, Ec2. clear -Hs1 Hi Ee Hv1.
  destruct Hs1 as [c v sid io v0 p0 v1 p1 pr H0 H1 Hpr].
  destruct Hi as [-> | ->]; injection Ee as <-; cbn in Hv1; subst; [destruct v1 | destruct v0]; reflexivity.
Qed.

Lemma release_effect_at st a s i :
  heap st !! a = Some s -> session_ok a s -> is_id i -> state_at i s <> EFFECT_STATE_INIT ->
  session_release_effect st a (a, i) =
    Ret (0, if created_msk (set_fx i EFFECT_STATE_INIT a s) =? 0
            then free_session a st else put_session a (set_fx i EFFECT_STATE_INIT a s) st).
Proof.
  intros E Hs Hi Hv. unfold session_release_effect, effect_release.
  destruct (deref_effect_at st a s i E Hi Hs) as (e & Ed & Ee & Eid & Ep).
  unfold state_at in Hv. rewrite Ee in Hv.
  rewrite (effect_set_state_at _ _ _ _ e _ E Hi Hs Ee (Ep Hv)).
  cbn [transition]. ret_step.
  set (s1 := keep_created s (set_fx i EFFECT_STATE_INIT a s)).
  assert (exists e1, deref_effect (put_session a s1 st) (a, i) = Ret e1 /\ fx_id e1 = i) as (e1 & Ed1 & Eid1).
  { unfold deref_effect. cbn [fst snd]. rewrite (deref_at _ _ _ (put_lookup _ _ _)).
    destruct Hs; destruct Hi as [-> | ->]; eexists; split; reflexivity. }
  rewrite Ed1, (deref_at _ _ _ (put_lookup _ _ _)). ret_step.
  rewrite (modify_put _ _ _ _ (put_lookup _ _ _)), put_put.
  rewrite (deref_at _ _ _ (put_lookup _ _ _)). ret_step.
  set (s2 := with_masks _ _ _ s1).
  assert (s2 = set_fx i EFFECT_STATE_INIT a s) as ->.
  { subst s2 s1. rewrite Eid1. clear -Hs Hi. destruct Hs as [c v sid io v0 p0 v1 p1 pr H0 H1 Hpr].
    destruct Hi as [-> | ->]; destruct v0, v1; reflexivity. }
  ret_step. do 2 f_equal. destruct (_ =? 0); [|reflexivity].
  unfold free_session, put_session, with_heap, with_list. cbn. now rewrite delete_insert_eq.
Qed.

End Proofs.

(** ** The library's invariant *)

Record invariant {H : AudioEffectHeader} (st : lib) : Prop := mkInvariant {
  inv_init : init_status st = 1 /\ heap st = ∅ /\ session_list st = [] \/
             init_status st = 0 /\ uuid_to_id_table st = [Some FX_IID_AEC; Some FX_IID_NS];
  inv_descriptors : length (descriptors st) = 2%nat;
  inv_nodup : NoDup (session_list st);
  inv_list : forall a, a ∈ session_list st <-> is_Some (heap st !! a);
  inv_sessions : forall a s, heap st !! a = Some s -> session_ok a s /\ created_msk s <> 0;
  inv_ids : forall a b s t, heap st !! a = Some s -> heap st !! b = Some t -> s_id s = s_id t -> a = b;
}.

(** A handle a client holds: the effect is in use. *)
Definition live (st : lib) (h : effect_handle_t) : Prop :=
  exists s, heap st !! h.1 = Some s /\ is_id h.2 /\ state_at h.2 s <> EFFECT_STATE_INIT.

(** ** The abstract library: the effects in use, by audio session and effect *)

Abbreviation effects_in_use := (gmap (Z * Z) effect_state).

(** The implementation's effects in use. *)
Definition represents (st : lib) (m : effects_in_use) : Prop :=
  forall sid i v, m !! (sid, i) = Some v <->
    exists a s, heap st !! a = Some s /\ s_id s = sid /\ is_id i /\ state_at i s = v /\
      v <> EFFECT_STATE_INIT.

Section Invariant.
Context {H : AudioEffectHeader}.

Lemma inv_put st a s s' :
  invariant st -> heap st !! a = Some s -> session_ok a s' -> created_msk s' <> 0 ->
  s_id s' = s_id s -> invariant (put_session a s' st).
Proof.
  intros [Hi Hd Hn Hl Hs Hid] E Hok Hc Hsid. split; cbn; auto.
  - destruct Hi as [(H1 & H2 & H3)|Hi]; [|auto]. now rewrite H2, lookup_empty in E.
  - intros b. rewrite Hl. destruct (decide (a = b)) as [<-|].
    + rewrite lookup_insert_eq, E. split; eauto.
    + now rewrite lookup_insert_ne.
  - intros b t. destruct (decide (a = b)) as [<-|].
    + rewrite lookup_insert_eq. intros [= <-]. auto.
    + rewrite lookup_insert_ne by assumption. apply Hs.
  - intros b1 b2 t1 t2. destruct (decide (a = b1)) as [<-|], (decide (a = b2)) as [<-|];
      rewrite ?lookup_insert_eq, ?lookup_insert_ne by assumption; auto.
    + intros [= <-] E2 Es. apply (Hid a b2 s t2 E E2). congruence.
    + intros E1 [= <-] Es. apply (Hid b1 a t1 s E1 E). congruence.
    + apply Hid.
Qed.

Lemma inv_free st a : invariant st -> invariant (free_session a st).
Proof.
  intros [Hi Hd Hn Hl Hs Hid]. split; cbn; auto.
  - destruct Hi as [(H1 & H2 & H3)|Hi]; [left|auto]. rewrite H2, H3. split; [assumption|].
    split; [apply delete_empty | reflexivity].
  - now apply NoDup_filter.
  - intros b. rewrite list_elem_of_filter, Hl. destruct (decide (a = b)) as [<-|].
    + rewrite lookup_delete_eq. split; [naive_solver | intros [? [=]]].
    + rewrite lookup_delete_ne by assumption. naive_solver.
  - intros b t [_ E]%lookup_delete_Some. eauto.
  - intros b1 b2 t1 t2 [_ E1]%lookup_delete_Some [_ E2]%lookup_delete_Some. eauto.
Qed.

Lemma inv_add st a s :
  invariant st -> init_status st = 0 -> heap st !! a = None -> session_ok a s -> created_msk s <> 0 ->
  (forall b t, heap st !! b = Some t -> s_id t <> s_id s) ->
  invariant (with_list (session_list st ++ [a]) (with_heap (<[a := s]> (heap st)) st)).
Proof.
  intros [Hi Hd Hn Hl Hs Hid] H0 E Hok Hc Hnew. split; cbn; auto.
  - destruct Hi as [(H1 & _)|Hi]; [congruence | auto].
  - apply NoDup_app. split; [assumption|]. split; [|apply NoDup_singleton].
    intros b Hb ->%list_elem_of_singleton. apply Hl in Hb as [t Et]. congruence.
  - intros b. rewrite elem_of_app, list_elem_of_singleton, Hl. destruct (decide (a = b)) as [<-|].
    + rewrite lookup_insert_eq. naive_solver.
    + rewrite lookup_insert_ne by assumption. naive_solver.
  - intros b t. destruct (decide (a = b)) as [<-|].
    + rewrite lookup_insert_eq. intros [= <-]. auto.
    + rewrite lookup_insert_ne by assumption. apply Hs.
  - intros b1 b2 t1 t2. destruct (decide (a = b1)) as [<-|], (decide (a = b2)) as [<-|];
      rewrite ?lookup_insert_eq, ?lookup_insert_ne by assumption; auto.
    + intros [= <-] E2 Es. exfalso. eapply Hnew; eauto.
    + intros E1 [= <-] Es. exfalso. eapply Hnew; eauto.
    + apply Hid.
Qed.

Lemma inv_initialised product st :
  invariant st -> exists st', init product st = (0, st') /\ invariant st' /\ init_status st' = 0 /\
    heap st' = heap st /\ session_list st' = session_list st.
Proof.
  intros [Hi Hd Hn Hl Hs Hid]. unfold init. destruct Hi as [(H1 & H2 & H3)|[H1 H2]].
  - rewrite H1. cbn. eexists. split; [reflexivity|]. rewrite H2, H3. split; [|auto].
    split; cbn; auto using NoDup_nil_2.
    + destruct product as [[[d|] [d'|]]|]; rewrite ?length_insert; auto.
    + intros a. rewrite lookup_empty, elem_of_nil. split; [done | intros [? [=]]].
    + intros a s. now rewrite lookup_empty.
    + intros a b s t. now rewrite lookup_empty.
  - rewrite H1. cbn. eexists. split; [reflexivity|]. split; [|auto].
    split; auto.
Qed.

Lemma live_not_init st h : invariant st -> live st h -> init_status st = 0.
Proof.
  intros [Hi _ _ _ _ _] (s & E & _). destruct Hi as [(_ & H2 & _)|[? _]]; [|assumption].
  now rewrite H2, lookup_empty in E.
Qed.

(** Effects in use after a session changed the state of one effect. *)
Lemma state_at_set i j new a s : session_ok a s -> is_id i -> is_id j ->
  state_at j (set_fx i new a s) = if decide (i = j) then new else state_at j s.
Proof.
  intros [c v sid io v0 p0 v1 p1 pr H0 H1 Hpr] [-> | ->] [-> | ->]; reflexivity.
Qed.

Lemma set_fx_id i new a s : s_id (set_fx i new a s) = s_id s.
Proof. unfold set_fx. destruct (effects s) as [|? [|? [|]]]; try reflexivity. now destruct (i =? 0). Qed.

Lemma set_fx_created i new a s : session_ok a s -> is_id i -> new <> EFFECT_STATE_INIT ->
  created_msk (set_fx i new a s) <> 0.
Proof.
  intros [c v sid io v0 p0 v1 p1 pr H0 H1 Hpr] [-> | ->] Hnew; [destruct new, v1 | destruct new, v0];
    try congruence; cbn; discriminate.
Qed.

Lemma represents_put st m a s i new :
  invariant st -> represents st m -> heap st !! a = Some s -> is_id i ->
  represents (put_session a (set_fx i new a s) st)
    (if decide (new = EFFECT_STATE_INIT) then delete (s_id s, i) m else <[(s_id s, i) := new]> m).
Proof.
  intros Hinv Hr E Hi sid j v. destruct (inv_sessions _ Hinv _ _ E) as [Hs _].
  assert ((exists b t, heap (put_session a (set_fx i new a s) st) !! b = Some t /\ s_id t = sid /\
      is_id j /\ state_at j t = v /\ v <> EFFECT_STATE_INIT) <->
    (if decide ((sid, j) = (s_id s, i)) then v = new /\ new <> EFFECT_STATE_INIT
     else exists b t, heap st !! b = Some t /\ s_id t = sid /\ is_id j /\ state_at j t = v /\
            v <> EFFECT_STATE_INIT)) as ->.
  { cbn. split.
    - intros (b & t & Et & Hid & Hj & Hv & Hn). destruct (decide (a = b)) as [<-|Hab].
      + rewrite lookup_insert_eq in Et. injection Et as <-. rewrite set_fx_id in Hid.
        rewrite (state_at_set i j new a s Hs Hi Hj) in Hv. destruct (decide (i = j)) as [<-|Hij].
        * rewrite decide_True by congruence. subst v. auto.
        * rewrite decide_False by congruence. eauto 10.
      + rewrite lookup_insert_ne in Et by assumption. rewrite decide_False; [eauto 10|].
        intros [= -> _]. apply Hab. eapply (inv_ids _ Hinv); eauto.
    - destruct (decide _) as [[= -> ->]|Hk].
      + intros [-> Hnew]. exists a, (set_fx i new a s). rewrite lookup_insert_eq, set_fx_id.
        rewrite (state_at_set i i new a s Hs Hi Hi), decide_True by reflexivity. auto.
      + intros (b & t & Et & Hid & Hj & Hv & Hn). destruct (decide (a = b)) as [<-|Hab].
        * assert (t = s) as -> by congruence. exists a, (set_fx i new a s).
          rewrite lookup_insert_eq, set_fx_id, (state_at_set i j new a s Hs Hi Hj), decide_False; auto.
          intros ->. congruence.
        * exists b, t. rewrite lookup_insert_ne by assumption. auto. }
  specialize (Hr sid j v). destruct (decide (new = EFFECT_STATE_INIT)) as [->|Hnew].
  - destruct (decide ((sid, j) = (s_id s, i))) as [[= -> ->]|Hk].
    + rewrite lookup_delete_eq. split; [discriminate | naive_solver].
    + now rewrite lookup_delete_ne by congruence.
  - destruct (decide ((sid, j) = (s_id s, i))) as [[= -> ->]|Hk].
    + rewrite lookup_insert_eq. split; [intros [= ->]; auto | intros [-> _]; reflexivity].
    + now rewrite lookup_insert_ne by congruence.
Qed.

(** A session without effects in use counts for nothing. *)
Lemma represents_free st m a s :
  represents (put_session a s st) m -> session_ok a s -> created_msk s = 0 ->
  represents (free_session a st) m.
Proof.
  intros Hr Hs Hc sid i v. rewrite (Hr sid i v). cbn.
  assert (forall j, is_id j -> state_at j s = EFFECT_STATE_INIT) as Hnone.
  { destruct Hs as [c w sid' io v0 p0 v1 p1 pr H0 H1 Hpr]. cbn in Hc.
    intros j [-> | ->]; destruct v0, v1; cbn in Hc; try discriminate; reflexivity. }
  split; intros (b & t & Et & Hid & Hi & Hv & Hn); destruct (decide (a = b)) as [<-|Hab].
  - rewrite lookup_insert_eq in Et. injection Et as <-. rewrite Hnone in Hv by assumption. congruence.
  - rewrite lookup_insert_ne in Et by assumption. exists b, t. rewrite lookup_delete_ne by assumption. auto.
  - now rewrite lookup_delete_eq in Et.
  - rewrite lookup_delete_ne in Et by assumption. exists b, t. rewrite lookup_insert_ne by assumption. auto.
Qed.

(** A new session with one effect. *)
Lemma represents_add st m a s i l :
  represents st m -> heap st !! a = None -> is_id i ->
  (forall j, is_id j -> state_at j s = if decide (j = i) then EFFECT_STATE_CREATED else EFFECT_STATE_INIT) ->
  (forall b t, heap st !! b = Some t -> s_id t <> s_id s) ->
  represents (with_list l (with_heap (<[a := s]> (heap st)) st)) (<[(s_id s, i) := EFFECT_STATE_CREATED]> m).
Proof.
  intros Hr E Hi Hst Hnew sid j v. cbn.
  destruct (decide ((sid, j) = (s_id s, i))) as [[= -> ->]|Hk].
  - rewrite lookup_insert_eq. split.
    + intros [= <-]. exists a, s. rewrite lookup_insert_eq, Hst, decide_True by auto. naive_solver.
    + intros (b & t & Et & Hid & _ & Hv & Hn). destruct (decide (a = b)) as [<-|].
      * rewrite lookup_insert_eq in Et. injection Et as <-. rewrite Hst, decide_True in Hv by auto. congruence.
      * rewrite lookup_insert_ne in Et by assumption. exfalso. eapply Hnew; eauto.
  - rewrite lookup_insert_ne by congruence. rewrite (Hr sid j v).
    split; intros (b & t & Et & Hid & Hj & Hv & Hn); exists b, t.
    + rewrite lookup_insert_ne by congruence. auto.
    + destruct (decide (a = b)) as [<-|].
      * rewrite lookup_insert_eq in Et. injection Et as <-. rewrite Hst in Hv by assumption.
        destruct (decide (j = i)); congruence.
      * rewrite lookup_insert_ne in Et by assumption. auto.
Qed.

Lemma represents_heap st st' m : heap st' = heap st -> represents st m -> represents st' m.
Proof. intros E Hr sid i v. rewrite E. apply Hr. Qed.

(** Changes that leave the states of the effects alone. *)
Lemma represents_same st m a s s' :
  represents st m -> heap st !! a = Some s -> s_id s' = s_id s -> effects s' = effects s ->
  represents (put_session a s' st) m.
Proof.
  intros Hr E Hid He sid i v. rewrite (Hr sid i v). cbn. unfold state_at.
  split; intros (b & t & Et & Hs & Hi & Hv & Hn); destruct (decide (a = b)) as [<-|].
  - assert (t = s) as -> by congruence. exists a, s'. rewrite lookup_insert_eq, He. naive_solver.
  - exists b, t. rewrite lookup_insert_ne by assumption. auto.
  - rewrite lookup_insert_eq in Et. injection Et as <-. exists a, s. rewrite He in Hv. naive_solver.
  - rewrite lookup_insert_ne in Et by assumption. eauto 10.
Qed.

(** The walk over the list of sessions. *)
Lemma find_session_at st l sid :
  (forall a, a ∈ l -> is_Some (heap st !! a)) ->
  (exists a s, find_session st l sid = Ret (Some a) /\ heap st !! a = Some s /\ s_id s = sid) \/
  find_session st l sid = Ret None /\ forall a s, a ∈ l -> heap st !! a = Some s -> s_id s <> sid.
Proof.
  induction l as [|a l IH]; intros Hl; cbn.
  - right. split; [reflexivity|]. intros a s Ha. now apply not_elem_of_nil in Ha.
  - destruct (Hl a) as [s E]; [left|]. rewrite E. ret_step.
    destruct (s_id s =? sid) eqn:Es; boolprop; [left; eauto|].
    destruct IH as [IH|[IH1 IH2]]; [intros b Hb; apply Hl; now right | left; exact IH | right].
    split; [exact IH1|]. intros b t [-> |Hb]%elem_of_cons Et; [congruence | eauto].
Qed.

Lemma uuid_to_id_total st u :
  invariant st -> init_status st = 0 ->
  exists i, uuid_to_id st u = Ret i /\ (NUM_ID <= i \/ is_id i).
Proof.
  intros [Hi _ _ _ _ _] H0. destruct Hi as [(H1 & _)|[_ Ht]]; [congruence|].
  unfold uuid_to_id, is_id. rewrite Ht. cbn. repeat case_match; eexists; (split; [reflexivity|]); unfold NUM_ID; lia.
Qed.

End Invariant.

(** ** The operations, one after another *)

Section Operations.
Context {H : AudioEffectHeader}.

(** The effect a UUID stands for. *)
Definition resolve (product : product_lib) (uuid : effect_uuid_t) (st : lib) : option Z :=
  let st := (init product st).2 in
  d ← get_descriptor st uuid;
  match uuid_to_id st (d_type d) with
  | Ret i => if NUM_ID <=? i then None else Some i
  | Undef => None
  end.

Definition empty_session (sessionId ioId : Z) : session_s :=
  sess zero_config SESSION_STATE_INIT sessionId ioId EFFECT_STATE_INIT None EFFECT_STATE_INIT None 0.

Lemma session_zero_ok a sid io : session_ok a (empty_session sid io).
Proof. constructor; [congruence | congruence | lia]. Qed.

(** Result of lib_create: an effect that was not in use, or an error that
    changes nothing. *)
Definition create_result (product : product_lib) (alloc : option addr) (uuid : effect_uuid_t)
    (sid : Z) (st : lib) (m : effects_in_use)
    (status : Z) (h : option effect_handle_t) (st' : lib) : Prop :=
  (exists a i, status = 0 /\ h = Some (a, i) /\ resolve product uuid st = Some i /\
     m !! (sid, i) = None /\ represents st' (<[(sid, i) := EFFECT_STATE_CREATED]> m) /\
     live st' (a, i)) \/
  (status = - EINVAL /\ represents st' m /\
     (resolve product uuid st = None \/
      exists i, resolve product uuid st = Some i /\ (is_Some (m !! (sid, i)) \/ alloc = None))).

Lemma land_bit s a i : session_ok a s -> is_id i ->
  negb (Z.land (created_msk s) (bit i) =? 0) = created (state_at i s).
Proof.
  intros [c v sid io v0 p0 v1 p1 pr H0 H1 Hpr] [-> | ->]; destruct v0, v1; reflexivity.
Qed.

Lemma created_false v : created v = false -> v = EFFECT_STATE_INIT.
Proof. unfold created. intros ?. boolprop. assumption. Qed.

Lemma prepared_id s : s_id (prepared s) = s_id s /\ effects (prepared s) = effects s.
Proof. unfold prepared. destruct (_ =? 0); auto. Qed.

Lemma set_fx_prepared_created i a s : session_ok a s -> is_id i ->
  created_msk (set_fx i EFFECT_STATE_CREATED a (prepared s)) <> 0.
Proof. intros Hs Hi. apply set_fx_created; [now apply prepared_ok | exact Hi | discriminate]. Qed.

(** Creating an effect in a session that is there. *)
Lemma create_in_session st m a s i :
  invariant st -> represents st m -> heap st !! a = Some s -> is_id i ->
  state_at i s = EFFECT_STATE_INIT ->
  exists st', session_create_effect st a i = Ret (0, st') /\ invariant st' /\
    heap st' !! a = Some (set_fx i EFFECT_STATE_CREATED a (prepared s)) /\
    represents st' (<[(s_id s, i) := EFFECT_STATE_CREATED]> m) /\ live st' (a, i).
Proof.
  intros Hi Hr E Hid Hv. destruct (inv_sessions _ Hi _ _ E) as [Hs Hc].
  eexists. split; [apply (create_effect_at _ _ _ _ E Hs Hid Hv)|].
  destruct (prepared_id s) as [Ep Ee].
  assert (prepared s = s) as Eps by (unfold prepared; now rewrite (proj2 (Z.eqb_neq _ _) Hc)).
  rewrite Eps. split; [|split; [|split]].
  - eapply inv_put; eauto using set_fx_ok, set_fx_id. now apply set_fx_created.
  - apply put_lookup.
  - pose proof (represents_put st m a s i EFFECT_STATE_CREATED Hi Hr E Hid) as Hp.
    now rewrite decide_False in Hp by discriminate.
  - exists (set_fx i EFFECT_STATE_CREATED a s). split; [apply put_lookup|]. split; [exact Hid|].
    cbn [snd]. rewrite (state_at_set i i _ a s Hs Hid Hid), decide_True by reflexivity. discriminate.
Qed.

(** Creating the first effect of a new session. *)
Lemma create_empty_session st m a i sid io :
  invariant st -> init_status st = 0 -> represents st m -> heap st !! a = None -> is_id i ->
  (forall b t, heap st !! b = Some t -> s_id t <> sid) ->
  exists st',
    session_create_effect (with_list (session_list st ++ [a])
      (with_heap (<[a := empty_session sid io]> (heap st)) st)) a i = Ret (0, st') /\
    invariant st' /\ heap st' !! a = Some (set_fx i EFFECT_STATE_CREATED a (prepared (empty_session sid io))) /\
    represents st' (<[(sid, i) := EFFECT_STATE_CREATED]> m) /\ live st' (a, i).
Proof.
  intros Hi H0 Hr E Hid Hnew.
  set (s := empty_session sid io). set (st1 := with_list _ _).
  assert (heap st1 !! a = Some s) as E1 by apply lookup_insert_eq.
  pose proof (session_zero_ok a sid io) as Hs. fold s in Hs.
  assert (state_at i s = EFFECT_STATE_INIT) as Hv by (destruct Hid as [-> | ->]; reflexivity).
  eexists. split; [apply (create_effect_at _ _ _ _ E1 Hs Hid Hv)|].
  set (s' := set_fx i EFFECT_STATE_CREATED a (prepared s)).
  assert (put_session a s' st1 = with_list (session_list st ++ [a]) (with_heap (<[a := s']> (heap st)) st)) as ->.
  { unfold put_session, with_heap, with_list, st1. cbn. now rewrite insert_insert_eq. }
  assert (s_id s' = sid) as Es by (unfold s'; rewrite set_fx_id; apply prepared_id).
  assert (forall j, is_id j -> state_at j s' = if decide (j = i) then EFFECT_STATE_CREATED else EFFECT_STATE_INIT) as Hst.
  { intros j [-> | ->]; unfold s'; destruct Hid as [-> | ->]; reflexivity. }
  split; [|split; [apply lookup_insert_eq | split]].
  - apply inv_add; auto; [now apply set_fx_ok, prepared_ok | now apply set_fx_prepared_created |].
    intros b t Et. rewrite Es. eauto.
  - rewrite <- Es. apply represents_add; auto. intros b t Et. rewrite Es. eauto.
  - exists s'. split; [apply lookup_insert_eq|]. split; [exact Hid|]. cbn [snd].
    rewrite Hst, decide_True by auto. discriminate.
Qed.

(** An effect in use is one of its session's effects. *)
Lemma in_use_at st m sid i v a s :
  invariant st -> represents st m -> m !! (sid, i) = Some v -> heap st !! a = Some s -> s_id s = sid ->
  state_at i s = v /\ v <> EFFECT_STATE_INIT.
Proof.
  intros Hi Hr Em E Es. apply Hr in Em as (b & t & Et & Hid & _ & Hv & Hn).
  assert (b = a) as -> by (eapply (inv_ids _ Hi); eauto; congruence).
  assert (t = s) as -> by congruence. auto.
Qed.

(** The session an effect is created in, found or new. *)
Lemma get_session_spec st m i sid io alloc :
  invariant st -> init_status st = 0 -> represents st m -> is_id i ->
  (forall a, alloc = Some a -> heap st !! a = None) ->
  (get_session st i sid io alloc = Ret (None, st) /\ (is_Some (m !! (sid, i)) \/ alloc = None)) \/
  (exists a st1 st' s', get_session st i sid io alloc = Ret (Some a, st1) /\ m !! (sid, i) = None /\
     session_create_effect st1 a i = Ret (0, st') /\ heap st' !! a = Some s' /\ invariant st' /\
     represents st' (<[(sid, i) := EFFECT_STATE_CREATED]> m) /\ live st' (a, i)).
Proof.
  intros Hi H0 Hr Hid Ha. unfold get_session.
  destruct (find_session_at st (session_list st) sid) as [(a & s & -> & E & Es)|[-> Hnone]].
  { intros a. apply (inv_list _ Hi). }
  - ret_step. rewrite (deref_at _ _ _ E). ret_step.
    rewrite (land_bit s a i) by (apply (inv_sessions _ Hi _ _ E) || assumption).
    destruct (created (state_at i s)) eqn:Ec; [left|right].
    + split; [reflexivity|]. left. exists (state_at i s). apply Hr. exists a, s.
      unfold created in Ec. boolprop. auto.
    + destruct (create_in_session st m a s i Hi Hr E Hid (created_false _ Ec))
        as (st' & Ecr & Hi' & E' & Hr' & Hlive).
      rewrite Es in Hr'. eexists a, st, st', _. split; [reflexivity|]. split; [|eauto 10]. destruct (m !! (sid, i)) as [v|] eqn:Em; [|reflexivity].
      destruct (in_use_at _ _ _ _ _ _ _ Hi Hr Em E Es). apply created_false in Ec. congruence.
  - ret_step. destruct alloc as [a|]; [right | left; auto].
    assert (forall b t, heap st !! b = Some t -> s_id t <> sid) as Hnew.
    { intros b t Et. eapply Hnone; eauto. apply (inv_list _ Hi). eauto. }
    destruct (create_empty_session st m a i sid io Hi H0 Hr (Ha a eq_refl) Hid Hnew)
      as (st' & Ecr & Hi' & E' & Hr' & Hlive).
    eexists a, _, st', _. split; [reflexivity|]. split; [|eauto 10].
    destruct (m !! (sid, i)) as [v|] eqn:Em; [|reflexivity].
    apply Hr in Em as (b & t & Et & Hs & _). exfalso. eapply Hnew; eauto.
Qed.

Lemma lib_create_spec product alloc uuid sid io st m :
  invariant st -> represents st m -> (forall a, alloc = Some a -> heap st !! a = None) ->
  exists status h st', lib_create product alloc uuid sid io st = Ret (status, h, st') /\
    invariant st' /\ create_result product alloc uuid sid st m status h st'.
Proof.
  intros Hi Hr Ha. unfold lib_create, create_result, resolve.
  destruct (inv_initialised product st Hi) as (st0 & -> & Hi0 & H0 & Eh & El).
  pose proof (represents_heap _ st0 m Eh Hr) as Hr0. cbn [Z.eqb negb snd].
  destruct (get_descriptor st0 uuid) as [d|]; cbn [mbind option_bind]; [|eauto 10].
  destruct (uuid_to_id_total st0 (d_type d) Hi0 H0) as (i & -> & Hid). ret_step.
  destruct (NUM_ID <=? i) eqn:En; [eauto 10|].
  assert (is_id i) as Hid' by (destruct Hid; [apply Z.leb_gt in En; unfold NUM_ID in *; lia | assumption]).
  destruct (get_session_spec st0 m i sid io alloc Hi0 H0 Hr0 Hid') as
    [[-> Hwhy] | (a & st1 & st' & s' & -> & Em & Ecr & E' & Hi' & Hr' & Hlive)].
  { intros a Ea. rewrite Eh. auto. }
  - ret_step. eexists _, _, _. split; [reflexivity|]. split; [assumption|]. right. eauto 10.
  - ret_step. rewrite Ecr. ret_step. rewrite (deref_at _ _ _ E'). ret_step. cbn [Z.ltb Z.compare andb].
    eexists _, _, _. split; [reflexivity|]. split; [assumption|]. left. exists a, i. auto 10.
Qed.

(** The audio session and effect a handle stands for. *)
Definition names (st : lib) (h : effect_handle_t) (k : Z * Z) : Prop :=
  exists s, heap st !! h.1 = Some s /\ k = (s_id s, h.2).

Lemma on_list_true l a : a ∈ l -> on_list l (Some a) = true.
Proof.
  induction l as [|b l IH]; intros Ha; [now apply not_elem_of_nil in Ha|]. cbn.
  destruct (bool_decide_reflect (Some b = Some a)); [reflexivity|].
  apply elem_of_cons in Ha as [-> |]; [congruence | auto].
Qed.

Lemma lib_release_spec product st m h k :
  invariant st -> represents st m -> live st h -> names st h k ->
  exists st', lib_release product h st = Ret (0, st') /\ invariant st' /\ represents st' (delete k m).
Proof.
  intros Hi Hr Hl (s & E & ->). destruct h as [a i]. cbn [fst snd] in *.
  pose proof (live_not_init _ _ Hi Hl) as H0. destruct Hl as (s0 & E0 & Hid & Hv). cbn [fst snd] in *.
  assert (s0 = s) as -> by congruence. destruct (inv_sessions _ Hi _ _ E) as [Hs Hc].
  unfold lib_release, init. rewrite H0. cbn [Z.leb Z.compare Z.eqb negb].
  assert (a ∈ session_list st) as Hin by (apply (inv_list _ Hi); eauto).
  destruct (deref_effect_at st a s i E Hid Hs) as (e & Ed & Ee & Eid & Ep).
  assert (fx_session e = Some a) as Efs.
  { apply Ep. unfold state_at in Hv. now rewrite Ee in Hv. }
  destruct (session_list st) as [|b l] eqn:El; [now apply not_elem_of_nil in Hin|]. rewrite <- El in *.
  rewrite Ed. ret_step. rewrite Efs, (on_list_true _ _ Hin), (release_effect_at st a s i E Hs Hid Hv). ret_step.
  eexists. split; [reflexivity|].
  pose proof (represents_put st m a s i EFFECT_STATE_INIT Hi Hr E Hid) as Hp.
  rewrite decide_True in Hp by reflexivity.
  destruct (_ =? 0) eqn:Ez; boolprop.
  - split; [now apply inv_free|]. eapply represents_free; eauto using set_fx_ok.
  - split; [|exact Hp]. eapply inv_put; eauto using set_fx_ok, set_fx_id.
Qed.

(** [effect_set_state] through a live handle. *)
Lemma set_state_spec st m h k new :
  invariant st -> represents st m -> live st h -> names st h k -> new <> EFFECT_STATE_INIT ->
  exists r st', effect_set_state st h new = Ret (r, st') /\ invariant st' /\
    exists cur, m !! k = Some cur /\
      (transition new cur = true /\ r = 0 /\ represents st' (<[k := new]> m) \/
       transition new cur = false /\ r = - ENOSYS /\ st' = st).
Proof.
  intros Hi Hr Hl (s & E & ->) Hnew. destruct h as [a i]. cbn [fst snd] in *.
  destruct Hl as (s0 & E0 & Hid & Hv). cbn [fst snd] in *.
  assert (s0 = s) as -> by congruence. destruct (inv_sessions _ Hi _ _ E) as [Hs Hc].
  destruct (deref_effect_at st a s i E Hid Hs) as (e & Ed & Ee & Eid & Ep).
  assert (state_at i s = fx_state e) as Est by (unfold state_at; now rewrite Ee). rewrite Est in Hv.
  rewrite (effect_set_state_at st a s i e new E Hid Hs Ee (Ep Hv)).
  assert (m !! (s_id s, i) = Some (fx_state e)) as Em.
  { apply Hr. exists a, s. auto 10. }
  destruct (transition new (fx_state e)) eqn:Et.
  - assert (keep_created s (set_fx i new a s) = set_fx i new a s) as ->.
    { clear -Hs Hid Hnew Hv Ee. destruct Hs as [c v sid io v0 p0 v1 p1 pr H0 H1 Hpr].
      destruct Hid as [-> | ->]; injection Ee as <-; cbn in Hv; destruct v0, v1, new; congruence || reflexivity. }
    eexists _, _. split; [reflexivity|]. split.
    + eapply inv_put; eauto using set_fx_ok, set_fx_id, set_fx_created.
    + exists (fx_state e). split; [exact Em|]. left. split; [exact Et|]. split; [reflexivity|].
      pose proof (represents_put st m a s i new Hi Hr E Hid) as Hp.
      now rewrite decide_False in Hp by assumption.
  - eexists _, _. split; [reflexivity|]. split; [exact Hi|]. exists (fx_state e). auto.
Qed.

(** Changes of a session that keep its effects. *)
Lemma inv_same st a s s' :
  invariant st -> heap st !! a = Some s -> session_ok a s' -> created_msk s' = created_msk s ->
  s_id s' = s_id s -> invariant (put_session a s' st).
Proof.
  intros Hi E Hok Hc Hid. eapply inv_put; eauto. rewrite Hc. apply (inv_sessions _ Hi _ _ E).
Qed.

Lemma set_config_spec st m a s c :
  invariant st -> represents st m -> heap st !! a = Some s ->
  exists r st', session_set_config st (Some a) c = Ret (r, st') /\ invariant st' /\ represents st' m /\
    (exists s', heap st' !! a = Some s' /\ effects s' = effects s /\ s_id s' = s_id s) /\
    (enabled_msk s <> 0 -> st' = st).
Proof.
  intros Hi Hr E. unfold session_set_config.
  destruct (_ || _ || _); [eexists _, _; split; [reflexivity|]; eauto 10|].
  rewrite (deref_at _ _ _ E). ret_step. destruct (enabled_msk s =? 0) eqn:Ee; cbn [negb]; boolprop.
  - rewrite (modify_put _ _ _ _ E). eexists _, _. split; [reflexivity|].
    destruct (inv_sessions _ Hi _ _ E) as [Hs _].
    assert (session_ok a (with_config c SESSION_STATE_CONFIG s)) as Hs'.
    { destruct Hs as [c0 v sid io v0 p0 v1 p1 pr H0 H1 Hpr].
      apply (Session_ok a c SESSION_STATE_CONFIG sid io v0 p0 v1 p1 pr); auto. }
    split; [eapply inv_same; eauto|]. split; [eapply represents_same; eauto|].
    split; [|congruence]. eexists. split; [apply put_lookup | auto].
  - destruct (_ || _ || _); (eexists _, _; split; [reflexivity|]; eauto 10).
Qed.

(** What a command reports and does, on the abstract library. *)
Definition command_result (cmd : effect_cmd) (k : Z * Z) (m : effects_in_use) (r : reply) (st' : lib) : Prop :=
  exists cur, m !! k = Some cur /\
  match cmd, r with
  | EFFECT_CMD_ENABLE, ReplyInt v =>
      v = (if transition EFFECT_STATE_ACTIVE cur then 0 else - ENOSYS) /\
      represents st' (if transition EFFECT_STATE_ACTIVE cur then <[k := EFFECT_STATE_ACTIVE]> m else m)
  | EFFECT_CMD_DISABLE, ReplyInt v => v = 0 /\ represents st' (<[k := EFFECT_STATE_CONFIG]> m)
  | EFFECT_CMD_SET_CONFIG, ReplyInt v =>
      represents st' (if negb (v =? 0) || active cur then m else <[k := EFFECT_STATE_CONFIG]> m)
  | _, _ => represents st' m
  end.

Lemma bad_reply_total pReply replySize n :
  (pReply = true -> replySize <> None) -> exists b, bad_reply pReply replySize n = Ret b.
Proof.
  unfold bad_reply. destruct pReply, replySize; cbn; eauto. intros Hn. now destruct Hn.
Qed.

Lemma live_in_use st m h k : invariant st -> represents st m -> live st h -> names st h k ->
  exists s e, heap st !! h.1 = Some s /\ deref_effect st h = Ret e /\ effects s !! Z.to_nat h.2 = Some e /\
    fx_session e = Some h.1 /\ m !! k = Some (fx_state e) /\ fx_state e <> EFFECT_STATE_INIT /\
    fx_id e = h.2 /\ is_id h.2.
Proof.
  intros Hi Hr (s & E & Hid & Hv) (s0 & E0 & ->). assert (s0 = s) as -> by congruence.
  destruct h as [a i]. cbn [fst snd] in *. destruct (inv_sessions _ Hi _ _ E) as [Hs _].
  destruct (deref_effect_at st a s i E Hid Hs) as (e & Ed & Ee & Eid & Ep).
  assert (state_at i s = fx_state e) as Est by (unfold state_at; now rewrite Ee). rewrite Est in Hv.
  exists s, e. repeat (split; [auto; fail|]). split; [|auto]. apply Hr. exists a, s. auto 10.
Qed.

(** The command returns without a change of state. *)
Ltac answer := eexists _, _, _; split; [reflexivity|]; eauto.

Lemma set_config_command st m h k cmdSize data replySize pReply :
  invariant st -> represents st m -> live st h -> names st h k ->
  (pReply = true -> replySize <> None) ->
  exists status r st',
    fx_command st (Some h) EFFECT_CMD_SET_CONFIG cmdSize data replySize pReply = Ret (status, r, st') /\
    invariant st' /\ command_result EFFECT_CMD_SET_CONFIG k m r st'.
Proof.
  intros Hi Hr Hl Hn Hrep.
  destruct (live_in_use st m h k Hi Hr Hl Hn) as (s & e & E & Ed & Ee & Ep & Em & Hv & Eid & Hid).
  unfold fx_command, command_result. destruct data as [data|]; [|answer].
  destruct (negb _); [answer|].
  destruct (bad_reply_total pReply replySize sizeof_int Hrep) as [bad ->]. ret_step.
  destruct bad; [answer|].
  rewrite Ed. ret_step. rewrite Ep.
  destruct (set_config_spec st m h.1 s (as_config data) Hi Hr E)
    as (r & st1 & -> & Hi1 & Hr1 & (s1 & E1 & Eff & Esid) & _). ret_step.
  destruct (r =? 0) eqn:Er; cbn [negb].
  2:{ eexists _, _, _. split; [reflexivity|]. split; [auto|]. exists (fx_state e). cbn. now rewrite Er. }
  assert (live st1 h /\ names st1 h k) as [Hl1 Hn1].
  { destruct Hn as (s0 & E0 & ->). assert (s0 = s) as -> by congruence. split; exists s1; [|split; [auto|congruence]].
    split; [auto|]. split; [auto|]. unfold state_at. now rewrite Eff, Ee. }
  destruct (live_in_use st1 m h k Hi1 Hr1 Hl1 Hn1) as (s2 & e2 & E2 & -> & Ee2 & _ & Em2 & Hv2 & _). ret_step.
  assert (fx_state e2 = fx_state e) as Est by congruence. rewrite Est in *.
  destruct (bool_decide_reflect (fx_state e = EFFECT_STATE_ACTIVE)) as [Ea|Ena].
  - eexists _, _, _. split; [reflexivity|]. split; [auto|]. exists (fx_state e). split; [auto|].
    rewrite Er, Ea. exact Hr1.
  - destruct (set_state_spec st1 m h k EFFECT_STATE_CONFIG Hi1 Hr1 Hl1 Hn1 ltac:(discriminate))
      as (r2 & st2 & -> & Hi2 & cur & Ec & Hcase). ret_step.
    eexists _, _, _. split; [reflexivity|]. split; [auto|]. exists (fx_state e). split; [auto|].
    assert (cur = fx_state e) as -> by congruence.
    assert (active (fx_state e) = false) as -> by (unfold active; now apply bool_decide_eq_false).
    destruct Hcase as [(Ht & -> & Hr2)|(Ht & _)]; [exact Hr2 | now destruct (fx_state e)].
Qed.

Lemma fx_command_spec st m h k cmd cmdSize data replySize pReply :
  invariant st -> represents st m -> live st h -> names st h k ->
  (pReply = true -> replySize <> None) ->
  exists status r st',
    fx_command st (Some h) cmd cmdSize data replySize pReply = Ret (status, r, st') /\
    invariant st' /\ command_result cmd k m r st'.
Proof.
  intros Hi Hr Hl Hn Hrep. destruct (decide (cmd = EFFECT_CMD_SET_CONFIG)) as [->|Hnc].
  { now apply set_config_command. }
  destruct (live_in_use st m h k Hi Hr Hl Hn) as (s & e & E & Ed & Ee & Ep & Em & Hv & Eid & Hid).
  unfold fx_command, command_result.
  destruct (bad_reply_total pReply replySize sizeof_int Hrep) as [bad Eb].
  destruct (bad_reply_total pReply replySize sizeof_effect_config_t Hrep) as [badc Ebc].
  destruct cmd; rewrite ?Eb, ?Ebc; try ret_step; try congruence;
    try (eexists _, _, _; split; [reflexivity|]; split; [auto|]; eauto; fail).
  - destruct bad; answer.
  - destruct badc; [answer|].
    rewrite Ed. ret_step. unfold session_get_config. rewrite Ep, (deref_at _ _ _ E). ret_step. ret_step.
    eexists _, _, _. split; [reflexivity|]. eauto.
  - destruct data as [data|]; [|answer].
    destruct (_ <? _); [answer|].
    destruct pReply; cbn [negb]; [|answer].
    destruct replySize as [n|]; [|now destruct Hrep]. cbn [reply_size]. ret_step.
    destruct (_ || _); answer.
  - destruct data as [data|]; [|answer].
    destruct (_ <? _); [answer|].
    destruct bad; [answer|].
    destruct (negb _); answer.
  - destruct bad; [answer|].
    destruct (set_state_spec st m h k EFFECT_STATE_ACTIVE Hi Hr Hl Hn ltac:(discriminate))
      as (r & st1 & -> & Hi1 & cur & Ec & Hcase). ret_step.
    eexists _, _, _. split; [reflexivity|]. split; [auto|]. exists cur. split; [auto|].
    destruct Hcase as [(-> & -> & Hr1)|(-> & -> & ->)]; auto.
  - destruct bad; [answer|].
    destruct (set_state_spec st m h k EFFECT_STATE_CONFIG Hi Hr Hl Hn ltac:(discriminate))
      as (r & st1 & -> & Hi1 & cur & Ec & Hcase). ret_step.
    eexists _, _, _. split; [reflexivity|]. split; [auto|]. exists cur. split; [auto|].
    assert (cur <> EFFECT_STATE_INIT) by congruence.
    destruct Hcase as [(_ & -> & Hr1)|(Ht & _)]; [auto | now destruct cur].
  - destruct data; [destruct (negb _)|]; answer.
  - destruct data; [destruct (negb _)|]; answer.
  - destruct data; [destruct (negb _)|]; answer.
  - destruct data; [destruct (negb _)|]; answer.
Qed.

Lemma fx_process_spec st m h k buffers :
  invariant st -> represents st m -> live st h -> names st h k ->
  exists status st', fx_process st (Some h) buffers = Ret (status, st') /\ invariant st' /\ represents st' m.
Proof.
  intros Hi Hr Hl Hn.
  destruct (live_in_use st m h k Hi Hr Hl Hn) as (s & e & E & Ed & Ee & Ep & Em & Hv & Eid & Hid).
  unfold fx_process. destruct buffers; cbn [negb]; [|eauto].
  rewrite Ed. ret_step. rewrite Ep, (deref_at _ _ _ E). ret_step.
  destruct (inv_sessions _ Hi _ _ E) as [Hs _].
  assert (forall p, 0 <= p < 4 -> session_ok h.1 (with_masks (created_msk s) (enabled_msk s) p s)) as Hok.
  { intros p Hp. destruct Hs as [c v sid io v0 p0 v1 p1 pr H0 H1 Hpr].
    apply (Session_ok h.1 c v sid io v0 p0 v1 p1 p); auto. }
  assert (0 <= Z.lor (processed_msk s) (bit (fx_id e)) < 4) as Hp.
  { rewrite Eid. destruct Hs as [c v sid io v0 p0 v1 p1 pr H0 H1 Hpr]. cbn [processed_msk sess].
    assert (pr = 0 \/ pr = 1 \/ pr = 2 \/ pr = 3) as [-> |[-> |[-> | ->]]] by lia;
      destruct Hid as [-> | ->]; vm_compute; split; congruence. }
  destruct (_ =? _); rewrite (modify_put _ _ _ _ E); eexists _, _; (split; [reflexivity|]).
  - split; [eapply inv_same; eauto; apply Hok; lia | eapply represents_same; eauto].
  - split; [eapply inv_same; eauto | eapply represents_same; eauto].
Qed.

End Operations.

(** ** Clients *)

Section Clients.
Context {H : AudioEffectHeader}.

(** A call of the library's interface, with what the environment answers. *)
Inductive op :=
| Create (product : product_lib) (alloc : option addr) (uuid : effect_uuid_t) (sid io : Z)
| Release (product : product_lib) (h : effect_handle_t)
| Process (h : effect_handle_t) (buffers : bool)
| Command (h : effect_handle_t) (cmd : effect_cmd) (cmdSize : Z) (data : option cmd_data)
    (replySize : option Z) (pReply : bool)
| Descriptor (h : effect_handle_t) (pDescriptor : bool)
| LibDescriptor (product : product_lib) (uuid : option effect_uuid_t) (pDescriptor : bool).

Record response := mkResponse { r_status : Z; r_handle : option effect_handle_t; r_reply : reply }.

Definition exec (o : op) (st : lib) : ub (response * lib) :=
  match o with
  | Create product alloc uuid sid io =>
      '(status, h, st1) ← lib_create product alloc uuid sid io st; Ret (mkResponse status h NoReply, st1)
  | Release product h => '(status, st1) ← lib_release product h st; Ret (mkResponse status None NoReply, st1)
  | Process h buffers =>
      '(status, st1) ← fx_process st (Some h) buffers; Ret (mkResponse status None NoReply, st1)
  | Command h cmd cmdSize data replySize pReply =>
      '(status, r, st1) ← fx_command st (Some h) cmd cmdSize data replySize pReply;
      Ret (mkResponse status None r, st1)
  | Descriptor h p => '(status, _) ← fx_get_descriptor st (Some h) p; Ret (mkResponse status None NoReply, st)
  | LibDescriptor product uuid p =>
      let '(status, _, st1) := lib_get_descriptor product uuid p st in
      Ret (mkResponse status None NoReply, st1)
  end.

(** The client uses the handles it holds, [calloc] returns unused memory, and a
    reply buffer comes with its size. *)
Definition valid (o : op) (st : lib) : Prop :=
  match o with
  | Create _ alloc _ _ _ => forall a, alloc = Some a -> heap st !! a = None
  | Release _ h | Process h _ | Descriptor h _ => live st h
  | Command h _ _ _ replySize pReply => live st h /\ (pReply = true -> replySize <> None)
  | LibDescriptor _ _ _ => True
  end.

Inductive reach : lib -> Prop :=
| Reach_start : reach lib_start
| Reach_step st o r st' : reach st -> valid o st -> exec o st = Ret (r, st') -> reach st'.

(** What each operation does to the effects in use. *)
Definition spec (o : op) (st : lib) (m : effects_in_use) (r : response) (st' : lib) : Prop :=
  match o with
  | Create product alloc uuid sid _ =>
      create_result product alloc uuid sid st m (r_status r) (r_handle r) st'
  | Release _ h => r_status r = 0 /\ forall k, names st h k -> represents st' (delete k m)
  | Command h cmd _ _ _ _ => forall k, names st h k -> command_result cmd k m (r_reply r) st'
  | _ => represents st' m
  end.

Lemma live_names st h : live st h -> exists k, names st h k.
Proof. intros (s & E & _). exists (s_id s, h.2), s. auto. Qed.

Lemma names_fun st h k k' : names st h k -> names st h k' -> k = k'.
Proof. intros (s & E & ->) (s' & E' & ->). congruence. Qed.

Lemma exec_spec o st m :
  invariant st -> represents st m -> valid o st ->
  exists r st', exec o st = Ret (r, st') /\ invariant st' /\ spec o st m r st'.
Proof.
  intros Hi Hr Hv.
  destruct o as [product alloc uuid sid io|product h|h buffers|h cmd cmdSize data replySize pReply|h p|product uuid p];
    cbn [exec valid spec] in *.
  - destruct (lib_create_spec product alloc uuid sid io st m Hi Hr Hv) as (status & h & st' & -> & Hi' & Hc).
    ret_step. eauto.
  - destruct (live_names st h Hv) as [k Hk].
    destruct (lib_release_spec product st m h k Hi Hr Hv Hk) as (st' & -> & Hi' & Hr'). ret_step.
    eexists _, _. split; [reflexivity|]. split; [exact Hi'|]. split; [reflexivity|].
    intros k' Hk'. now rewrite (names_fun _ _ _ _ Hk' Hk).
  - destruct (live_names st h Hv) as [k Hk].
    destruct (fx_process_spec st m h k buffers Hi Hr Hv Hk) as (status & st' & -> & ? & ?). ret_step. eauto.
  - destruct Hv as [Hl Hrep]. destruct (live_names st h Hl) as [k Hk].
    destruct (fx_command_spec st m h k cmd cmdSize data replySize pReply Hi Hr Hl Hk Hrep)
      as (status & r & st' & -> & Hi' & Hc). ret_step.
    eexists _, _. split; [reflexivity|]. split; [exact Hi'|].
    intros k' Hk'. now rewrite (names_fun _ _ _ _ Hk' Hk).
  - destruct (live_names st h Hv) as [k Hk].
    destruct (live_in_use st m h k Hi Hr Hv Hk) as (s & e & E & Ed & Ee & Ep & Em & Hve & Eid & Hid).
    unfold fx_get_descriptor. destruct p; cbn [negb]; [|ret_step; eauto].
    rewrite Ed. ret_step. rewrite Eid.
    assert (exists d, at_index (descriptors st) h.2 = Ret d) as [d ->].
    { pose proof (inv_descriptors _ Hi) as Hd. destruct (descriptors st) as [|d0 [|d1 [|]]]; try discriminate.
      destruct Hid as [-> | ->]; eexists; reflexivity. }
    ret_step. ret_step. eauto.
  - unfold lib_get_descriptor. destruct uuid as [u|]; [|eauto]. destruct p; cbn [negb]; [|eauto].
    destruct (inv_initialised product st Hi) as (st0 & -> & Hi0 & H0 & Eh & El). cbn [Z.eqb negb].
    pose proof (represents_heap _ st0 m Eh Hr) as Hr0.
    destruct (get_descriptor st0 u); eauto.
Qed.

Lemma voice_inv_start : invariant lib_start.
Proof.
  split; cbn; auto using NoDup_nil_2.
  - intros a. rewrite lookup_empty, elem_of_nil. split; [done | intros [? [=]]].
  - intros a s. now rewrite lookup_empty.
  - intros a b s t. now rewrite lookup_empty.
Qed.

Lemma represents_start : represents lib_start ∅.
Proof.
  intros sid i v. rewrite lookup_empty. split; [discriminate|].
  intros (a & s & E & _). cbn in E. now rewrite lookup_empty in E.
Qed.

Lemma spec_represents o st m r st' :
  valid o st -> spec o st m r st' -> exists m', represents st' m'.
Proof.
  intros Hv Hs. destruct o; cbn [spec valid] in *; eauto.
  - destruct Hs as [(a & i & _ & _ & _ & _ & Hr & _)|(_ & Hr & _)]; eauto.
  - destruct (live_names st h Hv) as [k Hk]. destruct Hs as [_ Hs]. eauto.
  - destruct Hv as [Hl _]. destruct (live_names st h Hl) as [k Hk].
    destruct (Hs k Hk) as (cur & _ & Hc). destruct cmd, (r_reply r); eauto; destruct Hc; eauto.
Qed.

Lemma reach_invariant st : reach st -> invariant st /\ exists m, represents st m.
Proof.
  induction 1 as [|st o r st' _ [Hi [m Hr]] Hv He].
  - split; [apply voice_inv_start | exists ∅; apply represents_start].
  - destruct (exec_spec o st m Hi Hr Hv) as (r' & st'' & He' & Hi' & Hs).
    assert (r' = r /\ st'' = st') as [-> ->] by (rewrite He in He'; injection He'; auto).
    split; [exact Hi' | eapply spec_represents; eauto].
Qed.

(** ** Theorems *)

(** C12. Whatever a client does with the handles it holds, no operation follows a
    null or dangling pointer, and the library's data structures stay consistent:
    the list names exactly the allocated sessions, one for each audio session,
    each with an effect in use, and its masks are those of its effects' states. *)
Theorem voice_library_safe st :
  reach st ->
  invariant st /\ forall o, valid o st -> exists r st', exec o st = Ret (r, st').
Proof.
  intros Hr. destruct (reach_invariant st Hr) as [Hi [m Hm]]. split; [exact Hi|].
  intros o Hv. destruct (exec_spec o st m Hi Hm Hv) as (r & st' & E & _). eauto.
Qed.

(** C20. The library refines the map from audio sessions and effects to states:
    creation succeeds exactly for effects not in use, release removes the effect,
    enabling needs a configured effect, disabling always works, and nothing else
    changes an effect in use. *)
Theorem voice_refines_spec st o m r st' :
  reach st -> represents st m -> valid o st -> exec o st = Ret (r, st') -> spec o st m r st'.
Proof.
  intros Hreach Hm Hv He. destruct (reach_invariant st Hreach) as [Hi _].
  destruct (exec_spec o st m Hi Hm Hv) as (r' & st'' & He' & _ & Hs).
  rewrite He in He'. injection He' as <- <-. exact Hs.
Qed.

(** [fx_process] on a session at a known address. *)
Lemma fx_process_at st a s i :
  heap st !! a = Some s -> session_ok a s -> is_id i -> state_at i s <> EFFECT_STATE_INIT ->
  fx_process st (Some (a, i)) true =
    let processed := Z.lor (processed_msk s) (bit i) in
    Ret (if Z.land processed (enabled_msk s) =? enabled_msk s
         then (0, put_session a (with_masks (created_msk s) (enabled_msk s) 0 s) st)
         else (- ENODATA, put_session a (with_masks (created_msk s) (enabled_msk s) processed s) st)).
Proof.
  intros E Hs Hid Hv. destruct (deref_effect_at st a s i E Hid Hs) as (e & Ed & Ee & Eid & Ep).
  unfold state_at in Hv. rewrite Ee in Hv.
  unfold fx_process. cbn [negb]. rewrite Ed. ret_step. rewrite (Ep Hv), (deref_at _ _ _ E), Eid. ret_step.
  destruct (_ =? _); now rewrite (modify_put _ _ _ _ E).
Qed.

Lemma state_at_0 c v sid io v0 p0 v1 p1 pr : state_at 0 (sess c v sid io v0 p0 v1 p1 pr) = v0.
Proof. reflexivity. Qed.
Lemma state_at_1 c v sid io v0 p0 v1 p1 pr : state_at 1 (sess c v sid io v0 p0 v1 p1 pr) = v1.
Proof. reflexivity. Qed.

(** One round of processing: with a single effect enabled every call
    completes the round; with both enabled, the first effect's call, however often
    it is repeated, asks for more data, and the other effect's call completes the
    round and leaves the session ready for the next one. *)
Theorem process_round st a s i j :
  reach st -> heap st !! a = Some s -> is_id i -> is_id j -> i <> j ->
  state_at i s = EFFECT_STATE_ACTIVE -> processed_msk s = 0 ->
  (state_at j s <> EFFECT_STATE_ACTIVE -> fx_process st (Some (a, i)) true = Ret (0, st)) /\
  (state_at j s = EFFECT_STATE_ACTIVE -> exists st1,
     fx_process st (Some (a, i)) true = Ret (- ENODATA, st1) /\
     fx_process st1 (Some (a, i)) true = Ret (- ENODATA, st1) /\
     fx_process st1 (Some (a, j)) true = Ret (0, st)).
Proof.
  intros Hreach E Hi Hj Hij Hv Hp. destruct (reach_invariant st Hreach) as [Hinv _].
  destruct (inv_sessions _ Hinv _ _ E) as [Hs _].
  rewrite (fx_process_at st a s i E Hs Hi) by congruence. cbv zeta.
  destruct Hs as [c v sid io v0 p0 v1 p1 pr H0 H1 Hpr]. cbn [processed_msk sess] in Hp. subst pr.
  assert (forall pr, 0 <= pr < 4 -> session_ok a (sess c v sid io v0 p0 v1 p1 pr)) as Hok
    by (intros; now constructor).
  pose proof (put_same _ _ _ E) as Eput.
  split; intros Hvj.
  - transitivity (Ret (0, put_session a (sess c v sid io v0 p0 v1 p1 0) st)); [|now rewrite Eput].
    destruct Hi as [-> | ->], Hj as [-> | ->]; try congruence;
      rewrite ?state_at_0, ?state_at_1 in *; subst; [destruct v1 | destruct v0]; congruence || reflexivity.
  - eexists (put_session a (sess c v sid io v0 p0 v1 p1 (bit i)) st).
    assert (0 <= bit i < 4) as Hb by (destruct Hi as [-> | ->]; vm_compute; split; congruence).
    rewrite !(fx_process_at _ a (sess c v sid io v0 p0 v1 p1 (bit i)) _ (put_lookup _ _ _) (Hok _ Hb))
      by first [assumption | intros Hx; destruct Hi as [-> | ->], Hj as [-> | ->];
                rewrite ?state_at_0, ?state_at_1 in *; congruence].
    cbv zeta. rewrite !put_put.
    assert (forall x, Ret (x, put_session a (sess c v sid io v0 p0 v1 p1 0) st) = Ret (x, st)) as <-
      by (intros; now rewrite Eput).
    destruct Hi as [-> | ->], Hj as [-> | ->]; try congruence; rewrite ?state_at_0, ?state_at_1 in *; subst;
      split; [|split| |split]; reflexivity.
Qed.

(** While an effect of a session is enabled, a configuration command cannot
    change the session's configuration. *)
Theorem config_locked_while_enabled st h s cmdSize data replySize pReply status r st' s' :
  reach st -> live st h -> heap st !! h.1 = Some s -> enabled_msk s <> 0 ->
  fx_command st (Some h) EFFECT_CMD_SET_CONFIG cmdSize data replySize pReply = Ret (status, r, st') ->
  heap st' !! h.1 = Some s' -> config s' = config s.
Proof.
  intros Hreach Hl E Hen He E'. destruct (reach_invariant st Hreach) as [Hi [m Hr]].
  destruct (live_names st h Hl) as [k Hk].
  destruct (live_in_use st m h k Hi Hr Hl Hk) as (s0 & e & E0 & Ed & Ee & Ep & Em & Hv & Eid & Hid).
  assert (s0 = s) as -> by congruence. clear E0.
  assert (forall x y, Ret (x, y, st) = Ret (status, r, st') -> config s' = config s) as Hsame
    by (intros x y [= _ _ <-]; congruence).
  unfold fx_command in He. destruct data as [data|]; [|eauto].
  destruct (negb _); [eauto|].
  destruct (bad_reply pReply replySize sizeof_int) as [|bad]; [discriminate|]. cbn [mbind ub_bind] in He.
  destruct bad; [eauto|]. rewrite Ed in He. cbn [mbind ub_bind] in He. rewrite Ep in He.
  destruct (set_config_spec st m h.1 s (as_config data) Hi Hr E) as (r1 & st1 & Es & _ & _ & _ & Hst).
  rewrite Es, (Hst Hen) in He. cbn [mbind ub_bind] in He. destruct (negb _); [eauto|]. rewrite Ed in He. cbn [mbind ub_bind] in He.
  destruct (bool_decide _); [eauto|].
  destruct h as [a i]. cbn [fst snd] in *. destruct (inv_sessions _ Hi _ _ E) as [Hs _].
  rewrite (effect_set_state_at st a s i e EFFECT_STATE_CONFIG E Hid Hs Ee Ep) in He.
  destruct (transition _ _); cbn [mbind ub_bind] in He; [|eauto]. injection He as _ _ <-.
  rewrite put_lookup in E'. injection E' as <-.
  destruct Hs as [c v sid io v0 p0 v1 p1 pr H0 H1 Hpr]. destruct Hid as [-> | ->]; reflexivity.
Qed.

(** A parameter query copies no more than the command and the reply buffer
    hold. *)
Theorem get_param_in_bounds st h cmdSize data replySize pReply status copied v st' :
  fx_command st (Some h) EFFECT_CMD_GET_PARAM cmdSize data replySize pReply
    = Ret (status, ReplyParam copied v, st') ->
  status = 0 /\ v = - ENOSYS /\ st' = st /\
  exists n, replySize = Some n /\ sizeof_effect_param_t <= n /\ copied <= n /\ copied <= cmdSize.
Proof.
  unfold fx_command. destruct data as [data|]; [|discriminate].
  destruct (cmdSize <? sizeof_effect_param_t) eqn:E1; [discriminate|].
  destruct pReply; cbn [negb]; [|discriminate]. destruct replySize as [n|]; [|discriminate]. cbn.
  destruct (_ || _ || _) eqn:E2; [discriminate|]. intros [= <- <- <- <-]. boolprop.
  repeat split. exists n. repeat split; lia.
Qed.

End Clients.

(** *** Witnesses: the values of the AOSP headers *)

#[local] Instance AospAudioHeader : AudioEffectHeader := {|
  FX_IID_AEC := mkUuid 0x7b491460 0x8d4d 0x11e0 0xbd61 [0x00; 0x02; 0xa5; 0xd5; 0xc5; 0x1b];
  FX_IID_NS := mkUuid 0x58b4b260 0x8e06 0x11e0 0xaa8e [0x00; 0x02; 0xa5; 0xd5; 0xc5; 0x1b];
  EFFECT_CONTROL_API_VERSION := 0x20000;
  EFFECT_FLAG_TYPE_PRE_PROC := 3;
  EFFECT_FLAG_DEVICE_IND := 0x10000;
  EFFECT_FLAG_HW_ACC_TUNNEL := 0x800;
  EFFECT_FLAG_OFFLOAD_SUPPORTED := 0x400000;
  AUDIO_CHANNEL_IN_MONO := 0x10;
  AUDIO_FORMAT_PCM_16_BIT := 1;
  EFFECT_CONFIG_SMP_RATE := 2;
  EFFECT_CONFIG_CHANNELS := 4;
  EFFECT_CONFIG_FORMAT := 8;
  sizeof_effect_config_t := 64;
  sizeof_effect_param_t := 12;
|}.

(** A client that creates and enables both effects of audio session 21. *)
Definition aec_uuid : effect_uuid_t := d_uuid qcom_default_aec_descriptor.
Definition ns_uuid : effect_uuid_t := d_uuid qcom_default_ns_descriptor.
Definition config_48k : effect_config_t :=
  mkConfig (mkBufferConfig 48000 16 1 0) (mkBufferConfig 48000 16 1 0).
Definition config_16k : effect_config_t :=
  mkConfig (mkBufferConfig 16000 16 1 0) (mkBufferConfig 16000 16 1 0).
Definition set_config_op (h : effect_handle_t) : op :=
  Command h EFFECT_CMD_SET_CONFIG 64 (Some (mkCmdData config_48k 0)) (Some 4) true.
Definition enable_op (h : effect_handle_t) : op := Command h EFFECT_CMD_ENABLE 0 None (Some 4) true.

Definition client_ops : list op :=
  [ Create None (Some 4096) aec_uuid 21 5; Create None None ns_uuid 21 5;
    set_config_op (4096, 0); set_config_op (4096, 1); enable_op (4096, 0); enable_op (4096, 1) ].

Fixpoint exec_all (os : list op) (st : lib) : ub lib :=
  match os with
  | [] => Ret st
  | o :: os => '(_, st1) ← exec o st; exec_all os st1
  end.

Definition client_state : lib :=
  match exec_all client_ops lib_start with Ret st => st | Undef => lib_start end.
Definition client_session : session_s :=
  default (empty_session 0 0) (heap client_state !! (4096 : addr)).

(** Decide that an operation is allowed. *)
Definition live_b (st : lib) (h : effect_handle_t) : bool :=
  match heap st !! h.1 with
  | Some s => bool_decide (h.2 = 0 \/ h.2 = 1) && created (state_at h.2 s)
  | None => false
  end.
Definition valid_b (o : op) (st : lib) : bool :=
  match o with
  | Create _ (Some a) _ _ _ => bool_decide (heap st !! a = None)
  | Create _ None _ _ _ => true
  | Release _ h | Process h _ | Descriptor h _ => live_b st h
  | Command h _ _ _ replySize pReply => live_b st h && (negb pReply || bool_decide (is_Some replySize))
  | LibDescriptor _ _ _ => true
  end.
Fixpoint valid_all (os : list op) (st : lib) : bool :=
  match os with
  | [] => true
  | o :: os => valid_b o st && match exec o st with Ret (_, st1) => valid_all os st1 | Undef => false end
  end.

Lemma live_b_ok st h : live_b st h = true -> live st h.
Proof.
  unfold live_b, live. destruct (heap st !! h.1) as [s|] eqn:E; [|discriminate]. intros Hb.
  boolprop. exists s. unfold created in *. boolprop. auto.
Qed.

Lemma valid_b_ok o st : valid_b o st = true -> valid o st.
Proof.
  destruct o; cbn; auto using live_b_ok.
  - destruct alloc as [a|]; [|discriminate]. intros Hb a' [= <-]. now boolprop.
  - intros [Hl Hp]%andb_prop. split; [now apply live_b_ok|]. intros -> ->.
    vm_compute in Hp. discriminate.
Qed.

Lemma reach_all os st st' :
  reach st -> valid_all os st = true -> exec_all os st = Ret st' -> reach st'.
Proof.
  revert st. induction os as [|o os IH]; intros st Hr Hv He; cbn in Hv, He.
  - now injection He as <-.
  - apply andb_prop in Hv as [Hvo Hv]. destruct (exec o st) as [|[r st1]] eqn:Eo; [discriminate|].
    apply (IH st1); auto. eapply Reach_step; eauto. now apply valid_b_ok.
Qed.

Lemma client_reach : reach client_state.
Proof. apply (reach_all client_ops lib_start); [constructor | |]; vm_compute; reflexivity. Qed.

Lemma voice_library_safe_witness :
  invariant client_state /\ exists r st', exec (Release None (4096, 0)) client_state = Ret (r, st').
Proof.
  destruct (voice_library_safe client_state client_reach) as [Hi Hp]. split; [exact Hi|].
  apply Hp. apply valid_b_ok. vm_compute. reflexivity.
Defined.

Lemma voice_refines_spec_witness :
  exists h st', spec (Create None (Some 4096) aec_uuid 21 5) lib_start ∅ (mkResponse 0 (Some h) NoReply) st'.
Proof.
  exists (4096, 0), (match exec (Create None (Some 4096) aec_uuid 21 5) lib_start with
                     | Ret (_, st') => st' | Undef => lib_start end).
  apply (voice_refines_spec lib_start).
  - constructor.
  - exact represents_start.
  - apply valid_b_ok. vm_compute. reflexivity.
  - vm_compute. reflexivity.
Defined.

Lemma process_round_witness :
  exists st1, fx_process client_state (Some (4096, 1)) true = Ret (- ENODATA, st1) /\
    fx_process st1 (Some (4096, 0)) true = Ret (0, client_state).
Proof.
  destruct (process_round client_state 4096 client_session 1 0) as [_ Hboth].
  - exact client_reach.
  - vm_compute. reflexivity.
  - right. reflexivity.
  - left. reflexivity.
  - discriminate.
  - vm_compute. reflexivity.
  - vm_compute. reflexivity.
  - destruct Hboth as (st1 & H1 & _ & H2); [vm_compute; reflexivity|]. exists st1. split; assumption.
Defined.

Lemma config_locked_while_enabled_witness :
  config (default (empty_session 0 0) (heap client_state !! (4096 : addr))) = config_48k.
Proof.
  rewrite (config_locked_while_enabled client_state (4096, 0) client_session 64
    (Some (mkCmdData config_16k 0)) (Some 4) true 0 (ReplyInt (- ENOSYS)) client_state
    (default (empty_session 0 0) (heap client_state !! (4096 : addr)))).
  - vm_compute. reflexivity.
  - exact client_reach.
  - apply live_b_ok. vm_compute. reflexivity.
  - vm_compute. reflexivity.
  - vm_compute. discriminate.
  - vm_compute. reflexivity.
  - vm_compute. reflexivity.
Defined.

Lemma get_param_in_bounds_witness :
  exists n, Some 20 = Some n /\ sizeof_effect_param_t <= n /\ 16 <= n /\ 16 <= 24.
Proof.
  destruct (get_param_in_bounds client_state (4096, 0) 24 (Some (mkCmdData zero_config 4)) (Some 20) true
    0 16 (- ENOSYS) client_state) as (_ & _ & _ & Hn).
  - vm_compute. reflexivity.
  - exact Hn.
Defined.
