(* ===== verification/FloatArith.v ===== *)
(** * IEEE arithmetic of C's [float] and [double]

    [volume_listener.c] computes with [float] (binary32) and, through [sqrt] and
    [fmin], with [double] (binary64).  Every finite [float] is a multiple of
    2^-149 and every finite [double] one of 2^-1074, so a value is the [Z] that
    counts these units, and a comparison of values is a comparison of integers.
    An operation rounds the exact result to the precision of its type, to nearest
    and ties to even; subnormal results need no case of their own because the unit
    is the smallest subnormal.  The values that occur are far from overflow, so
    infinities have no counterpart, and neither have NaNs and the sign of zero. *)

From S2P Require Import Prelude.

(** [n / 2^k], to the nearest integer, ties to even. *)
Definition rne (n k : Z) : Z :=
  let q := n / 2 ^ k in
  let r := n mod 2 ^ k in
  if 2 * r <? 2 ^ k then q
  else if 2 ^ k <? 2 * r then q + 1
  else if Z.even q then q else q + 1.

(** [n / 2^s] units, [n] not negative, rounded to [p] significant bits. *)
Definition rnd (p s n : Z) : Z :=
  let k := Z.max s (Z.log2 n + 1 - p) in
  rne n k * 2 ^ (k - s).

Definition rnd_signed (p s n : Z) : Z := Z.sgn n * rnd p s (Z.abs n).

Definition FLOAT_P : Z := 24.
Definition FLOAT_UNIT : Z := 149.
Definition DOUBLE_P : Z := 53.
Definition DOUBLE_UNIT : Z := 1074.

(** An integer as a [float] or a [double]. *)
Definition float_one : Z := 2 ^ FLOAT_UNIT.
Definition double_one : Z := 2 ^ DOUBLE_UNIT.
Definition float_of_u32 (u : Z) : Z := rnd FLOAT_P 0 u * float_one.

Definition fmul (a b : Z) : Z := rnd_signed FLOAT_P FLOAT_UNIT (a * b).
Definition fadd (a b : Z) : Z := rnd_signed FLOAT_P 0 (a + b).
(** Division by a power of two. *)
Definition fdiv2 (a j : Z) : Z := rnd_signed FLOAT_P j a.

Definition double_of_float (a : Z) : Z := a * 2 ^ (DOUBLE_UNIT - FLOAT_UNIT).
Definition float_of_double (d : Z) : Z := rnd_signed FLOAT_P (DOUBLE_UNIT - FLOAT_UNIT) d.

(** The root of [d] is that of [d * 2^1074] units.  Twice its integer part, made odd
    if there is a remainder, rounds as the exact root does. *)
Definition dsqrt (d : Z) : Z :=
  if d <=? 0 then 0 else
  let n := d * 2 ^ DOUBLE_UNIT in
  let r := Z.sqrt n in
  rnd DOUBLE_P 1 (2 * r + (if r * r =? n then 0 else 1)).

(** The nearest [double] to a decimal literal, and the [float] it initialises. *)
Definition double_lit (num den : Z) : Z :=
  let q := num * 2 ^ DOUBLE_UNIT / den in
  rnd DOUBLE_P 1 (2 * q + (if q * den =? num * 2 ^ DOUBLE_UNIT then 0 else 1)).
Definition float_lit (num den : Z) : Z := float_of_double (double_lit num den).

(** [round]: to an integer, halves away from zero. *)
Definition round_float (a : Z) : Z :=
  Z.sgn a * ((Z.abs a + 2 ^ (FLOAT_UNIT - 1)) / 2 ^ FLOAT_UNIT).

(** ** Rounding is monotone and keeps powers of two *)

Lemma rne_le n k M : 0 <= k -> n <= M * 2 ^ k -> rne n k <= M.
Proof.
  intros Hk Hn. unfold rne. pose proof (Z.pow_pos_nonneg 2 k ltac:(lia) Hk) as Hp.
  set (b := 2 ^ k) in *. pose proof (Z.div_mod n b ltac:(lia)) as E.
  pose proof (Z.mod_pos_bound n b Hp) as Hm.
  destruct (2 * (n mod b) <? b) eqn:E1; boolprop; [nia|].
  destruct (b <? 2 * (n mod b)) eqn:E2; boolprop; [nia|].
  destruct (Z.even _); nia.
Qed.

Lemma rne_ge n k M : 0 <= k -> M * 2 ^ k <= n -> M <= rne n k.
Proof.
  intros Hk Hn. unfold rne. pose proof (Z.pow_pos_nonneg 2 k ltac:(lia) Hk) as Hp.
  set (b := 2 ^ k) in *. pose proof (Z.div_mod n b ltac:(lia)) as E.
  pose proof (Z.mod_pos_bound n b Hp) as Hm.
  assert (M <= n / b) by (apply Z.div_le_lower_bound; lia).
  destruct (_ <? _); [lia|]. destruct (_ <? _); [lia|]. destruct (Z.even _); lia.
Qed.

Lemma rne_mono n n' k : 0 <= k -> n <= n' -> rne n k <= rne n' k.
Proof.
  intros Hk Hn. pose proof (Z.pow_pos_nonneg 2 k ltac:(lia) Hk) as Hp.
  destruct (Z.eq_dec (n / 2 ^ k) (n' / 2 ^ k)) as [E|E].
  - unfold rne. rewrite <- E. set (b := 2 ^ k) in *.
    assert (n mod b <= n' mod b) as Hr by (rewrite !Z.mod_eq by lia; lia).
    repeat case_match; boolprop; lia.
  - assert (n / 2 ^ k + 1 <= n' / 2 ^ k) as Hlt.
    { pose proof (Z.div_le_mono n n' (2 ^ k) Hp Hn). lia. }
    transitivity (n / 2 ^ k + 1).
    + apply rne_le; [exact Hk|]. pose proof (Z.div_mod n (2 ^ k) ltac:(lia)).
      pose proof (Z.mod_pos_bound n (2 ^ k) Hp). nia.
    + apply rne_ge; [exact Hk|]. pose proof (Z.mul_div_le n' (2 ^ k) Hp). nia.
Qed.

Lemma rnd_nonneg p s n : 0 <= s -> 0 <= n -> 0 <= rnd p s n.
Proof.
  intros Hs Hn. unfold rnd. apply Z.mul_nonneg_nonneg; [|apply Z.pow_nonneg; lia].
  apply rne_ge; lia.
Qed.

(** The exponent the rounding works at. *)
Definition rnd_exp (p s n : Z) : Z := Z.max s (Z.log2 n + 1 - p).

Lemma rnd_le_pow p s n e : 0 <= s -> 0 < p -> 0 <= n -> s <= e -> n <= 2 ^ e -> rnd p s n <= 2 ^ (e - s).
Proof.
  intros Hs Hp Hn He Hle. unfold rnd. set (k := Z.max s (Z.log2 n + 1 - p)).
  assert (k <= e) as Hk.
  { unfold k. enough (Z.log2 n <= e) by lia. rewrite <- (Z.log2_pow2 e) by lia. now apply Z.log2_le_mono. }
  replace (2 ^ (e - s)) with (2 ^ (e - k) * 2 ^ (k - s)) by (rewrite <- Z.pow_add_r by (unfold k in *; lia); f_equal; lia).
  apply Z.mul_le_mono_nonneg_r; [apply Z.pow_nonneg; lia|]. apply rne_le; [unfold k; lia|].
  rewrite <- Z.pow_add_r by (unfold k in *; lia). now replace (e - k + k) with e by lia.
Qed.

Lemma rnd_ge_pow p s n e : 0 <= s -> 0 < p -> s <= e -> 2 ^ e <= n -> Z.log2 n + 1 - p <= e ->
  2 ^ (e - s) <= rnd p s n.
Proof.
  intros Hs Hp He Hle Hlog. unfold rnd. set (k := Z.max s (Z.log2 n + 1 - p)).
  assert (k <= e) as Hk by (unfold k; lia).
  replace (2 ^ (e - s)) with (2 ^ (e - k) * 2 ^ (k - s)) by (rewrite <- Z.pow_add_r by (unfold k in *; lia); f_equal; lia).
  apply Z.mul_le_mono_nonneg_r; [apply Z.pow_nonneg; lia|]. apply rne_ge; [unfold k; lia|].
  rewrite <- Z.pow_add_r by (unfold k in *; lia). now replace (e - k + k) with e by lia.
Qed.

Lemma rnd_mono p s n n' : 0 <= s -> 0 < p -> 0 <= n <= n' -> rnd p s n <= rnd p s n'.
Proof.
  intros Hs Hp Hn. pose proof (Z.log2_le_mono n n' ltac:(lia)) as Hlog.
  pose proof (Z.log2_nonneg n) as Hl0.
  destruct (Z.eq_dec (rnd_exp p s n) (rnd_exp p s n')) as [E|E].
  { unfold rnd. fold (rnd_exp p s n) (rnd_exp p s n'). rewrite <- E.
    apply Z.mul_le_mono_nonneg_r; [apply Z.pow_nonneg; lia|]. apply rne_mono; [unfold rnd_exp; lia | lia]. }
  unfold rnd_exp in E. set (e := Z.log2 n').
  assert (0 < n') as Hn' by (destruct (Z.eq_dec n' 0) as [->|]; [|lia]; assert (n = 0) by lia; subst; lia).
  pose proof (Z.log2_spec n' Hn') as Hspec. fold e in Hspec.
  assert (s <= e) as He by (unfold e; lia).
  transitivity (2 ^ (e - s)).
  - apply rnd_le_pow; [lia..|]. transitivity (2 ^ Z.succ (Z.log2 n)).
    + destruct (Z.eq_dec n 0) as [->|]; [cbn; lia|]. pose proof (Z.log2_spec n ltac:(lia)). lia.
    + apply Z.pow_le_mono_r; unfold e; lia.
  - apply rnd_ge_pow; [lia..|]. fold e. lia.
Qed.

Lemma rnd_pos_sgn p s n : 0 <= n -> rnd_signed p s n = Z.sgn n * rnd p s n.
Proof. intros Hn. unfold rnd_signed. now rewrite Z.abs_eq. Qed.

Lemma rnd_0 p s : 0 <= s -> rnd p s 0 = 0.
Proof.
  intros Hs. unfold rnd, rne. rewrite Z.div_0_l, Z.mod_0_l by (apply Z.pow_nonzero; lia). cbn.
  destruct (_ <? _) eqn:E; [reflexivity|]. boolprop.
  pose proof (Z.pow_pos_nonneg 2 (Z.max s (Z.log2 0 + 1 - p)) ltac:(lia) ltac:(lia)). cbn in *. lia.
Qed.

Lemma rnd_signed_nonneg p s n : 0 <= s -> 0 <= n -> rnd_signed p s n = rnd p s n.
Proof.
  intros Hs Hn. rewrite rnd_pos_sgn by assumption.
  destruct (Z.eq_dec n 0) as [->|]; [now rewrite rnd_0 by assumption|].
  rewrite Z.sgn_pos by lia. lia.
Qed.

(** ** The operations *)

Lemma fmul_mono a a' b b' : 0 <= a <= a' -> 0 <= b <= b' -> 0 <= fmul a b <= fmul a' b'.
Proof.
  intros Ha Hb. unfold fmul, FLOAT_P, FLOAT_UNIT. rewrite !rnd_signed_nonneg by nia.
  split; [apply rnd_nonneg; nia | apply rnd_mono; nia].
Qed.

Lemma fadd_mono a a' b b' : 0 <= a <= a' -> 0 <= b <= b' -> 0 <= fadd a b <= fadd a' b'.
Proof.
  intros Ha Hb. unfold fadd, FLOAT_P. rewrite !rnd_signed_nonneg by lia.
  split; [apply rnd_nonneg; lia | apply rnd_mono; lia].
Qed.

(** Twice the integer part of a root, and the sticky bit, grow with the argument. *)
Lemma sticky_mono n n' : 0 <= n <= n' ->
  2 * Z.sqrt n + (if Z.sqrt n * Z.sqrt n =? n then 0 else 1)
  <= 2 * Z.sqrt n' + (if Z.sqrt n' * Z.sqrt n' =? n' then 0 else 1).
Proof.
  intros Hn. pose proof (Z.sqrt_le_mono n n' ltac:(lia)) as Hs.
  pose proof (Z.sqrt_spec n ltac:(lia)) as H1. pose proof (Z.sqrt_spec n' ltac:(lia)) as H2. cbv zeta in H1, H2.
  destruct (Z.sqrt n * Z.sqrt n =? n) eqn:E1, (Z.sqrt n' * Z.sqrt n' =? n') eqn:E2; boolprop; try lia.
  destruct (Z.eq_dec (Z.sqrt n) (Z.sqrt n')) as [E|]; [|lia]. rewrite <- E in E2. lia.
Qed.

Lemma dsqrt_mono d d' : 0 <= d <= d' -> 0 <= dsqrt d <= dsqrt d'.
Proof.
  intros Hd. unfold dsqrt, DOUBLE_P, DOUBLE_UNIT.
  pose proof (Z.pow_pos_nonneg 2 1074 ltac:(lia) ltac:(lia)) as Hp. set (u := 2 ^ 1074) in *.
  assert (forall x, 0 <= x -> 0 <= 2 * Z.sqrt (x * u) + (if Z.sqrt (x * u) * Z.sqrt (x * u) =? x * u then 0 else 1)) as H0.
  { intros x Hx. pose proof (Z.sqrt_nonneg (x * u)). destruct (_ =? _); lia. }
  destruct (d <=? 0) eqn:E1; boolprop.
  - split; [lia|]. destruct (d' <=? 0); [lia|]. apply rnd_nonneg; [lia|]. apply H0. lia.
  - replace (d' <=? 0) with false by lia. split; [apply rnd_nonneg; [lia | apply H0; lia]|].
    apply rnd_mono; [lia | lia|]. split; [apply H0; lia|]. apply sticky_mono. nia.
Qed.

Lemma float_of_double_mono d d' : 0 <= d <= d' -> 0 <= float_of_double d <= float_of_double d'.
Proof.
  intros Hd. unfold float_of_double, FLOAT_P, DOUBLE_UNIT, FLOAT_UNIT. rewrite !rnd_signed_nonneg by lia.
  split; [apply rnd_nonneg; lia | apply rnd_mono; lia].
Qed.

Lemma float_of_double_le_one d : 0 <= d <= double_one -> 0 <= float_of_double d <= float_one.
Proof.
  intros Hd. split; [apply (float_of_double_mono d d); lia|].
  transitivity (float_of_double double_one); [apply float_of_double_mono; lia|]. vm_compute. discriminate.
Qed.
