(* ===== verification/VolumeListener.v ===== *)
(** * The volume listener effect

    Models [audio/effects/volume_listener.c]: five effects (one per stream type)
    that alter no sound but watch the volume and the device of the streams they are
    attached to.  Whenever the loudness of the speaker may have changed, the library
    adds up the energy of the streams active there, sends the resulting linear gain
    to the audio HAL, and the calibration level that fits it.

    [listener] holds the static variables, the list of contexts (a handle is the
    address of a context; all contexts that exist are on the list) and, newest
    first, the calls made to the audio HAL.  Volumes are [float] values in the
    units of [FloatArith].  When no stream is heard the code converts a negative number to
    [uint32_t]: undefined, unless the platform gives it a value ([u32_out_of_range]).  Logging, and the dump of the list, are left out. *)

From S2P Require Import Prelude AudioEffect FloatArith.

(** ** Values of headers outside the repository *)

Class AudioPlatform := {
  AUDIO_DEVICE_NONE : Z;
  AUDIO_DEVICE_OUT_EARPIECE : Z;
  AUDIO_DEVICE_OUT_SPEAKER : Z;
  AUDIO_DEVICE_OUT_WIRED_HEADSET : Z;
  AUDIO_DEVICE_OUT_WIRED_HEADPHONE : Z;
  AUDIO_DEVICE_OUT_SPEAKER_SAFE : Z;
  EFFECT_BUFFER_ACCESS_ACCUMULATE : Z;
  EFFECT_CONTROL_API_VERSION : Z;
  EFFECT_FLAG_TYPE_INSERT : Z;
  EFFECT_FLAG_VOLUME_IND : Z;
  EFFECT_FLAG_DEVICE_IND : Z;
  EFFECT_FLAG_OFFLOAD_SUPPORTED : Z;
  EFFECT_FLAG_NO_PROCESS : Z;
  sizeof_effect_config_t : Z;
  (** The conversion to [uint32_t] of a [double] outside its range: [Undef] in C; a compiler
      that says more than C gives a value. *)
  u32_out_of_range : Z -> ub Z;
}.

(** ** Data *)

Definition MAX_VOLUME_CAL_STEPS : Z := 15.
Definition MAX_GAIN_LEVELS : Z := 5.
Definition DEFAULT_CAL_STEP : Z := 0.
Definition LIN_VOLUME_QFACTOR_28 : Z := 28.

Inductive vol_state :=
| VOL_LISTENER_STATE_UNINITIALIZED | VOL_LISTENER_STATE_INITIALIZED | VOL_LISTENER_STATE_ACTIVE.

#[global] Instance vol_state_eq_dec : EqDecision vol_state.
Proof. solve_decision. Defined.

(** [enum STREAM_TYPE] is the index of a descriptor. *)
Definition MUSIC : Z := 0.
Definition RING : Z := 1.
Definition ALARM : Z := 2.
Definition VC_CALL : Z := 3.
Definition NOTIFICATION : Z := 4.

(** Of the configuration only this field is read. *)
Record vol_config := mkVolConfig { outputCfg_accessMode : Z }.

Record vol_listener_context_t := mkContext {
  config : vol_config;
  desc : effect_descriptor_t;
  stream_type : Z;
  session_id : Z;
  state : vol_state;
  dev_id : Z;
  left_vol : Z;
  right_vol : Z;
}.

(** PalDefs.h *)
Record pal_amp_db_and_gain_table := mkGain { amp : Z; db : Z; level : Z }.

Inductive hal_call :=
| SendLinearGain (gain : Z)
| SendGainDepCal (cal_level : Z) (accepted : bool).

Record listener := mkListener {
  initialized : bool;
  current_gain_dep_cal_level : Z;
  total_volume_cal_step : Z;
  volume_curve_gain_mapping_table : list pal_amp_db_and_gain_table;
  init_status : Z;
  current_vol : Z;
  send_gain_dep_cal : bool;      (* not NULL *)
  send_linear_gain : bool;       (* not NULL *)
  vol_effect_list : list (Z * vol_listener_context_t);
  headset_cal_enabled : bool;
  sent : list hal_call;
}.

Definition with_contexts (l : list (Z * vol_listener_context_t)) (st : listener) : listener :=
  mkListener (initialized st) (current_gain_dep_cal_level st) (total_volume_cal_step st)
    (volume_curve_gain_mapping_table st) (init_status st) (current_vol st) (send_gain_dep_cal st)
    (send_linear_gain st) l (headset_cal_enabled st) (sent st).
Definition with_cal (lv v : Z) (st : listener) : listener :=
  mkListener (initialized st) lv (total_volume_cal_step st)
    (volume_curve_gain_mapping_table st) (init_status st) v (send_gain_dep_cal st)
    (send_linear_gain st) (vol_effect_list st) (headset_cal_enabled st) (sent st).
Definition call_hal (c : hal_call) (st : listener) : listener :=
  mkListener (initialized st) (current_gain_dep_cal_level st) (total_volume_cal_step st)
    (volume_curve_gain_mapping_table st) (init_status st) (current_vol st) (send_gain_dep_cal st)
    (send_linear_gain st) (vol_effect_list st) (headset_cal_enabled st) (c :: sent st).

Definition with_config (c : vol_config) (x : vol_listener_context_t) : vol_listener_context_t :=
  mkContext c (desc x) (stream_type x) (session_id x) (state x) (dev_id x) (left_vol x) (right_vol x).
Definition with_state (s : vol_state) (x : vol_listener_context_t) : vol_listener_context_t :=
  mkContext (config x) (desc x) (stream_type x) (session_id x) s (dev_id x) (left_vol x) (right_vol x).
Definition with_device (d : Z) (x : vol_listener_context_t) : vol_listener_context_t :=
  mkContext (config x) (desc x) (stream_type x) (session_id x) (state x) d (left_vol x) (right_vol x).
Definition with_volume (l r : Z) (x : vol_listener_context_t) : vol_listener_context_t :=
  mkContext (config x) (desc x) (stream_type x) (session_id x) (state x) (dev_id x) l r.

Definition unused_step : pal_amp_db_and_gain_table := mkGain 0 0 (u32 (-1)).

Definition default_table : list pal_amp_db_and_gain_table :=
  [ mkGain (float_lit 1774 1000000) (-55 * float_one) 5;
    mkGain (float_lit 501187 1000000) (-6 * float_one) 4;
    mkGain (float_lit 630957 1000000) (-4 * float_one) 3;
    mkGain (float_lit 794328 1000000) (-2 * float_one) 2;
    mkGain (float_lit 1 1) 0 1 ] ++ replicate 10 unused_step.

Definition listener_start : listener :=
  mkListener false (-1) MAX_GAIN_LEVELS default_table 0 0 false false [] false [].

Section WithPlatform.
Context {H : AudioPlatform}.

Definition VOL_FLAG : Z :=
  Z.lor (Z.lor (Z.lor (Z.lor EFFECT_FLAG_TYPE_INSERT EFFECT_FLAG_VOLUME_IND) EFFECT_FLAG_DEVICE_IND)
    EFFECT_FLAG_OFFLOAD_SUPPORTED) EFFECT_FLAG_NO_PROCESS.

Definition vol_listener_descriptor (low seq : Z) (name implementor : string) : effect_descriptor_t :=
  let uuid := mkUuid low 0x0590 0x11e5 seq [0x00; 0x25; 0xb3; 0x26; 0x54; 0xa0] in
  mkDescriptor uuid uuid EFFECT_CONTROL_API_VERSION VOL_FLAG 0 1 name implementor.

Definition vol_listener_music_descriptor : effect_descriptor_t :=
  vol_listener_descriptor 0x08b8b058 0xac71 "Volume listener for Music" "Qualcomm Technologies Inc.".
Definition vol_listener_ring_descriptor : effect_descriptor_t :=
  vol_listener_descriptor 0x0956df94 0xbdbe "Volume listener for ring" "Qualcomm Technologies Inc".
Definition vol_listener_alarm_descriptor : effect_descriptor_t :=
  vol_listener_descriptor 0x09f303e2 0x8fdb "Volume listener for alarm" "Qualcomm Technologies Inc".
Definition vol_listener_voice_call_descriptor : effect_descriptor_t :=
  vol_listener_descriptor 0x0ace5c08 0xae9e "Volume listener for voice call" "Qualcomm Technologies Inc".
Definition vol_listener_notification_descriptor : effect_descriptor_t :=
  vol_listener_descriptor 0x0b776dde 0x81ba "Volume listener for notification" "Qualcomm Technologies Inc".

Definition descriptors : list effect_descriptor_t :=
  [ vol_listener_music_descriptor; vol_listener_ring_descriptor; vol_listener_alarm_descriptor;
    vol_listener_voice_call_descriptor; vol_listener_notification_descriptor ].

(** ** Deciding on the gain *)

Definition verify_context (headset : bool) (x : vol_listener_context_t) : bool :=
  if (stream_type x =? VC_CALL) && headset &&
     ((dev_id x =? AUDIO_DEVICE_OUT_EARPIECE) || (dev_id x =? AUDIO_DEVICE_OUT_WIRED_HEADSET) ||
      (dev_id x =? AUDIO_DEVICE_OUT_WIRED_HEADPHONE))
  then true
  else negb (Z.land (dev_id x) AUDIO_DEVICE_OUT_SPEAKER =? 0) ||
       negb (Z.land (dev_id x) AUDIO_DEVICE_OUT_SPEAKER_SAFE =? 0).

Definition audible (headset : bool) (x : vol_listener_context_t) : bool :=
  bool_decide (state x = VOL_LISTENER_STATE_ACTIVE) && verify_context headset x.

(** The first loop: [sum_energy_used] and [sum_energy]. *)
Definition add_energy (headset : bool) (acc : bool * Z) (p : Z * vol_listener_context_t) : bool * Z :=
  if audible headset p.2 then
    let temp_vol := Z.max (left_vol p.2) (right_vol p.2) in
    (true, fadd acc.2 (fmul temp_vol temp_vol))
  else acc.

Definition energy (headset : bool) (l : list (Z * vol_listener_context_t)) : bool * Z :=
  foldl (add_energy headset) (false, 0) l.

(** [new_vol] *)
Definition new_volume (headset : bool) (l : list (Z * vol_listener_context_t)) : Z :=
  let '(used, sum) := energy headset l in
  if used then float_of_double (Z.min (dsqrt (double_of_float sum)) double_one) else - float_one.

Definition u32_of_double (d : Z) : ub Z :=
  if (0 <=? d) && (d <=? UINT32_MAX) then Ret d else v ← u32_out_of_range d; Ret (u32 v).

Definition linear_gain (new_vol : Z) : ub Z :=
  u32_of_double (round_float (fmul new_vol (2 ^ LIN_VOLUME_QFACTOR_28 * float_one))).

(** The loop over the table: [n] turns are left. *)
Fixpoint find_step (v : Z) (table : list pal_amp_db_and_gain_table) (n : nat) (max_level : Z) : ub Z :=
  match n with
  | O => Ret (-1)
  | S n =>
      next ← at_index table (max_level + 1);
      if v <? amp next then
        cur ← at_index table max_level;
        if amp cur <=? v then Ret (i32 (level cur)) else find_step v table n (max_level + 1)
      else find_step v table n (max_level + 1)
  end.

Definition cal_level_for (new_vol total : Z) (table : list pal_amp_db_and_gain_table) : ub Z :=
  if (float_one <=? new_vol) && (0 <? total) then
    e ← at_index table (total - 1); Ret (i32 (level e))
  else if new_vol =? - float_one then Ret DEFAULT_CAL_STEP
  else if new_vol =? 0 then
    e ← at_index table 0; Ret (i32 (level e))
  else find_step new_vol table (Z.to_nat (total - 1)) 0.

(** [accepts]: what [send_gain_dep_cal] answers, if it is called. *)
Definition check_and_set_gain_dep_cal (accepts : bool) (st : listener) : ub listener :=
  let new_vol := new_volume (headset_cal_enabled st) (vol_effect_list st) in
  gain ← linear_gain new_vol;
  if negb (send_linear_gain st) then Undef else
  let st := call_hal (SendLinearGain (i32 gain)) st in
  if new_vol =? current_vol st then Ret st else
  if negb (send_gain_dep_cal st) then Ret st else
  gain_dep_cal_level ← cal_level_for new_vol (total_volume_cal_step st) (volume_curve_gain_mapping_table st);
  if gain_dep_cal_level =? -1 then Ret st else
  if gain_dep_cal_level =? current_gain_dep_cal_level st then Ret st else
  let st := call_hal (SendGainDepCal gain_dep_cal_level accepts) st in
  if accepts then Ret (with_cal gain_dep_cal_level new_vol st) else Ret st.

(** ** The effect interface *)

Definition i16 (z : Z) : Z := (z + 2 ^ 15) mod 2 ^ 16 - 2 ^ 15.

Definition clamp16 (sample : Z) : Z :=
  let sample :=
    if negb (Z.lxor (Z.shiftr sample 15) (Z.shiftr sample 31) =? 0)
    then Z.lxor 0x7FFF (Z.shiftr sample 31) else sample in
  i16 sample.

Fixpoint lookup_context (p : Z) (l : list (Z * vol_listener_context_t)) : ub vol_listener_context_t :=
  match l with
  | [] => Undef
  | (q, x) :: l => if q =? p then Ret x else lookup_context p l
  end.

(** [*context] for a handle; a context that was freed is not on the list. *)
Definition deref (st : listener) (self : option Z) : ub vol_listener_context_t :=
  match self with None => Undef | Some p => lookup_context p (vol_effect_list st) end.

Definition update (p : Z) (f : vol_listener_context_t -> vol_listener_context_t)
    (l : list (Z * vol_listener_context_t)) : list (Z * vol_listener_context_t) :=
  (fun qx => if qx.1 =? p then (qx.1, f qx.2) else qx) <$> l.

(** [same]: the two buffers are one; [frameCount] is the output's. *)
Definition vol_effect_process (st : listener) (self : option Z) (same : bool) (frameCount : nat)
    (in_s16 out_s16 : list Z) : ub (Z * list Z) :=
  x ← deref st self;
  if negb (bool_decide (state x = VOL_LISTENER_STATE_ACTIVE)) then Ret (- EINVAL, out_s16) else
  if same then Ret (0, out_s16) else
  let n := (frameCount * 2)%nat in
  if (length in_s16 <? n)%nat || (length out_s16 <? n)%nat then Undef else
  if outputCfg_accessMode (config x) =? EFFECT_BUFFER_ACCESS_ACCUMULATE then
    Ret (0, zip_with (fun o i => clamp16 (o + i)) (take n out_s16) (take n in_s16) ++ drop n out_s16)
  else Ret (0, take n in_s16 ++ drop n out_s16).

Inductive effect_cmd :=
| EFFECT_CMD_INIT | EFFECT_CMD_SET_CONFIG | EFFECT_CMD_GET_CONFIG | EFFECT_CMD_RESET
| EFFECT_CMD_SET_AUDIO_MODE | EFFECT_CMD_OFFLOAD | EFFECT_CMD_ENABLE | EFFECT_CMD_DISABLE
| EFFECT_CMD_GET_PARAM | EFFECT_CMD_SET_PARAM | EFFECT_CMD_SET_DEVICE | EFFECT_CMD_SET_VOLUME
| EFFECT_CMD_OTHER.

(** The command data, as a configuration and as words. *)
Record cmd_data := mkCmdData { as_config : vol_config; as_words : list Z }.

Definition volume_of_word (w : Z) : Z := fdiv2 (float_of_u32 w) 24.

(** Assign to a context; and look at the loudness again if told to. *)
Definition change (p : Z) (f : vol_listener_context_t -> vol_listener_context_t) (st : listener) : listener :=
  with_contexts (update p f (vol_effect_list st)) st.
Definition recompute (accepts b : bool) (st : listener) : ub listener :=
  if b then check_and_set_gain_dep_cal accepts st else Ret st.

(** [case EFFECT_CMD_SET_DEVICE] *)
Definition set_device (accepts : bool) (st : listener) (p : Z) (x : vol_listener_context_t)
    (cmd_size : Z) (p_cmd_data : option cmd_data) : ub (Z * option Z * listener) :=
  match p_cmd_data with
  | None => Ret (- EINVAL, None, st)
  | Some data =>
      if cmd_size <? 4 then Ret (- EINVAL, None, st) else
      new_device ← at_index (as_words data) 0;
      st ← recompute accepts
             (verify_context (headset_cal_enabled st) x ||
              negb (Z.land new_device AUDIO_DEVICE_OUT_SPEAKER =? 0) ||
              negb (Z.land new_device AUDIO_DEVICE_OUT_SPEAKER_SAFE =? 0))
             (change p (with_device new_device) st);
      Ret (0, None, st)
  end.

(** [case EFFECT_CMD_SET_VOLUME] *)
Definition set_volume (accepts : bool) (st : listener) (p : Z) (x : vol_listener_context_t)
    (cmd_size : Z) (p_cmd_data : option cmd_data) : ub (Z * option Z * listener) :=
  match p_cmd_data with
  | None => Ret (- EINVAL, None, st)
  | Some data =>
      if negb (cmd_size =? 8) then Ret (- EINVAL, None, st) else
      l ← at_index (as_words data) 0;
      r ← at_index (as_words data) 1;
      st ← recompute accepts (verify_context (headset_cal_enabled st) x)
             (change p (with_volume (volume_of_word l) (volume_of_word r)) st);
      Ret (0, None, st)
  end.

(** The status, the value written to [p_reply_data] if any, and the new state. *)
Definition vol_effect_command (accepts : bool) (st : listener) (self : option Z) (cmd_code : effect_cmd)
    (cmd_size : Z) (p_cmd_data : option cmd_data) (replySize : option Z) (p_reply_data : bool)
    : ub (Z * option Z * listener) :=
  match self with
  | None => Ret (- EINVAL, None, st)
  | Some p =>
      x ← deref st (Some p);
      if bool_decide (state x = VOL_LISTENER_STATE_UNINITIALIZED) then Ret (- EINVAL, None, st) else
      let invalid := Ret (- EINVAL, None, st) in
      match cmd_code with
      | EFFECT_CMD_INIT | EFFECT_CMD_OFFLOAD =>
          bad ← bad_reply p_reply_data replySize sizeof_int;
          if bad : bool then invalid else Ret (0, Some 0, st)
      | EFFECT_CMD_SET_CONFIG =>
          match p_cmd_data with
          | None => invalid
          | Some data =>
              if negb (cmd_size =? sizeof_effect_config_t) || negb p_reply_data then invalid else
              match replySize with
              | None => invalid
              | Some n =>
                  if negb (n =? sizeof_int) then invalid else
                  Ret (0, Some 0, change p (with_config (as_config data)) st)
              end
          end
      | EFFECT_CMD_GET_CONFIG | EFFECT_CMD_RESET | EFFECT_CMD_SET_AUDIO_MODE
      | EFFECT_CMD_GET_PARAM | EFFECT_CMD_SET_PARAM => Ret (0, None, st)
      | EFFECT_CMD_ENABLE =>
          bad ← bad_reply p_reply_data replySize sizeof_int;
          if bad : bool then invalid else
          if negb (bool_decide (state x = VOL_LISTENER_STATE_INITIALIZED)) then Ret (- ENOSYS, None, st) else
          let x := with_state VOL_LISTENER_STATE_ACTIVE x in
          st ← recompute accepts (verify_context (headset_cal_enabled st) x)
                 (change p (with_state VOL_LISTENER_STATE_ACTIVE) st);
          Ret (0, Some 0, st)
      | EFFECT_CMD_DISABLE =>
          bad ← bad_reply p_reply_data replySize sizeof_int;
          if bad : bool then invalid else
          if negb (bool_decide (state x = VOL_LISTENER_STATE_ACTIVE)) then Ret (- ENOSYS, None, st) else
          let x := with_state VOL_LISTENER_STATE_INITIALIZED x in
          st ← recompute accepts (verify_context (headset_cal_enabled st) x)
                 (change p (with_state VOL_LISTENER_STATE_INITIALIZED) st);
          Ret (0, Some 0, st)
      | EFFECT_CMD_SET_DEVICE => set_device accepts st p x cmd_size p_cmd_data
      | EFFECT_CMD_SET_VOLUME => set_volume accepts st p x cmd_size p_cmd_data
      | EFFECT_CMD_OTHER => Ret (- ENOSYS, None, st)
      end
  end.

Definition vol_effect_get_descriptor (st : listener) (self : option Z) (descriptor : bool)
    : ub (Z * option effect_descriptor_t) :=
  if negb descriptor then Ret (- EINVAL, None) else
  x ← deref st self; Ret (0, Some (desc x)).

(** ** The library interface *)

(** What [init_once] finds: the HAL library and its symbols, the properties. *)
Record hal_library := mkHalLibrary {
  lib_readable : bool;
  lib_opens : bool;
  sym_gain_dep_cal : bool;
  sym_linear_gain : bool;
  sym_gain_table : option (list pal_amp_db_and_gain_table -> Z * list pal_amp_db_and_gain_table);
  prop_headset : bool;
}.

(** Entries from [n] up to the current count are cleared. *)
Definition clear_steps (n total : Z) (table : list pal_amp_db_and_gain_table) : list pal_amp_db_and_gain_table :=
  imap (fun i e => if (n <=? Z.of_nat i) && (Z.of_nat i <? total) then unused_step else e) table.

Definition load_table (get_custom_gain_table : list pal_amp_db_and_gain_table -> Z * list pal_amp_db_and_gain_table)
    (total : Z) (table : list pal_amp_db_and_gain_table) : Z * list pal_amp_db_and_gain_table :=
  let '(max_table_ent, table) := get_custom_gain_table table in
  if (0 <? max_table_ent) && (max_table_ent <=? MAX_VOLUME_CAL_STEPS) then
    (max_table_ent, if max_table_ent <? total then clear_steps max_table_ent total table else table)
  else (total, table).

Definition init_once (lib : hal_library) (st : listener) : listener :=
  if initialized st then st else
  let found := lib_readable lib && lib_opens lib in
  let '(total, table) :=
    match sym_gain_table lib with
    | Some get => if found then load_table get (total_volume_cal_step st) (volume_curve_gain_mapping_table st)
                  else (total_volume_cal_step st, volume_curve_gain_mapping_table st)
    | None => (total_volume_cal_step st, volume_curve_gain_mapping_table st)
    end in
  mkListener true (current_gain_dep_cal_level st) total table 0 (current_vol st)
    (found && sym_gain_dep_cal lib) (found && sym_linear_gain lib) [] (prop_headset lib) (sent st).

(** [pthread_once] and the [initialized] flag both see to it that it runs once. *)
Definition lib_init (lib : hal_library) (st : listener) : Z * listener :=
  let st := init_once lib st in (init_status st, st).

Fixpoint find_descriptor (uuid : effect_uuid_t) (ds : list effect_descriptor_t) (itt : Z)
    : option (Z * effect_descriptor_t) :=
  match ds with
  | [] => None
  | d :: ds => if bool_decide (uuid = d_uuid d) then Some (itt, d) else find_descriptor uuid ds (itt + 1)
  end.

(** [alloc]: the address [calloc] returns. *)
Definition vol_prc_lib_create (lib : hal_library) (alloc : option Z) (uuid : option effect_uuid_t)
    (sid : Z) (p_handle : bool) (st : listener) : Z * option Z * listener :=
  let '(i, st) := lib_init lib st in
  if negb (i =? 0) then (i, None, st) else
  match uuid, p_handle with
  | Some uuid, true =>
      match alloc with
      | None => (- EINVAL, None, st)
      | Some p =>
          match find_descriptor uuid descriptors 0 with
          | None => (- EINVAL, None, st)
          | Some (itt, d) =>
              let x := mkContext (mkVolConfig 0) d itt (u32 sid) VOL_LISTENER_STATE_INITIALIZED
                         AUDIO_DEVICE_NONE 0 0 in
              (0, Some p, with_contexts (vol_effect_list st ++ [(p, x)]) st)
          end
      end
  | _, _ => (- EINVAL, None, st)
  end.

(** The loop of [vol_prc_lib_release]: the context found, the list without it, and
    [active_stream_count], the number of contexts before it. *)
Fixpoint remove_context (p : Z) (l : list (Z * vol_listener_context_t)) (active_stream_count : Z)
    : option (vol_listener_context_t * list (Z * vol_listener_context_t) * Z) :=
  match l with
  | [] => None
  | (q, x) :: l =>
      if q =? p then Some (x, l, active_stream_count)
      else '(y, l', n) ← remove_context p l (active_stream_count + 1); Some (y, (q, x) :: l', n)
  end.

Definition vol_prc_lib_release (accepts : bool) (handle : option Z) (st : listener) : ub (Z * listener) :=
  match handle with
  | None => Ret (- EINVAL, st)
  | Some p =>
      (* the list has no head before [init_once] *)
      if negb (initialized st) then Undef else
      match remove_context p (vol_effect_list st) 0 with
      | None => Ret (- EINVAL, st)
      | Some (x, l, active_stream_count) =>
          let recompute_flag := verify_context (headset_cal_enabled st) x in
          let st := with_contexts l st in
          let st := if active_stream_count =? 0 then with_cal (-1) 0 st else st in
          st ← (if recompute_flag then check_and_set_gain_dep_cal accepts st else Ret st);
          Ret (0, st)
      end
  end.

Definition vol_prc_lib_get_descriptor (lib : hal_library) (uuid : option effect_uuid_t) (descriptor : bool)
    (st : listener) : Z * option effect_descriptor_t * listener :=
  let '(i, st) := lib_init lib st in
  if negb (i =? 0) then (i, None, st) else
  match uuid, descriptor with
  | Some uuid, true =>
      match find_descriptor uuid descriptors 0 with
      | Some (_, d) => (0, Some d, st)
      | None => (- EINVAL, None, st)
      end
  | _, _ => (- EINVAL, None, st)
  end.

(** ** The loudness of the speaker *)

(** What a context contributes: the louder channel of a stream active there. *)
Definition contribution (headset : bool) (x : vol_listener_context_t) : option Z :=
  if audible headset x then Some (Z.max (left_vol x) (right_vol x)) else None.

Definition loud (headset : bool) (l : list (Z * vol_listener_context_t)) : list Z :=
  omap (fun p => contribution headset p.2) l.

Definition energy_of (vs : list Z) : Z := foldl (fun s v => fadd s (fmul v v)) 0 vs.

Definition mix (vs : list Z) : Z :=
  if vs is [] then - float_one
  else float_of_double (Z.min (dsqrt (double_of_float (energy_of vs))) double_one).

Lemma energy_loud_from headset l u s :
  foldl (add_energy headset) (u, s) l =
    (u || negb (bool_decide (loud headset l = [])), foldl (fun s v => fadd s (fmul v v)) s (loud headset l)).
Proof.
  revert u s. induction l as [|[p x] l IH]; intros u s; [cbn; now rewrite orb_false_r|].
  cbn [foldl]. unfold add_energy at 2, loud, contribution. cbn [snd omap list_omap].
  destruct (audible headset x); cbn [snd].
  - rewrite IH. now rewrite orb_true_r.
  - rewrite IH. reflexivity.
Qed.

Lemma new_volume_mix headset l : new_volume headset l = mix (loud headset l).
Proof.
  unfold new_volume, energy. rewrite energy_loud_from. cbn [orb]. unfold mix, energy_of.
  destruct (loud headset l); reflexivity.
Qed.

Lemma energy_nonneg s vs : 0 <= s -> Forall (Z.le 0) vs -> 0 <= foldl (fun s v => fadd s (fmul v v)) s vs.
Proof.
  revert s. induction vs as [|v vs IH]; intros s Hs Hv; [exact Hs|]. inversion_clear Hv. cbn.
  apply IH; [|assumption]. apply (fadd_mono s s (fmul v v) (fmul v v)); [lia|].
  pose proof (fmul_mono v v v v ltac:(lia) ltac:(lia)). lia.
Qed.

Lemma energy_mono s s' vs vs' : 0 <= s <= s' -> Forall2 (fun v v' => 0 <= v <= v') vs vs' ->
  foldl (fun s v => fadd s (fmul v v)) s vs <= foldl (fun s v => fadd s (fmul v v)) s' vs'.
Proof.
  intros Hs Hv. revert s s' Hs. induction Hv as [|v v' vs vs' Hv Hvs IH]; intros s s' Hs; [cbn; lia|].
  cbn. apply IH. pose proof (fmul_mono v v' v v' Hv Hv). pose proof (fmul_mono v v v v ltac:(lia) ltac:(lia)).
  apply fadd_mono; lia.
Qed.

Lemma mix_range vs : Forall (Z.le 0) vs -> vs <> [] -> 0 <= mix vs <= float_one.
Proof.
  intros Hv Hn. unfold mix. destruct vs as [|v vs]; [congruence|].
  apply float_of_double_le_one. pose proof (energy_nonneg 0 (v :: vs) ltac:(lia) Hv) as He.
  unfold energy_of. set (e := foldl _ _ _) in *.
  pose proof (dsqrt_mono (double_of_float e) (double_of_float e)) as Hd.
  assert (0 <= double_of_float e) by (unfold double_of_float; apply Z.mul_nonneg_nonneg; [lia | apply Z.pow_nonneg; lia]).
  assert (0 < double_one) by (apply Z.pow_pos_nonneg; [lia | unfold DOUBLE_UNIT; lia]).
  split; [apply Z.min_glb; lia | apply Z.le_min_r].
Qed.

Lemma mix_mono vs vs' : Forall2 (fun v v' => 0 <= v <= v') vs vs' -> mix vs <= mix vs'.
Proof.
  intros Hv. pose proof Hv as Hv0. destruct Hv as [|v v' vs vs' Hv1 Hvs]; [cbn; lia|]. unfold mix.
  assert (Forall (Z.le 0) (v :: vs)) as Hn.
  { apply Forall_lookup. intros i y E. destruct (Forall2_lookup_l _ _ _ _ _ Hv0 E) as (z & _ & Hz). lia. }
  pose proof (energy_nonneg 0 _ ltac:(lia) Hn) as H0. pose proof (energy_mono 0 0 _ _ ltac:(lia) Hv0) as He.
  unfold energy_of. set (e := foldl _ _ (v :: vs)) in *. set (e' := foldl _ _ (v' :: vs')) in *.
  assert (0 < 2 ^ (DOUBLE_UNIT - FLOAT_UNIT)) as Hu by (apply Z.pow_pos_nonneg; unfold DOUBLE_UNIT, FLOAT_UNIT; lia).
  assert (0 <= dsqrt (double_of_float e) <= dsqrt (double_of_float e')) as Hd
    by (apply dsqrt_mono; unfold double_of_float; nia).
  assert (0 < double_one) by (apply Z.pow_pos_nonneg; [lia | unfold DOUBLE_UNIT; lia]).
  apply float_of_double_mono. lia.
Qed.

(** *** The linear gain *)

Lemma fmul_q28_range v : 0 <= v <= float_one -> 0 <= fmul v (2 ^ 28 * float_one) <= 2 ^ 28 * float_one.
Proof.
  intros Hv. assert (0 < float_one) as H1 by (apply Z.pow_pos_nonneg; [lia | unfold FLOAT_UNIT; lia]).
  pose proof (fmul_mono v float_one (2 ^ 28 * float_one) (2 ^ 28 * float_one) Hv ltac:(lia)) as Hm.
  replace (fmul float_one (2 ^ 28 * float_one)) with (2 ^ 28 * float_one) in Hm by (vm_compute; reflexivity). exact Hm.
Qed.

Lemma round_float_range a M : 0 <= a <= M * float_one -> 0 <= round_float a <= M.
Proof.
  unfold round_float, float_one, FLOAT_UNIT. intros Ha.
  assert (0 < 2 ^ 149) as Hp by (apply Z.pow_pos_nonneg; lia).
  replace (2 ^ (149 - 1)) with (2 ^ 148) by reflexivity.
  assert (2 ^ 149 = 2 * 2 ^ 148) as E by reflexivity. set (h := 2 ^ 148) in *. set (u := 2 ^ 149) in *.
  rewrite Z.abs_eq by lia. assert (0 <= M) as HM by (destruct (Z_lt_le_dec M 0); [exfalso; nia | assumption]).
  destruct (Z.eq_dec a 0) as [->|Hn]; [change (Z.sgn 0) with 0; rewrite Z.mul_0_l; lia|]. rewrite Z.sgn_pos, Z.mul_1_l by lia.
  split; [apply Z.div_pos; lia|]. apply Z.lt_succ_r, Z.div_lt_upper_bound; lia.
Qed.

Lemma linear_gain_range v :
  0 <= v <= float_one -> exists g, linear_gain v = Ret g /\ 0 <= g <= 2 ^ 28.
Proof.
  intros Hv. unfold linear_gain, LIN_VOLUME_QFACTOR_28.
  pose proof (round_float_range _ (2 ^ 28) (fmul_q28_range v Hv)) as Hr. unfold u32_of_double, UINT32_MAX.
  replace ((0 <=? _) && _) with true by lia. eauto.
Qed.

(** With no stream heard, -1 times 2^28 is converted. *)
Lemma linear_gain_silent : linear_gain (mix []) = (v ← u32_out_of_range (- 2 ^ 28); Ret (u32 v)).
Proof.
  unfold linear_gain. replace (round_float _) with (- 2 ^ 28) by (vm_compute; reflexivity). reflexivity.
Qed.

(** *** The calibration level *)

Lemma at_index_lookup {A} (l : list A) (i : nat) x : l !! i = Some x -> at_index l (Z.of_nat i) = Ret x.
Proof.
  intros E. unfold at_index. replace (Z.of_nat i <? 0) with false by (symmetry; apply Z.ltb_ge; lia). rewrite Nat2Z.id. now rewrite E.
Qed.

Lemma at_index_Forall {A} (Q : A -> Prop) l i x : Forall Q l -> at_index l i = Ret x -> Q x.
Proof.
  unfold at_index. intros Hq. destruct (_ <? _); [discriminate|].
  destruct (l !! _) eqn:E; [|discriminate]. intros [= ->]. rewrite Forall_lookup in Hq. eauto.
Qed.

(** The first step whose interval holds the volume. *)
Lemma find_step_spec v table n i :
  (i + n < length table)%nat ->
  exists lv, find_step v table n (Z.of_nat i) = Ret lv /\
    ((exists j e e', (i <= j < i + n)%nat /\ table !! j = Some e /\ table !! S j = Some e' /\
        amp e <= v < amp e' /\ lv = i32 (level e)) \/
     lv = -1 /\ forall j e e', (i <= j < i + n)%nat -> table !! j = Some e -> table !! S j = Some e' ->
        ~ (amp e <= v < amp e')).
Proof.
  revert i. induction n as [|n IH]; intros i Hn; cbn [find_step].
  { exists (-1). split; [reflexivity|]. right. split; [reflexivity|]. intros j e e' Hj. lia. }
  destruct (lookup_lt_is_Some_2 table (S i) ltac:(lia)) as [nx Enx].
  destruct (lookup_lt_is_Some_2 table i ltac:(lia)) as [cu Ecu].
  replace (Z.of_nat i + 1) with (Z.of_nat (S i)) by lia.
  rewrite (at_index_lookup _ _ _ Enx), (at_index_lookup _ _ _ Ecu). cbn [mbind ub_bind].
  destruct (IH (S i) ltac:(lia)) as (lv & Elv & Hlv).
  assert (~ (amp cu <= v < amp nx) -> exists lv, find_step v table n (Z.of_nat (S i)) = Ret lv /\
    ((exists j e e', (i <= j < i + S n)%nat /\ table !! j = Some e /\ table !! S j = Some e' /\
        amp e <= v < amp e' /\ lv = i32 (level e)) \/
     lv = -1 /\ forall j e e', (i <= j < i + S n)%nat -> table !! j = Some e -> table !! S j = Some e' ->
        ~ (amp e <= v < amp e'))) as Hskip.
  { intros Hno. exists lv. split; [exact Elv|]. destruct Hlv as [(j & e & e' & Hj & Hrest)|[-> Hall]].
    - left. exists j, e, e'. split; [lia | exact Hrest].
    - right. split; [reflexivity|]. intros j e e' Hj Ej Ej'. destruct (decide (j = i)) as [->|Hji].
      + assert (e = cu) as -> by congruence. assert (e' = nx) as -> by congruence. exact Hno.
      + apply (Hall j e e'); [lia | assumption..]. }
  destruct (v <? amp nx) eqn:E1; boolprop; [|apply Hskip; lia].
  destruct (amp cu <=? v) eqn:E2; boolprop; [|apply Hskip; lia].
  exists (i32 (level cu)). split; [reflexivity|]. left. exists i, cu, nx. repeat split; auto; lia.
Qed.

(** The amplitudes of the steps in use increase. *)
Definition increasing (total : nat) (table : list pal_amp_db_and_gain_table) : Prop :=
  forall i j e e', (i < j < total)%nat -> table !! i = Some e -> table !! j = Some e' -> amp e < amp e'.

Lemma increasing_le total table i j e e' :
  increasing total table -> (i <= j < total)%nat -> table !! i = Some e -> table !! j = Some e' -> amp e <= amp e'.
Proof.
  intros Hi Hj Ei Ej. destruct (decide (i = j)) as [->|]; [assert (e = e') as -> by congruence; lia|].
  specialize (Hi i j e e' ltac:(lia) Ei Ej). lia.
Qed.

(** Somewhere between a step below and a step above, the volume is crossed. *)
Lemma crossing v (table : list pal_amp_db_and_gain_table) (n i : nat) e e' :
  table !! i = Some e -> table !! (i + n)%nat = Some e' -> amp e <= v < amp e' ->
  exists j c c', (i <= j < i + n)%nat /\ table !! j = Some c /\ table !! S j = Some c' /\ amp c <= v < amp c'.
Proof.
  revert i e. induction n as [|n IH]; intros i e Ei Ej Hv.
  { rewrite Nat.add_0_r in Ej. assert (e = e') as -> by congruence. lia. }
  assert (S i < length table)%nat as Hlt by (apply lookup_lt_Some in Ej; lia).
  destruct (lookup_lt_is_Some_2 table (S i) Hlt) as [c Ec].
  destruct (Z_lt_le_dec v (amp c)) as [Hc|Hc].
  - exists i, e, c. repeat split; auto; lia.
  - destruct (IH (S i) c Ec ltac:(now rewrite <- Ej; f_equal; lia) ltac:(lia)) as (j & c1 & c2 & Hj & Hrest).
    exists j, c1, c2. split; [lia | exact Hrest].
Qed.

Lemma cal_level_total v total table :
  1 <= total <= Z.of_nat (length table) -> exists lv, cal_level_for v total table = Ret lv.
Proof.
  intros Ht. unfold cal_level_for. destruct (lookup_lt_is_Some_2 table 0 ltac:(lia)) as [e0 E0].
  destruct (lookup_lt_is_Some_2 table (Z.to_nat (total - 1)) ltac:(lia)) as [e1 E1].
  destruct (_ && _).
  { replace (total - 1) with (Z.of_nat (Z.to_nat (total - 1))) by lia. rewrite (at_index_lookup _ _ _ E1). cbn. eauto. }
  destruct (_ =? _); [eauto|]. destruct (_ =? _).
  { change 0 with (Z.of_nat 0). rewrite (at_index_lookup _ _ _ E0). cbn. eauto. }
  destruct (find_step_spec v table (Z.to_nat (total - 1)) 0 ltac:(lia)) as (lv & E & _).
  change (Z.of_nat 0) with 0 in E. eauto.
Qed.

(** ** Mixing down accumulated samples *)

Lemma shiftr_zero_iff s k : 0 <= k -> Z.shiftr s k = 0 <-> 0 <= s < 2 ^ k.
Proof.
  intros Hk. rewrite Z.shiftr_div_pow2 by assumption. pose proof (Z.pow_pos_nonneg 2 k ltac:(lia) Hk) as Hp.
  split; [intros E; apply Z.div_small_iff in E; lia | intros; apply Z.div_small; lia].
Qed.

Lemma clamp16_saturates s : is_i32 s -> clamp16 s = Z.max (-32768) (Z.min 32767 s).
Proof.
  unfold is_i32, INT32_MIN, INT32_MAX. intros Hs. unfold clamp16.
  assert (Z.shiftr s 31 = if s <? 0 then -1 else 0) as E31.
  { rewrite Z.shiftr_div_pow2 by lia. change (2 ^ 31) with 2147483648. destruct (s <? 0) eqn:E; boolprop; lia. }
  assert (Z.shiftr s 15 = s / 32768) as E15 by (now rewrite Z.shiftr_div_pow2 by lia).
  assert (forall x, -32768 <= x <= 32767 -> i16 x = x) as H16 by (intros x Hx; unfold i16; change (2 ^ 15) with 32768; change (2 ^ 16) with 65536; lia).
  rewrite E31, E15. destruct (s <? 0) eqn:E; boolprop.
  - rewrite Z.lxor_m1_r. replace (Z.lnot (s / 32768) =? 0) with (-32768 <=? s)
      by (apply eq_true_iff_eq; rewrite Z.leb_le, Z.eqb_eq; unfold Z.lnot; lia).
    destruct (-32768 <=? s) eqn:E2; boolprop; cbn [negb]; [rewrite H16; lia|].
    change (Z.lxor 32767 (-1)) with (-32768). rewrite H16; lia.
  - rewrite Z.lxor_0_r. replace (s / 32768 =? 0) with (s <=? 32767)
      by (apply eq_true_iff_eq; rewrite Z.leb_le, Z.eqb_eq; lia).
    destruct (s <=? 32767) eqn:E2; boolprop; cbn [negb]; [rewrite H16; lia|].
    change (Z.lxor 32767 0) with 32767. rewrite H16; lia.
Qed.

(** ** The library at run time *)

Inductive vol_op :=
| Create (alloc : option Z) (uuid : option effect_uuid_t) (sid : Z) (p_handle : bool)
| Release (accepts : bool) (handle : option Z)
| Command (accepts : bool) (self : option Z) (cmd : effect_cmd) (cmd_size : Z) (data : option cmd_data)
    (replySize : option Z) (p_reply : bool)
| GetDescriptor (uuid : option effect_uuid_t) (descriptor : bool).

Definition vexec (lib : hal_library) (o : vol_op) (st : listener) : ub listener :=
  match o with
  | Create alloc uuid sid p_handle => Ret (vol_prc_lib_create lib alloc uuid sid p_handle st).2
  | Release accepts handle => '(_, st) ← vol_prc_lib_release accepts handle st; Ret st
  | Command accepts self cmd cmd_size data replySize p_reply =>
      '(_, st) ← vol_effect_command accepts st self cmd cmd_size data replySize p_reply; Ret st
  | GetDescriptor uuid descriptor => Ret (vol_prc_lib_get_descriptor lib uuid descriptor st).2
  end.

(** Memory that [calloc] returns is not in use, and words are words. *)
Definition valid_op (o : vol_op) (st : listener) : Prop :=
  match o with
  | Create (Some p) _ _ _ => p ∉ (vol_effect_list st).*1
  | Command _ _ _ _ (Some data) _ _ => Forall is_u32 (as_words data)
  | _ => True
  end.

Definition hal_accepts (o : vol_op) : bool :=
  match o with Release accepts _ => accepts | Command accepts _ _ _ _ _ _ => accepts | _ => true end.

(** The HAL fills in the table it is given. *)
Definition valid_lib (lib : hal_library) : Prop :=
  forall get t, sym_gain_table lib = Some get -> length (get t).2 = length t.

(** [true]: the audio HAL accepted every level so far. *)
Inductive vreach (lib : hal_library) : bool -> listener -> Prop :=
| VR_start : vreach lib true listener_start
| VR_step ok o st st' : vreach lib ok st -> valid_op o st -> vexec lib o st = Ret st' ->
    vreach lib (ok && hal_accepts o) st'.

(** *** What a change of the contexts does to the loudness *)

Definition wf_contexts (l : list (Z * vol_listener_context_t)) : Prop :=
  NoDup l.*1 /\ Forall (fun p => 0 <= left_vol p.2 /\ 0 <= right_vol p.2) l.

Lemma loud_nonneg headset l : wf_contexts l -> Forall (Z.le 0) (loud headset l).
Proof.
  intros [_ Hv]. apply Forall_lookup. intros i v E. apply list_elem_of_lookup_2, list_elem_of_omap in E as ([p x] & Hin & E).
  rewrite Forall_forall in Hv. specialize (Hv _ Hin). cbn in *. unfold contribution in E.
  destruct (audible headset x); inversion E. lia.
Qed.

Lemma lookup_elem p l x : lookup_context p l = Ret x -> (p, x) ∈ l.
Proof.
  induction l as [|[q y] l IH]; cbn; [discriminate|]. destruct (q =? p) eqn:E; boolprop.
  - intros [= ->]. rewrite E. left.
  - intros Hx. right. auto.
Qed.

Lemma update_fst p f l : (update p f l).*1 = l.*1.
Proof.
  unfold update. induction l as [|[q x] l IH]; [reflexivity|]. cbn. destruct (q =? p); cbn; now rewrite <- IH.
Qed.

Lemma update_out p f l : p ∉ l.*1 -> update p f l = l.
Proof.
  unfold update. induction l as [|[q x] l IH]; [reflexivity|]. cbn. intros Hp. apply not_elem_of_cons in Hp as [Hq Hl].
  replace (q =? p) with false by (symmetry; apply Z.eqb_neq; congruence). f_equal. auto.
Qed.

Lemma loud_update headset p f l x :
  NoDup l.*1 -> lookup_context p l = Ret x -> contribution headset (f x) = contribution headset x ->
  loud headset (update p f l) = loud headset l.
Proof.
  intros Hnd Hx Hc. induction l as [|[q y] l IH]; [reflexivity|]. cbn in Hnd, Hx. inversion_clear Hnd as [|? ? Hq Hnd'].
  unfold loud, update. cbn. destruct (q =? p) eqn:E; boolprop; cbn.
  - injection Hx as ->. rewrite Hc. fold (update p f l). now rewrite update_out by congruence.
  - specialize (IH Hnd' Hx). unfold loud, update in IH. now rewrite IH.
Qed.

Lemma update_wf p f l :
  wf_contexts l -> (forall x, 0 <= left_vol x /\ 0 <= right_vol x -> 0 <= left_vol (f x) /\ 0 <= right_vol (f x)) ->
  wf_contexts (update p f l).
Proof.
  intros [Hnd Hv] Hf. split; [now rewrite update_fst|]. unfold update. apply Forall_fmap.
  eapply Forall_impl; [exact Hv|]. intros [q x] Hx. cbn in *. destruct (q =? p); cbn; auto.
Qed.

Lemma remove_spec p l n x l' m :
  remove_context p l n = Some (x, l', m) ->
  exists a b, l = a ++ (p, x) :: b /\ l' = a ++ b /\ m = n + Z.of_nat (length a).
Proof.
  revert n l' m. induction l as [|[q y] l IH]; intros n l' m; cbn; [discriminate|].
  destruct (q =? p) eqn:E; boolprop.
  - intros [= -> <- <-]. exists [], l. subst. repeat split. cbn. lia.
  - destruct (remove_context p l (n + 1)) as [[[y' l1] m1]|] eqn:Er; cbn; [|discriminate]. intros [= -> <- <-].
    destruct (IH _ _ _ Er) as (a & b & -> & -> & ->). exists ((q, y) :: a), b. repeat split. cbn [length]. lia.
Qed.

Lemma volume_nonneg w : is_u32 w -> 0 <= volume_of_word w.
Proof.
  unfold is_u32. intros Hw. unfold volume_of_word, fdiv2, float_of_u32, FLOAT_P.
  assert (0 <= rnd 24 0 w * float_one) as H0.
  { apply Z.mul_nonneg_nonneg; [apply rnd_nonneg; lia | apply Z.pow_nonneg; lia]. }
  rewrite rnd_signed_nonneg by lia. apply rnd_nonneg; lia.
Qed.

(** *** The shape of every operation *)

Record same_setup (st st' : listener) : Prop := mkSame {
  ss_init : initialized st' = initialized st;
  ss_total : total_volume_cal_step st' = total_volume_cal_step st;
  ss_table : volume_curve_gain_mapping_table st' = volume_curve_gain_mapping_table st;
  ss_status : init_status st' = init_status st;
  ss_cal : send_gain_dep_cal st' = send_gain_dep_cal st;
  ss_gain : send_linear_gain st' = send_linear_gain st;
  ss_headset : headset_cal_enabled st' = headset_cal_enabled st;
}.

(** The contexts change, the level is kept or forgotten, nothing is sent. *)
Record adjusted (st st' : listener) : Prop := mkAdjusted {
  ad_setup : same_setup st st';
  ad_sent : sent st' = sent st;
  ad_wf : wf_contexts (vol_effect_list st) -> wf_contexts (vol_effect_list st');
  ad_level : current_gain_dep_cal_level st' = current_gain_dep_cal_level st /\ current_vol st' = current_vol st \/
             current_gain_dep_cal_level st' = -1 /\ current_vol st' = 0;
}.

(** An operation either leaves the loudness alone or looks at it again. *)
Inductive effect_of (accepts : bool) (st st' : listener) : Prop :=
| E_quiet : adjusted st st' ->
    (headset_cal_enabled st = false -> loud false (vol_effect_list st') = loud false (vol_effect_list st)) ->
    effect_of accepts st st'
| E_heard st1 : adjusted st st1 -> check_and_set_gain_dep_cal accepts st1 = Ret st' -> effect_of accepts st st'.

Lemma adjusted_contexts st l :
  (wf_contexts (vol_effect_list st) -> wf_contexts l) -> adjusted st (with_contexts l st).
Proof. intros Hl. split; [split; reflexivity | reflexivity | exact Hl | auto]. Qed.

Lemma effect_none accepts st : effect_of accepts st st.
Proof. apply E_quiet; [|auto]. split; [split; reflexivity | reflexivity | auto | auto]. Qed.

(** A context changes, and [b] says whether to look again. *)
Lemma effect_change {A} accepts st p f x (b : bool) (v r : A) st' :
  wf_contexts (vol_effect_list st) -> lookup_context p (vol_effect_list st) = Ret x ->
  (forall x, 0 <= left_vol x /\ 0 <= right_vol x -> 0 <= left_vol (f x) /\ 0 <= right_vol (f x)) ->
  (b = false -> headset_cal_enabled st = false -> contribution false (f x) = contribution false x) ->
  (s ← recompute accepts b (change p f st); Ret (v, s)) = Ret (r, st') ->
  effect_of accepts st st'.
Proof.
  intros Hwf Hx Hf Hc. assert (adjusted st (change p f st)) as Ha
    by (apply adjusted_contexts; intros Hw; now apply update_wf).
  unfold recompute. destruct b.
  { destruct (check_and_set_gain_dep_cal _ _) as [|s] eqn:E; cbn; intros [= _ <-]. eapply E_heard; eauto. }
  intros [= _ <-]. apply E_quiet; [exact Ha|].
  intros Hh. eapply loud_update; [apply Hwf | exact Hx | auto].
Qed.

Lemma contribution_silent headset x : verify_context headset x = false -> contribution headset x = None.
Proof. unfold contribution, audible. intros ->. now rewrite andb_false_r. Qed.

Lemma verify_speaker x : verify_context false x =
  negb (Z.land (dev_id x) AUDIO_DEVICE_OUT_SPEAKER =? 0) || negb (Z.land (dev_id x) AUDIO_DEVICE_OUT_SPEAKER_SAFE =? 0).
Proof. unfold verify_context. now rewrite andb_false_r. Qed.

Ltac no_effect := intros [= _ <-]; apply effect_none.

Lemma command_effect accepts st self cmd cmd_size data replySize p_reply r st' :
  wf_contexts (vol_effect_list st) -> (forall d, data = Some d -> Forall is_u32 (as_words d)) ->
  vol_effect_command accepts st self cmd cmd_size data replySize p_reply = Ret (r, st') ->
  effect_of accepts st st'.
Proof.
  intros Hwf Hdata. unfold vol_effect_command, set_device, set_volume. destruct self as [p|]; [|no_effect].
  cbn [deref]. destruct (lookup_context p _) as [|x] eqn:Ex; cbn [mbind ub_bind]; [discriminate|].
  case_bool_decide; [no_effect|].
  destruct cmd; try no_effect; try (destruct data as [d|]; [|no_effect]);
    try (destruct (bad_reply _ _ _) as [|[]]; cbn [mbind ub_bind]; [discriminate | no_effect|]); try no_effect.
  - destruct (_ || _); [no_effect|]. destruct replySize as [n|]; [|no_effect].
    destruct (n =? _); cbn [negb]; [|no_effect].
    apply (effect_change accepts st p (with_config (as_config d)) x false); auto.
  - case_bool_decide as Es; cbn [negb]; [|no_effect].
    apply (effect_change accepts st p (with_state VOL_LISTENER_STATE_ACTIVE) x (verify_context _ _)); auto.
    intros Hb Hh. rewrite Hh in Hb. now rewrite !contribution_silent.
  - case_bool_decide as Es; cbn [negb]; [|no_effect].
    apply (effect_change accepts st p (with_state VOL_LISTENER_STATE_INITIALIZED) x (verify_context _ _)); auto.
    intros Hb Hh. rewrite Hh in Hb. now rewrite !contribution_silent.
  - destruct (cmd_size <? 4); [no_effect|].
    destruct (at_index _ 0) as [|dev]; cbn [mbind ub_bind]; [discriminate|].
    apply (effect_change accepts st p (with_device dev) x (verify_context _ _ || _ || _)); auto.
    intros Hb Hh. rewrite Hh in Hb. apply orb_false_elim in Hb as [[Hb1 Hb2]%orb_false_elim Hb3].
    rewrite !contribution_silent; [reflexivity | exact Hb1 |]. rewrite verify_speaker. cbn. now rewrite Hb2, Hb3.
  - destruct (cmd_size =? 8); cbn [negb]; [|no_effect]. pose proof (Hdata d eq_refl) as Hw.
    destruct (at_index (as_words d) 0) as [|wl] eqn:El; cbn [mbind ub_bind]; [discriminate|].
    destruct (at_index (as_words d) 1) as [|wr] eqn:Er; cbn [mbind ub_bind]; [discriminate|].
    apply (effect_change accepts st p (with_volume (volume_of_word wl) (volume_of_word wr)) x (verify_context _ _)); auto.
    + intros y _. cbn. split; apply volume_nonneg; eapply (at_index_Forall is_u32); eauto.
    + intros Hb Hh. rewrite Hh in Hb. now rewrite !contribution_silent.
Qed.

Lemma release_effect accepts handle st r st' :
  vol_prc_lib_release accepts handle st = Ret (r, st') -> effect_of accepts st st'.
Proof.
  unfold vol_prc_lib_release. destruct handle as [p|]; [|intros [= _ <-]; apply effect_none].
  destruct (initialized st); cbn [negb]; [|discriminate].
  destruct (remove_context p _ 0) as [[[x l] n]|] eqn:Er; [|intros [= _ <-]; apply effect_none].
  destruct (remove_spec _ _ _ _ _ _ Er) as (a & b & El & -> & _).
  set (st1 := if n =? 0 then _ else _).
  assert (adjusted st st1 /\ vol_effect_list st1 = a ++ b) as [Ha El1].
  { assert (adjusted st (with_contexts (a ++ b) st)) as Ha.
    { apply adjusted_contexts. rewrite El. intros [Hnd Hv]. rewrite fmap_app in Hnd. cbn in Hnd. split.
      - rewrite fmap_app. apply NoDup_app in Hnd as (H1 & H2 & H3). apply NoDup_app. repeat split; auto.
        + intros y Hy Hy'. apply (H2 y Hy). now right.
        + now inversion H3.
      - rewrite Forall_app, Forall_cons in Hv. apply Forall_app. tauto. }
    unfold st1. destruct (n =? 0); [|split; [exact Ha | reflexivity]]. split; [|reflexivity].
    destruct Ha as [[? ? ? ? ? ? ?] ? ? _]. split; [split; assumption | assumption.. | right; auto]. }
  destruct (verify_context _ x) eqn:Ev; cbn.
  - destruct (check_and_set_gain_dep_cal accepts st1) as [|st2] eqn:Ec; cbn; intros [= _ <-]. eapply E_heard; eauto.
  - intros [= _ <-]. apply E_quiet; [exact Ha|]. intros Hh. rewrite El1, El. unfold loud. rewrite !omap_app. cbn.
    rewrite contribution_silent; [reflexivity | congruence].
Qed.

(** *** Looking at the loudness *)

Fixpoint last_gain (l : list hal_call) : option Z :=
  match l with
  | [] => None
  | SendLinearGain g :: _ => Some g
  | _ :: l => last_gain l
  end.

(** The level the audio HAL accepted last. *)
Fixpoint last_level (l : list hal_call) : option Z :=
  match l with
  | [] => None
  | SendGainDepCal lv true :: _ => Some lv
  | _ :: l => last_level l
  end.

Definition loudness (st : listener) : Z := mix (loud (headset_cal_enabled st) (vol_effect_list st)).

(** The gain sent last is that of the current loudness. *)
Definition gain_current (st : listener) : Prop :=
  match last_gain (sent st) with
  | None => loud (headset_cal_enabled st) (vol_effect_list st) = []
  | Some g => exists v, linear_gain (loudness st) = Ret v /\ g = i32 v
  end.

Definition level_for (st : listener) (v : Z) : ub Z :=
  cal_level_for v (total_volume_cal_step st) (volume_curve_gain_mapping_table st).

(** What the library remembers of the level it sent. *)
Definition level_known (st : listener) : Prop :=
  current_gain_dep_cal_level st = -1 /\ current_vol st = 0 \/
  last_level (sent st) = Some (current_gain_dep_cal_level st) /\
    level_for st (current_vol st) = Ret (current_gain_dep_cal_level st).

(** The level accepted last is that of the current loudness, unless there is none
    for it or the streams are muted. *)
Definition level_current (st : listener) : Prop :=
  forall lv, level_for st (loudness st) = Ret lv ->
    lv = -1 \/ last_level (sent st) = Some lv \/ loudness st = 0 \/
    last_level (sent st) = None /\ loud (headset_cal_enabled st) (vol_effect_list st) = [].

Lemma check_spec accepts st st' :
  check_and_set_gain_dep_cal accepts st = Ret st' ->
  same_setup st st' /\ vol_effect_list st' = vol_effect_list st /\
  (exists g, linear_gain (loudness st') = Ret g /\ last_gain (sent st') = Some (i32 g)) /\
  (accepts = true -> send_gain_dep_cal st = true -> level_known st -> level_known st' /\ level_current st').
Proof.
  unfold check_and_set_gain_dep_cal. rewrite new_volume_mix. fold (loudness st).
  destruct (linear_gain (loudness st)) as [|g] eqn:Eg; cbn [mbind ub_bind]; [discriminate|].
  destruct (send_linear_gain st); cbn [negb]; [|discriminate].
  set (st1 := call_hal _ st).
  assert (same_setup st st1 /\ vol_effect_list st1 = vol_effect_list st /\
    (exists g, linear_gain (loudness st1) = Ret g /\ last_gain (sent st1) = Some (i32 g))) as H1
    by (split; [split; reflexivity | split; [reflexivity | exists g; split; [exact Eg | reflexivity]]]).
  assert (level_known st -> level_known st1) as Hk1 by (intros Hk; exact Hk).
  destruct (loudness st =? current_vol st1) eqn:Ev; boolprop.
  { intros [= <-]. destruct H1 as (? & ? & ?). do 3 (split; [assumption|]). intros _ _ Hk. split; [auto|].
    intros lv Hlv. change (level_for st1 (loudness st1)) with (level_for st (loudness st)) in Hlv.
    rewrite Ev in Hlv. destruct Hk as [[_ Hz]|[Hl Hc]].
    - right. right. left. change (loudness st = 0). rewrite Ev. exact Hz.
    - right. left. change (last_level (sent st1)) with (last_level (sent st)). rewrite Hl. cbn in Hlv. congruence. }
  destruct (send_gain_dep_cal st1) eqn:Es; cbn [negb].
  2:{ intros [= <-]. destruct H1 as (? & ? & ?). do 3 (split; [assumption|]). intros _ Hs. cbn in Es. congruence. }
  destruct (cal_level_for _ _ _) as [|lv] eqn:El; cbn [mbind ub_bind]; [discriminate|].
  assert (forall s, level_for s (loudness s) = Ret lv -> lv = -1 \/ last_level (sent s) = Some lv -> level_current s) as Hcur.
  { intros s Hs Hor lv' Hlv'. assert (lv' = lv) as -> by congruence. tauto. }
  destruct (lv =? -1) eqn:Em; boolprop.
  { intros [= <-]. destruct H1 as (? & ? & ?). do 3 (split; [assumption|]). intros _ _ Hk. split; auto. }
  destruct (lv =? current_gain_dep_cal_level st1) eqn:Ec; boolprop.
  { intros [= <-]. destruct H1 as (? & ? & ?). do 3 (split; [assumption|]). intros _ _ Hk. split; [auto|].
    apply Hcur; [exact El|]. right. destruct Hk as [[Hz _]|[Hl _]]; [cbn in Ec; congruence|].
    change (last_level (sent st) = Some lv). rewrite Hl. cbn in Ec. congruence. }
  set (st2 := call_hal _ st1). destruct accepts; intros [= <-].
  - split; [split; reflexivity|]. split; [reflexivity|]. split; [exists g; split; [exact Eg | reflexivity]|]. intros _ _ _. split.
    + right. split; [reflexivity | exact El].
    + apply Hcur; [exact El | right; reflexivity].
  - split; [split; reflexivity|]. split; [reflexivity|]. split; [exists g; split; [exact Eg | reflexivity] | discriminate].
Qed.

(** *** The invariant *)

Record vol_inv (lib : hal_library) (ok : bool) (st : listener) : Prop := mkVolInv {
  vi_start : initialized st = false -> st = listener_start;
  vi_lib : initialized st = true ->
    send_gain_dep_cal st = lib_readable lib && lib_opens lib && sym_gain_dep_cal lib /\
    headset_cal_enabled st = prop_headset lib;
  vi_table : 1 <= total_volume_cal_step st <= 15 /\ length (volume_curve_gain_mapping_table st) = 15%nat;
  vi_contexts : wf_contexts (vol_effect_list st);
  vi_gain : headset_cal_enabled st = false -> gain_current st;
  vi_known : ok = true -> send_gain_dep_cal st = true -> level_known st;
  vi_level : headset_cal_enabled st = false -> ok = true -> send_gain_dep_cal st = true -> level_current st;
}.

Lemma vol_inv_start lib : vol_inv lib true listener_start.
Proof.
  split; try discriminate; try (intros; reflexivity).
  - split; [cbn; unfold MAX_GAIN_LEVELS; lia | reflexivity].
  - repeat constructor.
Qed.

Lemma load_table_ok get total table :
  (forall t, length (get t).2 = length t) -> 1 <= total <= 15 -> length table = 15%nat ->
  1 <= (load_table get total table).1 <= 15 /\ length (load_table get total table).2 = 15%nat.
Proof.
  intros Hg Ht Hl. unfold load_table. specialize (Hg table). destruct (get table) as [n t]. cbn in Hg.
  unfold MAX_VOLUME_CAL_STEPS. destruct (_ && _) eqn:E; boolprop; cbn [fst snd]; [|split; [lia | congruence]].
  split; [lia|]. destruct (_ <? _); [unfold clear_steps; rewrite length_imap|]; congruence.
Qed.

Lemma inv_init lib ok st : valid_lib lib -> vol_inv lib ok st ->
  vol_inv lib ok (init_once lib st) /\ initialized (init_once lib st) = true /\
  vol_effect_list (init_once lib st) = vol_effect_list st.
Proof.
  intros Hl Hi. unfold init_once. destruct (initialized st) eqn:Ei; [auto|].
  rewrite (vi_start _ _ _ Hi Ei). set (tt := match sym_gain_table lib with Some _ => _ | None => _ end).
  assert (1 <= tt.1 <= 15 /\ length tt.2 = 15%nat) as Htt.
  { assert (1 <= MAX_GAIN_LEVELS <= 15 /\ length default_table = 15%nat) as [Hm Hd]
      by (split; [unfold MAX_GAIN_LEVELS; lia | reflexivity]).
    unfold tt. destruct (sym_gain_table lib) as [get|] eqn:Eg; [|auto].
    destruct (_ && _); [|auto]. apply load_table_ok; [intros t; now apply Hl | assumption..]. }
  destruct tt as [total table]. split; [|auto]. cbn in Htt.
  split; [discriminate | auto | exact Htt | repeat constructor | reflexivity | left; auto |].
  intros _ _ _ lv _. right. right. right. auto.
Qed.

Lemma inv_effect lib ok accepts st st' :
  initialized st = true -> vol_inv lib ok st -> effect_of accepts st st' -> vol_inv lib (ok && accepts) st'.
Proof.
  intros Hini Hi He.
  assert (forall s, adjusted st s -> level_known st -> level_known s) as Hknown.
  { intros s [[_ Et Eb _ _ _ _] Es _ Hlv] Hk. unfold level_known, level_for. rewrite Et, Eb, Es.
    destruct Hlv as [[-> ->]|Hlv]; [exact Hk | now left]. }
  destruct He as [Ha Hq|st1 Ha Hc].
  - pose proof (Hknown st' Ha) as Hk. destruct Ha as [[Ei Et Eb _ Ec _ Eh] Es Hw _].
    assert (headset_cal_enabled st = false -> loud (headset_cal_enabled st') (vol_effect_list st') =
      loud (headset_cal_enabled st) (vol_effect_list st)) as Hloud by (intros Hh; rewrite Eh, Hh; auto).
    split; rewrite ?Ei, ?Et, ?Eb, ?Ec, ?Eh.
    + congruence.
    + apply (vi_lib _ _ _ Hi).
    + apply (vi_table _ _ _ Hi).
    + apply Hw, (vi_contexts _ _ _ Hi).
    + intros Hh. pose proof (vi_gain _ _ _ Hi Hh) as Hg. unfold gain_current, loudness in *. now rewrite Es, (Hloud Hh).
    + intros [-> _]%andb_prop Hs. apply Hk, (vi_known _ _ _ Hi); auto.
    + intros Hh [-> _]%andb_prop Hs. pose proof (vi_level _ _ _ Hi Hh eq_refl Hs) as Hl.
      unfold level_current, loudness, level_for in *. now rewrite Es, (Hloud Hh), Et, Eb.
  - destruct (check_spec _ _ _ Hc) as ([Ei' Et' Eb' _ Ec' _ Eh'] & El & Hg & Hlev).
    pose proof (Hknown st1 Ha) as Hk. destruct Ha as [[Ei Et Eb _ Ec _ Eh] Es Hw _].
    split; rewrite ?Ei', ?Et', ?Eb', ?Ec', ?Eh', ?El, ?Ei, ?Et, ?Eb, ?Ec, ?Eh.
    + congruence.
    + apply (vi_lib _ _ _ Hi).
    + apply (vi_table _ _ _ Hi).
    + apply Hw, (vi_contexts _ _ _ Hi).
    + intros _. unfold gain_current. destruct Hg as (g & Eg & ->). eauto.
    + intros [-> ->]%andb_prop Hs. apply Hlev; [reflexivity | congruence | apply Hk, (vi_known _ _ _ Hi); auto].
    + intros _ [-> ->]%andb_prop Hs. apply Hlev; [reflexivity | congruence | apply Hk, (vi_known _ _ _ Hi); auto].
Qed.

Lemma create_effect lib ok alloc uuid sid p_handle st st1 :
  valid_lib lib -> vol_inv lib ok st -> valid_op (Create alloc uuid sid p_handle) st -> st1 = init_once lib st ->
  effect_of true st1 (vol_prc_lib_create lib alloc uuid sid p_handle st).2.
Proof.
  intros Hl Hi Hv ->. destruct (inv_init lib ok st Hl Hi) as (_ & _ & El).
  unfold vol_prc_lib_create, lib_init. set (st1 := init_once lib st) in *.
  destruct (negb _); [apply effect_none|]. destruct uuid as [uuid|], p_handle; try apply effect_none.
  destruct alloc as [p|]; [|apply effect_none].
  destruct (find_descriptor uuid descriptors 0) as [[itt d]|]; [|apply effect_none].
  cbn [snd]. apply E_quiet.
  - apply adjusted_contexts. rewrite El. intros [Hnd Hvol]. split.
    + rewrite fmap_app. apply NoDup_app. split; [exact Hnd|]. split; [|apply NoDup_singleton].
      intros y Hy ->%list_elem_of_singleton. exact (Hv Hy).
    + apply Forall_app. split; [exact Hvol|]. repeat constructor; cbn; lia.
  - intros _. cbn [with_contexts vol_effect_list]. unfold loud. rewrite omap_app. cbn. now rewrite app_nil_r.
Qed.

Lemma inv_weaken lib ok accepts st : vol_inv lib ok st -> vol_inv lib (ok && accepts) st.
Proof. intros []. split; auto; intros; destruct ok; auto; discriminate. Qed.

Lemma vol_inv_step lib ok o st st' :
  valid_lib lib -> vol_inv lib ok st -> valid_op o st -> vexec lib o st = Ret st' ->
  vol_inv lib (ok && hal_accepts o) st'.
Proof.
  intros Hl Hi Hv. destruct (inv_init lib ok st Hl Hi) as (Hi1 & Hini & _).
  destruct o as [alloc uuid sid ph|accepts handle|accepts self cmd n data rs pr|uuid d]; cbn [vexec hal_accepts].
  - intros [= <-]. eapply inv_effect; [exact Hini | exact Hi1 | eapply create_effect; eauto].
  - destruct (vol_prc_lib_release accepts handle st) as [|[r s]] eqn:E; cbn; intros [= <-].
    destruct (initialized st) eqn:Ei; [eapply inv_effect; eauto using release_effect|].
    assert (s = st) as ->; [|now apply inv_weaken].
    unfold vol_prc_lib_release in E. rewrite Ei in E. destruct handle; cbn in E; congruence.
  - destruct (vol_effect_command accepts st self cmd n data rs pr) as [|[r s]] eqn:E; cbn; intros [= <-].
    assert (effect_of accepts st s) as He.
    { eapply command_effect; [apply (vi_contexts _ _ _ Hi)| |exact E]. intros d ->. exact Hv. }
    destruct (initialized st) eqn:Ei; [eapply inv_effect; eauto|].
    assert (s = st) as ->; [|now apply inv_weaken].
    pose proof (vi_start _ _ _ Hi Ei) as ->. destruct self; cbn in E; congruence.
  - intros [= <-]. unfold vol_prc_lib_get_descriptor, lib_init. rewrite andb_true_r.
    destruct (negb _); [exact Hi1|]. destruct uuid, d; try exact Hi1. now destruct (find_descriptor _ _ _) as [[]|].
Qed.

Lemma vreach_inv lib ok st : valid_lib lib -> vreach lib ok st -> vol_inv lib ok st.
Proof. intros Hl Hr. induction Hr; [apply vol_inv_start | eauto using vol_inv_step]. Qed.

(** ** Properties *)

(** C26. With the calibration for headsets off ([prop_headset] is false; with it on the
    claim fails, see [headset_move_missed]), after any sequence of creations, releases and
    commands none of which had undefined behaviour, the linear gain the audio HAL was sent
    last is that of the streams now active on the speaker.  While there is such a stream it
    is the root of the sum of the squares of their louder channels, at most 1, in Q28, so
    between 0 and 2^28; while there is none it is what the compiler made of the conversion of
    -2^28 to [uint32_t], which C leaves undefined (a run on a platform that leaves it
    undefined too never gets there).  If no gain was sent, no stream is active on the
    speaker. *)
Theorem gain_tracks_loudness lib ok st :
  valid_lib lib -> prop_headset lib = false -> vreach lib ok st ->
  match last_gain (sent st) with
  | None => loud false (vol_effect_list st) = []
  | Some g =>
      if decide (loud false (vol_effect_list st) = [])
      then exists v, u32_out_of_range (- 2 ^ 28) = Ret v /\ g = i32 (u32 v)
      else linear_gain (new_volume false (vol_effect_list st)) = Ret g /\ 0 <= g <= 2 ^ 28
  end.
Proof.
  intros Hl Hp Hr. pose proof (vreach_inv lib ok st Hl Hr) as Hi.
  assert (headset_cal_enabled st = false) as Hh.
  { destruct (initialized st) eqn:Ei; [|now rewrite (vi_start _ _ _ Hi Ei)].
    destruct (vi_lib _ _ _ Hi Ei) as [_ ->]. exact Hp. }
  pose proof (vi_gain _ _ _ Hi Hh) as Hg. unfold gain_current, loudness in Hg. rewrite Hh in Hg.
  destruct (last_gain (sent st)) as [g|]; [|exact Hg]. destruct (decide _) as [He|Hn].
  - destruct Hg as (w & Hg & ->). rewrite He, linear_gain_silent in Hg.
    destruct (u32_out_of_range _) as [|v]; [discriminate|]. injection Hg as <-. eauto.
  - rewrite new_volume_mix. destruct (linear_gain_range (mix (loud false (vol_effect_list st)))) as (g' & E & Hr').
    { apply mix_range; [apply loud_nonneg, (vi_contexts _ _ _ Hi) | exact Hn]. }
    destruct Hg as (w & Hg & ->). rewrite E in Hg |- *. injection Hg as <-. rewrite i32_small by range. auto.
Qed.

(** While the audio HAL accepts what it is sent, the calibration level it has is
    the one the table gives for the current loudness, except where the table gives
    none, where all streams on the speaker are muted, and before the first stream
    was heard. *)
Theorem level_tracks_loudness lib st :
  valid_lib lib -> prop_headset lib = false ->
  lib_readable lib = true -> lib_opens lib = true -> sym_gain_dep_cal lib = true ->
  vreach lib true st -> initialized st = true ->
  exists lv, cal_level_for (new_volume false (vol_effect_list st)) (total_volume_cal_step st)
      (volume_curve_gain_mapping_table st) = Ret lv /\
    (lv = -1 \/ last_level (sent st) = Some lv \/ new_volume false (vol_effect_list st) = 0 \/
     last_level (sent st) = None /\ loud false (vol_effect_list st) = []).
Proof.
  intros Hl Hp H1 H2 H3 Hr Ei. pose proof (vreach_inv lib true st Hl Hr) as Hi.
  destruct (vi_lib _ _ _ Hi Ei) as [Hs Hh]. rewrite H1, H2, H3 in Hs. rewrite Hp in Hh.
  destruct (vi_table _ _ _ Hi) as [Ht Hlen].
  destruct (cal_level_total (new_volume false (vol_effect_list st)) (total_volume_cal_step st)
    (volume_curve_gain_mapping_table st) ltac:(lia)) as [lv Hlv].
  exists lv. split; [exact Hlv|]. pose proof (vi_level _ _ _ Hi Hh eq_refl Hs lv) as Hc.
  unfold level_for, loudness in Hc. rewrite Hh, <- new_volume_mix in Hc. auto.
Qed.

(** The loop over the gain table picks the greatest step not above the volume:
    in a table of increasing amplitudes, for a volume between 0 and 1, the level is
    that of the last step whose amplitude the volume reaches, and there is none
    exactly if the volume is below the first step or reaches the last. *)
Theorem step_is_greatest v total table e0 elast :
  (1 <= total <= length table)%nat -> increasing total table -> 0 < v < float_one ->
  table !! 0%nat = Some e0 -> table !! (total - 1)%nat = Some elast ->
  exists lv, cal_level_for v (Z.of_nat total) table = Ret lv /\
    ((exists i e, (i < total)%nat /\ table !! i = Some e /\ lv = i32 (level e) /\ amp e <= v < amp elast /\
        forall j e', (j < total)%nat -> table !! j = Some e' -> amp e' <= v -> (j <= i)%nat) \/
     lv = -1 /\ (v < amp e0 \/ amp elast <= v)).
Proof.
  intros Ht Hinc Hv E0 El. unfold cal_level_for.
  replace (float_one <=? v) with false by lia. replace (v =? - float_one) with false by lia.
  replace (v =? 0) with false by lia. cbn [andb].
  replace (Z.to_nat (Z.of_nat total - 1)) with (total - 1)%nat by lia.
  destruct (find_step_spec v table (total - 1) 0 ltac:(lia)) as (lv & E & Hlv).
  exists lv. split; [exact E|]. destruct Hlv as [(j & e & e' & Hj & Ej & Ej' & Ha & ->)|[-> Hno]].
  - left. exists j, e. repeat split; auto; try lia.
    + pose proof (increasing_le total table (S j) (total - 1) e' elast Hinc ltac:(lia) Ej' El). lia.
    + intros i e1 Hi Ei1 Hle. destruct (decide (i <= j)%nat) as [|Hij]; [assumption|].
      pose proof (increasing_le total table (S j) i e' e1 Hinc ltac:(lia) Ej' Ei1). lia.
  - right. split; [reflexivity|].
    destruct (Z_lt_le_dec v (amp e0)) as [|Hge]; [auto|]. destruct (Z_lt_le_dec v (amp elast)) as [Hlt|]; [|auto].
    destruct (crossing v table (total - 1) 0 e0 elast E0 El ltac:(lia)) as (j & c & c' & Hj & Ec & Ec' & Hc).
    destruct (Hno j c c' Hj Ec Ec' Hc).
Qed.

(** Louder streams never make a quieter mix: raising the volumes of the streams
    heard, in the rounded arithmetic of the code, never lowers the volume decided
    on, and it stays between 0 and 1. *)
Theorem mix_is_monotone headset l l' :
  Forall2 (fun v v' => 0 <= v <= v') (loud headset l) (loud headset l') ->
  new_volume headset l <= new_volume headset l' /\
  (loud headset l' <> [] -> 0 <= new_volume headset l' <= float_one).
Proof.
  intros Hv. rewrite !new_volume_mix. split; [now apply mix_mono|]. intros Hn. apply mix_range; [|exact Hn].
  apply Forall_lookup. intros i y E. destruct (Forall2_lookup_r _ _ _ _ _ Hv E) as (z & _ & Hz). lia.
Qed.

(** Processing an active effect that accumulates adds the input to the output
    sample by sample, saturating at the 16-bit limits, and touches nothing beyond
    the frames; the bit trick of [clamp16] is saturation. *)
Theorem process_saturates st p x frames in_s16 out_s16 :
  lookup_context p (vol_effect_list st) = Ret x -> state x = VOL_LISTENER_STATE_ACTIVE ->
  outputCfg_accessMode (config x) = EFFECT_BUFFER_ACCESS_ACCUMULATE ->
  (frames * 2 <= length in_s16)%nat -> (frames * 2 <= length out_s16)%nat ->
  Forall (fun s => -32768 <= s <= 32767) in_s16 -> Forall (fun s => -32768 <= s <= 32767) out_s16 ->
  exists out', vol_effect_process st (Some p) false frames in_s16 out_s16 = Ret (0, out') /\
    length out' = length out_s16 /\
    forall k o i, out_s16 !! k = Some o -> in_s16 !! k = Some i ->
      out' !! k = Some (if decide (k < frames * 2)%nat then Z.max (-32768) (Z.min 32767 (o + i)) else o).
Proof.
  intros Hx Hs Ha Hi Ho Hri Hro. unfold vol_effect_process. cbn [deref]. rewrite Hx. cbn [mbind ub_bind].
  rewrite bool_decide_eq_true_2 by assumption. cbn [negb].
  replace (length in_s16 <? frames * 2)%nat with false by (symmetry; apply Nat.ltb_ge; lia).
  replace (length out_s16 <? frames * 2)%nat with false by (symmetry; apply Nat.ltb_ge; lia). cbn [orb].
  rewrite Ha, Z.eqb_refl. eexists. split; [reflexivity|].
  set (n := (frames * 2)%nat) in *. set (mixed := zip_with _ _ _).
  assert (length mixed = n) as Hlen by (unfold mixed; rewrite length_zip_with, !length_take; lia).
  split; [rewrite length_app, length_drop; lia|]. intros k o i Eo Ei.
  rewrite Forall_lookup in Hri, Hro. specialize (Hri k i Ei). specialize (Hro k o Eo).
  destruct (decide (k < n)%nat) as [Hk|Hk].
  - rewrite lookup_app_l by lia. unfold mixed. rewrite lookup_zip_with, !lookup_take_lt by lia.
    rewrite Eo, Ei. cbn. rewrite clamp16_saturates; [reflexivity|]. range.
  - rewrite lookup_app_r by lia. rewrite lookup_drop, Hlen. now replace (n + (k - n))%nat with k by lia.
Qed.

(** Looking at the loudness when no stream is heard has undefined behaviour: a volume
    of -1 is converted to an unsigned number, which C leaves undefined; where the
    compiler gives it a value, that is sent, or, if the audio HAL has no function for the
    linear gain, a null pointer is called. *)
Theorem silent_check_undefined accepts st :
  loud (headset_cal_enabled st) (vol_effect_list st) = [] ->
  match u32_out_of_range (- 2 ^ 28) with
  | Undef => check_and_set_gain_dep_cal accepts st = Undef
  | Ret v =>
      if send_linear_gain st
      then forall st', check_and_set_gain_dep_cal accepts st = Ret st' -> last_gain (sent st') = Some (i32 (u32 v))
      else check_and_set_gain_dep_cal accepts st = Undef
  end.
Proof.
  intros Hn. pose proof linear_gain_silent as Hsil. destruct (u32_out_of_range _) as [|v] eqn:Eu; cbn [mbind ub_bind] in Hsil.
  { unfold check_and_set_gain_dep_cal. now rewrite new_volume_mix, Hn, Hsil. }
  destruct (send_linear_gain st) eqn:E.
  2:{ unfold check_and_set_gain_dep_cal. now rewrite new_volume_mix, Hn, Hsil, E. }
  intros st' Hc. destruct (check_spec _ _ _ Hc) as ([_ _ _ _ _ _ Eh] & El & (g & Eg & Hg) & _).
  rewrite Hg. unfold loudness in Eg. rewrite Eh, El, Hn, Hsil in Eg. congruence.
Qed.

End WithPlatform.

(** ** Concrete runs *)

(** Android's values, and a conversion that saturates as the processor's does. *)
#[local] Instance android : AudioPlatform := {|
  AUDIO_DEVICE_NONE := 0;
  AUDIO_DEVICE_OUT_EARPIECE := 0x1;
  AUDIO_DEVICE_OUT_SPEAKER := 0x2;
  AUDIO_DEVICE_OUT_WIRED_HEADSET := 0x4;
  AUDIO_DEVICE_OUT_WIRED_HEADPHONE := 0x8;
  AUDIO_DEVICE_OUT_SPEAKER_SAFE := 0x400000;
  EFFECT_BUFFER_ACCESS_ACCUMULATE := 2;
  EFFECT_CONTROL_API_VERSION := 0x20000;
  EFFECT_FLAG_TYPE_INSERT := 0;
  EFFECT_FLAG_VOLUME_IND := 0x80;
  EFFECT_FLAG_DEVICE_IND := 0x200;
  EFFECT_FLAG_OFFLOAD_SUPPORTED := 0x2000;
  EFFECT_FLAG_NO_PROCESS := 0x8000;
  sizeof_effect_config_t := 64;
  u32_out_of_range := fun d => Ret (if d <? 0 then 0 else UINT32_MAX);
|}.

Definition full_hal (headset : bool) : hal_library := mkHalLibrary true true true true None headset.

Lemma full_hal_valid headset : valid_lib (full_hal headset).
Proof. intros get t [=]. Qed.

(** Run operations, checking that each is valid. *)
Definition valid_op_b (o : vol_op) (st : listener) : bool :=
  match o with
  | Create (Some p) _ _ _ => bool_decide (p ∉ (vol_effect_list st).*1)
  | Command _ _ _ _ (Some data) _ _ => forallb (fun w => (0 <=? w) && (w <=? UINT32_MAX)) (as_words data)
  | _ => true
  end.

Fixpoint run_ops (lib : hal_library) (os : list vol_op) (st : listener) : option listener :=
  match os with
  | [] => Some st
  | o :: os =>
      if valid_op_b o st then
        match vexec lib o st with Ret st' => run_ops lib os st' | Undef => None end
      else None
  end.

Lemma valid_op_b_spec o st : valid_op_b o st = true -> valid_op o st.
Proof.
  destruct o as [[p|] u s h| |a se c n [d|] rs pr|]; cbn; auto.
  - apply bool_decide_eq_true_1.
  - intros Hf. apply Forall_forall. intros w Hw. apply list_elem_of_In in Hw. rewrite forallb_forall in Hf.
    specialize (Hf w Hw). unfold is_u32. lia.
Qed.

Lemma run_ops_reach lib os ok st st' :
  forallb hal_accepts os = true -> vreach lib ok st -> run_ops lib os st = Some st' -> vreach lib ok st'.
Proof.
  revert ok st. induction os as [|o os IH]; intros ok st Ha Hr; cbn [run_ops]; [intros [= <-]; exact Hr|].
  cbn in Ha. apply andb_prop in Ha as [Ho Ha]. destruct (valid_op_b o st) eqn:Ev; [|discriminate].
  destruct (vexec lib o st) as [|st1] eqn:E; [discriminate|]. apply IH; [exact Ha|].
  rewrite <- (andb_true_r ok), <- Ho. eapply VR_step; eauto using valid_op_b_spec.
Qed.

Definition words (ws : list Z) : option cmd_data := Some (mkCmdData (mkVolConfig 0) ws).
Definition create_op (p : Z) (d : effect_descriptor_t) : vol_op := Create (Some p) (Some (d_uuid d)) p true.
Definition volume_op (p v : Z) : vol_op := Command true (Some p) EFFECT_CMD_SET_VOLUME 8 (words [v; v]) None false.
Definition device_op (p d : Z) : vol_op := Command true (Some p) EFFECT_CMD_SET_DEVICE 4 (words [d]) None false.
Definition enable_op (p : Z) : vol_op := Command true (Some p) EFFECT_CMD_ENABLE 0 None (Some 4) true.

(** Music at half volume on the speaker. *)
Definition music_on (p : Z) : list vol_op :=
  [ create_op p vol_listener_music_descriptor; volume_op p 0x800000; device_op p 2; enable_op p ].

Definition playing : listener := default listener_start (run_ops (full_hal false) (music_on 1) listener_start).

Lemma playing_reached : vreach (full_hal false) true playing.
Proof.
  apply (run_ops_reach _ (music_on 1) true listener_start); [reflexivity | constructor | vm_compute; reflexivity].
Qed.

(** With the calibration for headsets on, moving an active call to the earpiece is
    missed: the device is one [verify_context] accepts, but the handler of
    [EFFECT_CMD_SET_DEVICE] only looks for a speaker in the new device, so no gain is
    sent for the stream now heard. *)
Theorem headset_move_missed :
  exists lib st, valid_lib lib /\ vreach lib true st /\
    loud (headset_cal_enabled st) (vol_effect_list st) <> [] /\ last_gain (sent st) = None.
Proof.
  set (os := [ create_op 1 vol_listener_voice_call_descriptor; volume_op 1 0x800000; enable_op 1; device_op 1 1 ]).
  exists (full_hal true), (default listener_start (run_ops (full_hal true) os listener_start)).
  split; [apply full_hal_valid|]. split.
  - apply (run_ops_reach _ os true listener_start); [reflexivity | constructor | vm_compute; reflexivity].
  - split; [vm_compute; discriminate | vm_compute; reflexivity].
Qed.

(** Releasing the oldest effect forgets the level although other streams are
    active: the count that should tell whether any remain counts the contexts
    before the released one, not those left. *)
Theorem release_forgets_level :
  exists lib st st' p, valid_lib lib /\ vreach lib true st /\
    vol_prc_lib_release true (Some p) st = Ret (0, st') /\
    current_gain_dep_cal_level st <> -1 /\ loud false (vol_effect_list st') <> [] /\
    loud false (vol_effect_list st') = loud false (vol_effect_list st) /\
    current_gain_dep_cal_level st' = -1.
Proof.
  set (os := create_op 7 vol_listener_ring_descriptor :: music_on 1).
  set (st := default listener_start (run_ops (full_hal false) os listener_start)).
  exists (full_hal false), st.
  exists (match vol_prc_lib_release true (Some 7) st with Ret (_, s) => s | Undef => listener_start end), 7.
  split; [apply full_hal_valid|]. split.
  - apply (run_ops_reach _ os true listener_start); [reflexivity | constructor | vm_compute; reflexivity].
  - split; [vm_compute; reflexivity|]. split; [vm_compute; discriminate|]. split; [vm_compute; discriminate|].
    split; vm_compute; reflexivity.
Qed.

(** ** Witnesses *)

(** Half the volume on the speaker is half of 2^28. *)
Lemma gain_tracks_loudness_witness :
  last_gain (sent playing) = Some (2 ^ 27) /\
  linear_gain (new_volume false (vol_effect_list playing)) = Ret (2 ^ 27) /\ 0 <= 2 ^ 27 <= 2 ^ 28.
Proof.
  pose proof (gain_tracks_loudness (full_hal false) true playing (full_hal_valid false) eq_refl playing_reached) as Hg.
  assert (last_gain (sent playing) = Some (2 ^ 27)) as E by (vm_compute; reflexivity). rewrite E in Hg.
  destruct (decide (loud false (vol_effect_list playing) = [])) as [He|_]; [exfalso; revert He; vm_compute; discriminate|].
  split; [exact E | exact Hg].
Defined.

Lemma level_tracks_loudness_witness :
  exists lv, cal_level_for (new_volume false (vol_effect_list playing)) (total_volume_cal_step playing)
      (volume_curve_gain_mapping_table playing) = Ret lv /\
    (lv = -1 \/ last_level (sent playing) = Some lv \/ new_volume false (vol_effect_list playing) = 0 \/
     last_level (sent playing) = None /\ loud false (vol_effect_list playing) = []).
Proof.
  exact (level_tracks_loudness (full_hal false) playing (full_hal_valid false) eq_refl eq_refl eq_refl eq_refl
    playing_reached ltac:(vm_compute; reflexivity)).
Defined.

Lemma default_increasing : increasing 5 default_table.
Proof.
  assert (forall i j, (i < j < 5)%nat -> forallb (fun i => forallb (fun j => negb (i <? j)%nat ||
    (match default_table !! i, default_table !! j with Some e, Some e' => amp e <? amp e' | _, _ => false end))
    (seq 0 5)) (seq 0 5) = true) as Hall by (intros; vm_compute; reflexivity).
  intros i j e e' Hij Ei Ej. specialize (Hall i j Hij). rewrite forallb_forall in Hall.
  specialize (Hall i ltac:(apply in_seq; lia)). rewrite forallb_forall in Hall.
  specialize (Hall j ltac:(apply in_seq; lia)). rewrite Ei, Ej in Hall.
  replace (i <? j)%nat with true in Hall by (symmetry; apply Nat.ltb_lt; lia). cbn in Hall. lia.
Qed.

Lemma step_is_greatest_witness :
  exists lv, cal_level_for (float_lit 6 10) 5 default_table = Ret lv /\
    ((exists i e, (i < 5)%nat /\ default_table !! i = Some e /\ lv = i32 (level e) /\
        amp e <= float_lit 6 10 < amp (mkGain (float_lit 1 1) 0 1) /\
        forall j e', (j < 5)%nat -> default_table !! j = Some e' -> amp e' <= float_lit 6 10 -> (j <= i)%nat) \/
     lv = -1 /\ (float_lit 6 10 < amp (mkGain (float_lit 1774 1000000) (-55 * float_one) 5) \/
                 amp (mkGain (float_lit 1 1) 0 1) <= float_lit 6 10)).
Proof.
  apply (step_is_greatest (float_lit 6 10) 5 default_table (mkGain (float_lit 1774 1000000) (-55 * float_one) 5)
    (mkGain (float_lit 1 1) 0 1)); [vm_compute; lia | apply default_increasing | split; vm_compute; reflexivity
    | reflexivity | reflexivity].
Defined.

Lemma mix_is_monotone_witness :
  new_volume false (vol_effect_list playing) <= new_volume false (vol_effect_list playing) /\
  (loud false (vol_effect_list playing) <> [] -> 0 <= new_volume false (vol_effect_list playing) <= float_one).
Proof.
  apply (mix_is_monotone false (vol_effect_list playing) (vol_effect_list playing)).
  vm_compute. repeat constructor; discriminate.
Defined.

Definition accumulating : vol_listener_context_t :=
  mkContext (mkVolConfig 2) vol_listener_music_descriptor 0 1 VOL_LISTENER_STATE_ACTIVE 2 0 0.

Lemma process_saturates_witness :
  exists out', vol_effect_process (with_contexts [(1, accumulating)] listener_start) (Some 1) false 1
      [30000; -5] [10000; 7] = Ret (0, out') /\ length out' = 2%nat /\
    forall k o i, [10000; 7] !! k = Some o -> [30000; -5] !! k = Some i ->
      out' !! k = Some (if decide (k < 1 * 2)%nat then Z.max (-32768) (Z.min 32767 (o + i)) else o).
Proof.
  apply (process_saturates (with_contexts [(1, accumulating)] listener_start) 1 accumulating 1 [30000; -5] [10000; 7]);
    try reflexivity; try (cbn; lia); repeat constructor; lia.
Defined.

Lemma silent_check_undefined_witness :
  check_and_set_gain_dep_cal true listener_start = Undef.
Proof. exact (silent_check_undefined true listener_start eq_refl). Defined.
