(* ===== verification/CameraHints.v ===== *)
(** * Camera performance hints

    Models [power/libqti-perfd-client/camera_hints.cpp] and [client.c], the
    stand-in for Qualcomm's perf client: CamX threads keep a table of 32 boost
    requests, and a worker thread tells the power HAL what the table asks for.
    [hints] is the state behind [gLock]; [camera_hint_acquire],
    [camera_hint_release] and the worker's pass are its critical sections, and the
    functions of [client.c] are the exported calls.  Times are nanoseconds of the
    monotonic clock (an [int64_t] that would take centuries to overflow).

    The power HAL is behind the interface [PowerHal], with the behaviour the
    source relies on as [PowerHalLaws]: a call with a positive duration only ever
    extends a boost, one with -1 ends it.  The calls are one-way: [send] puts them on their way
    in order, and they arrive later, or never if the power HAL dies. *)

From S2P Require Import Prelude.

(** ** Constants and data *)

Definition kHintCameraOpen : Z := 0x1337.
Definition kHintCameraClose : Z := 0x1338.
Definition kHintCameraSnapshot : Z := 0x1339.
Definition kMaxTimedMs : Z := 5000.
Definition kMaxHoldMs : Z := 2000.
Definition kFirstHandle : Z := 0x10000.
Definition kMaxRequests : nat := 32.
Definition INT_MAX : Z := INT32_MAX.

Inductive BoostIndex := kLaunch | kShot.

#[global] Instance BoostIndex_eq_dec : EqDecision BoostIndex.
Proof. solve_decision. Defined.

Record Request := mkRequest { handle : Z; boost : BoostIndex; deadline_ns : Z }.
Record Action := mkAction { a_boost : BoostIndex; duration_ms : Z }.

(** An array with an entry for each boost. *)
Record per_boost := mkPer { launch : Z; shot : Z }.
Definition at_ (p : per_boost) (b : BoostIndex) : Z :=
  match b with kLaunch => launch p | kShot => shot p end.
Definition set_at (b : BoostIndex) (v : Z) (p : per_boost) : per_boost :=
  match b with kLaunch => mkPer v (shot p) | kShot => mkPer (launch p) v end.

(** [gWorkerOnce] and [gWorkerRunning]. *)
Inductive worker_state := NotStarted | Running | NoThread.

Record hints := mkHints {
  gRequests : list Request;
  gSentDeadline : per_boost;
  gDirty : bool;
  gNextHandle : Z;
  gWorker : worker_state;
}.

Definition free_request : Request := mkRequest 0 kLaunch 0.
Definition hints_start : hints :=
  mkHints (replicate kMaxRequests free_request) (mkPer 0 0) false kFirstHandle NotStarted.

Definition with_requests (rs : list Request) (st : hints) : hints :=
  mkHints rs (gSentDeadline st) (gDirty st) (gNextHandle st) (gWorker st).
Definition with_sent (p : per_boost) (st : hints) : hints :=
  mkHints (gRequests st) p (gDirty st) (gNextHandle st) (gWorker st).
Definition with_dirty (d : bool) (st : hints) : hints :=
  mkHints (gRequests st) (gSentDeadline st) d (gNextHandle st) (gWorker st).
Definition with_next (n : Z) (st : hints) : hints :=
  mkHints (gRequests st) (gSentDeadline st) (gDirty st) n (gWorker st).
Definition with_worker (w : worker_state) (st : hints) : hints :=
  mkHints (gRequests st) (gSentDeadline st) (gDirty st) (gNextHandle st) w.

(** ** camera_hints.cpp *)

Definition boost_for_hint (hint : Z) : option BoostIndex :=
  if (hint =? kHintCameraOpen) || (hint =? kHintCameraClose) then Some kLaunch
  else if hint =? kHintCameraSnapshot then Some kShot
  else None.

Definition in_table (h : Z) (rs : list Request) : bool :=
  existsb (fun r => handle r =? h) rs.

Definition after_handle (h : Z) : Z := if h =? INT_MAX then kFirstHandle else h + 1.

(** The loop of [next_handle_locked], with fuel; see [next_handle_total]. *)
Fixpoint next_handle_from (fuel : nat) (rs : list Request) (next : Z) : option (Z * Z) :=
  match fuel with
  | O => None
  | S fuel =>
      let h := next in
      let next := after_handle next in
      if in_table h rs then next_handle_from fuel rs next else Some (h, next)
  end.

Definition next_handle_locked (st : hints) : option (Z * hints) :=
  '(h, next) ← next_handle_from (S kMaxRequests) (gRequests st) (gNextHandle st);
  Some (h, with_next next st).

Definition wake_worker_locked (st : hints) : hints := with_dirty true st.

Definition ms_until (deadline now : Z) : Z :=
  let ms := Z.quot (deadline - now + 999999) 1000000 in
  if ms <? 1 then 1 else i32 ms.

(** First loop of [plan_locked]: drop what is over, collect the latest deadlines. *)
Fixpoint plan_requests (now : Z) (rs : list Request) (want : per_boost) : list Request * per_boost :=
  match rs with
  | [] => ([], want)
  | r :: rs =>
      if handle r =? 0 then
        let '(rs', w) := plan_requests now rs want in (r :: rs', w)
      else if deadline_ns r <=? now then
        let '(rs', w) := plan_requests now rs want in
        (mkRequest 0 (boost r) (deadline_ns r) :: rs', w)
      else
        let want := if at_ want (boost r) <? deadline_ns r
                    then set_at (boost r) (deadline_ns r) want else want in
        let '(rs', w) := plan_requests now rs want in (r :: rs', w)
  end.

(** One turn of its second loop: the calls for boost [b], and what they tell. *)
Definition plan_boost (now : Z) (want sent : per_boost) (b : BoostIndex) : list Action * per_boost :=
  let running := now <? at_ sent b in
  if at_ want b =? 0 then
    ((if running then [mkAction b (-1)] else []), set_at b 0 sent)
  else if running && (at_ want b =? at_ sent b) then ([], sent)
  else ((if running && (at_ want b <? at_ sent b) then [mkAction b (-1)] else [])
          ++ [mkAction b (ms_until (at_ want b) now)],
        set_at b (at_ want b) sent).

Definition plan_locked (now : Z) (st : hints) : list Action * hints :=
  let '(rs, want) := plan_requests now (gRequests st) (mkPer 0 0) in
  let '(out0, sent0) := plan_boost now want (gSentDeadline st) kLaunch in
  let '(out1, sent1) := plan_boost now want sent0 kShot in
  (out0 ++ out1, with_sent sent1 (with_requests rs st)).

(** One turn of [worker_main]: the worker finds the table changed, plans, calls
    the power HAL without the lock ([ok]: [send] returned true) and takes the lock
    again.  The requests may change while it is unlocked; [worker_plan] and
    [worker_done] are the two critical sections. *)
Definition worker_plan (now : Z) (st : hints) : option (list Action * hints) :=
  if negb (gDirty st) then None else
  Some (plan_locked now (with_dirty false st)).

Definition worker_done (ok : bool) (failures : Z) (st : hints) : Z * hints :=
  if ok then (0, st) else
  let st := with_sent (mkPer 0 0) st in
  (failures + 1, if failures + 1 =? 1 then with_dirty true st else st).

(** [pthread_create] returns [rc]. *)
Definition start_worker (rc : Z) (st : hints) : hints :=
  if negb (rc =? 0) then with_worker NoThread st else with_worker Running st.

Definition pthread_once_worker (rc : Z) (st : hints) : hints :=
  match gWorker st with NotStarted => start_worker rc st | _ => st end.

Fixpoint release_in (h : Z) (rs : list Request) : option (list Request) :=
  match rs with
  | [] => None
  | r :: rs =>
      if handle r =? h then Some (mkRequest 0 (boost r) (deadline_ns r) :: rs)
      else rs' ← release_in h rs; Some (r :: rs')
  end.

Definition camera_hint_release (h : Z) (st : hints) : Z * hints :=
  if h <? kFirstHandle then (0, st) else
  match release_in h (gRequests st) with
  | None => (0, st)
  | Some rs => (1, wake_worker_locked (with_requests rs st))
  end.

(** The scan of [camera_hint_acquire]: expired requests are freed; the index of
    the caller's request and of the first free slot. *)
Definition expire (now : Z) (r : Request) : Request :=
  if negb (handle r =? 0) && (deadline_ns r <=? now) then mkRequest 0 (boost r) (deadline_ns r) else r.

Fixpoint scan (h now : Z) (rs : list Request) (i : nat) (slot free_slot : option nat)
    : list Request * option nat * option nat :=
  match rs with
  | [] => ([], slot, free_slot)
  | r :: rs =>
      let r := expire now r in
      let '(slot, free_slot) :=
        if negb (handle r =? 0) && (handle r =? h) then (Some i, free_slot)
        else if (handle r =? 0) && bool_decide (free_slot = None) then (slot, Some i)
        else (slot, free_slot) in
      let '(rs', s, f) := scan h now rs (S i) slot free_slot in
      (r :: rs', s, f)
  end.

Definition request_ms (duration : Z) : Z :=
  if 0 <? duration then (if duration <? kMaxTimedMs then duration else kMaxTimedMs) else kMaxHoldMs.

(** Fill a slot: the request's handle, its boost and deadline. *)
Definition fill (i : nat) (h : Z) (b : BoostIndex) (deadline : Z) (st : hints) : hints :=
  with_requests (<[i := mkRequest h b deadline]> (gRequests st)) st.

Definition camera_hint_acquire (rc now h hint duration : Z) (st : hints) : option (Z * hints) :=
  match boost_for_hint hint with
  | None => Some (0, (camera_hint_release h st).2)
  | Some b =>
      let st := pthread_once_worker rc st in
      match gWorker st with
      | Running =>
          let ms := request_ms duration in
          let '(rs, slot, free_slot) := scan h now (gRequests st) 0 None None in
          let st := with_requests rs st in
          match slot, free_slot with
          | Some i, _ =>
              r ← gRequests st !! i;
              Some (handle r, wake_worker_locked (fill i (handle r) b (now + ms * 1000000) st))
          | None, Some i =>
              '(h', st) ← next_handle_locked st;
              Some (h', wake_worker_locked (fill i h' b (now + ms * 1000000) st))
          | None, None => Some (0, st)
          end
      | _ => Some (0, st)
      end
  end.

(** ** client.c *)

Definition STUB_HANDLE : Z := 1.
Definition handle_or_stub (h : Z) : Z := if 0 <? h then h else STUB_HANDLE.

Definition perf_lock_acq (h : Z) : Z := handle_or_stub h.
Definition perf_lock_rel (h : Z) (st : hints) : Z * hints := (0, (camera_hint_release h st).2).
Definition perf_lock_acq_rel (h : Z) : Z := handle_or_stub h.
Definition perf_lock_use_profile (h : Z) : Z := handle_or_stub h.
Definition perf_hint (rc now hint duration : Z) (st : hints) : option (Z * hints) :=
  '(forwarded, st) ← camera_hint_acquire rc now 0 hint duration st;
  Some (if 0 <? forwarded then forwarded else STUB_HANDLE, st).
Definition perf_hint_renew (rc now h hint duration : Z) (st : hints) : option (Z * hints) :=
  '(forwarded, st) ← camera_hint_acquire rc now h hint duration st;
  Some (if 0 <? forwarded then forwarded else handle_or_stub h, st).
Definition perf_hint_acq_rel (h : Z) : Z := handle_or_stub h.
Definition perf_hint_acq_rel_offload (h : Z) : Z := handle_or_stub h.
Definition perf_hint_offload : Z := STUB_HANDLE.
Definition perf_lock_rel_offload : Z := 0.
Definition perf_get_feedback : Z := -1.
Definition perf_get_feedback_extn : Z := -1.

(** ** The request table *)

Definition handle_range (h : Z) : Prop := kFirstHandle <= h <= INT_MAX.

(** Handles in use are in range and distinct. *)
Record table_ok (rs : list Request) : Prop := mkTableOk {
  tab_length : length rs = kMaxRequests;
  tab_range : forall i r, rs !! i = Some r -> handle r <> 0 -> handle_range (handle r);
  tab_distinct : forall i j r r', rs !! i = Some r -> rs !! j = Some r' ->
    handle r = handle r' -> handle r <> 0 -> i = j;
}.

Record hints_ok (st : hints) : Prop := mkHintsOk {
  ok_table : table_ok (gRequests st);
  ok_next : handle_range (gNextHandle st);
}.

(** *** New handles *)

Definition handle_count : Z := INT_MAX - kFirstHandle + 1.

(** The [k]-th candidate after [h]. *)
Definition candidate (h k : Z) : Z := kFirstHandle + (h - kFirstHandle + k) mod handle_count.

Lemma candidate_range h k : handle_range (candidate h k).
Proof.
  unfold handle_range, candidate, handle_count, INT_MAX, INT32_MAX, kFirstHandle.
  pose proof (Z.mod_pos_bound (h - 65536 + k) (2147483647 - 65536 + 1) eq_refl). lia.
Qed.

Lemma candidate_0 h : handle_range h -> candidate h 0 = h.
Proof.
  unfold handle_range, candidate, handle_count, INT_MAX, INT32_MAX, kFirstHandle. intros Hh.
  rewrite Z.mod_small; lia.
Qed.

Lemma candidate_next h k : after_handle (candidate h k) = candidate h (k + 1).
Proof.
  unfold after_handle, candidate, handle_count, INT_MAX, INT32_MAX, kFirstHandle.
  destruct (_ =? _) eqn:E; boolprop; lia.
Qed.

Lemma candidate_inj h k k' :
  0 <= k <= 32 -> 0 <= k' <= 32 -> candidate h k = candidate h k' -> k = k'.
Proof. unfold candidate, handle_count, INT_MAX, INT32_MAX, kFirstHandle. lia. Qed.

Lemma in_table_true h rs : in_table h rs = true <-> h ∈ (handle <$> rs).
Proof.
  unfold in_table. rewrite existsb_exists, list_elem_of_fmap. split.
  - intros (r & Hin & E%Z.eqb_eq). exists r. split; [auto | now apply list_elem_of_In].
  - intros (r & -> & Hin). exists r. split; [now apply list_elem_of_In | apply Z.eqb_refl].
Qed.

Lemma next_handle_none h0 fuel rs k :
  next_handle_from fuel rs (candidate h0 k) = None ->
  forall j, (j < fuel)%nat -> in_table (candidate h0 (k + Z.of_nat j)) rs = true.
Proof.
  revert k. induction fuel as [|fuel IH]; intros k Hn j Hj; [lia|]. cbn [next_handle_from] in Hn.
  destruct (in_table _ rs) eqn:E; [|discriminate]. rewrite candidate_next in Hn.
  destruct j as [|j]; [now rewrite Z.add_0_r|].
  replace (k + Z.of_nat (S j)) with (k + 1 + Z.of_nat j) by lia. apply IH; [exact Hn | lia].
Qed.

Lemma next_handle_some h0 fuel rs k h n :
  next_handle_from fuel rs (candidate h0 k) = Some (h, n) ->
  in_table h rs = false /\ handle_range h /\ handle_range n.
Proof.
  revert k. induction fuel as [|fuel IH]; intros k Hn; cbn [next_handle_from] in Hn; [discriminate|].
  cbv zeta in Hn. rewrite candidate_next in Hn. destruct (in_table (candidate h0 k) rs) eqn:E; [eauto|].
  injection Hn as <- <-. auto using candidate_range.
Qed.

(** The search ends: of 33 different candidates at most 32 are in the table. *)
Lemma next_handle_total rs h0 :
  length rs = kMaxRequests -> handle_range h0 ->
  exists h n, next_handle_from (S kMaxRequests) rs h0 = Some (h, n) /\
    in_table h rs = false /\ handle_range h /\ handle_range n.
Proof.
  intros Hl Hh. rewrite <- (candidate_0 h0 Hh).
  destruct (next_handle_from _ rs (candidate h0 0)) as [[h n]|] eqn:E.
  { exists h, n. split; [reflexivity|]. eapply next_handle_some; eauto. }
  exfalso. pose proof (next_handle_none h0 _ rs 0 E) as Hall.
  set (cs := (fun j => candidate h0 (Z.of_nat j)) <$> seq 0 33).
  assert (NoDup cs) as Hnd.
  { apply NoDup_fmap_2_strong; [|apply NoDup_seq]. intros x y Hx%elem_of_seq Hy%elem_of_seq Exy.
    apply candidate_inj in Exy; lia. }
  assert (cs ⊆ (handle <$> rs)) as Hsub.
  { intros c (j & -> & Hj%elem_of_seq)%list_elem_of_fmap. apply in_table_true.
    rewrite <- (Z.add_0_l (Z.of_nat j)). apply Hall. unfold kMaxRequests. lia. }
  pose proof (submseteq_length _ _ (NoDup_submseteq _ _ Hnd Hsub)) as Hlen.
  unfold cs in Hlen. rewrite !length_fmap, length_seq, Hl in Hlen. unfold kMaxRequests in Hlen. lia.
Qed.

(** *** The requests in force *)

Abbreviation requests := (gmap Z (BoostIndex * Z)).

(** At time [now] the table holds exactly the requests of [m], by handle. *)
Definition holds (rs : list Request) (now : Z) (m : requests) : Prop :=
  forall h b d, m !! h = Some (b, d) <->
    exists i r, rs !! i = Some r /\ handle r = h /\ h <> 0 /\ boost r = b /\ deadline_ns r = d /\ now < d.

Lemma expire_table now rs : table_ok rs -> table_ok (expire now <$> rs).
Proof.
  intros [Hl Hr Hd]. split.
  - now rewrite length_fmap.
  - intros i r (r0 & -> & E)%list_lookup_fmap_Some. unfold expire. destruct (_ && _); cbn; [done|]. eauto.
  - intros i j r r' (r0 & -> & E)%list_lookup_fmap_Some (r1 & -> & E')%list_lookup_fmap_Some. unfold expire.
    destruct (negb (handle r0 =? 0) && (deadline_ns r0 <=? now)), (negb (handle r1 =? 0) && (deadline_ns r1 <=? now));
      cbn; try done; eauto.
Qed.

Lemma expire_holds now rs m : holds rs now m -> holds (expire now <$> rs) now m.
Proof.
  intros Hh h b d. rewrite (Hh h b d). split.
  - intros (i & r & E & H1 & H2 & H3 & H4 & H5). exists i, r. split; [|auto 10].
    rewrite list_lookup_fmap, E. cbn. unfold expire.
    replace (deadline_ns r <=? now) with false by (symmetry; apply Z.leb_gt; lia).
    now rewrite andb_false_r.
  - intros (i & r & (r0 & -> & E)%list_lookup_fmap_Some & H1 & H2 & H3 & H4 & H5). exists i, r0.
    unfold expire in *. destruct (_ && _) eqn:Ex; cbn in *; [congruence | auto 10].
Qed.

(** Every request left by [expire] is in force. *)
Lemma expire_live now (rs : list Request) (i : nat) r : (expire now <$> rs) !! i = Some r -> handle r <> 0 -> now < deadline_ns r.
Proof.
  intros (r0 & -> & E)%list_lookup_fmap_Some. unfold expire. destruct (_ && _) eqn:Ex; cbn; [done|].
  intros Hn. destruct (handle r0 =? 0) eqn:E0; boolprop; [congruence|]. cbn in Ex. lia.
Qed.

(** Filling slot [i] with a request under handle [h]. *)
Lemma fill_table rs i r h b d :
  table_ok rs -> rs !! i = Some r -> handle_range h ->
  (handle r = h \/ in_table h rs = false) -> table_ok (<[i := mkRequest h b d]> rs).
Proof.
  intros [Hl Hr Hd] E Hh Hcase.
  assert (forall j r', rs !! j = Some r' -> j <> i -> handle r' <> h) as Hother.
  { intros j r' Ej Hji Ehh. destruct Hcase as [Hrh|Hnew].
    - apply Hji. eapply Hd; eauto; [congruence|].
      unfold handle_range, kFirstHandle in Hh. lia.
    - assert (in_table h rs = true) as Ht; [|congruence]. apply in_table_true. rewrite <- Ehh.
      apply list_elem_of_fmap. exists r'. split; [reflexivity | eapply list_elem_of_lookup_2; eauto]. }
  assert (forall j r', <[i := mkRequest h b d]> rs !! j = Some r' ->
    j = i /\ r' = mkRequest h b d \/ j <> i /\ rs !! j = Some r') as Hlk.
  { intros j r' Ej. apply list_lookup_insert_Some in Ej as [(-> & -> & _)|[? ?]]; auto. }
  split.
  - now rewrite length_insert.
  - intros j r' [[-> ->]|[_ Ej]]%Hlk; [auto | eauto].
  - intros j k r1 r2 [[-> ->]|[Hj Ej]]%Hlk [[-> ->]|[Hk Ek]]%Hlk Eh Hn; cbn in *; auto.
    + exfalso. eapply Hother; eauto.
    + exfalso. eapply Hother; eauto.
    + eauto.
Qed.

Lemma fill_holds rs now m i r h b d :
  table_ok rs -> holds rs now m -> rs !! i = Some r -> handle_range h -> now < d ->
  (handle r = h \/ handle r = 0 /\ in_table h rs = false) ->
  holds (<[i := mkRequest h b d]> rs) now (<[h := (b, d)]> m).
Proof.
  intros Ht Hh E Hrg Hnow Hcase h' b' d'.
  assert (h <> 0) as Hh0 by (unfold handle_range, kFirstHandle in Hrg; lia).
  assert (i < length rs)%nat as Hlt by (apply lookup_lt_is_Some; eauto).
  destruct (decide (h' = h)) as [->|Hne].
  - rewrite lookup_insert_eq. split.
    + intros [= <- <-]. exists i, (mkRequest h b d). rewrite list_lookup_insert_eq by assumption. auto 10.
    + intros (j & r' & Ej & H1 & _ & H3 & H4 & _).
      apply list_lookup_insert_Some in Ej as [(-> & <- & _)|[Hji Ej]]; [cbn in *; congruence|].
      exfalso. destruct Hcase as [Hrh|[_ Hnew]].
      * apply Hji. symmetry. eapply (tab_distinct _ Ht); eauto; congruence.
      * assert (in_table h rs = true) as Hin; [|congruence]. apply in_table_true. rewrite <- H1.
        apply list_elem_of_fmap. exists r'. split; [reflexivity | eapply list_elem_of_lookup_2; eauto].
  - rewrite lookup_insert_ne by congruence. rewrite (Hh h' b' d'). split.
    + intros (j & r' & Ej & H1 & H2 & H3). exists j, r'. rewrite list_lookup_insert_ne; [auto|].
      intros <-. assert (r' = r) as -> by congruence. destruct Hcase as [|[? _]]; congruence.
    + intros (j & r' & Ej & H1 & H2 & H3).
      apply list_lookup_insert_Some in Ej as [(-> & <- & _)|[Hji Ej]]; [cbn in *; congruence|].
      exists j, r'. auto.
Qed.

(** *** The scan of [camera_hint_acquire] *)

Lemma scan_spec h now rs i slot free_slot :
  exists slot' free',
    scan h now rs i slot free_slot = (expire now <$> rs, slot', free') /\
    match slot' with
    | Some j => slot = Some j \/ exists k r, j = (i + k)%nat /\ (expire now <$> rs) !! k = Some r /\
                  handle r = h /\ h <> 0
    | None => slot = None /\ forall k r, (expire now <$> rs) !! k = Some r -> handle r = h -> h = 0
    end /\
    match free' with
    | Some j => free_slot = Some j \/ exists k r, j = (i + k)%nat /\ (expire now <$> rs) !! k = Some r /\
                  handle r = 0
    | None => free_slot = None /\ forall k r, (expire now <$> rs) !! k = Some r -> handle r <> 0
    end.
Proof.
  revert i slot free_slot. induction rs as [|r rs IH]; intros i slot free_slot; cbn [scan fmap list_fmap].
  { exists slot, free_slot. split; [reflexivity|].
    split; [destruct slot; [auto | split; [auto | intros ? ? [=]]] |].
    destruct free_slot; [auto | split; [auto | intros ? ? [=]]]. }
  set (r' := expire now r).
  assert (exists s f, (if negb (handle r' =? 0) && (handle r' =? h) then (Some i, free_slot)
      else if (handle r' =? 0) && bool_decide (free_slot = None) then (slot, Some i)
      else (slot, free_slot)) = (s, f) /\
    (s = slot /\ (handle r' = h -> h = 0) \/ s = Some i /\ handle r' = h /\ h <> 0) /\
    (f = free_slot /\ (handle r' = 0 -> free_slot <> None) \/
     f = Some i /\ handle r' = 0)) as (s & f & -> & Hs & Hf).
  { destruct (handle r' =? 0) eqn:E0; cbn [negb andb]; boolprop.
    - destruct (bool_decide_reflect (free_slot = None)) as [->|Hn]; eexists _, _; (split; [reflexivity|]).
      + split; [left; split; [auto | congruence] | right; auto].
      + split; [left; split; [auto | congruence] | left; auto].
    - destruct (handle r' =? h) eqn:Eh; boolprop; eexists _, _; (split; [reflexivity|]).
      + split; [right; split; [auto | split; [auto | congruence]] | left; split; [auto | congruence]].
      + split; [left; split; [auto | congruence] | left; split; [auto | congruence]]. }
  destruct (IH (S i) s f) as (slot' & free' & -> & Hslot & Hfree). exists slot', free'.
  split; [reflexivity|]. split.
  - destruct slot' as [j|].
    + destruct Hslot as [->|(k & r0 & -> & Ek & Hk)].
      * destruct Hs as [[<- _]|(Hsi & Hr & Hh)]; [auto|]. injection Hsi as <-. right.
        exists 0%nat, r'. rewrite Nat.add_0_r. auto.
      * right. exists (S k), r0. rewrite Nat.add_succ_r. auto.
    + destruct Hslot as [-> Hnone]. destruct Hs as [[<- Hr]|(? & _)]; [|discriminate].
      split; [reflexivity|]. intros [|k] r0 Ek; [injection Ek as <-; auto | eauto].
  - destruct free' as [j|].
    + destruct Hfree as [->|(k & r0 & -> & Ek & Hk)].
      * destruct Hf as [[<- _]|(Hfi & Hr)]; [auto|]. injection Hfi as <-. right.
        exists 0%nat, r'. rewrite Nat.add_0_r. auto.
      * right. exists (S k), r0. rewrite Nat.add_succ_r. auto.
    + destruct Hfree as [-> Hnone]. destruct Hf as [[<- Hr]|(? & _)]; [|discriminate].
      split; [reflexivity|]. intros [|k] r0 Ek; [injection Ek as <-; intros Hc; now apply Hr | eauto].
Qed.

(** *** Acquire and release on the requests in force *)

Lemma request_ms_range d : 1 <= request_ms d <= kMaxTimedMs.
Proof. unfold request_ms, kMaxTimedMs, kMaxHoldMs. repeat case_match; boolprop; lia. Qed.

Lemma release_in_spec h rs :
  match release_in h rs with
  | None => in_table h rs = false
  | Some rs' => exists i r, rs !! i = Some r /\ handle r = h /\
      rs' = <[i := mkRequest 0 (boost r) (deadline_ns r)]> rs
  end.
Proof.
  induction rs as [|r rs IH]; cbn; [reflexivity|].
  destruct (handle r =? h) eqn:E; cbn; boolprop.
  - exists 0%nat, r. auto.
  - destruct (release_in h rs) as [rs'|]; cbn; [|exact IH].
    destruct IH as (i & r0 & Ei & Eh & ->). exists (S i), r0. auto.
Qed.

Lemma clear_table rs i r : table_ok rs -> rs !! i = Some r ->
  table_ok (<[i := mkRequest 0 (boost r) (deadline_ns r)]> rs).
Proof.
  intros [Hl Hr Hd] E. split.
  - now rewrite length_insert.
  - intros j r' [(-> & <- & _)|[_ Ej]]%list_lookup_insert_Some; [done | eauto].
  - intros j k r1 r2 [(-> & <- & _)|[_ Ej]]%list_lookup_insert_Some
      [(-> & <- & _)|[_ Ek]]%list_lookup_insert_Some; cbn; try done; eauto.
Qed.

Lemma clear_holds rs now m i r : table_ok rs -> holds rs now m -> rs !! i = Some r -> handle r <> 0 ->
  holds (<[i := mkRequest 0 (boost r) (deadline_ns r)]> rs) now (delete (handle r) m).
Proof.
  intros Ht Hh E Hn h b d. rewrite lookup_delete_Some, (Hh h b d). split.
  - intros [Hne (j & r' & Ej & H1 & H2 & H3)]. exists j, r'. rewrite list_lookup_insert_ne; [auto|].
    intros <-. congruence.
  - intros (j & r' & [(-> & <- & _)|[Hji Ej]]%list_lookup_insert_Some & H1 & H2 & H3); cbn in *; [congruence|].
    split; [|exists j, r'; auto]. intros <-. apply Hji. eapply (tab_distinct _ Ht); eauto; congruence.
Qed.

Lemma holds_range rs now m h v : table_ok rs -> holds rs now m -> m !! h = Some v -> handle_range h.
Proof.
  destruct v as [b d]. intros Ht Hh (i & r & E & <- & Hn & _)%Hh. now apply (tab_range _ Ht i).
Qed.

Lemma delete_unheld rs now m h : holds rs now m -> in_table h rs = false -> delete h m = m.
Proof.
  intros Hh Hn. apply delete_id. destruct (m !! h) as [[b d]|] eqn:E; [|reflexivity].
  apply Hh in E as (i & r & E & <- & _). assert (in_table (handle r) rs = true); [|congruence].
  apply in_table_true, list_elem_of_fmap. exists r. split; [reflexivity | eapply list_elem_of_lookup_2; eauto].
Qed.

Lemma release_spec h st now m :
  hints_ok st -> holds (gRequests st) now m ->
  exists res st', camera_hint_release h st = (res, st') /\ hints_ok st' /\
    holds (gRequests st') now (delete h m) /\ (is_Some (m !! h) -> res = 1 /\ gDirty st' = true) /\
    gWorker st' = gWorker st /\ gSentDeadline st' = gSentDeadline st /\
    (res = 0 -> st' = st).
Proof.
  intros [Ht Hx] Hh. unfold camera_hint_release. destruct (h <? kFirstHandle) eqn:El.
  { exists 0, st. assert (m !! h = None) as Em.
    { destruct (m !! h) as [v|] eqn:E; [|reflexivity]. apply (holds_range _ _ _ _ _ Ht Hh) in E.
      unfold handle_range in E. boolprop. lia. }
    rewrite delete_id by assumption. split; [reflexivity|]. split; [now split|].
    split; [exact Hh|]. split; [rewrite Em; intros [? [=]] | auto]. }
  pose proof (release_in_spec h (gRequests st)) as Hr.
  destruct (release_in h (gRequests st)) as [rs'|].
  - destruct Hr as (i & r & E & <- & ->). eexists _, _. split; [reflexivity|].
    assert (handle r <> 0) by (unfold kFirstHandle in El; boolprop; lia).
    split; [split; [now apply clear_table | exact Hx]|].
    split; [now apply clear_holds|]. repeat split; intros; discriminate.
  - exists 0, st. split; [reflexivity|]. split; [now split|].
    rewrite (delete_unheld _ _ _ _ Hh Hr). split; [exact Hh|]. split; [|auto].
    intros Hs. exfalso. pose proof (delete_unheld _ _ _ _ Hh Hr) as Ed.
    rewrite <- Ed, lookup_delete_eq in Hs. now destruct Hs.
Qed.

(** Every slot is taken. *)
Definition table_full (now : Z) (rs : list Request) : Prop :=
  forall i r, rs !! i = Some r -> handle r <> 0 /\ now < deadline_ns r.

(** The contract of camera_hints.h for an acquire at time [now]. *)
Definition acquire_result (now h hint duration : Z) (m : requests) (res : Z) (st' : hints) : Prop :=
  match boost_for_hint hint with
  | None => res = 0 /\ holds (gRequests st') now (delete h m)
  | Some b =>
      (res = 0 /\ holds (gRequests st') now m /\
         (gWorker st' = NoThread \/ m !! h = None /\ table_full now (gRequests st'))) \/
      (handle_range res /\ gDirty st' = true /\ gWorker st' = Running /\
         holds (gRequests st') now (<[res := (b, now + request_ms duration * 1000000)]> m) /\
         match m !! h with Some _ => res = h | None => m !! res = None end)
  end.

Lemma once_fields rc st : gRequests (pthread_once_worker rc st) = gRequests st /\
  gSentDeadline (pthread_once_worker rc st) = gSentDeadline st /\
  gNextHandle (pthread_once_worker rc st) = gNextHandle st /\
  (gWorker (pthread_once_worker rc st) = Running \/ gWorker (pthread_once_worker rc st) = NoThread).
Proof. unfold pthread_once_worker, start_worker. destruct (gWorker st) eqn:E; [case_match| |]; auto. Qed.

Lemma slot_held rs now m k r h :
  holds rs now m -> (forall i r, rs !! i = Some r -> handle r <> 0 -> now < deadline_ns r) ->
  rs !! k = Some r -> handle r = h -> h <> 0 -> is_Some (m !! h).
Proof.
  intros Hh Hl E <- Hn. exists (boost r, deadline_ns r). apply Hh. exists k, r. eauto 10.
Qed.

Lemma acquire_spec rc now h hint duration st m :
  hints_ok st -> holds (gRequests st) now m ->
  exists res st', camera_hint_acquire rc now h hint duration st = Some (res, st') /\
    hints_ok st' /\ gSentDeadline st' = gSentDeadline st /\
    gWorker st' = (if boost_for_hint hint is Some _ then gWorker (pthread_once_worker rc st) else gWorker st) /\
    acquire_result now h hint duration m res st'.
Proof.
  intros Hok Hh. unfold camera_hint_acquire, acquire_result.
  destruct (boost_for_hint hint) as [b|].
  2:{ destruct (release_spec h st now m Hok Hh) as (res & st' & -> & Hok' & Hh' & _ & Hw & Hs & _).
      exists 0, st'. auto 10. }
  destruct (once_fields rc st) as (Er & Es & En & Hw).
  set (st1 := pthread_once_worker rc st) in *. destruct Hok as [Ht Hx].
  rewrite <- Er in Ht, Hh. rewrite <- En in Hx.
  destruct Hw as [Hw|Hw]; rewrite Hw.
  2:{ exists 0, st1. split; [reflexivity|]. split; [now split|]. split; [exact Es|]. split; [exact Hw|]. left. auto. }
  destruct (scan_spec h now (gRequests st1) 0 None None) as (slot & free & -> & Hslot & Hfree).
  set (rs := expire now <$> gRequests st1) in *.
  pose proof (expire_table now _ Ht) as Ht'. fold rs in Ht'.
  pose proof (expire_holds now _ _ Hh) as Hh'. fold rs in Hh'.
  pose proof (request_ms_range duration) as Hms.
  assert (forall i r, rs !! i = Some r -> handle r <> 0 -> now < deadline_ns r) as Hlive
    by (intros i r; apply expire_live).
  destruct slot as [i|].
  - destruct Hslot as [[=]|(k & r & -> & Ek & Ehr & Hn)]. cbn [Nat.add with_requests gRequests].
    rewrite Ek. cbn [mbind option_bind]. eexists _, _. split; [reflexivity|].
    assert (handle_range h) as Hrg by (rewrite <- Ehr; apply (tab_range _ Ht' k); congruence).
    rewrite Ehr. split; [split; cbn; [eapply fill_table; eauto | exact Hx]|]. split; [exact Es|]. split; [exact Hw|].
    right. split; [exact Hrg|]. split; [reflexivity|]. split; [exact Hw|]. cbn. split; [eapply fill_holds; eauto; lia|].
    destruct (slot_held rs now m k r h Hh' Hlive Ek Ehr Hn) as [v ->]. reflexivity.
  - destruct Hslot as [_ Hnone].
    assert (m !! h = None) as Em.
    { destruct (m !! h) as [[b0 d0]|] eqn:E; [|reflexivity]. apply Hh' in E as (k & r & Ek & Ehr & Hn & _).
      exfalso. eauto. }
    destruct free as [i|].
    + destruct Hfree as [[=]|(k & r & -> & Ek & Ehr)]. cbn [Nat.add].
      unfold next_handle_locked. cbn [with_requests gRequests gNextHandle].
      destruct (next_handle_total rs (gNextHandle st1) (tab_length _ Ht') Hx) as (h' & n & -> & Hnew & Hrg & Hrn).
      cbn [mbind option_bind]. eexists _, _. split; [reflexivity|].
      split; [split; cbn; [eapply fill_table; eauto | exact Hrn]|]. split; [exact Es|]. split; [exact Hw|].
      right. split; [exact Hrg|]. split; [reflexivity|]. split; [exact Hw|]. cbn. split; [eapply fill_holds; eauto; lia|].
      rewrite Em. rewrite <- (delete_unheld _ _ _ _ Hh' Hnew). apply lookup_delete_eq.
    + destruct Hfree as [_ Hfull]. eexists _, _. split; [reflexivity|].
      split; [now split|]. split; [exact Es|]. split; [exact Hw|]. left. split; [reflexivity|]. split; [exact Hh'|].
      right. split; [exact Em|]. intros i r Ei. split; [eauto|]. apply (Hlive i r Ei). eauto.
Qed.

(** ** The plan *)

(** [w] is the latest deadline the requests [m] have for boost [b], 0 if none. *)
Definition latest (m : requests) (b : BoostIndex) (w : Z) : Prop :=
  (forall h d, m !! h = Some (b, d) -> d <= w) /\ (w = 0 \/ exists h, m !! h = Some (b, w)).

Lemma at_set b b' v p : at_ (set_at b v p) b' = if decide (b = b') then v else at_ p b'.
Proof. now destruct b, b'. Qed.

Lemma plan_requests_spec now rs want :
  exists w, plan_requests now rs want = (expire now <$> rs, w) /\
    (forall b, at_ want b <= at_ w b) /\
    (forall i r, rs !! i = Some r -> handle r <> 0 -> now < deadline_ns r -> deadline_ns r <= at_ w (boost r)) /\
    (forall b, at_ w b = at_ want b \/
       exists i r, rs !! i = Some r /\ handle r <> 0 /\ now < deadline_ns r /\ boost r = b /\ deadline_ns r = at_ w b).
Proof.
  revert want. induction rs as [|r rs IH]; intros want; cbn [plan_requests fmap list_fmap].
  { exists want. repeat split; auto; [lia | intros ? ? [=]]. }
  unfold expire at 1. destruct (handle r =? 0) eqn:E0; cbn [negb andb]; boolprop.
  { destruct (IH want) as (w & -> & H1 & H2 & H3). exists w. split; [reflexivity|]. split; [exact H1|].
    split; [intros [|i] r0 Ei; [injection Ei as <-; congruence | eauto]|].
    intros b. destruct (H3 b) as [?|(i & r0 & Ei & ?)]; [auto|]. right. exists (S i), r0. auto. }
  destruct (deadline_ns r <=? now) eqn:Ed; boolprop.
  { destruct (IH want) as (w & -> & H1 & H2 & H3). exists w. split; [reflexivity|]. split; [exact H1|].
    split; [intros [|i] r0 Ei; [injection Ei as <-; lia | eauto]|].
    intros b. destruct (H3 b) as [?|(i & r0 & Ei & ?)]; [auto|]. right. exists (S i), r0. auto. }
  set (want' := if at_ want (boost r) <? deadline_ns r then _ else _).
  assert (forall b, at_ want b <= at_ want' b /\
    (at_ want' b = at_ want b \/ boost r = b /\ at_ want' b = deadline_ns r)) as Hw.
  { intros b. unfold want'. destruct (_ <? _) eqn:El; boolprop; [|split; [lia | auto]].
    rewrite at_set. destruct (decide (boost r = b)) as [<-|]; [split; [lia | auto] | split; [lia | auto]]. }
  assert (deadline_ns r <= at_ want' (boost r)) as Hr.
  { unfold want'. destruct (_ <? _) eqn:El; boolprop; [|lia]. rewrite at_set, decide_True; [lia | reflexivity]. }
  destruct (IH want') as (w & -> & H1 & H2 & H3). exists w. split; [reflexivity|].
  split; [intros b; specialize (H1 b); destruct (Hw b); lia|].
  split; [intros [|i] r0 Ei; [injection Ei as <-; intros _ _; specialize (H1 (boost r)); lia | eauto]|].
  intros b. destruct (H3 b) as [E|(i & r0 & Ei & ?)]; [|right; exists (S i), r0; auto].
  destruct (Hw b) as [_ [E'|[Eb E']]]; [left; congruence|]. right. exists 0%nat, r. repeat split; auto; congruence.
Qed.

(** The plan asks for the latest deadlines of the requests in force. *)
Lemma plan_latest now rs m :
  0 <= now -> holds rs now m ->
  exists w, plan_requests now rs (mkPer 0 0) = (expire now <$> rs, w) /\
    (forall b, latest m b (at_ w b)) /\ (forall b, at_ w b <> 0 -> now < at_ w b).
Proof.
  intros Hnow Hh. destruct (plan_requests_spec now rs (mkPer 0 0)) as (w & E & H1 & H2 & H3).
  exists w. split; [exact E|].
  assert (forall b, at_ (mkPer 0 0) b = 0) as Hz by now intros [].
  split; intros b; [split|].
  - intros h d (i & r & Ei & Hr & Hn & <- & <- & Hl)%Hh. apply (H2 i); congruence.
  - destruct (H3 b) as [Eb|(i & r & Ei & Hn & Hl & Eb & Ed)]; [left; rewrite Eb; apply Hz | right].
    exists (handle r). apply Hh. exists i, r. repeat split; auto; congruence.
  - intros Hw. destruct (H3 b) as [Eb|(i & r & Ei & Hn & Hl & Eb & Ed)]; [|lia].
    rewrite Hz in Eb. congruence.
Qed.

(** ** The power HAL *)

Class PowerHal := {
  hal : Type;
  setBoost : BoostIndex -> Z -> Z -> hal -> hal;   (* boost, duration in ms, time *)
  ends_at : hal -> BoostIndex -> Z;                (* when the boost ends on its own *)
}.

(** libperfmgr: a duration extends a running boost, -1 ends it. *)
Class PowerHalLaws (P : PowerHal) : Prop := {
  hal_extend : forall b d now h, 0 < d ->
    ends_at (setBoost b d now h) b = Z.max (ends_at h b) (now + d * 1000000);
  hal_cancel : forall b now h, ends_at (setBoost b (-1) now h) b <= now;
  hal_other : forall b b' d now h, b <> b' -> ends_at (setBoost b d now h) b' = ends_at h b';
}.

(** Calls that took effect, in order, each with the time it arrived. *)
Definition hal_apply `{PowerHal} (calls : list (Z * Action)) (h : hal) : hal :=
  foldl (fun h c => setBoost (a_boost c.2) (duration_ms c.2) c.1 h) h calls.

(** The worker's locals: whether it holds the power HAL's interface, whether it has
    warned, and its failure count. *)
Record sender := mkSender { power : bool; warned : bool; failures : Z }.

(** What a call of [setBoost] meets: whether its status is ok, and,
    if it is not, whether it went out all the same. *)
Record reply := mkReply { r_ok : bool; r_effect : bool }.

(** The calls are one-way: [send] is done when they are on their way, which are the third part of the result. *)
Fixpoint send_calls (replies : nat -> reply) (i : nat) (acts : list Action) (s : sender) : bool * sender * list Action :=
  match acts with
  | [] => (true, mkSender (power s) false (failures s), [])
  | a :: acts =>
      let r := replies i in
      if r_ok r then let '(ok, s, calls) := send_calls replies (S i) acts s in (ok, s, a :: calls)
      else (false, mkSender false true (failures s), if r_effect r then [a] else [])
  end.

(** [found]: the service manager knows the power HAL. *)
Definition send (found : bool) (replies : nat -> reply) (acts : list Action) (s : sender) : bool * sender * list Action :=
  if negb (power s) && negb found then (false, mkSender false true (failures s), []) else
  send_calls replies 0 acts (mkSender true (warned s) (failures s)).

(** [worker_main] after it unlocked: nothing to send is as good as sent. *)
Definition worker_send (found : bool) (replies : nat -> reply) (acts : list Action) (s : sender)
    : bool * sender * list Action :=
  match acts with [] => (true, s, []) | _ => send found replies acts s end.

Lemma ms_until_spec deadline now :
  now < deadline <= now + kMaxTimedMs * 1000000 ->
  0 < ms_until deadline now <= kMaxTimedMs /\
  deadline <= now + ms_until deadline now * 1000000 <= deadline + 999999.
Proof.
  unfold ms_until, kMaxTimedMs. intros Hd.
  rewrite Z.quot_div_nonneg by lia.
  destruct (_ <? 1) eqn:E; boolprop; [lia|]. rewrite i32_small by range. lia.
Qed.

Definition MAX_NS : Z := kMaxTimedMs * 1000000.

(** All the calls go out if [send] succeeds, some of them if it does not. *)
Lemma send_calls_out replies i acts s ok s' calls :
  send_calls replies i acts s = (ok, s', calls) ->
  (ok = true -> calls = acts) /\ Forall (fun a => a ∈ acts) calls /\ failures s' = failures s.
Proof.
  revert i ok s' calls. induction acts as [|a acts IH]; intros i ok s' calls; cbn.
  { intros [= <- <- <-]. auto. }
  destruct (r_ok (replies i)).
  - destruct (send_calls replies (S i) acts s) as [[ok1 s1] calls1] eqn:E. intros [= <- <- <-].
    destruct (IH _ _ _ _ E) as (Hok & Hc & Hf). split; [intros Ht; f_equal; auto | split; [|exact Hf]].
    constructor; [left|]. eapply Forall_impl; [exact Hc|]. intros c Hin. now right.
  - intros [= <- <- <-]. split; [discriminate | split; [|reflexivity]].
    destruct (r_effect _); repeat constructor.
Qed.

Lemma worker_send_out found replies acts s ok s' calls :
  worker_send found replies acts s = (ok, s', calls) ->
  (ok = true -> calls = acts) /\ Forall (fun a => a ∈ acts) calls /\ failures s' = failures s.
Proof.
  unfold worker_send, send. destruct acts as [|a acts].
  { intros [= <- <- <-]. auto. }
  destruct (_ && _); [|intros E; exact (send_calls_out _ _ _ _ _ _ _ E)].
  intros [= <- <- <-]. split; [discriminate | auto].
Qed.

Section Hal.
Context `{P : PowerHal} {L : PowerHalLaws P}.

(** A call arrives at the power HAL at most [D] after it was planned. *)
Variable D : Z.

(** Durations are rounded up to a millisecond and start when the call arrives. *)
Definition slack : Z := 999999 + D.

(** The power HAL ends a boost when it was last told to, give or take the slack;
    [s] is [gSentDeadline], 0 or in the past if nothing should run. *)
Definition in_line (now s e : Z) : Prop := e <= Z.max now s + slack /\ (now < s -> s <= e).

Definition in_time (now : Z) (calls : list (Z * Action)) : Prop :=
  Forall (fun c => now <= c.1 <= now + D) calls.

Lemma in_line_later now now' s e : now <= now' -> in_line now s e -> in_line now' s e.
Proof. unfold in_line, slack. lia. Qed.

Lemma apply_other calls h b :
  Forall (fun a => a_boost a <> b) calls.*2 -> ends_at (hal_apply calls h) b = ends_at h b.
Proof.
  revert h. induction calls as [|c calls IH]; intros h Ha; [reflexivity|]. inversion_clear Ha.
  cbn. fold (hal_apply calls (setBoost (a_boost c.2) (duration_ms c.2) c.1 h)).
  rewrite IH by assumption. now apply hal_other.
Qed.

Lemma apply_app l1 l2 h : hal_apply (l1 ++ l2) h = hal_apply l2 (hal_apply l1 h).
Proof. apply foldl_app. Qed.

(** A cancel, if there is one, arrives in time. *)
Lemma apply_cancel now b (c : bool) calls h :
  in_time now calls -> calls.*2 = (if c then [mkAction b (-1)] else []) ->
  ends_at (hal_apply calls h) b <= if c then now + D else ends_at h b.
Proof.
  intros Ht E. destruct c, calls as [|[t a] [|]]; try discriminate; cbn in *; [|lia].
  injection E as ->. inversion_clear Ht. cbn in *.
  pose proof (hal_cancel b t h). lia.
Qed.

(** What a boost's end should be after a pass planned at [now] that wants [w]. *)
Definition on_target (now w e : Z) : Prop :=
  (w = 0 -> e <= now + slack) /\ (w <> 0 -> w <= e <= w + slack).

(** One boost: the planned calls bring the power HAL in line with the wanted
    deadline. *)
Lemma plan_boost_spec now calls want sent b h acts sent' :
  in_time now calls -> calls.*2 = acts ->
  (at_ want b = 0 \/ now < at_ want b <= now + MAX_NS) -> 0 <= now ->
  in_line now (at_ sent b) (ends_at h b) ->
  plan_boost now want sent b = (acts, sent') ->
  on_target now (at_ want b) (ends_at (hal_apply calls h) b).
Proof.
  intros Ht Ec Hw Hnow [He1 He2] Hp. unfold on_target, plan_boost, slack, MAX_NS in *.
  destruct (at_ want b =? 0) eqn:E0; boolprop.
  { injection Hp as Hp <-. rewrite <- Hp in Ec.
    pose proof (apply_cancel now b _ calls h Ht Ec) as Hc. split; [intros _|congruence]. destruct (now <? at_ sent b) eqn:Er; boolprop; lia. }
  destruct Hw as [|Hw]; [congruence|].
  destruct (ms_until_spec (at_ want b) now Hw) as [Hms Hend].
  destruct ((now <? at_ sent b) && (at_ want b =? at_ sent b)) eqn:E1; boolprop.
  { injection Hp as <- <-. apply fmap_nil_inv in Ec as ->. cbn. lia. }
  injection Hp as Hp <-. split; [congruence|]. intros _. rewrite <- Hp in Ec.
  apply fmap_app_inv in Ec as (c1 & c2 & E1' & E2' & ->). symmetry in E1', E2'.
  apply Forall_app in Ht as [Ht1 Ht2]. pose proof (apply_cancel now b _ c1 h Ht1 E1') as Hc.
  rewrite apply_app. destruct c2 as [|[t a] [|]]; try discriminate. injection E2' as ->.
  inversion_clear Ht2. cbn in *. rewrite hal_extend by lia.
  destruct (now <? at_ sent b) eqn:Er; cbn in *; boolprop; [|lia].
  destruct (at_ want b <? at_ sent b) eqn:El; boolprop; lia.
Qed.

Lemma plan_boost_sent now want sent b acts sent' :
  plan_boost now want sent b = (acts, sent') -> at_ sent' b = at_ want b.
Proof.
  unfold plan_boost. destruct (at_ want b =? 0) eqn:Ez; [|destruct (_ && _) eqn:Eq]; intros [= _ <-]; boolprop.
  - now rewrite at_set, decide_True.
  - congruence.
  - now rewrite at_set, decide_True.
Qed.

Lemma plan_boost_other now want sent b b' acts sent' :
  b <> b' -> plan_boost now want sent b = (acts, sent') ->
  at_ sent' b' = at_ sent b' /\ Forall (fun a => a_boost a <> b') acts.
Proof.
  intros Hb. unfold plan_boost. destruct (_ =? 0); [|destruct (_ && _)]; intros [= <- <-].
  - rewrite at_set, decide_False by assumption. split; [reflexivity|]. case_match; repeat constructor; auto.
  - auto.
  - rewrite at_set, decide_False by assumption. split; [reflexivity|].
    apply Forall_app. split; [case_match|]; repeat constructor; auto.
Qed.

(** A whole pass of the worker: the wanted deadlines [w] are told, and meeting them
    is what the planned calls do. *)
Lemma plan_locked_spec now st m h acts st' :
  0 <= now -> holds (gRequests st) now m ->
  (forall k b d, m !! k = Some (b, d) -> d <= now + MAX_NS) ->
  (forall b, in_line now (at_ (gSentDeadline st) b) (ends_at h b)) ->
  plan_locked now st = (acts, st') ->
  gRequests st' = expire now <$> gRequests st /\
  forall b, latest m b (at_ (gSentDeadline st') b) /\
    forall calls, in_time now calls -> calls.*2 = acts ->
      on_target now (at_ (gSentDeadline st') b) (ends_at (hal_apply calls h) b).
Proof.
  intros Hnow Hh Hmax Hline Hp. unfold plan_locked in Hp.
  destruct (plan_latest now (gRequests st) m Hnow Hh) as (w & Ew & Hlat & Hpos). rewrite Ew in Hp.
  destruct (plan_boost now w (gSentDeadline st) kLaunch) as [out0 sent0] eqn:E0.
  destruct (plan_boost now w sent0 kShot) as [out1 sent1] eqn:E1. injection Hp as <- <-.
  assert (forall b, at_ w b = 0 \/ now < at_ w b <= now + MAX_NS) as Hw.
  { intros b. destruct (Z.eq_dec (at_ w b) 0) as [|Hn]; [auto|]. right. split; [auto|].
    destruct (Hlat b) as [_ [?|[k Hk]]]; [congruence | eauto]. }
  destruct (plan_boost_other _ _ _ kLaunch kShot _ _ ltac:(discriminate) E0) as [Es0 Ho0].
  destruct (plan_boost_other _ _ _ kShot kLaunch _ _ ltac:(discriminate) E1) as [Es1 Ho1].
  split; [reflexivity|]. cbn [with_sent gSentDeadline].
  assert (forall b, at_ sent1 b = at_ w b) as Es.
  { intros []; [rewrite Es1|]; eapply plan_boost_sent; eauto. }
  intros b. rewrite Es. split; [apply Hlat|]. intros calls Ht Ec.
  apply fmap_app_inv in Ec as (c0 & c1 & Ec0 & Ec1 & ->). symmetry in Ec0, Ec1.
  apply Forall_app in Ht as [Ht0 Ht1]. rewrite apply_app. destruct b.
  - pose proof (plan_boost_spec now c0 w _ kLaunch h _ _ Ht0 Ec0 (Hw kLaunch) Hnow (Hline kLaunch) E0) as Hon.
    rewrite (apply_other c1 _ kLaunch) by now rewrite Ec1. exact Hon.
  - assert (in_line now (at_ sent0 kShot) (ends_at (hal_apply c0 h) kShot)) as Hl1.
    { rewrite (apply_other c0 h kShot) by now rewrite Ec0. rewrite Es0. apply Hline. }
    apply (plan_boost_spec now c1 w _ kShot _ _ _ Ht1 Ec1 (Hw kShot) Hnow Hl1 E1).
Qed.

End Hal.

(** ** The library at run time *)

(** *** The requests of a table *)

Definition live (now : Z) (r : Request) : Prop := handle r <> 0 /\ now < deadline_ns r.
#[global] Instance live_dec now r : Decision (live now r).
Proof. apply _. Defined.

Lemma live_handles_distinct now rs :
  (forall (i j : nat) r r', rs !! i = Some r -> rs !! j = Some r' -> handle r = handle r' -> handle r <> 0 -> i = j) ->
  NoDup (handle <$> filter (live now) rs).
Proof.
  induction rs as [|r rs IH]; intros Hd; [constructor|].
  assert (NoDup (handle <$> filter (live now) rs)) as IH'.
  { apply IH. intros i j r1 r2 H1 H2 He Hn. injection (Hd (S i) (S j) r1 r2 H1 H2 He Hn) as E. exact E. }
  rewrite filter_cons. destruct (decide (live now r)) as [[Hn _]|]; [|exact IH'].
  cbn. constructor; [|exact IH'].
  intros (r' & E & [_ (j & Ej)%list_elem_of_lookup]%list_elem_of_filter)%list_elem_of_fmap.
  discriminate (Hd 0%nat (S j) r r' eq_refl Ej E Hn).
Qed.

(** The requests in force, as a map. *)
Definition in_force (now : Z) (rs : list Request) : requests :=
  list_to_map ((fun r => (handle r, (boost r, deadline_ns r))) <$> filter (live now) rs).

Lemma holds_in_force now rs : table_ok rs -> holds rs now (in_force now rs).
Proof.
  intros Ht h b d. unfold in_force. rewrite <- elem_of_list_to_map.
  2:{ rewrite <- list_fmap_compose. apply live_handles_distinct. exact (tab_distinct _ Ht). }
  rewrite list_elem_of_fmap. split.
  - intros (r & [= -> -> ->] & [[Hn Hl] (i & Ei)%list_elem_of_lookup]%list_elem_of_filter). eauto 10.
  - intros (i & r & Ei & <- & Hn & <- & <- & Hl). exists r. split; [reflexivity|].
    apply list_elem_of_filter. split; [now split | eapply list_elem_of_lookup_2; eauto].
Qed.

Lemma holds_exists now rs : table_ok rs -> exists m, holds rs now m.
Proof. eauto using holds_in_force. Qed.

Lemma start_free (i : nat) r : gRequests hints_start !! i = Some r -> handle r = 0.
Proof. now intros [-> _]%lookup_replicate. Qed.

Lemma hints_start_ok : hints_ok hints_start.
Proof.
  split; [split|]; [reflexivity | | | unfold handle_range; cbn; unfold kFirstHandle, INT_MAX, INT32_MAX; lia].
  - intros i r E Hn. destruct Hn. exact (start_free i r E).
  - intros i j r r' E _ _ Hn. destruct Hn. exact (start_free i r E).
Qed.

Section World.
Context `{P : PowerHal} {L : PowerHalLaws P}.
Variable D : Z.
Hypothesis HD : 0 <= D.

(** Where the worker is: waiting on [gWake] or about to, with a plan of the given time
    to send, or with [send]'s answer and about to lock. *)
Inductive phase :=
| Waiting
| Planned (acts : list Action) (tp : Z)
| Sent (ok : bool).

(** The state behind the lock, the power HAL, the worker's locals and place, the time,
    and the calls on their way to the power HAL, each with the time it was planned. *)
Record world := mkWorld {
  w_hints : hints;
  w_hal : hal;
  w_sender : sender;
  w_clock : Z;
  w_worker : phase;
  w_flight : list (Action * Z);
}.

(** CamX threads acquire (with a time read before they took the lock) and release; the
    worker plans, sends, and takes the lock again; a one-way call arrives, in the order
    of the calls, or is lost.  The label says whether all went well: no call failed or
    was lost, and none arrived later than [D] after it was planned. *)
Inductive wstep : bool -> world -> world -> Prop :=
| W_acquire w rc now c h hint duration res st' :
    0 <= now <= c -> w_clock w <= c ->
    camera_hint_acquire rc now h hint duration (w_hints w) = Some (res, st') ->
    wstep true w (mkWorld st' (w_hal w) (w_sender w) c (w_worker w) (w_flight w))
| W_release w c h res st' :
    w_clock w <= c -> camera_hint_release h (w_hints w) = (res, st') ->
    wstep true w (mkWorld st' (w_hal w) (w_sender w) c (w_worker w) (w_flight w))
| W_plan w now acts st' :
    w_clock w <= now -> w_worker w = Waiting -> gWorker (w_hints w) = Running ->
    worker_plan now (w_hints w) = Some (acts, st') ->
    wstep true w (mkWorld st' (w_hal w) (w_sender w) now (Planned acts now) (w_flight w))
| W_send w acts tp c found replies ok s' calls :
    w_worker w = Planned acts tp -> w_clock w <= c ->
    worker_send found replies acts (w_sender w) = (ok, s', calls) ->
    wstep ok w (mkWorld (w_hints w) (w_hal w) s' c (Sent ok) (w_flight w ++ ((fun a => (a, tp)) <$> calls)))
| W_done w ok c fails st' :
    w_worker w = Sent ok -> w_clock w <= c ->
    worker_done ok (failures (w_sender w)) (w_hints w) = (fails, st') ->
    wstep true w (mkWorld st' (w_hal w) (mkSender (power (w_sender w)) (warned (w_sender w)) fails) c Waiting (w_flight w))
| W_arrive w a tp rest c :
    w_flight w = (a, tp) :: rest -> w_clock w <= c ->
    wstep (c <=? tp + D) w (mkWorld (w_hints w) (setBoost (a_boost a) (duration_ms a) c (w_hal w)) (w_sender w) c
                              (w_worker w) rest)
| W_lose w x rest c :
    w_flight w = x :: rest -> w_clock w <= c ->
    wstep false w (mkWorld (w_hints w) (w_hal w) (w_sender w) c (w_worker w) rest).

(** Reachable from the process start at [t0]; [true] if all went well so far. *)
Inductive wreach (h0 : hal) (t0 : Z) : bool -> world -> Prop :=
| WR_start : wreach h0 t0 true (mkWorld hints_start h0 (mkSender false false 0) t0 Waiting [])
| WR_step ok ok' w w' : wreach h0 t0 ok w -> wstep ok' w w' -> wreach h0 t0 (ok && ok') w'.

(** *** Bounds that hold whatever fails *)

Definition short_action (a : Action) : Prop := duration_ms a = -1 \/ 1 <= duration_ms a <= kMaxTimedMs.

(** Deadlines in the table and durations planned are short, the plan fits the
    worker's array, and no boost outlives the longest request. *)
Record bounded (h0 : hal) (w : world) : Prop := mkBounded {
  bd_ok : hints_ok (w_hints w);
  bd_clock : 0 <= w_clock w;
  bd_table : forall i r, gRequests (w_hints w) !! i = Some r -> handle r <> 0 ->
    deadline_ns r <= w_clock w + MAX_NS;
  bd_acts : forall acts tp, w_worker w = Planned acts tp -> tp <= w_clock w /\
    Forall short_action acts /\ (length acts <= 4)%nat;
  bd_flight : Forall (fun x => x.2 <= w_clock w /\ short_action x.1) (w_flight w);
  bd_hal : forall b, ends_at (w_hal w) b <= Z.max (ends_at h0 b) (w_clock w + MAX_NS);
}.

(** The power HAL ends every boost within 5 s of the last call. *)
Lemma arrive_bound a t h b B :
  short_action a -> t + MAX_NS <= B -> ends_at h b <= B ->
  ends_at (setBoost (a_boost a) (duration_ms a) t h) b <= B.
Proof.
  unfold MAX_NS, kMaxTimedMs, short_action. intros Hd Ht Hh.
  destruct (decide (a_boost a = b)) as [<-|Hn]; [|now rewrite hal_other].
  destruct Hd as [->|Hd].
  - pose proof (hal_cancel (a_boost a) t h). lia.
  - rewrite hal_extend by lia. unfold kMaxTimedMs in Hd. lia.
Qed.

Lemma flight_later (l : list (Action * Z)) c c' : c <= c' ->
  Forall (fun x => x.2 <= c /\ short_action x.1) l -> Forall (fun x => x.2 <= c' /\ short_action x.1) l.
Proof. intros Hc Hl. eapply Forall_impl; [exact Hl|]. cbn. intros x [? ?]. split; [lia | assumption]. Qed.

(** Where the requests of a new table come from. *)
Definition derived (rs rs' : list Request) (B : Z) : Prop :=
  forall i r, rs' !! i = Some r -> handle r <> 0 ->
    deadline_ns r <= B \/ exists j r0, rs !! j = Some r0 /\ handle r0 <> 0 /\ deadline_ns r0 = deadline_ns r.

Lemma derived_refl rs B : derived rs rs B.
Proof. intros i r E Hn. eauto 10. Qed.

Lemma derived_expire now rs B : derived rs (expire now <$> rs) B.
Proof.
  intros i r (r0 & -> & E)%list_lookup_fmap_Some. unfold expire.
  destruct (_ && _); cbn; intros Hn; [done|]. right. exists i, r0. auto.
Qed.

Lemma derived_release h st res st' B :
  camera_hint_release h st = (res, st') -> derived (gRequests st) (gRequests st') B.
Proof.
  unfold camera_hint_release. pose proof (release_in_spec h (gRequests st)) as Hr.
  destruct (_ <? _); [|destruct (release_in h _)]; intros [= <- <-]; try apply derived_refl.
  destruct Hr as (j & r0 & Ej & _ & ->). intros i r E Hn. cbn in E.
  apply list_lookup_insert_Some in E as [(-> & <- & _)|[_ E]]; [done | eauto 10].
Qed.

Lemma derived_acquire rc now h hint duration st res st' :
  camera_hint_acquire rc now h hint duration st = Some (res, st') ->
  derived (gRequests st) (gRequests st') (now + MAX_NS).
Proof.
  unfold camera_hint_acquire, MAX_NS. pose proof (request_ms_range duration) as Hms. unfold kMaxTimedMs in *.
  destruct (boost_for_hint hint) as [b|].
  2:{ destruct (camera_hint_release h st) as [r0 st0] eqn:E. intros [= <- <-]. eapply derived_release; eauto. }
  destruct (once_fields rc st) as (Er & _). set (st1 := pthread_once_worker rc st) in *.
  destruct (gWorker st1); try (intros [= <- <-]; rewrite Er; apply derived_refl).
  destruct (scan_spec h now (gRequests st1) 0 None None) as (slot & free & -> & _ & _). rewrite Er.
  set (rs := expire now <$> gRequests st).
  assert (forall i h' b', derived (gRequests st)
    (<[i := mkRequest h' b' (now + request_ms duration * 1000000)]> rs) (now + 5000 * 1000000)) as Hfill.
  { intros i h' b' j r [(-> & <- & _)|[_ E]]%list_lookup_insert_Some Hn; cbn; [left; lia|].
    eapply derived_expire; eauto. }
  destruct slot as [i|]; [|destruct free as [i|]].
  - cbn. destruct (rs !! i); cbn; intros [= <- <-]. apply Hfill.
  - unfold next_handle_locked. cbn [with_requests gRequests gNextHandle].
    destruct (next_handle_from _ rs _) as [[h' n]|]; cbn; intros [= <- <-].
    apply Hfill.
  - intros [= <- <-]. apply derived_expire.
Qed.

Lemma derived_bound rs rs' c c' B :
  derived rs rs' B -> B <= c' + MAX_NS -> c <= c' ->
  (forall i r, rs !! i = Some r -> handle r <> 0 -> deadline_ns r <= c + MAX_NS) ->
  forall i r, rs' !! i = Some r -> handle r <> 0 -> deadline_ns r <= c' + MAX_NS.
Proof.
  intros Hd HB Hc Hb i r E Hn. destruct (Hd i r E Hn) as [?|(j & r0 & Ej & Hnj & <-)]; [lia|].
  specialize (Hb j r0 Ej Hnj). lia.
Qed.

Lemma plan_boost_short now want sent b acts sent' :
  at_ want b = 0 \/ now < at_ want b <= now + MAX_NS ->
  plan_boost now want sent b = (acts, sent') -> Forall short_action acts /\ (length acts <= 2)%nat.
Proof.
  unfold plan_boost, short_action. intros Hw.
  destruct (at_ want b =? 0) eqn:E0; [|destruct (_ && _)]; intros [= <- _]; boolprop.
  - case_match; repeat constructor; cbn; lia.
  - repeat constructor.
  - destruct Hw as [|Hw]; [congruence|]. destruct (ms_until_spec (at_ want b) now Hw) as [Hms _].
    case_match; repeat constructor; cbn; lia.
Qed.

Lemma plan_locked_short now st m acts st' :
  0 <= now -> holds (gRequests st) now m ->
  (forall k b d, m !! k = Some (b, d) -> d <= now + MAX_NS) ->
  plan_locked now st = (acts, st') ->
  Forall short_action acts /\ (length acts <= 4)%nat /\
  gRequests st' = expire now <$> gRequests st /\ gNextHandle st' = gNextHandle st /\
  gDirty st' = gDirty st /\ forall b, latest m b (at_ (gSentDeadline st') b).
Proof.
  intros Hnow Hh Hmax. unfold plan_locked.
  destruct (plan_latest now (gRequests st) m Hnow Hh) as (w & -> & Hlat & Hpos).
  destruct (plan_boost now w (gSentDeadline st) kLaunch) as [out0 sent0] eqn:E0.
  destruct (plan_boost now w sent0 kShot) as [out1 sent1] eqn:E1. intros [= <- <-].
  assert (forall b, at_ w b = 0 \/ now < at_ w b <= now + MAX_NS) as Hw.
  { intros b. destruct (Z.eq_dec (at_ w b) 0) as [|Hn]; [auto|]. right. split; [auto|].
    destruct (Hlat b) as [_ [?|[k Hk]]]; [congruence | eauto]. }
  destruct (plan_boost_short _ _ _ _ _ _ (Hw kLaunch) E0) as [H0 H0'].
  destruct (plan_boost_short _ _ _ _ _ _ (Hw kShot) E1) as [H1 H1'].
  split; [now apply Forall_app|]. split; [rewrite length_app; lia|]. do 3 (split; [reflexivity|]).
  cbn. intros b. replace (at_ sent1 b) with (at_ w b); [apply Hlat|]. symmetry. destruct b.
  - destruct (plan_boost_other _ _ _ kShot kLaunch _ _ ltac:(discriminate) E1) as [-> _].
    eapply plan_boost_sent; eauto.
  - eapply plan_boost_sent; eauto.
Qed.

Lemma table_bound rs now c m :
  holds rs now m -> c <= now ->
  (forall i r, rs !! i = Some r -> handle r <> 0 -> deadline_ns r <= c + MAX_NS) ->
  forall k b d, m !! k = Some (b, d) -> d <= now + MAX_NS.
Proof.
  intros Hh Hc Hb k b d (i & r & E & <- & Hn & _ & <- & _)%Hh. specialize (Hb i r E Hn). lia.
Qed.

Lemma done_fields ok f st fails st' : worker_done ok f st = (fails, st') ->
  gRequests st' = gRequests st /\ gNextHandle st' = gNextHandle st /\ (ok = true -> st' = st).
Proof.
  unfold worker_done. destruct ok; [|case_match]; intros [= <- <-]; repeat split; discriminate.
Qed.

Lemma bounded_step h0 ok w w' : wstep ok w w' -> bounded h0 w -> bounded h0 w'.
Proof.
  intros Hs [Hok Hc Ht Ha Hf Hh]. destruct Hs as
    [w rc now c h hint duration res st' Hn Hcc E | w c h res st' Hcc E
    | w now acts st' Hcc Hp Hrun E | w acts tp c found replies ok s' calls Hp Hcc Esend
    | w ok c fails st' Hp Hcc Edone
    | w a tp rest c Hfl Hcc | w x rest c Hfl Hcc].
  - destruct (holds_exists now _ (ok_table _ Hok)) as [m Hm].
    destruct (acquire_spec rc now h hint duration _ m Hok Hm) as (res' & st0 & E' & Hok' & _).
    assert (st0 = st') as -> by congruence. split; cbn; [exact Hok' | lia | | | eapply flight_later; eauto |].
    + eapply derived_bound; [eapply derived_acquire; eauto | unfold MAX_NS, kMaxTimedMs; lia | eauto | exact Ht].
    + intros acts tp Ep. destruct (Ha acts tp Ep). split; [lia | assumption].
    + intros b. specialize (Hh b). lia.
  - destruct (holds_exists 0 _ (ok_table _ Hok)) as [m Hm].
    destruct (release_spec h _ 0 m Hok Hm) as (res' & st0 & E' & Hok' & _).
    assert (st0 = st') as -> by congruence. split; cbn; [exact Hok' | lia | | | eapply flight_later; eauto |].
    + eapply derived_bound; [eapply (derived_release _ _ _ _ (w_clock w)); eauto
        | unfold MAX_NS, kMaxTimedMs; lia | eauto | exact Ht].
    + intros acts tp Ep. destruct (Ha acts tp Ep). split; [lia | assumption].
    + intros b. specialize (Hh b). lia.
  - unfold worker_plan in E. destruct (gDirty _); [|discriminate]. injection E as E.
    destruct (holds_exists now _ (ok_table _ Hok)) as [m Hm].
    destruct (plan_locked_short now (with_dirty false (w_hints w)) m acts st' ltac:(lia) Hm
      (table_bound _ _ _ _ Hm Hcc Ht) E) as (Hs & Hl & Er & En & _ & _). cbn in Er, En.
    split; cbn; [split; rewrite ?Er, ?En; [apply expire_table, Hok | apply Hok] | lia | | | eapply flight_later; eauto |].
    + rewrite Er. eapply (derived_bound _ _ (w_clock w)); [apply (derived_expire now _ (now + MAX_NS)) | lia | lia | exact Ht].
    + intros ? ? [= <- <-]. split; [lia | auto].
    + intros b. specialize (Hh b). lia.
  - destruct (worker_send_out _ _ _ _ _ _ _ Esend) as (_ & Hcalls & _). destruct (Ha _ _ Hp) as (Htp & Hs & Hl).
    split; cbn; [exact Hok | lia | | discriminate | |].
    + intros i r Ei Hi. specialize (Ht i r Ei Hi). lia.
    + apply Forall_app. split; [eapply flight_later; eauto|]. apply Forall_fmap. rewrite Forall_forall in Hs.
      eapply Forall_impl; [exact Hcalls|]. intros a Hin. cbn. split; [lia | auto].
    + intros b. specialize (Hh b). lia.
  - destruct (done_fields _ _ _ _ _ Edone) as (Er & En & _).
    split; cbn; [split; rewrite ?Er, ?En; apply Hok | lia | | discriminate | eapply flight_later; eauto |].
    + rewrite Er. intros i r Ei Hi. specialize (Ht i r Ei Hi). lia.
    + intros b. specialize (Hh b). lia.
  - rewrite Hfl in Hf. apply Forall_cons in Hf as [[Htp Hs] Hf]. cbn in Htp, Hs.
    split; cbn; [exact Hok | lia | | | eapply flight_later; eauto |].
    + intros i r Ei Hi. specialize (Ht i r Ei Hi). lia.
    + intros acts tp' Ep. destruct (Ha acts tp' Ep). split; [lia | assumption].
    + intros b. apply arrive_bound; [exact Hs | lia | specialize (Hh b); lia].
  - rewrite Hfl in Hf. apply Forall_cons in Hf as [_ Hf].
    split; cbn; [exact Hok | lia | | | eapply flight_later; eauto |].
    + intros i r Ei Hi. specialize (Ht i r Ei Hi). lia.
    + intros acts tp' Ep. destruct (Ha acts tp' Ep). split; [lia | assumption].
    + intros b. specialize (Hh b). lia.
Qed.

Lemma bounded_reach h0 t0 ok w : 0 <= t0 -> wreach h0 t0 ok w -> bounded h0 w.
Proof.
  intros Ht0 Hr. induction Hr as [|ok ok' w w' _ IH Hs]; [|eauto using bounded_step].
  split; cbn.
  - apply hints_start_ok.
  - exact Ht0.
  - intros i r E Hn. destruct Hn. exact (start_free i r E).
  - discriminate.
  - constructor.
  - lia.
Qed.

(** *** When all goes well *)

(** What the worker told agrees with the table at time [c]. *)
Definition told (st : hints) (c : Z) : Prop :=
  (forall (i : nat) r, gRequests st !! i = Some r -> live c r -> deadline_ns r <= at_ (gSentDeadline st) (boost r)) /\
  (forall b, c < at_ (gSentDeadline st) b -> exists (i : nat) r, gRequests st !! i = Some r /\ handle r <> 0 /\
     boost r = b /\ deadline_ns r = at_ (gSentDeadline st) b).

Lemma told_later st c c' : c <= c' -> told st c -> told st c'.
Proof.
  intros Hc [H1 H2]. split.
  - intros i r E [Hn Hl]. apply (H1 i r E). split; [assumption | lia].
  - intros b Hb. apply H2. lia.
Qed.

Lemma told_fields st st' c :
  gRequests st' = gRequests st -> gSentDeadline st' = gSentDeadline st -> told st c -> told st' c.
Proof. unfold told. now intros -> ->. Qed.

Lemma told_expire st st' now c :
  gRequests st' = expire now <$> gRequests st -> gSentDeadline st' = gSentDeadline st ->
  now <= c -> told st c -> told st' c.
Proof.
  intros Er Es Hc [H1 H2]. unfold told. rewrite Er, Es. split.
  - intros i r (r0 & -> & E)%list_lookup_fmap_Some. unfold expire.
    destruct (_ && _); cbn; [intros [Hn _]; done|]. apply (H1 i r0 E).
  - intros b Hb. destruct (H2 b Hb) as (i & r & E & Hn & Eb & Ed). exists i, r.
    split; [|auto]. rewrite list_lookup_fmap, E. cbn. unfold expire.
    replace (deadline_ns r <=? now) with false by (symmetry; apply Z.leb_gt; lia).
    now rewrite andb_false_r.
Qed.

(** A change of the requests in force sets [gDirty]. *)
Lemma release_told h st res st' :
  camera_hint_release h st = (res, st') -> gDirty st' = false -> st' = st.
Proof.
  unfold camera_hint_release. destruct (_ <? _); [|destruct (release_in h _)]; intros [= <- <-]; easy.
Qed.

Lemma acquire_told rc now h hint duration st res st' :
  camera_hint_acquire rc now h hint duration st = Some (res, st') -> gDirty st' = false ->
  gDirty st = false /\ forall c, now <= c -> told st c -> told st' c.
Proof.
  unfold camera_hint_acquire. destruct (boost_for_hint hint) as [b|].
  2:{ destruct (camera_hint_release h st) as [r0 st0] eqn:E. intros [= <- <-] Hd.
      pose proof (release_told _ _ _ _ E Hd) as ->. auto. }
  destruct (once_fields rc st) as (Er & Es & _ & _).
  assert (gDirty (pthread_once_worker rc st) = gDirty st) as Ed
    by (unfold pthread_once_worker, start_worker; destruct (gWorker st); [case_match|..]; reflexivity).
  set (st1 := pthread_once_worker rc st) in *.
  destruct (gWorker st1); try (intros [= <- <-] Hd; split; [congruence|]; intros c _; now apply told_fields).
  destruct (scan_spec h now (gRequests st1) 0 None None) as (slot & free & -> & _ & _).
  destruct slot as [i|]; [|destruct free as [i|]].
  - cbn. destruct (_ !! i); cbn; intros [= <- <-]; discriminate.
  - destruct (next_handle_locked _) as [[h' st2]|]; cbn; intros [= <- <-]; discriminate.
  - intros [= <- <-] Hd. split; [cbn in Hd; congruence|]. intros c Hc.
    apply (told_expire _ _ now); [cbn; congruence | exact Es | exact Hc].
Qed.

Lemma plan_told now rs m st' :
  0 <= now -> holds rs now m -> gRequests st' = expire now <$> rs ->
  (forall b, latest m b (at_ (gSentDeadline st') b)) -> told st' now.
Proof.
  intros Hnow Hm Er Hl. pose proof (expire_holds now rs m Hm) as Hm'. rewrite <- Er in Hm'. split.
  - intros i r E [Hn Hlive]. destruct (Hl (boost r)) as [Hmax _]. apply (Hmax (handle r)).
    apply Hm'. eauto 10.
  - intros b Hb. destruct (Hl b) as [_ [E|[k Hk]]]; [lia|].
    apply Hm' in Hk as (i & r & E & Eh & Hn & Eb & Ed & _). exists i, r. repeat split; auto; congruence.
Qed.

(** The latest deadline asked for is what was told, or nothing is asked for and what
    was told is over. *)
Lemma told_latest st c m b W :
  0 <= c -> told st c -> holds (gRequests st) c m -> latest m b W ->
  c < W /\ W = at_ (gSentDeadline st) b \/ W = 0 /\ at_ (gSentDeadline st) b <= c.
Proof.
  intros Hc [H1 H2] Hm [Hmax Hex]. set (s := at_ (gSentDeadline st) b) in *.
  assert (c < s -> s <= W) as Hs.
  { intros Hs. destruct (H2 b Hs) as (i & r & E & Hn & Eb & Ed). fold s in Ed. apply (Hmax (handle r)).
    apply Hm. exists i, r. auto 10. }
  destruct Hex as [->|[k Hk]].
  - right. split; [reflexivity|]. destruct (Z_lt_le_dec c s) as [Hcs|]; [specialize (Hs Hcs); lia | assumption].
  - apply Hm in Hk as (i & r & E & Eh & Hn & Eb & Ed & Hl). left. split; [exact Hl|].
    assert (W <= s) as HW; [|specialize (Hs ltac:(lia)); lia].
    unfold s. rewrite <- Eb, <- Ed. apply (H1 i r E). split; [congruence | lia].
Qed.

(** The calls that are still to arrive, planned ones included. *)
Definition todo (w : world) : list (Action * Z) :=
  w_flight w ++ match w_worker w with Planned acts tp => (fun a => (a, tp)) <$> acts | _ => [] end.

(** The calls arrive, each within [D] of when it was planned. *)
Definition arrivals (calls : list (Z * Action)) (l : list (Action * Z)) : Prop :=
  Forall2 (fun c x => c.2 = x.1 /\ x.2 <= c.1 <= x.2 + D) calls l.

Lemma arrivals_planned calls acts tp :
  arrivals calls ((fun a => (a, tp)) <$> acts) -> in_time D tp calls /\ calls.*2 = acts.
Proof.
  unfold arrivals. rewrite Forall2_fmap_r. intros Hc.
  induction Hc as [|c a calls acts [E Hc] _ [IHt IHa]]; [by split; constructor|].
  cbn in E, Hc. cbn. split; [constructor; assumption | now f_equal].
Qed.

Lemma target_line now w e c : 0 <= now -> now <= c -> on_target D now w e -> in_line D c w e.
Proof. unfold on_target, in_line, slack. intros Hn Hc [Hz Hnz]. destruct (Z.eq_dec w 0) as [E|E]; [specialize (Hz E) | specialize (Hnz E)]; lia. Qed.

Record good (w : world) : Prop := mkGood {
  gd_told : gDirty (w_hints w) = false -> told (w_hints w) (w_clock w);
  gd_hal : forall b calls, arrivals calls (todo w) ->
    in_line D (w_clock w) (at_ (gSentDeadline (w_hints w)) b) (ends_at (hal_apply calls (w_hal w)) b);
  gd_sent : forall ok, w_worker w = Sent ok -> ok = true;
}.

(** The state behind the lock changes without a word to the power HAL. *)
Lemma good_callers w st' c :
  good w -> w_clock w <= c -> gSentDeadline st' = gSentDeadline (w_hints w) ->
  (gDirty st' = false -> told st' c) ->
  good (mkWorld st' (w_hal w) (w_sender w) c (w_worker w) (w_flight w)).
Proof.
  intros [Ht Hh Hsent] Hc Es Ht'. split; cbn; [exact Ht'| |exact Hsent]. intros b calls Hcalls. rewrite Es.
  eapply in_line_later; [exact Hc | now apply Hh].
Qed.

Lemma good_step h0 ok w w' : wstep ok w w' -> ok = true -> bounded h0 w -> good w -> good w'.
Proof.
  intros Hs Hgo [Hok Hc Ht Ha Hf _] Hg. destruct Hs as
    [w rc now c h hint duration res st' Hn Hcc E | w c h res st' Hcc E
    | w now acts st' Hcc Hp Hrun E | w acts tp c found replies ok s' calls Hp Hcc Esend
    | w ok c fails st' Hp Hcc Edone
    | w a tp rest c Hfl Hcc | w x rest c Hfl Hcc].
  - destruct (holds_exists now _ (ok_table _ Hok)) as [m Hm].
    destruct (acquire_spec rc now h hint duration _ m Hok Hm) as (res' & st0 & E' & _ & Es & _).
    assert (st0 = st') as -> by congruence. apply good_callers; auto.
    intros Hd. destruct (acquire_told _ _ _ _ _ _ _ _ E Hd) as [Hd' Hkeep]. apply Hkeep; [lia|].
    eapply told_later; [exact Hcc|]. now apply gd_told.
  - destruct (holds_exists 0 _ (ok_table _ Hok)) as [m Hm].
    destruct (release_spec h _ 0 m Hok Hm) as (res' & st0 & E' & _ & _ & _ & _ & Es & _).
    assert (st0 = st') as -> by congruence. apply good_callers; auto.
    intros Hd. pose proof (release_told _ _ _ _ E Hd) as ->.
    eapply told_later; [exact Hcc|]. now apply gd_told.
  - unfold worker_plan in E. destruct (gDirty _) eqn:Ed; [|discriminate]. injection E as E.
    destruct (holds_exists now _ (ok_table _ Hok)) as [m Hm].
    pose proof (table_bound _ _ _ _ Hm Hcc Ht) as Hmax.
    destruct (plan_locked_short now (with_dirty false (w_hints w)) m acts st' ltac:(lia) Hm Hmax E) as (_ & _ & Er & _ & _ & Hlat).
    split; cbn; [intros _; eapply plan_told; eauto; lia| |discriminate]. intros b calls Hcalls.
    apply Forall2_app_inv_r in Hcalls as (c1 & c2 & H1 & H2 & ->). apply arrivals_planned in H2 as [Hin Eacts].
    rewrite apply_app. apply (target_line now); [lia | lia|].
    apply (plan_locked_spec D now (with_dirty false (w_hints w)) m (hal_apply c1 (w_hal w)) acts st'); auto; [lia|].
    intros b'. eapply in_line_later; [exact Hcc|]. apply (gd_hal _ Hg). unfold todo. now rewrite Hp, app_nil_r.
  - subst ok. destruct (worker_send_out _ _ _ _ _ _ _ Esend) as (Ecalls & _). rewrite (Ecalls eq_refl).
    split; cbn; [intros Hd; eapply told_later; [exact Hcc|]; now apply gd_told| |now intros ? [= <-]].
    intros b calls' Hcalls. eapply in_line_later; [exact Hcc|]. apply (gd_hal _ Hg). unfold todo in *. cbn in Hcalls.
    now rewrite app_nil_r in Hcalls; rewrite Hp.
  - pose proof (gd_sent _ Hg _ Hp) as ->. destruct (done_fields _ _ _ _ _ Edone) as (_ & _ & Est).
    pose proof (Est eq_refl) as ->. split; cbn; [intros Hd; eapply told_later; [exact Hcc|]; now apply gd_told| |discriminate].
    intros b calls Hcalls. eapply in_line_later; [exact Hcc|]. apply (gd_hal _ Hg). unfold todo in *. now rewrite Hp.
  - boolprop. rewrite Hfl in Hf. apply Forall_cons in Hf as [[Htp _] _]. cbn in Htp.
    split; cbn; [intros Hd; eapply told_later; [exact Hcc|]; now apply gd_told| |exact (gd_sent _ Hg)].
    intros b calls Hcalls. eapply in_line_later; [exact Hcc|].
    apply (gd_hal _ Hg b ((c, a) :: calls)). unfold todo in *. rewrite Hfl. cbn. constructor; [cbn; split; [reflexivity | lia]|].
    exact Hcalls.
  - discriminate.
Qed.

Lemma good_reach h0 t0 w : 0 <= t0 -> (forall b, ends_at h0 b <= t0) -> wreach h0 t0 true w -> good w.
Proof.
  intros Ht0 Hidle Hr. remember true as ok eqn:Eok. induction Hr as [|ok ok' w w' Hr IH Hs].
  - split; cbn; [intros _; split; [|intros []; cbn; lia]| |discriminate].
    + intros i r [-> _]%lookup_replicate [Hn _]. now destruct Hn.
    + intros b calls Hcalls. apply Forall2_nil_inv_r in Hcalls as ->. specialize (Hidle b). unfold in_line, slack. destruct b; cbn; lia.
  - apply andb_prop in Eok as [-> ->].
    eapply good_step; eauto using bounded_reach.
Qed.

End World.

(** ** The exported calls as operations on the requests in force *)

Lemma holds_unique rs now m m' : holds rs now m -> holds rs now m' -> m = m'.
Proof.
  intros H1 H2. apply map_eq. intros h. apply option_eq. intros [b d]. rewrite (H1 h b d), (H2 h b d). reflexivity.
Qed.

Lemma holds_later rs now now' m :
  now <= now' -> holds rs now m -> holds rs now' (filter (fun kv => now' < kv.2.2) m).
Proof.
  intros Hn Hh h b d. rewrite map_lookup_filter_Some, (Hh h b d). cbn. split.
  - intros [(i & r & E & H1 & H2 & H3 & H4 & _) Hd]. exists i, r. auto 10.
  - intros (i & r & E & H1 & H2 & H3 & H4 & Hd). split; [|exact Hd]. exists i, r. repeat split; auto. lia.
Qed.

Lemma holds_size rs now m :
  table_ok rs -> holds rs now m -> size m = length (filter (live now) rs).
Proof.
  intros Ht Hh. rewrite (holds_unique _ _ _ _ Hh (holds_in_force now rs Ht)). unfold in_force.
  rewrite <- length_map_to_list. erewrite Permutation_length; [apply length_fmap|]. apply map_to_list_to_map.
  rewrite <- list_fmap_compose. apply live_handles_distinct. exact (tab_distinct _ Ht).
Qed.

Lemma holds_size_le rs now m : table_ok rs -> holds rs now m -> (size m <= kMaxRequests)%nat.
Proof.
  intros Ht Hh. rewrite (holds_size _ _ _ Ht Hh), <- (tab_length _ Ht). apply length_filter.
Qed.

(** A full table is one of 32 requests in force. *)
Lemma full_size rs now m :
  table_ok rs -> table_full now rs -> holds rs now m -> size m = kMaxRequests.
Proof.
  intros Ht Hf Hh. rewrite (holds_size _ _ _ Ht Hh), <- (tab_length _ Ht). f_equal.
  clear Ht Hh. induction rs as [|r rs IH]; [reflexivity|].
  rewrite filter_cons_True by exact (Hf 0%nat r eq_refl). f_equal. apply IH.
  intros i r' E. exact (Hf (S i) r' E).
Qed.

Inductive client_call :=
| perf_hint_call (hint duration : Z)
| perf_hint_renew_call (h hint duration : Z)
| perf_lock_rel_call (h : Z).

Definition run_call (rc now : Z) (c : client_call) (st : hints) : option (Z * hints) :=
  match c with
  | perf_hint_call hint duration => perf_hint rc now hint duration st
  | perf_hint_renew_call h hint duration => perf_hint_renew rc now h hint duration st
  | perf_lock_rel_call h => Some (perf_lock_rel h st)
  end.

Fixpoint run_calls (rc : Z) (cs : list (Z * client_call)) (st : hints) : option (list Z * hints) :=
  match cs with
  | [] => Some ([], st)
  | (now, c) :: cs =>
      '(res, st) ← run_call rc now c st;
      '(ress, st) ← run_calls rc cs st;
      Some (res :: ress, st)
  end.

(** A renewed hint: what it means for the requests in force at [now]. *)
Definition spec_renew (thread : bool) (now h hint duration : Z) (m : requests) (res : Z) (m' : requests) : Prop :=
  match boost_for_hint hint with
  | None => res = handle_or_stub h /\ m' = delete h m
  | Some b =>
      if negb thread || bool_decide (m !! h = None) && (size m =? kMaxRequests)%nat
      then res = handle_or_stub h /\ m' = m
      else kFirstHandle <= res <= INT_MAX /\ m' = <[res := (b, now + request_ms duration * 1000000)]> m /\
           (if m !! h is Some _ then res = h else m !! res = None)
  end.

(** The abstract library: a finite map of requests, that each go away at their
    deadline. *)
Definition spec_call (thread : bool) (now : Z) (c : client_call) (m : requests) (res : Z) (m' : requests) : Prop :=
  match c with
  | perf_hint_call hint duration => spec_renew thread now 0 hint duration m res m'
  | perf_hint_renew_call h hint duration => spec_renew thread now h hint duration m res m'
  | perf_lock_rel_call h => res = 0 /\ m' = delete h m
  end.

Inductive spec_calls (thread : bool) : list (Z * client_call) -> requests -> list Z -> requests -> Prop :=
| SC_nil m : spec_calls thread [] m [] m
| SC_cons now c cs m res m1 ress m2 :
    spec_call thread now c (filter (fun kv => now < kv.2.2) m) res m1 ->
    spec_calls thread cs m1 ress m2 ->
    spec_calls thread ((now, c) :: cs) m (res :: ress) m2.

(** The first attempt to start the worker settled whether it runs. *)
Definition worker_agrees (rc : Z) (st : hints) : Prop :=
  gWorker st = NotStarted \/ gWorker st = if rc =? 0 then Running else NoThread.

Lemma once_agrees rc st : worker_agrees rc st ->
  gWorker (pthread_once_worker rc st) = if rc =? 0 then Running else NoThread.
Proof.
  unfold worker_agrees, pthread_once_worker, start_worker.
  intros [->| E]; [now destruct (rc =? 0)|]. rewrite E. now destruct (rc =? 0).
Qed.

(** The result of an acquire, as the abstract library has it. *)
Lemma acquire_renew rc now h hint duration st m :
  hints_ok st -> worker_agrees rc st -> holds (gRequests st) now m ->
  exists res st' m', camera_hint_acquire rc now h hint duration st = Some (res, st') /\
    hints_ok st' /\ worker_agrees rc st' /\ holds (gRequests st') now m' /\
    spec_renew (rc =? 0) now h hint duration m (if 0 <? res then res else handle_or_stub h) m'.
Proof.
  intros Hok Hw Hh.
  destruct (acquire_spec rc now h hint duration st m Hok Hh) as (res & st' & E & Hok' & _ & Ew & Hres).
  unfold acquire_result, spec_renew in *. destruct (boost_for_hint hint) as [b|].
  2:{ destruct Hres as [-> Hh']. exists 0, st', (delete h m). unfold worker_agrees in *. rewrite Ew. auto 10. }
  pose proof (once_agrees rc st Hw) as Hon. rewrite Hon in Ew.
  assert (worker_agrees rc st') as Hw' by (unfold worker_agrees; auto).
  destruct Hres as [(-> & Hh' & Hwhy)|(Hrg & _ & Hrun & Hh' & Hnew)].
  - exists 0, st', m. split; [exact E|]. split; [exact Hok'|]. split; [exact Hw'|]. split; [exact Hh'|].
    replace (negb (rc =? 0) || _) with true; [auto|]. symmetry.
    destruct Hwhy as [Hno|[Hno Hfull]]; [destruct (rc =? 0); [congruence | reflexivity]|].
    rewrite (full_size _ _ _ (ok_table _ Hok') Hfull Hh'), Hno, Nat.eqb_refl. apply orb_true_r.
  - exists res, st'. eexists. split; [exact E|]. split; [exact Hok'|]. split; [exact Hw'|]. split; [exact Hh'|].
    assert ((0 <? res) = true) as -> by (unfold handle_range, kFirstHandle in Hrg; lia).
    replace (negb (rc =? 0) || _) with false; [destruct (m !! h); auto|]. symmetry.
    destruct (rc =? 0); [cbn | congruence]. case_bool_decide as Hno; [|reflexivity]. rewrite Hno in Hnew.
    pose proof (holds_size_le _ _ _ (ok_table _ Hok') Hh') as Hs. rewrite map_size_insert_None in Hs by assumption.
    apply Nat.eqb_neq. lia.
Qed.

Lemma run_call_spec rc now c st m :
  hints_ok st -> worker_agrees rc st -> holds (gRequests st) now m ->
  exists res st' m', run_call rc now c st = Some (res, st') /\
    hints_ok st' /\ worker_agrees rc st' /\ holds (gRequests st') now m' /\
    spec_call (rc =? 0) now c m res m'.
Proof.
  intros Hok Hw Hh. destruct c as [hint d|h hint d|h]; cbn [run_call spec_call];
    unfold perf_hint, perf_hint_renew, perf_lock_rel.
  - destruct (acquire_renew rc now 0 hint d st m Hok Hw Hh) as (res & st' & m' & -> & ? & ? & ? & ?).
    eexists _, _, _. split; [reflexivity|]. eauto.
  - destruct (acquire_renew rc now h hint d st m Hok Hw Hh) as (res & st' & m' & -> & ? & ? & ? & ?).
    eexists _, _, _. split; [reflexivity|]. eauto.
  - destruct (release_spec h st now m Hok Hh) as (res & st' & -> & ? & ? & _ & Ew & _).
    eexists _, _, _. split; [reflexivity|]. unfold worker_agrees in *. cbn [snd]. rewrite Ew. eauto 10.
Qed.

(** Times do not go back. *)
Fixpoint in_order (t : Z) (cs : list (Z * client_call)) : Prop :=
  match cs with [] => True | (now, _) :: cs => t <= now /\ in_order now cs end.

Lemma run_calls_spec rc cs t st m :
  in_order t cs -> hints_ok st -> worker_agrees rc st -> holds (gRequests st) t m ->
  exists ress st' m', run_calls rc cs st = Some (ress, st') /\ hints_ok st' /\ spec_calls (rc =? 0) cs m ress m'.
Proof.
  revert t st m. induction cs as [|[now c] cs IH]; intros t st m Ho Hok Hw Hh.
  { exists [], st, m. split; [reflexivity|]. split; [exact Hok | constructor]. }
  destruct Ho as [Ht Ho].
  destruct (run_call_spec rc now c st _ Hok Hw (holds_later _ _ _ _ Ht Hh)) as (res & st1 & m1 & E1 & Hok1 & Hw1 & Hh1 & Hs1).
  destruct (IH now st1 m1 Ho Hok1 Hw1 Hh1) as (ress & st2 & m2 & E2 & Hok2 & Hs2).
  exists (res :: ress), st2, m2. cbn [run_calls]. rewrite E1. cbn [mbind option_bind]. rewrite E2.
  split; [reflexivity|]. split; [exact Hok2|]. econstructor; eauto.
Qed.

Lemma hints_start_holds t : holds (gRequests hints_start) t ∅.
Proof.
  intros h b d. split; [intros [=]|]. intros (i & r & [-> _]%lookup_replicate & <- & Hn & _). now destruct Hn.
Qed.

(** ** Properties *)

(** C21. Any sequence of [perf_hint], [perf_hint_renew] and [perf_lock_rel] calls a
    client makes, at times that do not go back, returns, and acts as on a finite map
    from handles to requests that each go away at their deadline: a hint of the
    camera takes a fresh handle or renews the request of the handle it was given
    (for at most 5 s, 2 s if the duration is not positive), a release or another
    hint ends just the request of its handle, and a hint is refused (the answer is
    the handle it was given, or 1) exactly if there is no worker or 32 other
    requests are in force. *)
Theorem client_refines_spec rc t cs :
  in_order t cs ->
  exists ress st m, run_calls rc cs hints_start = Some (ress, st) /\ hints_ok st /\
    spec_calls (rc =? 0) cs ∅ ress m.
Proof.
  intros Ho. apply (run_calls_spec rc cs t hints_start ∅ Ho).
  - apply hints_start_ok.
  - now left.
  - apply hints_start_holds.
Qed.

(** C8. When the worker has nothing left to do, the power HAL does what the requests
    ask for, provided that nothing went wrong since the process started: no boost ran
    at the start, the power HAL was there for every pass, every call was accepted and
    none was lost, and each arrived within [D] of the pass that planned it.  Then, in any
    interleaving of threads that acquire and release with the worker's passes and with the
    arrival of the one-way calls, an idle worker ([gDirty] clear, nothing being sent,
    nothing on its way) means that each boost some request in force asks for ends at the
    latest of their deadlines or at most 1 ms and [D] after it; a boost no request in force
    asks for is over, or ends on its own timer within 1 ms and [D] from now.  Nothing is
    claimed once a call has failed or been lost, or was late: the code then waits for the
    next hint ([camera_hints.cpp], [worker_main]). *)
Theorem idle_worker_in_line {P : PowerHal} {L : PowerHalLaws P} D h0 t0 w m b W :
  0 <= D -> 0 <= t0 -> (forall b, ends_at h0 b <= t0) ->
  wreach D h0 t0 true w -> w_worker w = Waiting -> w_flight w = [] -> gDirty (w_hints w) = false ->
  holds (gRequests (w_hints w)) (w_clock w) m -> latest m b W ->
  let e := ends_at (w_hal w) b in
  (W = 0 -> e <= w_clock w + 999999 + D) /\ (W <> 0 -> W <= e <= W + 999999 + D).
Proof.
  intros HD Ht0 Hidle Hr Hp Hfl Hd Hm Hl. cbv zeta.
  pose proof (bounded_reach D h0 t0 true w Ht0 Hr) as Hb.
  destruct (good_reach D HD h0 t0 w Ht0 Hidle Hr) as [Ht Hh _]. specialize (Hh b []).
  unfold todo in Hh. rewrite Hp, Hfl in Hh. destruct (Hh ltac:(constructor)) as [He1 He2]. cbn in He1, He2. unfold slack in *.
  destruct (told_latest _ _ _ _ _ (bd_clock _ _ Hb) (Ht Hd) Hm Hl) as [[Hc E]|[E Hc]].
  - rewrite <- E in *. pose proof (bd_clock _ _ Hb). lia.
  - lia.
Qed.

(** C35. Whatever fails, is lost or comes late: the camera can never keep a boost running
    for more than 5 s from now.  The request table keeps its form (32 slots, handles
    distinct and at least 0x10000), every call planned or on its way has a duration of
    exactly -1 (end) or of 1 to 5000 ms, the plan fits the worker's array of four actions,
    and each boost ends at most 5 s from now, or, if it already ran when the process
    started and was to end later than that, no later than it was to end then. *)
Theorem boosts_bounded {P : PowerHal} {L : PowerHalLaws P} D h0 t0 ok w :
  0 <= t0 -> wreach D h0 t0 ok w ->
  hints_ok (w_hints w) /\
  (forall acts tp, w_worker w = Planned acts tp -> Forall short_action acts /\ (length acts <= 4)%nat) /\
  Forall short_action (w_flight w).*1 /\
  forall b, ends_at (w_hal w) b <= Z.max (ends_at h0 b) (w_clock w + kMaxTimedMs * 1000000).
Proof.
  intros Ht0 Hr. destruct (bounded_reach D h0 t0 ok w Ht0 Hr) as [Hok _ _ Ha Hf Hh].
  split; [exact Hok|]. split; [intros acts tp Hp; apply (Ha acts tp Hp)|]. split; [|exact Hh].
  apply Forall_fmap. eapply Forall_impl; [exact Hf|]. now intros x [_ Hx].
Qed.

(** ** Witnesses *)

(** A power HAL that does what libperfmgr documents. *)
Definition timer_hal : PowerHal := {|
  hal := per_boost;
  setBoost := fun b d now h =>
    if d <? 0 then set_at b now h else set_at b (Z.max (at_ h b) (now + d * 1000000)) h;
  ends_at := at_;
|}.

Lemma timer_hal_laws : PowerHalLaws timer_hal.
Proof.
  split; cbn; intros.
  - destruct (d <? 0) eqn:E; boolprop; [lia|]. rewrite at_set, decide_True; reflexivity.
  - rewrite at_set, decide_True by reflexivity. lia.
  - destruct (d <? 0); rewrite at_set, decide_False by assumption; reflexivity.
Qed.

(** The camera opens for 3 s at time 5, and the worker tells the power HAL. *)
Definition opened : hints :=
  match camera_hint_acquire 0 5 0 kHintCameraOpen 3000 hints_start with Some (_, st) => st | None => hints_start end.
Definition planned : list Action * hints :=
  match worker_plan 6 opened with Some p => p | None => ([], opened) end.
Definition fine (i : nat) : reply := mkReply true true.
Definition launched : per_boost := mkPer 3000000007 0.
Definition idle_sender : sender := mkSender false false 0.
Definition ready : world (P := timer_hal) :=
  mkWorld (P := timer_hal) planned.2 launched (mkSender true false 0) 8 Waiting [].

(** The call arrives before the worker has the lock again. *)
Lemma ready_reached : wreach (P := timer_hal) 10 (mkPer 0 0) 0 true ready.
Proof.
  refine (WR_step (P := timer_hal) 10 _ _ true true _ _ _
    (W_done (P := timer_hal) 10 (mkWorld (P := timer_hal) planned.2 launched (mkSender true false 0) 7 (Sent true) [])
       true 8 0 planned.2 eq_refl _ eq_refl)); [|cbn; lia].
  refine (WR_step (P := timer_hal) 10 _ _ true true _ _ _
    (W_arrive (P := timer_hal) 10 (mkWorld (P := timer_hal) planned.2 (mkPer 0 0) (mkSender true false 0) 6 (Sent true)
       [(mkAction kLaunch 3000, 6)]) (mkAction kLaunch 3000) 6 [] 7 eq_refl _)); [|cbn; lia].
  refine (WR_step (P := timer_hal) 10 _ _ true true _ _ _
    (W_send (P := timer_hal) 10 (mkWorld (P := timer_hal) planned.2 (mkPer 0 0) idle_sender 6 (Planned planned.1 6) [])
       planned.1 6 6 true fine true (mkSender true false 0) planned.1 eq_refl _ eq_refl)); [|cbn; lia].
  refine (WR_step (P := timer_hal) 10 _ _ true true _ _ _
    (W_plan (P := timer_hal) 10 (mkWorld (P := timer_hal) opened (mkPer 0 0) idle_sender 5 Waiting [])
       6 planned.1 planned.2 _ eq_refl eq_refl eq_refl)); [|cbn; lia].
  refine (WR_step (P := timer_hal) 10 _ _ true true _ _ (WR_start (P := timer_hal) 10 _ _)
    (W_acquire (P := timer_hal) 10 (mkWorld (P := timer_hal) hints_start (mkPer 0 0) idle_sender 0 Waiting [])
       0 5 5 0 kHintCameraOpen 3000 65536 opened _ _ eq_refl)); cbn; lia.
Qed.

Lemma ready_table : hints_ok (w_hints ready).
Proof. exact (bd_ok _ _ (@bounded_reach timer_hal timer_hal_laws 10 (mkPer 0 0) 0 true ready ltac:(lia) ready_reached)). Qed.

Lemma client_refines_spec_witness :
  exists ress st m, run_calls 0 [(1, perf_hint_call kHintCameraOpen 3000); (2, perf_lock_rel_call 65536)] hints_start
    = Some (ress, st) /\ hints_ok st /\
    spec_calls true [(1, perf_hint_call kHintCameraOpen 3000); (2, perf_lock_rel_call 65536)] ∅ ress m.
Proof.
  apply (client_refines_spec 0 0). cbn. lia.
Defined.

Lemma idle_worker_in_line_witness :
  let e := ends_at (PowerHal := timer_hal) (w_hal ready) kLaunch in
  (3000000005 = 0 -> e <= 8 + 999999 + 10) /\ (3000000005 <> 0 -> 3000000005 <= e <= 3000000005 + 999999 + 10).
Proof.
  refine (@idle_worker_in_line timer_hal timer_hal_laws 10 (mkPer 0 0) 0 ready {[ 65536 := (kLaunch, 3000000005) ]}
    kLaunch 3000000005 _ _ _ ready_reached eq_refl eq_refl eq_refl _ _); [lia | lia | intros []; cbn; lia | |].
  - assert ({[ 65536 := (kLaunch, 3000000005) ]} = in_force (w_clock ready) (gRequests (w_hints ready))) as -> by reflexivity.
    apply holds_in_force, ready_table.
  - split; [|right; exists 65536; apply lookup_singleton_eq].
    intros h d [_ [= ->]]%lookup_singleton_Some. lia.
Defined.

Lemma boosts_bounded_witness :
  hints_ok (w_hints ready) /\
  (forall acts tp, w_worker ready = Planned acts tp -> Forall short_action acts /\ (length acts <= 4)%nat) /\
  Forall short_action (w_flight ready).*1 /\
  forall b, ends_at (PowerHal := timer_hal) (w_hal ready) b
    <= Z.max (ends_at (PowerHal := timer_hal) (mkPer 0 0) b) (w_clock ready + kMaxTimedMs * 1000000).
Proof.
  exact (@boosts_bounded timer_hal timer_hal_laws 10 (mkPer 0 0) 0 true ready ltac:(lia) ready_reached).
Defined.
