(* ===== verification/Jail.v ===== *)
(** * The seccomp loaders and the codec gate

    Models [camera/seccomp/camxjail.c], which confines the stock camera provider,
    and [media/seccomp/] ([c2hwjail.cpp], [c2hwjail_check.cpp],
    [c2hwjail_store.cpp]), which confines the stock Codec2 service and decides
    which hardware codecs it offers.  [process] is what the kernel knows of the
    process.  What libminijail's policy compiler, jsoncpp and the system calls
    answer are arguments. *)

From S2P Require Import Prelude.

(** ** Filter programs *)

Record sock_filter := mkInsn { bpf_code : Z; bpf_jt : Z; bpf_jf : Z; bpf_k : Z }.
Abbreviation sock_fprog := (list sock_filter).

Definition BPF_RET_K : Z := 0x06.
Definition SECCOMP_RET_ACTION_FULL : Z := 0xffff0000.
Definition SECCOMP_RET_DATA : Z := 0x0000ffff.
Definition SECCOMP_RET_TRAP : Z := 0x00030000.
Definition SECCOMP_RET_ERRNO : Z := 0x00050000.
Definition EPERM : Z := 1.
Definition ENOENT : Z := 2.

Inductive filter_action := ACTION_RET_TRAP | ACTION_RET_LOG.

(** The fields of [filter_options] that differ between callers. *)
Record filter_options := mkOptions { f_action : filter_action; allow_logging : bool }.

(** What the kernel knows: installed filters (the last first) and the flags. *)
Record process := mkProcess {
  filters : list sock_fprog;
  no_new_privs : bool;
  sigpipe_ignored : bool;
}.

Definition process_start : process := mkProcess [] false false.

Definition set_no_new_privs (p : process) : process := mkProcess (filters p) true (sigpipe_ignored p).
Definition ignore_sigpipe (p : process) : process := mkProcess (filters p) (no_new_privs p) true.
Definition add_filter (f : sock_fprog) (p : process) : process :=
  mkProcess (f :: filters p) (no_new_privs p) (sigpipe_ignored p).

(** What the calls of a loader answer. *)
Record loader_env := mkLoaderEnv {
  signal_ok : bool;
  fopen_ok : bool;
  compile_filter : filter_options -> option sock_fprog;   (* the policy, compiled *)
  prctl_ok : bool;
  sys_seccomp : Z;       (* 0: installed for every thread *)
}.

(** ** camxjail.c *)

Inductive outcome := Aborted | Returned (p : process).

Definition camxjail_install (log_only : bool) (env : loader_env) (p : process) : outcome :=
  let p := if signal_ok env then ignore_sigpipe p else p in
  let act := if log_only then ACTION_RET_LOG else ACTION_RET_TRAP in
  let options := mkOptions act (if act is ACTION_RET_LOG then true else false) in
  if negb (fopen_ok env) then Aborted else
  match compile_filter env options with
  | None => Aborted
  | Some prog =>
      if negb (prctl_ok env) then Aborted else
      let p := set_no_new_privs p in
      if negb (sys_seccomp env =? 0) then Aborted else
      Returned (add_filter prog p)
  end.

(** ** c2hwjail_check.cpp: the filter *)

Definition is_trap (insn : sock_filter) : bool :=
  (bpf_code insn =? BPF_RET_K) && (Z.land (bpf_k insn) SECCOMP_RET_ACTION_FULL =? SECCOMP_RET_TRAP).

Definition trap_to_errno (insn : sock_filter) : sock_filter :=
  if is_trap insn
  then mkInsn (bpf_code insn) (bpf_jt insn) (bpf_jf insn) (Z.lor SECCOMP_RET_ERRNO (Z.land EPERM SECCOMP_RET_DATA))
  else insn.

(** The program rewritten, and the number of instructions changed. *)
Fixpoint TrapsToErrno (prog : sock_fprog) : sock_fprog * Z :=
  match prog with
  | [] => ([], 0)
  | insn :: prog =>
      let '(prog', changed) := TrapsToErrno prog in
      (trap_to_errno insn :: prog', if is_trap insn then changed + 1 else changed)
  end.

Inductive install_error :=
| CannotOpen | CannotCompile | NoTrapResult | CannotSetNoNewPrivs | ThreadNotSynchronised | CannotInstall.

(** [inl]: the instruction count; [inr]: the error. *)
Definition InstallFilter (logOnly : bool) (env : loader_env) (p : process)
    : (Z + install_error) * process :=
  let options := mkOptions (if logOnly then ACTION_RET_LOG else ACTION_RET_TRAP) logOnly in
  if negb (fopen_ok env) then (inr CannotOpen, p) else
  match compile_filter env options with
  | None => (inr CannotCompile, p)
  | Some prog =>
      let '(prog, changed) := if logOnly then (prog, 1) else TrapsToErrno prog in
      if negb logOnly && (changed =? 0) then (inr NoTrapResult, p) else
      if negb (prctl_ok env) then (inr CannotSetNoNewPrivs, p) else
      let p := set_no_new_privs p in
      if negb (sys_seccomp env =? 0)
      then (inr (if 0 <? sys_seccomp env then ThreadNotSynchronised else CannotInstall), p)
      else (inl (Z.of_nat (length prog)), add_filter prog p)
  end.

(** ** c2hwjail_check.cpp: the codec configuration *)

(** jsoncpp's values, with the accessors the check uses. *)
#[warnings="-register-all"]
Inductive json :=
| JNull
| JBool (b : bool)
| JNumber (z : Z)
| JString (s : string)
| JArray (l : list json)
| JObject (get : string -> json).

(** [value[name]] of an object; a member it does not have is null. *)
Definition member (name : string) (v : json) : json :=
  match v with JObject get => get name | _ => JNull end.
Definition isObject (v : json) : bool := match v with JObject _ => true | _ => false end.

Record stat_t := mkStat { st_mode : Z; st_uid : Z; st_gid : Z }.

Record Platform := mkPlatform {
  getProperty : string -> string;
  readFile : string -> option string;
  statPath : string -> Z + stat_t;     (* an errno, or the status *)
  parse : string -> option json;       (* Json::Reader *)
}.

Class AndroidIds := { AID_ROOT : Z; AID_MEDIA_CODEC : Z }.

Definition kModeProperty : string := "ro.vendor.diamaneos.hw_video_decode".
Definition kVariantProperty : string := "vendor.media.target_variant".
Definition kEncodersOnlyVariant : string := "_volcano_v1".
Definition kDecodersVariant : string := "_volcano_v1_hwdec".
Definition kDecoderNode : string := "/dev/video32".
Definition kMaxSpecBytes : Z := Z.shiftl 1 20.

Definition kEncoders : list string :=
  [ "c2.qti.avc.encoder"; "c2.qti.hevc.encoder"; "c2.qti.hevc.encoder.cq";
    "c2.qti.hevc.encoder.hdr"; "c2.qti.heic.encoder" ].
Definition kDecoders : list string :=
  [ "c2.qti.avc.decoder"; "c2.qti.hevc.decoder"; "c2.qti.vp9.decoder" ].

Inductive reason :=
| BadMode (mode : string) | BadVariant (variant expected : string) | CannotRead (path : string)
| TooLarge (path : string) | CannotParse (path : string) | NoVideo (path : string)
| NoCodecsAvailable (path : string) | NotAList (what : string) | NotAName (what : string)
| WrongCodecs (path : string) (found expected : nat) | CannotStat (errno : Z)
| WrongNode (uid gid mode : Z) | EncodersAndDecoders | EncodersOnly
| NoFilter | NoStore.

Fixpoint add_names (what : string) (l : list json) (names : gset string) : gset string + reason :=
  match l with
  | [] => inl names
  | JString s :: l => add_names what l ({[s]} ∪ names)
  | _ :: _ => inr (NotAName what)
  end.

Definition AddCodecNames (list : json) (what : string) (names : gset string) : gset string + reason :=
  match list with
  | JNull => inl names
  | JArray l => add_names what l names
  | _ => inr (NotAList what)
  end.

(** The three lists the Qualcomm library merges. *)
Definition listed_codecs (video available : json) : gset string + reason :=
  match AddCodecNames (member "decoders" available) "codecs-available.decoders" ∅ with
  | inr r => inr r
  | inl names =>
      match AddCodecNames (member "encoders" available) "codecs-available.encoders" names with
      | inr r => inr r
      | inl names => AddCodecNames (member "OptionalCodecs" video) "OptionalCodecs" names
      end
  end.

(** Modes are octal in the source: 0170000, 0020000, 0660, 0600 and 07777. *)
Definition S_ISCHR (m : Z) : bool := Z.land m 0xF000 =? 0x2000.

(** The decoder node is as this boot expects, if it exists. *)
Definition node_ok `{AndroidIds} (decoders : bool) (st : stat_t) : bool :=
  let group := if decoders then AID_MEDIA_CODEC else AID_ROOT in
  let access := if decoders then 0x1B0 else 0x180 in
  S_ISCHR (st_mode st) && (st_uid st =? AID_ROOT) && (st_gid st =? group) &&
    (Z.land (st_mode st) 0xFFF =? access).

Definition AllowedCodecs `{AndroidIds} (platform : Platform) : gset string * reason :=
  let mode := getProperty platform kModeProperty in
  if negb (bool_decide (mode = "")) && negb (bool_decide (mode = "0")) && negb (bool_decide (mode = "1"))
  then (∅, BadMode mode) else
  let decoders := bool_decide (mode = "1") in
  let expected := if decoders then kDecodersVariant else kEncodersOnlyVariant in
  let variant := getProperty platform kVariantProperty in
  if negb (bool_decide (variant = expected)) then (∅, BadVariant variant expected) else
  let path := "/vendor/etc/media" +:+ variant +:+ "/video_system_specs.json" in
  match readFile platform path with
  | None => (∅, CannotRead path)
  | Some text =>
      if kMaxSpecBytes <? Z.of_nat (String.length text) then (∅, TooLarge path) else
      match parse platform text with
      | None => (∅, CannotParse path)
      | Some root =>
          if negb (isObject root) then (∅, CannotParse path) else
          let video := member "Video" root in
          if negb (isObject video) then (∅, NoVideo path) else
          let available := member "codecs-available" video in
          if negb (isObject available) then (∅, NoCodecsAvailable path) else
          match listed_codecs video available with
          | inr r => (∅, r)
          | inl listed =>
              let allowed : gset string :=
                list_to_set kEncoders ∪ (if decoders then list_to_set kDecoders else ∅) in
              if negb (bool_decide (listed = allowed))
              then (∅, WrongCodecs path (size listed) (size allowed)) else
              match statPath platform kDecoderNode with
              | inl error =>
                  if error =? ENOENT
                  then (allowed, if decoders then EncodersAndDecoders else EncodersOnly)
                  else (∅, CannotStat error)
              | inr node =>
                  if negb (node_ok decoders node)
                  then (∅, WrongNode (st_uid node) (st_gid node) (Z.land (st_mode node) 0xFFF))
                  else (allowed, if decoders then EncodersAndDecoders else EncodersOnly)
              end
          end
      end
  end.

Definition KeepAllowedCodecs (codecs allowed : gset string) : gset string :=
  let codecs := filter (fun c => c ∈ allowed) codecs in
  if bool_decide (codecs = ∅) then {["c2hwjail.none"]} else codecs.

(** ** c2hwjail_store.cpp *)

Record traits_t := mkTraits { t_name : string; t_aliases : list string }.

Inductive c2_status_t := C2_OK | C2_NOT_FOUND | C2_OMITTED | C2_OTHER (status : Z).

(** A component store, as far as the gate uses it: what it lists, and what
    [createComponent] and [createInterface] answer for a name. *)
Record C2ComponentStore := mkStore {
  listComponents : list (option traits_t);       (* [None]: a null pointer *)
  createComponent : string -> c2_status_t;
  createInterface : string -> c2_status_t;
}.

Record FilteringStore := mkFiltering {
  mStore : option C2ComponentStore;
  mListed : list traits_t;
  mNames : gset string;
}.

Fixpoint keep_listed (allowed : gset string) (l : list (option traits_t)) (listed : list traits_t) (names : gset string)
    : list traits_t * gset string :=
  match l with
  | [] => (listed, names)
  | Some t :: l =>
      if bool_decide (t_name t ∈ allowed)
      then keep_listed allowed l (listed ++ [t]) (list_to_set (t_aliases t) ∪ ({[t_name t]} ∪ names))
      else keep_listed allowed l listed names
  | None :: l => keep_listed allowed l listed names
  end.

Definition FilterStore (store : option C2ComponentStore) (allowed : gset string) : FilteringStore :=
  match store with
  | None => mkFiltering None [] ∅
  | Some s =>
      if bool_decide (allowed = ∅) then mkFiltering (Some s) [] ∅ else
      let '(listed, names) := keep_listed allowed (listComponents s) [] ∅ in
      mkFiltering (Some s) listed names
  end.

(** The two factory methods; the store is not null if a name is known. *)
Definition filtered_create (make : C2ComponentStore -> string -> c2_status_t) (f : FilteringStore) (n : string)
    : ub c2_status_t :=
  if negb (bool_decide (n ∈ mNames f)) then Ret C2_NOT_FOUND else
  match mStore f with Some s => Ret (make s n) | None => Undef end.

(** The calls that go to the Qualcomm store unchanged, and what they return without one. *)
Inductive store_call :=
  copyBuffer | query_sm | config_sm | querySupportedParams_nb | querySupportedValues_sm.
Definition without_store (c : store_call) : c2_status_t :=
  match c with
  | copyBuffer | query_sm | config_sm => C2_OMITTED
  | querySupportedParams_nb | querySupportedValues_sm => C2_OK
  end.
Definition filtered_call (real : C2ComponentStore -> store_call -> c2_status_t) (f : FilteringStore)
    (c : store_call) : c2_status_t :=
  match mStore f with Some s => real s c | None => without_store c end.

(** ** c2hwjail.cpp *)

(** The static variables. *)
Record c2hwjail := mkC2 { gFilterOnce : bool; gFilterInstalled : bool }.

Definition EnsureFilter (kLogOnly : bool) (env : loader_env) (st : c2hwjail) (p : process) : c2hwjail * process :=
  if gFilterOnce st then (st, p) else
  let '(r, p) := InstallFilter kLogOnly env p in
  (mkC2 true (if r is inl _ then true else false), p).

(** [access_ok]: the stock policy is readable; [real]: what the stock function, if it
    is found, does to the process. *)
Definition SetUpMinijail (kLogOnly : bool) (env : loader_env) (access_ok : bool) (real : option (process -> process))
    (st : c2hwjail) (p : process) : c2hwjail * process :=
  let '(st, p) := EnsureFilter kLogOnly env st p in
  if negb access_ok then (st, p) else
  match real with
  | None => (st, p)
  | Some f => (st, f p)
  end.

Definition getSupportedCodecs `{AndroidIds} (real : option (gset string)) (platform : Platform) : gset string :=
  let codecs := default ∅ real in
  let '(allowed, _) := AllowedCodecs platform in
  KeepAllowedCodecs codecs allowed.

(** The store the service registers; [None] if it aborts. *)
Definition c2hwjailStoreCtor `{AndroidIds} (kLogOnly : bool) (env : loader_env) (platform : Platform)
    (real_ctor : bool) (store : option C2ComponentStore) (st : c2hwjail) (p : process)
    : option FilteringStore * c2hwjail * process :=
  let '(st, p) := EnsureFilter kLogOnly env st p in
  let '(allowed, why) :=
    if negb (gFilterInstalled st) then (∅, NoFilter)
    else match store with
         | None => (∅, NoStore)
         | Some _ => AllowedCodecs platform
         end in
  let filtered := FilterStore store allowed in
  if negb real_ctor then (None, st, p) else (Some filtered, st, p).

(** ** What a filter program answers

    Classic BPF, as far as it matters: [RET K] answers the constant, every other
    instruction the policy compiler emits changes the machine (the accumulator and
    the scratch memory, over the data of the system call) and skips a number of
    instructions.  Which other instructions there are is left open. *)

Section Bpf.
Context {M : Type} (step : sock_filter -> M -> nat * M).

Fixpoint bpf_exec (fuel : nat) (prog : sock_fprog) (pc : nat) (m : M) : option Z :=
  match fuel with
  | O => None
  | S fuel =>
      match prog !! pc with
      | None => None
      | Some insn =>
          if bpf_code insn =? BPF_RET_K then Some (bpf_k insn)
          else let '(skip, m) := step insn m in bpf_exec fuel prog (S pc + skip) m
      end
  end.

(** An answer with its trap turned into an error. *)
Definition denied (v : Z) : Z :=
  if Z.land v SECCOMP_RET_ACTION_FULL =? SECCOMP_RET_TRAP then Z.lor SECCOMP_RET_ERRNO EPERM else v.

Lemma TrapsToErrno_map prog : (TrapsToErrno prog).1 = trap_to_errno <$> prog.
Proof.
  induction prog as [|i prog IH]; [reflexivity|]. cbn. destruct (TrapsToErrno prog). cbn in *. now rewrite IH.
Qed.

Lemma exec_rewritten fuel prog pc m :
  bpf_exec fuel (trap_to_errno <$> prog) pc m = denied <$> bpf_exec fuel prog pc m.
Proof.
  revert pc m. induction fuel as [|fuel IH]; intros pc m; [reflexivity|]. cbn [bpf_exec].
  rewrite list_lookup_fmap. destruct (prog !! pc) as [insn|]; cbn [fmap option_fmap option_map]; [|reflexivity].
  unfold trap_to_errno, is_trap. destruct (bpf_code insn =? BPF_RET_K) eqn:E; cbn [andb].
  - cbn [fmap option_fmap option_map]. unfold denied.
    destruct (_ =? SECCOMP_RET_TRAP); cbn [bpf_code bpf_k]; rewrite E; reflexivity.
  - rewrite E. destruct (step insn m) as [skip m']. apply IH.
Qed.

Lemma denied_no_trap v : Z.land (denied v) SECCOMP_RET_ACTION_FULL <> SECCOMP_RET_TRAP.
Proof.
  unfold denied. destruct (_ =? _) eqn:E; boolprop; [vm_compute; discriminate | exact E].
Qed.

End Bpf.

(** ** The codec gate *)

(** A process never loses a filter. *)
Definition extends (p p' : process) : Prop :=
  (exists fs, filters p' = fs ++ filters p) /\ (no_new_privs p = true -> no_new_privs p' = true).

(** Calls of [SetUpMinijail], whatever the stock function does, and what their loaders met. *)
Inductive c2_run (kLogOnly : bool) : list loader_env -> c2hwjail -> process -> Prop :=
| C2_start p : c2_run kLogOnly [] (mkC2 false false) p
| C2_setup envs env access_ok real st p st' p' :
    c2_run kLogOnly envs st p -> (forall f p, real = Some f -> extends p (f p)) ->
    SetUpMinijail kLogOnly env access_ok real st p = (st', p') -> c2_run kLogOnly (env :: envs) st' p'.

(** The filter program [filt] answers as the compiled policy [prog] does, with each trap
    an EPERM error; a build that only logs installs the policy as it is. *)
Definition enforces (kLogOnly : bool) (prog filt : sock_fprog) : Prop :=
  if kLogOnly then filt = prog else
  forall (M : Type) (step : sock_filter -> M -> nat * M) fuel pc m,
    bpf_exec step fuel filt pc m = denied <$> bpf_exec step fuel prog pc m.

(** The process has no_new_privs and a filter that enforces the policy that one of the
    loaders compiled. *)
Definition jailed (kLogOnly : bool) (envs : list loader_env) (p : process) : Prop :=
  no_new_privs p = true /\ exists env prog filt, env ∈ envs /\
    compile_filter env (mkOptions (if kLogOnly then ACTION_RET_LOG else ACTION_RET_TRAP) kLogOnly) = Some prog /\
    enforces kLogOnly prog filt /\ filt ∈ filters p.

Definition confined (kLogOnly : bool) (envs : list loader_env) (st : c2hwjail) (p : process) : Prop :=
  (gFilterOnce st = false -> gFilterInstalled st = false) /\
  (gFilterInstalled st = true -> jailed kLogOnly envs p).

Lemma jailed_extends kLogOnly envs envs' p p' :
  envs ⊆ envs' -> extends p p' -> jailed kLogOnly envs p -> jailed kLogOnly envs' p'.
Proof.
  intros He [[fs Ef] Hn] [Hp (env & prog & filt & Hin & Hc & Hr & Hf)]. split; [auto|].
  exists env, prog, filt. rewrite Ef. split_and!; auto. set_solver.
Qed.

Lemma install_confines logOnly env p n p' :
  InstallFilter logOnly env p = (inl n, p') ->
  exists prog, compile_filter env (mkOptions (if logOnly then ACTION_RET_LOG else ACTION_RET_TRAP) logOnly) = Some prog /\
    filters p' = (if logOnly then prog else trap_to_errno <$> prog) :: filters p /\ no_new_privs p' = true.
Proof.
  unfold InstallFilter. destruct (fopen_ok env); cbn [negb]; [|discriminate].
  destruct (compile_filter env _) as [prog|] eqn:E; [|discriminate].
  destruct (if logOnly then (prog, 1) else TrapsToErrno prog) as [prog' changed] eqn:Ep.
  destruct (_ && _); [discriminate|]. destruct (prctl_ok env); cbn [negb]; [|discriminate].
  destruct (sys_seccomp env =? 0); cbn [negb]; [|discriminate]. intros [= _ <-].
  exists prog. split; [reflexivity|]. split; [|reflexivity]. cbn. f_equal.
  destruct logOnly; [congruence|]. rewrite <- TrapsToErrno_map, Ep. reflexivity.
Qed.

Lemma extends_refl p : extends p p.
Proof. split; [now exists [] | auto]. Qed.

Lemma ensure_confined kLogOnly envs env st p st' p' :
  confined kLogOnly envs st p -> EnsureFilter kLogOnly env st p = (st', p') -> confined kLogOnly (env :: envs) st' p'.
Proof.
  intros [H1 H2]. unfold EnsureFilter. destruct (gFilterOnce st) eqn:Eo.
  { intros [= <- <-]. split; [congruence|]. intros Hi.
    apply (jailed_extends _ envs _ p); [set_solver | apply extends_refl | auto]. }
  destruct (InstallFilter kLogOnly env p) as [[n|e] p1] eqn:Ei; intros [= <- <-]; split; cbn; try discriminate.
  intros _. destruct (install_confines _ _ _ _ _ Ei) as (prog & Hc & Ef & Hn). split; [exact Hn|].
  exists env, prog, (if kLogOnly then prog else trap_to_errno <$> prog). rewrite Ef.
  split_and!; [left | exact Hc | | left].
  destruct kLogOnly; [reflexivity|]. intros M step fuel pc m. apply exec_rewritten.
Qed.

Lemma c2_run_confined kLogOnly envs st p : c2_run kLogOnly envs st p -> confined kLogOnly envs st p.
Proof.
  intros Hr. induction Hr as [p|envs env access_ok real st p st' p' _ IH Hreal E]; [split; cbn; congruence|].
  revert E. unfold SetUpMinijail. destruct (EnsureFilter kLogOnly env st p) as [st1 p1] eqn:Ee.
  pose proof (ensure_confined _ _ _ _ _ _ _ IH Ee) as [H1 H2].
  destruct access_ok; cbn [negb]; [|intros [= <- <-]; now split].
  destruct real as [f|]; intros [= <- <-]; [|now split]. split; [exact H1|]. intros Hi.
  eapply jailed_extends; [reflexivity | now apply Hreal | auto].
Qed.

Lemma keep_listed_spec allowed l listed names listed' names' :
  keep_listed allowed l listed names = (listed', names') ->
  (forall n, n ∈ names' <-> n ∈ names \/ exists t, Some t ∈ l /\ t_name t ∈ allowed /\ (n = t_name t \/ n ∈ t_aliases t)) /\
  (forall t, t ∈ listed' <-> t ∈ listed \/ Some t ∈ l /\ t_name t ∈ allowed).
Proof.
  revert listed names. induction l as [|[t|] l IH]; intros listed names; cbn.
  - intros [= <- <-]. set_solver.
  - case_bool_decide as Ht; intros E; apply IH in E as [H1 H2]; split.
    + intros n. rewrite H1. setoid_rewrite elem_of_cons. split; [|set_solver].
      intros [Hn|(t' & ? & ? & ?)]; [|right; exists t'; auto].
      apply elem_of_union in Hn as [Ha%elem_of_list_to_set|[Hs%elem_of_singleton|Hs]%elem_of_union]; [| |auto];
        right; exists t; auto.
    + intros t'. rewrite H2, elem_of_app, list_elem_of_singleton, elem_of_cons. naive_solver.
    + intros n. rewrite H1. setoid_rewrite elem_of_cons. naive_solver.
    + intros t'. rewrite H2, elem_of_cons. naive_solver.
  - intros E. apply IH in E as [H1 H2]. split.
    + intros n. rewrite H1. setoid_rewrite elem_of_cons. naive_solver.
    + intros t'. rewrite H2, elem_of_cons. naive_solver.
Qed.

(** *** What a boot expects *)

(** A list of the target specification names [names]; a missing list names none. *)
Definition list_names (v : json) (names : gset string) : Prop :=
  v = JNull /\ names = ∅ \/ exists l, v = JArray (JString <$> l) /\ names = list_to_set l.

(** The codecs the Qualcomm library takes from a target specification. *)
Definition spec_names (root : json) (names : gset string) : Prop :=
  let video := member "Video" root in
  let available := member "codecs-available" video in
  isObject available = true /\ exists d e o, list_names (member "decoders" available) d /\
    list_names (member "encoders" available) e /\ list_names (member "OptionalCodecs" video) o /\ names = d ∪ e ∪ o.

(** The codecs of a boot with or without decoders. *)
Definition boot_codecs (decoders : bool) : gset string :=
  list_to_set (kEncoders ++ if decoders then kDecoders else []).

(** Mode, variant, target specification and decoder node are those of such a boot. *)
Record boot_expected `{AndroidIds} (platform : Platform) (decoders : bool) : Prop := mkBoot {
  be_mode : let mode := getProperty platform kModeProperty in
    if decoders then mode = "1" else mode = "" \/ mode = "0";
  be_variant : getProperty platform kVariantProperty = if decoders then "_volcano_v1_hwdec" else "_volcano_v1";
  be_spec : exists text root, readFile platform ("/vendor/etc/media" +:+ getProperty platform kVariantProperty
      +:+ "/video_system_specs.json") = Some text /\ Z.of_nat (String.length text) <= 1024 * 1024 /\
    parse platform text = Some root /\ spec_names root (boot_codecs decoders);
  be_node : match statPath platform "/dev/video32" with
    | inl error => error = ENOENT
    | inr st => S_ISCHR (st_mode st) = true /\ st_uid st = AID_ROOT /\
        st_gid st = (if decoders then AID_MEDIA_CODEC else AID_ROOT) /\
        Z.land (st_mode st) 0xFFF = if decoders then 0x1B0 else 0x180
    end;
}.

(** The configuration of this boot allows the codec. *)
Definition boot_allows `{AndroidIds} (platform : Platform) (c : string) : Prop :=
  exists decoders, boot_expected platform decoders /\ c ∈ boot_codecs decoders.

Lemma add_names_spec what l names names' :
  add_names what l names = inl names' <-> exists ss, l = JString <$> ss /\ names' = list_to_set ss ∪ names.
Proof.
  revert names. induction l as [|v l IH]; intros names; cbn.
  - split; [intros [= <-]; exists []; set_solver|]. intros ([|s ss] & [=] & ->). f_equal. set_solver.
  - destruct v; try (split; [discriminate | now intros ([|s' ss] & [=] & _)]). rewrite IH. split.
    + intros (ss & -> & ->). exists (s :: ss). split; [reflexivity | set_solver].
    + intros ([|s' ss] & [=] & ->). subst. exists ss. split; [reflexivity | set_solver].
Qed.

Lemma AddCodecNames_spec v what names names' :
  AddCodecNames v what names = inl names' <-> exists n, list_names v n /\ names' = n ∪ names.
Proof.
  unfold AddCodecNames, list_names. destruct v; try (split; [discriminate | naive_solver]).
  - split; [intros [= <-]; exists ∅; set_solver | intros (n & [[_ ->]|(l & [=] & _)] & ->); f_equal; set_solver].
  - rewrite add_names_spec. naive_solver.
Qed.

Lemma listed_codecs_spec video available names :
  listed_codecs video available = inl names <-> exists d e o, list_names (member "decoders" available) d /\
    list_names (member "encoders" available) e /\ list_names (member "OptionalCodecs" video) o /\ names = d ∪ e ∪ o.
Proof.
  unfold listed_codecs. destruct (AddCodecNames (member "decoders" _) _ _) as [n1|r1] eqn:E1.
  2:{ split; [discriminate|]. intros (d & e & o & Hd & _). enough (inr r1 = inl (d ∪ ∅)) by discriminate.
      rewrite <- E1. apply AddCodecNames_spec. eauto. }
  apply AddCodecNames_spec in E1 as (d1 & Hd1 & ->).
  destruct (AddCodecNames (member "encoders" _) _ _) as [n2|r2] eqn:E2.
  2:{ split; [discriminate|]. intros (d & e & o & _ & He & _). enough (inr r2 = inl (e ∪ (d1 ∪ ∅))) by discriminate.
      rewrite <- E2. apply AddCodecNames_spec. eauto. }
  apply AddCodecNames_spec in E2 as (e1 & He1 & ->). rewrite AddCodecNames_spec. split.
  - intros (o & Ho & ->). exists d1, e1, o. split_and!; auto. set_solver.
  - intros (d & e & o & Hd & He & Ho & ->). exists o. split; [exact Ho|].
    assert (forall v a b, list_names v a -> list_names v b -> a = b) as Huniq.
    { intros v a b [[-> ->]|(l & -> & ->)] [[? ->]|(l' & [= El] & ->)]; try congruence.
      assert (Inj (=) (=) JString) by now intros ? ? [=]. f_equal. now apply (inj (fmap (M := list) JString)). }
    rewrite (Huniq _ _ _ Hd1 Hd), (Huniq _ _ _ He1 He). set_solver.
Qed.

(** The node is as expected, as [AllowedCodecs] compares it. *)
Lemma node_ok_spec `{AndroidIds} decoders st : node_ok decoders st = true <->
  S_ISCHR (st_mode st) = true /\ st_uid st = AID_ROOT /\
  st_gid st = (if decoders then AID_MEDIA_CODEC else AID_ROOT) /\
  Z.land (st_mode st) 0xFFF = if decoders then 0x1B0 else 0x180.
Proof. unfold node_ok. rewrite !andb_true_iff, !Z.eqb_eq. tauto. Qed.

Ltac none_allowed := let Hc := fresh in
  first [intros Hc; exfalso; revert Hc; apply not_elem_of_empty | split; [none_allowed|]].

Lemma boot_expected_decoders `{AndroidIds} platform (decoders : bool) :
  boot_expected platform decoders -> decoders = bool_decide (getProperty platform kModeProperty = "1").
Proof.
  intros [Hm _ _ _]. cbv zeta in Hm. destruct decoders; [symmetry; now apply bool_decide_eq_true|].
  symmetry. apply bool_decide_eq_false. intros E. rewrite E in Hm. now destruct Hm.
Qed.

Lemma boot_codecs_eq (decoders : bool) :
  (list_to_set kEncoders ∪ (if decoders then list_to_set kDecoders else ∅) : gset string) = boot_codecs decoders.
Proof. unfold boot_codecs. rewrite list_to_set_app_L. now destruct decoders. Qed.

(** A codec is allowed if every comparison of [AllowedCodecs] holds. *)
Lemma allowed_if `{AndroidIds} platform decoders :
  boot_expected platform decoders -> (AllowedCodecs platform).1 = boot_codecs decoders.
Proof.
  intros Hb. pose proof (boot_expected_decoders _ _ Hb) as Ed. destruct Hb as [Hm Hv Hs Hn]. cbv zeta in Hm.
  unfold AllowedCodecs. rewrite <- Ed, boot_codecs_eq.
  replace (_ && _ && _) with false by (destruct decoders; [rewrite Hm | destruct Hm as [-> | ->]]; reflexivity).
  rewrite bool_decide_true by (now destruct decoders). cbn [negb].
  destruct Hs as (text & root & Hr & Hl & Hp & Hobj & Hnames). rewrite Hr.
  replace (kMaxSpecBytes <? _) with false by (symmetry; apply Z.ltb_ge; exact Hl). rewrite Hp.
  apply listed_codecs_spec in Hnames. rewrite Hobj, Hnames.
  destruct (isObject (member "Video" root)) eqn:Evid; [|now destruct (member "Video" root)].
  destruct (isObject root) eqn:Er; [|now destruct root]. cbn [negb].
  rewrite bool_decide_true by reflexivity. cbn [negb].
  change kDecoderNode with "/dev/video32". destruct (statPath platform _) as [e|st].
  - subst e. reflexivity.
  - apply node_ok_spec in Hn. now rewrite Hn.
Qed.

(** And no codec is otherwise. *)
Lemma allowed_only `{AndroidIds} platform c :
  c ∈ (AllowedCodecs platform).1 ->
  boot_expected platform (bool_decide (getProperty platform kModeProperty = "1")).
Proof.
  unfold AllowedCodecs. set (mode := getProperty platform kModeProperty).
  destruct (_ && _ && _) eqn:Em; [none_allowed|]. set (dec := bool_decide (mode = "1")). rewrite boot_codecs_eq.
  destruct (bool_decide (getProperty _ _ = _)) eqn:Ev; cbn [negb]; [|none_allowed]. apply bool_decide_eq_true_1 in Ev.
  destruct (readFile _ _) as [text|] eqn:Er; [|none_allowed]. destruct (_ <? _) eqn:El; [none_allowed|].
  destruct (parse _ _) as [root|] eqn:Ep; [|none_allowed]. destruct (isObject root); cbn [negb]; [|none_allowed].
  destruct (isObject (member "Video" root)); cbn [negb]; [|none_allowed].
  destruct (isObject (member "codecs-available" _)) eqn:Ea; cbn [negb]; [|none_allowed].
  destruct (listed_codecs _ _) as [listed|] eqn:Els; [|none_allowed].
  destruct (bool_decide (listed = _)) eqn:Ec; cbn [negb]; [|none_allowed]. apply bool_decide_eq_true_1 in Ec as ->.
  intros Hc. split.
  - cbv zeta. fold mode. unfold dec.
    destruct (decide (mode = "1")) as [E1|E1]; [now rewrite bool_decide_true|]. rewrite (bool_decide_false (mode = "1") E1) in *.
    destruct (decide (mode = "")); [auto|]. destruct (decide (mode = "0")); [auto|].
    rewrite !bool_decide_false in Em by assumption. discriminate.
  - rewrite Ev. now destruct dec.
  - exists text, root. apply Z.ltb_ge in El. split_and!; [exact Er | exact El | exact Ep |].
    split; [exact Ea | now apply listed_codecs_spec in Els].
  - change kDecoderNode with "/dev/video32" in Hc. destruct (statPath platform _) as [e|st];
      [destruct (e =? ENOENT) eqn:Ee | destruct (node_ok dec st) eqn:Ee]; boolprop; cbn [negb fst] in Hc;
      try (destruct (not_elem_of_empty _ Hc)); [assumption | now apply node_ok_spec].
Qed.

Lemma allowed_spec `{AndroidIds} platform c : c ∈ (AllowedCodecs platform).1 <-> boot_allows platform c.
Proof.
  split.
  - intros Hc. pose proof (allowed_only _ _ Hc) as Hb. exists (bool_decide (getProperty platform kModeProperty = "1")).
    split; [exact Hb|]. now rewrite <- (allowed_if _ _ Hb).
  - intros (decoders & Hb & Hc). now rewrite (allowed_if _ _ Hb).
Qed.

(** What the gate offers of a store. *)
Lemma filter_store_spec store allowed :
  (forall n, n ∈ mNames (FilterStore store allowed) <-> exists s t, store = Some s /\ Some t ∈ listComponents s /\
     t_name t ∈ allowed /\ (n = t_name t \/ n ∈ t_aliases t)) /\
  (forall t, t ∈ mListed (FilterStore store allowed) <-> exists s, store = Some s /\ Some t ∈ listComponents s /\
     t_name t ∈ allowed).
Proof.
  destruct store as [s|]; cbn; [|set_solver]. case_bool_decide as Ee; [subst allowed; set_solver|].
  destruct (keep_listed allowed (listComponents s) [] ∅) as [listed names] eqn:Ek. cbn.
  apply keep_listed_spec in Ek as [H1 H2]. split.
  - intros n. rewrite H1. set_solver.
  - intros t. rewrite H2. set_solver.
Qed.

Lemma filter_store_store store allowed : mStore (FilterStore store allowed) = store.
Proof.
  destruct store as [s|]; cbn; [|reflexivity]. case_bool_decide; [reflexivity|].
  now destruct (keep_listed _ _ _ _).
Qed.

(** ** Properties *)

(** The camera provider never runs unconfined: the loader either aborts or
    returns with the compiled policy installed for every thread, on top of the
    filters there were, and with no_new_privs set; it aborts exactly if a step of
    the installation fails. *)
Theorem provider_never_unconfined log_only env p :
  match camxjail_install log_only env p with
  | Returned p' => exists prog,
      compile_filter env (mkOptions (if log_only then ACTION_RET_LOG else ACTION_RET_TRAP) log_only) = Some prog /\
      filters p' = prog :: filters p /\ no_new_privs p' = true
  | Aborted => fopen_ok env = false \/ prctl_ok env = false \/ sys_seccomp env <> 0 \/
      compile_filter env (mkOptions (if log_only then ACTION_RET_LOG else ACTION_RET_TRAP) log_only) = None
  end.
Proof.
  unfold camxjail_install.
  replace (if (if log_only then ACTION_RET_LOG else ACTION_RET_TRAP) is ACTION_RET_LOG then true else false)
    with log_only by now destruct log_only.
  destruct (fopen_ok env) eqn:E1; cbn [negb]; [|auto].
  destruct (compile_filter env _) as [prog|] eqn:E2; [|auto].
  destruct (prctl_ok env) eqn:E3; cbn [negb]; [|auto].
  destruct (sys_seccomp env =? 0) eqn:E4; cbn [negb]; boolprop; [|auto].
  exists prog. destruct (signal_ok env); auto.
Qed.

(** The filter of the codec service denies instead of killing: once installed (and
    unless it is built to log only), on every system call and whatever the other
    instructions of the program do, it answers as the compiled policy does, with
    each trap replaced by an EPERM error; it never answers with a trap. *)
Theorem codec_filter_denies env p n p' :
  InstallFilter false env p = (inl n, p') ->
  exists prog prog', compile_filter env (mkOptions ACTION_RET_TRAP false) = Some prog /\
    filters p' = prog' :: filters p /\ no_new_privs p' = true /\
    forall (M : Type) (step : sock_filter -> M -> nat * M) fuel pc m,
      bpf_exec step fuel prog' pc m = denied <$> bpf_exec step fuel prog pc m /\
      forall v, bpf_exec step fuel prog' pc m = Some v ->
        Z.land v SECCOMP_RET_ACTION_FULL <> SECCOMP_RET_TRAP.
Proof.
  intros Hi. destruct (install_confines false env p n p' Hi) as (prog & Ec & Ef & Hn).
  exists prog, (trap_to_errno <$> prog). split; [exact Ec|]. split; [exact Ef|]. split; [exact Hn|].
  intros M step fuel pc m. split; [apply exec_rewritten|]. intros v. rewrite exec_rewritten.
  destruct (bpf_exec step fuel prog pc m) as [w|]; cbn; [|discriminate]. intros [= <-]. apply denied_no_trap.
Qed.

(** C24. A client can only reach a codec through the gate, and reaches every codec this
    boot allows.  Whatever calls of [SetUpMinijail] came before, the store the service
    registers knows a name exactly if the filter could be installed, the name is that of a
    component the Qualcomm store lists or one of its aliases, and this boot's configuration
    allows the component; it lists exactly those components.  The configuration allows the
    five hardware encoders, and the three non-secure decoders if the mode asks for them, and
    only if the mode, the target variant, the codecs of the target specification and the
    decoder node (if it exists: its type, owner, group and permissions) are all those of
    such a boot: one that differs allows nothing.  If the filter was installed, the process
    has no_new_privs and among its filters one that answers every system call as the policy
    some loader of this process compiled, with each trap an EPERM error (a build that only
    logs: the policy itself).  Creating a component never uses a missing store, other
    calls go to the store if there is one, and the Qualcomm plugin is never given an empty
    set. *)
Theorem codecs_gated `{AndroidIds} kLogOnly envs env platform real_ctor store st p f st' p' :
  c2_run kLogOnly envs st p ->
  c2hwjailStoreCtor kLogOnly env platform real_ctor store st p = (Some f, st', p') ->
  (gFilterInstalled st' = true -> jailed kLogOnly (env :: envs) p') /\
  (forall n, n ∈ mNames f <-> gFilterInstalled st' = true /\
     exists s t, store = Some s /\ Some t ∈ listComponents s /\
       boot_allows platform (t_name t) /\ (n = t_name t \/ n ∈ t_aliases t)) /\
  (forall t, t ∈ mListed f <-> gFilterInstalled st' = true /\
     exists s, store = Some s /\ Some t ∈ listComponents s /\ boot_allows platform (t_name t)) /\
  (forall make n, exists c, filtered_create make f n = Ret c /\ (n ∉ mNames f -> c = C2_NOT_FOUND)) /\
  (forall real c, filtered_call real f c = default (without_store c) (store ≫= fun s => Some (real s c))) /\
  forall real, getSupportedCodecs real platform <> ∅.
Proof.
  intros Hr. unfold c2hwjailStoreCtor. destruct (EnsureFilter kLogOnly env st p) as [st1 p1] eqn:Ee.
  pose proof (ensure_confined _ _ _ _ _ _ _ (c2_run_confined _ _ _ _ Hr) Ee) as [_ Hconf].
  set (aw := if negb (gFilterInstalled st1) then _ else _). destruct aw as [allowed why] eqn:Eaw. unfold aw in Eaw.
  destruct real_ctor; cbn [negb]; [|discriminate]. intros [= <- <- <-].
  assert (forall c, store <> None -> c ∈ allowed <-> gFilterInstalled st1 = true /\ boot_allows platform c) as Hall.
  { intros c Hs. destruct (gFilterInstalled st1); cbn [negb] in Eaw; [|injection Eaw as <- _; set_solver].
    destruct store; [|congruence]. rewrite <- allowed_spec, Eaw. naive_solver. }
  destruct (filter_store_spec store allowed) as [Hn Ht]. split_and!; [exact Hconf | | | | |].
  - intros n. rewrite Hn. split.
    + intros (s & t & -> & Hl & Ha & Hor). apply Hall in Ha; naive_solver.
    + intros (Hi & s & t & -> & Hl & Hb & Hor). exists s, t. split_and!; auto. now apply Hall.
  - intros t. rewrite Ht. split.
    + intros (s & -> & Hl & Ha). apply Hall in Ha; naive_solver.
    + intros (Hi & s & -> & Hl & Hb). exists s. split_and!; auto. now apply Hall.
  - intros make n. unfold filtered_create. case_bool_decide as Hin; cbn [negb]; [|eauto].
    rewrite filter_store_store. destruct (proj1 (Hn n) Hin) as (s & t & -> & _).
    eexists. split; [reflexivity | intros Hx; now destruct Hx].
  - intros real c. unfold filtered_call. rewrite filter_store_store. now destruct store.
  - intros real. unfold getSupportedCodecs, KeepAllowedCodecs. destruct (AllowedCodecs platform).
    case_bool_decide; [|assumption]. apply non_empty_singleton_L.
Qed.

(** ** Witnesses *)

Definition all_well : loader_env :=
  mkLoaderEnv true true (fun _ => Some [mkInsn 0x20 0 0 0; mkInsn 0x15 0 1 64; mkInsn 0x06 0 0 0x7fff0000; mkInsn 0x06 0 0 0x00030000])
    true 0.

Lemma codec_filter_denies_witness :
  exists prog prog', compile_filter all_well (mkOptions ACTION_RET_TRAP false) = Some prog /\
    filters (InstallFilter false all_well process_start).2 = prog' :: [] /\
    no_new_privs (InstallFilter false all_well process_start).2 = true /\
    forall (M : Type) (step : sock_filter -> M -> nat * M) fuel pc m,
      bpf_exec step fuel prog' pc m = denied <$> bpf_exec step fuel prog pc m /\
      forall v, bpf_exec step fuel prog' pc m = Some v ->
        Z.land v SECCOMP_RET_ACTION_FULL <> SECCOMP_RET_TRAP.
Proof. exact (codec_filter_denies all_well process_start 4 (InstallFilter false all_well process_start).2 eq_refl). Defined.

#[local] Instance android_ids : AndroidIds := {| AID_ROOT := 0; AID_MEDIA_CODEC := 1046 |}.

Definition spec_file : json :=
  JObject (fun n => if bool_decide (n = "Video") then
    JObject (fun n => if bool_decide (n = "codecs-available") then
      JObject (fun n => if bool_decide (n = "encoders") then JArray (JString <$> kEncoders) else JNull)
    else JNull)
  else JNull).

Definition encoders_boot : Platform :=
  mkPlatform (fun n => if bool_decide (n = kVariantProperty) then kEncodersOnlyVariant else "0")
    (fun _ => Some "{}") (fun _ => inl ENOENT) (fun _ => Some spec_file).

Definition stock_store : C2ComponentStore :=
  mkStore [Some (mkTraits "c2.qti.avc.encoder" ["OMX.qcom.video.encoder.avc"]); Some (mkTraits "c2.qti.avc.decoder" []); None]
    (fun _ => C2_OK) (fun _ => C2_OK).

Definition booted : option FilteringStore * c2hwjail * process :=
  c2hwjailStoreCtor false all_well encoders_boot true (Some stock_store) (mkC2 false false) process_start.
Definition booted_store : FilteringStore := default (mkFiltering None [] ∅) booted.1.1.

(** The encoders are offered, behind the rewritten filter; the decoder is not. *)
Lemma codecs_gated_witness :
  jailed false [all_well] booted.2 /\ boot_allows encoders_boot "c2.qti.avc.encoder" /\
  "OMX.qcom.video.encoder.avc" ∈ mNames booted_store /\ "c2.qti.avc.decoder" ∉ mNames booted_store.
Proof.
  destruct (codecs_gated false [] all_well encoders_boot true (Some stock_store) (mkC2 false false) process_start
    booted_store booted.1.2 booted.2) as (Hj & Hn & _ & _); [constructor | vm_compute; reflexivity|].
  split; [apply Hj; vm_compute; reflexivity|].
  assert ("OMX.qcom.video.encoder.avc" ∈ mNames booted_store) as Hin by (apply (bool_decide_unpack _); vm_compute; exact I).
  split_and!; [|exact Hin |].
  - destruct (proj1 (Hn _) Hin) as (_ & s & t & [= <-] & Hl & Hb & _). cbn in Hl.
    apply elem_of_cons in Hl as [[= ->]|Hl]; [exact Hb|].
    apply elem_of_cons in Hl as [[= ->]|Hl]; [|set_solver]. destruct Hb as (dec & Hb & Hc).
    rewrite (boot_expected_decoders _ _ Hb) in Hc. apply (bool_decide_pack _) in Hc. vm_compute in Hc. destruct Hc.
  - apply (bool_decide_unpack _). vm_compute. exact I.
Defined.
