(* ===== verification/Bluetooth.v ===== *)
(** * The Bluetooth HCI service

    [bluetooth/service.cpp]: installs a seccomp filter, names the Bluetooth chip for the
    stock HCI implementation, and registers that implementation.  The process and
    the answers of the policy compiler and of [seccomp] are those of [Jail]; [main] is
    the list of what it does after the filter, each with the process it does it in.
    Theorem: nothing runs unconfined, the property is set only when it was not,
    and to the name of the first chip of the table the driver's string contains. *)

From S2P Require Import Prelude LibBase CString Jail.

(** ** The filter *)

(** [InstallSeccompFilter]: [log_only] is [BT_SECCOMP_LOG_ONLY]. *)
Definition InstallSeccompFilter (log_only : bool) (env : loader_env) (p : process) : outcome :=
  let kSeccompAction := if log_only then ACTION_RET_LOG else ACTION_RET_TRAP in
  let options := mkOptions kSeccompAction (if kSeccompAction is ACTION_RET_LOG then true else false) in
  if negb (fopen_ok env) then Aborted else
  match compile_filter env options with
  | None => Aborted
  | Some prog =>
      if negb (prctl_ok env) then Aborted else
      let p := set_no_new_privs p in
      if negb (sys_seccomp env =? 0) then Aborted else
      Returned (add_filter prog p)
  end.

(** ** The SoC name *)

Definition kSocProperty : string := "persist.vendor.qcom.bluetooth.soc".
Definition kChipsetIdSize : nat := 32.

Record SocName := { chipset : string; soc_name : string }.

Definition kSocNames : list SocName :=
  [ {| chipset := "qca6490"; soc_name := "hastings" |}; {| chipset := "qca6390"; soc_name := "hastings" |};
    {| chipset := "kiwi"; soc_name := "hamilton" |}; {| chipset := "wcn7850"; soc_name := "hamilton" |};
    {| chipset := "peach"; soc_name := "ganges" |}; {| chipset := "wcn786x"; soc_name := "ganges" |};
    {| chipset := "wcn3990"; soc_name := "cherokee" |}; {| chipset := "wcn6750"; soc_name := "moselle" |};
    {| chipset := "wcn6450"; soc_name := "evros" |} ].

(** What the calls of [SetSocName] answer: the property, the device, and the bytes
    the driver copies, [None] when the ioctl fails. *)
Record soc_env := {
  property_value : string;
  btpower_open : bool;
  get_chipset_id : option string;
}.

Inductive action :=
| Umask (mask : Z)
| ConfigureRpcThreadpool (threads : Z) (callerWillJoin : bool)
| PropertySet (key value : string)
| RegisterHci (minor : Z)        (* loads the implementation *)
| JoinRpcThreadpool.

(** The loop over the table. *)
Fixpoint soc_lookup (table : list SocName) (id : string) : option SocName :=
  match table with
  | [] => None
  | soc :: table =>
      match strstr id (chipset soc) with
      | Some _ => Some soc
      | None => soc_lookup table id
      end
  end.

(** [SetSocName]; the result of [property_set] is only logged. *)
Definition SetSocName (env : soc_env) : list action :=
  if (0 <? Z.of_nat (String.length (property_value env))) then []
  else if negb (btpower_open env) then []
  else match get_chipset_id env with
       | None => []
       | Some bytes =>
           let id := c_str (str_take kChipsetIdSize bytes) in
           match soc_lookup kSocNames id with
           | Some soc => [PropertySet kSocProperty (soc_name soc)]
           | None => []
           end
       end.

(** [main]: [None] when the filter cannot be installed.  [hci11_ok]: registering
    version 1.1 succeeds. [022] in octal is 18. *)
Definition main (log_only : bool) (jail : loader_env) (env : soc_env) (hci11_ok : bool) (p : process)
  : option (list (action * process)) :=
  match InstallSeccompFilter log_only jail p with
  | Aborted => None
  | Returned p =>
      Some (map (fun a => (a, p))
        ([Umask 18; ConfigureRpcThreadpool 1 true] ++ SetSocName env ++
         (if hci11_ok then [RegisterHci 1] else [RegisterHci 1; RegisterHci 0]) ++
         [JoinRpcThreadpool]))
  end.

(** ** Lemmas *)

Lemma InstallSeccompFilter_spec log_only env p :
  match InstallSeccompFilter log_only env p with
  | Returned p' => exists prog, compile_filter env
        (mkOptions (if log_only then ACTION_RET_LOG else ACTION_RET_TRAP) log_only) = Some prog /\
      filters p' = prog :: filters p /\ no_new_privs p' = true
  | Aborted => fopen_ok env = false \/ prctl_ok env = false \/ sys_seccomp env <> 0 \/
      compile_filter env
        (mkOptions (if log_only then ACTION_RET_LOG else ACTION_RET_TRAP) log_only) = None
  end.
Proof.
  unfold InstallSeccompFilter.
  replace (if (if log_only then ACTION_RET_LOG else ACTION_RET_TRAP) is ACTION_RET_LOG then true else false)
    with log_only by now destruct log_only.
  destruct (fopen_ok env) eqn:E1; cbn [negb]; [|auto].
  destruct (compile_filter env _) as [prog|] eqn:E2; [|auto].
  destruct (prctl_ok env) eqn:E3; cbn [negb]; [|auto].
  destruct (sys_seccomp env =? 0) eqn:E4; cbn [negb]; boolprop; [|auto].
  exists prog. auto.
Qed.

(** A string is found iff it is somewhere inside. *)
Lemma strstr_spec s pat : (exists r, strstr s pat = Some r) <-> exists a b, s = a +:+ (pat +:+ b).
Proof.
  assert (forall s', String.prefix pat s' = true <-> exists b, s' = pat +:+ b) as Hpre.
  { clear s. induction pat as [|c pat IH]; intros s'; simpl.
    - split; [eauto|]. now destruct s'.
    - destruct s' as [|c' s']; [split; [discriminate | intros (b & Hb); discriminate]|].
      change (String.prefix (String c pat) (String c' s')) with
        (if Ascii.ascii_dec c c' then String.prefix pat s' else false).
      destruct (Ascii.ascii_dec c c') as [->|Hne].
      + rewrite IH. split; intros (b & Hb); exists b; congruence.
      + split; [discriminate|]. intros (b & [= -> ->]). contradiction. }
  induction s as [|c s IH]; cbn [strstr].
  - destruct (String.prefix pat "") eqn:E; split; intros.
    + apply Hpre in E as (b & ->). now exists "", b.
    + eauto.
    + now destruct H.
    + destruct H as (a & b & Hab). destruct a; [|discriminate]. cbn in Hab.
      assert (String.prefix pat "" = true) by (apply Hpre; eauto). congruence.
  - destruct (String.prefix pat (String c s)) eqn:E; split; intros.
    + apply Hpre in E as (b & E). now exists "", b.
    + eauto.
    + apply IH in H as (a & b & ->). now exists (String c a), b.
    + destruct H as ([|c' a] & b & Hab).
      * assert (String.prefix pat (String c s) = true) by (apply Hpre; eauto). congruence.
      * apply IH. injection Hab as -> ->. now exists a, b.
Qed.

(** [soc] is the first entry of the table whose chip occurs in [id]. *)
Definition occurs (pat s : string) : Prop := exists a b, s = a +:+ (pat +:+ b).

Lemma soc_lookup_first table id soc :
  soc_lookup table id = Some soc <->
  exists before after, table = before ++ soc :: after /\ occurs (chipset soc) id /\
    Forall (fun other => ~ occurs (chipset other) id) before.
Proof.
  induction table as [|x table IH]; cbn [soc_lookup].
  - split; [discriminate|]. intros ([|] & after & E & _); discriminate.
  - destruct (strstr id (chipset x)) as [r|] eqn:E.
    + assert (occurs (chipset x) id) as Ho by (apply strstr_spec; eauto). split.
      * intros [= <-]. now exists [], table.
      * intros ([|y before] & after & [= -> ->] & _ & Hb); [reflexivity|].
        apply Forall_cons in Hb as [Hn _]. contradiction.
    + assert (~ occurs (chipset x) id) as Hno
        by (intros Ho; apply strstr_spec in Ho as (r & Hr); congruence).
      rewrite IH. split.
      * intros (before & after & -> & Ho & Hb). exists (x :: before), after.
        split; [reflexivity|]. split; [exact Ho | now constructor].
      * intros ([|y before] & after & [= -> ->] & Ho & Hb); [contradiction|].
        apply Forall_cons in Hb as [_ Hb]. now exists before, after.
Qed.

Lemma SetSocName_spec env key value :
  PropertySet key value ∈ SetSocName env <->
  key = kSocProperty /\ property_value env = "" /\ btpower_open env = true /\
  exists bytes before soc after, get_chipset_id env = Some bytes /\
    value = soc_name soc /\ kSocNames = before ++ soc :: after /\
    occurs (chipset soc) (c_str (str_take kChipsetIdSize bytes)) /\
    Forall (fun other => ~ occurs (chipset other) (c_str (str_take kChipsetIdSize bytes))) before.
Proof.
  unfold SetSocName. destruct (property_value env) as [|c v]; cbn [String.length].
  2: { split; [|intros (_ & ? & _); discriminate]. case_goal; [set_solver|]. boolprop. lia. }
  change (0 <? Z.of_nat 0) with false. cbv iota.
  destruct (btpower_open env); cbn [negb]; [|split; [set_solver | intros (_ & _ & ? & _); discriminate]].
  destruct (get_chipset_id env) as [bytes|].
  2: { split; [set_solver|]. intros (_ & _ & _ & ? & ? & ? & ? & ? & _). discriminate. }
  set (id := c_str _). destruct (soc_lookup kSocNames id) as [soc|] eqn:E.
  - split.
    + intros Hin. apply list_elem_of_singleton in Hin. injection Hin as -> ->.
      apply soc_lookup_first in E as (before & after & Et & Ho & Hb).
      split; [reflexivity|]. split; [reflexivity|]. split; [reflexivity|].
      exists bytes, before, soc, after. auto.
    + intros (-> & _ & _ & b & before & soc' & after & [= <-] & -> & Et & Ho & Hb).
      assert (soc_lookup kSocNames id = Some soc') as E' by (apply soc_lookup_first; eauto).
      rewrite E in E'. injection E' as ->. left.
  - split; [set_solver|].
    intros (-> & _ & _ & b & before & soc' & after & [= <-] & -> & Et & Ho & Hb).
    assert (soc_lookup kSocNames id = Some soc') as E' by (apply soc_lookup_first; eauto).
    congruence.
Qed.

(** ** Property *)

(** C40. The HCI implementation never runs unconfined: the service aborts, exactly if a step
    of the installation fails, or does everything, from its first action to loading the
    implementation, in a process with the compiled policy installed and no_new_privs
    set.  It always ends up serving, registers version 1.0 only after 1.1 failed, and
    sets the SoC property only when it was empty, once, to the name of the first table
    entry whose chip occurs in the string the driver returned. *)
Theorem hci_service_confined (log_only : bool) (jail : loader_env) (env : soc_env) (hci11_ok : bool)
    (p : process) :
  match main log_only jail env hci11_ok p with
  | None => fopen_ok jail = false \/ prctl_ok jail = false \/ sys_seccomp jail <> 0 \/
      compile_filter jail
        (mkOptions (if log_only then ACTION_RET_LOG else ACTION_RET_TRAP) log_only) = None
  | Some done =>
      (exists prog, compile_filter jail
          (mkOptions (if log_only then ACTION_RET_LOG else ACTION_RET_TRAP) log_only) = Some prog /\
        Forall (fun '(_, q) => filters q = prog :: filters p /\ no_new_privs q = true) done) /\
      last (map fst done) = Some JoinRpcThreadpool /\
      (RegisterHci 0 ∈ map fst done <-> hci11_ok = false) /\
      (forall key value, PropertySet key value ∈ map fst done <->
         key = kSocProperty /\ property_value env = "" /\ btpower_open env = true /\
         exists bytes before soc after, get_chipset_id env = Some bytes /\
           value = soc_name soc /\ kSocNames = before ++ soc :: after /\
           occurs (chipset soc) (c_str (str_take kChipsetIdSize bytes)) /\
           Forall (fun other => ~ occurs (chipset other) (c_str (str_take kChipsetIdSize bytes))) before)
  end.
Proof.
  unfold main. pose proof (InstallSeccompFilter_spec log_only jail p) as Hi.
  destruct (InstallSeccompFilter log_only jail p) as [|p']; [exact Hi|].
  destruct Hi as (prog & Hc & Hf & Hn). set (acts := _ ++ _). rewrite map_map. cbn [fst].
  rewrite map_id. split; [|split; [|split]].
  - exists prog. split; [exact Hc|]. apply Forall_forall. intros [a q] Hin.
    apply list_elem_of_In, in_map_iff in Hin as (a' & [= <- <-] & _). auto.
  - subst acts. rewrite !app_assoc. apply last_snoc.
  - subst acts. rewrite !elem_of_app. assert (RegisterHci 0 ∉ SetSocName env) as Hs.
    { unfold SetSocName. repeat case_goal; set_solver. }
    destruct hci11_ok; set_solver.
  - intros key value. rewrite <- SetSocName_spec. subst acts. rewrite !elem_of_app.
    destruct hci11_ok; set_solver.
Qed.
