(* ===== verification/Firmware.v ===== *)
(** * The firmware release reporter

    Models [firmware/FirmwareRelease.cpp], [FirmwareRelease.h] and [main.cpp]: the
    daemon that hashes each firmware partition of the booted slot and reports which
    release the table in the vendor image says they are.  The ordered containers of
    the standard library are sorted lists.  SHA-256 is behind the interface
    [Sha256], whose law says what a digest of data hashed in pieces is.  What the
    files hold is given by the answers to successive reads: interrupted, failed,
    or some bytes; after the last answer a read finds the end of the file. *)

From Stdlib Require Import Sorted.
From S2P Require Import Prelude LibBase.

Abbreviation Digest := (list Z).

Record Image := mkImage { release : string; bytes : Z; sha256 : Digest }.

Record Table := mkTable { partitions : list (string * list Image); releases : list string }.

Definition kMaxTableBytes : Z := 256 * 1024.
Definition kMaxImageBytes : Z := 512 * 1024 * 1024.
Definition kMaxPartitions : Z := 64.
Definition kMaxReleases : Z := 64.
Definition kMixed : string := "mixed".
Definition kUnknown : string := "unknown".

(** ** Ordered containers *)

Fixpoint place {A} (lt : A -> A -> bool) (x : A) (l : list A) : list A :=
  match l with
  | [] => [x]
  | y :: l => if lt x y then x :: y :: l else y :: place lt x l
  end.

(** [std::set::insert] *)
Definition set_insert {A} `{EqDecision A} (lt : A -> A -> bool) (x : A) (l : list A) : list A :=
  if bool_decide (x ∈ l) then l else place lt x l.

(** [std::map::find], and assignment to [map[k]]. *)
Fixpoint assoc {A} (k : string) (m : list (string * A)) : option A :=
  match m with
  | [] => None
  | (k', v) :: m => if bool_decide (k' = k) then Some v else assoc k m
  end.

Definition map_put {A} (k : string) (v : A) (m : list (string * A)) : list (string * A) :=
  match assoc k m with
  | Some _ => (fun kv => if bool_decide (kv.1 = k) then (k, v) else kv) <$> m
  | None => place (fun a b => String.ltb a.1 b.1) (k, v) m
  end.

(** ** The table *)

(** The source's loop over [find]; an equal function stands for libbase's. *)
Definition split (text : string) (separator : ascii) : list string := split_on separator text.

Definition isDigit (c : ascii) : bool := is_digit c.

Definition validName (name : string) : bool :=
  negb (bool_decide (name = "")) && (Z.of_nat (String.length name) <=? 32) &&
  str_forallb (fun c => ((97 <=? char_code c) && (char_code c <=? 122)) || isDigit c ||
                        (char_code c =? 95) || (char_code c =? 45)) name.

(** A part of a release number: 1 to 5 digits. *)
Definition release_part (part : string) : option Z :=
  if bool_decide (part = "") || (5 <? Z.of_nat (String.length part)) || negb (str_forallb isDigit part)
  then None else Some (digits_value 0 part).

Definition parseRelease (rel : string) : option (Z * Z * Z) :=
  match split rel "."%char with
  | [a; b; c] =>
      a ← release_part a; b ← release_part b; c ← release_part c; Some (a, b, c)
  | _ => None
  end.

Definition parseBytes (text : string) : option Z :=
  if bool_decide (text = "") || (10 <? Z.of_nat (String.length text)) ||
     match text with String c _ => char_code c =? 48 | EmptyString => false end ||
     negb (str_forallb isDigit text)
  then None else
  let value := digits_value 0 text in
  if kMaxImageBytes <? value then None else Some value.

Definition hex_digit (c : ascii) : option Z :=
  if isDigit c then Some (char_code c - 48)
  else if (97 <=? char_code c) && (char_code c <=? 102) then Some (char_code c - 97 + 10)
  else None.

Fixpoint hex_bytes (text : string) : option Digest :=
  match text with
  | EmptyString => Some []
  | String a (String b text) =>
      x ← hex_digit a; y ← hex_digit b; rest ← hex_bytes text;
      Some (Z.lor (u8 (Z.shiftl (Z.lor (u8 (Z.shiftl 0 4)) x) 4)) y :: rest)
  | _ => None
  end.

Definition parseDigest (text : string) : option Digest :=
  if negb (String.length text =? 64)%nat then None else hex_bytes text.

Definition add_line (line : string) (t : Table) : option Table :=
  match split line space with
  | [f0; f1; f2; f3; f4] =>
      if negb (bool_decide (f0 = "image")) || negb (validName f1) || bool_decide (parseRelease f2 = None)
      then None else
      n ← parseBytes f3;
      digest ← parseDigest f4;
      let images := default [] (assoc f1 (partitions t)) in
      if existsb (fun image => bool_decide (release image = f2)) images then None else
      Some (mkTable (map_put f1 (images ++ [mkImage f2 n digest]) (partitions t))
                    (set_insert String.ltb f2 (releases t)))
  | _ => None
  end.

Fixpoint add_lines (lines : list string) (t : Table) : option Table :=
  match lines with
  | [] => Some t
  | line :: lines => t ← add_line line t; add_lines lines t
  end.

Definition parseTable (text : string) : option Table :=
  if bool_decide (text = "") || (kMaxTableBytes <? Z.of_nat (String.length text)) ||
     negb (bool_decide (str_last text = Some newline))
  then None else
  t ← add_lines (split (str_init text) newline) (mkTable [] []);
  if (kMaxPartitions <? Z.of_nat (length (partitions t))) || (kMaxReleases <? Z.of_nat (length (releases t)))
  then None else
  if existsb (fun p => negb (length p.2 =? length (releases t))%nat) (partitions t) then None else
  Some t.

(** [std::optional] and [std::tuple] compare lexicographically, the empty value is
    least. *)
Definition release_gt (a b : option (Z * Z * Z)) : bool :=
  match a, b with
  | None, _ => false
  | Some _, None => true
  | Some (a1, a2, a3), Some (b1, b2, b3) =>
      (b1 <? a1) || ((b1 =? a1) && ((b2 <? a2) || ((b2 =? a2) && (b3 <? a3))))
  end.

Definition newerRelease (a b : string) : bool := release_gt (parseRelease a) (parseRelease b).

(** ** Hashing *)

Class Sha256 := {
  SHA256_CTX : Type;
  SHA256_Init : SHA256_CTX;
  SHA256_Update : SHA256_CTX -> list Z -> SHA256_CTX;
  SHA256_Final : SHA256_CTX -> Digest;
  SHA256 : list Z -> Digest;
}.

Class Sha256Laws (S : Sha256) : Prop := {
  sha_pieces : forall pieces, SHA256_Final (foldl SHA256_Update SHA256_Init pieces) = SHA256 (concat pieces);
}.

Inductive read_result (A : Type) := Eintr | ReadError | Chunk (data : A).
Arguments Eintr {A}. Arguments ReadError {A}. Arguments Chunk {A} data.

Section Hashing.
Context `{S : Sha256}.

(** The inner loop of [prefixDigests]: the lengths this read reaches. *)
Fixpoint finish (context : SHA256_CTX) (hashed : Z) (buffer : list Z) (end_ : Z) (next : list Z)
    (digests : gmap Z Digest) : SHA256_CTX * Z * list Z * list Z * gmap Z Digest :=
  match next with
  | [] => (context, hashed, buffer, [], digests)
  | n :: rest =>
      if n <=? end_ then
        let take_ := Z.to_nat (n - hashed) in
        let context := SHA256_Update context (take take_ buffer) in
        finish context n (drop take_ buffer) end_ rest (<[n := SHA256_Final context]> digests)
      else (context, hashed, buffer, next, digests)
  end.

(** [buffer + used] is what is left of the buffer. *)
Fixpoint prefix_loop (reads : list (read_result (list Z))) (context : SHA256_CTX) (hashed : Z)
    (next : list Z) (digests : gmap Z Digest) : option (gmap Z Digest) :=
  match next with
  | [] => Some digests
  | _ :: _ =>
      match reads with
      | [] => Some digests
      | Eintr :: reads => prefix_loop reads context hashed next digests
      | ReadError :: _ => None
      | Chunk [] :: _ => Some digests
      | Chunk buffer :: reads =>
          let end_ := hashed + Z.of_nat (length buffer) in
          let '(context, hashed, unused, next, digests) := finish context hashed buffer end_ next digests in
          match next with
          | [] => Some digests
          | _ :: _ => prefix_loop reads (SHA256_Update context unused) end_ next digests
          end
      end
  end.

Definition prefixDigests (reads : list (read_result (list Z))) (lengths : list Z) : option (gmap Z Digest) :=
  prefix_loop reads SHA256_Init 0 lengths ∅.

Fixpoint matchingReleases (images : list Image) (digests : gmap Z Digest) (rels : list string) : list string :=
  match images with
  | [] => rels
  | image :: images =>
      matchingReleases images digests
        (if bool_decide (digests !! bytes image = Some (sha256 image))
         then set_insert String.ltb (release image) rels else rels)
  end.

(** ** The result *)

(** [std::max_element] with [newerRelease(b, a)] as "less". *)
Definition newest (first : string) (rest : list string) : string :=
  foldl (fun largest r => if newerRelease r largest then r else largest) first rest.

Fixpoint common_releases (ps : list (string * list Image)) (matches : list (string * list string))
    (common : option (list string)) : option (option (list string)) :=
  match ps with
  | [] => Some common
  | (name, _) :: ps =>
      match assoc name matches with
      | None | Some [] => None
      | Some m =>
          common_releases ps matches
            (match common with
             | None => Some m
             | Some c => Some (filter (fun r => r ∈ m) c)
             end)
      end
  end.

Definition result (table : Table) (matches : list (string * list string)) : string :=
  match common_releases (partitions table) matches None with
  | None | Some None => kUnknown
  | Some (Some []) => kMixed
  | Some (Some (r :: rs)) => newest r rs
  end.

(** ** main.cpp *)

(** The command line, the files (partitions by their name under /dev/block/by-name)
    and the property service. *)
Record fw_device := mkFwDevice {
  argv : list string;
  table_file : option (list (read_result string));
  partition_file : string -> option (list (read_result (list Z)));
  strerror : string;
  set_property_ok : bool;
}.

Fixpoint read_table (reads : list (read_result string)) (text : string) : option string :=
  match reads with
  | [] => Some text
  | Eintr :: reads => read_table reads text
  | ReadError :: _ => None
  | Chunk chunk :: reads =>
      if bool_decide (chunk = "") then Some text else
      let text := text +:+ chunk in
      if kMaxTableBytes <? Z.of_nat (String.length text) then None else read_table reads text
  end.

Definition readTable (dev : fw_device) : option string :=
  match table_file dev with None => None | Some reads => read_table reads "" end.

Fixpoint join_from (values : list string) (text : string) : string :=
  match values with
  | [] => text
  | v :: values => join_from values (text +:+ (if bool_decide (text = "") then "" else ",") +:+ v)
  end.
Definition join (values : list string) : string := join_from values "".

(** The exit status, and what is set and logged. *)
Definition report (dev : fw_device) (value detail : string) : Z * string * string :=
  (if set_property_ok dev then 0 else 1, value, detail).

Definition lengths_of (images : list Image) : list Z :=
  foldl (fun l image => set_insert Z.ltb (bytes image) l) [] images.

Fixpoint check_partitions (dev : fw_device) (slot : string) (table : Table) (ps : list (string * list Image))
    (matches : list (string * list string)) (rels : string) : Z * string * string :=
  match ps with
  | [] =>
      let value := result table matches in
      report dev value (if bool_decide (value = kMixed) then rels else "")
  | (name, images) :: ps =>
      let partition := name +:+ slot in
      match (reads ← partition_file dev partition; prefixDigests reads (lengths_of images)) with
      | None => report dev kUnknown ("cannot read " +:+ partition +:+ ": " +:+ strerror dev)
      | Some digests =>
          let found := matchingReleases images digests [] in
          if bool_decide (found = []) then report dev kUnknown (partition +:+ " matches no release") else
          check_partitions dev slot table ps (map_put name found matches)
            (rels +:+ (if bool_decide (rels = "") then "" else " ") +:+ partition +:+ "=" +:+ join found)
      end
  end.

Definition fwrelease_main (dev : fw_device) : Z * string * string :=
  match argv dev with
  | [_; slot] =>
      if negb (bool_decide (slot = "_a")) && negb (bool_decide (slot = "_b"))
      then report dev kUnknown "no slot suffix" else
      match (text ← readTable dev; parseTable text) with
      | None => report dev kUnknown "no valid table"
      | Some table => check_partitions dev slot table (partitions table) [] ""
      end
  | _ => report dev kUnknown "no slot suffix"
  end.

End Hashing.

(** ** Facts about the containers *)

Lemma place_elem {A} (lt : A -> A -> bool) x l y : y ∈ place lt x l <-> y = x \/ y ∈ l.
Proof.
  induction l as [|z l IH]; cbn; [rewrite list_elem_of_singleton; split; [auto | intros [|[]%not_elem_of_nil]; auto]|].
  destruct (lt x z); [rewrite !elem_of_cons; tauto|]. rewrite !elem_of_cons, IH. tauto.
Qed.

Lemma place_perm {A} (lt : A -> A -> bool) x l : place lt x l ≡ₚ x :: l.
Proof.
  induction l as [|z l IH]; cbn; [reflexivity|]. destruct (lt x z); [reflexivity|]. rewrite IH. apply perm_swap.
Qed.

Lemma set_insert_elem {A} `{EqDecision A} (lt : A -> A -> bool) x l y : y ∈ set_insert lt x l <-> y = x \/ y ∈ l.
Proof.
  unfold set_insert. case_bool_decide; [|apply place_elem]. split; [auto | intros [->|]; auto].
Qed.

Lemma set_insert_nodup {A} `{EqDecision A} (lt : A -> A -> bool) x l : NoDup l -> NoDup (set_insert lt x l).
Proof.
  intros Hl. unfold set_insert. case_bool_decide; [exact Hl|]. rewrite place_perm. now constructor.
Qed.

Lemma assoc_elem {A} k (m : list (string * A)) v : assoc k m = Some v -> (k, v) ∈ m.
Proof.
  induction m as [|[k' v'] m IH]; cbn; [discriminate|]. case_bool_decide as E; [|right; auto].
  intros [= ->]. subst. left.
Qed.

Lemma assoc_none {A} k (m : list (string * A)) : assoc k m = None <-> k ∉ m.*1.
Proof.
  induction m as [|[k' v'] m IH]; cbn; [split; [intros _ ?%elem_of_nil; auto | auto]|].
  case_bool_decide as E; rewrite not_elem_of_cons; split; try discriminate; try tauto.
  - intros [? _]. congruence.
  - rewrite IH. split; [congruence | tauto].
Qed.

Lemma assoc_nodup {A} k (m : list (string * A)) v : NoDup m.*1 -> (k, v) ∈ m -> assoc k m = Some v.
Proof.
  induction m as [|[k' v'] m IH]; cbn; [intros _ []%elem_of_nil|]. intros [Hk Hn]%NoDup_cons [E|Hin]%elem_of_cons.
  - injection E as -> ->. now rewrite bool_decide_true.
  - case_bool_decide as E; [|auto]. subst. destruct Hk. apply list_elem_of_fmap. exists (k, v). auto.
Qed.

(** Keys stay distinct, and only the entry of the key changes. *)
Lemma map_put_spec {A} k (v : A) m : NoDup m.*1 ->
  NoDup (map_put k v m).*1 /\
  forall k' v', (k', v') ∈ map_put k v m <-> k' = k /\ v' = v \/ k' <> k /\ (k', v') ∈ m.
Proof.
  intros Hn. unfold map_put. destruct (assoc k m) as [v0|] eqn:E.
  - split.
    { replace ((fun kv : string * A => _) <$> m).*1 with m.*1; [exact Hn|]. rewrite <- list_fmap_compose.
      apply list_fmap_ext. intros i [k1 v1] _. cbn. case_bool_decide; auto. }
    intros k' v'. rewrite list_elem_of_fmap. split.
    + intros ([k1 v1] & E1 & Hin). cbn in E1. case_bool_decide as Ek; injection E1 as -> ->; auto.
    + intros [[-> ->]|[Hne Hin]].
      * exists (k, v0). cbn. rewrite bool_decide_true by reflexivity. split; [reflexivity | now apply assoc_elem].
      * exists (k', v'). cbn. rewrite bool_decide_false by assumption. auto.
  - apply assoc_none in E. split.
    { rewrite place_perm. cbn. now constructor. }
    intros k' v'. rewrite place_elem. split.
    + intros [[= -> ->]|Hin]; [auto|]. right. split; [|exact Hin]. intros ->. apply E, list_elem_of_fmap.
      exists (k, v'). auto.
    + intros [[-> ->]|[_ ?]]; auto.
Qed.

(** Lengths in ascending order. *)
Lemma place_sorted x l : x ∉ l -> StronglySorted Z.lt l -> StronglySorted Z.lt (place Z.ltb x l).
Proof.
  induction l as [|y l IH]; cbn; intros Hx Hs; [repeat constructor|]. inversion_clear Hs as [|? ? Hs' Hy].
  apply not_elem_of_cons in Hx as [Hxy Hx]. destruct (x <? y) eqn:E; boolprop.
  - constructor; [constructor; assumption|]. constructor; [exact E|]. eapply Forall_impl; [exact Hy|]. cbn. lia.
  - constructor; [now apply IH|]. apply Forall_forall. intros z [->|Hz]%place_elem; [lia|].
    rewrite Forall_forall in Hy. auto.
Qed.

Lemma lengths_from images l : StronglySorted Z.lt l ->
  let l' := foldl (fun l image => set_insert Z.ltb (bytes image) l) l images in
  StronglySorted Z.lt l' /\ forall n, n ∈ l' <-> n ∈ l \/ exists image, image ∈ images /\ bytes image = n.
Proof.
  revert l. induction images as [|im images IH]; intros l Hs; cbn.
  { split; [exact Hs|]. intros n. split; [auto|]. intros [?|(? & []%elem_of_nil & _)]; auto. }
  assert (StronglySorted Z.lt (set_insert Z.ltb (bytes im) l)) as Hs'
    by (unfold set_insert; case_bool_decide; [exact Hs | now apply place_sorted]).
  destruct (IH _ Hs') as [H1 H2]. split; [exact H1|]. intros n. rewrite H2, set_insert_elem. split.
  - intros [[->|]|(i & Hi & <-)]; [right; exists im; split; [left | reflexivity] | auto |].
    right. exists i. split; [now right | reflexivity].
  - intros [|(i & [->|Hi]%elem_of_cons & <-)]; [auto | auto | eauto].
Qed.

Lemma lengths_of_spec images :
  StronglySorted Z.lt (lengths_of images) /\
  forall n, n ∈ lengths_of images <-> exists image, image ∈ images /\ bytes image = n.
Proof.
  destruct (lengths_from images [] ltac:(constructor)) as [H1 H2]. split; [exact H1|]. intros n.
  unfold lengths_of. rewrite H2. split; [intros [[]%elem_of_nil|]; auto | auto].
Qed.

(** ** Hashing in one pass *)

(** What a file holds up to its end, or to the read that fails. *)
Fixpoint stream (reads : list (read_result (list Z))) : list Z * bool :=
  match reads with
  | [] => ([], false)
  | Eintr :: reads => stream reads
  | ReadError :: _ => ([], true)
  | Chunk [] :: _ => ([], false)
  | Chunk b :: reads => let '(d, failed) := stream reads in (b ++ d, failed)
  end.

Section HashingFacts.
Context `{S : Sha256} {L : Sha256Laws S}.

Abbreviation len l := (Z.of_nat (length l)).

Definition absorbed (c : SHA256_CTX) (d : list Z) : Prop :=
  exists pieces, c = foldl SHA256_Update SHA256_Init pieces /\ concat pieces = d.

Lemma absorbed_update c d b : absorbed c d -> absorbed (SHA256_Update c b) (d ++ b).
Proof.
  intros (ps & -> & <-). exists (ps ++ [b]). rewrite foldl_app, concat_app. cbn. now rewrite app_nil_r.
Qed.

Lemma absorbed_final c d : absorbed c d -> SHA256_Final c = SHA256 d.
Proof. intros (ps & -> & <-). apply sha_pieces. Qed.

(** Digests of the prefixes of [data] for those of the lengths [ns] that fit. *)
Definition prefixes (ns : list Z) (data : list Z) (ds ds' : gmap Z Digest) : Prop :=
  forall n, ds' !! n = if decide (n ∈ ns /\ n <= len data) then Some (SHA256 (take (Z.to_nat n) data)) else ds !! n.

Lemma prefixes_none ns data ds : Forall (fun n => len data < n) ns -> prefixes ns data ds ds.
Proof.
  intros Hn n. rewrite decide_False; [reflexivity|]. intros [Hin Hle]. rewrite Forall_forall in Hn.
  specialize (Hn n Hin). cbn in Hn. lia.
Qed.

Lemma finish_spec next : forall c done buffer ds end_,
  absorbed c done -> StronglySorted Z.lt next -> Forall (fun n => len done <= n) next ->
  end_ = len done + len buffer ->
  exists c' used unused next' ds',
    finish c (len done) buffer end_ next ds = (c', len (done ++ used), unused, next', ds') /\
    buffer = used ++ unused /\ absorbed c' (done ++ used) /\
    StronglySorted Z.lt next' /\ Forall (fun n => end_ < n) next' /\
    (forall n, n ∈ next <-> n ∈ next' \/ n ∈ next /\ n <= end_) /\
    prefixes next (done ++ buffer) ds ds'.
Proof.
  induction next as [|n rest IH]; intros c done buffer ds end_ Hc Hs Hge ->; cbn [finish].
  { exists c, [], buffer, [], ds. rewrite app_nil_r. do 2 (split; [reflexivity|]). split; [exact Hc|].
    do 2 (split; [constructor|]). split; [tauto | apply prefixes_none; constructor]. }
  inversion_clear Hs as [|? ? Hs' Hn]. inversion_clear Hge as [|? ? Hge1 Hge'].
  destruct (n <=? len done + len buffer) eqn:E; boolprop.
  - set (k := Z.to_nat (n - len done)).
    assert (length (take k buffer) = k) as Hk by (rewrite length_take; lia).
    assert (len (done ++ take k buffer) = n) as Hlen by (rewrite length_app, Hk; lia).
    assert (absorbed (SHA256_Update c (take k buffer)) (done ++ take k buffer)) as Hc' by now apply absorbed_update.
    destruct (IH (SHA256_Update c (take k buffer)) (done ++ take k buffer) (drop k buffer)
      (<[n := SHA256_Final (SHA256_Update c (take k buffer))]> ds) (len done + len buffer) Hc' Hs') as
      (c' & used & unused & next' & ds' & E' & Eb & Ha & Hss & Hgt & Hmem & Hpre).
    { eapply Forall_impl; [exact Hn|]. cbn. lia. }
    { rewrite Hlen, length_drop. lia. }
    rewrite Hlen in E'. exists c', (take k buffer ++ used), unused, next', ds'.
    rewrite (app_assoc done). split; [exact E'|].
    assert (buffer = (take k buffer ++ used) ++ unused) as Eb'
      by (rewrite <- app_assoc, <- Eb; symmetry; apply take_drop).
    split; [exact Eb'|]. split; [exact Ha|]. split; [exact Hss|]. split; [exact Hgt|]. split.
    + intros m. rewrite elem_of_cons. rewrite Hmem. rewrite Forall_forall in Hgt. split.
      * intros [->|[?|[? ?]]]; [right; split; [auto | lia] | auto | right; auto].
      * intros [?|[[->|[?|[? ?]]] ?]]; auto.
    + intros m. rewrite (Hpre m). rewrite <- !app_assoc, take_drop.
      destruct (decide (m ∈ rest /\ m <= len (done ++ buffer))) as [[Hm Hle]|Hno].
      * rewrite (decide_True (P := m ∈ n :: rest /\ _)) by (split; [now right | exact Hle]). reflexivity.
      * destruct (decide (m = n)) as [->|Hne].
        -- rewrite lookup_insert_eq, decide_True by (rewrite length_app; split; [left | lia]).
           rewrite (absorbed_final _ _ Hc'). do 2 f_equal. symmetry.
           replace (Z.to_nat n) with (length done + k)%nat by lia. apply List.firstn_app_2.
        -- rewrite lookup_insert_ne by congruence. rewrite decide_False; [reflexivity|].
           intros [[?|?]%elem_of_cons ?]; tauto.
  - exists c, [], buffer, (n :: rest), ds. rewrite app_nil_r. split; [reflexivity|]. split; [reflexivity|].
    split; [exact Hc|]. split; [constructor; assumption|].
    split; [constructor; [lia|]; eapply Forall_impl; [exact Hn|]; cbn; lia|]. split; [tauto|].
    apply prefixes_none. rewrite length_app. constructor; [lia|]. eapply Forall_impl; [exact Hn|]. cbn. lia.
Qed.

Lemma prefix_loop_spec reads : forall c done next ds,
  absorbed c done -> StronglySorted Z.lt next -> Forall (fun n => len done < n) next ->
  let data := done ++ (stream reads).1 in
  match prefix_loop reads c (len done) next ds with
  | None => (stream reads).2 = true /\ exists n, n ∈ next /\ len data < n
  | Some ds' => ((stream reads).2 = true -> Forall (fun n => n <= len data) next) /\ prefixes next data ds ds'
  end.
Proof.
  induction reads as [|[| |[|b0 b]] reads IH]; intros c done next ds Hc Hs Hgt; cbv zeta;
    (destruct next as [|n0 next0]; [cbn [prefix_loop]; split; [constructor | apply prefixes_none; constructor]|]);
    cbn [prefix_loop stream fst snd]; set (next := n0 :: next0) in *.
  - rewrite app_nil_r. split; [discriminate | now apply prefixes_none].
  - exact (IH c done next ds Hc Hs Hgt).
  - rewrite app_nil_r. split; [reflexivity|]. exists n0. split; [left|]. now inversion_clear Hgt.
  - rewrite app_nil_r. split; [discriminate | now apply prefixes_none].
  - set (buf := b0 :: b).
    destruct (finish_spec next c done buf ds (len done + len buf) Hc Hs) as
      (c' & used & unused & next' & ds1 & E & Eb & Ha & Hs' & Hgt' & Hmem & Hpre); [|reflexivity|].
    { eapply Forall_impl; [exact Hgt|]. cbn. lia. }
    rewrite E. destruct (stream reads) as [d failed] eqn:Est. cbn [fst snd] in *.
    rewrite app_assoc. assert (forall n, n ∈ next -> n <= len (done ++ buf) \/ n ∈ next') as Hcase.
    { intros n Hn. apply Hmem in Hn as [|[_ ?]]; [auto|]. left. rewrite length_app. lia. }
    assert (forall ds2, prefixes next' ((done ++ buf) ++ d) ds1 ds2 -> prefixes next ((done ++ buf) ++ d) ds ds2) as Hjoin.
    { intros ds2 H2 n. rewrite (H2 n), (Hpre n). rewrite Forall_forall in Hgt'.
      pose proof (length_app (done ++ buf) d) as Hlen.
      destruct (decide (n ∈ next' /\ _)) as [[Hn' Hle]|Hno].
      - rewrite decide_True; [reflexivity|]. split; [apply Hmem; auto | exact Hle].
      - destruct (decide (n ∈ next /\ n <= len (done ++ buf))) as [[Hn Hle]|Hno2].
        + rewrite decide_True by (split; [assumption | lia]). rewrite (take_app_le (done ++ buf) d) by lia. reflexivity.
        + rewrite decide_False; [reflexivity|]. intros [Hn Hle]. destruct (Hcase n Hn); [tauto|]. apply Hno. auto. }
    destruct next' as [|n1 next1] eqn:En'.
    + split; [|apply Hjoin, prefixes_none; constructor]. intros _. apply Forall_forall. intros n Hn.
      rewrite (length_app (done ++ buf) d). destruct (Hcase n Hn) as [|[]%elem_of_nil]. lia.
    + rewrite <- En' in *. clear En'.
      assert (absorbed (SHA256_Update c' unused) (done ++ buf)) as Hc'.
      { rewrite Eb, app_assoc. now apply absorbed_update. }
      assert (Forall (fun n => len (done ++ buf) < n) next') as Hgt2 by (rewrite length_app; eapply Forall_impl; [exact Hgt'|]; cbn; lia).
      pose proof (IH (SHA256_Update c' unused) (done ++ buf) next' ds1 Hc' Hs' Hgt2) as IH'. cbv zeta in IH'.
      replace (len (done ++ buf)) with (len done + len buf) in IH' by (rewrite length_app; lia).
      destruct (prefix_loop reads _ _ next' ds1) as [ds2|].
      * destruct IH' as [Hall Hp]. split; [|auto]. intros Hf. apply Forall_forall. intros n Hn.
        specialize (Hall Hf). rewrite Forall_forall in Hall. destruct (Hcase n Hn) as [|Hin]; [rewrite (length_app (done ++ buf) d); lia | auto].
      * destruct IH' as [Hf (n & Hn & Hlt)]. split; [exact Hf|]. exists n. split; [apply Hmem; auto | exact Hlt].
Qed.

(** [prefixDigests]: the digest of the first [n] bytes for each length the file has,
    unless a read fails before the longest. *)
Lemma prefixDigests_spec reads lengths :
  StronglySorted Z.lt lengths -> Forall (fun n => 0 < n) lengths ->
  let data := (stream reads).1 in
  match prefixDigests reads lengths with
  | None => (stream reads).2 = true /\ exists n, n ∈ lengths /\ len data < n
  | Some ds => ((stream reads).2 = true -> Forall (fun n => n <= len data) lengths) /\
      forall n, ds !! n = if decide (n ∈ lengths /\ n <= len data) then Some (SHA256 (take (Z.to_nat n) data)) else None
  end.
Proof.
  intros Hs Hpos. cbv zeta.
  assert (absorbed SHA256_Init []) as H0 by (exists []; auto).
  pose proof (prefix_loop_spec reads SHA256_Init [] lengths ∅ H0 Hs Hpos) as Hp. cbv zeta in Hp. cbn [app length] in Hp.
  unfold prefixDigests. change (Z.of_nat 0) with 0 in Hp. destruct (prefix_loop _ _ _ _ _) as [ds|]; [|exact Hp].
  destruct Hp as [H1 H2]. split; [exact H1|]. intros n. rewrite (H2 n). destruct (decide _); [reflexivity|].
  apply lookup_empty.
Qed.

End HashingFacts.

(** ** The table *)

Record image_ok (im : Image) : Prop := mkImageOk {
  im_release : parseRelease (release im) <> None;
  im_bytes : 1 <= bytes im <= kMaxImageBytes;
  im_digest : length (sha256 im) = 32%nat;
}.

(** A table under construction. *)
Record table_pre (t : Table) : Prop := mkTablePre {
  tp_keys : NoDup (partitions t).*1;
  tp_releases : NoDup (releases t);
  tp_images : forall name images, (name, images) ∈ partitions t ->
    validName name = true /\ NoDup (release <$> images) /\ Forall image_ok images /\
    forall r, r ∈ release <$> images -> r ∈ releases t;
}.

Lemma digits_value_ge acc s : 0 <= acc -> str_forallb isDigit s = true -> acc <= digits_value acc s.
Proof.
  revert acc. induction s as [|c s IH]; intros acc Ha Hd; cbn in *; [lia|]. apply andb_prop in Hd as [Hc Hd].
  unfold isDigit, is_digit in Hc. boolprop.
  transitivity (acc * 10 + (char_code c - 48)); [lia | apply IH; [lia | exact Hd]].
Qed.

Lemma parseBytes_range text n : parseBytes text = Some n -> 1 <= n <= kMaxImageBytes.
Proof.
  unfold parseBytes. destruct text as [|c s]; [discriminate|].
  destruct (_ || _) eqn:E; [discriminate|]. destruct (kMaxImageBytes <? _) eqn:Em; [discriminate|]. intros [= <-].
  split; [|now apply Z.ltb_ge in Em]. apply orb_false_elim in E as [[_ E0]%orb_false_elim Ed].
  apply negb_false_iff in Ed. cbn [str_forallb] in Ed. apply andb_prop in Ed as [Hc Hd]. cbn [digits_value].
  unfold isDigit, is_digit in Hc. apply Z.eqb_neq in E0. boolprop.
  transitivity (0 * 10 + (char_code c - 48)); [lia | apply digits_value_ge; [lia | exact Hd]].
Qed.

Fixpoint hex_bytes_length (n : nat) : forall text d, hex_bytes text = Some d -> (String.length text <= n)%nat ->
  String.length text = (2 * length d)%nat.
Proof.
  destruct n as [|n]; intros [|a [|b text]] d; cbn; try discriminate; try (intros [= <-] _; reflexivity); try lia.
  destruct (hex_digit a), (hex_digit b); cbn; try discriminate.
  destruct (hex_bytes text) as [d'|] eqn:E; cbn; [|discriminate]. intros [= <-] Hl. cbn.
  rewrite (hex_bytes_length n text d' E) by lia. lia.
Qed.

Lemma parseDigest_length text d : parseDigest text = Some d -> length d = 32%nat.
Proof.
  unfold parseDigest. destruct (String.length text =? 64)%nat eqn:E; cbn [negb]; [|discriminate].
  apply Nat.eqb_eq in E. intros Hd. pose proof (hex_bytes_length 64 text d Hd). lia.
Qed.

Lemma add_line_ok line t t' : table_pre t -> add_line line t = Some t' -> table_pre t'.
Proof.
  intros [Hk Hr Hi]. unfold add_line.
  destruct (split line space) as [|f0 [|f1 [|f2 [|f3 [|f4 [|]]]]]]; try discriminate.
  destruct (_ || _) eqn:E; [discriminate|]. apply orb_false_elim in E as [[_ Hn]%orb_false_elim Hrel].
  apply negb_false_iff in Hn. apply bool_decide_eq_false_1 in Hrel.
  destruct (parseBytes f3) as [n|] eqn:En; cbn; [|discriminate].
  destruct (parseDigest f4) as [d|] eqn:Ed; cbn; [|discriminate].
  set (images := default [] (assoc f1 (partitions t))).
  destruct (existsb _ images) eqn:Ex; [discriminate|]. intros [= <-].
  assert (NoDup (release <$> images) /\ Forall image_ok images /\ forall r, r ∈ release <$> images -> r ∈ releases t) as (Hi1 & Hi2 & Hi3).
  { unfold images. destruct (assoc f1 (partitions t)) as [ims|] eqn:Ea; cbn.
    - apply assoc_elem in Ea. destruct (Hi f1 ims Ea) as (_ & ? & ? & ?). auto.
    - repeat split; try constructor. intros r []%elem_of_nil. }
  assert (f2 ∉ release <$> images) as Hnew.
  { intros (im & E & Hin)%list_elem_of_fmap. rewrite <- not_true_iff_false in Ex. apply Ex, existsb_exists.
    exists im. split; [now apply list_elem_of_In | now apply bool_decide_eq_true_2]. }
  destruct (map_put_spec f1 (images ++ [mkImage f2 n d]) (partitions t) Hk) as [Hk' Hmem].
  split; cbn [partitions releases]; [exact Hk' | now apply set_insert_nodup|].
  intros name ims Hin. apply Hmem in Hin as [[-> ->]|[_ Hin]].
  - split; [exact Hn|]. rewrite fmap_app. split; [|split].
    + apply NoDup_app. split; [exact Hi1|]. split; [|apply NoDup_singleton]. intros r Hr0 ->%list_elem_of_singleton. auto.
    + apply Forall_app. split; [exact Hi2|]. repeat constructor; cbn; auto; try apply (parseBytes_range _ _ En).
      now apply parseDigest_length in Ed.
    + intros r [Hr0| ->%list_elem_of_singleton]%elem_of_app; apply set_insert_elem; auto.
  - destruct (Hi name ims Hin) as (? & ? & ? & Hsub). repeat split; auto. intros r Hr0. apply set_insert_elem. auto.
Qed.

Lemma add_lines_ok lines t t' : table_pre t -> add_lines lines t = Some t' -> table_pre t'.
Proof.
  revert t. induction lines as [|l lines IH]; intros t Ht; cbn; [now intros [= <-]|].
  destruct (add_line l t) as [t1|] eqn:E; cbn; [|discriminate]. apply IH. eapply add_line_ok; eauto.
Qed.

(** What a table the parser accepts is. *)
Record table_ok (t : Table) : Prop := mkTableOk {
  tk_keys : NoDup (partitions t).*1;
  tk_releases : NoDup (releases t);
  tk_sizes : Z.of_nat (length (partitions t)) <= kMaxPartitions /\ Z.of_nat (length (releases t)) <= kMaxReleases;
  tk_images : forall name images, (name, images) ∈ partitions t ->
    validName name = true /\ NoDup (release <$> images) /\ Forall image_ok images /\
    forall r, r ∈ release <$> images <-> r ∈ releases t;
}.

Lemma parseTable_ok text t : parseTable text = Some t -> table_ok t.
Proof.
  unfold parseTable. destruct (_ || _); [discriminate|].
  destruct (add_lines _ _) as [t1|] eqn:E; cbn; [|discriminate].
  destruct (_ || _) eqn:Es; [discriminate|]. destruct (existsb _ _) eqn:Ex; [discriminate|]. intros [= ->].
  assert (table_pre t) as [Hk Hr Hi].
  { eapply add_lines_ok; [|exact E]. split; [constructor | constructor | intros ? ? []%elem_of_nil]. }
  apply orb_false_elim in Es as [E1 E2]. apply Z.ltb_ge in E1, E2.
  split; [exact Hk | exact Hr | auto|]. intros name images Hin. destruct (Hi name images Hin) as (H1 & H2 & H3 & H4).
  split; [exact H1|]. split; [exact H2|]. split; [exact H3|]. intros r. split; [auto|].
  assert (length images = length (releases t)) as Hlen.
  { destruct (length images =? length (releases t))%nat eqn:El; [now apply Nat.eqb_eq in El|].
    rewrite <- not_true_iff_false in Ex. destruct Ex. apply existsb_exists. exists (name, images). cbn. rewrite El.
    split; [now apply list_elem_of_In | reflexivity]. }
  assert (release <$> images ≡ₚ releases t) as Hperm.
  { apply submseteq_length_Permutation; [now apply NoDup_submseteq|]. rewrite length_fmap. lia. }
  intros Hr0. now rewrite Hperm.
Qed.

Lemma add_line_nonempty line t t' : add_line line t = Some t' -> partitions t' <> [].
Proof.
  unfold add_line. destruct (split line space) as [|f0 [|f1 [|f2 [|f3 [|f4 [|]]]]]]; try discriminate.
  destruct (_ || _); [discriminate|]. destruct (parseBytes f3); cbn; [|discriminate].
  destruct (parseDigest f4); cbn; [|discriminate]. destruct (existsb _ _); [discriminate|]. intros [= <-]. cbn.
  unfold map_put. destruct (assoc f1 (partitions t)) eqn:E; [|destruct (partitions t); cbn; [discriminate|]; now destruct (String.ltb _ _)].
  destruct (partitions t); cbn in *; [discriminate | congruence].
Qed.

Lemma add_lines_nonempty lines t t' : add_lines lines t = Some t' -> lines <> [] \/ partitions t <> [] -> partitions t' <> [].
Proof.
  revert t. induction lines as [|l lines IH]; intros t; cbn; [intros [= <-] [?|?]; congruence|].
  destruct (add_line l t) as [t1|] eqn:E; cbn; [|discriminate]. intros E' _. apply (IH t1 E'). right.
  eapply add_line_nonempty; eauto.
Qed.

Lemma parseTable_nonempty text t : parseTable text = Some t -> partitions t <> [].
Proof.
  unfold parseTable. destruct (_ || _); [discriminate|].
  destruct (add_lines _ _) as [t1|] eqn:E; cbn; [|discriminate].
  destruct (_ || _); [discriminate|]. destruct (existsb _ _); [discriminate|]. intros [= ->].
  eapply add_lines_nonempty; [exact E|]. left. apply split_on_nonempty.
Qed.

(** ** Choosing the release *)

Lemma release_gt_irrefl a : release_gt a a = false.
Proof. destruct a as [[[a1 a2] a3]|]; cbn; [|reflexivity]. rewrite !Z.ltb_irrefl, !Z.eqb_refl. reflexivity. Qed.

Lemma release_gt_step s l r : release_gt s l = false -> release_gt r l = true -> release_gt s r = false.
Proof.
  destruct s as [[[s1 s2] s3]|], l as [[[l1 l2] l3]|], r as [[[r1 r2] r3]|]; cbn; try discriminate; try reflexivity; intros; lia.
Qed.

Lemma newest_spec first rest :
  newest first rest ∈ first :: rest /\ forall r, r ∈ first :: rest -> newerRelease r (newest first rest) = false.
Proof.
  unfold newest, newerRelease. revert first. induction rest as [|x rest IH]; intros first; cbn [foldl].
  { split; [left|]. intros r ->%list_elem_of_singleton. apply release_gt_irrefl. }
  set (l := if release_gt (parseRelease x) (parseRelease first) then x else first).
  destruct (IH l) as [H1 H2]. split.
  - apply elem_of_cons in H1 as [-> |H1]; [|right; now right]. unfold l. destruct (release_gt _ _); [right; left | left].
  - assert (release_gt (parseRelease first) (parseRelease l) = false /\ release_gt (parseRelease x) (parseRelease l) = false) as [Hf Hx].
    { unfold l. destruct (release_gt (parseRelease x) _) eqn:E; [|split; [apply release_gt_irrefl | exact E]].
      split; [|apply release_gt_irrefl]. eapply release_gt_step; [apply release_gt_irrefl | exact E]. }
    intros r Hr. pose proof (H2 l ltac:(left)) as Hl.
    assert (forall s, release_gt (parseRelease s) (parseRelease l) = false ->
      release_gt (parseRelease s) (parseRelease (foldl (fun largest r => if release_gt (parseRelease r) (parseRelease largest) then r else largest) l rest)) = false) as Hs.
    { intros s Hs. set (w := foldl _ l rest) in *. clearbody w. clear -Hs Hl. revert Hs Hl.
      destruct (parseRelease s) as [[[s1 s2] s3]|], (parseRelease l) as [[[l1 l2] l3]|], (parseRelease w) as [[[w1 w2] w3]|];
        cbn; try discriminate; try reflexivity; intros; lia. }
    apply elem_of_cons in Hr as [->|[->|Hr]%elem_of_cons]; [auto | auto |]. apply H2. now right.
Qed.

Lemma common_spec H ps matches c :
  (forall p, p ∈ ps -> exists m, assoc p.1 matches = Some m /\ m <> [] /\ forall r, r ∈ m <-> H p r) ->
  exists c', common_releases ps matches (Some c) = Some (Some c') /\
    forall r, r ∈ c' <-> r ∈ c /\ forall p, p ∈ ps -> H p r.
Proof.
  revert c. induction ps as [|[name ims] ps IH]; intros c Hm.
  { exists c. split; [reflexivity|]. intros r. split; [intros; split; [auto | intros p []%elem_of_nil] | tauto]. }
  destruct (Hm (name, ims) ltac:(left)) as (m & Ea & Hne & Hr). cbn [common_releases]. cbn in Ea. rewrite Ea.
  destruct (IH (filter (fun r => r ∈ m) c)) as (c' & E & Hc'); [intros p Hp; apply Hm; now right|].
  exists c'. split; [destruct m; [congruence | exact E]|]. intros r. rewrite Hc', list_elem_of_filter, Hr. split.
  - intros [[H1 H2] H3]. split; [exact H2|]. intros p [->|Hp]%elem_of_cons; auto.
  - intros [H1 H2]. split; [split; [apply H2; left | exact H1]|]. intros p Hp. apply H2. now right.
Qed.

(** The value for partitions that all match something. *)
Lemma result_spec H t matches :
  partitions t <> [] ->
  (forall p, p ∈ partitions t -> exists m, assoc p.1 matches = Some m /\ m <> [] /\ forall r, r ∈ m <-> H p r) ->
  result t matches = kMixed /\ (forall r, ~ forall p, p ∈ partitions t -> H p r) \/
  (forall p, p ∈ partitions t -> H p (result t matches)) /\
    forall r, (forall p, p ∈ partitions t -> H p r) -> newerRelease r (result t matches) = false.
Proof.
  intros Hne Hm. unfold result. destruct (partitions t) as [|[name ims] ps]; [congruence|].
  destruct (Hm (name, ims) ltac:(left)) as (m & Ea & Hmne & Hr). cbn [common_releases]. cbn in Ea. rewrite Ea.
  destruct (common_spec H ps matches m) as (c & E & Hc); [intros p Hp; apply Hm; now right|].
  assert (forall r, r ∈ c <-> forall p, p ∈ (name, ims) :: ps -> H p r) as Hall.
  { intros r. rewrite Hc, Hr. split.
    - intros [H1 H2] p [->|Hp]%elem_of_cons; auto.
    - intros H1. split; [apply H1; left|]. intros p Hp. apply H1. now right. }
  destruct m as [|m0 m]; [congruence|]. rewrite E. destruct c as [|r rs].
  - left. split; [reflexivity|]. intros r Hp%Hall. now apply elem_of_nil in Hp.
  - right. destruct (newest_spec r rs) as [H1 H2]. split; [now apply Hall|]. intros r' Hp%Hall. auto.
Qed.

(** ** The partitions *)

Section Partitions.
Context `{S : Sha256} {L : Sha256Laws S}.
Variable dev : fw_device.
Variable slot : string.

(** The partition holds the image of release [r]: its first bytes have the digest of
    the table. *)
Definition holds_release (p : string * list Image) (r : string) : Prop :=
  exists reads im, partition_file dev (p.1 +:+ slot) = Some reads /\ im ∈ p.2 /\ release im = r /\
    bytes im <= Z.of_nat (length (stream reads).1) /\
    SHA256 (take (Z.to_nat (bytes im)) (stream reads).1) = sha256 im.

(** The partition cannot be opened, or a read fails before the longest image ends. *)
Definition unreadable (p : string * list Image) : Prop :=
  match partition_file dev (p.1 +:+ slot) with
  | None => True
  | Some reads => (stream reads).2 = true /\ exists im, im ∈ p.2 /\ Z.of_nat (length (stream reads).1) < bytes im
  end.

Lemma matching_spec images ds rels r :
  r ∈ matchingReleases images ds rels <->
  r ∈ rels \/ exists im, im ∈ images /\ release im = r /\ ds !! bytes im = Some (sha256 im).
Proof.
  revert rels. induction images as [|im images IH]; intros rels; cbn.
  { split; [auto | intros [|(? & []%elem_of_nil & _)]; auto]. }
  rewrite IH. case_bool_decide as E; rewrite ?set_insert_elem; split.
  - intros [[->|]|(i & ? & ?)]; [right; exists im; split; [left | auto] | auto | right; exists i; split; [now right | auto]].
  - intros [|(i & [->|Hi]%elem_of_cons & <- & ?)]; [auto | auto | right; exists i; auto].
  - intros [|(i & ? & ?)]; [auto | right; exists i; split; [now right | auto]].
  - intros [|(i & [->|Hi]%elem_of_cons & <- & ?)]; [auto | congruence | right; exists i; auto].
Qed.

(** What [main] finds in one partition. *)
Lemma partition_spec name images :
  Forall image_ok images ->
  match (reads ← partition_file dev (name +:+ slot); prefixDigests reads (lengths_of images)) with
  | None => unreadable (name, images)
  | Some ds => forall r, r ∈ matchingReleases images ds [] <-> holds_release (name, images) r
  end.
Proof.
  intros Hok. unfold unreadable, holds_release. cbn [fst snd].
  destruct (partition_file dev (name +:+ slot)) as [reads|]; cbn [mbind option_bind]; [|exact I].
  destruct (lengths_of_spec images) as [Hs Hin].
  assert (Forall (fun n => 0 < n) (lengths_of images)) as Hpos.
  { apply Forall_forall. intros n (im & Him & <-)%Hin. rewrite Forall_forall in Hok. destruct (Hok im Him). lia. }
  pose proof (prefixDigests_spec reads (lengths_of images) Hs Hpos) as Hp. cbv zeta in Hp.
  destruct (prefixDigests reads (lengths_of images)) as [ds|].
  - destruct Hp as [_ Hp]. intros r. rewrite matching_spec. split.
    + intros [[]%elem_of_nil|(im & Him & <- & E)]. rewrite Hp in E.
      destruct (decide _) as [[_ Hle]|]; [|discriminate]. injection E as E. exists reads, im. auto.
    + intros (reads' & im & [= <-] & Him & <- & Hle & E). right. exists im. split; [exact Him|]. split; [reflexivity|].
      rewrite Hp, decide_True; [now f_equal|]. split; [apply Hin; eauto | exact Hle].
  - destruct Hp as [Hf (n & (im & Him & <-)%Hin & Hlt)]. split; [exact Hf | eauto].
Qed.

(** What the reported value says of the partitions. *)
Definition verdict (t : Table) (v : string) : Prop :=
  v = kUnknown /\ (exists p, p ∈ partitions t /\ (unreadable p \/ forall r, ~ holds_release p r)) \/
  v = kMixed /\ (forall p, p ∈ partitions t -> exists r, holds_release p r) /\
    (forall r, ~ forall p, p ∈ partitions t -> holds_release p r) \/
  (forall p, p ∈ partitions t -> holds_release p v) /\
    forall r, (forall p, p ∈ partitions t -> holds_release p r) -> newerRelease r v = false.

Definition matched (ps : list (string * list Image)) (matches : list (string * list string)) : Prop :=
  NoDup matches.*1 /\
  forall p, p ∈ ps -> exists m, assoc p.1 matches = Some m /\ m <> [] /\ forall r, r ∈ m <-> holds_release p r.

Lemma check_partitions_spec t ps : forall done matches rels,
  partitions t = done ++ ps -> partitions t <> [] -> NoDup (partitions t).*1 ->
  (forall name images, (name, images) ∈ partitions t -> Forall image_ok images) ->
  matched done matches -> verdict t (check_partitions dev slot t ps matches rels).1.2.
Proof.
  induction ps as [|[name images] ps IH]; intros done matches rels Et Hne Hnd Hok [Hmk Hm]; cbn [check_partitions].
  - rewrite app_nil_r in Et. rewrite <- Et in Hm. cbn [report fst snd]. unfold verdict. right.
    destruct (result_spec holds_release t matches Hne Hm) as [[E Hno]|Hyes]; [left | right; exact Hyes].
    split; [exact E|]. split; [|exact Hno]. intros p Hp. destruct (Hm p Hp) as ([|r m] & _ & Hmne & Hr); [congruence|].
    exists r. apply Hr. left.
  - assert ((name, images) ∈ partitions t) as Hin by (rewrite Et; apply elem_of_app; right; left).
    pose proof (partition_spec name images (Hok _ _ Hin)) as Hp.
    destruct (reads ← partition_file dev (name +:+ slot); prefixDigests reads (lengths_of images)) as [ds|].
    2:{ left. split; [reflexivity|]. exists (name, images). auto. }
    case_bool_decide as Ef.
    { left. split; [reflexivity|]. exists (name, images). split; [exact Hin|]. right. intros r Hr%Hp. rewrite Ef in Hr.
      now apply elem_of_nil in Hr. }
    set (found := matchingReleases images ds []) in *. apply (IH (done ++ [(name, images)]) _ _); auto.
    { rewrite Et, <- app_assoc. reflexivity. }
    destruct (map_put_spec name found matches Hmk) as [Hk' Hput]. split; [exact Hk'|].
    intros p [Hd| ->%list_elem_of_singleton]%elem_of_app.
    + destruct (Hm p Hd) as (m & Ea & Hmm). exists m. split; [|exact Hmm]. apply assoc_nodup; [exact Hk'|].
      apply Hput. right. split; [|now apply assoc_elem]. intros Ep. rewrite Et, fmap_app in Hnd. cbn in Hnd.
      apply NoDup_app in Hnd as (_ & Hdis & _). apply (Hdis p.1); [apply list_elem_of_fmap; eauto | rewrite Ep; left].
    + exists found. split; [apply assoc_nodup; [exact Hk' | apply Hput; auto]|]. split; [exact Ef | exact Hp].
Qed.

Lemma main_verdict text t :
  parseTable text = Some t -> verdict t (check_partitions dev slot t (partitions t) [] "").1.2.
Proof.
  intros Hp. pose proof (parseTable_ok _ _ Hp) as [Hk _ _ Hi].
  apply (check_partitions_spec t (partitions t) []); [reflexivity | eapply parseTable_nonempty; eauto | exact Hk | |].
  - intros name images Hin. apply (Hi name images Hin).
  - split; [constructor | intros p []%elem_of_nil].
Qed.

Lemma check_partitions_status t ps matches rels :
  (check_partitions dev slot t ps matches rels).1.1 = if set_property_ok dev then 0 else 1.
Proof.
  revert matches rels. induction ps as [|[name images] ps IH]; intros matches rels; cbn [check_partitions]; [reflexivity|].
  destruct (_ ≫= _) as [ds|]; [|reflexivity]. case_bool_decide; [reflexivity | apply IH].
Qed.

End Partitions.

(** ** Properties *)

(** C19. On every run the value the daemon reports is true of the slot, whatever pieces
    the reads come in.  Without a slot suffix ("_a" or "_b" as its one argument) it
    reports "unknown" with "no slot suffix"; with one but without a table that can be read
    and that the parser accepts, "unknown" with "no valid table".  With both, it reports a
    release only if the first bytes of every partition of the slot have the digests the
    table lists for that release and no newer release fits them all; "mixed" only if every
    partition is some release but no release fits all; and "unknown" only if a partition
    cannot be read or is no release of the table.  It exits with 1 exactly if the property
    could not be set. *)
Theorem reported_release_correct `{S : Sha256} {L : Sha256Laws S} dev :
  exists value detail, fwrelease_main dev = (if set_property_ok dev then 0 else 1, value, detail) /\
    ((forall prog slot, argv dev = [prog; slot] -> slot <> "_a" /\ slot <> "_b") /\
       value = kUnknown /\ detail = "no slot suffix" \/
     exists prog slot, argv dev = [prog; slot] /\ (slot = "_a" \/ slot = "_b") /\
       ((forall text, readTable dev = Some text -> parseTable text = None) /\
          value = kUnknown /\ detail = "no valid table" \/
        exists text t, readTable dev = Some text /\ parseTable text = Some t /\ verdict dev slot t value)).
Proof.
  unfold fwrelease_main, report.
  destruct (argv dev) as [|prog [|slot [|x l]]]; try (eexists _, _; split; [reflexivity|]; left; split_and!; congruence).
  destruct (decide (slot = "_a" \/ slot = "_b")) as [Hs|Hs].
  2:{ rewrite !bool_decide_false by tauto. eexists _, _. split; [reflexivity|]. left.
      split_and!; [|reflexivity..]. intros ? ? [= <- <-]. tauto. }
  replace (negb _ && negb _) with false by (destruct Hs as [-> | ->]; reflexivity).
  destruct (readTable dev) as [text|] eqn:Et; cbn [mbind option_bind].
  2:{ exists kUnknown, "no valid table". split; [reflexivity|]. right. exists prog, slot. split_and!; auto.
      left. split_and!; congruence. }
  destruct (parseTable text) as [t|] eqn:Ep.
  2:{ exists kUnknown, "no valid table". split; [reflexivity|]. right. exists prog, slot. split_and!; auto.
      left. split_and!; congruence. }
  pose proof (check_partitions_status dev slot t (partitions t) [] "") as Hst.
  pose proof (main_verdict dev slot text t Ep) as Hv.
  destruct (check_partitions _ _ _ _ _ _) as [[status value] detail]. cbn in Hst, Hv. subst status.
  exists value, detail. split; [reflexivity|]. right. exists prog, slot. eauto 10.
Qed.

(** The parser accepts only complete tables: at most 64 partitions with distinct
    names that cannot leave the directory of partitions, at most 64 releases, and
    for every partition exactly one image of every release, of 1 byte to 512 MiB
    and with a digest of 32 bytes; so no release can fit because a partition was
    not compared. *)
Theorem accepted_table_complete text t :
  parseTable text = Some t ->
  table_ok t /\ partitions t <> [] /\
  forall name images r, (name, images) ∈ partitions t -> r ∈ releases t ->
    exists im, im ∈ images /\ release im = r /\ image_ok im /\ forall im', im' ∈ images -> release im' = r -> im' = im.
Proof.
  intros Hp. pose proof (parseTable_ok _ _ Hp) as Hok. split; [exact Hok|].
  split; [eapply parseTable_nonempty; eauto|]. intros name images r Hin Hr.
  destruct (tk_images _ Hok name images Hin) as (_ & Hnd & Hall & Hrel).
  apply Hrel, list_elem_of_fmap in Hr as (im & -> & Him). exists im. split; [exact Him|]. split; [reflexivity|].
  rewrite Forall_forall in Hall. split; [auto|]. intros im' Him' E.
  apply list_elem_of_lookup in Him as [i Ei]. apply list_elem_of_lookup in Him' as [j Ej].
  assert (i = j) as ->; [|congruence].
  apply (NoDup_lookup _ i j (release im) Hnd); rewrite list_lookup_fmap; [rewrite Ei | rewrite Ej]; cbn; congruence.
Qed.

(** ** Witnesses *)

(** A stand-in for the hash: the sum of the bytes, 32 times. *)
Definition sum_hash (l : list Z) : Digest := replicate 32 (foldl Z.add 0 l mod 256).
Definition sum_sha : Sha256 := {|
  SHA256_CTX := list Z; SHA256_Init := []; SHA256_Update := app; SHA256_Final := sum_hash; SHA256 := sum_hash |}.

Lemma sum_sha_laws : Sha256Laws sum_sha.
Proof.
  assert (forall (pieces : list (list Z)) acc, foldl app acc pieces = acc ++ concat pieces) as Hf.
  { induction pieces as [|p pieces IH]; intros acc; cbn; [now rewrite app_nil_r|]. now rewrite IH, app_assoc. }
  split. intros pieces. cbn. now rewrite Hf.
Qed.

Definition hex32 (b : string) : string := String.concat "" (replicate 32 b).
Definition sample_table : string :=
  "image xbl 16.111.0 3 " +:+ hex32 "06" +:+ String newline
  ("image tz 16.111.0 2 " +:+ hex32 "0a" +:+ String newline EmptyString).
Definition sample_device : fw_device :=
  mkFwDevice ["fwrelease"; "_a"] (Some [Chunk sample_table])
    (fun p => if bool_decide (p = "xbl_a") then Some [Chunk [1; 2]; Eintr; Chunk [3; 9]] else Some [Chunk [4; 6; 7]]) "" true.
Definition sample_parsed : Table := default (mkTable [] []) (parseTable sample_table).

Lemma reported_release_correct_witness :
  exists value detail, fwrelease_main (S := sum_sha) sample_device = (0, value, detail) /\ value = "16.111.0" /\
    verdict (S := sum_sha) sample_device "_a" sample_parsed value.
Proof.
  destruct (@reported_release_correct sum_sha sum_sha_laws sample_device)
    as (value & detail & E & [(H & _)|(prog & slot & Ea & _ & H)]).
  - now destruct (H "fwrelease" "_a" eq_refl).
  - cbn in Ea. injection Ea as <- <-. destruct H as [(H & _)|(text & t & Et & Ep & H)].
    + specialize (H sample_table eq_refl). vm_compute in H. discriminate.
    + vm_compute in Et. injection Et as <-. vm_compute in Ep. injection Ep as <-.
      exists value, detail. split; [exact E|]. split; [vm_compute in E; now injection E | exact H].
Defined.

Lemma accepted_table_complete_witness :
  table_ok sample_parsed /\ partitions sample_parsed <> [] /\
  forall name images r, (name, images) ∈ partitions sample_parsed -> r ∈ releases sample_parsed ->
    exists im, im ∈ images /\ release im = r /\ image_ok im /\ forall im', im' ∈ images -> release im' = r -> im' = im.
Proof. apply (accepted_table_complete sample_table). vm_compute. reflexivity. Defined.
