(* ===== verification/PowerStats.v ===== *)
(** * Power statistics

    [power/stats/] ([QcomStats.h], [QcomStats.cpp], [PowerStats.cpp],
    [PowerStats.h]): the power stats HAL, which reads sleep counters from the
    [qcom_stats] driver.  The driver is the function [ioctl] of the number of calls
    made so far and the command, so counters may change between calls.  Theorems: a
    request is answered for whole entities in the order asked, with times the driver
    counted, or refused; record names are read back; the text of [dump] is always
    defined. *)

From S2P Require Import Prelude.

(** ** [QcomStats.h] *)

Record SleepStats := {
  statType : Z;        (* uint32_t *)
  count : Z;           (* uint32_t *)
  lastEnteredAt : Z;   (* uint64_t *)
  lastExitedAt : Z;    (* uint64_t *)
  accumulated : Z;     (* uint64_t *)
}.

Definition stats_ok (s : SleepStats) : Prop :=
  is_u32 (statType s) /\ is_u32 (count s) /\ is_u64 (lastEnteredAt s) /\
  is_u64 (lastExitedAt s) /\ is_u64 (accumulated s).

Definition kTicksPerMs : Z := 19200.

Inductive StatsIoctl := kModem | kWpss | kAdsp | kCdsp | kAosd | kCxsd | kDdr.

Definition StatsIoctl_value (nr : StatsIoctl) : Z :=
  match nr with
  | kModem => 1 | kWpss => 2 | kAdsp => 3 | kCdsp => 5 | kAosd => 10 | kCxsd => 11 | kDdr => 12
  end.

Record StateSource := {
  state_name : string;
  ioctlNr : StatsIoctl;
  record : option string;
}.
Record EntitySource := {
  entity_name : string;
  states : list StateSource;
}.

(** ** [QcomStats.cpp] *)

Definition kStatsIoctlMagic : Z := 157.

(** [IoctlCommand]: [IOR type nr size] is the kernel's macro; the size is that of
    a pointer. *)
Definition IoctlCommand (IOR : Z -> Z -> Z -> Z) (nr : StatsIoctl) : Z :=
  IOR kStatsIoctlMagic (StatsIoctl_value nr) 8.

(** [tolower] of the C locale. *)
Definition tolower (c : Z) : Z := if (65 <=? c) && (c <=? 90) then c + 32 else c.

(** The loop of [RecordName], with [n] rounds left, at round [i]. *)
Fixpoint record_name (n : nat) (i : Z) (statType : Z) : string :=
  match n with
  | O => ""
  | S m =>
      let c := Z.land (Z.shiftr statType (8 * i)) 255 in
      if (c =? 0) || (c =? 32) then ""
      else String (char_of (tolower c)) (record_name m (i + 1) statType)
  end.
Definition RecordName (statType : Z) : string := record_name 4 0 statType.

Definition Entities : list EntitySource :=
  [ {| entity_name := "SoC";
       states := [ {| state_name := "AOSD"; ioctlNr := kAosd; record := Some "aosd" |};
                   {| state_name := "CXSD"; ioctlNr := kCxsd; record := Some "cxsd" |};
                   {| state_name := "DDR"; ioctlNr := kDdr; record := Some "ddr" |} ] |};
    {| entity_name := "Modem";
       states := [ {| state_name := "Sleep"; ioctlNr := kModem; record := None |} ] |};
    {| entity_name := "WPSS";
       states := [ {| state_name := "Sleep"; ioctlNr := kWpss; record := None |} ] |};
    {| entity_name := "ADSP";
       states := [ {| state_name := "Sleep"; ioctlNr := kAdsp; record := None |} ] |};
    {| entity_name := "CDSP";
       states := [ {| state_name := "Sleep"; ioctlNr := kCdsp; record := None |} ] |} ].

(** ** [PowerStats.cpp] *)

Record StateResidency := {
  res_id : Z;
  totalTimeInStateMs : Z;
  totalStateEntryCount : Z;
  lastEntryTimestampMs : Z;
}.
Record StateResidencyResult := {
  result_id : Z;
  stateResidencyData : list StateResidency;
}.
(** [PowerEntity] and its states: id and name. *)
Record PowerEntity := {
  pe_id : Z;
  pe_name : string;
  pe_states : list (Z * string);
}.

Definition ToResidency (id : Z) (stats : SleepStats) : StateResidency := {|
  res_id := id;
  totalTimeInStateMs := i64 (accumulated stats / kTicksPerMs);
  totalStateEntryCount := count stats;
  lastEntryTimestampMs := i64 (lastEnteredAt stats / kTicksPerMs);
|}.

(** The loops of the constructor. *)
Definition new_entity (i : nat) (e : EntitySource) : PowerEntity := {|
  pe_id := Z.of_nat i;
  pe_name := entity_name e;
  pe_states := imap (fun j s => (Z.of_nat j, state_name s)) (states e);
|}.
Definition mEntities : list PowerEntity := imap new_entity Entities.

Definition getPowerEntityInfo : list PowerEntity := mEntities.

Inductive binder_exception := EX_NONE | EX_ILLEGAL_ARGUMENT.

Section Driver.
Context (IOR : Z -> Z -> Z -> Z).
(** Call number [n] with a command: [None] when it fails. *)
Context (ioctl : nat -> Z -> option SleepStats).

(** The loop of [readEntity] from state [j]: the residencies, or [None] for the
    return of false, and the number of calls made. *)
Fixpoint read_states (j : nat) (todo : list StateSource) (n : nat)
    (residencies : list StateResidency) : option (list StateResidency) * nat :=
  match todo with
  | [] => (Some residencies, n)
  | state :: todo =>
      match ioctl n (IoctlCommand IOR (ioctlNr state)) with
      | None => (None, S n)
      | Some stats =>
          if match record state with
             | Some r => negb (bool_decide (RecordName (statType stats) = r))
             | None => false
             end
          then (None, S n)
          else read_states (S j) todo (S n) (residencies ++ [ToResidency (Z.of_nat j) stats])
      end
  end.

(** [readEntity]: [Undef] when [index] is not an entity. *)
Definition readEntity (index : Z) (n : nat) : ub (option (list StateResidency) * nat) :=
  match Entities !! Z.to_nat index with
  | None => Undef
  | Some entity => Ret (read_states 0 (states entity) n [])
  end.

(** The loop over the ids of [getStateResidency]. *)
Fixpoint read_entities (ids : list Z) (n : nat) (out : list StateResidencyResult)
  : ub (list StateResidencyResult * nat) :=
  match ids with
  | [] => Ret (out, n)
  | id :: ids =>
      '(r, n) ← readEntity id n;
      read_entities ids n
        (match r with
         | Some data => out ++ [{| result_id := id; stateResidencyData := data |}]
         | None => out
         end)
  end.

(** Negative, or [static_cast<size_t>(id) >= mEntities.size()]. *)
Definition bad_id (id : Z) : bool := (id <? 0) || (Z.of_nat (length mEntities) <=? id).

(** [getStateResidency]; [open_ok]: the device can be opened. *)
Definition getStateResidency (open_ok : bool) (in_powerEntityIds : list Z) (n : nat)
    (out : list StateResidencyResult)
  : ub (binder_exception * list StateResidencyResult * nat) :=
  let ids := if bool_decide (in_powerEntityIds = [])
             then map Z.of_nat (seq 0 (length mEntities)) else in_powerEntityIds in
  if existsb bad_id ids then Ret (EX_ILLEGAL_ARGUMENT, out, n)
  else if negb open_ok then Ret (EX_NONE, out, n)
  else '(out, n) ← read_entities ids n out; Ret (EX_NONE, out, n).

End Driver.

(** The calls about energy: there are no meters or consumers. *)
Definition getEnergyConsumerInfo : binder_exception * list unit := (EX_NONE, []).
Definition getEnergyConsumed (ids : list Z) : binder_exception * list unit :=
  (if bool_decide (ids = []) then EX_NONE else EX_ILLEGAL_ARGUMENT, []).
Definition getEnergyMeterInfo : binder_exception * list unit := (EX_NONE, []).
Definition readEnergyMeter (ids : list Z) : binder_exception * list unit :=
  (if bool_decide (ids = []) then EX_NONE else EX_ILLEGAL_ARGUMENT, []).

(** ** [dump] *)

Fixpoint spaces (n : nat) : string :=
  match n with O => "" | S m => String space (spaces m) end.
(** [%-<n>s], [%<n>s] and [%<n>lld] *)
Definition pad_right (n : nat) (s : string) : string := s +:+ spaces (n - String.length s).
Definition pad_left (n : nat) (s : string) : string := spaces (n - String.length s) +:+ s.
Definition line (s : string) : string := s +:+ String newline "".

Definition dump_title : string :=
  line "State residency from /dev/stats (qcom_stats); no energy meters or consumers." +:+
  line (pad_right 8 "Entity" +:+ " " +:+ pad_right 6 "State" +:+ " " +:+ pad_left 14 "Time (ms)" +:+
        " " +:+ pad_left 12 "Entries" +:+ " " +:+ pad_left 16 "Last entry (ms)").

(** One residency of an entity; [Undef] when its state does not exist. *)
Definition dump_state (entity : PowerEntity) (r : StateResidency) : ub string :=
  match pe_states entity !! Z.to_nat (res_id r) with
  | None => Undef
  | Some (_, state) =>
      Ret (line (pad_right 8 (pe_name entity) +:+ " " +:+ pad_right 6 state +:+ " " +:+
                 pad_left 14 (to_string (totalTimeInStateMs r)) +:+ " " +:+
                 pad_left 12 (to_string (totalStateEntryCount r)) +:+ " " +:+
                 pad_left 16 (to_string (lastEntryTimestampMs r))))
  end.

Fixpoint dump_states (entity : PowerEntity) (rs : list StateResidency) : ub string :=
  match rs with
  | [] => Ret ""
  | r :: rs => a ← dump_state entity r; b ← dump_states entity rs; Ret (a +:+ b)
  end.

(** The last result with the entity's id. *)
Fixpoint find_result (results : list StateResidencyResult) (id : Z) : option StateResidencyResult :=
  match results with
  | [] => None
  | r :: results =>
      match find_result results id with
      | Some r' => Some r'
      | None => if result_id r =? id then Some r else None
      end
  end.

Definition dump_entity (results : list StateResidencyResult) (entity : PowerEntity) : ub string :=
  match find_result results (pe_id entity) with
  | None => Ret (line (pad_right 8 (pe_name entity) +:+ " " +:+ pad_right 6 "-" +:+ " " +:+
                       pad_left 14 "no data"))
  | Some result => dump_states entity (stateResidencyData result)
  end.

Fixpoint dump_entities (results : list StateResidencyResult) (es : list PowerEntity) : ub string :=
  match es with
  | [] => Ret ""
  | e :: es => a ← dump_entity results e; b ← dump_entities results es; Ret (a +:+ b)
  end.

(** [dump]: the text, and whether it was written. *)
Definition dump (IOR : Z -> Z -> Z -> Z) (ioctl : nat -> Z -> option SleepStats)
    (open_ok write_ok : bool) (n : nat) : ub (string * bool) :=
  '(_, results, _) ← getStateResidency IOR ioctl open_ok [] n [];
  text ← dump_entities results mEntities;
  Ret (dump_title +:+ text, write_ok).

(** ** Record names *)

(** The four characters of a record as the driver packs them: [s], then [rest]. *)
Fixpoint pack (s : string) (rest : Z) : Z :=
  match s with
  | EmptyString => rest
  | String c t => char_code c + 256 * pack t rest
  end.
Fixpoint lower (s : string) : string :=
  match s with
  | EmptyString => EmptyString
  | String c t => String (char_of (tolower (char_code c))) (lower t)
  end.
(** Characters a name can have. *)
Definition name_char (c : ascii) : bool := negb ((char_code c =? 0) || (char_code c =? 32)).

Lemma char_code_range c : 0 <= char_code c < 256.
Proof. unfold char_code. pose proof (Ascii.N_ascii_bounded c). lia. Qed.

Lemma pack_nonneg s rest : 0 <= rest -> 0 <= pack s rest.
Proof. induction s as [|c s IH]; cbn [pack]; intros; [easy|]. pose proof (char_code_range c). lia. Qed.

(** A round looks at the lowest byte of what the rounds before shifted out. *)
Lemma record_name_step n i v :
  0 <= i ->
  record_name (S n) i v =
  let c := Z.shiftr v (8 * i) mod 256 in
  if (c =? 0) || (c =? 32) then ""
  else String (char_of (tolower c)) (record_name n (i + 1) v).
Proof.
  intros Hi. cbn [record_name]. change 255 with (Z.ones 8).
  rewrite Z.land_ones by lia. reflexivity.
Qed.

Lemma record_name_pack s rest n i v :
  0 <= rest -> 0 <= i -> Z.shiftr v (8 * i) = pack s rest ->
  str_forallb name_char s = true -> (String.length s <= n)%nat ->
  (String.length s = n \/ rest mod 256 = 0 \/ rest mod 256 = 32) ->
  record_name n i v = lower s.
Proof.
  intros Hr. revert n i. induction s as [|c s IH]; intros n i Hi Hv Hs Hn Hpad.
  - destruct n as [|n]; [reflexivity|]. rewrite record_name_step, Hv by exact Hi. cbn in *.
    destruct Hpad as [|[-> | ->]]; [lia | reflexivity | reflexivity].
  - destruct n as [|n]; [cbn in Hn; lia|]. cbn [str_forallb] in Hs. boolprop.
    rewrite record_name_step, Hv by exact Hi. cbn [pack lower].
    pose proof (char_code_range c) as Hc. pose proof (pack_nonneg s rest Hr).
    replace ((char_code c + 256 * pack s rest) mod 256) with (char_code c)
      by (rewrite Z.mul_comm, Z.mod_add, Z.mod_small by lia; reflexivity).
    cbv zeta. unfold name_char in H. apply negb_true_iff in H. rewrite H. f_equal.
    apply IH; [lia | | assumption | cbn in Hn; lia | cbn in Hpad; intuition lia].
    replace (8 * (i + 1)) with (8 * i + 8) by lia.
    rewrite <- Z.shiftr_shiftr, Hv, Z.shiftr_div_pow2 by lia. cbn [pack].
    change (2 ^ 8) with 256. rewrite Z.mul_comm, Z.div_add, Z.div_small by lia. lia.
Qed.

(** ** Whole entities *)

Section Reads.
Context (IOR : Z -> Z -> Z -> Z) (ioctl : nat -> Z -> option SleepStats).

(** The driver answered for the state with its record. *)
Definition answered (s : StateSource) (stats : SleepStats) : Prop :=
  (exists m, ioctl m (IoctlCommand IOR (ioctlNr s)) = Some stats) /\
  match record s with Some r => RecordName (statType stats) = r | None => True end.

(** Residencies of the states [todo], numbered from [j]. *)
Fixpoint residencies_of (j : nat) (todo : list StateSource) (rs : list StateResidency) : Prop :=
  match todo, rs with
  | [], [] => True
  | s :: todo, r :: rs =>
      (exists stats, answered s stats /\ r = ToResidency (Z.of_nat j) stats) /\
      residencies_of (S j) todo rs
  | _, _ => False
  end.

Lemma read_states_spec todo j n acc data n' :
  read_states IOR ioctl j todo n acc = (Some data, n') ->
  exists rs, data = acc ++ rs /\ residencies_of j todo rs.
Proof.
  revert j n acc. induction todo as [|s todo IH]; intros j n acc; cbn [read_states].
  - intros [= <- <-]. exists []. now rewrite app_nil_r.
  - destruct (ioctl n _) as [stats|] eqn:Ei; [|discriminate].
    destruct (match record s with Some r => _ | None => false end) eqn:Er; [discriminate|].
    intros E. apply IH in E as (rs & -> & Hrs).
    exists (ToResidency (Z.of_nat j) stats :: rs). rewrite <- app_assoc. split; [reflexivity|].
    split; [|exact Hrs]. exists stats. split; [|reflexivity]. split; [eauto|].
    destruct (record s); [|exact I]. now boolprop.
Qed.

Lemma residencies_of_bound j todo rs r :
  residencies_of j todo rs -> r ∈ rs -> Z.of_nat j <= res_id r < Z.of_nat (j + length todo).
Proof.
  revert j rs. induction todo as [|s todo IH]; intros j [|x rs] Hr Hin; cbn in Hr; try contradiction.
  - now apply elem_of_nil in Hin.
  - destruct Hr as [(stats & _ & ->) Hr]. apply elem_of_cons in Hin as [->|Hin]; cbn; [lia|].
    specialize (IH _ _ Hr Hin). cbn. lia.
Qed.

(** A result of a request: an entity, with all its states. *)
Definition whole (r : StateResidencyResult) : Prop :=
  exists e, Entities !! Z.to_nat (result_id r) = Some e /\ 0 <= result_id r /\
    residencies_of 0 (states e) (stateResidencyData r).

Lemma entity_at id :
  bad_id id = false -> exists e, Entities !! Z.to_nat id = Some e /\ 0 <= id.
Proof.
  unfold bad_id. change (length mEntities) with (length Entities). intros H.
  apply orb_false_iff in H as [H1 H2]. boolprop.
  destruct (lookup_lt_is_Some_2 Entities (Z.to_nat id)) as [e He]; [lia | eauto].
Qed.

(** Every call succeeds with the record that is asked for. *)
Definition all_answered : Prop :=
  forall e s n, e ∈ Entities -> s ∈ states e ->
    exists stats, ioctl n (IoctlCommand IOR (ioctlNr s)) = Some stats /\
      match record s with Some r => RecordName (statType stats) = r | None => True end.

Lemma read_states_all e todo j n acc :
  all_answered -> e ∈ Entities -> (forall s, s ∈ todo -> s ∈ states e) ->
  exists data n', read_states IOR ioctl j todo n acc = (Some data, n').
Proof.
  intros Hall He. revert j n acc. induction todo as [|s todo IH]; intros j n acc Hs; cbn [read_states]; [eauto|].
  destruct (Hall e s n He) as (stats & -> & Hr); [apply Hs; left|].
  destruct (record s) as [r|]; [rewrite bool_decide_true by exact Hr|]; cbn [negb];
    apply IH; intros s' Hs'; apply Hs; now right.
Qed.

Lemma read_entities_spec ids n out :
  existsb bad_id ids = false ->
  exists new n', read_entities IOR ioctl ids n out = Ret (out ++ new, n') /\
    sublist (map result_id new) ids /\ Forall whole new /\
    (all_answered -> map result_id new = ids).
Proof.
  revert n out. induction ids as [|id ids IH]; intros n out Hok; cbn [read_entities].
  - exists [], n. rewrite app_nil_r. cbn. auto using sublist_nil_l.
  - cbn [existsb] in Hok. boolprop. destruct (entity_at id) as (e & He & Hid); [assumption|].
    unfold readEntity. rewrite He. cbn [mbind ub_bind].
    destruct (read_states IOR ioctl 0 (states e) n []) as [[data|] n1] eqn:Er.
    + destruct (IH n1 (out ++ [{| result_id := id; stateResidencyData := data |}]) H0)
        as (new & n' & E & Hsub & Hw & Hall).
      apply read_states_spec in Er as (rs & -> & Hrs).
      eexists (_ :: new), n'. rewrite E, <- app_assoc. split; [reflexivity|].
      split; [now apply sublist_skip|]. split; [constructor; [now exists e | exact Hw]|].
      intros Ha. cbn. now rewrite Hall.
    + destruct (IH n1 out H0) as (new & n' & E & Hsub & Hw & Hall).
      exists new, n'. split; [exact E|]. split; [now apply sublist_cons|]. split; [exact Hw|].
      intros Ha. destruct (read_states_all e (states e) 0 n [] Ha) as (data & n2 & E2);
        [now apply list_elem_of_lookup_2 in He | auto | congruence].
Qed.

(** The ids a request asks for. *)
Definition asked (ids : list Z) : list Z :=
  if bool_decide (ids = []) then [0; 1; 2; 3; 4] else ids.

Lemma getStateResidency_spec open_ok ids n out :
  existsb bad_id (asked ids) = false ->
  exists new n', getStateResidency IOR ioctl open_ok ids n out = Ret (EX_NONE, out ++ new, n') /\
    sublist (map result_id new) (asked ids) /\ Forall whole new /\
    (open_ok = true -> all_answered -> map result_id new = asked ids).
Proof.
  intros Hok. unfold getStateResidency.
  change (map Z.of_nat (seq 0 (length mEntities))) with [0; 1; 2; 3; 4]. fold (asked ids).
  rewrite Hok. destruct open_ok; cbn [negb].
  - destruct (read_entities_spec (asked ids) n out Hok) as (new & n' & -> & Hsub & Hw & Hall).
    exists new, n'. cbn. auto.
  - exists [], n. rewrite app_nil_r. split; [reflexivity|]. split; [apply sublist_nil_l|]. easy.
Qed.
End Reads.

(** The driver's counters fit the results exactly. *)
Lemma ToResidency_exact id stats :
  stats_ok stats ->
  totalTimeInStateMs (ToResidency id stats) = accumulated stats / kTicksPerMs /\
  lastEntryTimestampMs (ToResidency id stats) = lastEnteredAt stats / kTicksPerMs /\
  0 <= accumulated stats / kTicksPerMs <= INT64_MAX.
Proof.
  intros (_ & _ & Hl & _ & Ha). cbn. unfold kTicksPerMs.
  rewrite !i64_small by range. range.
Qed.

Lemma residencies_lookup IOR ioctl :
  (forall m cmd stats, ioctl m cmd = Some stats -> stats_ok stats) ->
  forall j todo rs, residencies_of IOR ioctl j todo rs ->
  length rs = length todo /\
  forall k s x, todo !! k = Some s -> rs !! k = Some x ->
    res_id x = Z.of_nat (j + k) /\ exists stats, answered IOR ioctl s stats /\
      totalTimeInStateMs x = accumulated stats / kTicksPerMs /\
      lastEntryTimestampMs x = lastEnteredAt stats / kTicksPerMs /\
      totalStateEntryCount x = count stats.
Proof.
  intros Hst j todo. revert j. induction todo as [|s todo IH]; intros j [|x rs] Hr; cbn in Hr; try contradiction.
  - easy.
  - destruct Hr as [(stats & Ha & ->) Hr]. destruct (IH _ _ Hr) as [Hl Hx].
    split; [cbn; congruence|]. intros [|k] s' x'; cbn [lookup list_lookup].
    + intros [= <-] [= <-]. split; [cbn; lia|]. exists stats. split; [exact Ha|].
      destruct Ha as [(m & Hm) _]. destruct (ToResidency_exact (Z.of_nat j) stats (Hst _ _ _ Hm))
        as (-> & -> & _). auto.
    + intros Hs' Hx'. destruct (Hx _ _ _ Hs' Hx') as [-> Hst']. split; [lia | exact Hst'].
Qed.

(** ** [dump] *)

Lemma find_result_in results id r :
  find_result results id = Some r -> r ∈ results /\ result_id r = id.
Proof.
  induction results as [|x results IH]; cbn [find_result]; [discriminate|].
  destruct (find_result results id) as [r'|].
  - intros [= <-]. destruct IH as [? ?]; [reflexivity|]. split; [now right | assumption].
  - case_goal; [|discriminate]. intros [= <-]. boolprop. split; [left | assumption].
Qed.

Lemma mEntities_lookup i e :
  mEntities !! i = Some e -> exists src, Entities !! i = Some src /\ pe_id e = Z.of_nat i /\
    length (pe_states e) = length (states src).
Proof.
  unfold mEntities. rewrite list_lookup_imap. intros H.
  apply fmap_Some in H as (src & Hsrc & ->). exists src. split; [exact Hsrc|].
  split; [reflexivity|]. cbn. apply length_imap.
Qed.

Lemma dump_states_defined IOR ioctl e todo j rs :
  residencies_of IOR ioctl j todo rs -> (j + length todo <= length (pe_states e))%nat ->
  exists text, dump_states e rs = Ret text.
Proof.
  intros Hr Hlen.
  assert (forall r, r ∈ rs -> 0 <= res_id r < Z.of_nat (length (pe_states e))) as Hall.
  { intros r Hin. pose proof (residencies_of_bound _ _ _ _ _ _ Hr Hin). lia. }
  clear Hr Hlen. induction rs as [|r rs IH]; cbn [dump_states]; [eauto|].
  unfold dump_state. pose proof (Hall r ltac:(left)).
  destruct (lookup_lt_is_Some_2 (pe_states e) (Z.to_nat (res_id r))) as [[x st] Hx]; [lia|].
  rewrite Hx. cbn [mbind ub_bind]. destruct IH as [text ->]; [intros; apply Hall; now right|].
  cbn [mbind ub_bind]. eauto.
Qed.

Lemma dump_entities_defined IOR ioctl results es :
  Forall (whole IOR ioctl) results -> (forall e, e ∈ es -> e ∈ mEntities) ->
  exists text, dump_entities results es = Ret text.
Proof.
  intros Hw. induction es as [|e es IH]; intros Hin; cbn [dump_entities]; [eauto|].
  assert (exists text, dump_entity results e = Ret text) as [a ->].
  { unfold dump_entity. destruct (find_result results (pe_id e)) as [r|] eqn:E; [|eauto].
    apply find_result_in in E as [Hr Eid].
    rewrite Forall_forall in Hw. destruct (Hw r Hr) as (src & Hsrc & Hid & Hres).
    destruct (proj1 (list_elem_of_lookup mEntities e)) as [i Hi]; [apply Hin; left|].
    apply mEntities_lookup in Hi as (src' & Hsrc' & Eid' & Elen).
    rewrite Eid, Eid', Nat2Z.id, Hsrc' in Hsrc. injection Hsrc as ->.
    eapply (dump_states_defined _ _ e); [exact Hres | lia]. }
  destruct IH as [b ->]; [intros; apply Hin; now right|]. cbn [mbind ub_bind]. eauto.
Qed.

(** ** Properties *)

(** C36. A request for state residency is refused, without asking the driver, exactly when
    it names an id that is no entity.  Otherwise it succeeds with results for the ids
    asked for (all entities when none is named), in that order, and all of them when
    the driver answers every call with the right record.  Each result is a whole
    entity: one residency per state, in order, numbered by position, made from an
    answer of the driver to that state's command with that state's record, with the
    times in milliseconds exact in 64 bits. *)
Theorem residency_of_whole_entities (IOR : Z -> Z -> Z -> Z)
    (ioctl : nat -> Z -> option SleepStats) (open_ok : bool) (ids : list Z) (n : nat)
    (out : list StateResidencyResult) :
  (forall m cmd stats, ioctl m cmd = Some stats -> stats_ok stats) ->
  (existsb bad_id ids = true ->
     getStateResidency IOR ioctl open_ok ids n out = Ret (EX_ILLEGAL_ARGUMENT, out, n)) /\
  (existsb bad_id ids = false -> exists new n',
     getStateResidency IOR ioctl open_ok ids n out = Ret (EX_NONE, out ++ new, n') /\
     sublist (map result_id new) (asked ids) /\
     (open_ok = true -> all_answered IOR ioctl -> map result_id new = asked ids) /\
     Forall (fun r => exists e, Entities !! Z.to_nat (result_id r) = Some e /\
       length (stateResidencyData r) = length (states e) /\
       forall j s x, states e !! j = Some s -> stateResidencyData r !! j = Some x ->
         res_id x = Z.of_nat j /\ exists stats, answered IOR ioctl s stats /\
           totalTimeInStateMs x = accumulated stats / kTicksPerMs /\
           lastEntryTimestampMs x = lastEnteredAt stats / kTicksPerMs /\
           totalStateEntryCount x = count stats) new).
Proof.
  intros Hstats. split.
  - intros Hbad. unfold getStateResidency. rewrite bool_decide_false by (now intros ->).
    now rewrite Hbad.
  - intros Hok. assert (existsb bad_id (asked ids) = false) as Hok'.
    { unfold asked. case_bool_decide; [reflexivity | exact Hok]. }
    destruct (getStateResidency_spec IOR ioctl open_ok ids n out Hok')
      as (new & n' & E & Hsub & Hw & Hall).
    exists new, n'. split; [exact E|]. split; [exact Hsub|]. split; [exact Hall|].
    eapply Forall_impl; [exact Hw|]. intros r (e & He & _ & Hr). exists e. split; [exact He|].
    apply (residencies_lookup IOR ioctl Hstats 0 (states e) (stateResidencyData r)) in Hr as [Hl Hx].
    split; [exact Hl | exact Hx].
Qed.

(** The name of a record is read back from the four bytes the driver packs it into,
    in lower case, whatever follows the NUL or space after a shorter name. *)
Theorem record_name_roundtrip (s : string) (rest : Z) :
  0 <= rest -> str_forallb name_char s = true -> (String.length s <= 4)%nat ->
  String.length s = 4%nat \/ rest mod 256 = 0 \/ rest mod 256 = 32 ->
  RecordName (pack s rest) = lower s.
Proof.
  intros Hr Hs Hn Hpad. unfold RecordName. apply (record_name_pack s rest); auto; lia.
Qed.

(** [dump] never looks up a state that does not exist: whatever the driver answers, its
    text is defined. *)
Theorem dump_defined (IOR : Z -> Z -> Z -> Z) (ioctl : nat -> Z -> option SleepStats)
    (open_ok write_ok : bool) (n : nat) :
  exists text, dump IOR ioctl open_ok write_ok n = Ret (dump_title +:+ text, write_ok).
Proof.
  unfold dump.
  destruct (getStateResidency_spec IOR ioctl open_ok [] n [] eq_refl) as (new & n' & -> & _ & Hw & _).
  cbn [mbind ub_bind app].
  destruct (dump_entities_defined IOR ioctl new mEntities Hw ltac:(auto)) as [text ->].
  exists text. reflexivity.
Qed.

(** ** A concrete driver *)

(** The encoding of Linux on arm64. *)
Definition ref_IOR (type nr size : Z) : Z :=
  Z.lor (Z.shiftl 2 30) (Z.lor (Z.shiftl size 16) (Z.lor (Z.shiftl type 8) nr)).

(** A driver that knows the SoC records and, of the subsystems, the modem. *)
Definition ref_ioctl (n : nat) (cmd : Z) : option SleepStats :=
  let stats t := {| statType := t; count := 3; lastEnteredAt := 19200000; lastExitedAt := 0;
                    accumulated := 38400 |} in
  if cmd =? IoctlCommand ref_IOR kAosd then Some (stats (pack "aosd" 0))
  else if cmd =? IoctlCommand ref_IOR kCxsd then Some (stats (pack "cxsd" 0))
  else if cmd =? IoctlCommand ref_IOR kDdr then Some (stats (pack "ddr" 32))
  else if cmd =? IoctlCommand ref_IOR kModem then Some (stats 0)
  else None.

Lemma ref_ioctl_ok m cmd stats : ref_ioctl m cmd = Some stats -> stats_ok stats.
Proof.
  assert (forall t, is_u32 t -> stats_ok {| statType := t; count := 3; lastEnteredAt := 19200000;
    lastExitedAt := 0; accumulated := 38400 |}) as Hok by (intros t Ht; unfold stats_ok; cbn; range).
  unfold ref_ioctl. repeat case_goal; intros [= <-]; apply Hok; vm_compute; split; discriminate.
Qed.

(** All entities: the subsystems without counters are left out. *)
Lemma residency_of_whole_entities_witness :
  (exists new n', getStateResidency ref_IOR ref_ioctl true [] 0 [] = Ret (EX_NONE, new, n') /\
    map result_id new = [0; 1]) /\
  getStateResidency ref_IOR ref_ioctl true [1; 5] 0 [] = Ret (EX_ILLEGAL_ARGUMENT, [], 0%nat).
Proof.
  split.
  - destruct (proj2 (residency_of_whole_entities ref_IOR ref_ioctl true [] 0 [] ref_ioctl_ok) eq_refl)
      as (new & n' & E & _). exists new, n'. split; [exact E|].
    vm_compute in E. injection E as <- <-. reflexivity.
  - apply (residency_of_whole_entities ref_IOR ref_ioctl true [1; 5] 0 [] ref_ioctl_ok). reflexivity.
Defined.

Lemma record_name_roundtrip_witness : RecordName (pack "DDR" 32) = lower "DDR" /\ lower "DDR" = "ddr".
Proof.
  split; [|reflexivity]. apply (record_name_roundtrip "DDR" 32); [lia | reflexivity | cbn; lia | auto].
Defined.
