(* ===== verification/GraphicBuffer.v ===== *)
(** * Android 14 graphic buffers for the stock libraries

    [compat/codec2-v34/] ([GraphicBufferV34.cpp], [GraphicBufferMapperV34.cpp],
    [GraphicBufferSourceV34.cpp]): the [GraphicBuffer] the stock Codec2 and camera
    libraries construct in their own memory.  [world] holds the objects by address,
    the map of the hardware buffers behind them, and what the buffer libraries have
    given out: imported clones and allocated buffers.  Freeing or using what is not
    given out is [Undef].  Theorems: no double free, no use after free and no leak for
    any use of the entry points; the codec path fails closed; a buffer is left locked
    exactly when [lockYCbCr] succeeds. *)

From S2P Require Import Prelude.

(** ** State *)

Inductive owner := kOwnNone | kOwnHandle | kOwnData.
#[global] Instance owner_eq_dec : EqDecision owner.
Proof. solve_decision. Defined.

Record GraphicBufferV34 := {
  width : Z; height : Z; stride : Z; format : Z;
  usage_deprecated : Z; usage : Z; layerCount : Z;
  handle : option Z;
  mOwner : owner;
  mBufferMapper : bool;        (* set *)
  mInitCheck : Z;
  mTransportNumFds : Z; mTransportNumInts : Z;
  mId : Z;
  mBufferId : Z;
  mGenerationNumber : Z;
}.

Record world := {
  objects : gmap Z GraphicBufferV34;
  gHardwareBuffers : gmap Z Z;   (* object to hardware buffer *)
  next_id : Z;                   (* the counter of [nextBufferId] *)
  allowed : option bool;         (* [surfaceOutputAllowed], once initialised *)
  clones : gset Z;               (* handles the mapper imported and nobody freed *)
  hw_buffers : gset Z;           (* hardware buffers nobody released *)
  locks : gmap Z Z;              (* how often each is locked *)
}.

Definition world_init : world :=
  {| objects := ∅; gHardwareBuffers := ∅; next_id := 0; allowed := None;
     clones := ∅; hw_buffers := ∅; locks := ∅ |}.

Definition with_objects (w : world) (o : gmap Z GraphicBufferV34) : world :=
  {| objects := o; gHardwareBuffers := gHardwareBuffers w; next_id := next_id w;
     allowed := allowed w; clones := clones w; hw_buffers := hw_buffers w; locks := locks w |}.
Definition with_id (w : world) (n : Z) : world :=
  {| objects := objects w; gHardwareBuffers := gHardwareBuffers w; next_id := n;
     allowed := allowed w; clones := clones w; hw_buffers := hw_buffers w; locks := locks w |}.
Definition with_allowed (w : world) (b : bool) : world :=
  {| objects := objects w; gHardwareBuffers := gHardwareBuffers w; next_id := next_id w;
     allowed := Some b; clones := clones w; hw_buffers := hw_buffers w; locks := locks w |}.
Definition with_clones (w : world) (c : gset Z) : world :=
  {| objects := objects w; gHardwareBuffers := gHardwareBuffers w; next_id := next_id w;
     allowed := allowed w; clones := c; hw_buffers := hw_buffers w; locks := locks w |}.
Definition with_hw (w : world) (m : gmap Z Z) (b : gset Z) : world :=
  {| objects := objects w; gHardwareBuffers := m; next_id := next_id w;
     allowed := allowed w; clones := clones w; hw_buffers := b; locks := locks w |}.
Definition with_locks (w : world) (l : gmap Z Z) : world :=
  {| objects := objects w; gHardwareBuffers := gHardwareBuffers w; next_id := next_id w;
     allowed := allowed w; clones := clones w; hw_buffers := hw_buffers w; locks := l |}.

(** The status codes and usage bits of Android's headers, and the process id. *)
Class Platform34 := {
  NO_INIT : Z;
  BAD_VALUE : Z;
  CPU_READ_MASK : Z;
  CPU_WRITE_MASK : Z;
  getpid : Z;
}.
Definition NO_ERROR : Z := 0.

Definition kCloneHandle : Z := 3.

Section Buffers.
Context `{Platform34}.

(** [nextBufferId] *)
Definition nextBufferId (w : world) : Z * world :=
  (Z.lor (u64 (Z.shiftl (u64 getpid) 32)) (next_id w), with_id w (u32 (next_id w + 1))).

(** The constructor of the class. *)
Definition new_buffer (usable withMapper : bool) (w : world) : GraphicBufferV34 * world :=
  let '(id, w) := nextBufferId w in
  ({| width := 0; height := 0; stride := 0; format := 0; usage_deprecated := 0; usage := 0;
      layerCount := 0; handle := None; mOwner := kOwnData; mBufferMapper := withMapper;
      mInitCheck := if usable then NO_ERROR else NO_INIT;
      mTransportNumFds := 0; mTransportNumInts := 0; mId := id; mBufferId := -1;
      mGenerationNumber := 0 |}, w).

(** What describes a buffer in the constructors. *)
Record buffer_args := {
  inWidth : Z; inHeight : Z; inFormat : Z; inLayerCount : Z; inUsage : Z; inStride : Z;
}.

(** The answers of the mapper to [importClone]. *)
Record import_io := {
  import_err : Z;
  imported : option Z;
  transport_fds : Z;
  transport_ints : Z;
}.

(** [importClone]; calling through an unset mapper is undefined. *)
Definition importClone (a : buffer_args) (io : import_io) (o : GraphicBufferV34) (w : world)
  : ub (Z * GraphicBufferV34 * world) :=
  if negb (mBufferMapper o) then Undef
  else
    let w := match imported io with
             | Some c => if import_err io =? NO_ERROR then with_clones w ({[c]} ∪ clones w) else w
             | None => w
             end in
    match (if import_err io =? NO_ERROR then imported io else None) with
    | None => Ret (if negb (import_err io =? NO_ERROR) then import_err io else NO_INIT, o, w)
    | Some c =>
        Ret (NO_ERROR,
          {| width := i32 (inWidth a); height := i32 (inHeight a); stride := i32 (inStride a);
             format := inFormat a; usage := inUsage a; usage_deprecated := i32 (inUsage a);
             layerCount := inLayerCount a; handle := Some c; mOwner := kOwnHandle;
             mBufferMapper := mBufferMapper o; mInitCheck := mInitCheck o;
             mTransportNumFds := transport_fds io; mTransportNumInts := transport_ints io;
             mId := mId o; mBufferId := mBufferId o; mGenerationNumber := mGenerationNumber o |}, w)
    end.

(** The answers of the NDK to [allocate]. *)
Record allocate_io := {
  allocate_err : Z;
  allocated_buffer : option Z;
  native_handle : option Z;
  actual_width : Z;
  actual_height : Z;
  actual_stride : Z;
}.

(** [AHardwareBuffer_release]: undefined for a buffer that is not given out. *)
Definition hw_release (b : Z) (w : world) : ub world :=
  if bool_decide (b ∈ hw_buffers w)
  then Ret (with_hw w (gHardwareBuffers w) (hw_buffers w ∖ {[b]})) else Undef.

(** [allocate] for the object at [self]. *)
Definition allocate (self : Z) (a : buffer_args) (io : allocate_io) (o : GraphicBufferV34) (w : world)
  : ub (Z * GraphicBufferV34 * world) :=
  match (if allocate_err io =? 0 then allocated_buffer io else None) with
  | None => Ret (if negb (allocate_err io =? 0) then allocate_err io else NO_INIT, o, w)
  | Some b =>
      let w := with_hw w (gHardwareBuffers w) ({[b]} ∪ hw_buffers w) in
      match native_handle io with
      | None => w ← hw_release b w; Ret (NO_INIT, o, w)
      | Some h =>
          Ret (NO_ERROR,
            {| width := i32 (actual_width io); height := i32 (actual_height io);
               stride := i32 (actual_stride io); format := inFormat a; usage := inUsage a;
               usage_deprecated := i32 (inUsage a); layerCount := inLayerCount a;
               handle := Some h; mOwner := kOwnData; mBufferMapper := mBufferMapper o;
               mInitCheck := mInitCheck o; mTransportNumFds := mTransportNumFds o;
               mTransportNumInts := mTransportNumInts o; mId := mId o; mBufferId := mBufferId o;
               mGenerationNumber := mGenerationNumber o |},
            with_hw w (<[self := b]> (gHardwareBuffers w)) (hw_buffers w))
      end
  end.

(** The destructor; the mapper's [freeBuffer] is undefined for what it did not
    import, and a null [buffer] in the map is not released. *)
Definition destroy (self : Z) (w : world) : ub world :=
  match objects w !! self with
  | None => Undef
  | Some o =>
      w ← match handle o with
          | Some c =>
              if bool_decide (mOwner o = kOwnHandle) && mBufferMapper o then
                if bool_decide (c ∈ clones w) then Ret (with_clones w (clones w ∖ {[c]})) else Undef
              else Ret w
          | None => Ret w
          end;
      let w := with_objects w (delete self (objects w)) in
      match gHardwareBuffers w !! self with
      | Some b => hw_release b (with_hw w (delete self (gHardwareBuffers w)) (hw_buffers w))
      | None => Ret w
      end
  end.

(** [surfaceOutputAllowed]: a static, initialised from the property. *)
Definition surfaceOutputAllowed (property : string) (w : world) : bool * world :=
  match allowed w with
  | Some b => (b, w)
  | None => let b := bool_decide (property = "1") in (b, with_allowed w b)
  end.

Definition put (self : Z) (o : GraphicBufferV34) (w : world) : world :=
  with_objects w (<[self := o]> (objects w)).
Definition with_init_check (o : GraphicBufferV34) (err : Z) : GraphicBufferV34 :=
  {| width := width o; height := height o; stride := stride o; format := format o;
     usage_deprecated := usage_deprecated o; usage := usage o; layerCount := layerCount o;
     handle := handle o; mOwner := mOwner o; mBufferMapper := mBufferMapper o; mInitCheck := err;
     mTransportNumFds := mTransportNumFds o; mTransportNumInts := mTransportNumInts o;
     mId := mId o; mBufferId := mBufferId o; mGenerationNumber := mGenerationNumber o |}.

(** [refuse] *)
Definition refuse (self : Z) (w : world) : world :=
  let '(o, w) := new_buffer false true w in put self o w.

(** The exported constructors. *)
Definition Construct (self : Z) (property : string) (w : world) : world :=
  let '(ok, w) := surfaceOutputAllowed property w in
  if negb ok then refuse self w
  else let '(o, w) := new_buffer true true w in put self o w.

Definition ConstructWithHandle (self : Z) (property : string) (inHandle : option Z) (method : Z)
    (a : buffer_args) (io : import_io) (w : world) : ub world :=
  let '(ok, w) := surfaceOutputAllowed property w in
  if negb ok then Ret (refuse self w)
  else
    let '(o, w) := new_buffer true true w in
    '(err, o, w) ← (if (method =? kCloneHandle) && bool_decide (inHandle <> None)
                    then importClone a io o w else Ret (NO_INIT, o, w));
    Ret (put self (with_init_check o err) w).

Definition ConstructAllocated (self : Z) (a : buffer_args) (io : allocate_io) (w : world) : ub world :=
  let '(o, w) := new_buffer true false w in
  '(err, o, w) ← allocate self a io o w;
  Ret (put self (with_init_check o err) w).

(** [hardwareBufferOf] *)
Definition hardwareBufferOf (self : Z) (w : world) : option Z := gHardwareBuffers w !! self.

(** [AHardwareBuffer_lockPlanes] and [AHardwareBuffer_unlock], when they succeed:
    undefined for a buffer that is not given out. *)
Definition hw_lock (b d : Z) (w : world) : ub world :=
  if bool_decide (b ∈ hw_buffers w)
  then Ret (with_locks w (<[b := default 0 (locks w !! b) + d]> (locks w))) else Undef.

(** A plane: data, row stride and pixel stride. *)
Record plane := { p_data : Z; rowStride : Z; pixelStride : Z }.
Record android_ycbcr := { y_ : Z; cb_ : Z; cr_ : Z; ystride : Z; cstride : Z; chroma_step : Z }.

(** The usage [lockYCbCr] passes on. *)
Definition cpuUsage (inUsage : Z) : Z := Z.land (u64 inUsage) (Z.lor CPU_READ_MASK CPU_WRITE_MASK).

(** [lockYCbCr]: the status and, when it succeeds, the planes.  [planes] is what
    the lock reports; [ycbcr_null]: no place for the result. *)
Definition lockYCbCr (self : Z) (ycbcr_null : bool) (lock_err : Z) (planes : list plane) (w : world)
  : ub (Z * option android_ycbcr * world) :=
  match hardwareBufferOf self w with
  | None => Ret (NO_INIT, None, w)
  | Some b =>
      if ycbcr_null then Ret (BAD_VALUE, None, w)
      else if negb (bool_decide (b ∈ hw_buffers w)) then Undef
      else if negb (lock_err =? 0) then Ret (lock_err, None, w)
      else
        w ← hw_lock b 1 w;
        match planes with
        | [y; cb; cr] =>
            Ret (NO_ERROR, Some {| y_ := p_data y; cb_ := p_data cb; cr_ := p_data cr;
                                   ystride := rowStride y; cstride := rowStride cb;
                                   chroma_step := pixelStride cb |}, w)
        | _ => w ← hw_lock b (-1) w; Ret (BAD_VALUE, None, w)
        end
  end.

(** [unlock] *)
Definition unlock (self : Z) (unlock_err : Z) (w : world) : ub (Z * world) :=
  match hardwareBufferOf self w with
  | None => Ret (NO_INIT, w)
  | Some b =>
      if negb (bool_decide (b ∈ hw_buffers w)) then Undef
      else if negb (unlock_err =? 0) then Ret (unlock_err, w)
      else w ← hw_lock b (-1) w; Ret (0, w)
  end.

(** [initCheck]: reads the object. *)
Definition initCheck (self : Z) (w : world) : ub Z :=
  match objects w !! self with Some o => Ret (i32 (mInitCheck o)) | None => Undef end.

(** The casts between the two names of a buffer. *)
Definition fromAHardwareBuffer (p : Z) : Z := p.
Definition toAHardwareBuffer (p : Z) : Z := p.

End Buffers.

(** ** The mapper's old entry points and the missing producer *)

(** [fp6GraphicBufferMapperLockV34]: the two outputs, if asked for, and the result
    of the new call. *)
Definition MapperLockV34 (outBytesPerPixel outBytesPerStride : bool) (lock_result : Z)
  : option Z * option Z * Z :=
  (if outBytesPerPixel then Some (-1) else None, if outBytesPerStride then Some (-1) else None,
   lock_result).

(** [fp6GraphicBufferMapperUnlockV34]: the result, and whether the release fence was
    waited for. *)
Definition MapperUnlockV34 (error : Z) (fence_ok : bool) : Z * bool :=
  (error, (error =? NO_ERROR) && fence_ok).

(** [fp6GetHGraphicBufferProducerV34] *)
Definition getHGraphicBufferProducer {A} : option A := None.

(** ** Uses of the library *)

Inductive use :=
| UConstruct (self : Z) (property : string)
| UConstructWithHandle (self : Z) (property : string) (inHandle : option Z) (method : Z)
    (a : buffer_args) (io : import_io)
| UConstructAllocated (self : Z) (a : buffer_args) (io : allocate_io)
| UDestroy (self : Z)
| ULockYCbCr (self : Z) (ycbcr_null : bool) (lock_err : Z) (planes : list plane)
| UUnlock (self : Z) (unlock_err : Z)
| UInitCheck (self : Z).

Section Uses.
Context `{Platform34}.

Definition use_step (u : use) (w : world) : ub world :=
  match u with
  | UConstruct self property => Ret (Construct self property w)
  | UConstructWithHandle self property h method a io =>
      ConstructWithHandle self property h method a io w
  | UConstructAllocated self a io => ConstructAllocated self a io w
  | UDestroy self => destroy self w
  | ULockYCbCr self null err planes => '(_, _, w) ← lockYCbCr self null err planes w; Ret w
  | UUnlock self err => '(_, w) ← unlock self err w; Ret w
  | UInitCheck self => _ ← initCheck self w; Ret w
  end.

(** What the callers and the buffer libraries promise: an object is constructed in
    memory that holds none, destroyed once and checked while it lives; a handle or
    buffer that is given out is not given out already.  Locking and unlocking promise
    nothing. *)
Definition use_ok (u : use) (w : world) : Prop :=
  match u with
  | UConstruct self _ => objects w !! self = None
  | UConstructWithHandle self _ _ _ _ io =>
      objects w !! self = None /\ forall c, imported io = Some c -> c ∉ clones w
  | UConstructAllocated self _ io =>
      objects w !! self = None /\ forall b, allocated_buffer io = Some b -> b ∉ hw_buffers w
  | UDestroy self | UInitCheck self => is_Some (objects w !! self)
  | ULockYCbCr _ _ _ _ | UUnlock _ _ => True
  end.

Fixpoint use_run (us : list use) (w : world) : ub world :=
  match us with
  | [] => Ret w
  | u :: us => w ← use_step u w; use_run us w
  end.

Fixpoint uses_ok (us : list use) (w : world) : Prop :=
  match us with
  | [] => True
  | u :: us => use_ok u w /\ forall w', use_step u w = Ret w' -> uses_ok us w'
  end.

(** ** Ownership *)

(** The clone an object has to free. *)
Definition owned_clone (o : GraphicBufferV34) : option Z :=
  match mOwner o with kOwnHandle => handle o | _ => None end.

Record owns (w : world) : Prop := {
  own_clones : forall c, c ∈ clones w <->
    exists self o, objects w !! self = Some o /\ owned_clone o = Some c;
  own_clone_inj : forall s1 s2 o1 o2 c, objects w !! s1 = Some o1 -> objects w !! s2 = Some o2 ->
    owned_clone o1 = Some c -> owned_clone o2 = Some c -> s1 = s2;
  own_mapper : forall self o, objects w !! self = Some o -> mOwner o = kOwnHandle -> mBufferMapper o = true;
  own_hw : forall b, b ∈ hw_buffers w <-> exists self, gHardwareBuffers w !! self = Some b;
  own_hw_inj : forall s1 s2 b, gHardwareBuffers w !! s1 = Some b -> gHardwareBuffers w !! s2 = Some b -> s1 = s2;
  own_hw_live : forall self b, gHardwareBuffers w !! self = Some b -> is_Some (objects w !! self);
}.

Lemma owns_init : owns world_init.
Proof.
  split; cbn; intros; try (rewrite lookup_empty in *; discriminate).
  - split; [set_solver | intros (? & ? & Hx & _); now rewrite lookup_empty in Hx].
  - split; [set_solver | intros (? & Hx); now rewrite lookup_empty in Hx].
Qed.

(** Only objects, the map, clones and buffers count. *)
Lemma owns_same w w' :
  objects w' = objects w -> gHardwareBuffers w' = gHardwareBuffers w -> clones w' = clones w ->
  hw_buffers w' = hw_buffers w -> owns w -> owns w'.
Proof. intros E1 E2 E3 E4 [? ? ? ? ? ?]. split; rewrite ?E1, ?E2, ?E3, ?E4; assumption. Qed.

(** A new object that owns no clone. *)
Lemma owns_put self o w :
  objects w !! self = None -> mOwner o <> kOwnHandle -> owns w -> owns (put self o w).
Proof.
  intros Hs Ho [A B C D E F]. assert (owned_clone o = None) as Hn
    by (unfold owned_clone; destruct (mOwner o); congruence).
  assert (forall s x c, <[self := o]> (objects w) !! s = Some x -> owned_clone x = Some c ->
    objects w !! s = Some x) as Hold.
  { intros s x c Hx Hc. destruct (decide (self = s)) as [->|Hne]; [|now rewrite lookup_insert_ne in Hx].
    rewrite lookup_insert_eq in Hx. congruence. }
  split; cbn.
  - intros c. rewrite A. split; intros (s & x & Hx & Hc).
    + exists s, x. split; [|exact Hc]. rewrite lookup_insert_ne; [exact Hx|]. intros ->. congruence.
    + exists s, x. split; [|exact Hc]. eauto.
  - intros s1 s2 o1 o2 c H1 H2 H3 H4. eapply B; eauto.
  - intros s x Hx Hm. destruct (decide (self = s)) as [->|Hne].
    + rewrite lookup_insert_eq in Hx. congruence.
    + rewrite lookup_insert_ne in Hx by assumption. eauto.
  - exact D.
  - exact E.
  - intros s b Hb. destruct (decide (self = s)) as [->|Hne]; [rewrite lookup_insert_eq; eauto|].
    rewrite lookup_insert_ne by assumption. eauto.
Qed.

(** A new object with a fresh clone. *)
Lemma owns_put_clone self o c w :
  objects w !! self = None -> owned_clone o = Some c -> mBufferMapper o = true -> c ∉ clones w ->
  owns w -> owns (put self o (with_clones w ({[c]} ∪ clones w))).
Proof.
  intros Hs Ho Hm Hc [A B C D E F].
  assert (forall s x, objects w !! s = Some x -> owned_clone x <> Some c) as Hfresh.
  { intros s x Hx Hxc. apply Hc, A. eauto. }
  assert (forall s x, <[self := o]> (objects w) !! s = Some x -> s = self /\ x = o \/
    s <> self /\ objects w !! s = Some x) as Hold.
  { intros s x Hx. destruct (decide (s = self)) as [->|Hne].
    - rewrite lookup_insert_eq in Hx. left. split; congruence.
    - rewrite lookup_insert_ne in Hx by congruence. auto. }
  split; cbn.
  - intros d. rewrite elem_of_union, elem_of_singleton, A. split.
    + intros [->|(s & x & Hx & Hd)].
      * exists self, o. now rewrite lookup_insert_eq.
      * exists s, x. rewrite lookup_insert_ne by (intros ->; congruence). auto.
    + intros (s & x & Hx & Hd). apply Hold in Hx as [[-> ->]|[_ Hx]]; [left; congruence | eauto].
  - intros s1 s2 o1 o2 d H1 H2 H3 H4.
    apply Hold in H1 as [[-> ->]|[_ H1]], H2 as [[-> ->]|[_ H2]]; try reflexivity.
    + exfalso. apply (Hfresh _ _ H2). congruence.
    + exfalso. apply (Hfresh _ _ H1). congruence.
    + eauto.
  - intros s x Hx Hk. apply Hold in Hx as [[-> ->]|[_ Hx]]; eauto.
  - exact D.
  - exact E.
  - intros s b Hb. destruct (decide (self = s)) as [->|Hne]; [rewrite lookup_insert_eq; eauto|].
    rewrite lookup_insert_ne by assumption. eauto.
Qed.

(** A new hardware buffer behind an object that is about to be put. *)
Lemma owns_new_hw self o b w :
  objects w !! self = None -> mOwner o <> kOwnHandle -> b ∉ hw_buffers w -> owns w ->
  owns (put self o (with_hw w (<[self := b]> (gHardwareBuffers w)) ({[b]} ∪ hw_buffers w))).
Proof.
  intros Hs Ho Hb Hw. pose proof (owns_put self o w Hs Ho Hw) as [A B C _ _ _].
  destruct Hw as [_ _ _ D E F].
  assert (gHardwareBuffers w !! self = None) as Hn.
  { destruct (gHardwareBuffers w !! self) eqn:Eg; [|reflexivity]. apply F in Eg as [? Eg]. congruence. }
  assert (forall s d, <[self := b]> (gHardwareBuffers w) !! s = Some d ->
    s = self /\ d = b \/ s <> self /\ gHardwareBuffers w !! s = Some d) as Hold.
  { intros s d Hd. destruct (decide (s = self)) as [->|Hne].
    - rewrite lookup_insert_eq in Hd. left. split; congruence.
    - rewrite lookup_insert_ne in Hd by congruence. auto. }
  assert (forall s, gHardwareBuffers w !! s <> Some b) as Hfresh.
  { intros s Hs'. apply Hb, D. eauto. }
  split; cbn; [exact A | exact B | exact C | | |].
  - intros d. rewrite elem_of_union, elem_of_singleton, D. split.
    + intros [->|(s & Hd)]; [exists self; apply lookup_insert_eq|].
      exists s. rewrite lookup_insert_ne; [exact Hd|]. intros ->. congruence.
    + intros (s & Hd). apply Hold in Hd as [[-> ->]|[_ Hd]]; eauto.
  - intros s1 s2 d H1 H2. apply Hold in H1 as [[-> Hd]|[_ H1]], H2 as [[-> Hd']|[_ H2]]; subst;
      try reflexivity; [now apply Hfresh in H2 | now apply Hfresh in H1 | eauto].
  - intros s d Hd. destruct (decide (self = s)) as [->|Hne]; [rewrite lookup_insert_eq; eauto|].
    rewrite lookup_insert_ne in Hd by assumption. rewrite lookup_insert_ne by assumption. eauto.
Qed.

(** Removing an object and the clone it owns. *)
Lemma owns_remove self o w :
  objects w !! self = Some o -> gHardwareBuffers w !! self = None -> owns w ->
  owns (with_objects (with_clones w
    (match owned_clone o with Some c => clones w ∖ {[c]} | None => clones w end))
    (delete self (objects w))).
Proof.
  intros Hs Hg [A B C D E F].
  assert (forall s x, delete self (objects w) !! s = Some x <-> s <> self /\ objects w !! s = Some x) as Hdel.
  { intros s x. rewrite lookup_delete_Some. split; intros [? ?]; split; auto. }
  split; cbn.
  - intros d. assert (d ∈ (match owned_clone o with Some c => clones w ∖ {[c]} | None => clones w end) <->
      d ∈ clones w /\ owned_clone o <> Some d) as ->.
    { destruct (owned_clone o) as [c|]; [|set_solver].
      rewrite elem_of_difference, elem_of_singleton. split; intros [? Hd]; (split; [assumption|]); congruence. }
    rewrite A. split.
    + intros [(s & x & Hx & Hd) Hne]. exists s, x. rewrite Hdel. split; [|exact Hd].
      split; [|exact Hx]. intros ->. congruence.
    + intros (s & x & Hx & Hd). apply Hdel in Hx as [Hne Hx]. split; [eauto|].
      intros Ho. apply Hne. eauto.
  - intros s1 s2 o1 o2 d H1 H2. apply Hdel in H1 as [_ H1], H2 as [_ H2]. eauto.
  - intros s x Hx. apply Hdel in Hx as [_ Hx]. eauto.
  - exact D.
  - exact E.
  - intros s b Hb. destruct (F s b Hb) as [x Hx]. exists x. apply Hdel.
    split; [intros ->; congruence | exact Hx].
Qed.

(** Releasing the hardware buffer of an object. *)
Lemma owns_release self b w :
  gHardwareBuffers w !! self = Some b -> owns w ->
  owns (with_hw w (delete self (gHardwareBuffers w)) (hw_buffers w ∖ {[b]})).
Proof.
  intros Hs [A B C D E F]. split; cbn; [exact A | exact B | exact C | | |].
  - intros d. rewrite elem_of_difference, elem_of_singleton, D. split.
    + intros [(s & Hd) Hne]. exists s. rewrite lookup_delete_ne; [exact Hd|]. intros ->. congruence.
    + intros (s & Hd). apply lookup_delete_Some in Hd as [Hne Hd]. split; [eauto|].
      intros ->. apply Hne. eauto.
  - intros s1 s2 d H1 H2. apply lookup_delete_Some in H1 as [_ H1], H2 as [_ H2]. eauto.
  - intros s d Hd. apply lookup_delete_Some in Hd as [_ Hd]. eauto.
Qed.

Lemma destroy_owns self w :
  is_Some (objects w !! self) -> owns w -> exists w', destroy self w = Ret w' /\ owns w'.
Proof.
  intros [o Hs] Hw. unfold destroy. rewrite Hs.
  set (freed := match owned_clone o with Some c => clones w ∖ {[c]} | None => clones w end).
  assert (match handle o with
          | Some c =>
              if bool_decide (mOwner o = kOwnHandle) && mBufferMapper o then
                if bool_decide (c ∈ clones w) then Ret (with_clones w (clones w ∖ {[c]})) else Undef
              else Ret w
          | None => Ret w
          end = Ret (with_clones w freed)) as ->.
  { subst freed. unfold owned_clone.
    destruct (mOwner o) eqn:Em, (handle o) as [c|] eqn:Eh; cbn; try (now destruct w).
    rewrite (own_mapper w Hw self o Hs Em). rewrite bool_decide_true by reflexivity.
    cbn [andb]. rewrite bool_decide_true; [reflexivity|].
    apply (own_clones w Hw). exists self, o. split; [exact Hs|]. unfold owned_clone. now rewrite Em. }
  cbn [mbind ub_bind]. cbn [with_clones with_objects gHardwareBuffers].
  destruct (gHardwareBuffers w !! self) as [b|] eqn:Eg.
  - pose proof (owns_release self b w Eg Hw) as Hr.
    pose proof (owns_remove self o
      (with_hw w (delete self (gHardwareBuffers w)) (hw_buffers w ∖ {[b]}))
      Hs (lookup_delete_eq _ _) Hr) as Hd.
    unfold hw_release. cbn [with_hw hw_buffers with_objects with_clones].
    rewrite bool_decide_true by (apply (own_hw w Hw); eauto).
    eexists. split; [reflexivity|]. eapply owns_same; [.. | exact Hd]; reflexivity.
  - eexists. split; [reflexivity|]. exact (owns_remove self o w Hs Eg Hw).
Qed.

Lemma new_buffer_spec usable m w o w' :
  new_buffer usable m w = (o, w') ->
  handle o = None /\ mOwner o = kOwnData /\ mBufferMapper o = m /\
  mInitCheck o = (if usable then NO_ERROR else NO_INIT) /\ w' = with_id w (u32 (next_id w + 1)).
Proof. cbn. intros [= <- <-]. auto. Qed.

Lemma surfaceOutputAllowed_spec property w ok w' :
  surfaceOutputAllowed property w = (ok, w') ->
  objects w' = objects w /\ gHardwareBuffers w' = gHardwareBuffers w /\ clones w' = clones w /\
  hw_buffers w' = hw_buffers w /\ allowed w' = Some ok /\
  (allowed w = Some ok \/ allowed w = None /\ ok = bool_decide (property = "1")).
Proof.
  unfold surfaceOutputAllowed. destruct (allowed w) eqn:E; intros [= <- <-]; auto 10.
Qed.

Lemma importClone_owns self a io o w err o' w' :
  objects w !! self = None -> owns w -> (forall c, imported io = Some c -> c ∉ clones w) ->
  mOwner o = kOwnData -> mBufferMapper o = true ->
  importClone a io o w = Ret (err, o', w') ->
  forall o1, (forall c, owned_clone o' = c -> owned_clone o1 = c) -> mOwner o1 = mOwner o' ->
    mBufferMapper o1 = mBufferMapper o' -> owns (put self o1 w').
Proof.
  intros Hs Hw Hfresh Ho Hm E o1 Hc Ho1 Hm1. unfold importClone in E. rewrite Hm in E. cbn [negb] in E.
  destruct (import_err io =? NO_ERROR) eqn:Ee; cbn [negb] in E.
  - destruct (imported io) as [c|] eqn:Ei; injection E as <- <- <-.
    + apply owns_put_clone; auto.
    + apply owns_put; auto. congruence.
  - assert (w' = w /\ o' = o) as [-> ->] by (destruct (imported io); injection E as <- <- <-; auto).
    apply owns_put; auto. congruence.
Qed.

Lemma allocate_owns self a io o w :
  objects w !! self = None -> owns w -> (forall b, allocated_buffer io = Some b -> b ∉ hw_buffers w) ->
  mOwner o = kOwnData ->
  exists err o' w', allocate self a io o w = Ret (err, o', w') /\
    forall o1, mOwner o1 = mOwner o' -> owns (put self o1 w').
Proof.
  intros Hs Hw Hfresh Ho. unfold allocate.
  destruct (allocate_err io =? 0) eqn:Ee; cbn [negb].
  2: { do 3 eexists. split; [reflexivity|]. intros o1 Ho1. apply owns_put; auto; congruence. }
  destruct (allocated_buffer io) as [b|] eqn:Eb.
  2: { do 3 eexists. split; [reflexivity|]. intros o1 Ho1. apply owns_put; auto; congruence. }
  specialize (Hfresh b eq_refl).
  destruct (native_handle io) as [h|].
  - do 3 eexists. split; [reflexivity|]. intros o1 Ho1. cbn in Ho1.
    apply (owns_same (put self o1 (with_hw w (<[self := b]> (gHardwareBuffers w)) ({[b]} ∪ hw_buffers w))));
      try reflexivity. apply owns_new_hw; auto. congruence.
  - unfold hw_release. cbn [with_hw hw_buffers]. rewrite bool_decide_true by set_solver.
    cbn [mbind ub_bind]. do 3 eexists. split; [reflexivity|]. intros o1 Ho1.
    apply (owns_same (put self o1 w)); try reflexivity; [cbn; set_solver|].
    apply owns_put; auto; congruence.
Qed.

Lemma hw_lock_owns b d w : b ∈ hw_buffers w -> owns w ->
  exists w', hw_lock b d w = Ret w' /\ owns w' /\ hw_buffers w' = hw_buffers w.
Proof.
  intros Hb Hw. unfold hw_lock. rewrite bool_decide_true by exact Hb.
  eexists. split; [reflexivity|]. split; [now apply (owns_same w) | reflexivity].
Qed.

Lemma lock_owns self null err planes w :
  owns w -> exists st r w', lockYCbCr self null err planes w = Ret (st, r, w') /\ owns w'.
Proof.
  intros Hw. unfold lockYCbCr, hardwareBufferOf.
  destruct (gHardwareBuffers w !! self) as [b|] eqn:Eg; [|eauto].
  assert (b ∈ hw_buffers w) as Hb by (apply (own_hw w Hw); eauto).
  destruct null; [eauto|]. rewrite bool_decide_true by exact Hb. cbn [negb].
  destruct (err =? 0); cbn [negb]; [|eauto].
  destruct (hw_lock_owns b 1 w Hb Hw) as (w1 & -> & Hw1 & E1). cbn [mbind ub_bind].
  rewrite <- E1 in Hb. destruct (hw_lock_owns b (-1) w1 Hb Hw1) as (w2 & E2 & Hw2 & _).
  destruct planes as [|y [|cb [|cr [|]]]]; rewrite ?E2; cbn [mbind ub_bind]; eauto.
Qed.

Lemma unlock_owns self err w :
  owns w -> exists st w', unlock self err w = Ret (st, w') /\ owns w'.
Proof.
  intros Hw. unfold unlock, hardwareBufferOf.
  destruct (gHardwareBuffers w !! self) as [b|] eqn:Eg; [|eauto].
  assert (b ∈ hw_buffers w) as Hb by (apply (own_hw w Hw); eauto).
  rewrite bool_decide_true by exact Hb. cbn [negb]. destruct (err =? 0); cbn [negb]; [|eauto].
  destruct (hw_lock_owns b (-1) w Hb Hw) as (w1 & -> & Hw1 & _). cbn. eauto.
Qed.

Lemma put_new_owns usable m self w o w' :
  new_buffer usable m w = (o, w') -> objects w !! self = None -> owns w -> owns (put self o w').
Proof.
  intros En Hs Hw. apply new_buffer_spec in En as (_ & Eo & _ & _ & ->).
  apply owns_put; [exact Hs | congruence | now apply (owns_same w)].
Qed.

Lemma refuse_owns self w : objects w !! self = None -> owns w -> owns (refuse self w).
Proof.
  intros Hs Hw. unfold refuse. destruct (new_buffer false true w) as [o w'] eqn:En.
  eapply put_new_owns; eauto.
Qed.

Lemma use_step_owns u w : use_ok u w -> owns w -> exists w', use_step u w = Ret w' /\ owns w'.
Proof.
  intros Hu Hw. destruct u as [self pr|self pr h method a io|self a io|self|self null err planes|self err|self];
    cbn [use_step use_ok] in *.
  - unfold Construct. destruct (surfaceOutputAllowed pr w) as [ok w1] eqn:Es.
    apply surfaceOutputAllowed_spec in Es as (E1 & E2 & E3 & E4 & _).
    assert (owns w1) as Hw1 by now apply (owns_same w). eexists; split; [reflexivity|].
    rewrite <- E1 in Hu. destruct ok; cbn [negb]; [|now apply refuse_owns].
    destruct (new_buffer true true w1) as [o w2] eqn:En. eapply put_new_owns; eauto.
  - destruct Hu as [Hs Hfresh]. unfold ConstructWithHandle.
    destruct (surfaceOutputAllowed pr w) as [ok w1] eqn:Es.
    apply surfaceOutputAllowed_spec in Es as (E1 & E2 & E3 & E4 & _).
    destruct ok; cbn [negb].
    2: { eexists; split; [reflexivity|]. apply refuse_owns; [congruence | now apply (owns_same w)]. }
    destruct (new_buffer true true w1) as [o w2] eqn:En.
    apply new_buffer_spec in En as (Eh & Eo & Em & _ & E5).
    assert (owns w2) as Hw2 by (subst w2; now apply (owns_same w)).
    assert (objects w2 !! self = None) as Hs2 by (subst w2; cbn; congruence).
    destruct ((method =? kCloneHandle) && _).
    2: { eexists; split; [reflexivity|]. apply owns_put; cbn; congruence || assumption. }
    destruct (importClone a io o w2) as [|[[err o'] w3]] eqn:Ei.
    { exfalso. unfold importClone in Ei. rewrite Em in Ei. cbn in Ei. repeat case_hyp Ei; discriminate. }
    eexists; split; [reflexivity|].
    eapply (importClone_owns self a io o w2 err o' w3); eauto.
    intros c Hc. subst w2. cbn. rewrite E3. auto.
  - destruct Hu as [Hs Hfresh]. unfold ConstructAllocated.
    destruct (new_buffer true false w) as [o w2] eqn:En.
    apply new_buffer_spec in En as (Eh & Eo & Em & _ & ->).
    destruct (allocate_owns self a io o (with_id w (u32 (next_id w + 1)))) as (err & o' & w' & -> & Hput);
      auto; [now apply (owns_same w)|]. cbn. eauto.
  - now apply destroy_owns.
  - destruct (lock_owns self null err planes w Hw) as (st & r & w' & -> & Hw'). cbn. eauto.
  - destruct (unlock_owns self err w Hw) as (st & w' & -> & Hw'). cbn. eauto.
  - destruct Hu as [o Ho]. unfold initCheck. rewrite Ho. cbn. eauto.
Qed.

Lemma use_run_owns us w : uses_ok us w -> owns w -> exists w', use_run us w = Ret w' /\ owns w'.
Proof.
  revert w. induction us as [|u us IH]; intros w Hok Hw; cbn [use_run]; [eauto|].
  destruct Hok as [Hu Hus]. destruct (use_step_owns u w Hu Hw) as (w1 & E & Hw1).
  rewrite E. cbn. auto.
Qed.

(** ** Failing closed *)

(** The property a use would read. *)
Definition property_of (u : use) : option string :=
  match u with UConstruct _ p | UConstructWithHandle _ p _ _ _ _ => Some p | _ => None end.

(** Nothing was imported, and the objects of the codec library hold no buffer. *)
Definition refuses (w : world) : Prop :=
  allowed w <> Some true /\ clones w = ∅ /\
  forall self o, objects w !! self = Some o -> mBufferMapper o = true ->
    handle o = None /\ mInitCheck o = NO_INIT.

Lemma refuses_put self o w :
  (mBufferMapper o = true -> handle o = None /\ mInitCheck o = NO_INIT) -> refuses w ->
  refuses (put self o w).
Proof.
  intros Ho (Ha & Hc & Hx). split; [exact Ha|]. split; [exact Hc|]. intros s x. cbn.
  intros Hs. destruct (decide (self = s)) as [->|Hne].
  - rewrite lookup_insert_eq in Hs. injection Hs as <-. exact Ho.
  - rewrite lookup_insert_ne in Hs by assumption. eauto.
Qed.

Lemma refuses_same w w' :
  objects w' = objects w -> allowed w' = allowed w -> clones w' = clones w -> refuses w -> refuses w'.
Proof. unfold refuses. now intros -> -> ->. Qed.

Lemma refuses_allowed pr w ok w' :
  pr <> "1" -> refuses w -> surfaceOutputAllowed pr w = (ok, w') -> ok = false /\ refuses w'.
Proof.
  intros Hp (Ha & Hc & Hx) E. apply surfaceOutputAllowed_spec in E as (E1 & _ & E3 & _ & E5 & Hok).
  assert (ok = false) as ->.
  { destruct Hok as [Hok|[_ ->]]; [|now apply bool_decide_false].
    destruct ok; [now destruct Ha | reflexivity]. }
  split; [reflexivity|]. split; [now rewrite E5|]. rewrite E1, E3. auto.
Qed.

Lemma refuse_refuses self w : refuses w -> refuses (refuse self w).
Proof.
  intros Hw. unfold refuse. destruct (new_buffer false true w) as [o w'] eqn:En.
  apply new_buffer_spec in En as (Eh & _ & _ & Ei & ->).
  apply refuses_put; [auto|]. now apply (refuses_same w).
Qed.

(** Hardware buffers and locks do not matter. *)
Lemma refuses_hw w m b : refuses w -> refuses (with_hw w m b).
Proof. now apply refuses_same. Qed.

Lemma hw_lock_refuses b d w w' : hw_lock b d w = Ret w' -> refuses w -> refuses w'.
Proof. unfold hw_lock. case_goal; intros [= <-]. now apply refuses_same. Qed.

Lemma destroy_refuses self w w' : refuses w -> destroy self w = Ret w' -> refuses w'.
Proof.
  intros (Ha & Hc & Hx). unfold destroy. destruct (objects w !! self) as [o|] eqn:Eo; [|discriminate].
  assert (forall w1, objects w1 = objects w -> allowed w1 = allowed w -> clones w1 = clones w ->
    refuses (with_objects w1 (delete self (objects w1)))) as Hdel.
  { intros w1 E1 E2 E3. split; [cbn; congruence|]. split; [cbn; congruence|].
    cbn. intros s x Hs. apply lookup_delete_Some in Hs as [_ Hs]. rewrite E1 in Hs. eauto. }
  destruct (match handle o with Some c => _ | None => _ end) as [|w1] eqn:Em; [discriminate|].
  assert (w1 = w) as ->.
  { destruct (handle o) as [c|] eqn:Eh; [|now injection Em].
    destruct (bool_decide _ && mBufferMapper o) eqn:Eb; [|now injection Em].
    apply andb_true_iff in Eb as [_ Eb]. destruct (Hx _ _ Eo Eb). congruence. }
  cbn [mbind ub_bind].
  destruct (gHardwareBuffers (with_objects w _) !! self) as [b|].
  - unfold hw_release. case_goal; intros [= <-]. apply refuses_hw, refuses_hw. now apply Hdel.
  - intros [= <-]. now apply Hdel.
Qed.

Lemma allocated_refuses self a io w w' :
  refuses w -> ConstructAllocated self a io w = Ret w' -> refuses w'.
Proof.
  intros Hw. unfold ConstructAllocated. destruct (new_buffer true false w) as [o w1] eqn:En.
  apply new_buffer_spec in En as (_ & _ & Em & _ & ->).
  set (w1 := with_id _ _). assert (refuses w1) as Hw1 by now apply (refuses_same w). clearbody w1.
  unfold allocate. destruct (if allocate_err io =? 0 then _ else _) as [b|]; cbn [mbind ub_bind].
  2: { intros [= <-]. apply refuses_put; [cbn; congruence | exact Hw1]. }
  destruct (native_handle io); cbn [mbind ub_bind].
  - intros [= <-]. apply refuses_put; [cbn; congruence|]. now do 2 apply refuses_hw.
  - unfold hw_release. case_goal; [|discriminate]. cbn [mbind ub_bind]. intros [= <-].
    apply refuses_put; [cbn; congruence|]. now do 2 apply refuses_hw.
Qed.

Lemma use_step_refuses u w w' :
  property_of u <> Some "1" -> refuses w -> use_step u w = Ret w' -> refuses w'.
Proof.
  intros Hp Hw. destruct u as [self pr|self pr h method a io|self a io|self|self null err planes|self err|self];
    cbn [use_step property_of] in *.
  - unfold Construct. destruct (surfaceOutputAllowed pr w) as [ok w1] eqn:Es.
    apply refuses_allowed in Es as [-> Hw1]; [|congruence | exact Hw].
    intros [= <-]. now apply refuse_refuses.
  - unfold ConstructWithHandle. destruct (surfaceOutputAllowed pr w) as [ok w1] eqn:Es.
    apply refuses_allowed in Es as [-> Hw1]; [|congruence | exact Hw].
    intros [= <-]. now apply refuse_refuses.
  - now apply allocated_refuses.
  - now apply destroy_refuses.
  - unfold lockYCbCr. destruct (hardwareBufferOf self w) as [b|]; [|now intros [= <-]].
    destruct null; [now intros [= <-]|]. destruct (negb (bool_decide _)); [discriminate|].
    destruct (negb (err =? 0)); [now intros [= <-]|].
    destruct (hw_lock b 1 w) as [|w1] eqn:E1; [discriminate|]. cbn [mbind ub_bind].
    pose proof (hw_lock_refuses _ _ _ _ E1 Hw) as Hw1.
    destruct planes as [|y [|cb [|cr [|]]]]; cbn [mbind ub_bind];
      try (destruct (hw_lock b (-1) w1) as [|w2] eqn:E2; [discriminate|]);
      cbn [mbind ub_bind]; intros [= <-]; eauto using hw_lock_refuses.
  - unfold unlock. destruct (hardwareBufferOf self w) as [b|]; [|now intros [= <-]].
    destruct (negb (bool_decide _)); [discriminate|]. destruct (negb (err =? 0)); [now intros [= <-]|].
    destruct (hw_lock b (-1) w) as [|w1] eqn:E1; [discriminate|]. cbn [mbind ub_bind].
    intros [= <-]. eauto using hw_lock_refuses.
  - destruct (initCheck self w); [discriminate|]. now intros [= <-].
Qed.

Lemma use_run_refuses us w w' :
  Forall (fun u => property_of u <> Some "1") us -> refuses w -> use_run us w = Ret w' -> refuses w'.
Proof.
  intros Hus. revert w. induction Hus as [|u us Hu Hus IH]; intros w Hw; cbn [use_run].
  - now intros [= <-].
  - destruct (use_step u w) as [|w1] eqn:E; [discriminate|]. cbn.
    apply IH. eapply use_step_refuses; eauto.
Qed.
End Uses.

(** ** Properties *)

(** C3. For every sequence of uses of the library in which objects are constructed in free
    memory and destroyed once, and the buffer libraries give out fresh handles:
    nothing is freed or released twice, nothing is used after it was released
    (locking and unlocking included, which take any pointer), the clones and
    hardware buffers given out are exactly those of the objects alive, and when no object is
    left everything was given back. *)
Theorem buffers_freed_once `{Platform34} (us : list use) :
  uses_ok us world_init ->
  exists w, use_run us world_init = Ret w /\
    (forall c, c ∈ clones w <-> exists self o, objects w !! self = Some o /\
       mOwner o = kOwnHandle /\ handle o = Some c) /\
    (forall b, b ∈ hw_buffers w <-> exists self, is_Some (objects w !! self) /\
       hardwareBufferOf self w = Some b) /\
    (objects w = ∅ -> clones w = ∅ /\ hw_buffers w = ∅ /\ gHardwareBuffers w = ∅).
Proof.
  intros Hok. destruct (use_run_owns us world_init Hok owns_init) as (w & E & [A B C D F G]).
  exists w. split; [exact E|]. split; [|split].
  - intros c. rewrite A. unfold owned_clone. split.
    + intros (s & o & Hs & Ho). exists s, o. destruct (mOwner o); try discriminate. auto.
    + intros (s & o & Hs & Hm & Ho). exists s, o. rewrite Hm. auto.
  - intros b. rewrite D. unfold hardwareBufferOf. split; [|intros (s & _ & Hs); eauto].
    intros (s & Hs). exists s. eauto.
  - intros He. assert (gHardwareBuffers w = ∅) as Hg.
    { apply map_empty. intros s. destruct (gHardwareBuffers w !! s) eqn:Es; [|reflexivity].
      apply G in Es as [o Ho]. rewrite He, lookup_empty in Ho. discriminate. }
    split; [|split; [|exact Hg]]; apply set_eq; intros x.
    + rewrite A. split; [intros (s & o & Hs & _); now rewrite He, lookup_empty in Hs | set_solver].
    + rewrite D. split; [intros (s & Hs); now rewrite Hg, lookup_empty in Hs | set_solver].
Qed.

(** C32. While the boot offers no hardware decoder, the codec library gets no buffer: whatever
    it calls, no clone is ever imported, and every object it constructs holds no
    buffer and reports [NO_INIT]; the camera's allocated buffers are not affected. *)
Theorem codec_buffers_fail_closed `{Platform34} (us : list use) (w : world) (self : Z)
    (o : GraphicBufferV34) :
  Forall (fun u => property_of u <> Some "1") us -> use_run us world_init = Ret w ->
  objects w !! self = Some o -> mBufferMapper o = true ->
  clones w = ∅ /\ handle o = None /\ mInitCheck o = NO_INIT.
Proof.
  intros Hus Hrun Ho Hm.
  assert (refuses world_init) as H0.
  { split; [discriminate|]. split; [reflexivity|]. cbn. intros s x Hx. now rewrite lookup_empty in Hx. }
  destruct (use_run_refuses us _ _ Hus H0 Hrun) as (_ & Hc & Hx). destruct (Hx _ _ Ho Hm). auto.
Qed.

(** A buffer is left locked, once more than before, exactly when [lockYCbCr] returns the
    planes; every failure leaves it as it was. *)
Lemma lockYCbCr_balanced `{Platform34} self null err planes w st r w' b :
  hardwareBufferOf self w = Some b -> lockYCbCr self null err planes w = Ret (st, r, w') ->
  default 0 (locks w' !! b) = default 0 (locks w !! b) + (if r is Some _ then 1 else 0) /\
  (forall c, c <> b -> locks w' !! c = locks w !! c).
Proof.
  intros Hb. unfold lockYCbCr. rewrite Hb. destruct null; [intros [= <- <- <-]; auto with lia|].
  destruct (negb (bool_decide _)) eqn:E0; [discriminate|].
  destruct (negb (err =? 0)); [intros [= <- <- <-]; auto with lia|].
  boolprop. unfold hw_lock. rewrite bool_decide_true by assumption. cbn [mbind ub_bind].
  destruct planes as [|y [|cb [|cr [|]]]]; cbn [with_locks locks hw_buffers];
    rewrite ?bool_decide_true by assumption; cbn [mbind ub_bind]; intros [= <- <- <-];
    cbn [with_locks locks]; (split; [|intros c Hc]);
    rewrite ?lookup_insert_eq, ?lookup_insert_ne by congruence; cbn [default option_map];
    rewrite ?lookup_insert_eq; cbn; lia || reflexivity.
Qed.

(** ** A concrete use *)

#[local] Instance ref_platform34 : Platform34 :=
  {| NO_INIT := -19; BAD_VALUE := -22; CPU_READ_MASK := 15; CPU_WRITE_MASK := 240; getpid := 1000 |}.

Definition ref_args : buffer_args :=
  {| inWidth := 1920; inHeight := 1080; inFormat := 35; inLayerCount := 1; inUsage := 51; inStride := 1920 |}.
Definition ref_import : import_io :=
  {| import_err := 0; imported := Some 50; transport_fds := 2; transport_ints := 20 |}.
Definition ref_allocate : allocate_io :=
  {| allocate_err := 0; allocated_buffer := Some 60; native_handle := Some 61;
     actual_width := 1920; actual_height := 1080; actual_stride := 2048 |}.
Definition ref_planes : list plane := replicate 3 {| p_data := 4096; rowStride := 2048; pixelStride := 2 |}.

(** A codec buffer and a camera buffer, from construction to destruction. *)
Definition ref_uses : list use :=
  [UConstructWithHandle 100 "1" (Some 7) 3 ref_args ref_import; UConstructAllocated 200 ref_args ref_allocate;
   ULockYCbCr 200 false 0 ref_planes; UUnlock 200 0; UInitCheck 100; UDestroy 100; UDestroy 200].

Definition use_okb (u : use) (w : world) : bool :=
  match u with
  | UConstruct self _ => bool_decide (objects w !! self = None)
  | UConstructWithHandle self _ _ _ _ io =>
      match objects w !! self with
      | None => match imported io with Some c => bool_decide (c ∉ clones w) | None => true end
      | Some _ => false
      end
  | UConstructAllocated self _ io =>
      match objects w !! self with
      | None => match allocated_buffer io with Some b => bool_decide (b ∉ hw_buffers w) | None => true end
      | Some _ => false
      end
  | UDestroy self | UInitCheck self => match objects w !! self with Some _ => true | None => false end
  | ULockYCbCr _ _ _ _ | UUnlock _ _ => true
  end.
Fixpoint uses_okb (us : list use) (w : world) : bool :=
  match us with
  | [] => true
  | u :: us => use_okb u w && match use_step u w with Ret w' => uses_okb us w' | Undef => false end
  end.

Lemma uses_okb_ok us w : uses_okb us w = true -> uses_ok us w.
Proof.
  revert w. induction us as [|u us IH]; intros w Hb; cbn in *; [exact I|]. boolprop.
  split; [|intros w' E; rewrite E in H0; auto].
  destruct u as [self pr|self pr h method a io|self a io|self|self null err planes|self err|self]; cbn in *; auto.
  - now boolprop.
  - destruct (objects w !! self); [discriminate|]. split; [reflexivity|]. intros c Ec. rewrite Ec in H.
    now boolprop.
  - destruct (objects w !! self); [discriminate|]. split; [reflexivity|]. intros c Ec. rewrite Ec in H.
    now boolprop.
  - destruct (objects w !! self); [eauto | discriminate].
  - destruct (objects w !! self); [eauto | discriminate].
Qed.

Lemma buffers_freed_once_witness :
  exists w, use_run ref_uses world_init = Ret w /\ clones w = ∅ /\ hw_buffers w = ∅.
Proof.
  destruct (buffers_freed_once ref_uses) as (w & E & _ & _ & Hend).
  - apply uses_okb_ok. vm_compute. reflexivity.
  - exists w. split; [exact E|]. assert (objects w = ∅) as Ho.
    { assert (match use_run ref_uses world_init with Ret w => objects w | Undef => {[0 := (new_buffer true true world_init).1]} end = ∅)
        as Hx by (vm_compute; reflexivity). now rewrite E in Hx. }
    destruct (Hend Ho) as (? & ? & _). auto.
Defined.

Lemma codec_buffers_fail_closed_witness :
  exists w o, use_run [UConstructWithHandle 100 "" (Some 7) 3 ref_args ref_import] world_init = Ret w /\
    objects w !! 100 = Some o /\ clones w = ∅ /\ handle o = None /\ mInitCheck o = NO_INIT.
Proof.
  destruct (use_run [UConstructWithHandle 100 "" (Some 7) 3 ref_args ref_import] world_init)
    as [|w] eqn:E; [vm_compute in E; discriminate|].
  destruct (objects w !! 100) as [o|] eqn:Eo.
  - exists w, o. split; [reflexivity|]. split; [exact Eo|].
    apply (codec_buffers_fail_closed [UConstructWithHandle 100 "" (Some 7) 3 ref_args ref_import] w 100 o);
      [repeat constructor; discriminate | exact E | exact Eo |].
    vm_compute in E. injection E as <-. vm_compute in Eo. injection Eo as <-. reflexivity.
  - vm_compute in E. injection E as <-. vm_compute in Eo. discriminate.
Defined.
