(* ===== verification/XmlText.v ===== *)
(** * Text of XML documents

    [compat/tinyxml2-v34/] ([tinyxml2.cpp], [tinyxml2.h]), the tinyxml2 of
    Android 14 with the project's own fix of character references: [StrPair],
    which finds names and text in the document and decodes them in place, the
    functions of [XMLUtil] it uses, and [PrintString], which encodes text.

    The document is the buffer [m : list Z] of bytes and a pointer is an index into
    it; following a pointer out of the buffer is undefined.  [decode] and [pair_text]
    say what a text stands for.  Theorems: a character
    reference is read exactly as its digits say; decoding in place gives the same as
    decoding from a copy, whatever the text; printed text is read back. *)

From S2P Require Import Prelude.

(** ** Memory *)

Definition rd (m : list Z) (p : nat) : ub Z :=
  match m !! p with Some c => Ret c | None => Undef end.
Definition wr (m : list Z) (q : nat) (c : Z) : ub (list Z) :=
  if decide (q < length m)%nat then Ret (<[q := c]> m) else Undef.
(** [memcpy] to [q]. *)
Fixpoint wrs (m : list Z) (q : nat) (cs : list Z) : ub (list Z) :=
  match cs with
  | [] => Ret m
  | c :: cs => m ← wr m q c; wrs m (S q) cs
  end.

(** [strchr(q, c)] for a [c] other than NUL; [l] is the memory from [q] on. *)
Fixpoint strchr_from (l : list Z) (q : nat) (c : Z) : ub (option nat) :=
  match l with
  | [] => Undef
  | x :: l => if x =? c then Ret (Some q) else if x =? 0 then Ret None else strchr_from l (S q) c
  end.
Definition strchr (m : list Z) (q : nat) (c : Z) : ub (option nat) := strchr_from (drop q m) q c.

(** [strncmp(p, pat, strlen(pat)) == 0]; [l] is the memory from [p] on. *)
Fixpoint starts_with (l pat : list Z) : ub bool :=
  match pat, l with
  | [], _ => Ret true
  | _ :: _, [] => Undef
  | c :: pat, x :: l => if x =? c then starts_with l pat else Ret false
  end.
Definition strncmp_eq (m : list Z) (p : nat) (pat : list Z) : ub bool := starts_with (drop p m) pat.

(** The bytes of a literal. *)
Fixpoint bytes (s : string) : list Z :=
  match s with EmptyString => [] | String c t => char_code c :: bytes t end.

Definition LF : Z := 10.
Definition CR : Z := 13.
Definition SINGLE_QUOTE : Z := 39.
Definition DOUBLE_QUOTE : Z := 34.
Definition AMP : Z := 38.
Definition HASH : Z := 35.
Definition SEMICOLON : Z := 59.

(** ** Entities *)

Record Entity := { pattern : list Z; value : Z }.
Definition entities : list Entity :=
  [ {| pattern := bytes "quot"; value := DOUBLE_QUOTE |};
    {| pattern := bytes "amp"; value := AMP |};
    {| pattern := bytes "apos"; value := SINGLE_QUOTE |};
    {| pattern := bytes "lt"; value := 60 |};
    {| pattern := bytes "gt"; value := 62 |} ].

(** ** [XMLUtil] *)

(** [isspace] of the C locale. *)
Definition isspace (c : Z) : bool := (c =? 32) || ((9 <=? c) && (c <=? 13)).
Definition isalpha (c : Z) : bool := ((65 <=? c) && (c <=? 90)) || ((97 <=? c) && (c <=? 122)).
Definition isdigit (c : Z) : bool := (48 <=? c) && (c <=? 57).

Definition IsUTF8Continuation (c : Z) : bool := negb (Z.land c 128 =? 0).
Definition IsWhiteSpace (c : Z) : bool := negb (IsUTF8Continuation c) && isspace c.
Definition IsNameStartChar (ch : Z) : bool :=
  (128 <=? ch) || isalpha ch || (ch =? 58) || (ch =? 95).
Definition IsNameChar (ch : Z) : bool :=
  IsNameStartChar ch || isdigit ch || (ch =? 46) || (ch =? 45).

(** [SkipWhiteSpace]; [line] is the counter of lines, [None] for a null pointer. *)
Fixpoint skip_space (l : list Z) (p : nat) (line : option Z) : ub (nat * option Z) :=
  match l with
  | [] => Undef
  | c :: l =>
      if IsWhiteSpace c then
        line ← match line with
               | Some n => if c =? LF then n ← chk32 (n + 1); Ret (Some n) else Ret line
               | None => Ret None
               end;
        skip_space l (S p) line
      else Ret (p, line)
  end.
Definition SkipWhiteSpace (m : list Z) (p : nat) (line : option Z) : ub (nat * option Z) :=
  skip_space (drop p m) p line.

(** [ReadBOM]: the pointer after the mark, and whether there was one. *)
Definition ReadBOM (m : list Z) (p : nat) : ub (nat * bool) :=
  c0 ← rd m p;
  if negb (c0 =? 239) then Ret (p, false) else
  c1 ← rd m (p + 1)%nat;
  if negb (c1 =? 187) then Ret (p, false) else
  c2 ← rd m (p + 2)%nat;
  if negb (c2 =? 191) then Ret (p, false) else Ret ((p + 3)%nat, true).

(** [ConvertUTF32ToUTF8]: the bytes it stores, [*length] of them. *)
Definition utf8_length (input : Z) : nat :=
  if input <? 0x80 then 1 else if input <? 0x800 then 2 else if input <? 0x10000 then 3
  else if input <? 0x200000 then 4 else 0.
Definition FIRST_BYTE_MARK (length : nat) : Z :=
  match length with 2%nat => 0xC0 | 3%nat => 0xE0 | 4%nat => 0xF0 | _ => 0 end.
(** The cases of the [switch] fall through from [n] to 1, storing backwards. *)
Fixpoint utf8_store (n : nat) (mark input : Z) (output : list Z) : list Z :=
  match n with
  | O => output
  | 1%nat => u8 (Z.lor input mark) :: output
  | S n => utf8_store n mark (Z.shiftr input 6) (Z.land (Z.lor input 0x80) 0xBF :: output)
  end.
Definition ConvertUTF32ToUTF8 (input : Z) : list Z :=
  utf8_store (utf8_length input) (FIRST_BYTE_MARK (utf8_length input)) input [].

Definition MAX_CODE_POINT : Z := 0x10FFFF.

(** The digit a character stands for. *)
Definition digit_of (hex : bool) (c : Z) : option Z :=
  if (48 <=? c) && (c <=? 57) then Some (c - 48)
  else if hex && ((97 <=? c) && (c <=? 102)) then Some (c - 97 + 10)
  else if hex && ((65 <=? c) && (c <=? 70)) then Some (c - 65 + 10)
  else None.

(** The loop of [GetCharacterRef], which walks back from [q] to [terminator]. *)
Fixpoint ref_digits (m : list Z) (hex : bool) (radix terminator : Z) (q : nat) (ucs mult : Z)
  : ub (option Z) :=
  c ← rd m q;
  if c =? terminator then Ret (Some ucs) else
  match digit_of hex c with
  | None => Ret None
  | Some digit =>
      let digitScaled := u32 (mult * digit) in
      if (MAX_CODE_POINT <? digitScaled) || (MAX_CODE_POINT - digitScaled <? ucs) then Ret None
      else
        let ucs := u32 (ucs + digitScaled) in
        let mult := u32 (mult * radix) in
        let mult := if MAX_CODE_POINT <? mult then MAX_CODE_POINT else mult in
        match q with
        | O => Undef
        | S q => ref_digits m hex radix terminator q ucs mult
        end
  end.

(** [GetCharacterRef] after it has seen ["&#"] or ["&#x"] at [p], with [q] behind them:
    [None] for a null pointer, or the pointer it returns and the bytes it stored. *)
Definition read_reference (m : list Z) (p : nat) (hex : bool) (radix terminator : Z) (q : nat)
  : ub (option (nat * list Z)) :=
  c ← rd m q;
  if c =? 0 then Ret None else
  found ← strchr m q SEMICOLON;
  match found with
  | None => Ret None
  | Some q =>
      let delta := (q - p)%nat in
      r ← ref_digits m hex radix terminator (q - 1)%nat 0 1;
      match r with
      | None => Ret None
      | Some ucs =>
          if MAX_CODE_POINT <? ucs then Ret None else
          let stored := ConvertUTF32ToUTF8 ucs in
          if bool_decide (stored = []) then Ret None
          else Ret (Some ((p + delta + 1)%nat, stored))
      end
  end.
Definition GetCharacterRef (m : list Z) (p : nat) : ub (option (nat * list Z)) :=
  c1 ← rd m (p + 1)%nat;
  c2 ← (if c1 =? HASH then rd m (p + 2)%nat else Ret 0);
  if (c1 =? HASH) && negb (c2 =? 0) then
    if c2 =? 120 then read_reference m p true 16 120 (p + 3)%nat
    else read_reference m p false 10 HASH (p + 2)%nat
  else Ret (Some ((p + 1)%nat, [])).

(** ** [StrPair] *)

Definition NEEDS_ENTITY_PROCESSING : Z := 0x01.
Definition NEEDS_NEWLINE_NORMALIZATION : Z := 0x02.
Definition NEEDS_WHITESPACE_COLLAPSING : Z := 0x04.
Definition TEXT_ELEMENT : Z := 0x03.
Definition TEXT_ELEMENT_LEAVE_ENTITIES : Z := 0x02.
Definition ATTRIBUTE_NAME : Z := 0.
Definition ATTRIBUTE_VALUE : Z := 0x03.
Definition ATTRIBUTE_VALUE_LEAVE_ENTITIES : Z := 0x02.
Definition COMMENT : Z := 0x02.
Definition NEEDS_FLUSH : Z := 0x100.
Definition NEEDS_DELETE : Z := 0x200.

Definition has (flags f : Z) : bool := negb (Z.land flags f =? 0).

(** A pair that points into the document. *)
Record StrPair := { _flags : Z; _start : nat; _end : nat }.

Definition Set_ (start end_ : nat) (flags : Z) : StrPair :=
  {| _flags := Z.lor flags NEEDS_FLUSH; _start := start; _end := end_ |}.

(** [ParseText]: the loop, with [l] the memory from [p] on. *)
Fixpoint parse_text (l : list Z) (p : nat) (endTag : list Z) (line : Z)
  : ub (option nat * Z) :=
  match l with
  | [] => Undef
  | c :: r =>
      if c =? 0 then Ret (None, line) else
      found ← (if bool_decide (head endTag = Some c) then starts_with l endTag else Ret false);
      if found : bool then Ret (Some p, line) else
      line ← (if c =? LF then chk32 (line + 1) else Ret line);
      parse_text r (S p) endTag line
  end.
(** The pair and the pointer after the end tag, [None] if it is not found. *)
Definition ParseText (m : list Z) (p : nat) (endTag : list Z) (strFlags line : Z)
  : ub (option (StrPair * nat) * Z) :=
  '(found, line) ← parse_text (drop p m) p endTag line;
  Ret (match found with
       | Some e => Some (Set_ p e strFlags, (e + length endTag)%nat)
       | None => None
       end, line).

Fixpoint name_end (l : list Z) (p : nat) : ub nat :=
  match l with
  | [] => Undef
  | c :: l => if negb (c =? 0) && IsNameChar c then name_end l (S p) else Ret p
  end.
(** [ParseName] for a pointer that is not null. *)
Definition ParseName (m : list Z) (p : nat) : ub (option (StrPair * nat)) :=
  c ← rd m p;
  if c =? 0 then Ret None
  else if negb (IsNameStartChar c) then Ret None
  else e ← name_end (drop (S p) m) (S p); Ret (Some (Set_ p e 0, e)).

(** The loop of [CollapseWhitespace]; every round moves [p], so as many rounds as
    there are bytes are enough. *)
Fixpoint collapse_loop (fuel : nat) (m : list Z) (p q : nat) : ub (list Z) :=
  match fuel with
  | O => Undef
  | S fuel =>
      c ← rd m p;
      if c =? 0 then wr m q 0
      else if IsWhiteSpace c then
        '(p, _) ← SkipWhiteSpace m p None;
        c ← rd m p;
        if c =? 0 then wr m q 0
        else m ← wr m q 32; m ← wr m (S q) c; collapse_loop fuel m (S p) (S (S q))
      else m ← wr m q c; collapse_loop fuel m (S p) (S q)
  end.
Definition CollapseWhitespace (m : list Z) (start : nat) : ub (list Z * nat) :=
  '(start, _) ← SkipWhiteSpace m start None;
  c ← rd m start;
  if c =? 0 then Ret (m, start)
  else m ← collapse_loop (length m) m start start; Ret (m, start).

(** The entity at [p], an ampersand: the loop over the table. *)
Fixpoint find_entity (m : list Z) (p : nat) (es : list Entity) : ub (option Entity) :=
  match es with
  | [] => Ret None
  | e :: es =>
      same ← strncmp_eq m (p + 1)%nat (pattern e);
      if same : bool then
        c ← rd m (p + length (pattern e) + 1)%nat;
        if c =? SEMICOLON then Ret (Some e) else find_entity m p es
      else find_entity m p es
  end.

(** A round of the loop of [GetStr]: memory, read and write pointer. *)
Definition getstr_round (flags : Z) (m : list Z) (p q : nat) : ub (list Z * nat * nat) :=
  c ← rd m p;
  if has flags NEEDS_NEWLINE_NORMALIZATION && (c =? CR) then
    c1 ← rd m (p + 1)%nat;
    m ← wr m q LF; Ret (m, if c1 =? LF then (p + 2)%nat else S p, S q)
  else if has flags NEEDS_NEWLINE_NORMALIZATION && (c =? LF) then
    c1 ← rd m (p + 1)%nat;
    m ← wr m q LF; Ret (m, if c1 =? CR then (p + 2)%nat else S p, S q)
  else if has flags NEEDS_ENTITY_PROCESSING && (c =? AMP) then
    c1 ← rd m (p + 1)%nat;
    if c1 =? HASH then
      r ← GetCharacterRef m p;
      match r with
      | None => m ← wr m q c; Ret (m, S p, S q)
      | Some (adjusted, buf) => m ← wrs m q buf; Ret (m, adjusted, (q + length buf)%nat)
      end
    else
      found ← find_entity m p entities;
      match found with
      | Some e => m ← wr m q (value e); Ret (m, (p + (length (pattern e) + 2))%nat, S q)
      | None => Ret (m, S p, S q)
      end
  else m ← wr m q c; Ret (m, S p, S q).

(** The loop: every round moves [p] towards [_end]. *)
Fixpoint getstr_loop (fuel : nat) (flags : Z) (m : list Z) (p q end_ : nat) : ub (list Z * nat) :=
  if decide (p < end_)%nat then
    match fuel with
    | O => Undef
    | S fuel => '(m, p, q) ← getstr_round flags m p q; getstr_loop fuel flags m p q end_
    end
  else Ret (m, q).

(** [GetStr]: the pair, whose [_start] is returned, and the memory. *)
Definition GetStr (s : StrPair) (m : list Z) : ub (StrPair * list Z) :=
  if has (_flags s) NEEDS_FLUSH then
    m ← wr m (_end s) 0;
    let flags := Z.lxor (_flags s) NEEDS_FLUSH in
    m ← (if flags =? 0 then Ret m
         else '(m, q) ← getstr_loop (_end s - _start s) flags m (_start s) (_start s) (_end s);
              wr m q 0);
    '(m, start) ← (if has flags NEEDS_WHITESPACE_COLLAPSING then CollapseWhitespace m (_start s)
                   else Ret (m, _start s));
    Ret ({| _flags := Z.land flags NEEDS_DELETE; _start := start; _end := _end s |}, m)
  else Ret (s, m).

(** The C string at a pointer. *)
Fixpoint until_nul (l : list Z) : list Z :=
  match l with [] => [] | c :: l => if c =? 0 then [] else c :: until_nul l end.
Definition c_string (m : list Z) (p : nat) : list Z := until_nul (drop p m).

(** ** [XMLPrinter::PrintString] *)

Definition ENTITY_RANGE : Z := 64.
(** [_entityFlag] and [_restrictedEntityFlag], as the constructor sets them. *)
Definition entity_flag (restricted : bool) (c : Z) : bool :=
  if restricted then (c =? AMP) || (c =? 60) || (c =? 62)
  else existsb (fun e => value e =? c) entities.

(** [Putc('&')], the pattern, [Putc(';')], for the first entity with the value. *)
Fixpoint print_entity (c : Z) (es : list Entity) : list Z :=
  match es with
  | [] => []
  | e :: es => if value e =? c then AMP :: pattern e ++ [SEMICOLON] else print_entity c es
  end.

(** The number of bytes of one [Write] from a run of [delta] bytes. *)
Definition toPrint (delta : nat) : nat :=
  Z.to_nat (if INT32_MAX <? Z.of_nat delta then INT32_MAX else Z.of_nat delta).
(** [while ( p < q )]: the run is written in parts. *)
Fixpoint write_run (fuel : nat) (run : list Z) : list Z :=
  match run, fuel with
  | [], _ => []
  | _, O => []
  | _, S fuel => take (toPrint (length run)) run ++ write_run fuel (drop (toPrint (length run)) run)
  end.

(** The loop at [l]; [run] are the bytes from [p] to [q]. *)
Fixpoint print_loop (restricted : bool) (l run : list Z) : list Z :=
  match l with
  | [] => take (toPrint (length run)) run
  | c :: l =>
      if (0 <? c) && (c <? ENTITY_RANGE) && entity_flag restricted c
      then write_run (length run) run ++ print_entity c entities ++ print_loop restricted l []
      else print_loop restricted l (run ++ [c])
  end.
(** [PrintString] of a C string: what is written. *)
Definition PrintString (processEntities : bool) (l : list Z) (restricted : bool) : list Z :=
  if processEntities then print_loop restricted l [] else l.

(** ** What the text says

    The decoding of a text [l] without NUL, as a function from the text alone. *)

(** The bytes of a code point in UTF-8. *)
Definition utf8 (u : Z) : list Z :=
  if u <? 0x80 then [u]
  else if u <? 0x800 then [0xC0 + u / 64; 0x80 + u mod 64]
  else if u <? 0x10000 then [0xE0 + u / 4096; 0x80 + u / 64 mod 64; 0x80 + u mod 64]
  else [0xF0 + u / 262144; 0x80 + u / 4096 mod 64; 0x80 + u / 64 mod 64; 0x80 + u mod 64].

(** The value and the sum of digits, least significant first. *)
Fixpoint digits_val (radix : Z) (ds : list Z) : Z :=
  match ds with [] => 0 | d :: ds => d + radix * digits_val radix ds end.
Fixpoint digits_sum (ds : list Z) : Z :=
  match ds with [] => 0 | d :: ds => d + digits_sum ds end.

(** The code point digits stand for.  A number out of range is refused, unless its
    digits are zeros and a single 1: that reads as the last code point. *)
Definition code_point (value sum : Z) : option Z :=
  if value <=? MAX_CODE_POINT then Some value
  else if sum =? 1 then Some MAX_CODE_POINT else None.

Fixpoint take_until (t : Z) (l : list Z) : list Z :=
  match l with [] => [] | c :: l => if c =? t then [] else c :: take_until t l end.
(** The position of the first semicolon. *)
Fixpoint semicolon_at (l : list Z) : option nat :=
  match l with
  | [] => None
  | c :: l => if c =? SEMICOLON then Some O else S <$> semicolon_at l
  end.

(** The reference whose text after ["&#"] or ["&#x"] is [body]: the digits are those
    after the last ['#'] or ['x'] before the semicolon. *)
Definition reference (hex : bool) (body : list Z) : option (nat * Z) :=
  n ← semicolon_at body;
  ds ← mapM (digit_of hex) (take_until (if hex then 120 else HASH) (reverse (take n body)));
  u ← code_point (digits_val (if hex then 16 else 10) ds) (digits_sum ds);
  Some (n, u).

(** What stands for the text [l] from ["&#"] on, [r] being what follows: how many
    bytes are read, and the bytes they stand for. *)
Definition char_ref (r : list Z) : option (nat * list Z) :=
  match r with
  | [] => Some (1%nat, [])
  | c :: r' =>
      let hex := c =? 120 in
      '(n, u) ← reference hex (if hex then r' else r);
      Some ((n + (if hex then 4 else 3))%nat, utf8 u)
  end.

Definition at0 (l : list Z) (i : nat) : Z := default 0 (l !! i).
Definition is_entity (r : list Z) (e : Entity) : bool :=
  bool_decide (take (S (length (pattern e))) r = pattern e ++ [SEMICOLON]).

(** How many bytes the start of a text takes and what they stand for; [None]: one
    byte of whatever the buffer holds at that position of the result. *)
Definition token (flags : Z) (c : Z) (r : list Z) : nat * option (list Z) :=
  if has flags NEEDS_NEWLINE_NORMALIZATION && (c =? CR)
  then (if at0 r 0 =? LF then 2%nat else 1%nat, Some [LF])
  else if has flags NEEDS_NEWLINE_NORMALIZATION && (c =? LF)
  then (if at0 r 0 =? CR then 2%nat else 1%nat, Some [LF])
  else if has flags NEEDS_ENTITY_PROCESSING && (c =? AMP) then
    if at0 r 0 =? HASH then
      match char_ref (drop 1 r) with
      | Some (n, bs) => (n, Some bs)
      | None => (1%nat, Some [c])
      end
    else match find (is_entity r) entities with
         | Some e => ((length (pattern e) + 2)%nat, Some [value e])
         | None => (1%nat, None)
         end
  else (1%nat, Some [c]).

(** The decoding of [l], of which [done] bytes of result are there already; [o] is the
    whole text. *)
Fixpoint decode_from (fuel : nat) (flags : Z) (o : list Z) (done : nat) (l : list Z) : list Z :=
  match l, fuel with
  | [], _ => []
  | _, O => []
  | c :: r, S fuel =>
      let '(n, out) := token flags c r in
      let bs := default [at0 o done] out in
      bs ++ decode_from fuel flags o (done + length bs) (drop n l)
  end.
Definition decode (flags : Z) (o : list Z) : list Z := decode_from (length o) flags o 0 o.

(** Runs of white space as one space, none at the ends; [pending]: there was white
    space before. *)
Fixpoint collapse_from (pending : bool) (l : list Z) : list Z :=
  match l with
  | [] => []
  | c :: l =>
      if IsWhiteSpace c then collapse_from true l
      else (if pending then [32] else []) ++ c :: collapse_from false l
  end.
Fixpoint skip_lead (l : list Z) : list Z :=
  match l with [] => [] | c :: r => if IsWhiteSpace c then skip_lead r else l end.
Definition collapse (l : list Z) : list Z := collapse_from false (skip_lead l).

(** The string a pair stands for. *)
Definition pair_text (flags : Z) (o : list Z) : list Z :=
  let d := until_nul (decode flags o) in
  if has flags NEEDS_WHITESPACE_COLLAPSING then collapse d else d.

Lemma bytes_length s : length (bytes s) = String.length s.
Proof. induction s as [|c s IH]; cbn; [done|]. by rewrite IH. Qed.

(** ** UTF-8 *)

Lemma small_case (P : Z -> Prop) (n : nat) :
  Forall P (Z.of_nat <$> seq 0 n) -> forall x, 0 <= x < Z.of_nat n -> P x.
Proof.
  intros H x Hx. rewrite Forall_forall in H. apply H. apply list_elem_of_fmap.
  exists (Z.to_nat x). split; [lia|]. apply elem_of_seq. lia.
Qed.

Lemma low6 x : Z.land (Z.lor x 0x80) 0xBF = 0x80 + x mod 64.
Proof.
  transitivity (Z.lor (Z.land x 63) 0x80).
  - apply Z.bits_inj'. intros n Hn. rewrite !Z.lor_spec, !Z.land_spec, Z.lor_spec.
    destruct (decide (n < 8)) as [Hs|].
    + revert n Hn Hs. cut (forall n, 0 <= n < Z.of_nat 8 ->
        (Z.testbit x n || Z.testbit 128 n) && Z.testbit 191 n =
        Z.testbit x n && Z.testbit 63 n || Z.testbit 128 n); [intros H n ? ?; apply H; lia|].
      apply small_case. cbn [seq fmap list_fmap]. repeat constructor; cbn; rewrite ?andb_true_r, ?andb_false_r, ?orb_true_r, ?orb_false_r; reflexivity.
    + rewrite (Z.bits_above_log2 191), (Z.bits_above_log2 63), (Z.bits_above_log2 128) by (cbn; lia).
      now rewrite !andb_false_r.
  - change 63 with (Z.ones 6). rewrite Z.land_ones by lia.
    change (2 ^ 6) with 64. revert x. cut (forall r, 0 <= r < Z.of_nat 64 -> Z.lor r 128 = 128 + r).
    { intros H x. apply H. apply Z.mod_pos_bound. lia. }
    apply small_case. cbn [seq fmap list_fmap]. repeat constructor.
Qed.

(** A leading byte. *)
Lemma lead_byte k mark x :
  (k, mark) ∈ [(128%nat, 0); (32%nat, 0xC0); (16%nat, 0xE0); (8%nat, 0xF0)] ->
  0 <= x < Z.of_nat k -> u8 (Z.lor x mark) = mark + x.
Proof.
  rewrite !elem_of_cons, elem_of_nil. revert x.
  intros x [[= -> ->] | [[= -> ->] | [[= -> ->] | [[= -> ->] | []]]]]; revert x;
    apply small_case; apply (bool_decide_unpack _); vm_compute; exact I.
Qed.

Lemma ConvertUTF32ToUTF8_utf8 u : 0 <= u <= MAX_CODE_POINT -> ConvertUTF32ToUTF8 u = utf8 u.
Proof.
  unfold MAX_CODE_POINT. intros Hu. unfold ConvertUTF32ToUTF8, utf8, utf8_length.
  destruct (u <? 0x80) eqn:E1; boolprop; [|destruct (u <? 0x800) eqn:E2; boolprop;
    [|destruct (u <? 0x10000) eqn:E3; boolprop]].
  - cbn [utf8_store FIRST_BYTE_MARK]. rewrite (lead_byte 128) by (set_solver || lia). reflexivity.
  - cbn [utf8_store FIRST_BYTE_MARK]. rewrite low6, Z.shiftr_div_pow2 by lia. change (2 ^ 6) with 64.
    rewrite (lead_byte 32) by (set_solver || lia). reflexivity.
  - cbn [utf8_store FIRST_BYTE_MARK]. rewrite !low6, !Z.shiftr_div_pow2 by lia. change (2 ^ 6) with 64.
    rewrite (lead_byte 16) by (set_solver || lia). now rewrite Z.div_div by lia.
  - destruct (u <? 0x200000) eqn:E4; boolprop; [|lia].
    cbn [utf8_store FIRST_BYTE_MARK]. rewrite !low6, !Z.shiftr_div_pow2 by lia. change (2 ^ 6) with 64.
    rewrite (lead_byte 8) by (set_solver || lia). now rewrite !Z.div_div by lia.
Qed.

Lemma utf8_length_pos u : (1 <= length (utf8 u) <= 4)%nat.
Proof. unfold utf8. repeat case_goal; cbn; lia. Qed.

(** ** Character references *)

Lemma digit_of_range hex c d : digit_of hex c = Some d -> 0 <= d < (if hex then 16 else 10).
Proof.
  unfold digit_of. destruct ((48 <=? c) && (c <=? 57)) eqn:E1; [intros [= <-]; boolprop; destruct hex; lia|].
  destruct hex; [|discriminate]. cbn [andb].
  destruct ((97 <=? c) && (c <=? 102)) eqn:E2; [intros [= <-]; boolprop; lia|].
  destruct ((65 <=? c) && (c <=? 70)) eqn:E3; [intros [= <-]; boolprop; lia | discriminate].
Qed.

Lemma digits_nonneg radix ds :
  0 < radix -> Forall (fun d => 0 <= d < radix) ds -> 0 <= digits_val radix ds /\ 0 <= digits_sum ds.
Proof. intros Hr. induction 1 as [|d ds Hd _ IH]; cbn; [lia | nia]. Qed.

(** What the loop has found after the low digits, of which there are [j]. *)
Definition ref_state (radix : Z) (j : nat) (val sum ucs mult : Z) : Prop :=
  0 <= val < radix ^ Z.of_nat j /\ 0 <= sum /\ (val = 0 <-> sum = 0) /\
  code_point val sum = Some ucs /\ mult = Z.min (radix ^ Z.of_nat j) MAX_CODE_POINT.

(** The rounds of the loop over the digits [ds], least significant first. *)
Fixpoint ref_rounds (radix : Z) (ds : list Z) (ucs mult : Z) : option Z :=
  match ds with
  | [] => Some ucs
  | digit :: ds =>
      let digitScaled := u32 (mult * digit) in
      if (MAX_CODE_POINT <? digitScaled) || (MAX_CODE_POINT - digitScaled <? ucs) then None
      else
        let mult := u32 (mult * radix) in
        ref_rounds radix ds (u32 (ucs + digitScaled))
          (if MAX_CODE_POINT <? mult then MAX_CODE_POINT else mult)
  end.

Lemma code_point_le val sum u : code_point val sum = Some u -> 0 <= val -> 0 <= u <= MAX_CODE_POINT.
Proof. unfold code_point, MAX_CODE_POINT. repeat case_goal; intros [= <-]; boolprop; lia. Qed.

Lemma code_point_big val sum : MAX_CODE_POINT < val -> sum <> 1 -> code_point val sum = None.
Proof.
  intros Hv Hs. unfold code_point. destruct (val <=? MAX_CODE_POINT) eqn:E; boolprop; [lia|].
  destruct (sum =? 1) eqn:E2; boolprop; [lia | reflexivity].
Qed.

(** One round: the digit is refused, and then the number is out of range and has more
    than a single 1, or the state after it is as described. *)
Lemma ref_round radix j val sum ucs mult d :
  2 <= radix <= 16 -> 0 <= d < radix -> ref_state radix j val sum ucs mult ->
  let digitScaled := u32 (mult * d) in
  let mult' := u32 (mult * radix) in
  if (MAX_CODE_POINT <? digitScaled) || (MAX_CODE_POINT - digitScaled <? ucs)
  then MAX_CODE_POINT < val + d * radix ^ Z.of_nat j /\ 2 <= sum + d
  else ref_state radix (S j) (val + d * radix ^ Z.of_nat j) (sum + d) (u32 (ucs + digitScaled))
         (if MAX_CODE_POINT <? mult' then MAX_CODE_POINT else mult').
Proof.
  intros Hr Hd (Hv & Hs & Hz & Hc & Hm). cbn zeta.
  assert (MAX_CODE_POINT = 1114111) as HM by reflexivity.
  assert (0 < radix ^ Z.of_nat j) as Hpos by (apply Z.pow_pos_nonneg; lia).
  assert (radix ^ Z.of_nat (S j) = radix * radix ^ Z.of_nat j) as Hpow
    by (rewrite Nat2Z.inj_succ; apply Z.pow_succ_r; lia).
  pose proof (code_point_le _ _ _ Hc (proj1 Hv)) as Hu.
  unfold ref_state. rewrite Hpow. clear Hpow. generalize dependent (radix ^ Z.of_nat j). intros P Hv Hm Hpos.
  assert (0 < mult <= MAX_CODE_POINT) as Hmm by lia.
  assert (0 <= mult * d <= MAX_CODE_POINT * 15) as Hmd by (split; [nia|]; apply Z.mul_le_mono_nonneg; lia).
  assert (0 <= mult * radix <= MAX_CODE_POINT * 16) as Hmr by (split; [nia|]; apply Z.mul_le_mono_nonneg; lia).
  rewrite (u32_small (mult * d)), (u32_small (mult * radix)) by range.
  assert (0 <= d * P /\ (1 <= d -> P <= d * P) /\ d * P <= (radix - 1) * P) as (HdP & HdP1 & HdP2) by nia.
  destruct (Z.le_gt_cases P MAX_CODE_POINT) as [Hle|Hgt].
  - rewrite Z.min_l in Hm by exact Hle. subst mult. rewrite (Z.mul_comm P d) in *.
    assert (ucs = val) as ->.
    { unfold code_point  in Hc. case_hyp Hc; [congruence|]. boolprop. lia. }
    destruct (_ || _) eqn:E.
    + apply orb_true_iff in E. rewrite !Z.ltb_lt in E.
      assert (1 <= d) by nia. split; [lia|]. destruct (Z.eq_dec sum 0) as [Hz0|]; [|lia].
      apply Hz in Hz0. subst val. assert (d <> 1) by nia. lia.
    + boolprop. rewrite u32_small by range. split; [nia|]. split; [lia|]. split; [nia|].
      split; [|case_goal; boolprop; nia].
      unfold code_point. case_goal; boolprop; [reflexivity | lia].
  - rewrite Z.min_r in Hm by lia. subst mult.
    assert (ucs = 0 <-> val = 0) as Huv.
    { unfold code_point  in Hc. repeat case_hyp Hc; simplify_eq; boolprop; lia. }
    destruct (_ || _) eqn:E.
    + apply orb_true_iff in E. rewrite !Z.ltb_lt in E. assert (1 <= d) by lia. split; [lia|].
      destruct (Z.eq_dec val 0); [|lia]. assert (d <> 1) by lia. lia.
    + boolprop. rewrite u32_small by range. split; [nia|]. split; [lia|]. split; [nia|].
      split; [|case_goal; boolprop; nia].
      destruct (Z.eq_dec d 0) as [->|].
      * now rewrite Z.mul_0_r, Z.mul_0_l, !Z.add_0_r.
      * assert (d = 1 /\ ucs = 0) as [-> ->] by lia. assert (val = 0) as -> by tauto.
        rewrite (proj1 Hz eq_refl). unfold code_point. case_goal; boolprop; [lia|]. f_equal; lia.
Qed.

Lemma ref_rounds_code radix ds j val sum ucs mult :
  2 <= radix <= 16 -> Forall (fun d => 0 <= d < radix) ds -> ref_state radix j val sum ucs mult ->
  ref_rounds radix ds ucs mult =
  code_point (val + radix ^ Z.of_nat j * digits_val radix ds) (sum + digits_sum ds).
Proof.
  intros Hr Hds. revert j val sum ucs mult.
  induction Hds as [|d ds Hd Hds IH]; intros j val sum ucs mult Hst.
  { cbn. rewrite Z.mul_0_r, !Z.add_0_r. symmetry. apply Hst. }
  pose proof (ref_round _ _ _ _ _ _ d Hr Hd Hst) as Hround. cbn zeta in Hround.
  destruct (digits_nonneg radix ds ltac:(lia) Hds) as [Hval Hsum].
  cbn [ref_rounds digits_val digits_sum]. cbn zeta.
  replace (val + radix ^ Z.of_nat j * (d + radix * digits_val radix ds))
    with ((val + d * radix ^ Z.of_nat j) + radix ^ Z.of_nat (S j) * digits_val radix ds)
    by (rewrite Nat2Z.inj_succ, Z.pow_succ_r by lia; ring).
  rewrite Z.add_assoc. destruct (_ || _); [|now apply IH].
  symmetry. apply code_point_big; [|lia].
  assert (0 <= radix ^ Z.of_nat (S j)) by (apply Z.pow_nonneg; lia). nia.
Qed.

Lemma ref_rounds_start radix ds :
  2 <= radix <= 16 -> Forall (fun d => 0 <= d < radix) ds ->
  ref_rounds radix ds 0 1 = code_point (digits_val radix ds) (digits_sum ds).
Proof.
  intros Hr Hds. rewrite (ref_rounds_code radix ds 0 0 0 0 1 Hr Hds).
  - now rewrite Z.pow_0_r, Z.mul_1_l.
  - unfold ref_state. rewrite Z.pow_0_r. unfold MAX_CODE_POINT. repeat split; lia || reflexivity.
Qed.

(** ** Reading memory *)

Lemma rd_app_r (pre s : list Z) i c : s !! i = Some c -> rd (pre ++ s) (length pre + i) = Ret c.
Proof.
  intros H. unfold rd. rewrite lookup_app_r by lia.
  now replace (length pre + i - length pre)%nat with i by lia; rewrite H.
Qed.

(** The walk back over [w] to the terminator before it. *)
Lemma ref_digits_rounds hex radix t pre w s ucs mult :
  ref_digits (pre ++ t :: w ++ s) hex radix t (length pre + length w) ucs mult =
  Ret (ds ← mapM (digit_of hex) (take_until t (reverse w)); ref_rounds radix ds ucs mult).
Proof.
  revert s ucs mult. induction w as [|c w IH] using rev_ind; intros s ucs mult.
  - pose proof (rd_app_r pre (t :: [] ++ s) 0 t eq_refl) as Hrd.
    cbn [length]. destruct (length pre + 0)%nat; cbn [ref_digits]; rewrite Hrd; cbn;
      now rewrite Z.eqb_refl.
  - rewrite length_app, reverse_snoc, <- app_assoc. cbn [length app take_until].
    replace (length pre + (length w + 1))%nat with (S (length pre + length w)) by lia.
    cbn [ref_digits].
    assert (rd (pre ++ t :: w ++ c :: s) (S (length pre + length w)) = Ret c) as ->.
    { rewrite <- Nat.add_succ_r. apply rd_app_r. cbn. now apply list_lookup_middle. }
    cbn [mbind ub_bind]. destruct (c =? t); [reflexivity|]. cbn [mapM].
    destruct (digit_of hex c) as [d|]; [|reflexivity]. cbn [mbind option_bind].
    destruct (_ || _) eqn:E.
    + destruct (mapM _ _) as [ds|]; [|reflexivity]. cbn. now rewrite E.
    + rewrite IH. destruct (mapM _ _) as [ds|]; [|reflexivity]. cbn. now rewrite E.
Qed.

Definition text (l : list Z) : Prop := Forall (fun c => c <> 0) l.

Lemma strchr_semicolon l s q :
  text l -> strchr_from (l ++ 0 :: s) q SEMICOLON = Ret ((fun n => (q + n)%nat) <$> semicolon_at l).
Proof.
  intros Hl. revert q. induction Hl as [|c l Hc _ IH]; intros q; cbn; [reflexivity|].
  destruct (c =? SEMICOLON); cbn; [now rewrite Nat.add_0_r|].
  destruct (c =? 0) eqn:E; boolprop; [congruence|]. rewrite IH.
  destruct (semicolon_at l); cbn; [|reflexivity]. now rewrite Nat.add_succ_r.
Qed.

Lemma semicolon_at_lt l n : semicolon_at l = Some n -> (n < length l)%nat.
Proof.
  revert n. induction l as [|c l IH]; intros n; cbn; [discriminate|].
  destruct (c =? SEMICOLON); [intros [= <-]; lia|].
  destruct (semicolon_at l) as [k|]; cbn; [|discriminate]. intros [= <-]. specialize (IH k eq_refl). lia.
Qed.

Lemma digits_of_range hex l ds :
  mapM (digit_of hex) l = Some ds -> Forall (fun d => 0 <= d < (if hex then 16 else 10)) ds.
Proof.
  intros H. apply mapM_Some in H. induction H as [|c d l ds Hd _ IH]; constructor; [|exact IH].
  now apply digit_of_range in Hd.
Qed.

Lemma read_reference_spec (hex : bool) pre body s p :
  let t := if hex then 120 else HASH in
  text body -> (p <= length pre)%nat ->
  read_reference (pre ++ t :: body ++ 0 :: s) p hex (if hex then 16 else 10) t (S (length pre)) =
  Ret ('(n, u) ← reference hex body; Some ((length pre + n + 2)%nat, utf8 u)).
Proof.
  intros t Hb Hp. unfold read_reference, reference.
  assert (drop (S (length pre)) (pre ++ t :: body ++ 0 :: s) = body ++ 0 :: s) as Hdrop
    by (rewrite drop_app_ge, Nat.sub_succ_l, Nat.sub_diag by lia; reflexivity).
  destruct (decide (body = [])) as [->|Hne].
  { cbn [app]. rewrite <- (Nat.add_1_r (length pre)), (rd_app_r pre (t :: 0 :: s) 1 0 eq_refl). reflexivity. }
  assert (exists b body', body = b :: body') as (b & body' & Eb) by (destruct body; [easy | eauto]).
  assert (rd (pre ++ t :: body ++ 0 :: s) (S (length pre)) = Ret b) as ->
    by (rewrite <- (Nat.add_1_r (length pre)); apply rd_app_r; now rewrite Eb).
  cbn [mbind ub_bind]. assert (b <> 0) by (rewrite Eb in Hb; now inversion Hb).
  destruct (b =? 0) eqn:E0; boolprop; [congruence|]. unfold strchr.
  rewrite Hdrop, strchr_semicolon by exact Hb. cbn [mbind ub_bind].
  destruct (semicolon_at body) as [n|] eqn:En; [|reflexivity]. cbn [fmap option_fmap option_map mbind option_bind].
  apply semicolon_at_lt in En. replace (S (length pre) + n - 1)%nat with (length pre + n)%nat by lia.
  pose proof (ref_digits_rounds hex (if hex then 16 else 10) t pre (take n body)
    (drop n body ++ 0 :: s) 0 1) as Hd.
  rewrite app_assoc, take_drop, length_take, Nat.min_l in Hd by lia. rewrite Hd. clear Hd.
  cbn [mbind ub_bind]. fold t.
  destruct (mapM (digit_of hex) (take_until t (reverse (take n body)))) as [ds|] eqn:Ed; [|reflexivity].
  apply digits_of_range in Ed. cbn [mbind option_bind]. rewrite ref_rounds_start by (destruct hex; lia || exact Ed).
  destruct (code_point _ _) as [u|] eqn:Eu; [|reflexivity]. cbn.
  apply code_point_le in Eu; [|apply (digits_nonneg _ ds); [destruct hex; lia | exact Ed]].
  destruct (MAX_CODE_POINT <? u) eqn:E; boolprop; [lia|]. rewrite ConvertUTF32ToUTF8_utf8 by exact Eu.
  rewrite bool_decide_false by (pose proof (utf8_length_pos u); destruct (utf8 u); [cbn in *; lia | discriminate]).
  do 3 f_equal. lia.
Qed.

Lemma GetCharacterRef_spec pre r s :
  text r -> GetCharacterRef (pre ++ AMP :: HASH :: r ++ 0 :: s) (length pre) =
  Ret ('(n, bs) ← char_ref r; Some ((length pre + n)%nat, bs)).
Proof.
  intros Hr. unfold GetCharacterRef, char_ref.
  rewrite (rd_app_r pre (AMP :: HASH :: r ++ 0 :: s) 1 HASH eq_refl). cbn [mbind ub_bind].
  rewrite Z.eqb_refl. cbn [andb]. destruct r as [|c r'].
  { rewrite (rd_app_r pre (AMP :: HASH :: [] ++ 0 :: s) 2 0 eq_refl). reflexivity. }
  rewrite (rd_app_r pre (AMP :: HASH :: (c :: r') ++ 0 :: s) 2 c eq_refl). cbn [mbind ub_bind].
  inversion_clear Hr as [|? ? Hc Hr']. destruct (c =? 0) eqn:E0; boolprop; [congruence|]. cbn [negb].
  destruct (c =? 120) eqn:Ex; boolprop.
  - subst c. pose proof (read_reference_spec true (pre ++ [AMP; HASH]) r' s (length pre) Hr') as H.
    rewrite length_app, <- app_assoc in H. cbn [length app] in H.
    replace (S (length pre + 2)) with (length pre + 3)%nat in H by lia. cbn [app]. rewrite H by lia.
    cbn. destruct (reference true r') as [[n u]|]; [|reflexivity]. cbn. do 3 f_equal. lia.
  - pose proof (read_reference_spec false (pre ++ [AMP]) (c :: r') s (length pre) ltac:(now constructor)) as H.
    rewrite length_app, <- app_assoc in H. cbn [length app] in H.
    replace (S (length pre + 1)) with (length pre + 2)%nat in H by lia. cbn [app]. rewrite H by lia.
    destruct (reference false (c :: r')) as [[n u]|]; [|reflexivity]. cbn. do 3 f_equal. lia.
Qed.

(** ** Entities *)

Lemma starts_with_spec pat r s :
  text pat -> starts_with (r ++ 0 :: s) pat = Ret (bool_decide (take (length pat) r = pat)).
Proof.
  intros Hp. revert r. induction Hp as [|c pat Hc _ IH]; intros r.
  { rewrite bool_decide_true by reflexivity. now destruct r. }
  destruct r as [|x r]; cbn [app length take starts_with].
  - rewrite bool_decide_false by discriminate. destruct (0 =? c) eqn:E; boolprop; congruence.
  - destruct (x =? c) eqn:E; boolprop.
    + subst x. rewrite IH. f_equal. apply bool_decide_ext. split; [congruence | intros [=]; auto].
    + rewrite bool_decide_false by congruence. reflexivity.
Qed.

Lemma entity_semicolon r e s :
  text r -> take (length (pattern e)) r = pattern e ->
  exists c, (r ++ 0 :: s) !! length (pattern e) = Some c /\ is_entity r e = (c =? SEMICOLON).
Proof.
  intros Hr Hp. set (k := length (pattern e)) in *. unfold is_entity. fold k.
  destruct (r !! k) as [c|] eqn:E.
  - exists c. split; [now apply lookup_app_l_Some|]. rewrite (take_S_r _ _ _ E), Hp.
    destruct (c =? SEMICOLON) eqn:Ec; boolprop.
    + apply bool_decide_true. congruence.
    + apply bool_decide_false. intros H. apply app_inj_2 in H as [_ [= ?]]; [congruence | reflexivity].
  - apply lookup_ge_None in E. assert (length r = k) as El.
    { assert (length (take k r) = k) as H by now rewrite Hp. rewrite length_take in H. lia. }
    exists 0. rewrite lookup_app_r, El, Nat.sub_diag by lia. split; [reflexivity|].
    apply bool_decide_false. intros H. apply (f_equal length) in H.
    rewrite length_take, length_app in H. cbn [length] in H. fold k in H. lia.
Qed.

Lemma find_entity_spec pre r s es :
  text r -> Forall (fun e => text (pattern e)) es ->
  find_entity (pre ++ AMP :: r ++ 0 :: s) (length pre) es = Ret (find (is_entity r) es).
Proof.
  intros Hr Hes. induction Hes as [|e es He _ IH]; [reflexivity|]. cbn [find_entity find].
  unfold strncmp_eq. rewrite drop_app_ge by lia.
  replace (length pre + 1 - length pre)%nat with 1%nat by lia. cbn [skipn]. rewrite drop_0.
  rewrite starts_with_spec by exact He. cbn [mbind ub_bind].
  case_bool_decide as Hp.
  - destruct (entity_semicolon r e s Hr Hp) as (c & Hc & ->).
    rewrite <- Nat.add_assoc, (Nat.add_comm _ 1%nat).
    rewrite (rd_app_r pre (AMP :: r ++ 0 :: s) (1 + length (pattern e)) c Hc). cbn [mbind ub_bind].
    destruct (c =? SEMICOLON); [reflexivity | exact IH].
  - replace (is_entity r e) with false; [exact IH|]. symmetry. apply bool_decide_false. intros H.
    apply Hp. apply (f_equal (take (length (pattern e)))) in H.
    rewrite take_take, take_app_length, Nat.min_l in H by lia. exact H.
Qed.

Lemma entities_text : Forall (fun e => text (pattern e)) entities.
Proof. repeat constructor; discriminate. Qed.

(** ** Decoding in place *)

Lemma reference_bounds (hex : bool) body n u :
  reference hex body = Some (n, u) ->
  (n < length body)%nat /\ (n = O -> length (utf8 u) = 1%nat).
Proof.
  unfold reference. destruct (semicolon_at body) as [k|] eqn:Ek; cbn [mbind option_bind]; [|discriminate].
  apply semicolon_at_lt in Ek. destruct (mapM _ _) as [ds|] eqn:Ed; cbn [mbind option_bind]; [|discriminate].
  destruct (code_point _ _) as [v|] eqn:Ev; cbn [mbind option_bind]; [|discriminate]. intros [= <- <-].
  split; [exact Ek|]. intros ->. cbn in Ed. injection Ed as <-. cbn in Ev. now injection Ev as <-.
Qed.

Lemma char_ref_bounds r n bs :
  char_ref r = Some (n, bs) -> (1 <= n <= length r + 2)%nat /\ (length bs <= n)%nat.
Proof.
  unfold char_ref. destruct r as [|c r']; [intros [= <- <-]; cbn; lia|].
  destruct (reference _ _) as [[k u]|] eqn:E; cbn [mbind option_bind]; [|discriminate].
  apply reference_bounds in E as [Hk Hu]. intros [= <- <-]. pose proof (utf8_length_pos u).
  destruct (c =? 120); cbn [length] in *; (split; [lia|]); destruct k; lia.
Qed.

Lemma token_bounds flags c r n out :
  token flags c r = (n, out) ->
  (1 <= n <= S (length r))%nat /\ forall b, (length (default [b] out) <= n)%nat.
Proof.
  assert (forall x, x <> 0 -> at0 r 0 = x -> (1 <= length r)%nat) as Hat.
  { intros x Hx. unfold at0. destruct r; cbn; [congruence | lia]. }
  assert (forall x y, x <> 0 -> (if at0 r 0 =? x then 2%nat else 1%nat, Some [y]) = (n, out) ->
    (1 <= n <= S (length r))%nat /\ forall b : Z, (length (default [b] out) <= n)%nat) as Hpair.
  { intros x y Hx [= <- <-]. destruct (at0 r 0 =? x) eqn:E; boolprop; [apply (Hat x) in E; [|exact Hx]|];
      split; [|intros b; cbn| |intros b; cbn]; lia. }
  unfold token.
  destruct (_ && (c =? CR)); [now apply Hpair|]. destruct (_ && (c =? LF)); [now apply Hpair|].
  destruct (_ && (c =? AMP)); [|intros [= <- <-]; split; [|intros b; cbn]; lia].
  destruct (at0 r 0 =? HASH) eqn:Eh.
  - boolprop. apply (Hat HASH) in Eh; [|discriminate].
    destruct (char_ref (drop 1 r)) as [[k bs]|] eqn:E; intros [= <- <-]; [|split; [|intros b; cbn]; lia].
    apply char_ref_bounds in E as [H1 H2]. rewrite length_drop in H1. split; [lia|]. intros b; cbn; lia.
  - destruct (find (is_entity r) entities) as [e|] eqn:E; intros [= <- <-]; [|split; [|intros b; cbn]; lia].
    apply find_some in E as [_ He]. apply bool_decide_eq_true in He.
    apply (f_equal length) in He. rewrite length_take, length_app in He. cbn [length] in He.
    split; [|intros b; cbn]; lia.
Qed.

(** The document [A ++ o ++ 0 :: s] after [out] has been written over the start of the
    text [o]. *)
Section InPlace.
Context (A o s : list Z).
Definition mem (out : list Z) : list Z := A ++ out ++ drop (length out) (o ++ 0 :: s).

Lemma mem_start : mem [] = A ++ o ++ 0 :: s.
Proof. reflexivity. Qed.

Lemma mem_write out c :
  (length out <= length o)%nat -> wr (mem out) (length A + length out) c = Ret (mem (out ++ [c])).
Proof.
  intros H. unfold wr, mem.
  assert (length out < length (o ++ 0%Z :: s))%nat as Hl by (rewrite length_app; cbn; lia).
  rewrite decide_True by (rewrite !length_app, length_drop; lia). f_equal.
  rewrite insert_app_r, insert_app_r_alt, Nat.sub_diag by lia.
  destruct (drop (length out) (o ++ 0 :: s)) as [|x rest] eqn:E.
  { apply (f_equal length) in E. rewrite length_drop in E. cbn in E. lia. }
  rewrite <- app_assoc. cbn. do 2 f_equal. f_equal. rewrite length_app. cbn [length].
  rewrite <- drop_drop, E. reflexivity.
Qed.

Lemma mem_write_all out bs :
  (length out + length bs <= S (length o))%nat ->
  wrs (mem out) (length A + length out) bs = Ret (mem (out ++ bs)).
Proof.
  revert out. induction bs as [|c bs IH]; intros out H; cbn [wrs]; [now rewrite app_nil_r|].
  cbn [length] in H. rewrite mem_write by lia. cbn [mbind ub_bind].
  replace (S (length A + length out)) with (length A + length (out ++ [c]))%nat
    by (rewrite length_app; cbn; lia).
  rewrite IH by (rewrite length_app; cbn; lia). now rewrite <- app_assoc.
Qed.

(** A byte that is not written is that of the text. *)
Lemma mem_stale out :
  (length out < length o)%nat -> mem out = mem (out ++ [at0 o (length out)]).
Proof.
  intros H. unfold mem, at0. rewrite <- app_assoc, length_app. do 2 f_equal.
  destruct (lookup_lt_is_Some_2 o _ H) as [x Hx]. rewrite Hx. cbn.
  rewrite Nat.add_1_r. symmetry. rewrite <- (drop_S _ x); [reflexivity|]. now apply lookup_app_l_Some.
Qed.

(** What is read at position [i] of the text is still there. *)
Lemma mem_view out i :
  (length out <= i <= length o)%nat ->
  exists pre, length pre = (length A + i)%nat /\ mem out = pre ++ drop i o ++ 0 :: s.
Proof.
  intros H. exists (A ++ out ++ take (i - length out) (drop (length out) (o ++ 0 :: s))). split.
  - rewrite !length_app, length_take, length_drop, length_app. cbn. lia.
  - unfold mem. rewrite <- !app_assoc. do 2 f_equal.
    rewrite <- (take_drop (i - length out) (drop (length out) (o ++ 0 :: s))) at 1.
    rewrite drop_drop. replace (length out + (i - length out))%nat with i by lia.
    f_equal. apply drop_app_le. lia.
Qed.

Lemma mem_read out i k x :
  (length out <= i <= length o)%nat -> (drop i o ++ 0 :: s) !! k = Some x ->
  rd (mem out) (length A + i + k) = Ret x.
Proof.
  intros H Hk. destruct (mem_view out i H) as (pre & Hpre & ->). rewrite <- Hpre. now apply rd_app_r.
Qed.

(** A round of the loop reads a token and writes what it stands for. *)
Lemma round_token flags out i c r n bs :
  text o -> (length out <= i)%nat -> drop i o = c :: r -> token flags c r = (n, bs) ->
  getstr_round flags (mem out) (length A + i) (length A + length out) =
  Ret (mem (out ++ default [at0 o (length out)] bs), (length A + (i + n))%nat,
       (length A + length (out ++ default [at0 o (length out)] bs))%nat).
Proof.
  intros Ho Hi Hd Ht.
  assert (i < length o)%nat as Hlt.
  { apply (f_equal length) in Hd. rewrite length_drop in Hd. cbn in Hd. lia. }
  destruct (mem_view out i ltac:(lia)) as (pre & Hpre & Hm). rewrite Hd in Hm.
  assert (text r) as Hr.
  { assert (text (c :: r)) as H by (rewrite <- Hd; now apply Forall_drop). now inversion H. }
  destruct (token_bounds _ _ _ _ _ Ht) as [Hn Hbs].
  assert (length r = (length o - i - 1)%nat) as Hlr.
  { apply (f_equal length) in Hd. rewrite length_drop in Hd. cbn in Hd. lia. }
  rewrite length_app, Nat.add_assoc, (Nat.add_assoc (length A)), <- Hpre. unfold getstr_round.
  assert (forall k x, (c :: r ++ 0 :: s) !! k = Some x -> rd (mem out) (length pre + k) = Ret x) as Hrd
    by (intros k x Hk; rewrite Hpre; apply mem_read; [lia | now rewrite Hd]).
  assert (rd (mem out) (length pre) = Ret c) as ->
    by (rewrite <- (Nat.add_0_r (length pre)); now apply Hrd).
  assert (rd (mem out) (length pre + 1) = Ret (at0 r 0)) as Hrd1
    by (apply Hrd; unfold at0; now destruct r).
  cbn [mbind ub_bind]. unfold token in Ht.
  destruct (_ && (c =? CR)).
  { rewrite Hrd1. cbn [mbind ub_bind]. rewrite mem_write by lia. injection Ht as <- <-. cbn.
    do 2 f_equal; [f_equal; case_goal; lia | lia]. }
  destruct (_ && (c =? LF)).
  { rewrite Hrd1. cbn [mbind ub_bind]. rewrite mem_write by lia. injection Ht as <- <-. cbn.
    do 2 f_equal; [f_equal; case_goal; lia | lia]. }
  destruct (_ && (c =? AMP)) eqn:Ea.
  2: { rewrite mem_write by lia. injection Ht as <- <-. cbn. do 2 f_equal; [f_equal|]; lia. }
  boolprop. subst c. rewrite Hrd1. cbn [mbind ub_bind].
  destruct (at0 r 0 =? HASH) eqn:Eh; boolprop.
  - assert (exists r1, r = HASH :: r1) as [r1 ->].
    { unfold at0 in Eh. destruct r; cbn in Eh; [discriminate | subst; eauto]. }
    rewrite Hm at 1. cbn [app].
    rewrite GetCharacterRef_spec by now inversion Hr. cbn [skipn] in Ht. rewrite drop_0 in Ht.
    cbn [mbind ub_bind]. destruct (char_ref r1) as [[k cs]|]; injection Ht as <- <-; cbn [mbind option_bind].
    + specialize (Hbs 0). cbn [default from_option id] in *. rewrite mem_write_all by lia. reflexivity.
    + rewrite mem_write by lia. cbn. do 2 f_equal; [f_equal|]; lia.
  - rewrite Hm at 1. cbn [app]. rewrite find_entity_spec by (exact Hr || exact entities_text).
    cbn [mbind ub_bind]. destruct (find _ _) as [e|]; injection Ht as <- <-.
    + rewrite mem_write by lia. cbn. do 2 f_equal; lia.
    + cbn [default from_option]. rewrite <- mem_stale by lia. cbn. do 2 f_equal; [f_equal|]; lia.
Qed.

Lemma loop_decode flags fuel out i :
  text o -> (length out <= i <= length o)%nat -> (length o - i <= fuel)%nat ->
  let res := out ++ decode_from fuel flags o (length out) (drop i o) in
  getstr_loop fuel flags (mem out) (length A + i) (length A + length out) (length A + length o) =
    Ret (mem res, (length A + length res)%nat) /\ (length res <= length o)%nat.
Proof.
  intros Ho. revert out i. induction fuel as [|fuel IH]; intros out i Hi Hf; cbn zeta.
  - assert (i = length o) as -> by lia. rewrite drop_all. cbn. rewrite app_nil_r.
    rewrite decide_False by lia. split; [reflexivity | lia].
  - destruct (drop i o) as [|c r] eqn:Ed; cbn [getstr_loop decode_from].
    + apply (f_equal length) in Ed. rewrite length_drop in Ed. cbn in Ed.
      rewrite app_nil_r, decide_False by lia. split; [reflexivity | lia].
    + assert (i + S (length r) = length o)%nat as Hl
        by (apply (f_equal length) in Ed; rewrite length_drop in Ed; cbn in Ed; lia).
      rewrite decide_True by lia. destruct (token flags c r) as [n bs] eqn:Et.
      destruct (token_bounds _ _ _ _ _ Et) as [Hn Hb]. specialize (Hb (at0 o (length out))).
      rewrite (round_token _ _ _ _ _ _ _ Ho (proj1 Hi) Ed Et). cbn [mbind ub_bind].
      set (out' := out ++ default [at0 o (length out)] bs) in *.
      assert (length out' = length out + length (default [at0 o (length out)] bs))%nat as Hlo
        by (unfold out'; apply length_app).
      rewrite <- Ed, drop_drop, <- Hlo, app_assoc. apply IH; lia.
Qed.

(** Writing does not reach what follows. *)
Lemma mem_drop out k :
  (length A + length out <= k)%nat -> drop k (mem out) = drop k (A ++ o ++ 0 :: s).
Proof.
  intros H. unfold mem. rewrite !(drop_app_ge A), (drop_app_ge out) by lia.
  rewrite drop_drop. f_equal. lia.
Qed.

Lemma mem_length out : (length out <= S (length o))%nat -> length (mem out) = length (A ++ o ++ 0 :: s).
Proof. intros H. unfold mem. rewrite !length_app, length_drop, length_app. cbn [length]. lia. Qed.

Lemma mem_take out : take (length A) (mem out) = A.
Proof. apply take_app_length. Qed.

(** [collapse_loop] over the text [o]. *)
Lemma skip_space_spec l t p :
  text l -> exists k, (k <= length l)%nat /\ skip_lead l = drop k l /\
    skip_space (l ++ 0 :: t) p None = Ret ((p + k)%nat, None) /\
    (forall c r, drop k l = c :: r -> IsWhiteSpace c = false) /\
    (forall c r, l = c :: r -> IsWhiteSpace c = true -> (0 < k)%nat) /\
    collapse_from true l = (if drop k l is [] then [] else 32 :: collapse_from false (drop k l)).
Proof.
  intros Hl. revert p. induction Hl as [|c l Hc _ IH]; intros p.
  - exists O. cbn. rewrite Nat.add_0_r. repeat split; easy || lia.
  - cbn [skip_lead skip_space app collapse_from]. destruct (IsWhiteSpace c) eqn:Ew.
    + destruct (IH (S p)) as (k & Hk & Hs & Hp & Hn & _ & Hf). exists (S k). cbn [length skipn mbind ub_bind].
      rewrite Hp. repeat split; try assumption; try lia. do 2 f_equal. lia.
    + exists O. rewrite Nat.add_0_r. cbn [skipn app].
      split_and!; [lia | reflexivity.. | | | cbn; now rewrite Ew]; intros c' r [= <- <-]; congruence.
Qed.

(** A round at white space skips to the next word. *)
Lemma collapse_space_round fuel out i c r :
  text o -> (length out <= i)%nat -> drop i o = c :: r -> IsWhiteSpace c = true ->
  exists k, (0 < k <= S (length r))%nat /\
    collapse_from false (c :: r) =
      (if drop k (c :: r) is [] then [] else 32 :: collapse_from false (drop k (c :: r))) /\
    (forall x r', drop k (c :: r) = x :: r' -> IsWhiteSpace x = false) /\
    collapse_loop (S fuel) (mem out) (length A + i) (length A + length out) =
      match drop k (c :: r) with
      | [] => Ret (mem (out ++ [0]))
      | x :: _ => collapse_loop fuel (mem (out ++ [32; x])) (length A + S (i + k))
                    (length A + length (out ++ [32; x]))
      end.
Proof.
  intros Ho Hi Ed Ew.
  assert (i + S (length r) = length o)%nat as Hl
    by (apply (f_equal length) in Ed; rewrite length_drop in Ed; cbn in Ed; lia).
  assert (text (c :: r)) as Ht by (rewrite <- Ed; now apply Forall_drop).
  destruct (mem_view out i ltac:(lia)) as (pre & Hpre & Hm). rewrite Ed in Hm.
  pose proof (fun k x => mem_read out i k x ltac:(lia)) as Hrd. rewrite Ed in Hrd.
  destruct (skip_space_spec (c :: r) s (length A + i) Ht) as (k & Hk & _ & Hsk & Hnw & Hpos & Hcf).
  exists k. split; [split; [now apply (Hpos c r) | exact Hk]|].
  cbn [collapse_from] in Hcf |- *. rewrite Ew in Hcf |- *. split; [exact Hcf|]. split; [exact Hnw|].
  cbn [collapse_loop]. assert (rd (mem out) (length A + i) = Ret c) as ->
    by (rewrite <- (Nat.add_0_r (length A + i)); now apply Hrd).
  cbn [mbind ub_bind]. destruct (c =? 0) eqn:E0; boolprop; [now inversion Ht|]. rewrite Ew.
  unfold SkipWhiteSpace. rewrite Hm, <- Hpre at 1. rewrite drop_app_length, Hsk. cbn [mbind ub_bind].
  specialize (Hpos c r eq_refl Ew). destruct (drop k (c :: r)) as [|x r'] eqn:Ek.
  - assert (k = S (length r)) as -> by (apply (f_equal length) in Ek; rewrite length_drop in Ek; cbn in Ek, Hk; lia).
    rewrite (Hrd _ 0) by (rewrite lookup_app_r, Nat.sub_diag by (cbn; lia); reflexivity).
    cbn. apply mem_write. lia.
  - assert ((c :: r) !! k = Some x) as Hx
      by (apply (f_equal (fun l => l !! O)) in Ek; now rewrite lookup_drop, Nat.add_0_r in Ek).
    rewrite (Hrd k x) by now apply lookup_app_l_Some. cbn [mbind ub_bind].
    assert (x <> 0) as Hx0 by (eapply Forall_lookup_1 in Hx; [exact Hx | exact Ht]).
    destruct (x =? 0) eqn:E1; boolprop; [congruence|].
    pose proof (mem_write_all out [32; x] ltac:(cbn; lia)) as Hw. cbn [wrs] in Hw.
    rewrite mem_write in Hw |- * by lia. cbn [mbind ub_bind] in Hw |- *.
    destruct (wr _ _ x) as [|m']; cbn [mbind ub_bind] in Hw |- *; [discriminate|]. injection Hw as ->.
    rewrite length_app. f_equal; cbn [length]; lia.
Qed.

Lemma collapse_loop_spec fuel out i :
  text o -> (length out <= i <= length o)%nat -> (length o - i < fuel)%nat ->
  let res := out ++ collapse_from false (drop i o) in
  collapse_loop fuel (mem out) (length A + i) (length A + length out) = Ret (mem (res ++ [0])) /\
  (length res <= length o)%nat.
Proof.
  intros Ho. revert out i. induction fuel as [|fuel IH]; intros out i Hi Hf; [lia|]. cbn zeta.
  pose proof (fun k x => mem_read out i k x ltac:(lia)) as Hrd.
  destruct (drop i o) as [|c r] eqn:Ed.
  { cbn [collapse_loop]. rewrite <- (Nat.add_0_r (length A + i)), (Hrd O 0 eq_refl). cbn.
    rewrite mem_write, app_nil_r by lia. split; [reflexivity | lia]. }
  assert (i + S (length r) = length o)%nat as Hl
    by (apply (f_equal length) in Ed; rewrite length_drop in Ed; cbn in Ed; lia).
  assert (text (c :: r)) as Ht by (rewrite <- Ed; now apply Forall_drop).
  destruct (IsWhiteSpace c) eqn:Ew.
  - destruct (collapse_space_round fuel out i c r Ho (proj1 Hi) Ed Ew) as (k & Hk & -> & Hnw & ->).
    destruct (drop k (c :: r)) as [|x r'] eqn:Ek; [rewrite app_nil_r; split; [reflexivity | lia]|].
    assert (k + S (length r') = S (length r))%nat as Hlk
      by (apply (f_equal length) in Ek; rewrite length_drop in Ek; cbn in Ek; lia).
    assert (drop (S (i + k)) o = r') as Hd
      by (rewrite <- Nat.add_1_r, <- drop_drop, <- drop_drop, Ed, Ek; reflexivity).
    destruct (IH (out ++ [32; x]) (S (i + k))) as [IH1 IH2]; [rewrite length_app; cbn; lia | lia |].
    rewrite Hd, <- !app_assoc in *. cbn [collapse_from]. rewrite (Hnw _ _ eq_refl). auto.
  - cbn [collapse_loop]. assert (rd (mem out) (length A + i) = Ret c) as ->
      by (rewrite <- (Nat.add_0_r (length A + i)); now apply Hrd).
    cbn [mbind ub_bind]. destruct (c =? 0) eqn:E0; boolprop; [now inversion Ht|]. rewrite Ew.
    rewrite mem_write by lia. cbn [mbind ub_bind collapse_from]. rewrite Ew. cbn [app].
    assert (drop (S i) o = r) as Hd by (rewrite <- Nat.add_1_r, <- drop_drop, Ed; reflexivity).
    destruct (IH (out ++ [c]) (S i)) as [IH1 IH2]; [rewrite length_app; cbn; lia | lia |].
    rewrite Hd, <- !app_assoc, length_app in *. cbn [app length] in *. split; [|exact IH2].
    rewrite <- IH1. f_equal; lia.
Qed.
End InPlace.

Lemma until_nul_split l r : exists t, l ++ 0 :: r = until_nul l ++ 0 :: t.
Proof.
  induction l as [|c l [t IH]]; cbn; [eauto|]. destruct (c =? 0) eqn:E; boolprop; cbn; [subst; eauto|].
  rewrite IH. eauto.
Qed.
Lemma until_nul_text l : text (until_nul l).
Proof. induction l as [|c l IH]; cbn; [constructor|]. case_goal; boolprop; now constructor. Qed.
Lemma until_nul_id l : text l -> until_nul l = l.
Proof. induction 1 as [|c l Hc _ IH]; cbn; [reflexivity|]. case_goal; boolprop; congruence. Qed.
Lemma until_nul_app l r : text l -> until_nul (l ++ 0 :: r) = l.
Proof. induction 1 as [|c l Hc _ IH]; cbn; [reflexivity|]. case_goal; boolprop; congruence. Qed.

Lemma decode_none l : text l -> decode 0 l = l.
Proof.
  intros _. unfold decode.
  enough (forall o k fuel, (length l <= fuel)%nat -> decode_from fuel 0 o k l = l) as H by auto.
  intros o. induction l as [|c l IH]; intros k [|fuel] Hf; cbn in *; try reflexivity; [lia|].
  f_equal. apply IH. lia.
Qed.

Lemma decode_length flags o : text o -> (length (decode flags o) <= length o)%nat.
Proof.
  intros Ho. destruct (loop_decode [] o [] flags (length o) [] 0 Ho) as [_ H]; cbn; try lia.
  exact H.
Qed.

Lemma collapse_text b l : text l -> text (collapse_from b l).
Proof.
  intros Hl. revert b. induction Hl as [|c l Hc _ IH]; intros b; cbn; [constructor|].
  case_goal; [apply IH|]. destruct b; repeat constructor; try easy; apply IH.
Qed.

(** [CollapseWhitespace] of a string [d]. *)
Lemma CollapseWhitespace_spec A d t :
  text d -> exists m start, CollapseWhitespace (A ++ d ++ 0 :: t) (length A) = Ret (m, start) /\
    c_string m start = collapse d /\ (length A <= start)%nat /\ take (length A) m = A /\
    (forall k, (length A + length d < k)%nat -> drop k m = drop k (A ++ d ++ 0 :: t)) /\
    (start + length (collapse d) <= length A + length d)%nat /\
    m !! (start + length (collapse d))%nat = Some 0 /\ length m = length (A ++ d ++ 0 :: t).
Proof.
  intros Hd. unfold CollapseWhitespace, SkipWhiteSpace. rewrite drop_app_length.
  destruct (skip_space_spec d t (length A) Hd) as (j & Hj & Hs & Hp & Hn & _ & _).
  rewrite Hp. cbn [mbind ub_bind].
  assert (A ++ d ++ 0 :: t = (A ++ take j d) ++ drop j d ++ 0 :: t) as Em
    by (rewrite <- app_assoc, (app_assoc (take j d)), take_drop; reflexivity).
  assert (length (A ++ take j d) = length A + j)%nat as Hl by (rewrite length_app, length_take; lia).
  rewrite Em, <- Hl. unfold collapse. rewrite Hs.
  destruct (drop j d) as [|c r] eqn:Ed.
  - exists ((A ++ take j d) ++ [] ++ 0 :: t), (length (A ++ take j d)). split_and!.
    + cbn [app]. unfold rd. rewrite list_lookup_middle by reflexivity. reflexivity.
    + unfold c_string. now rewrite drop_app_length.
    + lia.
    + rewrite <- app_assoc. apply take_app_length.
    + reflexivity.
    + cbn. lia.
    + cbn [collapse_from length]. rewrite Nat.add_0_r. now apply list_lookup_middle.
    + reflexivity.
  - assert (text (c :: r)) as Ht by (rewrite <- Ed; now apply Forall_drop).
    destruct (collapse_loop_spec (A ++ take j d) (c :: r) t (length ((A ++ take j d) ++ (c :: r) ++ 0 :: t))
      [] 0 Ht) as [Hloop Hlen]; [cbn; lia | rewrite !length_app; cbn; lia |].
    rewrite mem_start in Hloop. cbn [length app skipn] in Hloop, Hlen. rewrite Nat.add_0_r in Hloop.
    exists (mem (A ++ take j d) (c :: r) t (collapse_from false (c :: r) ++ [0])), (length (A ++ take j d)).
    assert (j + S (length r) = length d)%nat
      by (apply (f_equal length) in Ed; rewrite length_drop in Ed; cbn in Ed; lia).
    split_and!.
    + cbn [app] in *. unfold rd. rewrite list_lookup_middle by reflexivity. cbn [mbind ub_bind].
      destruct (c =? 0) eqn:E0; boolprop; [now inversion Ht|]. now rewrite Hloop.
    + unfold c_string, mem. rewrite drop_app_length, <- app_assoc. apply until_nul_app.
      now apply collapse_text.
    + lia.
    + unfold mem. rewrite <- app_assoc. apply take_app_length.
    + intros k Hk. apply mem_drop. rewrite Hl, length_app. cbn [length] in *. lia.
    + cbn [length] in *. lia.
    + unfold mem. rewrite lookup_app_r, Nat.add_comm, Nat.add_sub, <- app_assoc by lia.
      now apply list_lookup_middle.
    + apply mem_length. rewrite length_app. cbn [length] in *. lia.
Qed.

Lemma flag_facts flags :
  0 <= flags < Z.of_nat 8 -> has (Z.lor flags NEEDS_FLUSH) NEEDS_FLUSH = true /\
    Z.lxor (Z.lor flags NEEDS_FLUSH) NEEDS_FLUSH = flags /\ Z.land flags NEEDS_DELETE = 0.
Proof. revert flags. apply small_case. repeat constructor. Qed.

Lemma decode_pass A o s flags :
  text o ->
  (if flags =? 0 then Ret (A ++ o ++ 0 :: s)
   else '(m, q) ← getstr_loop (length A + length o - length A) flags (A ++ o ++ 0 :: s)
                    (length A) (length A) (length A + length o)%nat;
        wr m q 0) =
  Ret (mem A o s (decode flags o ++ [0])).
Proof.
  intros Ho. destruct (flags =? 0) eqn:E; boolprop.
  - subst flags. rewrite decode_none by exact Ho. unfold mem. f_equal. f_equal.
    rewrite length_app, <- app_assoc, drop_app_ge by (cbn; lia).
    replace (length o + length [0%Z] - length o)%nat with 1%nat by (cbn; lia). reflexivity.
  - replace (length A + length o - length A)%nat with (length o) by lia.
    destruct (loop_decode A o s flags (length o) [] 0 Ho) as [Hl Hlen]; [cbn; lia..|].
    rewrite mem_start in Hl. cbn [length app skipn] in Hl, Hlen. rewrite Nat.add_0_r in Hl.
    rewrite Hl. cbn [mbind ub_bind]. now apply mem_write.
Qed.

Lemma wr_end (A o s : list Z) x c :
  wr (A ++ o ++ x :: s) (length A + length o) c = Ret (A ++ o ++ c :: s).
Proof.
  unfold wr. rewrite decide_True by (rewrite !length_app; cbn; lia).
  now rewrite insert_app_r, insert_app_r_alt, Nat.sub_diag by lia.
Qed.

Lemma drop_end (A o s : list Z) x : drop (length A + length o + 1) (A ++ o ++ x :: s) = s.
Proof.
  rewrite <- Nat.add_assoc, <- drop_drop, drop_app_length, <- drop_drop, drop_app_length. reflexivity.
Qed.

Lemma until_nul_length l : (length (until_nul l) <= length l)%nat.
Proof. induction l as [|c l IH]; cbn; [lia|]. case_goal; cbn; lia. Qed.
Lemma collapse_from_length b l :
  (length (collapse_from b l) <= length l + (if b then 1 else 0))%nat.
Proof.
  revert b. induction l as [|c l IH]; intros b; cbn; [lia|]. pose proof (IH true) as H1. pose proof (IH false) as H2. cbn in H1, H2.
  case_goal; [lia|]. rewrite length_app. cbn. destruct b; cbn; lia.
Qed.
Lemma skip_lead_length l : (length (skip_lead l) <= length l)%nat.
Proof. induction l as [|c l IH]; cbn; [lia|]. case_goal; cbn; lia. Qed.

Lemma pair_text_length flags o : text o -> (length (pair_text flags o) <= length o)%nat.
Proof.
  intros Ho. pose proof (decode_length flags o Ho). pose proof (until_nul_length (decode flags o)).
  unfold pair_text. case_goal; [|lia]. unfold collapse.
  pose proof (collapse_from_length false (skip_lead (until_nul (decode flags o)))) as H1.
  rewrite Nat.add_0_r in H1.
  pose proof (skip_lead_length (until_nul (decode flags o))). lia.
Qed.

Lemma GetStr_spec A o x s flags :
  text o -> 0 <= flags < 8 ->
  exists sp m, GetStr (Set_ (length A) (length A + length o) flags) (A ++ o ++ x :: s) = Ret (sp, m) /\
    c_string m (_start sp) = pair_text flags o /\ (length (pair_text flags o) <= length o)%nat /\
    take (length A) m = A /\ drop (length A + length o + 1) m = s /\ _flags sp = 0 /\
    (length A <= _start sp)%nat /\ (_start sp + length (pair_text flags o) <= length A + length o)%nat /\
    m !! (_start sp + length (pair_text flags o))%nat = Some 0 /\ _end sp = (length A + length o)%nat /\
    length m = length (A ++ o ++ x :: s).
Proof.
  intros Ho Hf. destruct (flag_facts flags Hf) as (F1 & F2 & F3).
  unfold GetStr at 1, Set_. cbn [_flags _start _end]. rewrite F1, F2, F3, wr_end. cbn [mbind ub_bind].
  rewrite decode_pass by exact Ho. cbn [mbind ub_bind].
  pose proof (decode_length flags o Ho) as Hlen. set (d := decode flags o) in *.
  assert (drop (length A + length o + 1) (mem A o s (d ++ [0])) = s) as Hend.
  { rewrite mem_drop by (rewrite length_app; cbn; lia). apply drop_end. }
  destruct (until_nul_split d (drop (length (d ++ [0])) (o ++ 0 :: s))) as [t Et].
  assert (length (mem A o s (d ++ [0])) = length (A ++ o ++ x :: s)) as Hlen'.
  { rewrite mem_length by (rewrite length_app; cbn; lia). now rewrite !length_app. }
  assert (mem A o s (d ++ [0]) = A ++ until_nul d ++ 0 :: t) as Em
    by (unfold mem; rewrite <- Et, <- app_assoc; reflexivity).
  pose proof (pair_text_length flags o Ho) as Hpl. unfold pair_text in *. fold d in Hpl |- *.
  destruct (has flags NEEDS_WHITESPACE_COLLAPSING).
  - destruct (CollapseWhitespace_spec A (until_nul d) t (until_nul_text d)) as (m & st & Hm & Hc & Hst & Ht & Hd & Hsl & Hn & Hlm).
    pose proof (until_nul_length d). rewrite Em, Hm. cbn [mbind ub_bind].
    assert (drop (length A + length o + 1) m = s) as Hs.
    { rewrite Hd by (pose proof (until_nul_length d); lia). now rewrite <- Em. }
    eexists _, m. split; [reflexivity|]. cbn [_start _end]. split_and!; auto; [lia|].
    now rewrite Hlm, <- Em.
  - eexists _, _. split; [reflexivity|]. cbn [_start]. rewrite Em in Hend, Hlen' |- *. split_and!; auto.
    + unfold c_string. rewrite drop_app_length. apply until_nul_app, until_nul_text.
    + apply take_app_length.
    + pose proof (until_nul_length d). lia.
    + rewrite lookup_app_r, Nat.add_comm, Nat.add_sub by lia. now apply list_lookup_middle.
Qed.

(** ** Printing *)

Definition escaped (restricted : bool) (c : Z) : list Z :=
  if (0 <? c) && (c <? ENTITY_RANGE) && entity_flag restricted c then print_entity c entities else [c].

Lemma toPrint_all n : Z.of_nat n <= INT32_MAX -> toPrint n = n.
Proof.
  intros H. unfold toPrint. destruct (INT32_MAX <? Z.of_nat n) eqn:E; boolprop; lia.
Qed.

Lemma write_once (run : list Z) : Z.of_nat (length run) <= INT32_MAX -> take (toPrint (length run)) run = run.
Proof. intros H. rewrite toPrint_all by exact H. apply firstn_all. Qed.

Lemma write_run_all run : Z.of_nat (length run) <= INT32_MAX -> write_run (length run) run = run.
Proof.
  intros H. destruct run as [|c run]; [reflexivity|]. cbn [write_run length].
  rewrite toPrint_all by exact H. cbn [firstn skipn]. rewrite firstn_all, skipn_all.
  destruct (length run); cbn; now rewrite app_nil_r.
Qed.

Lemma print_loop_spec restricted l run :
  Z.of_nat (length run + length l) <= INT32_MAX ->
  print_loop restricted l run = run ++ concat (escaped restricted <$> l).
Proof.
  revert run. induction l as [|c l IH]; intros run H; cbn [print_loop fmap list_fmap concat length] in *.
  - rewrite write_once by lia. now rewrite app_nil_r.
  - unfold escaped at 1. destruct (_ && entity_flag restricted c).
    + rewrite write_run_all, IH by (cbn; lia). reflexivity.
    + rewrite IH by (rewrite length_app; cbn; lia). now rewrite <- app_assoc.
Qed.

(** The two ways text is printed and the tag that ends it. *)
Definition printing : list (bool * Z) := [(true, 60); (false, DOUBLE_QUOTE)].

Lemma escaped_cases restricted e c :
  (restricted, e) ∈ printing ->
  (exists x, x ∈ entities /\ value x = c /\ escaped restricted c = AMP :: pattern x ++ [SEMICOLON]) \/
  (escaped restricted c = [c] /\ c <> AMP /\ c <> e).
Proof.
  intros Hp. destruct (decide (c ∈ value <$> entities)) as [Hin|Hout].
  - apply list_elem_of_fmap in Hin as (x & -> & Hx). unfold entities in Hx.
    unfold printing in Hp. rewrite !elem_of_cons, elem_of_nil in Hp. rewrite !elem_of_cons, elem_of_nil in Hx.
    destruct Hp as [[= -> ->] | [[= -> ->] | []]];
      destruct Hx as [-> | [-> | [-> | [-> | [-> | []]]]]];
      first [ right; split; [reflexivity | split; discriminate]
            | left; eexists; split; [|split; reflexivity]; unfold entities; rewrite !elem_of_cons; tauto ].
  - right. assert (c <> 34 /\ c <> 38 /\ c <> 39 /\ c <> 60 /\ c <> 62) as Hne.
    { repeat split; intros ->; apply Hout; unfold entities; cbn [fmap list_fmap value];
        rewrite !elem_of_cons; tauto. }
    assert (entity_flag restricted c = false) as Hf.
    { unfold entity_flag, entities, AMP, DOUBLE_QUOTE, SINGLE_QUOTE. cbn [existsb value].
      destruct restricted; now rewrite !(proj2 (Z.eqb_neq _ _)) by lia. }
    unfold escaped. rewrite Hf, andb_false_r. unfold printing in Hp. rewrite !elem_of_cons, elem_of_nil in Hp.
    unfold AMP. destruct Hp as [[= -> ->] | [[= -> ->] | []]]; unfold DOUBLE_QUOTE; intuition congruence.
Qed.

Lemma token_entity x rest :
  x ∈ entities ->
  token TEXT_ELEMENT AMP (pattern x ++ SEMICOLON :: rest) = ((length (pattern x) + 2)%nat, Some [value x]).
Proof.
  unfold entities. rewrite !elem_of_cons, elem_of_nil.
  intros [-> | [-> | [-> | [-> | [-> | []]]]]]; reflexivity.
Qed.

Lemma token_plain c r :
  c <> AMP -> c <> CR -> at0 r 0 <> CR -> token TEXT_ELEMENT c r = (1%nat, Some [c]).
Proof.
  intros Ha Hc Hr. unfold token.
  rewrite (proj2 (Z.eqb_neq _ _) Ha), (proj2 (Z.eqb_neq _ _) Hc), (proj2 (Z.eqb_neq _ _) Hr), !andb_false_r.
  destruct (has _ _ && (c =? LF)) eqn:E; [|reflexivity]. boolprop. now subst.
Qed.

(** Printed text is decoded. *)
Lemma decode_escaped restricted e l fuel o k :
  (restricted, e) ∈ printing -> CR ∉ l ->
  (length (concat (escaped restricted <$> l)) <= fuel)%nat ->
  decode_from fuel TEXT_ELEMENT o k (concat (escaped restricted <$> l)) = l.
Proof.
  intros Hp. revert fuel k. induction l as [|c l IH]; intros fuel k Hcr Hf; [now destruct fuel|].
  apply not_elem_of_cons in Hcr as [Hc Hcr]. cbn [fmap list_fmap concat] in *.
  set (rest := concat (escaped restricted <$> l)) in *.
  assert (at0 rest 0 <> CR) as Hrest.
  { unfold rest. destruct l as [|d l']; cbn [fmap list_fmap concat]; [discriminate|].
    apply not_elem_of_cons in Hcr as [Hd _].
    destruct (escaped_cases restricted e d Hp) as [(x & _ & _ & ->) | (-> & _)]; cbn; congruence || discriminate. }
  destruct (escaped_cases restricted e c Hp) as [(x & Hx & Hv & Ee) | (Ee & Ha & _)]; rewrite Ee in *.
  - destruct fuel as [|fuel]; [cbn in Hf; lia|]. rewrite <- app_comm_cons, <- app_assoc in *. cbn [app] in *.
    cbn [decode_from]. rewrite token_entity by exact Hx. cbn [default from_option id app]. rewrite Hv. f_equal.
    rewrite (Nat.add_comm (length (pattern x))). cbn [Nat.add skipn]. rewrite cons_middle, app_assoc.
    replace (S (length (pattern x))) with (length (pattern x ++ [SEMICOLON])) by (rewrite length_app; cbn; lia).
    rewrite drop_app_length. apply IH; [exact Hcr|]. cbn in Hf. rewrite length_app in Hf. cbn in Hf. lia.
  - destruct fuel as [|fuel]; [cbn in Hf; lia|]. cbn [app decode_from].
    rewrite token_plain by (congruence || assumption). cbn [default from_option id app skipn].
    rewrite drop_0. f_equal. apply IH; [exact Hcr|]. cbn in Hf. lia.
Qed.

(** ** Finding text *)

(** The number of line ends. *)
Fixpoint lines (l : list Z) : Z :=
  match l with [] => 0 | c :: l => (if c =? LF then 1 else 0) + lines l end.

Lemma lines_app a b : lines (a ++ b) = lines a + lines b.
Proof. induction a as [|c a IH]; cbn; lia. Qed.
Lemma lines_bound l : 0 <= lines l <= Z.of_nat (length l).
Proof. induction l as [|c l IH]; cbn [lines length]; [lia|]. case_goal; lia. Qed.

Lemma parse_text_spec P e s p line :
  text P -> e ∉ P -> e <> 0 -> INT32_MIN <= line -> line + lines P <= INT32_MAX ->
  parse_text (P ++ e :: s) p [e] line = Ret (Some (p + length P)%nat, line + lines P).
Proof.
  intros HP. revert p line. induction HP as [|c P Hc _ IH]; intros p line He He0 Hmin Hmax;
    cbn [app parse_text lines length head] in *.
  - destruct (e =? 0) eqn:E; boolprop; [congruence|]. rewrite bool_decide_true by reflexivity.
    cbn. rewrite Z.eqb_refl, Nat.add_0_r, Z.add_0_r. now destruct s.
  - apply not_elem_of_cons in He as [Hce He].
    destruct (c =? 0) eqn:E; boolprop; [congruence|]. rewrite bool_decide_false by congruence.
    cbn [mbind ub_bind]. pose proof (lines_bound P). destruct (c =? LF).
    + unfold chk32, in_i32. rewrite (proj2 (Z.leb_le _ _)), (proj2 (Z.leb_le _ _)) by lia. cbn [andb mbind ub_bind].
      rewrite IH by (assumption || lia). apply f_equal, f_equal2; [f_equal|]; lia.
    + cbn [mbind ub_bind]. rewrite IH by (assumption || lia). apply f_equal, f_equal2; [f_equal|]; lia.
Qed.

Lemma printed_facts restricted e l :
  (restricted, e) ∈ printing -> text l ->
  let P := concat (escaped restricted <$> l) in text P /\ (e ∉ P) /\ lines P = lines l.
Proof.
  intros Hp Hl. induction Hl as [|c l Hc _ (IH1 & IH2 & IH3)]; cbn [fmap list_fmap concat].
  { split; [constructor|]. split; [apply not_elem_of_nil | reflexivity]. }
  assert (text (escaped restricted c) /\ (e ∉ escaped restricted c) /\
          lines (escaped restricted c) = if c =? LF then 1 else 0) as (H1 & H2 & H3).
  { destruct (escaped_cases restricted e c Hp) as [(x & Hx & <- & ->) | (-> & _ & Hne)].
    - unfold entities in Hx. rewrite !elem_of_cons, elem_of_nil in Hx.
      unfold printing in Hp. rewrite !elem_of_cons, elem_of_nil in Hp.
      destruct Hp as [[= -> ->] | [[= -> ->] | []]];
        destruct Hx as [-> | [-> | [-> | [-> | [-> | []]]]]];
        (split; [|split; [|reflexivity]]); [apply (bool_decide_unpack _); exact I..].
    - split; [now repeat constructor|]. split; [set_solver|]. cbn. lia. }
  split; [now apply Forall_app|]. split; [set_solver|]. rewrite lines_app, H3, IH3. reflexivity.
Qed.

Lemma printing_end restricted e : (restricted, e) ∈ printing -> e <> 0.
Proof.
  unfold printing. rewrite !elem_of_cons, elem_of_nil.
  intros [[= -> ->] | [[= -> ->] | []]]; discriminate.
Qed.

(** ** References made of digits *)

Lemma digit_char hex c d :
  digit_of hex c = Some d -> c <> 0 /\ c <> SEMICOLON /\ c <> HASH /\ c <> 120.
Proof.
  unfold digit_of, SEMICOLON, HASH. repeat case_goal; intros [= <-]; boolprop; lia.
Qed.

Lemma digits_chars hex w ds :
  mapM (digit_of hex) w = Some ds ->
  Forall (fun c => c <> 0 /\ c <> SEMICOLON /\ c <> HASH /\ c <> 120) w.
Proof.
  intros H. apply mapM_Some in H. induction H as [|c d w ds Hd _ IH]; constructor; [|exact IH].
  eapply digit_char, Hd.
Qed.

Lemma take_until_none t l : Forall (fun c => c <> t) l -> take_until t l = l.
Proof. induction 1 as [|c l Hc _ IH]; cbn; [reflexivity|]. case_goal; boolprop; congruence. Qed.

Lemma reference_digits (hex : bool) w rest ds :
  mapM (digit_of hex) (reverse w) = Some ds ->
  reference hex (w ++ SEMICOLON :: rest) =
  u ← code_point (digits_val (if hex then 16 else 10) ds) (digits_sum ds); Some (length w, u).
Proof.
  intros Hd. pose proof (digits_chars _ _ _ Hd) as Hc. unfold reference.
  assert (semicolon_at (w ++ SEMICOLON :: rest) = Some (length w)) as ->.
  { rewrite Forall_reverse in Hc. clear Hd.
    induction Hc as [|c w' (_ & Hs & _) _ IH]; cbn [app semicolon_at length]; [reflexivity|].
    rewrite (proj2 (Z.eqb_neq _ _) Hs), IH. reflexivity. }
  cbn [mbind option_bind]. rewrite take_app_length, take_until_none, Hd; [reflexivity|].
  eapply Forall_impl; [exact Hc|]. cbn. intros c (_ & _ & H1 & H2). now destruct hex.
Qed.

(** ** Properties *)

(** C15. Decoding in place is decoding: whatever the document and the flags, [GetStr] of a
    pair that [ParseText] or [ParseName] set reads and writes inside the text and the byte
    after it only, always ends, and returns the string that the text alone stands
    for (newlines normalised, entities and character references replaced, white space
    collapsed, as the flags ask; an ampersand that starts no entity shows as the byte
    the text has at that position of the result), although it overwrites the text it
    is reading; a second call returns the same. *)
Theorem GetStr_decodes A o x s flags :
  text o -> 0 <= flags < 8 ->
  exists sp m, GetStr (Set_ (length A) (length A + length o) flags) (A ++ o ++ x :: s) = Ret (sp, m) /\
    c_string m (_start sp) = pair_text flags o /\ (length (pair_text flags o) <= length o)%nat /\
    take (length A) m = A /\ drop (length A + length o + 1) m = s /\
    GetStr sp m = Ret (sp, m).
Proof.
  intros Ho Hf. destruct (GetStr_spec A o x s flags Ho Hf) as (sp & m & H1 & H2 & H3 & H4 & H5 & H6 & _).
  exists sp, m. split_and!; try assumption. unfold GetStr. now rewrite H6.
Qed.

(** Printing and reading are inverse: text without NUL and carriage returns that
    [PrintString] wrote, as the content of an element up to the next ['<'] or as an
    attribute up to the quote, is found by [ParseText], which counts its lines, and
    [GetStr] returns it unchanged. *)
Theorem printed_text_reads_back A l s line restricted e :
  text l -> CR ∉ l -> Z.of_nat (length l) <= INT32_MAX ->
  0 <= line -> line + lines l <= INT32_MAX -> (restricted, e) ∈ printing ->
  let P := PrintString true l restricted in
  exists sp next, ParseText (A ++ P ++ e :: s) (length A) [e] TEXT_ELEMENT line =
      Ret (Some (sp, next), line + lines l) /\
    next = (length A + length P + 1)%nat /\
    exists sp' m, GetStr sp (A ++ P ++ e :: s) = Ret (sp', m) /\
      c_string m (_start sp') = l /\ take (length A) m = A /\ drop next m = s.
Proof.
  intros Hl Hcr Hlen Hline Hlines Hp P.
  assert (P = concat (escaped restricted <$> l)) as EP
    by (unfold P, PrintString; now rewrite print_loop_spec by (cbn; lia)).
  destruct (printed_facts restricted e l Hp Hl) as (H1 & H2 & H3). rewrite <- EP in H1, H2, H3.
  eexists _, _. unfold ParseText. rewrite drop_app_length.
  rewrite parse_text_spec by (assumption || rewrite ?H3; (eapply printing_end; eassumption) || range).
  cbn [mbind ub_bind]. split; [now rewrite H3|]. split; [reflexivity|].
  destruct (GetStr_spec A P e s TEXT_ELEMENT H1 ltac:(now split)) as (sp' & m & G1 & G2 & _ & G4 & G5 & _).
  exists sp', m. split; [exact G1|]. split; [|split; assumption]. rewrite G2.
  unfold pair_text, decode. change (has TEXT_ELEMENT NEEDS_WHITESPACE_COLLAPSING) with false.
  rewrite EP, (decode_escaped restricted e) by (assumption || lia). now apply until_nul_id.
Qed.

(** C39. A character reference is read as its digits say: ["&#"] or ["&#x"], digits of that
    radix and a semicolon give the code point in UTF-8 and the pointer behind the
    semicolon, however many digits there are, when the number is at most 0x10FFFF.
    A greater number is refused without overflow, with one exception: digits that
    are a single 1 followed by zeros read as U+10FFFF. *)
Theorem character_reference_exact (hex : bool) pre w rest s ds :
  text rest -> mapM (digit_of hex) (reverse w) = Some ds ->
  let number := digits_val (if hex then 16 else 10) ds in
  let after := (length pre + (if hex then 4 else 3) + length w)%nat in
  GetCharacterRef (pre ++ AMP :: HASH :: ((if hex then [120] else []) ++ w ++ SEMICOLON :: rest) ++ 0 :: s)
    (length pre) =
  Ret (if number <=? MAX_CODE_POINT then Some (after, utf8 number)
       else if digits_sum ds =? 1 then Some (after, utf8 MAX_CODE_POINT) else None).
Proof.
  intros Hr Hd number after. pose proof (digits_chars _ _ _ Hd) as Hc. rewrite Forall_reverse in Hc.
  assert (text (w ++ SEMICOLON :: rest)) as Ht.
  { apply Forall_app. split; [|now constructor]. eapply Forall_impl; [exact Hc|]. cbn. tauto. }
  rewrite GetCharacterRef_spec by (destruct hex; [now constructor | exact Ht]).
  assert (char_ref ((if hex then [120] else []) ++ w ++ SEMICOLON :: rest) =
    '(n, u) ← reference hex (w ++ SEMICOLON :: rest); Some ((n + (if hex then 4 else 3))%nat, utf8 u)) as ->.
  { destruct hex; [reflexivity|]. cbn [app]. destruct w as [|c w]; [reflexivity|].
    inversion_clear Hc as [|? ? (_ & _ & _ & Hx) _]. cbn [app char_ref].
    now rewrite (proj2 (Z.eqb_neq _ _) Hx). }
  rewrite (reference_digits _ _ _ _ Hd). fold number. unfold code_point, after.
  repeat case_goal; cbn; try reflexivity; do 2 apply f_equal; apply f_equal2; lia || reflexivity.
Qed.

(** ** Concrete texts *)

Ltac solve_text := repeat constructor; discriminate.

Lemma GetStr_decodes_witness :
  exists sp m, GetStr (Set_ 3 15 ATTRIBUTE_VALUE) (bytes "<a>x &lt; &#65;</a>" ++ [0]) = Ret (sp, m) /\
    c_string m (_start sp) = bytes "x < A".
Proof.
  destruct (GetStr_decodes (bytes "<a>") (bytes "x &lt; &#65;") 60 (bytes "/a>" ++ [0]) ATTRIBUTE_VALUE)
    as (sp & m & H1 & H2 & _); [solve_text | now split |].
  exists sp, m. split; [exact H1 | rewrite H2; vm_compute; reflexivity].
Defined.

Lemma printed_text_reads_back_witness :
  exists sp next, ParseText (bytes "<t a='" ++ bytes "1 &lt; &quot;2&quot;" ++ DOUBLE_QUOTE :: [0]) 6 [DOUBLE_QUOTE]
      TEXT_ELEMENT 1 = Ret (Some (sp, next), 1) /\
    exists sp' m, GetStr sp (bytes "<t a='" ++ bytes "1 &lt; &quot;2&quot;" ++ DOUBLE_QUOTE :: [0]) = Ret (sp', m) /\
      c_string m (_start sp') = bytes "1 < " ++ [DOUBLE_QUOTE] ++ bytes "2" ++ [DOUBLE_QUOTE].
Proof.
  destruct (printed_text_reads_back (bytes "<t a='") (bytes "1 < " ++ [DOUBLE_QUOTE] ++ bytes "2" ++ [DOUBLE_QUOTE]) [0] 1
    false DOUBLE_QUOTE) as (sp & next & H1 & _ & sp' & m & H2 & H3 & _).
  - solve_text.
  - apply (bool_decide_unpack _). vm_compute. exact I.
  - vm_compute. discriminate.
  - lia.
  - vm_compute. discriminate.
  - apply elem_of_cons. right. apply elem_of_cons. now left.
  - exists sp, next. split; [exact H1|]. exists sp', m. split; [exact H2 | exact H3].
Defined.

Lemma character_reference_exact_witness :
  GetCharacterRef (bytes "a&#x4e2d; b" ++ [0]) 1 = Ret (Some (9%nat, [228; 184; 173])) /\
  GetCharacterRef (bytes "&#1114112;" ++ [0]) 0 = Ret None /\
  GetCharacterRef (bytes "&#x1000000;" ++ [0]) 0 = Ret (Some (11%nat, utf8 0x10FFFF)).
Proof.
  split; [|split].
  - exact (character_reference_exact true (bytes "a") (bytes "4e2d") (bytes " b") [] [13; 2; 14; 4]
      ltac:(solve_text) eq_refl).
  - exact (character_reference_exact false [] (bytes "1114112") [] [] [2; 1; 1; 4; 1; 1; 1]
      ltac:(solve_text) eq_refl).
  - exact (character_reference_exact true [] (bytes "1000000") [] [] [0; 0; 0; 0; 0; 0; 1]
      ltac:(solve_text) eq_refl).
Defined.

(** An ampersand that starts no entity is not copied: what shows in its place is a byte
    of the text that was there before. *)
Example unknown_entity_text : pair_text TEXT_ELEMENT (bytes "&amp;&x") = bytes "&ax".
Proof. reflexivity. Qed.
(** Text before the digits of a reference is ignored. *)
Example last_digits_text : pair_text TEXT_ELEMENT (bytes "&#12#65;z") = bytes "Az".
Proof. reflexivity. Qed.
Example bare_reference_text : pair_text TEXT_ELEMENT (bytes "a&#") = bytes "a#".
Proof. reflexivity. Qed.
