(* ===== verification/XmlDocument.v ===== *)
(** * Parsing XML documents

    [compat/tinyxml2-v34/tinyxml2.cpp]: [XMLDocument::Parse], [LoadFile] and the
    recursive descent below them ([Identify], the [ParseDeep] of every kind of node,
    [ParseAttributes]).  Nodes keep pairs of pointers into the buffer; names are cut
    out of the buffer while it is still being parsed ([Name] writes a NUL behind the
    name), everything else only when it is asked for.

    The parsed nodes are values; the document is the buffer, the error, the line and
    the depth.  Theorems about the parser are in [XmlRefine]. *)

From S2P Require Import Prelude XmlText.

(** ** The document and its nodes *)

Inductive XMLError :=
| XML_SUCCESS | XML_NO_ATTRIBUTE | XML_WRONG_ATTRIBUTE_TYPE | XML_ERROR_FILE_NOT_FOUND
| XML_ERROR_FILE_COULD_NOT_BE_OPENED | XML_ERROR_FILE_READ_ERROR | XML_ERROR_PARSING_ELEMENT
| XML_ERROR_PARSING_ATTRIBUTE | XML_ERROR_PARSING_TEXT | XML_ERROR_PARSING_CDATA
| XML_ERROR_PARSING_COMMENT | XML_ERROR_PARSING_DECLARATION | XML_ERROR_PARSING_UNKNOWN
| XML_ERROR_EMPTY_DOCUMENT | XML_ERROR_MISMATCHED_ELEMENT | XML_ERROR_PARSING
| XML_CAN_NOT_CONVERT_TEXT | XML_NO_TEXT_NODE | XML_ELEMENT_DEPTH_EXCEEDED.

#[global] Instance XMLError_eq_dec : EqDecision XMLError.
Proof. solve_decision. Defined.

Inductive Whitespace := PRESERVE_WHITESPACE | COLLAPSE_WHITESPACE.
Inductive ElementClosingType := OPEN | CLOSED | CLOSING.

#[global] Instance ElementClosingType_eq_dec : EqDecision ElementClosingType.
Proof. solve_decision. Defined.

Record XMLAttribute := Attr { _name : StrPair; _value : StrPair; a_line : Z }.

(** Every node has its line; an element has its name as its value. *)
Inductive XMLNode :=
| XMLElement (line : Z) (name : StrPair) (closing : ElementClosingType)
    (attributes : list XMLAttribute) (children : list XMLNode)
| XMLText (line : Z) (value : StrPair) (cdata : bool)
| XMLComment (line : Z) (value : StrPair)
| XMLDeclaration (line : Z) (value : StrPair)
| XMLUnknown (line : Z) (value : StrPair).

(** The members of [XMLDocument] that parsing uses. *)
Record doc := Doc {
  _charBuffer : list Z;
  _errorID : XMLError;
  _errorLineNum : Z;
  _parseCurLineNum : Z;
  _parsingDepth : Z;
}.

Definition with_buf (d : doc) (m : list Z) : doc :=
  Doc m (_errorID d) (_errorLineNum d) (_parseCurLineNum d) (_parsingDepth d).
Definition with_line (d : doc) (line : Z) : doc :=
  Doc (_charBuffer d) (_errorID d) (_errorLineNum d) line (_parsingDepth d).
Definition with_depth (d : doc) (depth : Z) : doc :=
  Doc (_charBuffer d) (_errorID d) (_errorLineNum d) (_parseCurLineNum d) depth.

Definition Error (d : doc) : bool := negb (bool_decide (_errorID d = XML_SUCCESS)).
(** [SetError], without the message. *)
Definition SetError (e : XMLError) (line : Z) (d : doc) : doc :=
  Doc (_charBuffer d) e line (_parseCurLineNum d) (_parsingDepth d).

Definition TINYXML2_MAX_ELEMENT_DEPTH : Z := 100.
Definition PushDepth (d : doc) : doc :=
  let d := with_depth d (_parsingDepth d + 1) in
  if _parsingDepth d =? TINYXML2_MAX_ELEMENT_DEPTH
  then SetError XML_ELEMENT_DEPTH_EXCEEDED (_parseCurLineNum d) d else d.
Definition PopDepth (d : doc) : doc := with_depth d (_parsingDepth d - 1).

(** ** Reading the buffer *)

(** [SkipWhiteSpace( p, &_parseCurLineNum )] *)
Definition skip (p : nat) (d : doc) : ub (nat * doc) :=
  '(p, line) ← SkipWhiteSpace (_charBuffer d) p (Some (_parseCurLineNum d));
  Ret (p, with_line d (default 0 line)).
Definition at_ (p : nat) (d : doc) : ub Z := rd (_charBuffer d) p.

(** [_value.ParseText( p, endTag, flags, curLineNumPtr )] *)
Definition parse_value (p : nat) (endTag : list Z) (flags : Z) (d : doc)
  : ub (option (StrPair * nat) * doc) :=
  '(r, line) ← ParseText (_charBuffer d) p endTag flags (_parseCurLineNum d);
  Ret (r, with_line d line).

(** [Name] or [Value] of a node or attribute: the pair, decoded, and the document. *)
Definition get (s : StrPair) (d : doc) : ub (StrPair * doc) :=
  '(s, m) ← GetStr s (_charBuffer d); Ret (s, with_buf d m).

(** The C string at a pointer; there has to be a NUL. *)
Definition cstr (p : nat) (d : doc) : ub (list Z) :=
  if existsb (Z.eqb 0) (drop p (_charBuffer d)) then Ret (c_string (_charBuffer d) p) else Undef.
(** [StringEqual( p, q )]: at most [INT_MAX] bytes are compared. *)
Definition StringEqual (p q : nat) (d : doc) : ub bool :=
  a ← cstr p d; b ← cstr q d;
  Ret (bool_decide (take (toPrint (length a)) a = take (toPrint (length b)) b)).

(** ** What comes next *)

Inductive kind := KDeclaration | KComment | KText (cdata : bool) | KUnknown | KElement.

(** The headers, in the order they are tried, with the kind of node they start. *)
Definition headers : list (list Z * kind) :=
  [ (bytes "<?", KDeclaration); (bytes "<!--", KComment); (bytes "<![CDATA[", KText true);
    (bytes "<!", KUnknown); (bytes "<", KElement) ].
Fixpoint find_header (m : list Z) (p : nat) (hs : list (list Z * kind)) : ub (option (list Z * kind)) :=
  match hs with
  | [] => Ret None
  | h :: hs => same ← strncmp_eq m p (fst h); if same : bool then Ret (Some h) else find_header m p hs
  end.

(** [Identify]: the kind and line of the new node, [None] for a null node. *)
Definition Identify (p : nat) (d : doc) : ub (option (kind * Z) * nat * doc) :=
  let start := p in
  let startLine := _parseCurLineNum d in
  '(p, d) ← skip p d;
  c ← at_ p d;
  if c =? 0 then Ret (None, p, d) else
  h ← find_header (_charBuffer d) p headers;
  match h with
  | Some (header, k) => Ret (Some (k, _parseCurLineNum d), (p + length header)%nat, d)
  | None => Ret (Some (KText false, _parseCurLineNum d), start, with_line d startLine)
  end.

(** ** Attributes *)

Section Parser.
Context (_processEntities : bool) (_whitespaceMode : Whitespace).

Definition XMLAttribute_ParseDeep (p : nat) (d : doc) : ub (option (StrPair * StrPair * nat) * doc) :=
  r ← ParseName (_charBuffer d) p;
  match r with
  | None => Ret (None, d)
  | Some (name, p) =>
      c ← at_ p d;
      if c =? 0 then Ret (None, d) else
      '(p, d) ← skip p d;
      c ← at_ p d;
      if negb (c =? 61) then Ret (None, d) else
      '(p, d) ← skip (S p) d;
      c ← at_ p d;
      if negb (c =? DOUBLE_QUOTE) && negb (c =? SINGLE_QUOTE) then Ret (None, d) else
      '(r, d) ← parse_value (S p) [c]
                  (if _processEntities then ATTRIBUTE_VALUE else ATTRIBUTE_VALUE_LEAVE_ENTITIES) d;
      Ret (match r with Some (value, p) => Some (name, value, p) | None => None end, d)
  end.

(** [FindAttribute( name )] and then [Value()] of the one found: whether there is one,
    the attributes with what was decoded. *)
Fixpoint FindAttribute (name : nat) (attrs : list XMLAttribute) (d : doc)
  : ub (bool * list XMLAttribute * doc) :=
  match attrs with
  | [] => Ret (false, [], d)
  | a :: attrs =>
      '(n, d) ← get (_name a) d;
      same ← StringEqual (_start n) name d;
      if same : bool then
        '(v, d) ← get (_value a) d;
        Ret (true, Attr n v (a_line a) :: attrs, d)
      else
        '(found, attrs, d) ← FindAttribute name attrs d;
        Ret (found, Attr n (_value a) (a_line a) :: attrs, d)
  end.

(** What [ParseAttributes] leaves behind: the pointer it returns, the closing type, the
    attributes and the name. *)
Record tag := Tag {
  t_next : option nat; t_closing : ElementClosingType; t_attributes : list XMLAttribute; t_name : StrPair }.

(** The loop of [ParseAttributes]; every round reads a byte. *)
Fixpoint ParseAttributes (fuel : nat) (line : Z) (name : StrPair) (closing : ElementClosingType)
    (attrs : list XMLAttribute) (p : nat) (d : doc) : ub (tag * doc) :=
  match fuel with
  | O => Undef
  | S fuel =>
      '(p, d) ← skip p d;
      c ← at_ p d;
      if c =? 0 then
        '(name, d) ← get name d;
        Ret (Tag None closing attrs name, SetError XML_ERROR_PARSING_ELEMENT line d)
      else if IsNameStartChar c then
        let attrLineNum := _parseCurLineNum d in
        '(r, d) ← XMLAttribute_ParseDeep p d;
        match r with
        | None =>
            '(name, d) ← get name d;
            Ret (Tag None closing attrs name, SetError XML_ERROR_PARSING_ATTRIBUTE attrLineNum d)
        | Some (n, v, p) =>
            '(n, d) ← get n d;
            '(found, attrs, d) ← FindAttribute (_start n) attrs d;
            if found : bool then
              '(name, d) ← get name d;
              Ret (Tag None closing attrs name, SetError XML_ERROR_PARSING_ATTRIBUTE attrLineNum d)
            else ParseAttributes fuel line name closing (attrs ++ [Attr n v attrLineNum]) p d
        end
      else if c =? 62 then Ret (Tag (Some (S p)) closing attrs name, d)
      else
        c1 ← (if c =? 47 then at_ (S p) d else Ret 0);
        if (c =? 47) && (c1 =? 62) then Ret (Tag (Some (S (S p))) CLOSED attrs name, d)
        else Ret (Tag None closing attrs name, SetError XML_ERROR_PARSING_ELEMENT line d)
  end.

(** ** Nodes *)

(** A pair that was not set, and [Empty]. *)
Definition no_pair : StrPair := {| _flags := 0; _start := 0; _end := 0 |}.
Definition Empty (s : StrPair) : bool := (_start s =? _end s)%nat.

(** What [ParseDeep] of a node gives: nothing for a null pointer (the node is deleted
    then), or the pointer, the end tag it passes up and the node. *)
Definition parsed : Type := option (nat * StrPair * XMLNode).

(** The nodes that parse as text: up to [endTag], or the error. *)
Definition ParseDeep_value (endTag : list Z) (flags : Z) (e : XMLError) (line : Z)
    (mk : StrPair -> XMLNode) (p : nat) (d : doc) : ub (parsed * doc) :=
  '(r, d) ← parse_value p endTag flags d;
  match r with
  | Some (v, p) => Ret (Some (p, no_pair, mk v), d)
  | None => Ret (None, SetError e line d)
  end.
Definition XMLComment_ParseDeep (line : Z) : nat -> doc -> ub (parsed * doc) :=
  ParseDeep_value (bytes "-->") COMMENT XML_ERROR_PARSING_COMMENT line (XMLComment line).
Definition XMLDeclaration_ParseDeep (line : Z) : nat -> doc -> ub (parsed * doc) :=
  ParseDeep_value (bytes "?>") NEEDS_NEWLINE_NORMALIZATION XML_ERROR_PARSING_DECLARATION line
    (XMLDeclaration line).
Definition XMLUnknown_ParseDeep (line : Z) : nat -> doc -> ub (parsed * doc) :=
  ParseDeep_value (bytes ">") NEEDS_NEWLINE_NORMALIZATION XML_ERROR_PARSING_UNKNOWN line
    (XMLUnknown line).

Definition text_flags : Z :=
  let flags := if _processEntities then TEXT_ELEMENT else TEXT_ELEMENT_LEAVE_ENTITIES in
  match _whitespaceMode with
  | COLLAPSE_WHITESPACE => Z.lor flags NEEDS_WHITESPACE_COLLAPSING
  | PRESERVE_WHITESPACE => flags
  end.
Definition XMLText_ParseDeep (cdata : bool) (line : Z) (p : nat) (d : doc) : ub (parsed * doc) :=
  if cdata then
    ParseDeep_value (bytes "]]>") NEEDS_NEWLINE_NORMALIZATION XML_ERROR_PARSING_CDATA line
      (fun v => XMLText line v true) p d
  else
    '(r, d) ← parse_value p (bytes "<") text_flags d;
    match r with
    | Some (v, p) =>
        c ← at_ p d;
        Ret (if c =? 0 then None else Some ((p - 1)%nat, no_pair, XMLText line v false), d)
    | None => Ret (None, SetError XML_ERROR_PARSING_TEXT line d)
    end.

(** [XMLNode::ParseDeep] of an element or of the document: the pointer, the end tag of
    the parent and the children. *)
Definition siblings : Type := option nat * StrPair * list XMLNode.

(** Behind the tag; [children_ParseDeep] is [XMLNode::ParseDeep] of the element. *)
Definition element_content (children_ParseDeep : nat -> doc -> ub (siblings * doc))
    (line : Z) (t : tag) (d : doc) : ub (parsed * doc) :=
  let element := XMLElement line (t_name t) (t_closing t) (t_attributes t) in
  match t_next t with
  | None => Ret (None : parsed, d)
  | Some p =>
      c ← at_ p d;
      if (c =? 0) || negb (bool_decide (t_closing t = OPEN))
      then Ret (Some (p, no_pair, element []), d)
      else
        '(next, endTag, children, d) ← children_ParseDeep p d;
        Ret (match next with Some p => Some (p, endTag, element children) | None => None end, d)
  end.
Definition XMLElement_ParseDeep (children_ParseDeep : nat -> doc -> ub (siblings * doc))
    (line : Z) (p : nat) (d : doc) : ub (parsed * doc) :=
  '(p, d) ← skip p d;
  c ← at_ p d;
  let closing := if c =? 47 then CLOSING else OPEN in
  let p := if c =? 47 then S p else p in
  r ← ParseName (_charBuffer d) p;
  match r with
  | None => Ret (None : parsed, d)
  | Some (name, p) =>
      if Empty name then Ret (None, d) else
      '(t, d) ← ParseAttributes (length (_charBuffer d)) line name closing [] p d;
      element_content children_ParseDeep line t d
  end.

(** The virtual call of [ParseDeep] on the node [Identify] made. *)
Definition node_ParseDeep (children_ParseDeep : nat -> doc -> ub (siblings * doc))
    (k : kind) (line : Z) : nat -> doc -> ub (parsed * doc) :=
  match k with
  | KDeclaration => XMLDeclaration_ParseDeep line
  | KComment => XMLComment_ParseDeep line
  | KText cdata => XMLText_ParseDeep cdata line
  | KUnknown => XMLUnknown_ParseDeep line
  | KElement => XMLElement_ParseDeep children_ParseDeep line
  end.

Definition ToDeclaration (n : XMLNode) : bool :=
  match n with XMLDeclaration _ _ => true | _ => false end.
(** [FirstChild] and [LastChild] are declarations, or there is no child. *)
Definition wellLocated (isDocument : bool) (children : list XMLNode) : bool :=
  isDocument &&
  match head children, last children with
  | Some f, Some l => ToDeclaration f && ToDeclaration l
  | _, _ => true
  end.

(** Whether the end tag does not fit the element; the element's name, decoded if it was
    asked for. *)
Definition mismatched (endTag name : StrPair) (closing : ElementClosingType) (d : doc)
  : ub (bool * StrPair * doc) :=
  if Empty endTag then Ret (bool_decide (closing = OPEN), name, d)
  else if negb (bool_decide (closing = OPEN)) then Ret (true, name, d)
  else
    '(e, d) ← get endTag d;
    '(name, d) ← get name d;
    same ← StringEqual (_start e) (_start name) d;
    Ret (negb same, name, d).

(** What a round of the loop does: it links a node, finds the end tag of the parent, or
    stops with an error. *)
Inductive verdict :=
| Linked (n : XMLNode) (p : nat)
| EndTag (name : StrPair) (p : nat)
| Stopped.

(** The round behind the [ParseDeep] of the node. *)
Definition check_child (isDocument : bool) (children : list XMLNode) (initialLineNum : Z)
    (r : parsed) (d : doc) : ub (verdict * doc) :=
  match r with
  | None => Ret (Stopped, if Error d then d else SetError XML_ERROR_PARSING initialLineNum d)
  | Some (p, endTag, n) =>
      match n with
      | XMLDeclaration _ v =>
          if wellLocated isDocument children then Ret (Linked n p, d)
          else '(_, d) ← get v d; Ret (Stopped, SetError XML_ERROR_PARSING_DECLARATION initialLineNum d)
      | XMLElement line name closing attrs cs =>
          if bool_decide (closing = CLOSING) then Ret (EndTag name p, d) else
          '(mismatch, name, d) ← mismatched endTag name closing d;
          if mismatch : bool then
            '(_, d) ← get name d; Ret (Stopped, SetError XML_ERROR_MISMATCHED_ELEMENT initialLineNum d)
          else Ret (Linked (XMLElement line name closing attrs cs) p, d)
      | _ => Ret (Linked n p, d)
      end
  end.
(** The round behind [Identify], which made a node of kind [k]. *)
Definition parse_child (children_ParseDeep : nat -> doc -> ub (siblings * doc)) (isDocument : bool)
    (children : list XMLNode) (k : kind) (initialLineNum : Z) (p : nat) (d : doc) : ub (verdict * doc) :=
  '(r, d) ← node_ParseDeep children_ParseDeep k initialLineNum p d;
  check_child isDocument children initialLineNum r d.

(** The tracker around [XMLNode::ParseDeep]. *)
Definition tracked (loop : nat -> doc -> ub (siblings * doc)) (p : nat) (d : doc) : ub (siblings * doc) :=
  let d := PushDepth d in
  if Error d then Ret (None, no_pair, [], PopDepth d)
  else '(r, d) ← loop p d; Ret (r, PopDepth d).

(** The loop of [XMLNode::ParseDeep]; every round and every level below reads a byte.
    [children] are linked already. *)
Fixpoint ParseDeep_loop (fuel : nat) (isDocument : bool) (children : list XMLNode) (p : nat) (d : doc)
  : ub (siblings * doc) :=
  match fuel with
  | O => Undef
  | S fuel =>
      c ← at_ p d;
      if c =? 0 then Ret (None, no_pair, children, d) else
      '(node, p, d) ← Identify p d;
      match node with
      | None => Ret (None, no_pair, children, d)
      | Some (k, initialLineNum) =>
          '(v, d) ← parse_child (tracked (ParseDeep_loop fuel false [])) isDocument children k initialLineNum p d;
          match v with
          | Stopped => Ret (None, no_pair, children, d)
          | EndTag name p => Ret (Some p, name, children, d)
          | Linked n p => ParseDeep_loop fuel isDocument (children ++ [n]) p d
          end
      end
  end.
Definition XMLNode_ParseDeep (fuel : nat) (isDocument : bool) : nat -> doc -> ub (siblings * doc) :=
  tracked (ParseDeep_loop fuel isDocument []).

(** ** Documents *)

Record XMLDocument := Document { d_doc : doc; d_children : list XMLNode; _writeBOM : bool }.

Definition ClearError (d : doc) : doc :=
  Doc (_charBuffer d) XML_SUCCESS 0 (_parseCurLineNum d) (_parsingDepth d).
(** [Clear]; a null [_charBuffer] is an empty one. *)
Definition Clear (x : XMLDocument) : XMLDocument :=
  Document (Doc [] XML_SUCCESS 0 (_parseCurLineNum (d_doc x)) 0) [] (_writeBOM x).
Definition SetDocError (e : XMLError) (x : XMLDocument) : XMLDocument :=
  Document (SetError e 0 (d_doc x)) (d_children x) (_writeBOM x).

(** [Parse()] of the buffer. *)
Definition Parse_buffer (x : XMLDocument) : ub XMLDocument :=
  '(p, d) ← skip 0 (with_line (d_doc x) 1);
  '(p, bom) ← ReadBOM (_charBuffer d) p;
  c ← at_ p d;
  if c =? 0 then Ret (SetDocError XML_ERROR_EMPTY_DOCUMENT (Document d (d_children x) bom)) else
  '(_, _, children, d) ← XMLNode_ParseDeep (length (_charBuffer d)) true p d;
  Ret (Document d children bom).

(** [Parse( p, len )] for [p] that points to the bytes [s], a C string if [len] is
    [(size_t)-1]. *)
Definition Parse (s : list Z) (len : option nat) (x : XMLDocument) : ub XMLDocument :=
  let x := Clear x in
  let empty := Ret (SetDocError XML_ERROR_EMPTY_DOCUMENT x) in
  if bool_decide (len = Some O) then empty else
  c ← rd s 0;
  if c =? 0 then empty else
  content ← match len with
            | None => if existsb (Z.eqb 0) s then Ret (until_nul s) else Undef
            | Some n => if decide (n <= length s)%nat then Ret (take n s) else Undef
            end;
  x ← Parse_buffer (Document (with_buf (d_doc x) (content ++ [0])) [] (_writeBOM x));
  Ret (if Error (d_doc x) then Document (d_doc x) [] (_writeBOM x) else x).

(** A file: whether its first byte can be read, its length ([-1] for an error of
    [ftell]), and the bytes [fread] gets of it. *)
Record FILE := { f_readable : bool; f_length : Z; f_read : nat -> list Z }.

(** [LoadFile( fp )], and [LoadFile( filename )] with what [fopen] gave. *)
Definition LoadFile_fp (fp : FILE) (x : XMLDocument) : ub XMLDocument :=
  let x := Clear x in
  if negb (f_readable fp) then Ret (SetDocError XML_ERROR_FILE_READ_ERROR x)
  else if f_length fp =? -1 then Ret (SetDocError XML_ERROR_FILE_READ_ERROR x)
  else if UINT64_MAX <=? u64 (f_length fp) then Ret (SetDocError XML_ERROR_FILE_READ_ERROR x)
  else if u64 (f_length fp) =? 0 then Ret (SetDocError XML_ERROR_EMPTY_DOCUMENT x)
  else
    let size := Z.to_nat (u64 (f_length fp)) in
    let bs := f_read fp size in
    if negb (length bs =? size)%nat then Ret (SetDocError XML_ERROR_FILE_READ_ERROR x)
    else Parse_buffer (Document (with_buf (d_doc x) (bs ++ [0])) [] (_writeBOM x)).
Definition LoadFile (fp : option FILE) (x : XMLDocument) : ub XMLDocument :=
  let x := Clear x in
  match fp with
  | None => Ret (SetDocError XML_ERROR_FILE_NOT_FOUND x)
  | Some fp => LoadFile_fp fp x
  end.

End Parser.
