(* ===== verification/XmlGrammar.v ===== *)
(** * The language of documents

    What [XMLDocument::Parse] of [compat/tinyxml2-v34/tinyxml2.cpp] makes of a text, as
    functions on the text alone: trees of strings, no buffer, no pointers, no line
    counter (the line of a node is the number of line ends before it).  The theorems
    say that the parser of [XmlDocument], which cuts the strings out of the buffer it
    is still reading, gives exactly this for every text, always ends and stays
    inside the buffer. *)

From S2P Require Import Prelude XmlText XmlDocument.

(** ** Trees *)

Record attribute := Attribute { at_line : Z; at_name : list Z; at_value : list Z }.

Inductive xml :=
| Element (line : Z) (name : list Z) (attrs : list attribute) (children : list xml)
| Text (line : Z) (cdata : bool) (value : list Z)
| Comment (line : Z) (value : list Z)
| Declaration (line : Z) (value : list Z)
| Unknown (line : Z) (value : list Z).

Definition is_declaration (x : xml) : bool :=
  match x with Declaration _ _ => true | _ => false end.

(** ** Words *)

Fixpoint span_name (l : list Z) : list Z * list Z :=
  match l with
  | [] => ([], [])
  | c :: r => if IsNameChar c then let '(n, s) := span_name r in (c :: n, s) else ([], l)
  end.
(** The name a text starts with, and the rest. *)
Definition name_at (l : list Z) : option (list Z * list Z) :=
  match l with
  | c :: r => if IsNameStartChar c then let '(n, s) := span_name r in Some (c :: n, s) else None
  | [] => None
  end.

(** The text before the first [pat], and the rest behind it. *)
Fixpoint upto (pat l : list Z) : option (list Z * list Z) :=
  match l with
  | [] => None
  | c :: r =>
      if bool_decide (take (length pat) l = pat) then Some ([], drop (length pat) l)
      else '(a, b) ← upto pat r; Some (c :: a, b)
  end.

Section Grammar.
Context (_processEntities : bool) (_whitespaceMode : Whitespace).
(** The line behind the last line end. *)
Context (total : Z).
(** The line at which the text [l] starts, if the document ends with it. *)
Definition line_of (l : list Z) : Z := total - lines l.

Definition value_flags : Z :=
  if _processEntities then ATTRIBUTE_VALUE else ATTRIBUTE_VALUE_LEAVE_ENTITIES.

(** [name = "value"] *)
Definition attribute_at (l : list Z) : option (list Z * list Z * list Z) :=
  '(n, l) ← name_at l;
  match skip_lead l with
  | c :: l =>
      if c =? 61 then
        match skip_lead l with
        | q :: l =>
            if (q =? DOUBLE_QUOTE) || (q =? SINGLE_QUOTE)
            then '(v, l) ← upto [q] l; Some (n, pair_text value_flags v, l) else None
        | [] => None
        end
      else None
  | [] => None
  end.

(** The rest of a tag behind its name: its attributes and whether it ends in ["/>"]. *)
Inductive tag_rest :=
| TagOpen (attrs : list attribute) (rest : list Z)
| TagClosed (attrs : list attribute) (rest : list Z)
| TagBad (e : XMLError) (line : Z).

Fixpoint attributes (fuel : nat) (line : Z) (attrs : list attribute) (l : list Z) : option tag_rest :=
  match fuel with
  | O => None
  | S fuel =>
      let l := skip_lead l in
      match l with
      | [] => Some (TagBad XML_ERROR_PARSING_ELEMENT line)
      | c :: r =>
          if IsNameStartChar c then
            match attribute_at l with
            | Some (n, v, r) =>
                if existsb (fun a => bool_decide (at_name a = n)) attrs
                then Some (TagBad XML_ERROR_PARSING_ATTRIBUTE (line_of l))
                else attributes fuel line (attrs ++ [Attribute (line_of l) n v]) r
            | None => Some (TagBad XML_ERROR_PARSING_ATTRIBUTE (line_of l))
            end
          else if c =? 62 then Some (TagOpen attrs r)
          else if (c =? 47) && (at0 r 0 =? 62) then Some (TagClosed attrs (drop 1 r))
          else Some (TagBad XML_ERROR_PARSING_ELEMENT line)
      end
  end.

(** ** Nodes *)

(** How a list of nodes ends. *)
Inductive ending :=
| AtEnd
| AtEndTag (name rest : list Z)
| Failed (e : XMLError) (line : Z).

(** What stands at one place. *)
Inductive item :=
| Node (x : xml) (rest : list Z)
| Closing (name rest : list Z)
| Bad (e : XMLError) (line : Z).

Definition value_at (endTag : list Z) (flags : Z) (e : XMLError) (line : Z) (mk : list Z -> xml)
    (l : list Z) : item :=
  match upto endTag l with
  | Some (v, l) => Node (mk (pair_text flags v)) l
  | None => Bad e line
  end.

Definition text_at (line : Z) (l : list Z) : item :=
  match upto (bytes "<") l with
  | Some (_, []) => Bad XML_ERROR_PARSING line
  | Some (v, r) => Node (Text line false (pair_text (text_flags _processEntities _whitespaceMode) v)) (60 :: r)
  | None => Bad XML_ERROR_PARSING_TEXT line
  end.

Definition element_at (children_at : list Z -> option (list xml * ending)) (line : Z) (l : list Z)
  : option item :=
  let l := skip_lead l in
  let closing := at0 l 0 =? 47 in
  match name_at (if closing then drop 1 l else l) with
  | None => Some (Bad XML_ERROR_PARSING line)
  | Some (n, l) =>
      t ← attributes (S (length l)) line [] l;
      match t with
      | TagBad e line => Some (Bad e line)
      | TagClosed attrs l => Some (Node (Element line n attrs []) l)
      | TagOpen attrs l =>
          if closing then Some (Closing n l)
          else if bool_decide (l = []) then Some (Bad XML_ERROR_MISMATCHED_ELEMENT line)
          else
            '(children, e) ← children_at l;
            Some match e with
                 | AtEnd => Bad XML_ERROR_PARSING line
                 | Failed e line => Bad e line
                 | AtEndTag n' l =>
                     if bool_decide (n = n') then Node (Element line n attrs children) l
                     else Bad XML_ERROR_MISMATCHED_ELEMENT line
                 end
      end
  end.

(** The header [l] starts with. *)
Definition header_at (l : list Z) : option (list Z * kind) :=
  find (fun h => bool_decide (take (length (fst h)) l = fst h)) headers.

(** [l] starts, behind white space, with a node. *)
Definition node_at (children_at : list Z -> option (list xml * ending)) (l : list Z) : option item :=
  let line := line_of (skip_lead l) in
  match header_at (skip_lead l) with
  | None => Some (text_at line l)
  | Some (header, k) =>
      let l := drop (length header) (skip_lead l) in
      match k with
      | KDeclaration =>
          Some (value_at (bytes "?>") NEEDS_NEWLINE_NORMALIZATION XML_ERROR_PARSING_DECLARATION line (Declaration line) l)
      | KComment => Some (value_at (bytes "-->") COMMENT XML_ERROR_PARSING_COMMENT line (Comment line) l)
      | KText _ =>
          Some (value_at (bytes "]]>") NEEDS_NEWLINE_NORMALIZATION XML_ERROR_PARSING_CDATA line (Text line true) l)
      | KUnknown =>
          Some (value_at (bytes ">") NEEDS_NEWLINE_NORMALIZATION XML_ERROR_PARSING_UNKNOWN line (Unknown line) l)
      | KElement => element_at children_at line l
      end
  end.

(** Declarations come first in the document and nowhere else. *)
Definition located (isDocument : bool) (done : list xml) (line : Z) (i : item) : item :=
  match i with
  | Node (Declaration _ _) _ =>
      if isDocument && forallb is_declaration done then i else Bad XML_ERROR_PARSING_DECLARATION line
  | _ => i
  end.

(** A list of nodes inside [depth] - 1 elements; [done] are the ones before. *)
Fixpoint nodes_at (fuel : nat) (isDocument : bool) (depth : Z) (done : list xml) (l : list Z)
  : option (list xml * ending) :=
  match fuel with
  | O => None
  | S fuel =>
      if bool_decide (skip_lead l = []) then Some (done, AtEnd) else
      let children_at l :=
        if depth + 1 =? TINYXML2_MAX_ELEMENT_DEPTH
        then Some ([], Failed XML_ELEMENT_DEPTH_EXCEEDED (line_of l))
        else nodes_at fuel false (depth + 1) [] l in
      i ← node_at children_at l;
      match located isDocument done (line_of (skip_lead l)) i with
      | Bad e line => Some (done, Failed e line)
      | Closing n r => Some (done, AtEndTag n r)
      | Node x r => nodes_at fuel isDocument depth (done ++ [x]) r
      end
  end.

End Grammar.

(** The byte order mark. *)
Definition bom : list Z := [239; 187; 191].
Definition has_bom (l : list Z) : bool := bool_decide (take 3 l = bom).

(** A document: its nodes, error and line of the error. *)
Record document := { nodes : list xml; error : XMLError; error_line : Z; with_bom : bool }.

Definition document_at (processEntities : bool) (mode : Whitespace) (t : list Z) : document :=
  let b := has_bom (skip_lead t) in
  let l := if b then drop 3 (skip_lead t) else skip_lead t in
  match l with
  | [] => {| nodes := []; error := XML_ERROR_EMPTY_DOCUMENT; error_line := 0; with_bom := b |}
  | _ =>
      match nodes_at processEntities mode (1 + lines t) (S (length l)) true 1 [] l with
      | Some (xs, Failed e line) => {| nodes := xs; error := e; error_line := line; with_bom := b |}
      | Some (xs, _) => {| nodes := xs; error := XML_SUCCESS; error_line := 0; with_bom := b |}
      | None => {| nodes := []; error := XML_SUCCESS; error_line := 0; with_bom := b |}
      end
  end.

(** ** Words and what is left behind them *)

Lemma skip_lead_split l : exists w, l = w ++ skip_lead l /\ Forall (fun c => IsWhiteSpace c = true) w.
Proof.
  induction l as [|c l (w & IH & Hw)]; cbn [skip_lead]; [now exists []|].
  destruct (IsWhiteSpace c) eqn:E; [|now exists []].
  exists (c :: w). split; [cbn; congruence | now constructor].
Qed.

Lemma skip_lead_suffix l : skip_lead l `suffix_of` l.
Proof. destruct (skip_lead_split l) as (w & H & _). now exists w. Qed.

Lemma skip_lead_head l c r : skip_lead l = c :: r -> IsWhiteSpace c = false.
Proof.
  induction l as [|d l IH]; cbn [skip_lead]; [discriminate|].
  destruct (IsWhiteSpace d) eqn:E; [exact IH | congruence].
Qed.

Lemma span_name_split l n s :
  span_name l = (n, s) ->
  l = n ++ s /\ Forall (fun c => IsNameChar c = true) n /\ (forall c r, s = c :: r -> IsNameChar c = false).
Proof.
  revert n. induction l as [|c l IH]; intros n; cbn [span_name].
  { intros [= <- <-]. split; [reflexivity|]. split; [constructor | discriminate]. }
  destruct (IsNameChar c) eqn:E.
  - destruct (span_name l) as [n' s']. intros [= <- <-]. destruct (IH _ eq_refl) as (-> & H1 & H2).
    split; [reflexivity|]. split; [now constructor | exact H2].
  - intros [= <- <-]. split; [reflexivity|]. split; [constructor | congruence].
Qed.

Lemma start_is_name c : IsNameStartChar c = true -> IsNameChar c = true.
Proof. unfold IsNameChar. now intros ->. Qed.

(** A name as [ParseName] wants it. *)
Definition valid_name (n : list Z) : Prop :=
  exists c n', n = c :: n' /\ IsNameStartChar c = true /\ Forall (fun c => IsNameChar c = true) n'.

Lemma name_at_split l n s :
  name_at l = Some (n, s) ->
  l = n ++ s /\ valid_name n /\ (forall c r, s = c :: r -> IsNameChar c = false).
Proof.
  unfold name_at. destruct l as [|c l]; [discriminate|]. destruct (IsNameStartChar c) eqn:E; [|discriminate].
  destruct (span_name l) as [n' s'] eqn:Es. intros [= <- <-].
  apply span_name_split in Es as (-> & H1 & H2).
  split; [reflexivity|]. split; [|exact H2]. now exists c, n'.
Qed.

Lemma valid_name_ne n : valid_name n -> n <> [].
Proof. now intros (c & n' & -> & _). Qed.

Lemma upto_split pat l a b : upto pat l = Some (a, b) -> l = a ++ pat ++ b.
Proof.
  revert a. induction l as [|c l IH]; intros a; cbn [upto]; [discriminate|].
  case_bool_decide as H.
  - intros [= <- <-]. rewrite <- H at 1. now rewrite (take_drop (length pat) (c :: l)).
  - destruct (upto pat l) as [[a' b']|]; cbn [mbind option_bind]; [|discriminate].
    intros [= <- <-]. cbn. f_equal. now apply IH.
Qed.

Lemma suffix_app_l (a b l : list Z) : (a ++ b) `suffix_of` l -> b `suffix_of` l.
Proof. intros H. etrans; [now exists a | exact H]. Qed.

Lemma suffix_tr (a b c : list Z) : a `suffix_of` b -> b `suffix_of` c -> a `suffix_of` c.
Proof. intros H1 H2. etrans; [exact H1 | exact H2]. Qed.

Section GrammarFacts.
Context (pe : bool) (mode : Whitespace) (total : Z).
Implicit Types (l r : list Z).

Lemma attribute_at_suffix l n v r :
  attribute_at pe l = Some (n, v, r) -> r `suffix_of` l /\ (length r < length l)%nat.
Proof.
  unfold attribute_at. destruct (name_at l) as [[n' l1]|] eqn:En; cbn [mbind option_bind]; [|discriminate].
  apply name_at_split in En as (-> & _ & _). destruct (skip_lead l1) as [|c l2] eqn:E1; [discriminate|].
  destruct (c =? 61); [|discriminate]. destruct (skip_lead l2) as [|q l3] eqn:E2; [discriminate|].
  destruct (_ || _); [|discriminate].
  destruct (upto [q] l3) as [[a b]|] eqn:E3; cbn [mbind option_bind]; [|discriminate]. intros [= <- <- <-].
  apply upto_split in E3. subst l3. pose proof (skip_lead_suffix l1) as S1. rewrite E1 in S1.
  pose proof (skip_lead_suffix l2) as S2. rewrite E2 in S2.
  assert ((q :: a ++ [q] ++ b) `suffix_of` n' ++ l1) as HS.
  { etrans; [exact S2|]. etrans; [|now exists n']. now apply (suffix_app_l [c]). }
  split; [now apply (suffix_app_l (q :: a ++ [q])); rewrite <- app_comm_cons, <- app_assoc|].
  apply suffix_length in HS. cbn in HS. rewrite !length_app in *. cbn in HS. lia.
Qed.

(** The rounds that are needed: more than there are bytes left. *)
Lemma attributes_total fuel line attrs l :
  (length l < fuel)%nat -> exists t, attributes pe total fuel line attrs l = Some t.
Proof.
  revert attrs l. induction fuel as [|fuel IH]; intros attrs l Hl; [lia|]. cbn [attributes].
  pose proof (suffix_length _ _ (skip_lead_suffix l)) as HS.
  destruct (skip_lead l) as [|c r] eqn:E; [eauto|].
  destruct (IsNameStartChar c); [|repeat case_goal; eauto].
  destruct (attribute_at pe (c :: r)) as [[[n v] r']|] eqn:Ea; [|eauto].
  destruct (existsb _ _); [eauto|]. apply attribute_at_suffix in Ea as [_ Ha]. apply IH. lia.
Qed.

(** More rounds change nothing. *)
Lemma attributes_mono fuel fuel' line attrs l t :
  (fuel <= fuel')%nat -> attributes pe total fuel line attrs l = Some t ->
  attributes pe total fuel' line attrs l = Some t.
Proof.
  revert fuel' attrs l. induction fuel as [|fuel IH]; intros fuel' attrs l Hf; [discriminate|].
  destruct fuel' as [|fuel']; [lia|]. cbn [attributes]. destruct (skip_lead l) as [|c r]; [easy|].
  destruct (IsNameStartChar c); [|easy]. destruct (attribute_at _ _) as [[[n v] r']|]; [|easy].
  destruct (existsb _ _); [easy|]. apply IH. lia.
Qed.

(** What a tag leaves. *)
Definition tag_left (t : tag_rest) : option (list Z) :=
  match t with TagOpen _ r | TagClosed _ r => Some r | TagBad _ _ => None end.

Lemma attributes_suffix fuel line attrs l t r :
  attributes pe total fuel line attrs l = Some t -> tag_left t = Some r ->
  r `suffix_of` l /\ (length r < length l)%nat.
Proof.
  revert attrs l. induction fuel as [|fuel IH]; intros attrs l; [discriminate|]. cbn [attributes].
  pose proof (skip_lead_suffix l) as HS. destruct (skip_lead l) as [|c s] eqn:E; [intros [= <-]; discriminate|].
  pose proof (suffix_length _ _ HS) as HL. cbn [length] in HL.
  assert (s `suffix_of` l) as HS' by now apply (suffix_app_l [c]).
  destruct (IsNameStartChar c).
  { destruct (attribute_at pe (c :: s)) as [[[n v] r']|] eqn:Ea; [|intros [= <-]; discriminate].
    destruct (existsb _ _); [intros [= <-]; discriminate|]. intros Ht Hr. apply attribute_at_suffix in Ea as [Ha Hb].
    destruct (IH _ _ Ht Hr) as [H1 H2]. split; [etrans; [exact H1|]; etrans; [exact Ha | exact HS] | cbn in Hb; lia]. }
  destruct (c =? 62).
  { intros [= <-] [= <-]. split; [exact HS' | lia]. }
  destruct (_ && _); intros [= <-] [= <-]. split; [|rewrite length_drop; lia].
  destruct s as [|x s]; cbn [skipn]; rewrite ?drop_0; [exact HS' | now apply (suffix_app_l [x])].
Qed.

(** What an item leaves. *)
Definition item_left (i : item) : option (list Z) :=
  match i with Node _ r | Closing _ r => Some r | Bad _ _ => None end.
Definition ending_left (e : ending) : option (list Z) :=
  match e with AtEndTag _ r => Some r | _ => None end.

Lemma value_at_suffix endTag flags e line mk l r :
  item_left (value_at endTag flags e line mk l) = Some r -> r `suffix_of` l.
Proof.
  unfold value_at. destruct (upto endTag l) as [[v r']|] eqn:E; [|discriminate]. intros [= <-].
  apply upto_split in E as ->. exists (v ++ endTag). now rewrite <- app_assoc.
Qed.

Lemma header_at_split l h k :
  header_at l = Some (h, k) -> (h, k) ∈ headers /\ l = h ++ drop (length h) l /\ h <> [].
Proof.
  unfold header_at. intros H. apply find_some in H as [Hin H]. apply bool_decide_eq_true in H. cbn [fst] in H.
  apply list_elem_of_In in Hin. split; [exact Hin|]. split.
  - rewrite <- H at 1. now rewrite take_drop.
  - unfold headers in Hin. rewrite !elem_of_cons, elem_of_nil in Hin.
    destruct Hin as [[= -> ->]|[[= -> ->]|[[= -> ->]|[[= -> ->]|[[= -> ->]|[]]]]]]; discriminate.
Qed.

(** A text node takes at least the character that is not white space. *)
Lemma no_header_head l c r :
  header_at (skip_lead l) = None -> skip_lead l = c :: r -> c <> 60 /\ exists d l', l = d :: l' /\ d <> 60.
Proof.
  intros Hh Hs.
  assert (c <> 60) as Hc.
  { intros ->. rewrite Hs in Hh. unfold header_at in Hh.
    pose proof (find_none _ _ Hh (bytes "<", KElement) ltac:(cbn; tauto)) as Hn.
    apply bool_decide_eq_false in Hn. now apply Hn. }
  split; [exact Hc|]. destruct l as [|d l]; [discriminate|]. exists d, l. split; [reflexivity|].
  intros ->. cbn [skip_lead] in Hs. change (IsWhiteSpace 60) with false in Hs. congruence.
Qed.

Lemma text_at_suffix line l r :
  header_at (skip_lead l) = None -> skip_lead l <> [] ->
  item_left (text_at pe mode line l) = Some r -> r `suffix_of` l /\ (length r < length l)%nat.
Proof.
  intros Hh Hne. destruct (skip_lead l) as [|c s] eqn:E; [easy|]. rewrite <- E in Hh.
  destruct (no_header_head _ _ _ Hh E) as (_ & d & l' & -> & Hd). unfold text_at.
  destruct (upto (bytes "<") (d :: l')) as [[v [|x y]]|] eqn:Eu; [discriminate| |discriminate].
  intros [= <-]. pose proof (upto_split _ _ _ _ Eu) as Hu. change (bytes "<") with [60] in Hu.
  split; [now exists v|]. rewrite Hu, length_app. cbn [app length].
  destruct v; [|cbn; lia]. cbn in Hu. congruence.
Qed.

Section Children.
Context (children_at : list Z -> option (list xml * ending)).
Context (L : nat).
Context (children_ok : forall l, (length l < L)%nat -> exists xs e, children_at l = Some (xs, e)).
Context (children_left : forall l xs e r,
  children_at l = Some (xs, e) -> ending_left e = Some r -> r `suffix_of` l).

Lemma element_at_total line l :
  (length l <= L)%nat -> exists i, element_at pe total children_at line l = Some i.
Proof.
  intros Hl. unfold element_at. pose proof (suffix_length _ _ (skip_lead_suffix l)) as H1.
  set (s := if at0 (skip_lead l) 0 =? 47 then drop 1 (skip_lead l) else skip_lead l).
  assert (length s <= length l)%nat as H2 by (unfold s; case_goal; rewrite ?length_drop; lia).
  destruct (name_at s) as [[n r]|] eqn:En; [|eauto]. apply name_at_split in En as (Es & Hn & _).
  assert (length r < length s)%nat as H3
    by (apply valid_name_ne in Hn; rewrite Es, length_app; destruct n; [easy | cbn; lia]).
  destruct (attributes_total (S (length r)) line [] r ltac:(lia)) as [t Ht]. rewrite Ht. cbn [mbind option_bind].
  destruct t as [attrs q| |]; [|eauto..]. case_goal; [eauto|]. case_goal; [eauto|].
  destruct (attributes_suffix _ _ _ _ _ q Ht eq_refl) as [_ H4].
  destruct (children_ok q ltac:(lia)) as (xs & e & ->). cbn. eauto.
Qed.

Lemma element_at_suffix line l i r :
  element_at pe total children_at line l = Some i -> item_left i = Some r ->
  r `suffix_of` l.
Proof.
  unfold element_at. pose proof (skip_lead_suffix l) as H1.
  set (s := if at0 (skip_lead l) 0 =? 47 then drop 1 (skip_lead l) else skip_lead l).
  assert (s `suffix_of` l) as H2.
  { unfold s. case_goal; [|exact H1]. etrans; [|exact H1]. exists (take 1 (skip_lead l)). now rewrite take_drop. }
  destruct (name_at s) as [[n q]|] eqn:En; [|intros [= <-]; discriminate].
  apply name_at_split in En as (Es & _ & _). assert (q `suffix_of` l) as H3 by (etrans; [|exact H2]; now exists n).
  destruct (attributes _ _ _ _ _ _) as [t|] eqn:Ht; cbn [mbind option_bind]; [|discriminate].
  assert (forall q', tag_left t = Some q' -> q' `suffix_of` l) as H4
    by (intros q' Hq; destruct (attributes_suffix _ _ _ _ _ _ Ht Hq) as [Hs' _]; exact (suffix_tr _ _ _ Hs' H3)).
  destruct t as [attrs q'|attrs q'|e ln]; [| |intros [= <-]; discriminate].
  - repeat case_goal; [intros [= <-] [= <-]; now apply H4|intros [= <-]; discriminate|].
    destruct (children_at q') as [[xs e]|] eqn:Ec; cbn [mbind option_bind]; [|discriminate].
    destruct e as [|n' r'|]; [intros [= <-]; discriminate| |intros [= <-]; discriminate].
    case_goal; intros [= <-] [= <-]. etrans; [eapply children_left; [exact Ec | reflexivity]|]. now apply H4.
  - intros [= <-] [= <-]. now apply H4.
Qed.

Lemma node_at_total l :
  (length l <= L)%nat -> exists i, node_at pe mode total children_at l = Some i.
Proof.
  intros Hl. unfold node_at. destruct (header_at _) as [[h k]|]; [|eauto]. destruct k; eauto.
  apply element_at_total. pose proof (suffix_length _ _ (skip_lead_suffix l)). rewrite length_drop. lia.
Qed.

Lemma node_at_suffix l i r :
  skip_lead l <> [] -> node_at pe mode total children_at l = Some i -> item_left i = Some r ->
  r `suffix_of` l /\ (length r < length l)%nat.
Proof.
  intros Hne. unfold node_at. destruct (header_at _) as [[h k]|] eqn:Eh.
  - apply header_at_split in Eh as (_ & Hs & Hh). pose proof (skip_lead_suffix l) as H1.
    set (s := drop (length h) (skip_lead l)) in *.
    assert (s `suffix_of` l /\ (length s < length l)%nat) as [H2 H3].
    { split; [exact (suffix_tr _ _ _ (ex_intro _ h Hs) H1)|]. apply suffix_length in H1.
      apply (f_equal length) in Hs. rewrite length_app in Hs. destruct h; [easy|]. cbn [length] in *. lia. }
    assert (forall r, r `suffix_of` s -> r `suffix_of` l /\ (length r < length l)%nat) as H4
      by (intros r' Hr; split; [exact (suffix_tr _ _ _ Hr H2) | apply suffix_length in Hr; lia]).
    destruct k; [intros [= <-] Hr; apply H4; exact (value_at_suffix _ _ _ _ _ _ _ Hr)..|].
    intros He Hr. apply H4. exact (element_at_suffix _ _ _ _ He Hr).
  - intros [= <-]. now apply text_at_suffix.
Qed.

End Children.

Lemma located_left isDoc done line i r :
  item_left (located isDoc done line i) = Some r -> item_left i = Some r.
Proof. destruct i as [[]| |]; cbn; try easy. now case_goal. Qed.

Lemma nodes_at_suffix fuel isDoc depth done l xs e r :
  nodes_at pe mode total fuel isDoc depth done l = Some (xs, e) -> ending_left e = Some r -> r `suffix_of` l.
Proof.
  revert isDoc depth done l xs e r.
  induction fuel as [|fuel IH]; intros isDoc depth done l xs e r; [discriminate|]. cbn [nodes_at].
  case_bool_decide as Hne; [intros [= <- <-]; discriminate|].
  set (ch := fun l => _). destruct (node_at pe mode total ch l) as [i|] eqn:Ei; cbn [mbind option_bind]; [|discriminate].
  assert (forall r, item_left (located isDoc done (line_of total (skip_lead l)) i) = Some r -> r `suffix_of` l) as Hi.
  { intros r' Hr'. eapply node_at_suffix; [|exact Hne|exact Ei|exact (located_left _ _ _ _ _ Hr')].
    intros l' xs' e' q. unfold ch. case_goal; [intros [= <- <-]; discriminate|]. apply IH. }
  destruct (located _ _ _ _) as [x r'|n r'|e' ln];
    [|intros [= <- <-] [= <-]; now apply Hi|intros [= <- <-]; discriminate].
  intros Hr He. exact (suffix_tr _ _ _ (IH _ _ _ _ _ _ _ Hr He) (Hi _ eq_refl)).
Qed.

Lemma nodes_at_total fuel isDoc depth done l :
  (length l < fuel)%nat -> exists xs e, nodes_at pe mode total fuel isDoc depth done l = Some (xs, e).
Proof.
  revert isDoc depth done l. induction fuel as [|fuel IH]; intros isDoc depth done l Hl; [lia|].
  cbn [nodes_at]. case_goal; [eauto|]. case_bool_decide as Hne; [discriminate|]. set (ch := fun l => _).
  assert (forall l', (length l' < fuel)%nat -> exists xs e, ch l' = Some (xs, e)) as Hch
    by (intros l' ?; unfold ch; case_goal; eauto).
  destruct (node_at_total ch fuel Hch l ltac:(lia)) as [i Hi]. rewrite Hi. cbn [mbind option_bind].
  destruct (located _ _ _ _) as [x r| |] eqn:El; [|eauto..]. apply IH.
  destruct (node_at_suffix ch) with (l := l) (i := i) (r := r) as [_ Hr]; [|assumption..| |lia].
  - intros l' xs e q. unfold ch. case_goal; [intros [= <- <-]; discriminate|]. apply nodes_at_suffix.
  - eapply located_left. now rewrite El.
Qed.

End GrammarFacts.

(** ** Documents that are accepted *)

(** A node inside [depth] - 1 elements as the parser builds it. *)
Inductive wf_node : Z -> xml -> Prop :=
| wf_element depth line n ats xs :
    valid_name n -> Forall (fun a => valid_name (at_name a)) ats -> NoDup (at_name <$> ats) ->
    (xs <> [] -> depth + 1 < TINYXML2_MAX_ELEMENT_DEPTH) ->
    Forall (fun x => is_declaration x = false) xs -> Forall (wf_node (depth + 1)) xs ->
    wf_node depth (Element line n ats xs)
| wf_text depth line cdata v : wf_node depth (Text line cdata v)
| wf_comment depth line v : wf_node depth (Comment line v)
| wf_declaration depth line v : wf_node depth (Declaration line v)
| wf_unknown depth line v : wf_node depth (Unknown line v).

(** Declarations come first. *)
Definition declarations_first (xs : list xml) : Prop :=
  exists a b, xs = a ++ b /\ forallb is_declaration a = true /\ Forall (fun x => is_declaration x = false) b.

Lemma located_first isDoc done line i x r :
  declarations_first done -> located isDoc done line i = Node x r -> declarations_first (done ++ [x]).
Proof.
  intros (a & b & -> & Ha & Hb) H.
  destruct (is_declaration x) eqn:Ex.
  - exists ((a ++ b) ++ [x]), []. rewrite app_nil_r. split; [reflexivity|]. split; [|constructor].
    destruct x; try discriminate. destruct i as [[]| |]; try discriminate. cbn in H.
    case_hyp H; [|discriminate]. boolprop. rewrite forallb_app. cbn. now rewrite andb_true_r.
  - exists a, (b ++ [x]). split; [now rewrite app_assoc|]. split; [exact Ha|]. apply Forall_app. now repeat constructor.
Qed.

(** What the list of nodes of the document or of an element is. *)
Definition wf_nodes (isDocument : bool) (depth : Z) (xs : list xml) : Prop :=
  declarations_first xs /\ Forall (wf_node depth) xs /\
  (isDocument = false -> Forall (fun x => is_declaration x = false) xs).

Section WellFormed.
Context (pe : bool) (mode : Whitespace) (total : Z).

Lemma attribute_at_name l n v r : attribute_at pe l = Some (n, v, r) -> valid_name n.
Proof.
  unfold attribute_at. destruct (name_at l) as [[n' l1]|] eqn:En; cbn [mbind option_bind]; [|discriminate].
  apply name_at_split in En as (_ & Hn & _). repeat case_goal; try discriminate.
  destruct (upto _ _) as [[a b]|]; cbn [mbind option_bind]; [|discriminate]. now intros [= <- <- <-].
Qed.

Definition tag_attrs (t : tag_rest) : list attribute :=
  match t with TagOpen ats _ | TagClosed ats _ => ats | TagBad _ _ => [] end.

Lemma attributes_distinct fuel line ats l t :
  Forall (fun a => valid_name (at_name a)) ats -> NoDup (at_name <$> ats) ->
  attributes pe total fuel line ats l = Some t ->
  Forall (fun a => valid_name (at_name a)) (tag_attrs t) /\ NoDup (at_name <$> tag_attrs t).
Proof.
  revert ats l. induction fuel as [|fuel IH]; intros ats l Hv Hd; [discriminate|]. cbn [attributes].
  destruct (skip_lead l) as [|c r]; [intros [= <-]; split; constructor|]. destruct (IsNameStartChar c).
  - destruct (attribute_at pe (c :: r)) as [[[n v] r']|] eqn:Ea; [|intros [= <-]; split; constructor].
    destruct (existsb _ ats) eqn:Ee; [intros [= <-]; split; constructor|]. apply IH.
    + apply Forall_app. split; [exact Hv|]. repeat constructor. eapply attribute_at_name. exact Ea.
    + rewrite fmap_app. cbn. apply NoDup_app. split; [exact Hd|]. split; [|apply NoDup_singleton].
      intros x Hx Hn. apply list_elem_of_singleton in Hn as ->. apply list_elem_of_fmap in Hx as (a & -> & Ha).
      apply not_true_iff_false in Ee. apply Ee. apply existsb_exists. exists a.
      split; [now apply list_elem_of_In | now apply bool_decide_eq_true].
  - repeat case_goal; intros [= <-]; now repeat constructor.
Qed.

Lemma value_at_wf endTag flags e line mk l x r depth :
  (forall v, wf_node depth (mk v)) -> value_at endTag flags e line mk l = Node x r -> wf_node depth x.
Proof. intros H. unfold value_at. destruct (upto _ _) as [[v r']|]; [|discriminate]. now intros [= <- <-]. Qed.

Lemma element_at_wf children_at depth line l x r :
  (forall l xs e, children_at l = Some (xs, e) ->
     wf_nodes false (depth + 1) xs /\ (xs <> [] -> depth + 1 < TINYXML2_MAX_ELEMENT_DEPTH)) ->
  element_at pe total children_at line l = Some (Node x r) -> wf_node depth x.
Proof.
  intros Hc. unfold element_at. destruct (name_at _) as [[n l1]|] eqn:En; [|discriminate].
  apply name_at_split in En as (_ & Hn & _).
  destruct (attributes _ _ _ _ _ _) as [t|] eqn:Et; cbn [mbind option_bind]; [|discriminate].
  destruct (attributes_distinct _ _ _ _ _ ltac:(constructor) ltac:(constructor) Et) as [Hv Hd].
  destruct t as [ats q|ats q|]; [| |discriminate]; cbn [tag_attrs] in *.
  - repeat case_goal; try discriminate. destruct (children_at q) as [[xs e]|] eqn:Ec; cbn [mbind option_bind]; [|discriminate].
    destruct (Hc _ _ _ Ec) as [(_ & Hw & Hnd) Hdepth].
    destruct e; repeat case_goal; intros [= <- <-]. constructor; auto.
  - intros [= <- <-]. now constructor.
Qed.

Lemma nodes_at_wf fuel isDoc depth done l xs e :
  wf_nodes isDoc depth done -> nodes_at pe mode total fuel isDoc depth done l = Some (xs, e) ->
  depth < TINYXML2_MAX_ELEMENT_DEPTH -> wf_nodes isDoc depth xs.
Proof.
  revert isDoc depth done l xs e. induction fuel as [|fuel IH]; intros isDoc depth done l xs e Hw; [discriminate|].
  cbn [nodes_at]. case_bool_decide; [now intros [= <- <-]|]. set (ch := fun l : list Z => _).
  destruct (node_at pe mode total ch l) as [i|] eqn:Ei; cbn [mbind option_bind]; [|discriminate].
  destruct (located isDoc done _ i) as [x r| |] eqn:El; [|now intros [= <- <-]..]. intros Hx Hdepth.
  eapply IH; [|exact Hx|exact Hdepth].
  destruct Hw as (H1 & H2 & H3).
  assert (exists x', i = Node x' r /\ x = x') as (x' & -> & ->).
  { destruct i as [x' r'|n r'|e' ln]; [|discriminate..]. exists x'.
    destruct x'; cbn in El; try case_hyp El; try discriminate; injection El as <- <-; auto. }
  split; [eapply located_first; eassumption|]. split.
  - apply Forall_app. split; [exact H2|]. constructor; [|constructor]. clear El.
    unfold node_at in Ei. destruct (header_at _) as [[h k]|].
    + destruct k; [injection Ei as Ei; eapply value_at_wf; [|exact Ei]; constructor..|].
      eapply element_at_wf; [|exact Ei]. intros l' xs' e'. unfold ch.
      destruct (depth + 1 =? TINYXML2_MAX_ELEMENT_DEPTH) eqn:E100; boolprop.
      * intros [= <- <-]. split; [|easy]. split; [now exists [], []|]. split; constructor.
      * intros Hn. split; [|unfold TINYXML2_MAX_ELEMENT_DEPTH in *; lia]. eapply IH; [|exact Hn|unfold TINYXML2_MAX_ELEMENT_DEPTH in *; lia].
        split; [now exists [], []|]. split; constructor.
    + injection Ei as Ei. unfold text_at in Ei. repeat case_hyp Ei; try discriminate. injection Ei as <- <-. constructor.
  - intros ->. apply Forall_app. split; [now apply H3|]. constructor; [|constructor].
    destruct x'; try reflexivity. discriminate.
Qed.

End WellFormed.
