(* ===== verification/XmlRefine.v ===== *)
(** * The parser reads the language of documents

    [ParseDeep] of [compat/tinyxml2-v34/tinyxml2.cpp] ([XmlDocument]) against the
    functions on texts of [XmlGrammar].  The buffer is [T ++ 0 :: tail] for a text
    [T]; while it is parsed it differs from that only behind names that have been cut
    out.  The pairs of the nodes lie in it one behind the other, so that the strings
    can be asked for in any order. *)

From S2P Require Import Prelude XmlText XmlDocument XmlGrammar.

(** ** The loops over the text *)

Lemma chk32_ok z : is_i32 z -> chk32 z = Ret z.
Proof.
  intros [H1 H2]. unfold chk32, in_i32. now rewrite (proj2 (Z.leb_le _ _) H1), (proj2 (Z.leb_le _ _) H2).
Qed.

Lemma nul_not_space : IsWhiteSpace 0 = false.
Proof. reflexivity. Qed.

Lemma skip_space_lead l t p n :
  0 <= n -> n + lines l <= INT32_MAX ->
  skip_space (l ++ 0 :: t) p (Some n) =
  Ret ((p + (length l - length (skip_lead l)))%nat, Some (n + lines l - lines (skip_lead l))).
Proof.
  revert p n. induction l as [|c l IH]; intros p n Hn Hl; cbn [app skip_space skip_lead].
  { rewrite nul_not_space. apply f_equal, f_equal2; [cbn; lia | apply f_equal; cbn; lia]. }
  pose proof (lines_bound l). pose proof (suffix_length _ _ (skip_lead_suffix l)).
  destruct (IsWhiteSpace c).
  - cbn [lines] in *. destruct (c =? LF).
    + rewrite chk32_ok by range. cbn [mbind ub_bind]. rewrite IH by lia.
      apply f_equal, f_equal2; [cbn [length]; lia | apply f_equal; cbn [lines]; lia].
    + cbn [mbind ub_bind]. rewrite IH by lia. apply f_equal, f_equal2; [cbn [length]; lia | apply f_equal; cbn [lines]; lia].
  - apply f_equal, f_equal2; [cbn [length]; lia | apply f_equal; cbn [lines]; lia].
Qed.

Lemma parse_text_upto pat l t p n :
  text pat -> pat <> [] -> text l -> 0 <= n -> n + lines l <= INT32_MAX ->
  parse_text (l ++ 0 :: t) p pat n =
  Ret match upto pat l with
      | Some (a, _) => (Some (p + length a)%nat, n + lines a)
      | None => (None, n + lines l)
      end.
Proof.
  intros Hpat Hne Ht. revert p n. induction Ht as [|c l Hc _ IH]; intros p n Hn Hl.
  { cbn. apply f_equal, f_equal2; [reflexivity | lia]. }
  cbn [app parse_text upto]. destruct pat as [|x pat]; [easy|]. pose proof (lines_bound l).
  destruct (c =? 0) eqn:E0; boolprop; [congruence|]. cbn [head].
  assert ((if bool_decide (Some x = Some c) then starts_with (c :: l ++ 0 :: t) (x :: pat) else Ret false) =
          Ret (bool_decide (take (length (x :: pat)) (c :: l) = x :: pat))) as ->.
  { case_bool_decide as Hx; [exact (starts_with_spec (x :: pat) (c :: l) t Hpat)|].
    rewrite bool_decide_false; [reflexivity|]. cbn. congruence. }
  cbn [mbind ub_bind]. case_bool_decide.
  { cbn. rewrite Nat.add_0_r. apply f_equal, f_equal2; [reflexivity | lia]. }
  cbn [lines] in *. destruct (c =? LF) eqn:E1.
  - rewrite chk32_ok by range. cbn [mbind ub_bind]. rewrite IH by lia.
    destruct (upto (x :: pat) l) as [[a b]|]; cbn [mbind option_bind lines length];
      (apply f_equal, f_equal2; [reflexivity || (apply f_equal; lia) | lia || now rewrite E1; lia]).
  - cbn [mbind ub_bind]. rewrite IH by lia. 
    destruct (upto (x :: pat) l) as [[a b]|]; cbn [mbind option_bind lines length];
      (apply f_equal, f_equal2; [reflexivity || (apply f_equal; lia) | lia || now rewrite E1; lia]).
Qed.

Lemma nul_not_name : IsNameChar 0 = false.
Proof. reflexivity. Qed.

Lemma name_end_span l t p :
  text l -> name_end (l ++ 0 :: t) p = Ret (p + length (fst (span_name l)))%nat.
Proof.
  intros Hl. revert p. induction Hl as [|c l Hc _ IH]; intros p; cbn [app name_end span_name].
  { cbn. now rewrite Nat.add_0_r. }
  destruct (c =? 0) eqn:E; boolprop; [congruence|]. cbn [negb andb].
  destruct (IsNameChar c); [|cbn; now rewrite Nat.add_0_r]. rewrite IH.
  destruct (span_name l) as [n r]. cbn. f_equal. lia.
Qed.

Lemma find_header_at pre l t :
  find_header (pre ++ l ++ 0 :: t) (length pre) headers = Ret (header_at l).
Proof.
  unfold header_at. assert (Forall (fun h => text (fst h)) headers) as Hh by (repeat constructor; discriminate).
  induction Hh as [|h hs Hh _ IH]; [reflexivity|]. cbn [find_header find]. unfold strncmp_eq.
  rewrite drop_app_length, starts_with_spec by exact Hh. cbn [mbind ub_bind]. now case_bool_decide.
Qed.

(** ** Pairs in the buffer

    A pair that lies in [lo..hi) of the buffer and stands for [x]: the text is still
    to be decoded, or the string is there with its NUL. *)

Definition pair_at (B : list Z) (lo hi : nat) (s : StrPair) (x : list Z) : Prop :=
  (lo <= _start s)%nat /\ (_end s < hi)%nat /\
  ((exists flags o, 0 <= flags < 8 /\ _flags s = Z.lor flags NEEDS_FLUSH /\ text o /\
      _end s = (_start s + length o)%nat /\ (_end s < length B)%nat /\
      take (length o) (drop (_start s) B) = o /\ x = pair_text flags o) \/
   (_flags s = 0 /\ text x /\ (_start s + length x <= _end s)%nat /\
      take (length x) (drop (_start s) B) = x /\ B !! (_start s + length x)%nat = Some 0)).

(** The pairs lie one behind the other. *)
Fixpoint placed (B : list Z) (lo hi : nat) (ss : list StrPair) (xs : list (list Z)) : Prop :=
  match ss, xs with
  | [], [] => (lo <= hi)%nat
  | s :: ss, x :: xs => exists mid, pair_at B lo mid s x /\ placed B mid hi ss xs
  | _, _ => False
  end.

(** Buffers that differ in [lo..hi) at most. *)
Definition same_but (lo hi : nat) (B B' : list Z) : Prop :=
  length B' = length B /\ forall i, ~ (lo <= i < hi)%nat -> B' !! i = B !! i.

Lemma same_but_refl lo hi B : same_but lo hi B B.
Proof. now split. Qed.
Lemma same_but_wide lo hi lo' hi' B B' :
  same_but lo hi B B' -> (lo' <= lo)%nat -> (hi <= hi')%nat -> same_but lo' hi' B B'.
Proof. intros [H1 H2] ? ?. split; [exact H1|]. intros i Hi. apply H2. lia. Qed.
Lemma same_but_trans lo hi B1 B2 B3 : same_but lo hi B1 B2 -> same_but lo hi B2 B3 -> same_but lo hi B1 B3.
Proof. intros [H1 H2] [H3 H4]. split; [congruence|]. intros i Hi. now rewrite H4, H2. Qed.

Lemma take_drop_same (B B' : list Z) a n :
  (forall i, (a <= i < a + n)%nat -> B' !! i = B !! i) -> take n (drop a B') = take n (drop a B).
Proof.
  intros H. apply list_eq. intros i. destruct (decide (i < n)%nat).
  - rewrite !lookup_take_lt, !lookup_drop by lia. apply H. lia.
  - now rewrite !lookup_take_ge by lia.
Qed.

(** Writing elsewhere leaves pairs alone. *)
Lemma pair_at_frame B B' a b lo hi s x :
  pair_at B lo hi s x -> same_but a b B B' -> (hi <= a \/ b <= lo)%nat -> pair_at B' lo hi s x.
Proof.
  intros (H1 & H2 & H) [HL HB] Hd. split; [exact H1|]. split; [exact H2|].
  destruct H as [(f & o & Hf & Hs & Ho & He & HeB & Ht & Hx) | (Hf & Hx & He & Ht & Hn)].
  - left. exists f, o. split_and!; try assumption; try lia.
    rewrite <- Ht at 2. apply take_drop_same. intros i Hi. apply HB. lia.
  - right. split_and!; try assumption.
    + rewrite <- Ht at 2. apply take_drop_same. intros i Hi. apply HB. lia.
    + rewrite <- Hn. apply HB. lia.
Qed.

Lemma pair_at_wide B lo hi lo' hi' s x :
  pair_at B lo hi s x -> (lo' <= lo)%nat -> (hi <= hi')%nat -> pair_at B lo' hi' s x.
Proof. intros (H1 & H2 & H) ? ?. split; [lia|]. split; [lia | exact H]. Qed.

Lemma pair_at_bounds B lo hi s x : pair_at B lo hi s x -> (lo + length x < hi)%nat.
Proof.
  intros (H1 & H2 & [(f & o & Hf & _ & Ho & He & _ & _ & ->) | (_ & _ & He & _)]); [|lia].
  pose proof (pair_text_length f o Ho). lia.
Qed.

Lemma placed_bounds B lo hi ss xs : placed B lo hi ss xs -> (lo <= hi)%nat.
Proof.
  revert lo xs. induction ss as [|s ss IH]; intros lo [|x xs]; cbn; try easy.
  intros (mid & H1 & H2). apply pair_at_bounds in H1. apply IH in H2. lia.
Qed.

Lemma placed_frame B B' a b lo hi ss xs :
  placed B lo hi ss xs -> same_but a b B B' -> (hi <= a \/ b <= lo)%nat -> placed B' lo hi ss xs.
Proof.
  revert lo xs. induction ss as [|s ss IH]; intros lo [|x xs] H HB Hd; cbn in *; try easy.
  destruct H as (mid & H1 & H2). pose proof (placed_bounds _ _ _ _ _ H2). pose proof (pair_at_bounds _ _ _ _ _ H1).
  exists mid. split; [eapply pair_at_frame; [exact H1 | exact HB | lia]|]. apply IH; [exact H2 | exact HB | lia].
Qed.

Lemma placed_wide B lo hi lo' hi' ss xs :
  placed B lo hi ss xs -> (lo' <= lo)%nat -> (hi <= hi')%nat -> placed B lo' hi' ss xs.
Proof.
  revert lo lo' xs. induction ss as [|s ss IH]; intros lo lo' [|x xs] H H1 H2; cbn in *; try easy; [lia|].
  destruct H as (mid & Hp & Hr). exists mid. split; [eapply pair_at_wide; eauto|]. eapply IH; eauto.
Qed.

Lemma placed_app B lo mid hi ss1 ss2 xs1 xs2 :
  placed B lo mid ss1 xs1 -> placed B mid hi ss2 xs2 -> placed B lo hi (ss1 ++ ss2) (xs1 ++ xs2).
Proof.
  revert lo xs1. induction ss1 as [|s ss IH]; intros lo [|x xs] H1 H2; cbn in *; try easy.
  - eapply placed_wide; eauto.
  - destruct H1 as (k & Hp & Hr). exists k. split; [exact Hp|]. now apply IH.
Qed.

Lemma placed_one B lo hi s x : pair_at B lo hi s x -> placed B lo hi [s] [x].
Proof. intros H. exists hi. split; [exact H | cbn; lia]. Qed.

(** A pair as [Set_] leaves it. *)
Lemma pair_at_set B lo hi start o r flags :
  (lo <= start)%nat -> (start + length o < hi)%nat -> 0 <= flags < 8 -> text o ->
  drop start B = o ++ r -> r <> [] ->
  pair_at B lo hi (Set_ start (start + length o) flags) (pair_text flags o).
Proof.
  intros H1 H2 Hf Ho Hd Hr. split; [exact H1|]. split; [exact H2|]. left. exists flags, o. cbn.
  split_and!; try (assumption || reflexivity || lia).
  - apply (f_equal length) in Hd. rewrite length_drop, length_app in Hd. destruct r; [easy|]. cbn in Hd. lia.
  - rewrite Hd. apply take_app_length.
Qed.

Lemma pair_at_nonempty B lo hi s x : pair_at B lo hi s x -> x <> [] -> Empty s = false.
Proof.
  intros (_ & _ & H) Hx. unfold Empty. apply Nat.eqb_neq.
  assert (0 < length x)%nat by (destruct x; [easy | cbn; lia]).
  destruct H as [(f & o & _ & _ & Ho & He & _ & _ & ->) | (_ & _ & He & _)]; [|lia].
  pose proof (pair_text_length f o Ho). lia.
Qed.

(** The string of a flushed pair. *)
Lemma c_string_at B start x :
  text x -> take (length x) (drop start B) = x -> B !! (start + length x)%nat = Some 0 ->
  c_string B start = x /\ existsb (Z.eqb 0) (drop start B) = true.
Proof.
  intros Hx Ht Hn. unfold c_string.
  assert (drop start B = x ++ 0 :: drop (S (start + length x)) B) as ->.
  { rewrite <- (take_drop (length x) (drop start B)), Ht at 1. f_equal. rewrite drop_drop. now apply drop_S. }
  split; [now apply until_nul_app|]. rewrite existsb_app. cbn. apply orb_true_r.
Qed.

Lemma cstr_flushed B lo hi s x d :
  pair_at B lo hi s x -> _flags s = 0 -> _charBuffer d = B -> cstr (_start s) d = Ret x.
Proof.
  intros (_ & _ & H) Hf Hd. unfold cstr. rewrite Hd.
  destruct H as [(f & o & Hf' & Hs & _) | (_ & Hx & _ & Ht & Hn)].
  - destruct (flag_facts f Hf') as [F _]. rewrite Hs in Hf. rewrite Hf in F. discriminate.
  - destruct (c_string_at B (_start s) x Hx Ht Hn) as [-> ->]. reflexivity.
Qed.

Lemma until_nul_take l : take (length (until_nul l)) l = until_nul l.
Proof. induction l as [|c l IH]; cbn; [reflexivity|]. destruct (c =? 0); cbn; congruence. Qed.

(** [Name] and [Value]: the string, whatever was asked for before, and nothing else is
    touched. *)
Lemma get_pair B lo hi s x d :
  pair_at B lo hi s x -> _charBuffer d = B ->
  exists s' B', get s d = Ret (s', with_buf d B') /\ pair_at B' lo hi s' x /\ _flags s' = 0 /\
    same_but lo hi B B'.
Proof.
  intros (H1 & H2 & H) Hd. unfold get. rewrite Hd.
  destruct H as [(f & o & Hf & Hs & Ho & He & HeB & Ht & ->) | (Hf & Hx & He & Ht & Hn)].
  2: { exists s, B. assert (GetStr s B = Ret (s, B)) as -> by (unfold GetStr; now rewrite Hf). cbn [mbind ub_bind].
       split; [reflexivity|]. split; [|split; [exact Hf | apply same_but_refl]].
       split; [exact H1|]. split; [exact H2|]. right. now split_and!. }
  set (A := take (_start s) B) in *.
  assert (length A = _start s) as HA by (unfold A; rewrite length_take; lia).
  destruct (lookup_lt_is_Some_2 B _ HeB) as [c Hc]. set (r := drop (S (_end s)) B).
  assert (B = A ++ o ++ c :: r) as EB.
  { unfold A, r. rewrite <- (take_drop (_start s) B) at 1. f_equal.
    rewrite <- (take_drop (length o) (drop (_start s) B)), Ht at 1. f_equal.
    rewrite drop_drop, <- He. now apply drop_S. }
  destruct (GetStr_spec A o c r f Ho Hf) as (s' & m & G1 & G2 & G3 & G4 & G5 & G6 & G7 & G8 & G9 & G10 & G11).
  assert (Set_ (length A) (length A + length o) f = s) as Es.
  { unfold Set_. rewrite HA, <- He, <- Hs. now destruct s. }
  rewrite Es, <- EB in G1. rewrite HA in *. exists s', m. rewrite G1. cbn [mbind ub_bind].
  split; [reflexivity|].
  assert (length m = length B) as Hm by (now rewrite G11, <- EB).
  assert (text (pair_text f o)) as Hpt.
  { rewrite <- G2. apply until_nul_text. }
  split.
  - split; [lia|]. split; [lia|]. right. split_and!; try assumption; [lia|].
    rewrite <- G2. apply until_nul_take.
  - split; [exact G6|]. split; [exact Hm|]. intros i Hi. destruct (decide (i < _start s)%nat).
    + apply (f_equal (fun l => l !! i)) in G4. unfold A in G4. now rewrite !lookup_take_lt in G4 by lia.
    + apply (f_equal (fun l => l !! (i - S (_end s))%nat)) in G5. unfold r in G5. rewrite !lookup_drop in G5.
      rewrite He in *. now replace (_start s + length o + 1 + (i - S (_start s + length o)))%nat with i in G5 by lia;
        replace (S (_start s + length o) + (i - S (_start s + length o)))%nat with i in G5 by lia.
Qed.

(** The pairs of attributes and nodes, and the strings they stand for. *)
Definition attr_pairs (a : XMLAttribute) : list StrPair := [_name a; _value a].
Definition attr_strings (a : attribute) : list (list Z) := [at_name a; at_value a].

Fixpoint pairs (n : XMLNode) : list StrPair :=
  match n with
  | XMLElement _ name _ attrs cs => name :: flat_map attr_pairs attrs ++ flat_map pairs cs
  | XMLText _ v _ | XMLComment _ v | XMLDeclaration _ v | XMLUnknown _ v => [v]
  end.
Fixpoint strings (x : xml) : list (list Z) :=
  match x with
  | Element _ name attrs xs => name :: flat_map attr_strings attrs ++ flat_map strings xs
  | Text _ _ v | Comment _ v | Declaration _ v | Unknown _ v => [v]
  end.

(** A node and a tree that are alike but for the strings. *)
Inductive same_shape : XMLNode -> xml -> Prop :=
| shape_element line name closing attrs cs n ats xs :
    closing <> CLOSING -> a_line <$> attrs = at_line <$> ats -> Forall2 same_shape cs xs ->
    same_shape (XMLElement line name closing attrs cs) (Element line n ats xs)
| shape_text line v cdata x : same_shape (XMLText line v cdata) (Text line cdata x)
| shape_comment line v x : same_shape (XMLComment line v) (Comment line x)
| shape_declaration line v x : same_shape (XMLDeclaration line v) (Declaration line x)
| shape_unknown line v x : same_shape (XMLUnknown line v) (Unknown line x).

(** Induction over shapes, with the hypothesis for the children. *)
Section ShapeInd.
Context (P : XMLNode -> xml -> Prop).
Context (Helement : forall line name closing attrs cs n ats xs,
  closing <> CLOSING -> a_line <$> attrs = at_line <$> ats -> Forall2 same_shape cs xs -> Forall2 P cs xs ->
  P (XMLElement line name closing attrs cs) (Element line n ats xs)).
Context (Htext : forall line v cdata x, P (XMLText line v cdata) (Text line cdata x)).
Context (Hcomment : forall line v x, P (XMLComment line v) (Comment line x)).
Context (Hdeclaration : forall line v x, P (XMLDeclaration line v) (Declaration line x)).
Context (Hunknown : forall line v x, P (XMLUnknown line v) (Unknown line x)).
Fixpoint shape_ind n x (H : same_shape n x) {struct H} : P n x :=
  match H in same_shape n x return P n x with
  | shape_element line name closing attrs cs nm ats xs H1 H2 H3 =>
      Helement line name closing attrs cs nm ats xs H1 H2 H3
        ((fix go cs xs (F : Forall2 same_shape cs xs) {struct F} : Forall2 P cs xs :=
            match F in Forall2 _ cs xs return Forall2 P cs xs with
            | @List.Forall2_nil _ _ _ => @List.Forall2_nil _ _ P
            | @List.Forall2_cons _ _ _ _ _ _ _ h t => @List.Forall2_cons _ _ P _ _ _ _ (shape_ind _ _ h) (go _ _ t)
            end) cs xs H3)
  | shape_text line v cdata x => Htext line v cdata x
  | shape_comment line v x => Hcomment line v x
  | shape_declaration line v x => Hdeclaration line v x
  | shape_unknown line v x => Hunknown line v x
  end.
End ShapeInd.

(** The tree of a node, by what its pairs stand for. *)
Fixpoint tree_of (v : StrPair -> list Z) (n : XMLNode) : xml :=
  match n with
  | XMLElement line name _ attrs cs =>
      Element line (v name) ((fun a => Attribute (a_line a) (v (_name a)) (v (_value a))) <$> attrs) (map (tree_of v) cs)
  | XMLText line s cdata => Text line cdata (v s)
  | XMLComment line s => Comment line (v s)
  | XMLDeclaration line s => Declaration line (v s)
  | XMLUnknown line s => Unknown line (v s)
  end.

(** The pairs of nodes of the same shape match the strings one by one. *)
Lemma attr_split (v : StrPair -> list Z) attrs ats ss xs :
  a_line <$> attrs = at_line <$> ats ->
  v <$> (flat_map attr_pairs attrs ++ ss) = flat_map attr_strings ats ++ xs ->
  ((fun a => Attribute (a_line a) (v (_name a)) (v (_value a))) <$> attrs) = ats /\ v <$> ss = xs.
Proof.
  revert ats. induction attrs as [|a attrs IH]; intros [|x ats] Hl H; try discriminate; [now split|].
  cbn in Hl, H. injection Hl as Hl1 Hl. injection H as H1 H2 H. destruct (IH _ Hl H) as [E1 E2].
  split; [|exact E2]. cbn. f_equal; [|exact E1]. destruct x; cbn in *; congruence.
Qed.

Lemma tree_of_strings v n x :
  same_shape n x -> forall ss xs, v <$> (pairs n ++ ss) = strings x ++ xs -> tree_of v n = x /\ v <$> ss = xs.
Proof.
  intros H. induction H as [line name closing attrs cs n ats xs _ Hl _ IH|line s cdata x|line s x|line s x|line s x]
    using shape_ind; intros ss ys E; cbn in E; try (injection E as E1 E2; cbn; split; congruence).
  injection E as E1 E. rewrite <- !app_assoc in E. apply attr_split in E as [Ea E]; [|exact Hl].
  assert (map (tree_of v) cs = xs /\ v <$> ss = ys) as [Ec Es].
  { clear -IH E. induction IH as [|c x cs xs Hc _ IH]; [now split|]. cbn in E. rewrite <- !app_assoc in E.
    apply Hc in E as [Hx E]. apply IH in E as [Hxs E]. split; [cbn; congruence | exact E]. }
  split; [cbn; congruence | exact Es].
Qed.

Lemma trees_of_strings v cs xs :
  Forall2 same_shape cs xs -> v <$> flat_map pairs cs = flat_map strings xs -> tree_of v <$> cs = xs.
Proof.
  induction 1 as [|c x cs xs Hc _ IH]; [reflexivity|]. cbn. intros E.
  apply (tree_of_strings v c x Hc) in E as [E1 E2]. f_equal; [exact E1 | now apply IH].
Qed.

(** ** Reading the strings of a document *)

(** What [GetStr] of a pair returns in a buffer. *)
Definition value_of (B : list Z) (s : StrPair) : list Z :=
  match GetStr s B with Ret (s, m) => c_string m (_start s) | Undef => [] end.

Lemma value_of_pair B lo hi s x : pair_at B lo hi s x -> value_of B s = x.
Proof.
  intros H. destruct (get_pair B lo hi s x (Doc B XML_SUCCESS 0 0 0) H eq_refl) as (s' & B' & E & H' & F & _).
  unfold get in E. cbn [_charBuffer] in E. unfold value_of. destruct (GetStr s B) as [|[s1 m]]; [discriminate|].
  cbn in E. injection E as -> ->. destruct H' as (_ & _ & H'').
  destruct H'' as [(f & o & Hf & Hs & _) | (_ & Hx & _ & Ht & Hn)]; [|now apply c_string_at].
  destruct (flag_facts f Hf) as [F1 _]. rewrite F in Hs. rewrite <- Hs in F1. discriminate.
Qed.

Lemma value_of_placed B lo hi ss xs : placed B lo hi ss xs -> value_of B <$> ss = xs.
Proof.
  revert lo xs. induction ss as [|s ss IH]; intros lo [|x xs] H; cbn in *; try easy.
  destruct H as (mid & H1 & H2). f_equal; [eapply value_of_pair; exact H1 | eapply IH; exact H2].
Qed.

(** A client that asks for the strings of the pairs [ss], in the order [order] and as
    often as it likes. *)
Fixpoint read_strings (order : list nat) (ss : list StrPair) (d : doc) : ub (list (list Z)) :=
  match order with
  | [] => Ret []
  | i :: order =>
      match ss !! i with
      | None => Undef
      | Some s =>
          '(s, d) ← get s d;
          x ← cstr (_start s) d;
          xs ← read_strings order (<[i := s]> ss) d;
          Ret (x :: xs)
      end
  end.

Lemma placed_get B lo hi ss xs i s d :
  placed B lo hi ss xs -> ss !! i = Some s -> _charBuffer d = B ->
  exists s' B', get s d = Ret (s', with_buf d B') /\ cstr (_start s') (with_buf d B') = Ret (default [] (xs !! i)) /\
    placed B' lo hi (<[i := s']> ss) xs /\ same_but lo hi B B'.
Proof.
  revert lo xs i. induction ss as [|t ss IH]; intros lo [|x xs] i H Hs Hd; cbn in H; try easy.
  destruct H as (mid & H1 & H2). pose proof (placed_bounds _ _ _ _ _ H2). pose proof (pair_at_bounds _ _ _ _ _ H1).
  destruct i as [|i].
  - injection Hs as ->. destruct (get_pair _ _ _ _ _ d H1 Hd) as (s' & B' & -> & H' & F & S1).
    exists s', B'. split; [reflexivity|]. split; [exact (cstr_flushed _ _ _ _ _ (with_buf d B') H' F eq_refl)|].
    split; [|eapply same_but_wide; [exact S1 | lia..]]. exists mid. split; [exact H'|].
    eapply placed_frame; [exact H2 | exact S1 | lia].
  - destruct (IH mid xs i H2 Hs Hd) as (s' & B' & E1 & E2 & E3 & S1). exists s', B'.
    split; [exact E1|]. split; [exact E2|]. split; [|eapply same_but_wide; [exact S1 | lia..]].
    exists mid. split; [eapply pair_at_frame; [exact H1 | exact S1 | lia] | exact E3].
Qed.

Lemma read_strings_placed order B lo hi ss xs d :
  placed B lo hi ss xs -> _charBuffer d = B -> Forall (fun i => (i < length ss)%nat) order ->
  read_strings order ss d = Ret ((fun i => default [] (xs !! i)) <$> order).
Proof.
  revert B ss d. induction order as [|i order IH]; intros B ss d H Hd Hi; [reflexivity|].
  inversion_clear Hi as [|? ? Hlt Hi']. cbn [read_strings]. destruct (lookup_lt_is_Some_2 ss i Hlt) as [s Hs].
  rewrite Hs. destruct (placed_get _ _ _ _ _ _ _ _ H Hs Hd) as (s' & B' & -> & E & H' & _). cbn [mbind ub_bind].
  rewrite E. cbn [mbind ub_bind].
  rewrite (IH B') by (assumption || reflexivity || now rewrite length_insert). reflexivity.
Qed.

(** ** Comparing names *)

Lemma StringEqual_pairs B lo1 hi1 s1 x1 lo2 hi2 s2 x2 d :
  pair_at B lo1 hi1 s1 x1 -> pair_at B lo2 hi2 s2 x2 -> _flags s1 = 0 -> _flags s2 = 0 ->
  _charBuffer d = B -> Z.of_nat hi1 <= INT32_MAX -> Z.of_nat hi2 <= INT32_MAX ->
  StringEqual (_start s1) (_start s2) d = Ret (bool_decide (x1 = x2)).
Proof.
  intros H1 H2 F1 F2 Hd L1 L2. unfold StringEqual.
  rewrite (cstr_flushed _ _ _ _ _ _ H1 F1 Hd), (cstr_flushed _ _ _ _ _ _ H2 F2 Hd). cbn [mbind ub_bind].
  apply pair_at_bounds in H1, H2. now rewrite !write_once by lia.
Qed.

(** [FindAttribute] among the attributes in [lo..mid), for the name behind them. *)
Lemma FindAttribute_finds attrs ats B lo mid hi s n d :
  placed B lo mid (flat_map attr_pairs attrs) (flat_map attr_strings ats) ->
  a_line <$> attrs = at_line <$> ats ->
  pair_at B mid hi s n -> _flags s = 0 -> _charBuffer d = B -> Z.of_nat hi <= INT32_MAX ->
  exists attrs' B', FindAttribute (_start s) attrs d =
      Ret (existsb (fun a => bool_decide (at_name a = n)) ats, attrs', with_buf d B') /\
    placed B' lo mid (flat_map attr_pairs attrs') (flat_map attr_strings ats) /\
    a_line <$> attrs' = at_line <$> ats /\ same_but lo mid B B'.
Proof.
  revert ats B lo d. induction attrs as [|a attrs IH]; intros [|x ats] B lo d Hp Hl Hs Hf Hd Hi; try easy.
  { exists [], B. cbn. rewrite <- Hd. destruct d. split; [reflexivity|]. now split_and!. }
  cbn [flat_map app attr_pairs attr_strings] in Hp. destruct Hp as (k1 & Hn & k2 & Hv & Hr).
  cbn [fmap list_fmap] in Hl. injection Hl as Hl1 Hl.
  pose proof (pair_at_bounds _ _ _ _ _ Hn). pose proof (pair_at_bounds _ _ _ _ _ Hv).
  pose proof (placed_bounds _ _ _ _ _ Hr). pose proof (pair_at_bounds _ _ _ _ _ Hs).
  cbn [FindAttribute existsb]. destruct (get_pair _ _ _ _ _ _ Hn Hd) as (n' & B1 & -> & Hn' & Fn & S1).
  cbn [mbind ub_bind]. pose proof (pair_at_frame _ _ _ _ _ _ _ _ Hs S1 ltac:(lia)) as Hs1.
  rewrite (StringEqual_pairs B1 lo k1 n' (at_name x) mid hi s n) by (assumption || reflexivity || lia).
  cbn [mbind ub_bind]. pose proof (pair_at_frame _ _ _ _ _ _ _ _ Hv S1 ltac:(lia)) as Hv1.
  pose proof (placed_frame _ _ _ _ _ _ _ _ Hr S1 ltac:(lia)) as Hr1.
  case_bool_decide as He; cbn [orb].
  - destruct (get_pair _ _ _ _ _ (with_buf d B1) Hv1 eq_refl) as (v' & B2 & -> & Hv' & _ & S2).
    cbn [mbind ub_bind]. eexists _, B2. split; [reflexivity|]. cbn [flat_map app attr_pairs attr_strings].
    split_and!.
    + exists k1. split; [eapply pair_at_frame; [exact Hn' | exact S2 | lia]|]. exists k2. split; [exact Hv'|].
      eapply placed_frame; [exact Hr1 | exact S2 | lia].
    + cbn. now f_equal.
    + eapply same_but_trans; (eapply same_but_wide; [eassumption | lia | lia]).
  - destruct (IH ats B1 k2 (with_buf d B1) Hr1 Hl Hs1 Hf eq_refl Hi) as (attrs' & B2 & -> & Hp' & Hl' & S2).
    cbn [mbind ub_bind]. eexists _, B2. split; [reflexivity|]. cbn [flat_map app attr_pairs attr_strings].
    split_and!.
    + exists k1. split; [eapply pair_at_frame; [exact Hn' | exact S2 | lia]|]. exists k2. split; [|exact Hp'].
      eapply pair_at_frame; [exact Hv1 | exact S2 | lia].
    + cbn. now f_equal.
    + eapply same_but_trans; (eapply same_but_wide; [eassumption | lia | lia]).
Qed.

(** ** Reading the text behind a pointer *)

Section Refine.
Context (T tail : list Z) (HT : text T) (Hsize : Z.of_nat (length T) < INT32_MAX).
Implicit Types (l r B : list Z) (d : doc).

Definition m0 : list Z := T ++ 0 :: tail.
Definition total : Z := 1 + lines T.
Definition pos l : nat := (length T - length l)%nat.
(** The document that has [l] still to read, without an error. *)
Definition st B l (depth : Z) : doc := Doc B XML_SUCCESS 0 (line_of total l) depth.
(** The buffer from there on is as it was. *)
Definition unread B l : Prop :=
  l `suffix_of` T /\ drop (pos l) B = l ++ 0 :: tail /\ length B = length m0.

Lemma suffix_text l : l `suffix_of` T -> text l.
Proof. intros [k ->]. now apply Forall_app in HT as [_ ?]. Qed.

Lemma suffix_pos l : l `suffix_of` T -> (length l + pos l = length T)%nat.
Proof. intros H. apply suffix_length in H. unfold pos. lia. Qed.

Lemma pos_app a l : (a ++ l) `suffix_of` T -> pos l = (pos (a ++ l) + length a)%nat.
Proof. intros H. apply suffix_length in H. unfold pos. rewrite length_app in *. lia. Qed.

Lemma unread_app B a l : unread B (a ++ l) -> unread B l.
Proof.
  intros (H1 & H2 & H3). split; [now apply suffix_app_l in H1|]. split; [|exact H3].
  rewrite (pos_app a l H1), <- drop_drop, H2, <- app_assoc. apply drop_app_length.
Qed.

Lemma unread_suffix B l r : unread B l -> r `suffix_of` l -> unread B r.
Proof. intros H [k ->]. now apply unread_app in H. Qed.

Lemma line_of_bounds l : l `suffix_of` T -> 1 <= line_of total l /\ line_of total l + lines l = total /\ total <= INT32_MAX.
Proof.
  intros [k Hk]. pose proof (f_equal lines Hk) as Hl. rewrite lines_app in Hl. unfold line_of, total.
  pose proof (lines_bound k). pose proof (lines_bound l). pose proof (lines_bound T). lia.
Qed.

Lemma rd_unread B l i x : unread B l -> (l ++ 0 :: tail) !! i = Some x -> rd B (pos l + i) = Ret x.
Proof.
  intros (_ & H2 & _) Hx. unfold rd. rewrite <- H2, lookup_drop in Hx. now rewrite Hx.
Qed.

Lemma at_unread B l d : unread B l -> _charBuffer d = B -> at_ (pos l) d = Ret (at0 l 0).
Proof.
  intros H Hd. unfold at_. rewrite Hd, <- (Nat.add_0_r (pos l)). apply (rd_unread B l); [exact H|].
  now destruct l.
Qed.

Lemma skip_unread B l depth :
  unread B l -> skip (pos l) (st B l depth) = Ret (pos (skip_lead l), st B (skip_lead l) depth).
Proof.
  intros H. pose proof H as (H1 & H2 & _). destruct (line_of_bounds l H1) as (L1 & L2 & L3).
  pose proof (suffix_length _ _ (skip_lead_suffix l)) as Hs. pose proof (suffix_length _ _ H1).
  unfold skip, SkipWhiteSpace. cbn [_charBuffer _parseCurLineNum st]. rewrite H2, skip_space_lead by lia.
  cbn [mbind ub_bind default from_option id]. unfold with_line, st. cbn [_charBuffer _errorID _errorLineNum _parsingDepth].
  apply f_equal, f_equal2; [unfold pos; lia|]. f_equal. unfold line_of. lia.
Qed.

Lemma pos_cons c l B : unread B (c :: l) -> S (pos (c :: l)) = pos l.
Proof. intros [H _]. apply suffix_length in H. unfold pos. cbn [length] in *. lia. Qed.

Lemma line_cons c l : c <> LF -> line_of total (c :: l) = line_of total l.
Proof. intros H. unfold line_of. cbn [lines]. now rewrite (proj2 (Z.eqb_neq _ _) H). Qed.

Lemma line_app a l : lines a = 0 -> line_of total (a ++ l) = line_of total l.
Proof. intros H. unfold line_of. rewrite lines_app. lia. Qed.

(** Behind a character that is no line end. *)
Lemma st_cons B c l depth : c <> LF -> st B (c :: l) depth = st B l depth.
Proof. intros H. unfold st. now rewrite line_cons. Qed.

Lemma parse_value_unread B l depth pat flags :
  text pat -> pat <> [] -> lines pat = 0 -> unread B l ->
  exists line, parse_value (pos l) pat flags (st B l depth) =
    Ret match upto pat l with
        | Some (a, b) => (Some (Set_ (pos l) (pos l + length a) flags, pos b), st B b depth)
        | None => (None, Doc B XML_SUCCESS 0 line depth)
        end.
Proof.
  intros Hp Hne Hl H. pose proof H as (H1 & H2 & _). destruct (line_of_bounds l H1) as (L1 & L2 & L3).
  exists (line_of total l + lines l). unfold parse_value, ParseText. cbn [_charBuffer _parseCurLineNum st].
  rewrite H2, parse_text_upto by (assumption || lia || now apply suffix_text).
  cbn [mbind ub_bind]. destruct (upto pat l) as [[a b]|] eqn:E; [|reflexivity].
  apply upto_split in E. subst l. cbn [mbind ub_bind]. f_equal. unfold with_line, st. cbn. f_equal.
  - f_equal. f_equal. rewrite (pos_app (a ++ pat) b), length_app, <- app_assoc by (now rewrite <- app_assoc). lia.
  - f_equal. unfold line_of. rewrite !lines_app. lia.
Qed.

Lemma ParseName_unread B l :
  unread B l ->
  ParseName B (pos l) =
  Ret match name_at l with Some (n, r) => Some (Set_ (pos l) (pos r) 0, pos r) | None => None end.
Proof.
  intros H. pose proof H as (H1 & H2 & _). unfold ParseName.
  rewrite (at_unread B l (Doc B XML_SUCCESS 0 0 0) H eq_refl : rd B (pos l) = _). cbn [mbind ub_bind].
  destruct l as [|c l]; [reflexivity|]. change (at0 (c :: l) 0) with c.
  pose proof (suffix_text _ H1) as Ht. inversion_clear Ht as [|? ? Hc Hl].
  destruct (c =? 0) eqn:E; boolprop; [congruence|]. unfold name_at.
  destruct (IsNameStartChar c); cbn [negb]; [|reflexivity].
  assert (drop (S (pos (c :: l))) B = l ++ 0 :: tail) as ->
    by (rewrite <- Nat.add_1_r, <- drop_drop, H2; reflexivity).
  rewrite name_end_span by exact Hl. destruct (span_name l) as [n r] eqn:Es. cbn [fst mbind ub_bind].
  apply span_name_split in Es as (-> & _ & _).
  rewrite (pos_cons _ _ _ H). rewrite <- (pos_app n r) by now apply (suffix_app_l [c]). reflexivity.
Qed.

Lemma Identify_unread B l depth :
  unread B l ->
  Identify (pos l) (st B l depth) =
  Ret match skip_lead l with
      | [] => (None, pos [], st B [] depth)
      | _ => match header_at (skip_lead l) with
             | Some (h, k) => (Some (k, line_of total (skip_lead l)), pos (drop (length h) (skip_lead l)),
                               st B (drop (length h) (skip_lead l)) depth)
             | None => (Some (KText false, line_of total (skip_lead l)), pos l, st B l depth)
             end
      end.
Proof.
  intros H. unfold Identify. rewrite skip_unread by exact H. cbn [mbind ub_bind].
  assert (unread B (skip_lead l)) as Hs by (eapply unread_suffix; [exact H | apply skip_lead_suffix]).
  rewrite (at_unread B) by (exact Hs || reflexivity). cbn [mbind ub_bind].
  destruct (skip_lead l) as [|c r] eqn:E; [reflexivity|]. change (at0 (c :: r) 0) with c.
  pose proof (suffix_text _ (proj1 Hs)) as Ht. inversion_clear Ht as [|? ? Hc _].
  destruct (c =? 0) eqn:E0; boolprop; [congruence|]. cbn [_charBuffer st].
  destruct Hs as (H1 & H2 & H3).
  assert (find_header B (pos (c :: r)) headers = Ret (header_at (c :: r))) as ->.
  { rewrite <- (take_drop (pos (c :: r)) B) at 1. rewrite H2.
    assert (length (take (pos (c :: r)) B) = pos (c :: r)) as Hl
      by (rewrite length_take, H3; unfold m0, pos; rewrite length_app; lia).
    rewrite <- Hl at 2. apply find_header_at. }
  cbn [mbind ub_bind]. destruct (header_at (c :: r)) as [[h k]|] eqn:Eh; [|reflexivity].
  apply header_at_split in Eh as (Hin & Hsp & _). set (r' := drop (length h) (c :: r)) in *.
  cbn [_parseCurLineNum]. f_equal. rewrite Hsp at 2 3.
  assert (lines h = 0) as Hl.
  { unfold headers in Hin. rewrite !elem_of_cons, elem_of_nil in Hin.
    destruct Hin as [[= -> ->]|[[= -> ->]|[[= -> ->]|[[= -> ->]|[[= -> ->]|[]]]]]]; reflexivity. }
  rewrite Hsp in H1. f_equal.
  - f_equal. symmetry. now apply pos_app.
  - unfold st. now rewrite line_app.
Qed.


(** ** Attributes *)

Section Modes.
Context (pe : bool) (mode : Whitespace).

Lemma unread_frame B B' lo hi l : unread B l -> same_but lo hi B B' -> (hi <= pos l)%nat -> unread B' l.
Proof.
  intros (H1 & H2 & H3) [HL HB] Hi. split; [exact H1|]. split; [|congruence].
  rewrite <- H2. apply list_eq. intros i. rewrite !lookup_drop. apply HB. lia.
Qed.

Lemma value_flags_range : 0 <= value_flags pe < 8.
Proof. unfold value_flags. destruct pe; now split. Qed.
Lemma text_flags_range : 0 <= text_flags pe mode < 8.
Proof. unfold text_flags. destruct pe, mode; now split. Qed.

Lemma pair_text_name n : text n -> pair_text 0 n = n.
Proof. intros H. unfold pair_text. change (has 0 NEEDS_WHITESPACE_COLLAPSING) with false. rewrite decode_none, until_nul_id by exact H. reflexivity. Qed.

(** The pair of a name or a value that was just read. *)
Lemma pair_unread B a l flags :
  unread B (a ++ l) -> 0 <= flags < 8 ->
  pair_at B (pos (a ++ l)) (S (pos l)) (Set_ (pos (a ++ l)) (pos (a ++ l) + length a) flags) (pair_text flags a).
Proof.
  intros (H1 & H2 & H3) Hf. pose proof (suffix_text _ H1) as Ht. apply Forall_app in Ht as [Ha _].
  apply pair_at_set with (r := l ++ 0 :: tail); try assumption; [lia| |now rewrite <- app_assoc in H2|now destruct l].
  rewrite (pos_app a l H1). lia.
Qed.

Lemma name_not_lf c : IsNameChar c = true -> c <> LF.
Proof. now intros H ->. Qed.
Lemma name_lines n : Forall (fun c => IsNameChar c = true) n -> lines n = 0.
Proof.
  induction 1 as [|c n Hc _ IH]; [reflexivity|]. cbn [lines]. apply name_not_lf in Hc.
  now rewrite (proj2 (Z.eqb_neq _ _) Hc).
Qed.
Lemma valid_name_lines n : valid_name n -> lines n = 0.
Proof. intros (c & n' & -> & Hc & Hn). apply name_lines. constructor; [now apply start_is_name | exact Hn]. Qed.

Lemma attribute_unread B l depth :
  unread B l ->
  match attribute_at pe l with
  | Some (n, v, r) =>
      exists sn sv mid, XMLAttribute_ParseDeep pe (pos l) (st B l depth) = Ret (Some (sn, sv, pos r), st B r depth) /\
        pair_at B (pos l) mid sn n /\ pair_at B mid (pos r) sv v
  | None =>
      exists line, XMLAttribute_ParseDeep pe (pos l) (st B l depth) = Ret (None, Doc B XML_SUCCESS 0 line depth)
  end.
Proof.
  intros H. unfold XMLAttribute_ParseDeep, attribute_at. cbn [_charBuffer st].
  rewrite ParseName_unread by exact H. cbn [mbind ub_bind].
  destruct (name_at l) as [[n l1]|] eqn:En; cbn [mbind option_bind]; [|eauto].
  apply name_at_split in En as (-> & Hn & _). pose proof (unread_app _ _ _ H) as H1.
  rewrite (at_unread B l1) by (exact H1 || reflexivity). cbn [mbind ub_bind].
  change (Doc B XML_SUCCESS 0 (line_of total (n ++ l1)) depth) with (st B (n ++ l1) depth).
  assert (st B (n ++ l1) depth = st B l1 depth) as -> by (unfold st; rewrite line_app; [reflexivity | now apply valid_name_lines]).
  pose proof (suffix_text _ (proj1 H1)) as Ht1.
  destruct (at0 l1 0 =? 0) eqn:E0; boolprop.
  { assert (l1 = []) as -> by (destruct l1; [reflexivity|]; inversion_clear Ht1; cbn in E0; congruence).
    cbn. eauto. }
  rewrite skip_unread by exact H1. cbn [mbind ub_bind].
  assert (unread B (skip_lead l1)) as H2 by (eapply unread_suffix; [exact H1 | apply skip_lead_suffix]).
  rewrite (at_unread B) by (exact H2 || reflexivity). cbn [mbind ub_bind].
  destruct (skip_lead l1) as [|c l2] eqn:E1; [cbn; eauto|]. change (at0 (c :: l2) 0) with c.
  destruct (c =? 61) eqn:Ec; cbn [negb]; [|eauto]. boolprop. subst c.
  rewrite (pos_cons _ _ _ H2), st_cons by discriminate. pose proof (unread_app _ [61] _ H2) as H3.
  rewrite skip_unread by exact H3. cbn [mbind ub_bind].
  assert (unread B (skip_lead l2)) as H4 by (eapply unread_suffix; [exact H3 | apply skip_lead_suffix]).
  rewrite (at_unread B) by (exact H4 || reflexivity). cbn [mbind ub_bind].
  destruct (skip_lead l2) as [|q l3] eqn:E2; [cbn; eauto|]. change (at0 (q :: l3) 0) with q.
  rewrite <- negb_orb. destruct (_ || _) eqn:Eq; cbn [negb]; [|eauto].
  assert (q <> 0 /\ q <> LF) as [Hq0 HqL]
    by (apply orb_true_iff in Eq; rewrite !Z.eqb_eq in Eq; destruct Eq as [-> | ->]; now split).
  rewrite (pos_cons _ _ _ H4), st_cons by exact HqL. pose proof (unread_app _ [q] _ H4) as H5.
  destruct (parse_value_unread B l3 depth [q] (value_flags pe)) as [line Hv];
    [now repeat constructor | discriminate | cbn; now rewrite (proj2 (Z.eqb_neq _ _) HqL) | exact H5 |].
  unfold value_flags at 1 in Hv. rewrite Hv. cbn [mbind ub_bind].
  destruct (upto [q] l3) as [[v r]|] eqn:Eu; cbn [mbind option_bind]; [|eauto].
  apply upto_split in Eu. subst l3. eexists _, _, (S (pos l1)). split; [reflexivity|].
  pose proof (suffix_length _ _ (skip_lead_suffix l1)) as L1. rewrite E1 in L1.
  pose proof (suffix_length _ _ (skip_lead_suffix l2)) as L2. rewrite E2 in L2. cbn [length] in L1, L2.
  assert (forall x, unread B x -> (length x + pos x = length T)%nat) as HP by (intros x Hx; apply suffix_pos, Hx).
  pose proof (HP _ H) as P0. pose proof (HP _ H1) as P1. pose proof (HP _ H5) as P5.
  assert (unread B r) as H6 by (apply (unread_app _ (v ++ [q])); now rewrite <- app_assoc).
  pose proof (HP _ H6) as P6.
  rewrite !length_app in *. cbn [length] in *. split.
  - pose proof (pair_unread B n l1 0 H ltac:(lia)) as Hp. rewrite pair_text_name in Hp.
    2: { pose proof (suffix_text _ (proj1 H)) as Ht. now apply Forall_app in Ht as [? _]. }
    replace (pos (n ++ l1) + length n)%nat with (pos l1) in Hp by lia. exact Hp.
  - pose proof (pair_unread B v ([q] ++ r) (value_flags pe) H5 value_flags_range) as Hp.
    eapply pair_at_wide; [exact Hp | lia |]. unfold pos. cbn [app length]. lia.
Qed.

(** What [ParseAttributes] gives for a tag whose attributes start at [lo] and whose
    name lies in front of them, from [lo0] on. *)
Definition tag_post B lo0 lo depth (closing : ElementClosingType) (name : StrPair) (t : tag_rest)
    (res : ub (tag * doc)) : Prop :=
  let good closing ats r :=
    exists attrs B', res = Ret (Tag (Some (pos r)) closing attrs name, st B' r depth) /\
      unread B' r /\ placed B' lo (pos r) (flat_map attr_pairs attrs) (flat_map attr_strings ats) /\
      a_line <$> attrs = at_line <$> ats /\ same_but lo (pos r) B B' in
  match t with
  | TagOpen ats r => good closing ats r
  | TagClosed ats r => good CLOSED ats r
  | TagBad e ln =>
      exists tg B' line, res = Ret (tg, Doc B' e ln line depth) /\ t_next tg = None /\
        e <> XML_SUCCESS /\ same_but lo0 (length B) B B'
  end.

Lemma unread_length B l : unread B l -> (pos l <= length T < length B)%nat.
Proof.
  intros (H1 & _ & H3). apply suffix_pos in H1. rewrite H3. unfold m0. rewrite length_app. cbn. lia.
Qed.

Lemma unread_pos B l r : unread B l -> r `suffix_of` l -> (length r < length l)%nat -> (pos l < pos r)%nat.
Proof.
  intros H Hr Hl. pose proof (suffix_pos _ (proj1 H)).
  pose proof (suffix_pos _ (proj1 (unread_suffix _ _ _ H Hr))). lia.
Qed.

(** The errors of a tag, which ask for the element's name. *)
Lemma tag_error B1 B lo0 lo hi depth closing attrs name n e ln line :
  pair_at B lo0 lo name n -> same_but lo0 hi B1 B -> (lo <= length B1)%nat -> (hi <= length B1)%nat ->
  e <> XML_SUCCESS ->
  exists tg B' line', ('(name, d) ← get name (Doc B XML_SUCCESS 0 line depth);
      Ret (Tag None closing attrs name, SetError e ln d)) = Ret (tg, Doc B' e ln line' depth) /\
    t_next tg = None /\ e <> XML_SUCCESS /\ same_but lo0 (length B1) B1 B'.
Proof.
  intros Hn HB Hlo Hhi He. destruct (get_pair _ _ _ _ _ (Doc B XML_SUCCESS 0 line depth) Hn eq_refl)
    as (name' & B' & -> & _ & _ & HS). cbn [mbind ub_bind]. eexists _, B', line. split; [reflexivity|].
  split; [reflexivity|]. split; [exact He|].
  eapply same_but_trans; (eapply same_but_wide; [eassumption | lia | lia]).
Qed.

Lemma attributes_refine fuel fuel' line attrs ats l t B lo0 lo hi depth closing name n :
  unread B l -> (fuel <= fuel')%nat -> attributes pe total fuel line ats l = Some t ->
  pair_at B lo0 lo name n -> placed B lo hi (flat_map attr_pairs attrs) (flat_map attr_strings ats) ->
  (hi <= pos l \/ hi = S (pos l) /\ IsNameStartChar (at0 l 0) = false)%nat ->
  a_line <$> attrs = at_line <$> ats ->
  tag_post B lo0 lo depth closing name t
    (ParseAttributes pe fuel' line name closing attrs (pos l) (st B l depth)).
Proof.
  revert fuel' attrs ats l B hi. induction fuel as [|fuel IH]; intros [|fuel'] attrs ats l B hi H Hf Ha Hn Hp Hhi Hl; try easy.
  cbn [attributes] in Ha. cbn [ParseAttributes]. rewrite skip_unread by exact H. cbn [mbind ub_bind].
  pose proof (skip_lead_suffix l) as HS. assert (unread B (skip_lead l)) as U1 by (eapply unread_suffix; eauto).
  rewrite (at_unread B) by (exact U1 || reflexivity). cbn [mbind ub_bind].
  pose proof (placed_bounds _ _ _ _ _ Hp). pose proof (unread_length _ _ H). pose proof (pair_at_bounds _ _ _ _ _ Hn).
  assert (pos l <= pos (skip_lead l))%nat by (apply suffix_length in HS; unfold pos; lia).
  destruct (skip_lead l) as [|c r] eqn:E.
  { injection Ha as <-. change (at0 [] 0 =? 0) with true. cbn iota.
    eapply (tag_error B B lo0 lo lo); [exact Hn | apply same_but_refl | lia | lia | discriminate]. }
  change (at0 (c :: r) 0) with c. pose proof (suffix_text _ (proj1 U1)) as Ht. inversion_clear Ht as [|? ? Hc Hr].
  rewrite (proj2 (Z.eqb_neq _ _) Hc). destruct (IsNameStartChar c) eqn:Ec.
  - assert (hi <= pos (c :: r))%nat.
    { destruct Hhi as [|[-> Hnn]]; [lia|]. destruct l as [|x l]; [discriminate|]. cbn [skip_lead] in E.
      destruct (IsWhiteSpace x); [|cbn in Hnn; congruence]. pose proof (suffix_length _ _ (skip_lead_suffix l)) as Hle.
      pose proof (suffix_pos _ (proj1 H)). pose proof (suffix_pos _ (proj1 U1)). rewrite E in Hle. cbn [length] in *. lia. }
    pose proof (attribute_unread B (c :: r) depth U1) as HA. cbn [_parseCurLineNum st].
    change (Doc B XML_SUCCESS 0 (line_of total (c :: r)) depth) with (st B (c :: r) depth).
    destruct (attribute_at pe (c :: r)) as [[[an av] r']|] eqn:Ea.
    2: { injection Ha as <-. destruct HA as [ln ->]. cbn [mbind ub_bind].
         eapply (tag_error B B lo0 lo lo); [exact Hn | apply same_but_refl | lia | lia | discriminate]. }
    destruct HA as (sn & sv & mid & -> & Hsn & Hsv). cbn [mbind ub_bind].
    destruct (attribute_at_suffix _ _ _ _ _ Ea) as [Hs' Hl']. pose proof (unread_suffix _ _ _ U1 Hs') as U2.
    pose proof (pair_at_bounds _ _ _ _ _ Hsn). pose proof (pair_at_bounds _ _ _ _ _ Hsv).
    pose proof (unread_length _ _ U2).
    destruct (get_pair _ _ _ _ _ (st B r' depth) Hsn eq_refl) as (sn' & B1 & -> & Hsn1 & Fn & S1).
    cbn [mbind ub_bind]. pose proof (placed_frame _ _ _ _ _ _ _ _ Hp S1 ltac:(lia)) as Hp1.
    destruct (FindAttribute_finds attrs ats B1 lo (pos (c :: r)) mid sn' an (with_buf (st B r' depth) B1))
      as (attrs1 & B2 & -> & Hp2 & Hl2 & S2);
      [eapply placed_wide; [exact Hp1 | lia..] | exact Hl | exact Hsn1 | exact Fn | reflexivity | lia |].
    cbn [mbind ub_bind]. pose proof (pair_at_frame _ _ _ _ _ _ _ _ Hn S1 ltac:(lia)) as Hn1.
    pose proof (pair_at_frame _ _ _ _ _ _ _ _ Hn1 S2 ltac:(lia)) as Hn2.
    assert (same_but lo (pos r') B B2) as S12
      by (eapply same_but_trans; (eapply same_but_wide; [eassumption | lia..])).
    destruct (existsb _ ats) eqn:Ee.
    { injection Ha as <-.
      eapply (tag_error B B2 lo0 lo (pos r')); [exact Hn2 | eapply same_but_wide; [exact S12|lia..] | lia | lia | discriminate]. }
    specialize (IH fuel' (attrs1 ++ [Attr sn' sv (line_of total (c :: r))])
      (ats ++ [Attribute (line_of total (c :: r)) an av]) r' B2
      (pos r') (unread_frame _ _ _ _ _ U2 S12 ltac:(lia)) ltac:(lia) Ha Hn2).
    assert (tag_post B2 lo0 lo depth closing name t (ParseAttributes pe fuel' line name closing
      (attrs1 ++ [Attr sn' sv (line_of total (c :: r))]) (pos r') (st B2 r' depth))) as IH'.
    { apply IH.
      - rewrite !flat_map_app. cbn [flat_map app attr_pairs attr_strings _name _value at_name at_value].
        eapply placed_app; [exact Hp2|]. exists mid.
        split; [eapply pair_at_frame; [exact Hsn1 | exact S2 | lia]|].
        apply placed_one. eapply pair_at_frame; [eapply pair_at_frame; [exact Hsv | exact S1 | lia] | exact S2 | lia].
      - lia.
      - rewrite !fmap_app, Hl2. reflexivity. }
    clear IH. pose proof (same_but_wide _ _ lo0 (length B) _ _ S12 ltac:(lia) ltac:(lia)) as S0.
    assert (length B2 = length B) as EL by apply S12.
    assert (forall r2, tag_left t = Some r2 -> (pos r' <= pos r2)%nat) as HM.
    { intros r2 Hr2. destruct (attributes_suffix _ _ _ _ _ _ _ _ Ha Hr2) as [_ ?]. unfold pos. lia. }
    destruct t as [ats2 r2|ats2 r2|e ln].
    + destruct IH' as (at' & B3 & E3 & U3 & P3 & L3 & S3). exists at', B3. split_and!; try assumption.
      eapply same_but_trans; [eapply same_but_wide; [exact S12 | lia | now apply HM] | exact S3].
    + destruct IH' as (at' & B3 & E3 & U3 & P3 & L3 & S3). exists at', B3. split_and!; try assumption.
      eapply same_but_trans; [eapply same_but_wide; [exact S12 | lia | now apply HM] | exact S3].
    + destruct IH' as (tg & B3 & ln' & E3 & N3 & X3 & S3). exists tg, B3, ln'. split_and!; try assumption.
      rewrite EL in S3. exact (same_but_trans _ _ _ _ _ S0 S3).
  - destruct (c =? 62) eqn:E62; boolprop.
    { injection Ha as <-. subst c. exists attrs, B. rewrite (pos_cons _ _ _ U1), st_cons by discriminate.
      pose proof (pos_cons _ _ _ U1). split_and!; [reflexivity | now apply (unread_app _ [62]) | | exact Hl | apply same_but_refl].
      eapply placed_wide; [exact Hp | lia | lia]. }
    destruct (c =? 47) eqn:E47; boolprop.
    2: { injection Ha as <-. cbn [mbind ub_bind andb]. eexists _, B, _. split; [reflexivity|].
         split; [reflexivity|]. split; [discriminate | apply same_but_refl]. }
    subst c. pose proof (unread_app _ [47] _ U1) as U2. rewrite (pos_cons _ _ _ U1), (at_unread B r) by (exact U2 || reflexivity).
    cbn [mbind ub_bind andb] in *. destruct (at0 r 0 =? 62) eqn:E2; boolprop.
    + injection Ha as <-. assert (exists r2, r = 62 :: r2) as [r2 ->].
      { destruct r as [|x r2]; [discriminate|]. cbn in E2. subst. eauto. }
      exists attrs, B. cbn [skipn]. rewrite drop_0, (pos_cons _ _ _ U2), !st_cons by discriminate.
      pose proof (pos_cons _ _ _ U1). pose proof (pos_cons _ _ _ U2).
      split_and!; [reflexivity | now apply (unread_app _ [62]) | | exact Hl | apply same_but_refl].
      eapply placed_wide; [exact Hp | lia | lia].
    + injection Ha as <-. eexists _, B, _. split; [reflexivity|].
      split; [reflexivity|]. split; [discriminate | apply same_but_refl].
Qed.

(** ** Nodes *)

(** Where the pairs of the text [l] start: the NUL behind a text goes where the next
    tag starts. *)
Definition from l : nat := if at0 l 0 =? 60 then S (pos l) else pos l.

Lemma pos_from l : (pos l <= from l)%nat.
Proof. unfold from. case_goal; lia. Qed.
Lemma from_le B l : unread B l -> (from l <= length T)%nat.
Proof.
  intros [H _]. apply suffix_pos in H. unfold from. destruct l as [|c l]; [|case_goal; cbn [length] in H; lia].
  change (at0 [] 0 =? 60) with false. cbn iota. lia.
Qed.

(** What a round of the loop gives for the item at [lo]. *)
Definition item_post B lo depth (i : item) (res : ub (verdict * doc)) : Prop :=
  match i with
  | Node x r =>
      exists n B', res = Ret (Linked n (pos r), st B' r depth) /\ same_shape n x /\
        placed B' lo (from r) (pairs n) (strings x) /\ unread B' r /\ same_but lo (pos r) B B'
  | Closing nm r =>
      exists q B', res = Ret (EndTag q (pos r), st B' r depth) /\ nm <> [] /\
        pair_at B' lo (pos r) q nm /\ unread B' r /\ same_but lo (pos r) B B'
  | Bad e ln =>
      exists B' line, res = Ret (Stopped, Doc B' e ln line depth) /\ e <> XML_SUCCESS /\
        same_but lo (length B) B B'
  end.

(** What [XMLNode::ParseDeep] gives for the nodes from [lo] on. *)
Definition siblings_post B lo depth (xs : list xml) (e : ending) (res : ub (siblings * doc)) : Prop :=
  exists cs B', Forall2 same_shape cs xs /\
  match e with
  | AtEndTag n r =>
      exists q mid, res = Ret (Some (pos r), q, cs, st B' r depth) /\ n <> [] /\
        placed B' lo mid (flat_map pairs cs) (flat_map strings xs) /\ pair_at B' mid (pos r) q n /\
        unread B' r /\ same_but lo (pos r) B B'
  | AtEnd =>
      res = Ret (None, no_pair, cs, st B' [] depth) /\
        placed B' lo (length T) (flat_map pairs cs) (flat_map strings xs) /\ same_but lo (length B) B B'
  | Failed e ln =>
      exists line, res = Ret (None, no_pair, cs, Doc B' e ln line depth) /\ e <> XML_SUCCESS /\
        placed B' lo (length T) (flat_map pairs cs) (flat_map strings xs) /\ same_but lo (length B) B B'
  end.

Lemma item_post_wide B lo lo' depth i res :
  item_post B lo depth i res -> (lo' <= lo)%nat -> item_post B lo' depth i res.
Proof.
  intros H Hlo. destruct i as [x r|nm r|e ln]; cbn in *.
  - destruct H as (n & B' & H1 & H2 & H3 & H4 & H5). exists n, B'.
    split_and!; eauto using placed_wide, same_but_wide.
  - destruct H as (q & B' & H1 & H2 & H3 & H4 & H5). exists q, B'.
    split_and!; eauto using pair_at_wide, same_but_wide.
  - destruct H as (B' & ln' & H1 & H2 & H3). exists B', ln'. split_and!; eauto using same_but_wide.
Qed.

Lemma item_post_before B B1 lo hi depth i res :
  item_post B1 lo depth i res -> same_but lo hi B B1 -> (hi <= length B)%nat ->
  (forall r, item_left i = Some r -> (hi <= pos r)%nat) -> item_post B lo depth i res.
Proof.
  intros H HB Hhi Hr. assert (length B1 = length B) as EL by apply HB.
  destruct i as [x r|nm r|e ln]; cbn in *.
  - destruct H as (n & B' & H1 & H2 & H3 & H4 & H5). exists n, B'. split_and!; try assumption.
    eapply same_but_trans; [eapply same_but_wide; [exact HB | lia | now apply Hr] | exact H5].
  - destruct H as (q & B' & H1 & H2 & H3 & H4 & H5). exists q, B'. split_and!; try assumption.
    eapply same_but_trans; [eapply same_but_wide; [exact HB | lia | now apply Hr] | exact H5].
  - destruct H as (B' & ln' & H1 & H2 & H3). exists B', ln'. split_and!; try assumption. rewrite EL in H3.
    eapply same_but_trans; [eapply same_but_wide; [exact HB | lia..] | exact H3].
Qed.

Lemma ParseDeep_value_unread B l depth pat flags e line mk :
  text pat -> pat <> [] -> lines pat = 0 -> 0 <= flags < 8 -> unread B l ->
  match upto pat l with
  | Some (a, r) =>
      exists s, ParseDeep_value pat flags e line mk (pos l) (st B l depth) =
          Ret (Some (pos r, no_pair, mk s), st B r depth) /\
        pair_at B (pos l) (pos r) s (pair_text flags a) /\ unread B r
  | None =>
      exists ln, ParseDeep_value pat flags e line mk (pos l) (st B l depth) = Ret (None, Doc B e line ln depth)
  end.
Proof.
  intros Hp Hne Hl Hf H. unfold ParseDeep_value.
  destruct (parse_value_unread B l depth pat flags Hp Hne Hl H) as [ln ->]. cbn [mbind ub_bind].
  destruct (upto pat l) as [[a r]|] eqn:E; cbn [mbind ub_bind]; [|eexists; reflexivity].
  apply upto_split in E. subst l. eexists. split; [reflexivity|].
  assert (unread B r) as Hr by (apply (unread_app _ (a ++ pat)); now rewrite <- app_assoc).
  split; [|exact Hr].
  eapply pair_at_wide; [exact (pair_unread B a (pat ++ r) flags H Hf) | lia |].
  pose proof (suffix_pos _ (proj1 Hr)). pose proof (suffix_pos _ (proj1 (unread_app _ _ _ H))).
  rewrite length_app in *. destruct pat; [easy|]. cbn [length] in *. lia.
Qed.

Lemma decl_lines : lines (bytes "?>") = 0 /\ lines (bytes "-->") = 0 /\ lines (bytes "]]>") = 0 /\ lines (bytes ">") = 0.
Proof. now split_and!. Qed.

(** Comments, unknown nodes and CDATA. *)
Lemma value_refine children_ParseDeep isDoc cs k line B l depth pat flags e mk mk' :
  (forall p d, node_ParseDeep pe mode children_ParseDeep k line p d = ParseDeep_value pat flags e line mk p d) ->
  (forall s, match mk s with XMLDeclaration _ _ | XMLElement _ _ _ _ _ => False | _ => pairs (mk s) = [s] end) ->
  (forall s x, same_shape (mk s) (mk' x) /\ strings (mk' x) = [x]) ->
  text pat -> pat <> [] -> lines pat = 0 -> 0 <= flags < 8 -> e <> XML_SUCCESS -> unread B l ->
  item_post B (pos l) depth (value_at pat flags e line mk' l)
    (parse_child pe mode children_ParseDeep isDoc cs k line (pos l) (st B l depth)).
Proof.
  intros Hk Hmk Hmk' Hp Hne Hl Hf He H. unfold parse_child, check_child, value_at. rewrite Hk.
  pose proof (ParseDeep_value_unread B l depth pat flags e line mk Hp Hne Hl Hf H) as HV.
  destruct (upto pat l) as [[a r]|].
  - destruct HV as (s & -> & Hs & Hr). cbn [mbind ub_bind]. exists (mk s), B.
    destruct (Hmk' s (pair_text flags a)) as [Hsh Hst]. specialize (Hmk s).
    split; [now destruct (mk s)|]. split; [exact Hsh|]. rewrite Hst.
    assert (pairs (mk s) = [s]) as -> by now destruct (mk s).
    split; [apply placed_one; eapply pair_at_wide; [exact Hs | lia | apply pos_from]|].
    split; [exact Hr | apply same_but_refl].
  - destruct HV as [ln ->]. cbn [mbind ub_bind Error _errorID]. exists B, ln.
    unfold Error. cbn [_errorID]. rewrite bool_decide_false by exact He.
    split; [reflexivity|]. split; [exact He | apply same_but_refl].
Qed.

Lemma shape_declaration_iff n x : same_shape n x -> ToDeclaration n = is_declaration x.
Proof. now destruct 1. Qed.

(** The first and the last node are declarations only if all are. *)
Lemma wellLocated_all isDoc cs xs :
  Forall2 same_shape cs xs -> declarations_first xs -> wellLocated isDoc cs = isDoc && forallb is_declaration xs.
Proof.
  intros Hs (a & b & -> & Ha & Hb). unfold wellLocated. f_equal. rewrite forallb_app, Ha. cbn [andb].
  apply Forall2_app_inv_r in Hs as (ca & cb & Hca & Hcb & ->).
  destruct b as [|x b] using rev_ind; [|clear IHb].
  - apply Forall2_nil_inv_r in Hcb as ->. rewrite app_nil_r. cbn [forallb].
    assert (Forall (fun n => ToDeclaration n = true) ca) as Hd.
    { clear Hb. induction Hca as [|n x ca a Hx _ IH]; constructor; cbn in Ha; boolprop; [|tauto].
      now rewrite (shape_declaration_iff _ _ Hx). }
    destruct (head ca) as [f|] eqn:Ef; [|reflexivity]. destruct (last ca) as [n|] eqn:En; [|reflexivity].
    apply head_Some_elem_of in Ef. apply last_Some_elem_of in En. rewrite Forall_forall in Hd.
    now rewrite (Hd _ Ef), (Hd _ En).
  - apply Forall2_app_inv_r in Hcb as (cb' & cl & _ & Hcl & ->).
    apply Forall2_cons_inv_r in Hcl as (n & cl' & Hn & Hcl & ->). apply Forall2_nil_inv_r in Hcl as ->.
    apply Forall_app in Hb as [_ Hx]. inversion_clear Hx as [|? ? Hx' _].
    rewrite <- (shape_declaration_iff _ _ Hn) in Hx'. rewrite app_assoc, last_snoc, forallb_app. cbn [forallb].
    rewrite <- (shape_declaration_iff _ _ Hn), Hx', andb_false_r.
    destruct (ca ++ cb'); cbn; apply andb_false_r.
Qed.

Lemma declaration_refine children_ParseDeep isDoc cs xs line B l depth :
  Forall2 same_shape cs xs -> declarations_first xs -> unread B l ->
  item_post B (pos l) depth
    (located isDoc xs line (value_at (bytes "?>") NEEDS_NEWLINE_NORMALIZATION XML_ERROR_PARSING_DECLARATION line
       (Declaration line) l))
    (parse_child pe mode children_ParseDeep isDoc cs KDeclaration line (pos l) (st B l depth)).
Proof.
  intros Hs Hd H. unfold parse_child, check_child, value_at. cbn [node_ParseDeep]. unfold XMLDeclaration_ParseDeep.
  pose proof (ParseDeep_value_unread B l depth (bytes "?>") NEEDS_NEWLINE_NORMALIZATION
    XML_ERROR_PARSING_DECLARATION line (XMLDeclaration line)) as HV.
  specialize (HV ltac:(repeat constructor; discriminate) ltac:(discriminate) eq_refl ltac:(now split) H).
  destruct (upto _ l) as [[a r]|] eqn:E.
  - destruct HV as (s & -> & Hp & Hr). cbn [mbind ub_bind located]. rewrite (wellLocated_all _ _ _ Hs Hd).
    destruct (isDoc && forallb is_declaration xs).
    + exists (XMLDeclaration line s), B. split; [reflexivity|]. split; [constructor|].
      split; [apply placed_one; eapply pair_at_wide; [exact Hp | lia | apply pos_from]|].
      split; [exact Hr | apply same_but_refl].
    + destruct (get_pair _ _ _ _ _ (st B r depth) Hp eq_refl) as (s' & B' & -> & _ & _ & S1).
      cbn [mbind ub_bind]. exists B', (line_of total r). split; [reflexivity|]. split; [discriminate|].
      eapply same_but_wide; [exact S1 | lia|]. pose proof (unread_length _ _ Hr). lia.
  - destruct HV as [ln ->]. cbn [mbind ub_bind located]. exists B, ln. split; [reflexivity|].
    split; [discriminate | apply same_but_refl].
Qed.

(** Text up to the next tag; [lo] is where the loop stands. *)
Lemma text_refine children_ParseDeep isDoc cs line B l depth :
  unread B l ->
  item_post B (pos l) depth (text_at pe mode line l)
    (parse_child pe mode children_ParseDeep isDoc cs (KText false) line (pos l) (st B l depth)).
Proof.
  intros H. unfold parse_child, check_child, text_at. cbn [node_ParseDeep]. unfold XMLText_ParseDeep.
  destruct (parse_value_unread B l depth (bytes "<") (text_flags pe mode)) as [ln ->];
    [repeat constructor; discriminate | discriminate | reflexivity | exact H|]. cbn [mbind ub_bind].
  destruct (upto (bytes "<") l) as [[a r]|] eqn:E.
  2: { cbn [mbind ub_bind]. exists B, ln. split; [reflexivity|]. split; [discriminate | apply same_but_refl]. }
  apply upto_split in E. change (bytes "<") with [60] in E. subst l.
  pose proof (unread_app _ _ _ H) as U1. pose proof (unread_app _ [60] _ U1) as U2.
  rewrite (at_unread B r) by (exact U2 || reflexivity). cbn [mbind ub_bind].
  destruct r as [|x r].
  { change (at0 [] 0 =? 0) with true. exists B, (line_of total []). split; [reflexivity|].
    split; [discriminate | apply same_but_refl]. }
  pose proof (suffix_text _ (proj1 U2)) as Ht. inversion_clear Ht as [|? ? Hx _].
  change (at0 (x :: r) 0) with x. rewrite (proj2 (Z.eqb_neq _ _) Hx).
  eexists _, B. rewrite <- (pos_cons _ _ _ U1), Nat.sub_succ, Nat.sub_0_r.
  split; [rewrite <- (st_cons B 60 (x :: r)) by discriminate; reflexivity|]. split; [constructor|].
  split; [|split; [exact U1 | apply same_but_refl]].
  pose proof (pair_unread B a (60 :: x :: r) (text_flags pe mode) H text_flags_range) as Hp.
  apply placed_one. eapply pair_at_wide; [exact Hp | exact (Nat.le_refl _) | exact (Nat.le_refl _)].
Qed.

(** The end tag behind the children against the name in front of them. *)
Lemma mismatched_compares B a b mid hi name n q n' d :
  pair_at B a b name n -> pair_at B mid hi q n' -> (b <= mid)%nat -> (hi <= length T)%nat -> n' <> [] ->
  _charBuffer d = B ->
  exists name' B1 B', mismatched q name OPEN d = Ret (negb (bool_decide (n = n')), name', with_buf d B') /\
    pair_at B' a b name' n /\ same_but mid hi B B1 /\ same_but a b B1 B'.
Proof.
  intros Hn Hq Hb Hh Hne Hd. unfold mismatched. rewrite (pair_at_nonempty _ _ _ _ _ Hq Hne). cbn [bool_decide negb].
  rewrite bool_decide_true by reflexivity. cbn [negb].
  pose proof (pair_at_bounds _ _ _ _ _ Hn). pose proof (pair_at_bounds _ _ _ _ _ Hq).
  destruct (get_pair _ _ _ _ _ _ Hq Hd) as (q' & B1 & -> & Hq1 & Fq & S1). cbn [mbind ub_bind].
  pose proof (pair_at_frame _ _ _ _ _ _ _ _ Hn S1 ltac:(lia)) as Hn1.
  destruct (get_pair _ _ _ _ _ (with_buf d B1) Hn1 eq_refl) as (name' & B' & -> & Hn2 & Fn & S2). cbn [mbind ub_bind].
  pose proof (pair_at_frame _ _ _ _ _ _ _ _ Hq1 S2 ltac:(lia)) as Hq2.
  rewrite (StringEqual_pairs B' mid hi q' n' a b name' n) by (assumption || reflexivity || lia).
  cbn [mbind ub_bind]. exists name', B1, B'. split; [|now split_and!].
  do 3 f_equal. f_equal. apply bool_decide_ext. split; congruence.
Qed.

(** The start of a tag: where its name is. *)
Lemma tag_start B l depth :
  unread B l ->
  let closing := at0 (skip_lead l) 0 =? 47 in
  let l2 := if closing then drop 1 (skip_lead l) else skip_lead l in
  skip (pos l) (st B l depth) = Ret (pos (skip_lead l), st B (skip_lead l) depth) /\
  at_ (pos (skip_lead l)) (st B (skip_lead l) depth) = Ret (at0 (skip_lead l) 0) /\
  (if closing then S (pos (skip_lead l)) else pos (skip_lead l)) = pos l2 /\
  st B (skip_lead l) depth = st B l2 depth /\ unread B l2 /\ (pos l <= pos l2)%nat.
Proof.
  intros H closing l2. pose proof (skip_lead_suffix l) as HS.
  pose proof (unread_suffix _ _ _ H HS) as U1. pose proof (suffix_length _ _ HS) as HL.
  split; [now apply skip_unread|]. split; [now apply (at_unread B)|]. subst closing l2.
  destruct (skip_lead l) as [|c r]; cbn [at0 lookup list_lookup default from_option id].
  - change (at0 [] 0 =? 47) with false. cbn iota. split_and!; try easy. unfold pos. cbn. lia.
  - change (at0 (c :: r) 0) with c. destruct (c =? 47) eqn:E; boolprop.
    + subst c. cbn [skipn]. rewrite drop_0. split; [exact (pos_cons _ _ _ U1)|]. split; [now apply st_cons|].
      split; [now apply (unread_app _ [47])|]. unfold pos. cbn [length] in HL. lia.
    + split_and!; try easy. unfold pos. lia.
Qed.

Section Element.
Context (depth : Z) (children_ParseDeep : nat -> doc -> ub (siblings * doc))
  (children_at : list Z -> option (list xml * ending))
  (children_refine : forall l B xs e, unread B l -> l <> [] -> children_at l = Some (xs, e) ->
     siblings_post B (from l) depth xs e (children_ParseDeep (pos l) (st B l depth)))
  (children_left : forall l xs e r, children_at l = Some (xs, e) -> ending_left e = Some r -> r `suffix_of` l).

(** Behind the tag of an element that is open. *)
Lemma content_refine isDoc done line B a b name n attrs ats r :
  unread B r -> pair_at B a b name n -> (b <= pos r)%nat -> n <> [] ->
  placed B b (pos r) (flat_map attr_pairs attrs) (flat_map attr_strings ats) ->
  a_line <$> attrs = at_line <$> ats -> r <> [] ->
  forall xs e, children_at r = Some (xs, e) ->
  item_post B a depth
    (match e with
     | AtEnd => Bad XML_ERROR_PARSING line
     | Failed e line => Bad e line
     | AtEndTag n' l =>
         if bool_decide (n = n') then Node (Element line n ats xs) l
         else Bad XML_ERROR_MISMATCHED_ELEMENT line
     end)
    ('(r, d) ← element_content children_ParseDeep line (Tag (Some (pos r)) OPEN attrs name) (st B r depth);
     check_child isDoc done line r d).
Proof.
  intros U Hn Hb Hne Hp Hl Hr xs e He. pose proof (unread_length _ _ U). pose proof (pos_from r).
  pose proof (pair_at_bounds _ _ _ _ _ Hn). unfold element_content, check_child. cbn [t_next t_closing t_name t_attributes].
  rewrite (at_unread B r) by (exact U || reflexivity). cbn [mbind ub_bind].
  assert (at0 r 0 <> 0) as Hr0.
  { pose proof (suffix_text _ (proj1 U)) as Ht. destruct r; [easy|]. now inversion Ht. }
  rewrite (proj2 (Z.eqb_neq _ _) Hr0), bool_decide_true by reflexivity. cbn [orb negb].
  destruct (children_refine r B xs e U Hr He) as (cs' & B1 & Hsh & Hpost).
  destruct e as [|n' r2|e' ln].
  - destruct Hpost as (-> & _ & S1). cbn [mbind ub_bind]. exists B1, (line_of total []).
    split; [reflexivity|]. split; [discriminate|]. eapply same_but_wide; [exact S1 | lia | lia].
  - destruct Hpost as (q & mid & -> & Hne' & Hp1 & Hq & U1 & S1). cbn [mbind ub_bind].
    pose proof (children_left _ _ _ r2 He eq_refl) as Hs2. apply suffix_length in Hs2.
    pose proof (unread_length _ _ U1). pose proof (placed_bounds _ _ _ _ _ Hp1). pose proof (pair_at_bounds _ _ _ _ _ Hq).
    pose proof (pair_at_frame _ _ _ _ _ _ _ _ Hn S1 ltac:(lia)) as Hn1.
    destruct (mismatched_compares B1 a b mid (pos r2) name n q n' (st B1 r2 depth)) as (name' & B2 & B3 & -> & Hn3 & S2 & S3);
      [assumption | assumption | lia | lia | assumption | reflexivity |]. cbn [mbind ub_bind].
    assert (same_but a (pos r2) B B3) as S13
      by (eapply same_but_trans; [|eapply same_but_trans]; (eapply same_but_wide; [eassumption | lia..])).
    case_bool_decide as Hnn; cbn [negb].
    + eexists _, B3. split; [reflexivity|]. split; [now constructor|]. cbn [pairs strings]. split.
      * exists b. split; [exact Hn3|]. pose proof (pos_from r2). apply placed_app with (mid := pos r).
        -- eapply placed_frame; [|exact S3 | lia]. eapply placed_frame; [|exact S2 | lia].
           eapply placed_frame; [exact Hp | exact S1 | lia].
        -- eapply placed_wide; [eapply placed_frame; [eapply placed_frame; [exact Hp1 | exact S2 | lia] | exact S3 | lia] | lia | lia].
      * split; [|exact S13]. eapply unread_frame; [|exact S3|lia]. eapply unread_frame; [exact U1 | exact S2 | lia].
    + destruct (get_pair _ _ _ _ _ (with_buf (st B1 r2 depth) B3) Hn3 eq_refl) as (nm & B4 & -> & _ & _ & S4).
      cbn [mbind ub_bind]. exists B4, (line_of total r2). split; [reflexivity|]. split; [discriminate|].
      eapply same_but_trans; [eapply same_but_wide; [exact S13 | lia..] | eapply same_but_wide; [exact S4 | lia..]].
  - destruct Hpost as (ln' & -> & Hx & _ & S1). cbn [mbind ub_bind]. exists B1, ln'.
    unfold Error. cbn [_errorID]. rewrite bool_decide_false by exact Hx. cbn [negb].
    split; [reflexivity|]. split; [exact Hx|]. eapply same_but_wide; [exact S1 | lia | lia].
Qed.

(** The ends of a tag. *)
Lemma tag_refine isDoc done cs (closing : bool) line B a b name n t i res :
  tag_post B a b depth (if closing then CLOSING else OPEN) name t res ->
  pair_at B a b name n -> (forall r, tag_left t = Some r -> (b <= pos r)%nat) -> n <> [] ->
  match t with
  | TagBad e line => Some (Bad e line)
  | TagClosed attrs l => Some (Node (Element line n attrs []) l)
  | TagOpen attrs l =>
      if closing then Some (Closing n l)
      else if bool_decide (l = []) then Some (Bad XML_ERROR_MISMATCHED_ELEMENT line)
      else '(children, e) ← children_at l;
           Some match e with
                | AtEnd => Bad XML_ERROR_PARSING line
                | Failed e line => Bad e line
                | AtEndTag n' l =>
                    if bool_decide (n = n') then Node (Element line n attrs children) l
                    else Bad XML_ERROR_MISMATCHED_ELEMENT line
                end
  end = Some i ->
  item_post B a depth (located isDoc done line i)
    ('(r, d) ← ('(t, d) ← res; element_content children_ParseDeep line t d); check_child isDoc cs line r d).
Proof.
  intros Hpost Hn HM Hne Hi. pose proof (pair_at_bounds _ _ _ _ _ Hn).
  destruct t as [ats r|ats r|e ln]; cbn [tag_post] in Hpost.
  - destruct Hpost as (attrs & B1 & -> & U1 & Hp & Hl & S1). specialize (HM r eq_refl).
    pose proof (pair_at_frame _ _ _ _ _ _ _ _ Hn S1 ltac:(lia)) as Hn1. cbn [mbind ub_bind].
    assert (same_but a (pos r) B B1) as S0 by (eapply same_but_wide; [exact S1 | lia..]).
    pose proof (unread_length _ _ U1). assert (length B1 = length B) as EL by apply S1.
    destruct closing.
    + injection Hi as <-. unfold element_content. cbn [t_next t_closing t_name t_attributes].
      rewrite (at_unread B1 r) by (exact U1 || reflexivity). cbn [mbind ub_bind].
      rewrite (bool_decide_false (CLOSING = OPEN)), orb_true_r by discriminate.
      exists name, B1. split; [reflexivity|]. split_and!; try assumption. eapply pair_at_wide; [exact Hn1 | lia | lia].
    + case_bool_decide as Hr.
      * injection Hi as <-. subst r. unfold element_content. cbn [t_next t_closing t_name t_attributes].
        rewrite (at_unread B1 []) by (exact U1 || reflexivity). cbn [mbind ub_bind check_child].
        change (at0 [] 0 =? 0) with true. cbn [orb mbind ub_bind check_child].
        rewrite bool_decide_false by discriminate. unfold mismatched. change (Empty no_pair) with true. cbn iota.
        rewrite bool_decide_true by reflexivity. cbn [mbind ub_bind].
        destruct (get_pair _ _ _ _ _ (st B1 [] depth) Hn1 eq_refl) as (nm & B2 & -> & _ & _ & S2). cbn [mbind ub_bind].
        exists B2, (line_of total []). split; [reflexivity|]. split; [discriminate|].
        eapply same_but_trans; [eapply same_but_wide; [exact S0 | lia..] | eapply same_but_wide; [exact S2 | lia..]].
      * destruct (children_at r) as [[xs e]|] eqn:Ec; cbn [mbind option_bind] in Hi; [|discriminate].
        injection Hi as <-.
        pose proof (content_refine isDoc cs line B1 a b name n attrs ats r U1 Hn1 HM Hne Hp Hl Hr xs e Ec) as HC.
        assert (forall r', ending_left e = Some r' -> (pos r <= pos r')%nat) as HR.
        { intros r' Hr'. apply (children_left _ _ _ _ Ec), suffix_length in Hr'. unfold pos. lia. }
        destruct e as [|n' r2|e' ln]; cbn [located].
        -- eapply item_post_before; [exact HC | exact S0 | lia | discriminate].
        -- case_bool_decide; cbn [located]; (eapply item_post_before; [exact HC | exact S0 | lia |]);
             [intros r' [= <-]; now apply HR | discriminate].
        -- eapply item_post_before; [exact HC | exact S0 | lia | discriminate].
  - destruct Hpost as (attrs & B1 & -> & U1 & Hp & Hl & S1). specialize (HM r eq_refl).
    injection Hi as <-. cbn [mbind ub_bind located]. unfold element_content. cbn [t_next t_closing t_name t_attributes].
    rewrite (at_unread B1 r) by (exact U1 || reflexivity). cbn [mbind ub_bind].
    rewrite (bool_decide_false (CLOSED = OPEN)), orb_true_r by discriminate. cbn [negb mbind ub_bind check_child].
    rewrite bool_decide_false by discriminate. unfold mismatched. change (Empty no_pair) with true. cbn iota.
    rewrite bool_decide_false by discriminate. cbn [mbind ub_bind]. pose proof (pos_from r).
    eexists _, B1. split; [reflexivity|]. split; [now constructor|]. cbn [pairs strings flat_map]. rewrite !app_nil_r.
    split; [|split; [exact U1 | eapply same_but_wide; [exact S1 | lia..]]].
    exists b. split; [eapply pair_at_frame; [exact Hn | exact S1 | lia]|]. eapply placed_wide; [exact Hp | lia..].
  - destruct Hpost as (tg & B1 & ln' & -> & Htg & He & S1). injection Hi as <-. cbn [mbind ub_bind].
    unfold element_content. rewrite Htg. cbn [mbind ub_bind check_child]. exists B1, ln'.
    unfold Error. cbn [_errorID]. rewrite bool_decide_false by exact He. cbn [negb]. now split_and!.
Qed.

Lemma element_refine isDoc done cs line B l i :
  unread B l -> element_at pe total children_at line l = Some i ->
  item_post B (pos l) depth (located isDoc done line i)
    (parse_child pe mode children_ParseDeep isDoc cs KElement line (pos l) (st B l depth)).
Proof.
  intros U Hi. destruct (tag_start B l depth U) as (E1 & E2 & E3 & E4 & U2 & HL).
  unfold element_at in Hi. set (closing := at0 (skip_lead l) 0 =? 47) in *.
  set (l2 := if closing then drop 1 (skip_lead l) else skip_lead l) in *.
  eapply item_post_wide; [|exact HL]. unfold parse_child. cbn [node_ParseDeep]. unfold XMLElement_ParseDeep.
  rewrite E1. cbn [mbind ub_bind]. rewrite E2. cbn [mbind ub_bind]. fold closing. rewrite E3, E4. cbn [_charBuffer st].
  rewrite (ParseName_unread B l2 U2). cbn [mbind ub_bind].
  destruct (name_at l2) as [[n l3]|] eqn:En.
  2: { injection Hi as <-. cbn [mbind ub_bind located]. exists B, (line_of total l2). split; [reflexivity|].
       split; [discriminate | apply same_but_refl]. }
  apply name_at_split in En as (El2 & Hvn & Hhd). pose proof (valid_name_ne _ Hvn) as Hne.
  assert (unread B l3) as U3 by (rewrite El2 in U2; now apply unread_app in U2).
  assert (pos l3 = pos l2 + length n)%nat as P3 by (rewrite El2 in U2 |- *; now apply pos_app, U2).
  assert (0 < length n)%nat as Hln by (destruct n; [easy | cbn; lia]).
  assert (pair_at B (pos l2) (S (pos l3)) (Set_ (pos l2) (pos l3) 0) n) as Hn.
  { rewrite P3, <- (pair_text_name n) at 2; [rewrite El2 in U2 |- *|].
    - apply pair_unread; [exact U2 | lia].
    - rewrite El2 in U2. pose proof (suffix_text _ (proj1 U2)) as Ht. now apply Forall_app in Ht as [? _]. }
  rewrite (pair_at_nonempty _ _ _ _ _ Hn Hne).
  assert (st B l2 depth = st B l3 depth) as E5 by (rewrite El2; unfold st; rewrite line_app; [reflexivity | now apply valid_name_lines]).
  change (Doc B XML_SUCCESS 0 (line_of total l2) depth) with (st B l2 depth). rewrite E5.
  destruct (attributes pe total (S (length l3)) line [] l3) as [t|] eqn:Ht; cbn [mbind option_bind] in Hi; [|discriminate].
  pose proof (unread_length _ _ U3) as L3. pose proof (suffix_pos _ (proj1 U3)).
  pose proof (attributes_refine (S (length l3)) (length B) line [] [] l3 t B (pos l2) (S (pos l3)) (S (pos l3)) depth
    (if closing then CLOSING else OPEN) _ n U3 ltac:(lia) Ht Hn (Nat.le_refl _)) as HA.
  specialize (HA ltac:(right; split; [reflexivity|]; destruct l3 as [|c r]; [reflexivity|];
    specialize (Hhd _ _ eq_refl); unfold IsNameChar in Hhd; cbn; destruct (IsNameStartChar c); [discriminate | reflexivity]) eq_refl).
  assert (forall r, tag_left t = Some r -> (S (pos l3) <= pos r)%nat) as HM.
  { intros r Hr. destruct (attributes_suffix _ _ _ _ _ _ _ _ Ht Hr) as [Hs Hlt].
    pose proof (unread_pos _ _ _ U3 Hs Hlt). lia. }
  exact (tag_refine isDoc done cs closing line B (pos l2) (S (pos l3)) _ n t i _ HA Hn HM Hne Hi).
Qed.

Lemma from_header B l h r : unread B l -> skip_lead l = h ++ r -> h <> [] -> (from l <= pos r)%nat.
Proof.
  intros U E Hh. pose proof (skip_lead_suffix l) as HS. pose proof (unread_suffix _ _ _ U HS) as U1.
  rewrite E in U1. pose proof (suffix_pos _ (proj1 U)). pose proof (suffix_pos _ (proj1 (unread_app _ _ _ U1))).
  apply suffix_length in HS. rewrite E, length_app in HS. destruct h as [|c h]; [easy|]. cbn [length] in *.
  unfold from. case_goal; lia.
Qed.

(** What [Identify] makes and its [ParseDeep]. *)
Lemma node_refine isDoc done cs B l i :
  unread B l -> skip_lead l <> [] -> Forall2 same_shape cs done -> declarations_first done ->
  node_at pe mode total children_at l = Some i ->
  exists k p d, Identify (pos l) (st B l depth) = Ret (Some (k, line_of total (skip_lead l)), p, d) /\
    item_post B (from l) depth (located isDoc done (line_of total (skip_lead l)) i)
      (parse_child pe mode children_ParseDeep isDoc cs k (line_of total (skip_lead l)) p d).
Proof.
  intros U Hne Hsh Hd Hi. rewrite Identify_unread by exact U. unfold node_at in Hi.
  set (line := line_of total (skip_lead l)) in *. destruct (skip_lead l) as [|c r] eqn:E; [easy|]. rewrite <- E in *.
  destruct (header_at (skip_lead l)) as [[h k]|] eqn:Eh.
  - pose proof (header_at_split _ _ _ Eh) as (Hin & Hs & Hh). set (l' := drop (length h) (skip_lead l)) in *.
    eexists _, _, _. split; [reflexivity|]. pose proof (from_header B l h l' U Hs Hh) as HF.
    eapply item_post_wide; [|exact HF].
    assert (unread B l') as U'.
    { apply (unread_app _ h). rewrite <- Hs. eapply unread_suffix; [exact U | apply skip_lead_suffix]. }
    unfold headers in Hin. rewrite !elem_of_cons, elem_of_nil in Hin.
    assert (k <> KText false) as Hk by (destruct Hin as [[= -> ->]|[[= -> ->]|[[= -> ->]|[[= -> ->]|[[= -> ->]|[]]]]]]; discriminate).
    clear Hin Eh Hs Hh. destruct k as [| |[]| |]; [injection Hi as <-..|]; try easy.
    + now apply declaration_refine.
    + replace (located _ _ _ _) with (value_at (bytes "-->") COMMENT XML_ERROR_PARSING_COMMENT line (Comment line) l')
        by (unfold value_at; now destruct (upto _ _) as [[]|]).
      apply value_refine with (mk := XMLComment line);
        [reflexivity | reflexivity | now repeat constructor | repeat constructor; discriminate | discriminate
        | reflexivity | now split | discriminate | exact U'].
    + replace (located _ _ _ _) with (value_at (bytes "]]>") NEEDS_NEWLINE_NORMALIZATION XML_ERROR_PARSING_CDATA line (Text line true) l')
        by (unfold value_at; now destruct (upto _ _) as [[]|]).
      apply value_refine with (mk := fun v => XMLText line v true);
        [reflexivity | reflexivity | now repeat constructor | repeat constructor; discriminate | discriminate
        | reflexivity | now split | discriminate | exact U'].
    + replace (located _ _ _ _) with (value_at (bytes ">") NEEDS_NEWLINE_NORMALIZATION XML_ERROR_PARSING_UNKNOWN line (Unknown line) l')
        by (unfold value_at; now destruct (upto _ _) as [[]|]).
      apply value_refine with (mk := XMLUnknown line);
        [reflexivity | reflexivity | now repeat constructor | repeat constructor; discriminate | discriminate
        | reflexivity | now split | discriminate | exact U'].
    + now apply element_refine.
  - injection Hi as <-. eexists _, _, _. split; [reflexivity|].
    assert (from l = pos l) as ->.
    { destruct (no_header_head _ _ _ Eh E) as (_ & d & l' & -> & Hd60). unfold from.
      change (at0 (d :: l') 0) with d. now rewrite (proj2 (Z.eqb_neq _ _) Hd60). }
    replace (located _ _ _ _) with (text_at pe mode line l)
      by (unfold text_at; now destruct (upto _ _) as [[? []]|]).
    now apply text_refine.
Qed.

End Element.

(** [XMLNode::ParseDeep] one level down. *)
Lemma tracked_refine loop depth l B xs e :
  (if depth + 1 =? TINYXML2_MAX_ELEMENT_DEPTH
   then Some ([], Failed XML_ELEMENT_DEPTH_EXCEEDED (line_of total l)) = Some (xs, e) /\ unread B l
   else siblings_post B (from l) (depth + 1) xs e (loop (pos l) (st B l (depth + 1)))) ->
  siblings_post B (from l) depth xs e (tracked loop (pos l) (st B l depth)).
Proof.
  unfold tracked, PushDepth. cbn [_parsingDepth with_depth st].
  destruct (depth + 1 =? TINYXML2_MAX_ELEMENT_DEPTH).
  - intros [[= <- <-] U]. exists [], B. split; [constructor|]. eexists. split; [|split; [discriminate|]].
    + unfold PopDepth, with_depth, SetError, Error. cbn. now rewrite Z.add_simpl_r.
    + split; [cbn; exact (from_le _ _ U) | apply same_but_refl].
  - intros (cs & B' & Hsh & Hpost). unfold Error. cbn [_errorID with_depth st]. rewrite bool_decide_true by reflexivity.
    cbn [negb]. exists cs, B'. split; [exact Hsh|]. destruct e as [|n r|e ln].
    + destruct Hpost as (E & Hpost). split; [|exact Hpost].
      unfold with_depth. cbn [_charBuffer _errorID _errorLineNum _parseCurLineNum st]. unfold st in E at 1. rewrite E.
      cbn. unfold PopDepth, with_depth, st. cbn. now rewrite Z.add_simpl_r.
    + destruct Hpost as (q & mid & E & Hpost). exists q, mid. split; [|exact Hpost].
      unfold with_depth. cbn [_charBuffer _errorID _errorLineNum _parseCurLineNum st]. unfold st in E at 1. rewrite E.
      cbn. unfold PopDepth, with_depth, st. cbn. now rewrite Z.add_simpl_r.
    + destruct Hpost as (ln' & E & Hpost). exists ln'. split; [|exact Hpost].
      unfold with_depth. cbn [_charBuffer _errorID _errorLineNum _parseCurLineNum st]. unfold st in E at 1. rewrite E.
      cbn. unfold PopDepth, with_depth, st. cbn. now rewrite Z.add_simpl_r.
Qed.

Lemma siblings_post_before B B1 lo hi depth xs e res :
  siblings_post B1 lo depth xs e res -> same_but lo hi B B1 -> (hi <= length B)%nat ->
  (forall r, ending_left e = Some r -> (hi <= pos r)%nat) -> siblings_post B lo depth xs e res.
Proof.
  intros (cs & B' & Hsh & H) HB Hhi Hr. exists cs, B'. split; [exact Hsh|].
  assert (length B1 = length B) as EL by apply HB. rewrite EL in H.
  assert (same_but lo (length B) B B1) as HB' by (eapply same_but_wide; [exact HB | lia..]).
  destruct e as [|n r|e ln].
  - destruct H as (H1 & H2 & H3). split_and!; try assumption. exact (same_but_trans _ _ _ _ _ HB' H3).
  - destruct H as (q & mid & H1 & H2 & H3 & H4 & H5 & H6). exists q, mid. split_and!; try assumption.
    eapply same_but_trans; [eapply same_but_wide; [exact HB | lia | now apply Hr] | exact H6].
  - destruct H as (ln' & H1 & H2 & H3 & H4). exists ln'. split_and!; try assumption.
    exact (same_but_trans _ _ _ _ _ HB' H4).
Qed.

Lemma loop_refine fuel fuel' isDoc depth done cs l B lo xs e :
  unread B l -> (fuel <= fuel')%nat -> Forall2 same_shape cs done -> declarations_first done ->
  placed B lo (from l) (flat_map pairs cs) (flat_map strings done) ->
  nodes_at pe mode total fuel isDoc depth done l = Some (xs, e) ->
  siblings_post B lo depth xs e (ParseDeep_loop pe mode fuel' isDoc cs (pos l) (st B l depth)).
Proof.
  revert fuel' isDoc depth done cs l B lo xs e.
  induction fuel as [|fuel IH]; intros [|fuel'] isDoc depth done cs l B lo xs e U Hf Hsh Hd Hp Hx; try easy.
  cbn [nodes_at] in Hx. cbn [ParseDeep_loop]. rewrite (at_unread B l) by (exact U || reflexivity). cbn [mbind ub_bind].
  pose proof (from_le _ _ U). pose proof (placed_bounds _ _ _ _ _ Hp). pose proof (pos_from l).
  case_bool_decide as Hne.
  { injection Hx as <- <-. exists cs, B. split; [exact Hsh|]. split; [|split; [eapply placed_wide; [exact Hp | lia..] | apply same_but_refl]].
    destruct l as [|c l]; [reflexivity|]. pose proof (suffix_text _ (proj1 U)) as Ht. inversion_clear Ht as [|? ? Hc _].
    change (at0 (c :: l) 0) with c. rewrite (proj2 (Z.eqb_neq _ _) Hc), Identify_unread, Hne by exact U. reflexivity. }
  set (ch := fun l => _) in Hx.
  destruct (node_at pe mode total ch l) as [i|] eqn:Ei; cbn [mbind option_bind] in Hx; [|discriminate].
  assert (forall l xs e r, ch l = Some (xs, e) -> ending_left e = Some r -> r `suffix_of` l) as Hleft.
  { intros l' xs' e' r. unfold ch. case_goal; [intros [= <- <-]; discriminate|]. apply nodes_at_suffix. }
  destruct (node_refine depth (tracked (ParseDeep_loop pe mode fuel' false [])) ch) with (isDoc := isDoc) (done := done)
    (cs := cs) (B := B) (l := l) (i := i) as (k & p & d & HI & Hpost); try assumption.
  { intros l' B' xs' e' U' _ Hch. apply tracked_refine. unfold ch in Hch.
    destruct (depth + 1 =? TINYXML2_MAX_ELEMENT_DEPTH); [now split|].
    apply (IH fuel' false (depth + 1) [] [] l' B' (from l') xs' e'); try assumption; [lia | constructor | now exists [], [] | cbn; lia]. }
  assert (at0 l 0 <> 0) as Hl0.
  { pose proof (suffix_text _ (proj1 U)) as Ht. destruct l; [easy|]. now inversion Ht. }
  rewrite (proj2 (Z.eqb_neq _ _) Hl0), HI. cbn [mbind ub_bind].
  assert (forall r, item_left (located isDoc done (line_of total (skip_lead l)) i) = Some r -> (pos l < pos r)%nat) as Hadv.
  { intros r Hr. apply located_left in Hr. destruct (node_at_suffix _ _ _ ch Hleft _ _ _ Hne Ei Hr) as [Hs Hlt].
    exact (unread_pos _ _ _ U Hs Hlt). }
  destruct (located isDoc done _ i) as [x r|n r|e' ln] eqn:El; cbn [item_post] in Hpost.
  - destruct Hpost as (n & B1 & -> & Hs1 & Hp1 & U1 & S1). cbn [mbind ub_bind].
    specialize (Hadv r eq_refl). pose proof (placed_bounds _ _ _ _ _ Hp1). pose proof (unread_length _ _ U1).
    assert (length B1 = length B) by apply S1.
    eapply siblings_post_before; [apply (IH fuel' isDoc depth (done ++ [x]) (cs ++ [n]) r B1 lo xs e)| | |]; try assumption.
    + lia.
    + apply Forall2_app; [exact Hsh | now constructor].
    + eapply located_first; eassumption.
    + rewrite !flat_map_app. cbn [flat_map]. rewrite !app_nil_r. eapply placed_app; [|exact Hp1].
      eapply placed_frame; [exact Hp | exact S1 | lia].
    + eapply same_but_wide; [exact S1 | lia | reflexivity].
    + lia.
    + intros r' Hr'. apply (nodes_at_suffix _ _ _ _ _ _ _ _ _ _ _ Hx), suffix_length in Hr'. unfold pos. lia.
  - injection Hx as <- <-. destruct Hpost as (q & B1 & -> & Hn & Hq & U1 & S1). cbn [mbind ub_bind].
    pose proof (pair_at_bounds _ _ _ _ _ Hq). exists cs, B1. split; [exact Hsh|]. exists q, (from l).
    split_and!; try assumption; [reflexivity | | eapply same_but_wide; [exact S1 | lia..]].
    eapply placed_frame; [exact Hp | exact S1 | lia].
  - injection Hx as <- <-. destruct Hpost as (B1 & ln' & -> & Hn & S1). cbn [mbind ub_bind].
    exists cs, B1. split; [exact Hsh|]. exists ln'. split_and!; try assumption; [reflexivity | |].
    + eapply placed_wide; [eapply placed_frame; [exact Hp | exact S1 | lia] | lia | lia].
    + eapply same_but_wide; [exact S1 | lia..].
Qed.

(** ** Documents *)

Lemma ReadBOM_unread B l :
  unread B l -> ReadBOM B (pos l) = Ret (pos (if has_bom l then drop 3 l else l), has_bom l).
Proof.
  intros U. unfold ReadBOM.
  assert (forall i x, (l ++ 0 :: tail) !! i = Some x -> rd B (pos l + i) = Ret x) as Hrd
    by (intros i x; now apply rd_unread).
  assert (rd B (pos l) = Ret (at0 l 0)) as -> by exact (at_unread B l (Doc B XML_SUCCESS 0 0 0) U eq_refl).
  cbn [mbind ub_bind]. unfold has_bom, bom. destruct l as [|a l]; [reflexivity|]. change (at0 (a :: l) 0) with a.
  destruct (a =? 239) eqn:Ea; boolprop; cbn [negb]; [|rewrite bool_decide_false; [reflexivity|]; cbn; congruence].
  destruct l as [|b l]; [rewrite (Hrd 1%nat 0), bool_decide_false by easy; reflexivity|].
  rewrite (Hrd 1%nat b) by reflexivity. cbn [mbind ub_bind].
  destruct (b =? 187) eqn:Eb; boolprop; cbn [negb]; [|rewrite bool_decide_false; [reflexivity|]; cbn; congruence].
  destruct l as [|c l]; [rewrite (Hrd 2%nat 0), bool_decide_false by easy; reflexivity|].
  rewrite (Hrd 2%nat c) by reflexivity. cbn [mbind ub_bind].
  destruct (c =? 191) eqn:Ec; boolprop; cbn [negb]; [|rewrite bool_decide_false; [reflexivity|]; cbn; congruence].
  subst. rewrite bool_decide_true by reflexivity. cbn [skipn]. rewrite drop_0. do 2 f_equal. symmetry.
  exact (pos_app [239; 187; 191] l (proj1 U)).
Qed.

(** The document as it can be read now. *)
Definition document_of (x : XMLDocument) : document :=
  {| nodes := tree_of (value_of (_charBuffer (d_doc x))) <$> d_children x; error := _errorID (d_doc x);
     error_line := _errorLineNum (d_doc x); with_bom := _writeBOM x |}.

Lemma Parse_buffer_refines line b :
  exists x, Parse_buffer pe mode (Document (Doc m0 XML_SUCCESS 0 line 0) [] b) = Ret x /\
    document_of x = document_at pe mode T /\ _parsingDepth (d_doc x) = 0 /\
    exists lo hi, placed (_charBuffer (d_doc x)) lo hi (flat_map pairs (d_children x))
      (flat_map strings (nodes (document_at pe mode T))).
Proof.
  unfold Parse_buffer, document_at, document_of.
  assert (unread m0 T) as U0.
  { split; [reflexivity|]. unfold pos. rewrite Nat.sub_diag. now split. }
  assert (with_line (Doc m0 XML_SUCCESS 0 line 0) 1 = st m0 T 0) as E0
    by (unfold with_line, st, line_of, total; cbn; f_equal; lia).
  cbn [d_doc d_children]. rewrite E0. pose proof (skip_unread m0 T 0 U0) as E1.
  unfold pos at 1 in E1. rewrite Nat.sub_diag in E1. rewrite E1. cbn [mbind ub_bind _charBuffer st].
  assert (unread m0 (skip_lead T)) as U1 by (eapply unread_suffix; [exact U0 | apply skip_lead_suffix]).
  rewrite ReadBOM_unread by exact U1. cbn [mbind ub_bind].
  set (hb := has_bom (skip_lead T)). set (l := if hb then drop 3 (skip_lead T) else skip_lead T).
  assert (unread m0 l /\ st m0 (skip_lead T) 0 = st m0 l 0) as [U2 E2].
  { subst l hb. unfold has_bom. case_bool_decide as Hb; [|now split]. 
    assert (skip_lead T = bom ++ drop 3 (skip_lead T)) as Es by (rewrite <- Hb; now rewrite take_drop).
    split; [apply (unread_app _ bom); now rewrite <- Es|].
    unfold st. rewrite Es at 1. now rewrite line_app by reflexivity. }
  change (Doc m0 XML_SUCCESS 0 (line_of total (skip_lead T)) 0) with (st m0 (skip_lead T) 0). rewrite E2.
  rewrite (at_unread m0 l) by (exact U2 || reflexivity). cbn [mbind ub_bind].
  destruct l as [|c r] eqn:El.
  { change (at0 [] 0 =? 0) with true. cbn iota. eexists. split; [reflexivity|]. split; [reflexivity|].
    split; [reflexivity|]. exists O, O. exact (Nat.le_refl O). }
  rewrite <- El in *. assert (at0 l 0 <> 0) as Hc.
  { pose proof (suffix_text _ (proj1 U2)) as Ht. rewrite El in Ht |- *. now inversion Ht. }
  rewrite (proj2 (Z.eqb_neq _ _) Hc).
  destruct (nodes_at_total pe mode (1 + lines T) (S (length l)) true 1 [] l ltac:(lia)) as (xs & e & Hx).
  pose proof (unread_length _ _ U2). pose proof (suffix_pos _ (proj1 U2)).
  assert (siblings_post m0 (from l) 0 xs e (XMLNode_ParseDeep pe mode (length m0) true (pos l) (st m0 l 0))) as HP.
  { apply tracked_refine. cbn [Z.add]. change (1 =? TINYXML2_MAX_ELEMENT_DEPTH) with false. cbn iota.
    eapply loop_refine; [exact U2 | | constructor | now exists [], [] | cbn; lia | exact Hx]. lia. }
  cbn [_charBuffer st]. rewrite El, <- El. rewrite Hx.
  destruct HP as (cs & B' & Hsh & HP).
  assert (forall lo hi, placed B' lo hi (flat_map pairs cs) (flat_map strings xs) -> tree_of (value_of B') <$> cs = xs) as Htree.
  { intros lo hi Hp. apply (trees_of_strings _ _ _ Hsh). eapply value_of_placed. exact Hp. }
  destruct e as [|n r'|e ln].
  - destruct HP as (-> & Hp & _). cbn [mbind ub_bind]. eexists. split; [reflexivity|]. cbn. 
    rewrite (Htree _ _ Hp). split; [reflexivity|]. split; [reflexivity|]. eauto.
  - destruct HP as (q & mid & -> & _ & Hp & _). cbn [mbind ub_bind]. eexists. split; [reflexivity|]. cbn.
    rewrite (Htree _ _ Hp). split; [reflexivity|]. split; [reflexivity|]. eauto.
  - destruct HP as (ln' & -> & _ & Hp & _). cbn [mbind ub_bind]. eexists. split; [reflexivity|]. cbn.
    rewrite (Htree _ _ Hp). split; [reflexivity|]. split; [reflexivity|]. eauto.
Qed.

End Modes.
End Refine.

(** ** Properties *)

(** What a document holds when it was not read, and after [Parse( p, len )], which
    deletes the nodes when there is an error. *)
Definition empty_document (b : bool) : document :=
  {| nodes := []; error := XML_ERROR_EMPTY_DOCUMENT; error_line := 0; with_bom := b |}.
Definition cleaned (D : document) : document :=
  if bool_decide (error D = XML_SUCCESS) then D
  else {| nodes := []; error := error D; error_line := error_line D; with_bom := with_bom D |}.

(** The strings of a document can be read in every order. *)
Definition readable (x : XMLDocument) : Prop :=
  forall order, Forall (fun i => (i < length (flat_map pairs (d_children x)))%nat) order ->
    read_strings order (flat_map pairs (d_children x)) (d_doc x) =
    Ret ((fun i => default [] (flat_map strings (nodes (document_of x)) !! i)) <$> order).

Lemma readable_none d b : readable (Document d [] b).
Proof. intros [|i order] H; [reflexivity|]. inversion_clear H as [|? ? Hi _]. cbn in Hi. lia. Qed.

Lemma buffer_text c : exists tail, c ++ [0] = m0 (until_nul c) tail.
Proof. destruct (until_nul_split c []) as [t Ht]. now exists t. Qed.

Lemma parsed_buffer pe mode c line b :
  Z.of_nat (length (until_nul c)) < INT32_MAX ->
  exists x, Parse_buffer pe mode (Document (Doc (c ++ [0]) XML_SUCCESS 0 line 0) [] b) = Ret x /\
    document_of x = document_at pe mode (until_nul c) /\ _parsingDepth (d_doc x) = 0 /\ readable x.
Proof.
  intros Hs. destruct (buffer_text c) as [tail ->].
  destruct (Parse_buffer_refines (until_nul c) tail (until_nul_text c) Hs pe mode line b)
    as (x & E & HD & Hdepth & lo & hi & Hp).
  exists x. split_and!; try assumption. intros order Ho. rewrite HD.
  eapply read_strings_placed; [exact Hp | reflexivity | exact Ho].
Qed.

Lemma until_nul_head c s : until_nul (c :: s) = [] <-> c = 0.
Proof. cbn. destruct (c =? 0) eqn:E; boolprop; split; congruence. Qed.

(** What [LoadFile] leaves. *)
Lemma LoadFile_document pe mode (f : option FILE) x :
  match f with
  | Some fp => -1 <= f_length fp <= INT64_MAX /\
      Z.of_nat (length (until_nul (f_read fp (Z.to_nat (f_length fp))))) < INT32_MAX
  | None => True
  end ->
  let failed e := {| nodes := []; error := e; error_line := 0; with_bom := _writeBOM x |} in
  exists x', LoadFile pe mode f x = Ret x' /\ readable x' /\
    document_of x' =
      match f with
      | None => failed XML_ERROR_FILE_NOT_FOUND
      | Some fp =>
          let bs := f_read fp (Z.to_nat (f_length fp)) in
          if negb (f_readable fp) then failed XML_ERROR_FILE_READ_ERROR
          else if f_length fp =? -1 then failed XML_ERROR_FILE_READ_ERROR
          else if f_length fp =? 0 then failed XML_ERROR_EMPTY_DOCUMENT
          else if negb (Z.of_nat (length bs) =? f_length fp) then failed XML_ERROR_FILE_READ_ERROR
          else document_at pe mode (until_nul bs)
      end.
Proof.
  intros Hf failed. unfold LoadFile. destruct f as [fp|].
  2: { eexists. split; [reflexivity|]. split; [apply readable_none | reflexivity]. }
  destruct Hf as [Hl Hs]. unfold LoadFile_fp. cbn [Clear d_doc d_children _writeBOM].
  destruct (f_readable fp); cbn [negb].
  2: { eexists. split; [reflexivity|]. split; [apply readable_none | reflexivity]. }
  destruct (f_length fp =? -1) eqn:E1; boolprop.
  { eexists. split; [reflexivity|]. split; [apply readable_none | reflexivity]. }
  rewrite u64_small by range. rewrite (proj2 (Z.leb_gt _ _)) by range.
  destruct (f_length fp =? 0) eqn:E2; boolprop.
  { eexists. split; [reflexivity|]. split; [apply readable_none | reflexivity]. }
  set (bs := f_read fp (Z.to_nat (f_length fp))) in *.
  assert ((length bs =? Z.to_nat (f_length fp))%nat = (Z.of_nat (length bs) =? f_length fp)) as ->.
  { destruct (length bs =? Z.to_nat (f_length fp))%nat eqn:E; symmetry;
      [apply Nat.eqb_eq in E; apply Z.eqb_eq | apply Nat.eqb_neq in E; apply Z.eqb_neq]; lia. }
  destruct (Z.of_nat (length bs) =? f_length fp); cbn [negb].
  2: { eexists. split; [reflexivity|]. split; [apply readable_none | reflexivity]. }
  destruct (parsed_buffer pe mode bs (_parseCurLineNum (d_doc x)) (_writeBOM x) Hs) as (x' & E & HD & _ & Hr).
  exists x'. split; [exact E|]. now split.
Qed.

(** What [Parse] leaves. *)
Lemma Parse_document pe mode s len x :
  match len with Some n => (n <= length s)%nat | None => 0 ∈ s end ->
  let content := match len with Some n => take n s | None => until_nul s end in
  Z.of_nat (length (until_nul content)) < INT32_MAX ->
  exists x', Parse pe mode s len x = Ret x' /\
    document_of x' = (if bool_decide (until_nul content = []) then empty_document (_writeBOM x)
                      else cleaned (document_at pe mode (until_nul content))) /\
    _parsingDepth (d_doc x') = 0 /\ readable x'.
Proof.
  intros Hlen content Hs. unfold Parse. case_bool_decide as H0.
  { subst len. eexists. split; [reflexivity|]. cbn [content]. rewrite bool_decide_true by (now destruct s).
    split; [reflexivity|]. split; [reflexivity | apply readable_none]. }
  destruct s as [|c s]; [destruct len as [[|n]|]; cbn in Hlen; [easy | lia | now apply elem_of_nil in Hlen]|].
  assert (until_nul content = [] <-> c = 0) as Hc.
  { unfold content. destruct len as [[|n]|]; [easy| |]; [apply until_nul_head|].
    cbn. destruct (c =? 0) eqn:E; boolprop; cbn; [split; congruence|].
    rewrite (proj2 (Z.eqb_neq _ _) E). split; congruence. }
  unfold rd. cbn [lookup list_lookup mbind ub_bind]. destruct (c =? 0) eqn:E0; boolprop.
  { eexists. split; [reflexivity|]. rewrite bool_decide_true by now apply Hc.
    split; [reflexivity|]. split; [reflexivity | apply readable_none]. }
  rewrite bool_decide_false by tauto.
  assert (match len with
          | None => if existsb (Z.eqb 0) (c :: s) then Ret (until_nul (c :: s)) else Undef
          | Some n => if decide (n <= length (c :: s))%nat then Ret (take n (c :: s)) else Undef
          end = Ret content) as ->.
  { unfold content. destruct len as [n|]; [now rewrite decide_True by exact Hlen|].
    rewrite (proj2 (existsb_exists _ _)); [reflexivity|]. exists 0.
    split; [now apply list_elem_of_In | reflexivity]. }
  cbn [mbind ub_bind]. set (y := Document _ [] _).
  destruct (parsed_buffer pe mode content (_parseCurLineNum (d_doc x)) (_writeBOM x) Hs) as (x' & E & HD & Hdepth & Hr).
  assert (y = Document (Doc (content ++ [0]) XML_SUCCESS 0 (_parseCurLineNum (d_doc x)) 0) [] (_writeBOM x)) as -> by reflexivity.
  rewrite E. cbn [mbind ub_bind]. eexists. split; [reflexivity|]. unfold cleaned. rewrite <- HD. cbn [error document_of].
  unfold Error. destruct (bool_decide (_errorID (d_doc x') = XML_SUCCESS)) eqn:Ee; cbn [negb].
  - now split_and!.
  - split; [reflexivity|]. split; [exact Hdepth | apply readable_none].
Qed.

(** C4. The parser is its grammar: whatever the bytes are, [Parse( p, len )] ends without
    reading or writing outside the buffer (no recursion deeper than the limit, every
    loop ends) and leaves exactly the document, the error and its line that the text
    up to the first NUL stands for, although it cuts names out of the buffer
    while it reads on; the depth is back at zero; afterwards the names and values of
    the document can be asked for in every order and as often as one likes and are
    always the same strings. *)
Theorem Parse_refines pe mode s len x :
  match len with Some n => (n <= length s)%nat | None => 0 ∈ s end ->
  let content := match len with Some n => take n s | None => until_nul s end in
  Z.of_nat (length (until_nul content)) < INT32_MAX ->
  exists x', Parse pe mode s len x = Ret x' /\
    document_of x' = (if bool_decide (until_nul content = []) then empty_document (_writeBOM x)
                      else cleaned (document_at pe mode (until_nul content))) /\
    _parsingDepth (d_doc x') = 0 /\ readable x'.
Proof. apply Parse_document. Qed.

(** Loading a file gives the document of its bytes: a file that cannot be opened or
    read whole, or is empty, is reported with its own error and leaves no nodes;
    otherwise the document is what the text up to the first NUL stands for, in
    which, unlike after [Parse( p, len )], the nodes before an error remain and can
    be read. *)
Theorem LoadFile_refines pe mode (f : option FILE) x :
  match f with
  | Some fp => -1 <= f_length fp <= INT64_MAX /\
      Z.of_nat (length (until_nul (f_read fp (Z.to_nat (f_length fp))))) < INT32_MAX
  | None => True
  end ->
  let failed e := {| nodes := []; error := e; error_line := 0; with_bom := _writeBOM x |} in
  exists x', LoadFile pe mode f x = Ret x' /\ readable x' /\
    document_of x' =
      match f with
      | None => failed XML_ERROR_FILE_NOT_FOUND
      | Some fp =>
          let bs := f_read fp (Z.to_nat (f_length fp)) in
          if negb (f_readable fp) then failed XML_ERROR_FILE_READ_ERROR
          else if f_length fp =? -1 then failed XML_ERROR_FILE_READ_ERROR
          else if f_length fp =? 0 then failed XML_ERROR_EMPTY_DOCUMENT
          else if negb (Z.of_nat (length bs) =? f_length fp) then failed XML_ERROR_FILE_READ_ERROR
          else document_at pe mode (until_nul bs)
      end.
Proof. apply LoadFile_document. Qed.

Lemma document_at_well_formed pe mode T : wf_nodes true 1 (nodes (document_at pe mode T)).
Proof.
  assert (wf_nodes true 1 []) as H0 by (split; [now exists [], [] | now repeat constructor]).
  unfold document_at. destruct (if has_bom _ then _ else _) as [|c r]; [exact H0|].
  destruct (nodes_at _ _ _ _ _ _ _ _) as [[xs e]|] eqn:E; [|exact H0].
  assert (wf_nodes true 1 xs) by (eapply nodes_at_wf; [exact H0 | exact E | reflexivity]).
  now destruct e.
Qed.

(** C27. What is accepted is well formed: in the document that [Parse] leaves (an empty one
    if it failed) elements and attributes have proper names, no element has two attributes
    of the same name, declarations stand in the document only and in front of everything
    else, and elements with content nest at most 98 deep.  On duplicate attributes the
    code is better than its comment: [ParseAttributes] looks each name up and refuses a
    duplicate with XML_ERROR_PARSING_ATTRIBUTE, while the comment behind that check
    ([tinyxml2.cpp], lines 1949 to 1953) says that a duplicate is not detected and doubly
    added. *)
Theorem parsed_documents_well_formed pe mode s len x x' :
  match len with Some n => (n <= length s)%nat | None => 0 ∈ s end ->
  let content := match len with Some n => take n s | None => until_nul s end in
  Z.of_nat (length (until_nul content)) < INT32_MAX ->
  Parse pe mode s len x = Ret x' -> wf_nodes true 1 (nodes (document_of x')).
Proof.
  intros Hlen content Hs E. destruct (Parse_document pe mode s len x Hlen Hs) as (y & Ey & HD & _).
  rewrite E in Ey. injection Ey as <-. rewrite HD.
  assert (wf_nodes true 1 []) as H0 by (split; [now exists [], [] | now repeat constructor]).
  case_bool_decide; [exact H0|]. unfold cleaned. case_bool_decide; [apply document_at_well_formed | exact H0].
Qed.

(** ** Concrete documents *)

Definition new_document : XMLDocument := Document (Doc [] XML_SUCCESS 0 0 0) [] false.
Definition sample : list Z := bytes "<a b='1'>x &lt; y</a>".
(** A file with the bytes [bs]. *)
Definition file_of (bs : list Z) : FILE :=
  {| f_readable := true; f_length := Z.of_nat (length bs); f_read := fun n => take n bs |}.

Definition parsed_sample : XMLDocument :=
  match Parse true PRESERVE_WHITESPACE (sample ++ [0]) None new_document with
  | Ret x => x | Undef => new_document end.
Lemma sample_parses : Parse true PRESERVE_WHITESPACE (sample ++ [0]) None new_document = Ret parsed_sample.
Proof. vm_compute. reflexivity. Qed.
Lemma ret_inj {A} (a b : A) : Ret a = Ret b -> a = b.
Proof. congruence. Qed.
Lemma sample_pairs : length (flat_map pairs (d_children parsed_sample)) = 4%nat.
Proof. vm_compute. reflexivity. Qed.

Lemma Parse_refines_witness :
  exists x, Parse true PRESERVE_WHITESPACE (sample ++ [0]) None new_document = Ret x /\
    nodes (document_of x) =
      [Element 1 (bytes "a") [Attribute 1 (bytes "b") (bytes "1")] [Text 1 false (bytes "x < y")]] /\
    read_strings [3%nat; 0%nat; 3%nat] (flat_map pairs (d_children x)) (d_doc x) =
      Ret [bytes "x < y"; bytes "a"; bytes "x < y"].
Proof.
  destruct (Parse_refines true PRESERVE_WHITESPACE (sample ++ [0]) None new_document) as (x & E & HD & _ & Hr).
  - apply (bool_decide_unpack _). vm_compute. exact I.
  - reflexivity.
  - exists x. split; [exact E|].
    assert (nodes (document_of x) =
      [Element 1 (bytes "a") [Attribute 1 (bytes "b") (bytes "1")] [Text 1 false (bytes "x < y")]]) as Hn
      by (rewrite HD; vm_compute; reflexivity).
    split; [exact Hn|]. rewrite (Hr [3; 0; 3]%nat); [rewrite Hn; vm_compute; reflexivity|].
    rewrite sample_parses in E. apply ret_inj in E. subst x. rewrite sample_pairs. repeat constructor; lia.
Defined.

Lemma parsed_documents_well_formed_witness : wf_nodes true 1 (nodes (document_of parsed_sample)).
Proof.
  apply (parsed_documents_well_formed true PRESERVE_WHITESPACE (sample ++ [0]) None new_document).
  - apply (bool_decide_unpack _). vm_compute. exact I.
  - reflexivity.
  - exact sample_parses.
Defined.

Lemma LoadFile_refines_witness :
  exists x, LoadFile true COLLAPSE_WHITESPACE (Some (file_of (bytes "<a><?b?></a>"))) new_document = Ret x /\
    error (document_of x) = XML_ERROR_PARSING_DECLARATION.
Proof.
  destruct (LoadFile_refines true COLLAPSE_WHITESPACE (Some (file_of (bytes "<a><?b?></a>"))) new_document)
    as (x & E & _ & HD); [split; [split|]; vm_compute; congruence|].
  exists x. split; [exact E|]. rewrite HD. vm_compute. reflexivity.
Defined.
