(* ===== verification/XmlRoundtrip.v ===== *)
(** * Printed documents are read back

    A rendering of nodes is their markup with any white space in front of each piece
    of markup that does not follow text.  The parser reads every rendering back
    ([renders_read]); what the printer of [compat/tinyxml2-v34/tinyxml2.cpp] writes is
    a rendering ([accept_renders]), compact or indented. *)

From S2P Require Import Prelude XmlText XmlDocument XmlGrammar XmlRefine XmlPrinter.

(** ** Renderings *)

Definition spaces (w : list Z) : Prop := Forall (fun c => IsWhiteSpace c = true) w.
Definition plain (x : xml) : bool := match x with Text _ false _ => true | _ => false end.
Definition encoded (restricted : bool) (v : list Z) : list Z := concat (escaped restricted <$> v).

Definition rendered_attribute (a : attribute) : list Z :=
  32 :: at_name a ++ [61; DOUBLE_QUOTE] ++ encoded false (at_value a) ++ [DOUBLE_QUOTE].
Definition rendered_tag (n : list Z) (ats : list attribute) : list Z :=
  60 :: n ++ flat_map rendered_attribute ats.

(** [after]: there is text in front. *)
Inductive renders : bool -> list xml -> list Z -> Prop :=
| renders_nil (after : bool) w : spaces w -> (after = true -> w = []) -> renders after [] w
| renders_text line v xs s : renders true xs s -> renders false (Text line false v :: xs) (encoded true v ++ s)
| renders_markup (after : bool) x xs w c s :
    spaces w -> (after = true -> w = []) -> markup x c -> renders false xs s ->
    renders after (x :: xs) (w ++ c ++ s)
with markup : xml -> list Z -> Prop :=
| markup_closed line n ats : markup (Element line n ats []) (rendered_tag n ats ++ bytes "/>")
| markup_open line n ats xs s :
    xs <> [] -> renders false xs s ->
    markup (Element line n ats xs) (rendered_tag n ats ++ bytes ">" ++ s ++ bytes "</" ++ n ++ bytes ">")
| markup_cdata line v : markup (Text line true v) (bytes "<![CDATA[" ++ v ++ bytes "]]>")
| markup_comment line v : markup (Comment line v) (bytes "<!--" ++ v ++ bytes "-->")
| markup_declaration line v : markup (Declaration line v) (bytes "<?" ++ v ++ bytes "?>")
| markup_unknown line v : markup (Unknown line v) (bytes "<!" ++ v ++ bytes ">").

Scheme renders_mind := Minimality for renders Sort Prop
  with markup_mind := Minimality for markup Sort Prop.
Combined Scheme renders_markup_ind from renders_mind, markup_mind.

(** ** Trees that can be printed *)

(** A string without NUL and carriage returns. *)
Definition plain_string (v : list Z) : Prop := text v /\ (CR ∉ v) /\ Z.of_nat (length v) <= INT32_MAX.
(** The end tag is first found behind the string. *)
Definition ends_with (pat v : list Z) : Prop := upto pat (v ++ pat) = Some (v, []).

(** Texts are not next to each other. *)
Fixpoint separated (after : bool) (xs : list xml) : Prop :=
  match xs with
  | [] => True
  | x :: xs => if plain x then after = false /\ separated true xs else separated false xs
  end.

Inductive printable : xml -> Prop :=
| printable_element line n ats xs :
    Forall (fun a => plain_string (at_value a)) ats -> separated false xs -> Forall printable xs ->
    printable (Element line n ats xs)
| printable_text line v : plain_string v -> ~ spaces v -> printable (Text line false v)
| printable_cdata line v : plain_string v -> ends_with (bytes "]]>") v -> printable (Text line true v)
| printable_comment line v : plain_string v -> ends_with (bytes "-->") v -> printable (Comment line v)
| printable_declaration line v : plain_string v -> ends_with (bytes "?>") v -> printable (Declaration line v)
| printable_unknown line v :
    plain_string v -> ends_with (bytes ">") v -> take 2 v <> bytes "--" -> take 7 v <> bytes "[CDATA[" ->
    printable (Unknown line v).

(** The tree without its line numbers. *)
Fixpoint unlined (x : xml) : xml :=
  match x with
  | Element _ n ats xs => Element 0 n ((fun a => Attribute 0 (at_name a) (at_value a)) <$> ats) (map unlined xs)
  | Text _ c v => Text 0 c v
  | Comment _ v => Comment 0 v
  | Declaration _ v => Declaration 0 v
  | Unknown _ v => Unknown 0 v
  end.

(** ** Reading the pieces *)

Lemma skip_lead_spaces w l : spaces w -> skip_lead (w ++ l) = skip_lead l.
Proof. induction 1 as [|c w Hc _ IH]; cbn [app skip_lead]; [reflexivity|]. now rewrite Hc. Qed.

Lemma skip_lead_cons c l : IsWhiteSpace c = false -> skip_lead (c :: l) = c :: l.
Proof. cbn [skip_lead]. now intros ->. Qed.

(** Some character that is not white space is found. *)
Lemma skip_lead_word v l : ~ spaces v -> exists c r, skip_lead (v ++ l) = c :: r /\ c ∈ v.
Proof.
  induction v as [|d v IH]; intros H; [exfalso; apply H; constructor|]. cbn [app skip_lead].
  destruct (IsWhiteSpace d) eqn:E.
  - destruct IH as (c & r & Hr & Hc); [intros Hv; apply H; now constructor|]. exists c, r. split; [exact Hr | now right].
  - exists d, (v ++ l). split; [reflexivity | now left].
Qed.

Lemma upto_later pat v r : pat <> [] -> ends_with pat v -> upto pat (v ++ pat ++ r) = Some (v, r).
Proof.
  intros Hp. unfold ends_with. induction v as [|c v IH]; intros H.
  - destruct pat as [|x pat]; [easy|]. change ([] ++ (x :: pat) ++ r) with ((x :: pat) ++ r).
    cbn [app upto]. rewrite app_comm_cons, take_app_length, bool_decide_true by reflexivity.
    now rewrite drop_app_length.
  - cbn [app upto] in *. rewrite (app_comm_cons v), (app_assoc (c :: v)).
    rewrite take_app_le by (rewrite length_app; cbn; lia). rewrite app_comm_cons in H.
    case_bool_decide; [discriminate|].
    destruct (upto pat (v ++ pat)) as [[a b]|]; cbn [mbind option_bind] in H; [|discriminate].
    injection H as -> ->. now rewrite IH.
Qed.

Lemma upto_char e v r : e ∉ v -> upto [e] (v ++ e :: r) = Some (v, r).
Proof.
  intros H. apply (upto_later [e]); [discriminate|]. unfold ends_with.
  induction v as [|c v IH]; cbn [app upto length take].
  - now rewrite bool_decide_true.
  - apply not_elem_of_cons in H as [Hc Hv]. rewrite bool_decide_false by (intros [= ->]; easy).
    now rewrite IH.
Qed.

Lemma name_start_facts c : IsNameStartChar c = true -> IsWhiteSpace c = false /\ c <> 47 /\ c <> 33 /\ c <> 63.
Proof.
  unfold IsNameStartChar, IsWhiteSpace, IsUTF8Continuation, isspace, isalpha. intros H.
  split; [|repeat split; now intros ->].
  destruct ((c =? 32) || ((9 <=? c) && (c <=? 13))) eqn:E; [|apply andb_false_r]. exfalso.
  apply orb_true_iff in E. boolprop. repeat (apply orb_true_iff in H as [H|H]); boolprop; try apply orb_true_iff in H; boolprop; lia.
Qed.

Lemma span_name_app n r :
  Forall (fun c => IsNameChar c = true) n -> (forall c s, r = c :: s -> IsNameChar c = false) ->
  span_name (n ++ r) = (n, r).
Proof.
  intros Hn Hr. induction Hn as [|c n Hc _ IH]; cbn [app span_name].
  - destruct r as [|c s]; [reflexivity|]. cbn [span_name]. now rewrite (Hr _ _ eq_refl).
  - now rewrite Hc, IH.
Qed.

Lemma name_at_app n r :
  valid_name n -> (forall c s, r = c :: s -> IsNameChar c = false) -> name_at (n ++ r) = Some (n, r).
Proof.
  intros (c & n' & -> & Hc & Hn) Hr. cbn [app name_at]. now rewrite Hc, span_name_app.
Qed.

Lemma pair_text_encoded restricted e v :
  (restricted, e) ∈ printing -> plain_string v -> pair_text TEXT_ELEMENT (encoded restricted v) = v.
Proof.
  intros Hp (Ht & Hcr & _). unfold pair_text, decode, encoded.
  change (has TEXT_ELEMENT NEEDS_WHITESPACE_COLLAPSING) with false.
  rewrite (decode_escaped restricted e) by (assumption || lia). now apply until_nul_id.
Qed.

Lemma encoded_facts restricted e v :
  (restricted, e) ∈ printing -> plain_string v -> text (encoded restricted v) /\ (e ∉ encoded restricted v).
Proof. intros Hp (Ht & _). destruct (printed_facts restricted e v Hp Ht) as (H1 & H2 & _). now split. Qed.

Lemma encoded_elem restricted v c x : c ∈ v -> x ∈ escaped restricted c -> x ∈ encoded restricted v.
Proof.
  intros Hc Hx. apply list_elem_of_In, in_concat. exists (escaped restricted c).
  split; apply list_elem_of_In; [apply list_elem_of_fmap; eauto | exact Hx].
Qed.

(** Values whose newlines are normalised only. *)
Lemma token_newline c r :
  c <> CR -> at0 r 0 <> CR -> token NEEDS_NEWLINE_NORMALIZATION c r = (1%nat, Some [c]).
Proof.
  intros Hc Hr. unfold token. rewrite (proj2 (Z.eqb_neq _ _) Hc), (proj2 (Z.eqb_neq _ _) Hr), andb_false_r.
  destruct (_ && (c =? LF)) eqn:E; [boolprop; now subst|]. reflexivity.
Qed.

Lemma decode_newline fuel o k v :
  CR ∉ v -> (length v <= fuel)%nat -> decode_from fuel NEEDS_NEWLINE_NORMALIZATION o k v = v.
Proof.
  revert fuel k. induction v as [|c v IH]; intros fuel k Hc Hf; [now destruct fuel|].
  apply not_elem_of_cons in Hc as [Hc Hv]. destruct fuel as [|fuel]; [cbn in Hf; lia|]. cbn [decode_from].
  rewrite token_newline; [|congruence|].
  - cbn [default from_option id app skipn]. rewrite drop_0, IH by (assumption || cbn in Hf; lia). reflexivity.
  - destruct v as [|d v]; cbn; [discriminate|]. apply not_elem_of_cons in Hv as [Hd _]. congruence.
Qed.

Lemma pair_text_plain v : plain_string v -> pair_text NEEDS_NEWLINE_NORMALIZATION v = v.
Proof.
  intros (Ht & Hcr & _). unfold pair_text, decode.
  change (has NEEDS_NEWLINE_NORMALIZATION NEEDS_WHITESPACE_COLLAPSING) with false.
  rewrite decode_newline by (assumption || lia). now apply until_nul_id.
Qed.

(** ** Reading tags *)

Section Read.
Context (total : Z).

Lemma quote_not_space : IsWhiteSpace 61 = false /\ IsWhiteSpace DOUBLE_QUOTE = false /\ IsWhiteSpace 60 = false /\
  IsWhiteSpace 32 = true /\ IsWhiteSpace 62 = false /\ IsWhiteSpace 47 = false.
Proof. now split_and!. Qed.

Lemma attribute_at_rendered n v r :
  valid_name n -> plain_string v ->
  attribute_at true (n ++ [61; DOUBLE_QUOTE] ++ encoded false v ++ DOUBLE_QUOTE :: r) = Some (n, v, r).
Proof.
  intros Hn Hv. unfold attribute_at. rewrite name_at_app by (exact Hn || now intros c s [= <- _]).
  cbn [mbind option_bind app]. rewrite skip_lead_cons by reflexivity. cbn [Z.eqb Pos.eqb].
  rewrite skip_lead_cons by reflexivity. rewrite Z.eqb_refl. cbn [orb].
  rewrite upto_char. { cbn [mbind option_bind]. now rewrite (pair_text_encoded false DOUBLE_QUOTE) by (exact Hv || now right; left). }
  apply (encoded_facts false DOUBLE_QUOTE); [now right; left | exact Hv].
Qed.

(** How a tag ends. *)
Definition tag_end (closed : bool) : list Z := if closed then bytes "/>" else bytes ">".

Lemma attributes_rendered (closed : bool) ats : forall fuel line done r,
  Forall (fun a => valid_name (at_name a)) ats -> Forall (fun a => plain_string (at_value a)) ats ->
  NoDup (at_name <$> done ++ ats) -> (length (flat_map rendered_attribute ats ++ tag_end closed ++ r) < fuel)%nat ->
  exists ats', attributes true total fuel line done (flat_map rendered_attribute ats ++ tag_end closed ++ r) =
      Some (if closed then TagClosed (done ++ ats') r else TagOpen (done ++ ats') r) /\
    (fun a => Attribute 0 (at_name a) (at_value a)) <$> ats' = (fun a => Attribute 0 (at_name a) (at_value a)) <$> ats.
Proof.
  induction ats as [|a ats IH]; intros fuel line done r Hn Hv Hd Hf; (destruct fuel as [|fuel]; [lia|]).
  - exists []. rewrite app_nil_r. split; [|reflexivity]. cbn [flat_map app attributes].
    destruct closed; cbn; rewrite ?drop_0; reflexivity.
  - inversion_clear Hn as [|? ? Hn1 Hn2]. inversion_clear Hv as [|? ? Hv1 Hv2]. cbn [flat_map] in *.
    unfold rendered_attribute at 1 in Hf. unfold rendered_attribute at 1.
    set (rest := flat_map rendered_attribute ats ++ tag_end closed ++ r) in *.
    assert ((32 :: at_name a ++ [61; DOUBLE_QUOTE] ++ encoded false (at_value a) ++ [DOUBLE_QUOTE]) ++ rest =
            [32] ++ at_name a ++ [61; DOUBLE_QUOTE] ++ encoded false (at_value a) ++ DOUBLE_QUOTE :: rest) as E
      by (cbn [app]; f_equal; rewrite <- !app_assoc; cbn [app]; rewrite <- !app_assoc; reflexivity).
    rewrite <- app_assoc in Hf |- *. fold rest in Hf |- *. rewrite E in *. cbn [attributes].
    rewrite (skip_lead_spaces [32]) by now repeat constructor.
    pose proof (attribute_at_rendered (at_name a) (at_value a) rest Hn1 Hv1) as HA.
    destruct Hn1 as (c & n' & En & Hc & _). rewrite En in HA |- *. cbn [app] in HA |- *.
    rewrite skip_lead_cons by now apply name_start_facts. rewrite Hc, HA, <- En.
    destruct (existsb _ done) eqn:Ee.
    { exfalso. apply existsb_exists in Ee as (b & Hb & Eb). apply bool_decide_eq_true in Eb.
      rewrite fmap_app in Hd. apply NoDup_app in Hd as (_ & Hd & _). apply (Hd (at_name b)).
      - apply list_elem_of_fmap. exists b. split; [reflexivity | now apply list_elem_of_In].
      - rewrite Eb. now left. }
    set (l := c :: _).
    destruct (IH fuel line (done ++ [Attribute (line_of total l) (at_name a) (at_value a)]) r Hn2 Hv2) as (ats' & E1 & E2).
    + rewrite !fmap_app in *. cbn in *. now rewrite <- app_assoc.
    + fold rest. repeat (rewrite length_app in Hf; cbn [length] in Hf). lia.
    + fold rest in E1. exists (Attribute (line_of total l) (at_name a) (at_value a) :: ats').
      rewrite E1, <- app_assoc. split; [now destruct closed|]. cbn. now rewrite E2.
Qed.

(** ** Reading markup *)

Lemma header_element c r : c <> 63 -> c <> 33 -> header_at (60 :: c :: r) = Some (bytes "<", KElement).
Proof.
  intros H1 H2. unfold header_at, headers. cbn [find fst].
  change (bytes "<?") with [60; 63]. change (bytes "<!--") with [60; 33; 45; 45].
  change (bytes "<![CDATA[") with [60; 33; 91; 67; 68; 65; 84; 65; 91]. change (bytes "<!") with [60; 33].
  cbn [length take]. rewrite !bool_decide_false by (intros [=]; congruence). reflexivity.
Qed.

Lemma header_none c r : c <> 60 -> header_at (c :: r) = None.
Proof.
  intros H. unfold header_at, headers. cbn [find fst].
  change (bytes "<?") with [60; 63]. change (bytes "<!--") with [60; 33; 45; 45].
  change (bytes "<![CDATA[") with [60; 33; 91; 67; 68; 65; 84; 65; 91]. change (bytes "<!") with [60; 33].
  change (bytes "<") with [60]. cbn [length take]. rewrite !bool_decide_false by (intros [=]; congruence). reflexivity.
Qed.

(** A pattern without ['>'] in front of it. *)
Lemma take_before_gt (pat v r : list Z) : 62 ∉ pat -> take (length pat) (v ++ 62 :: r) = pat -> take (length pat) v = pat.
Proof.
  revert v. induction pat as [|c pat IH]; intros v Hp H; [reflexivity|]. apply not_elem_of_cons in Hp as [Hc Hp].
  destruct v as [|d v]; cbn in H; [congruence|]. injection H as -> H. cbn. f_equal. now apply IH.
Qed.

Lemma header_unknown v r :
  take 2 v <> bytes "--" -> take 7 v <> bytes "[CDATA[" ->
  header_at (bytes "<!" ++ v ++ bytes ">" ++ r) = Some (bytes "<!", KUnknown).
Proof.
  intros H1 H2. unfold header_at, headers. cbn [find fst]. change (bytes "<!" ++ v ++ bytes ">" ++ r) with (60 :: 33 :: v ++ 62 :: r).
  rewrite bool_decide_false by discriminate. rewrite bool_decide_false.
  2: { intros H. apply H1. apply (take_before_gt (bytes "--") v r); [set_solver|]. cbn in H |- *. congruence. }
  rewrite bool_decide_false.
  2: { intros H. apply H2. apply (take_before_gt (bytes "[CDATA[") v r); [set_solver|]. cbn in H |- *. congruence. }
  rewrite bool_decide_true by reflexivity. reflexivity.
Qed.

Definition children (fuel : nat) (depth : Z) (l : list Z) : option (list xml * ending) :=
  if depth + 1 =? TINYXML2_MAX_ELEMENT_DEPTH
  then Some ([], Failed XML_ELEMENT_DEPTH_EXCEEDED (line_of total l))
  else nodes_at true PRESERVE_WHITESPACE total fuel false (depth + 1) [] l.

(** What stands behind a list of nodes. *)
Inductive tail_ok : list Z -> ending -> Prop :=
| tail_end : tail_ok [] AtEnd
| tail_tag n r : valid_name n -> tail_ok (bytes "</" ++ n ++ bytes ">" ++ r) (AtEndTag n r).

(** Nodes of kinds that are read up to an end tag. *)
Lemma value_read (ch : list Z -> option (list xml * ending)) h k pat (mk : Z -> list Z -> xml) w v r :
  header_at (h ++ v ++ pat ++ r) = Some (h, k) -> IsWhiteSpace (at0 h 0) = false -> h <> [] -> pat <> [] ->
  spaces w -> plain_string v -> ends_with pat v ->
  match k with
  | KDeclaration => pat = bytes "?>" /\ mk = Declaration
  | KComment => pat = bytes "-->" /\ mk = Comment
  | KText _ => pat = bytes "]]>" /\ mk = fun line => Text line true
  | KUnknown => pat = bytes ">" /\ mk = Unknown
  | KElement => False
  end ->
  exists line, node_at true PRESERVE_WHITESPACE total ch (w ++ h ++ v ++ pat ++ r) = Some (Node (mk line v) r).
Proof.
  intros Hh Hw Hne Hp Hs Hv He Hk. unfold node_at. rewrite (skip_lead_spaces w) by exact Hs.
  assert (skip_lead (h ++ v ++ pat ++ r) = h ++ v ++ pat ++ r) as ->
    by (destruct h as [|c h]; [easy|]; now apply skip_lead_cons).
  rewrite Hh, drop_app_length. exists (line_of total (h ++ v ++ pat ++ r)).
  destruct k; [| | | |easy]; destruct Hk as [-> ->]; unfold value_at;
    rewrite upto_later by assumption; change COMMENT with NEEDS_NEWLINE_NORMALIZATION; now rewrite pair_text_plain.
Qed.

(** A tag, with its name and its attributes. *)
Lemma tag_read (closed : bool) n ats w r ch :
  valid_name n -> Forall (fun a => valid_name (at_name a)) ats -> Forall (fun a => plain_string (at_value a)) ats ->
  NoDup (at_name <$> ats) -> spaces w ->
  exists line ats',
    (fun a => Attribute 0 (at_name a) (at_value a)) <$> ats' = (fun a => Attribute 0 (at_name a) (at_value a)) <$> ats /\
    node_at true PRESERVE_WHITESPACE total ch (w ++ rendered_tag n ats ++ tag_end closed ++ r) =
    if closed then Some (Node (Element line n ats' []) r)
    else if bool_decide (r = []) then Some (Bad XML_ERROR_MISMATCHED_ELEMENT line)
    else '(children, e) ← ch r;
         Some match e with
              | AtEnd => Bad XML_ERROR_PARSING line
              | Failed e line => Bad e line
              | AtEndTag n' l =>
                  if bool_decide (n = n') then Node (Element line n ats' children) l
                  else Bad XML_ERROR_MISMATCHED_ELEMENT line
              end.
Proof.
  intros Hn Hv Hs Hd Hw. pose proof Hn as (c & n' & En & Hc & _). pose proof (name_start_facts c Hc) as (Fw & F1 & F2 & F3).
  unfold node_at. rewrite skip_lead_spaces by exact Hw. unfold rendered_tag.
  set (rest := flat_map rendered_attribute ats ++ tag_end closed ++ r).
  assert ((60 :: n ++ flat_map rendered_attribute ats) ++ tag_end closed ++ r = 60 :: n ++ rest) as ->
    by (unfold rest; cbn [app]; now rewrite <- app_assoc).
  rewrite skip_lead_cons by reflexivity. set (line := line_of total _).
  assert (header_at (60 :: n ++ rest) = Some (bytes "<", KElement)) as -> by (rewrite En; cbn [app]; now apply header_element).
  change (drop (length (bytes "<")) (60 :: n ++ rest)) with (n ++ rest). unfold element_at.
  assert (skip_lead (n ++ rest) = n ++ rest) as -> by (rewrite En; cbn [app]; now apply skip_lead_cons).
  assert ((at0 (n ++ rest) 0 =? 47) = false) as -> by (rewrite En; cbn; now apply Z.eqb_neq).
  rewrite name_at_app; [|exact Hn|].
  2: { intros x s. unfold rest. destruct ats as [|a ats]; [destruct closed|]; cbn; now intros [= <- _]. }
  destruct (attributes_rendered closed ats (S (length rest)) line [] r Hv Hs Hd) as (ats' & E1 & E2).
  { unfold rest. lia. }
  fold rest in E1. rewrite E1. cbn [mbind option_bind app].
  exists line, ats'. split; [exact E2|]. now destruct closed.
Qed.

(** The end of a list of nodes. *)
Lemma tail_read tail e w fuel isDoc depth done :
  tail_ok tail e -> spaces w -> (length (w ++ tail) < fuel)%nat ->
  nodes_at true PRESERVE_WHITESPACE total fuel isDoc depth done (w ++ tail) = Some (done, e).
Proof.
  intros Ht Hw Hf. destruct fuel as [|fuel]; [lia|]. cbn [nodes_at]. rewrite skip_lead_spaces by exact Hw.
  destruct Ht as [|n r Hn]; [reflexivity|].
  change (bytes "</" ++ n ++ bytes ">" ++ r) with (60 :: 47 :: n ++ 62 :: r).
  rewrite skip_lead_cons, bool_decide_false by easy. unfold node_at.
  rewrite skip_lead_spaces, skip_lead_cons, header_element by easy.
  change (drop (length (bytes "<")) (60 :: 47 :: n ++ 62 :: r)) with (47 :: n ++ 62 :: r). unfold element_at.
  rewrite skip_lead_cons by reflexivity. change (at0 (47 :: n ++ 62 :: r) 0 =? 47) with true. cbn iota.
  change (drop 1 (47 :: n ++ 62 :: r)) with (n ++ 62 :: r).
  rewrite name_at_app by (exact Hn || now intros c s [= <- _]). reflexivity.
Qed.

Definition decl_ok (isDoc : bool) (done xs : list xml) : Prop :=
  Forall (fun x => is_declaration x = false) xs \/
  (isDoc = true /\ forallb is_declaration done = true /\ declarations_first xs).

Lemma declarations_first_cons x xs :
  declarations_first (x :: xs) ->
  if is_declaration x then declarations_first xs else Forall (fun x => is_declaration x = false) xs.
Proof.
  intros ([|y a] & b & E & Ha & Hb).
  - cbn in E. subst b. inversion_clear Hb as [|? ? Hx Hxs]. rewrite Hx. exact Hxs.
  - injection E as -> ->. cbn in Ha. boolprop. destruct (is_declaration y); [|easy]. now exists a, b.
Qed.

(** The next node is where it may be, and so are the ones behind it. *)
Lemma decl_ok_cons isDoc done x xs x' line r :
  decl_ok isDoc done (x :: xs) -> unlined x' = unlined x ->
  located isDoc done line (Node x' r) = Node x' r /\ decl_ok isDoc (done ++ [x']) xs.
Proof.
  intros H E. assert (is_declaration x' = is_declaration x) as Ed by (destruct x, x'; easy).
  destruct H as [H | (-> & Hd & H)].
  - inversion_clear H as [|? ? Hx Hxs]. split; [|now left]. rewrite Hx in Ed. now destruct x'.
  - apply declarations_first_cons in H. rewrite <- Ed in H. destruct (is_declaration x') eqn:Ex.
    + split; [destruct x'; try easy; cbn; now rewrite Hd|]. right. rewrite forallb_app, Hd. cbn. now rewrite Ex.
    + split; [now destruct x' | now left].
Qed.

(** ** Renderings are read back *)

Definition list_read (after : bool) (xs : list xml) (s : list Z) : Prop :=
  forall fuel isDoc depth done tail e,
    Forall printable xs -> Forall (wf_node depth) xs -> decl_ok isDoc done xs -> separated after xs ->
    (tail = [] -> Forall (fun x => plain x = false) xs) -> tail_ok tail e -> (length (s ++ tail) < fuel)%nat ->
    exists xs', nodes_at true PRESERVE_WHITESPACE total fuel isDoc depth done (s ++ tail) = Some (done ++ xs', e) /\
      map unlined xs' = map unlined xs.
Definition node_read (x : xml) (c : list Z) : Prop :=
  (exists d r, c = 60 :: d :: r) /\ plain x = false /\
  forall fuel depth w rest,
    printable x -> wf_node depth x -> spaces w -> (length (c ++ rest) <= fuel)%nat ->
    exists x', node_at true PRESERVE_WHITESPACE total (children fuel depth) (w ++ c ++ rest) = Some (Node x' rest) /\
      unlined x' = unlined x.

Lemma text_read line v xs s : list_read true xs s -> (s = [] \/ exists d r, s = 60 :: d :: r) ->
  list_read false (Text line false v :: xs) (encoded true v ++ s).
Proof.
  intros IH Hs fuel isDoc depth done tail e Hp Hw Hd Hsep Hpl Ht Hf.
  inversion_clear Hp as [|? ? Hp1 Hp2]. inversion_clear Hw as [|? ? Hw1 Hw2].
  inversion Hp1 as [|? ? Hv Hsp| | | |]; subst.
  assert (exists d r, s ++ tail = 60 :: d :: r) as (d & r & Er).
  { destruct Hs as [-> | (d & r & ->)]; [|cbn; eauto]. destruct Ht as [|n r Hn].
    - specialize (Hpl eq_refl). inversion_clear Hpl. easy.
    - cbn. eauto. }
  destruct fuel as [|fuel]; [lia|]. rewrite <- app_assoc in Hf |- *. cbn [nodes_at].
  destruct (encoded_facts true 60 v ltac:(now left) Hv) as [Het Hen].
  assert (~ spaces (encoded true v)) as Hns.
  { intros H. apply Hsp. unfold spaces in *. rewrite Forall_forall in *. intros c Hc.
    destruct (escaped_cases true 60 c ltac:(now left)) as [(x & _ & _ & Ee) | (Ee & _)].
    - discriminate (H AMP). apply (encoded_elem true v c); [exact Hc|]. rewrite Ee. now left.
    - apply H. apply (encoded_elem true v c); [exact Hc|]. rewrite Ee. now left. }
  destruct (skip_lead_word (encoded true v) (s ++ tail) Hns) as (c & q & Eq & Hc).
  rewrite Eq, bool_decide_false by discriminate. unfold node_at. rewrite Eq.
  rewrite header_none by (intros ->; contradiction). unfold text_at. rewrite Er.
  change (bytes "<") with [60]. rewrite upto_char by exact Hen. cbn [mbind option_bind].
  change (text_flags true PRESERVE_WHITESPACE) with TEXT_ELEMENT.
  rewrite (pair_text_encoded true 60) by (exact Hv || now left). set (ln := line_of total (c :: q)).
  destruct (decl_ok_cons isDoc done (Text line false v) xs (Text ln false v) ln (60 :: d :: r) Hd eq_refl) as [-> Hd'].
  cbn [separated plain] in Hsep. rewrite <- Er.
  destruct (IH fuel isDoc depth (done ++ [Text ln false v]) tail e Hp2 Hw2 Hd' (proj2 Hsep)) as (xs' & E1 & E2);
    [|exact Ht| |].
  - intros Hn. specialize (Hpl Hn). now inversion Hpl.
  - assert (encoded true v <> []) by (intros E; rewrite E in Hc; now apply elem_of_nil in Hc).
    rewrite length_app in Hf. destruct (encoded true v); [easy|]. cbn [length] in Hf. lia.
  - exists (Text ln false v :: xs'). rewrite E1, <- app_assoc. split; [reflexivity | cbn; congruence].
Qed.

Lemma markup_read after x xs w c s :
  spaces w -> (after = true -> w = []) -> node_read x c -> list_read false xs s ->
  list_read after (x :: xs) (w ++ c ++ s).
Proof.
  intros Hsp Haf (Hc & Hplain & Hx) IH fuel isDoc depth done tail e Hp Hw Hd Hsep Hpl Ht Hf.
  inversion_clear Hp as [|? ? Hp1 Hp2]. inversion_clear Hw as [|? ? Hw1 Hw2].
  destruct fuel as [|fuel]; [lia|]. rewrite <- !app_assoc in Hf |- *. cbn [nodes_at].
  assert (skip_lead (w ++ c ++ s ++ tail) <> []) as Hne.
  { rewrite skip_lead_spaces by exact Hsp. destruct Hc as (d & r & ->). cbn. discriminate. }
  rewrite bool_decide_false by exact Hne.
  destruct (Hx fuel depth w (s ++ tail) Hp1 Hw1 Hsp) as (x' & E1 & E2).
  { rewrite length_app in Hf. lia. }
  unfold children in E1. rewrite E1. cbn [mbind option_bind]. set (ln := line_of _ _).
  destruct (decl_ok_cons isDoc done x xs x' ln (s ++ tail) Hd E2) as [-> Hd'].
  cbn [separated] in Hsep. rewrite Hplain in Hsep.
  destruct (IH fuel isDoc depth (done ++ [x']) tail e Hp2 Hw2 Hd' Hsep) as (xs' & E3 & E4); [|exact Ht| |].
  - intros Hn. specialize (Hpl Hn). now inversion Hpl.
  - destruct Hc as (d & r & ->). rewrite !length_app in Hf. rewrite length_app. cbn [length] in Hf. lia.
  - exists (x' :: xs'). rewrite E3, <- app_assoc. split; [reflexivity | cbn; congruence].
Qed.

Lemma element_read line n ats xs s :
  xs <> [] -> list_read false xs s ->
  node_read (Element line n ats xs) (rendered_tag n ats ++ bytes ">" ++ s ++ bytes "</" ++ n ++ bytes ">").
Proof.
  intros Hne IH. split; [|split; [reflexivity|]].
  { unfold rendered_tag. destruct n; cbn; eauto. destruct (flat_map rendered_attribute ats); cbn; eauto. }
  intros fuel depth w rest Hp Hw Hsp Hf. inversion_clear Hp as [? ? ? ? Ha Hsep Hxs| | | | |].
  inversion_clear Hw as [? ? ? ? ? Hn Hv Hd Hdepth Hdecl Hwx| | | |].
  assert ((rendered_tag n ats ++ bytes ">" ++ s ++ bytes "</" ++ n ++ bytes ">") ++ rest =
          rendered_tag n ats ++ tag_end false ++ s ++ bytes "</" ++ n ++ bytes ">" ++ rest) as E
    by (now rewrite <- !app_assoc).
  rewrite E in Hf |- *. set (tail := bytes "</" ++ n ++ bytes ">" ++ rest) in *.
  destruct (tag_read false n ats w (s ++ tail) (children fuel depth) Hn Hv Ha Hd Hsp) as (ln & ats' & E1 & ->).
  rewrite bool_decide_false by (destruct s; discriminate). unfold children.
  specialize (Hdepth Hne). rewrite (proj2 (Z.eqb_neq _ _)) by lia.
  destruct (IH fuel false (depth + 1) [] tail (AtEndTag n rest) Hxs Hwx (or_introl Hdecl) Hsep) as (xs' & E2 & E3).
  - discriminate.
  - now constructor.
  - rewrite !length_app in Hf. unfold rendered_tag in Hf. cbn [length tag_end bytes] in Hf. rewrite length_app. lia.
  - rewrite E2. cbn [mbind option_bind app]. rewrite bool_decide_true by reflexivity.
    eexists. split; [reflexivity|]. cbn. congruence.
Qed.

(** Nodes that are read up to an end tag. *)
Lemma value_node_read h k pat (mk : Z -> list Z -> xml) line v :
  (exists d h', h = 60 :: d :: h') -> pat <> [] -> plain (mk line v) = false ->
  (forall ln, unlined (mk ln v) = unlined (mk line v)) ->
  (printable (mk line v) ->
     plain_string v /\ ends_with pat v /\ forall r, header_at (h ++ v ++ pat ++ r) = Some (h, k)) ->
  match k with
  | KDeclaration => pat = bytes "?>" /\ mk = Declaration
  | KComment => pat = bytes "-->" /\ mk = Comment
  | KText _ => pat = bytes "]]>" /\ mk = fun line => Text line true
  | KUnknown => pat = bytes ">" /\ mk = Unknown
  | KElement => False
  end ->
  node_read (mk line v) (h ++ v ++ pat).
Proof.
  intros (d & h' & Eh) Hpat Hpl Hun Hp Hk. split; [rewrite Eh; cbn; eauto|]. split; [exact Hpl|].
  intros fuel depth w rest Hpr _ Hsp _. destruct (Hp Hpr) as (Hv & He & Hh). rewrite <- !app_assoc.
  destruct (value_read (children fuel depth) h k pat mk w v rest) as [ln ->]; try assumption.
  - apply Hh.
  - now rewrite Eh.
  - now rewrite Eh.
  - eexists. split; [reflexivity | apply Hun].
Qed.

Lemma renders_read :
  (forall after xs s, renders after xs s -> list_read after xs s /\
     (after = true -> separated true xs -> s = [] \/ exists d r, s = 60 :: d :: r)) /\
  (forall x c, markup x c -> node_read x c).
Proof.
  apply renders_markup_ind.
  - intros after w Hw Haf. split; [|intros Ha _; left; now apply Haf].
    intros fuel isDoc depth done tail e _ _ _ _ _ Ht Hf. exists []. rewrite app_nil_r. split; [now apply tail_read | reflexivity].
  - intros line v xs s _ [IH Hs]. split; [|discriminate].
    intros fuel isDoc depth done tail e Hp Hw Hd Hsep. assert (separated true xs) as Hsep' by apply Hsep.
    revert fuel isDoc depth done tail e Hp Hw Hd Hsep. apply text_read; [exact IH | now apply Hs].
  - intros after x xs w c s Hw Haf _ Hx _ [IH _]. split; [now apply markup_read|].
    intros Ha _. right. rewrite (Haf Ha). destruct Hx as ((d & r & ->) & _). cbn. eauto.
  - intros line n ats. split; [|split; [reflexivity|]].
    { unfold rendered_tag. destruct n; cbn; eauto. destruct (flat_map rendered_attribute ats); cbn; eauto. }
    intros fuel depth w rest Hp Hw Hsp _. inversion_clear Hp as [? ? ? ? Ha _ _| | | | |].
    inversion_clear Hw as [? ? ? ? ? Hn Hv Hd _ _ _| | | |]. rewrite <- app_assoc.
    destruct (tag_read true n ats w rest (children fuel depth) Hn Hv Ha Hd Hsp) as (ln & ats' & E1 & E2).
    eexists. split; [exact E2|]. cbn. congruence.
  - intros line n ats xs s Hne _ [IH _]. now apply element_read.
  - intros line v. apply (value_node_read (bytes "<![CDATA[") (KText true) (bytes "]]>") (fun line => Text line true));
      [cbn; eauto | discriminate | reflexivity | reflexivity | | now split].
    intros Hp. inversion_clear Hp as [| |? ? Hv He| | |]. now split_and!.
  - intros line v. apply (value_node_read (bytes "<!--") KComment (bytes "-->") Comment);
      [cbn; eauto | discriminate | reflexivity | reflexivity | | now split].
    intros Hp. inversion_clear Hp as [| | |? ? Hv He| |]. now split_and!.
  - intros line v. apply (value_node_read (bytes "<?") KDeclaration (bytes "?>") Declaration);
      [cbn; eauto | discriminate | reflexivity | reflexivity | | now split].
    intros Hp. inversion_clear Hp as [| | | |? ? Hv He|]. now split_and!.
  - intros line v. apply (value_node_read (bytes "<!") KUnknown (bytes ">") Unknown);
      [cbn; eauto | discriminate | reflexivity | reflexivity | | now split].
    intros Hp. inversion_clear Hp as [| | | | |? ? Hv He H1 H2]. split_and!; try assumption. intros r. now apply header_unknown.
Qed.

End Read.

(** ** What is printed is a rendering *)

Definition seal (p : XMLPrinter) : list Z := if _elementJustOpened p then [62] else [].
(** The white space in front of a node. *)
Definition gap (compact : bool) (p : XMLPrinter) : list Z :=
  if compact then [] else if _firstElement p then indent (Z.to_nat (_depth p))
  else if _textDepth p <? 0 then LF :: indent (Z.to_nat (_depth p)) else [].
(** The first node was printed. *)
Definition ready (p : XMLPrinter) : Prop := _compactMode p = true \/ _firstElement p = false.

Lemma indent_spaces n : spaces (indent n).
Proof. induction n as [|n IH]; [constructor|]. cbn. repeat (constructor; [reflexivity|]). exact IH. Qed.
Lemma gap_spaces compact p : spaces (gap compact p).
Proof.
  unfold gap. repeat case_goal; try (constructor; [reflexivity|]); try apply indent_spaces; constructor.
Qed.

Ltac fields := cbn [_elementJustOpened _stack _firstElement _depth _textDepth p_processEntities _compactMode written].
Ltac run_printer :=
  unfold with_first, with_opened, with_textDepth, with_stack, Print_string, PrintSpace, Putc, Write; fields;
  rewrite <- ?app_assoc, ?app_nil_r; cbn [app]; rewrite <- ?app_assoc, ?app_nil_r; try reflexivity.

Lemma prepare_eq compact p :
  PrepareForNewNode compact p =
  Printer false (_stack p) (if compact then _firstElement p else false) (_depth p) (_textDepth p)
    (p_processEntities p) (_compactMode p) (written p ++ seal p ++ gap compact p).
Proof.
  destruct p as [o st f d t pe c w]. unfold PrepareForNewNode, SealElementIfJustOpened, seal, gap. fields.
  destruct o, compact, f; run_printer; try (destruct (t <? 0)); run_printer.
Qed.

Lemma gap_none p : ready p -> 0 <= _textDepth p -> gap (_compactMode p) p = [].
Proof.
  intros [-> | H] Ht; [reflexivity|]. unfold gap. rewrite H. destruct (_compactMode p); [reflexivity|].
  now rewrite (proj2 (Z.ltb_ge _ _) Ht).
Qed.

(** What stays as it is. *)
Definition kept (p p' : XMLPrinter) : Prop :=
  _stack p' = _stack p /\ _depth p' = _depth p /\ p_processEntities p' = p_processEntities p /\
  _compactMode p' = _compactMode p /\ (ready p -> ready p').

Lemma prepare_ready p : ready (PrepareForNewNode (_compactMode p) p).
Proof. rewrite prepare_eq. unfold ready. cbn. destruct (_compactMode p); auto. Qed.

Lemma PrintString_encoded restricted v : plain_string v -> PrintString true v restricted = encoded restricted v.
Proof. intros (_ & _ & H). unfold PrintString. now rewrite print_loop_spec by (cbn; lia). Qed.

Lemma attribute_eq n v o st f d t c w :
  plain_string v ->
  PushAttribute n v (Printer o st f d t true c w) =
  Printer o st f d t true c (w ++ rendered_attribute (Attribute 0 n v)).
Proof.
  intros Hv. unfold PushAttribute, Print_string, Putc, Write.
  fields. rewrite PrintString_encoded by exact Hv. unfold rendered_attribute. cbn [at_name at_value].
  f_equal. rewrite <- !app_assoc. reflexivity.
Qed.

Lemma attributes_eq ats o st f d t c w :
  Forall (fun a => plain_string (at_value a)) ats ->
  fold_left (fun p a => PushAttribute (at_name a) (at_value a) p) ats (Printer o st f d t true c w) =
  Printer o st f d t true c (w ++ flat_map rendered_attribute ats).
Proof.
  intros Ha. revert w. induction Ha as [|a ats Hv _ IH]; intros w; cbn [fold_left flat_map]; [now rewrite app_nil_r|].
  rewrite attribute_eq, IH by exact Hv. now rewrite app_assoc.
Qed.

Lemma enter_eq name ats p :
  p_processEntities p = true -> Forall (fun a => plain_string (at_value a)) ats ->
  VisitEnter_element name ats p =
  Printer true (name :: _stack p) (if _compactMode p then _firstElement p else false) (_depth p + 1) (_textDepth p)
    true (_compactMode p) (written p ++ seal p ++ gap (_compactMode p) p ++ rendered_tag name ats).
Proof.
  intros Hpe Ha. unfold VisitEnter_element, OpenElement. rewrite prepare_eq. run_printer. rewrite Hpe, attributes_eq by exact Ha.
  unfold rendered_tag. f_equal. rewrite <- !app_assoc. reflexivity.
Qed.

(** The white space in front of an end tag and behind the last one. *)
Definition end_gap (p : XMLPrinter) : list Z :=
  if (_textDepth p <? 0) && negb (_compactMode p) then LF :: indent (Z.to_nat (_depth p - 1)) else [].
Definition last_gap (p : XMLPrinter) : list Z :=
  if (_depth p - 1 =? 0) && negb (_compactMode p) then [LF] else [].

Lemma close_tag_eq name o st f d t pe c w :
  close_tag name c (Printer o st f d t pe c w) =
  Printer o st f d t pe c (w ++ if o then bytes "/>"
    else (if (t <? 0) && negb c then LF :: indent (Z.to_nat d) else []) ++ bytes "</" ++ name ++ bytes ">").
Proof.
  unfold close_tag, Putc, PrintSpace, Write. fields. destruct o; [reflexivity|]. destruct ((t <? 0) && negb c); fields;
    apply f_equal; rewrite <- !app_assoc; reflexivity.
Qed.

Lemma exit_eq p name stack :
  _stack p = name :: stack ->
  VisitExit_element p =
  Ret (Printer false stack (_firstElement p) (_depth p - 1)
    (if _textDepth p =? _depth p - 1 then -1 else _textDepth p) (p_processEntities p) (_compactMode p)
    (written p ++ (if _elementJustOpened p then bytes "/>" else end_gap p ++ bytes "</" ++ name ++ bytes ">") ++ last_gap p)).
Proof.
  destruct p as [o st f d t pe c w]. cbn [_stack]. intros ->. unfold VisitExit_element, CloseElement. fields.
  unfold with_stack. fields. rewrite close_tag_eq. unfold end_gap, last_gap. fields.
  generalize (if o then bytes "/>" else (if (t <? 0) && negb c then LF :: indent (Z.to_nat (d - 1)) else []) ++ bytes "</" ++ name ++ bytes ">").
  intros e. apply f_equal. unfold with_textDepth, with_opened, Putc, Write. fields.
  destruct (t =? d - 1); fields; destruct ((d - 1 =? 0) && negb c); fields; apply f_equal; now rewrite <- ?app_assoc, ?app_nil_r.
Qed.

Lemma end_gap_spaces p : spaces (end_gap p).
Proof. unfold end_gap. case_goal; [|constructor]. constructor; [reflexivity | apply indent_spaces]. Qed.
Lemma last_gap_spaces p : spaces (last_gap p).
Proof. unfold last_gap. case_goal; now repeat constructor. Qed.

(** Induction over trees. *)
Section XmlInd.
Context (P : xml -> Prop).
Context (Helement : forall line n ats xs, Forall P xs -> P (Element line n ats xs)).
Context (Htext : forall line c v, P (Text line c v)) (Hcomment : forall line v, P (Comment line v)).
Context (Hdeclaration : forall line v, P (Declaration line v)) (Hunknown : forall line v, P (Unknown line v)).
Fixpoint xml_nested_ind (x : xml) : P x :=
  match x with
  | Element line n ats xs =>
      Helement line n ats xs
        ((fix go xs : Forall P xs :=
            match xs with
            | [] => List.Forall_nil P
            | x :: xs => List.Forall_cons P x xs (xml_nested_ind x) (go xs)
            end) xs)
  | Text line c v => Htext line c v
  | Comment line v => Hcomment line v
  | Declaration line v => Hdeclaration line v
  | Unknown line v => Hunknown line v
  end.
End XmlInd.

Lemma Accept_children line n ats xs p :
  Accept (Element line n ats xs) p = p ← Accept_all xs (VisitEnter_element n ats p); VisitExit_element p.
Proof. reflexivity. Qed.

(** What printing a node writes: its markup, with white space around it. *)
Definition node_printed (x : xml) : Prop :=
  forall p, printable x -> plain x = false -> p_processEntities p = true -> 0 <= _depth p ->
  exists p' w c u, Accept x p = Ret p' /\ written p' = written p ++ seal p ++ w ++ c ++ u /\ markup x c /\
    spaces w /\ spaces u /\ (ready p -> 0 <= _textDepth p -> w = []) /\ (u <> [] -> _depth p = 0) /\
    _elementJustOpened p' = false /\ kept p p'.

(** The nodes [xs] are printed when [u] was written in front of them. *)
Definition list_printed (xs : list xml) : Prop :=
  forall p b u, Forall printable xs -> p_processEntities p = true -> 0 <= _depth p -> separated b xs -> spaces u ->
    (b = true -> ready p /\ 0 <= _textDepth p /\ u = []) ->
    (Forall (fun x => plain x = false) xs \/ u = [] /\ 1 <= _depth p /\ ready p) ->
  exists p' s b', Accept_all xs p = Ret p' /\
    written p' = written p ++ (if xs is [] then [] else seal p) ++ s /\
    (forall w, spaces w -> (b' = true -> w = []) -> renders b xs (u ++ s ++ w)) /\
    (b' = true -> 0 <= _textDepth p') /\
    _elementJustOpened p' = (if xs is [] then _elementJustOpened p else false) /\ kept p p'.

Lemma kept_refl p : kept p p.
Proof. now split_and!. Qed.
Lemma kept_trans p q r : kept p q -> kept q r -> kept p r.
Proof. intros (H1 & H2 & H3 & H4 & H5) (K1 & K2 & K3 & K4 & K5). split_and!; try congruence. auto. Qed.

Lemma text_printed v p :
  plain_string v -> p_processEntities p = true ->
  written (PushText v false p) = written p ++ seal p ++ encoded true v /\
  _textDepth (PushText v false p) = _depth p - 1 /\ _elementJustOpened (PushText v false p) = false /\
  kept p (PushText v false p).
Proof.
  intros Hv. destruct p as [o st f d t pe c w]. fields. intros ->.
  unfold PushText, SealElementIfJustOpened, seal, with_textDepth. fields.
  destruct o; unfold with_opened, Print_string, Putc, Write; fields; rewrite PrintString_encoded by exact Hv;
    (split; [now rewrite <- ?app_assoc|]); now split_and!.
Qed.

Lemma list_printed_all xs : Forall node_printed xs -> list_printed xs.
Proof.
  induction 1 as [|x xs Hx _ IH]; intros p b u Hp Hpe Hd Hsep Hu Hb Hpl.
  { exists p, [], b. split; [reflexivity|]. split; [now rewrite app_nil_r|].
    split; [|split; [now intros Hbt; apply Hb|split; [reflexivity | apply kept_refl]]].
    intros w Hw Hw'. constructor; [now apply Forall_app|]. intros ->. destruct (Hb eq_refl) as (_ & _ & ->). now rewrite Hw'. }
  inversion_clear Hp as [|? ? Hp1 Hp2]. cbn [Accept_all separated] in *. destruct (plain x) eqn:Ex.
  - destruct x as [| ? [] v | | |]; try discriminate. destruct Hsep as [-> Hsep].
    destruct Hpl as [Hpl | (-> & Hd1 & Hr)]; [inversion Hpl; discriminate|]. cbn [Accept mbind ub_bind].
    inversion_clear Hp1 as [|? ? Hv _| | | |]. destruct (text_printed v p Hv Hpe) as (T1 & T2 & T3 & T4).
    set (p1 := PushText v false p) in *. pose proof T4 as (K1 & K2 & K3 & K4 & K5).
    destruct (IH p1 true [] Hp2 ltac:(congruence) ltac:(lia) Hsep ltac:(constructor)) as (p' & s & b' & E1 & E2 & E3 & E4 & E5 & E6).
    + intros _. split; [now apply K5|]. split; [lia | reflexivity].
    + right. split; [reflexivity|]. split; [lia | now apply K5].
    + exists p', (encoded true v ++ s), b'. split; [exact E1|]. split.
      { rewrite E2, T1. unfold seal at 2. rewrite T3. destruct xs; rewrite <- !app_assoc; reflexivity. }
      split; [intros w Hw Hw'; rewrite <- app_assoc; constructor; now apply E3|]. split; [exact E4|].
      split; [rewrite E5, T3; now destruct xs | exact (kept_trans _ _ _ T4 E6)].
  - destruct (Hx p Hp1 Ex Hpe Hd) as (p1 & w0 & c & u1 & E0 & Ew & Hm & Hw0 & Hu1 & Hnone & Hu0 & Ho & Hk).
    rewrite E0. cbn [mbind ub_bind]. pose proof Hk as (K1 & K2 & K3 & K4 & K5).
    destruct (IH p1 false u1 Hp2 ltac:(congruence) ltac:(lia) Hsep Hu1 ltac:(discriminate)) as (p' & s & b' & E1 & E2 & E3 & E4 & E5 & E6).
    + destruct Hpl as [Hpl | (_ & Hd1 & Hr)]; [left; now inversion Hpl|]. right.
      split; [|split; [lia | now apply K5]]. destruct u1; [reflexivity|]. specialize (Hu0 ltac:(discriminate)). lia.
    + exists p', (w0 ++ c ++ u1 ++ s), b'. split; [exact E1|]. split.
      { rewrite E2, Ew. unfold seal at 2. rewrite Ho. destruct xs; rewrite <- !app_assoc; reflexivity. }
      split.
      { intros w Hw Hw'. specialize (E3 w Hw Hw'). rewrite <- !app_assoc, (app_assoc u). constructor; [now apply Forall_app| |exact Hm|exact E3].
        intros Hbt. destruct (Hb Hbt) as (Hr & Ht & ->). now apply Hnone. }
      split; [exact E4|]. split; [rewrite E5, Ho; now destruct xs | exact (kept_trans _ _ _ Hk E6)].
Qed.

Lemma element_printed line n ats xs : Forall node_printed xs -> node_printed (Element line n ats xs).
Proof.
  intros IH p Hp _ Hpe Hd. inversion_clear Hp as [? ? ? ? Ha Hsep Hxs| | | | |].
  rewrite Accept_children, enter_eq by assumption. set (p1 := Printer _ _ _ _ _ _ _ _).
  assert (ready p1) as Hr1 by (unfold ready, p1; fields; destruct (_compactMode p); auto).
  destruct (list_printed_all xs IH p1 false [] Hxs eq_refl ltac:(cbn; lia) Hsep ltac:(constructor) ltac:(discriminate))
    as (p2 & s & b & E1 & E2 & E3 & E4 & E5 & (K1 & K2 & K3 & K4 & K5)).
  { right. split; [reflexivity|]. split; [cbn; lia | exact Hr1]. }
  rewrite E1. cbn [mbind ub_bind]. cbn in K1, K2, K3, K4. rewrite (exit_eq p2 n (_stack p) K1), E2, E5, K2, K3, K4.
  assert (exists c, markup (Element line n ats xs) c /\
    (written p1 ++ (if xs is [] then [] else seal p1) ++ s) ++
      (if (if xs is [] then _elementJustOpened p1 else false) then bytes "/>"
       else end_gap p2 ++ bytes "</" ++ n ++ bytes ">") ++ last_gap p2 =
    written p ++ seal p ++ gap (_compactMode p) p ++ c ++ last_gap p2) as (c & Hm & Hw).
  { unfold p1, seal at 1. fields. destruct xs as [|x xs].
    - exists (rendered_tag n ats ++ bytes "/>"). split; [constructor|]. cbn in E1. injection E1 as <-.
      assert (s = []) as -> by (apply (app_inv_head (written p1)); rewrite app_nil_r; symmetry; exact E2).
      now rewrite <- !app_assoc.
    - exists (rendered_tag n ats ++ bytes ">" ++ (s ++ end_gap p2) ++ bytes "</" ++ n ++ bytes ">").
      split; [|now rewrite <- !app_assoc]. constructor; [discriminate|]. apply (E3 (end_gap p2) (end_gap_spaces p2)).
      intros Hb. unfold end_gap. now rewrite (proj2 (Z.ltb_ge _ _) (E4 Hb)). }
  rewrite Hw. eexists _, (gap (_compactMode p) p), c, (last_gap p2). split; [reflexivity|]. fields.
  split; [reflexivity|]. split; [exact Hm|]. split; [apply gap_spaces|]. split; [apply last_gap_spaces|].
  split; [intros Hr Ht; now apply gap_none|]. split.
  { intros Hne. unfold last_gap in Hne. destruct (_ && _) eqn:E; [|easy]. boolprop. lia. }
  split; [reflexivity|]. unfold kept, ready. fields. split; [reflexivity|]. split; [lia|]. split; [now rewrite Hpe|].
  split; [reflexivity|]. intros _. destruct (K5 Hr1) as [H|H]; [left; congruence | right; exact H].
Qed.

Lemma seal_text_eq v p :
  written (PushText v true p) = written p ++ seal p ++ bytes "<![CDATA[" ++ v ++ bytes "]]>" /\
  _elementJustOpened (PushText v true p) = false /\ kept p (PushText v true p).
Proof.
  destruct p as [o st f d t pe c w]. unfold PushText, SealElementIfJustOpened, seal, with_textDepth. fields.
  destruct o; unfold with_opened, Putc, Write; fields; (split; [now rewrite <- ?app_assoc|]); now split_and!.
Qed.

(** Nodes that are written at once. *)
Lemma value_printed p (a v b : list Z) :
  let p' := Write b (Write v (Write a (PrepareForNewNode (_compactMode p) p))) in
  written p' = written p ++ seal p ++ gap (_compactMode p) p ++ (a ++ v ++ b) ++ [] /\
  _elementJustOpened p' = false /\ kept p p'.
Proof.
  intros p'. assert (ready p') as Hr by (exact (prepare_ready p)). revert Hr. unfold p'. rewrite prepare_eq. unfold Write. fields.
  intros Hr. rewrite app_nil_r, <- !app_assoc. split; [reflexivity|]. split; [reflexivity|]. now split_and!.
Qed.

Lemma all_printed x : node_printed x.
Proof.
  induction x as [line n ats xs IH|line cd v|line v|line v|line v] using xml_nested_ind; [now apply element_printed|..];
    intros p Hp Hpl Hpe Hd.
  - destruct cd; [|discriminate]. destruct (seal_text_eq v p) as (E1 & E2 & E3).
    exists (PushText v true p), [], (bytes "<![CDATA[" ++ v ++ bytes "]]>"), [].
    split; [reflexivity|]. rewrite app_nil_r. split_and!; try assumption; try constructor; easy.
  - destruct (value_printed p (bytes "<!--") v (bytes "-->")) as (E1 & E2 & E3). eexists _, _, _, []. split; [reflexivity|].
    split; [exact E1|]. split; [constructor|]. split_and!; try assumption; [apply gap_spaces | constructor | apply gap_none | easy].
  - destruct (value_printed p (bytes "<?") v (bytes "?>")) as (E1 & E2 & E3). eexists _, _, _, []. split; [reflexivity|].
    split; [exact E1|]. split; [constructor|]. split_and!; try assumption; [apply gap_spaces | constructor | apply gap_none | easy].
  - destruct (value_printed p (bytes "<!") v (bytes ">")) as (E1 & E2 & E3). eexists _, _, _, []. split; [reflexivity|].
    split; [exact E1|]. split; [constructor|]. split_and!; try assumption; [apply gap_spaces | constructor | apply gap_none | easy].
Qed.

(** ** Documents *)

Lemma spaces_text w : spaces w -> text w.
Proof. intros H. eapply Forall_impl; [exact H|]. now intros c Hc ->. Qed.
Lemma name_text n : valid_name n -> text n.
Proof.
  intros (c & n' & -> & Hc & Hn). constructor; [now intros ->|].
  eapply Forall_impl; [exact Hn|]. now intros d Hd ->.
Qed.
Lemma attribute_text a : valid_name (at_name a) -> plain_string (at_value a) -> text (rendered_attribute a).
Proof.
  intros Hn Hv. constructor; [discriminate|]. apply Forall_app. split; [now apply name_text|].
  apply Forall_app. split; [repeat constructor; discriminate|]. apply Forall_app.
  split; [|repeat constructor; discriminate]. apply (encoded_facts false DOUBLE_QUOTE); [now right; left | exact Hv].
Qed.
Lemma tag_text n ats :
  valid_name n -> Forall (fun a => valid_name (at_name a)) ats -> Forall (fun a => plain_string (at_value a)) ats ->
  text (rendered_tag n ats).
Proof.
  intros Hn Ha Hv. constructor; [discriminate|]. apply Forall_app. split; [now apply name_text|].
  induction Ha as [|a ats Ha1 _ IH]; [constructor|]. inversion_clear Hv. apply Forall_app.
  split; [now apply attribute_text | now apply IH].
Qed.

Lemma renders_nonzero :
  (forall after xs s, renders after xs s -> forall depth, Forall printable xs -> Forall (wf_node depth) xs -> text s) /\
  (forall x c, markup x c -> forall depth, printable x -> wf_node depth x -> text c).
Proof.
  assert (forall pre v post, text pre -> text post -> plain_string v -> text (pre ++ v ++ post)) as Hval.
  { intros pre v post H1 H2 (Hv & _). apply Forall_app. split; [exact H1|]. now apply Forall_app. }
  apply renders_markup_ind.
  - intros after w Hw _ depth _ _. now apply spaces_text.
  - intros line v xs s _ IH depth Hp Hw. inversion_clear Hp as [|? ? Hp1 Hp2]. inversion_clear Hw.
    inversion_clear Hp1 as [|? ? Hv _| | | |]. apply Forall_app. split; [|now apply (IH depth)].
    apply (encoded_facts true 60); [now left | exact Hv].
  - intros after x xs w c s Hw _ _ IHx _ IH depth Hp Hwf. inversion_clear Hp. inversion_clear Hwf.
    apply Forall_app. split; [now apply spaces_text|]. apply Forall_app. split; [now apply (IHx depth) | now apply (IH depth)].
  - intros line n ats depth Hp Hw. inversion_clear Hp as [? ? ? ? Ha _ _| | | | |].
    inversion_clear Hw as [? ? ? ? ? Hn Hv _ _ _ _| | | |]. apply Forall_app. split; [now apply tag_text|].
    repeat constructor; discriminate.
  - intros line n ats xs s _ _ IH depth Hp Hw. inversion_clear Hp as [? ? ? ? Ha _ Hxs| | | | |].
    inversion_clear Hw as [? ? ? ? ? Hn Hv _ _ _ Hwx| | | |]. apply Forall_app. split; [now apply tag_text|].
    apply Forall_app. split; [repeat constructor; discriminate|]. apply Forall_app. split; [now apply (IH (depth + 1))|].
    apply Forall_app. split; [repeat constructor; discriminate|]. apply Forall_app.
    split; [now apply name_text | repeat constructor; discriminate].
  - intros line v depth Hp _. inversion_clear Hp. apply Hval; [repeat constructor; discriminate..|assumption].
  - intros line v depth Hp _. inversion_clear Hp. apply Hval; [repeat constructor; discriminate..|assumption].
  - intros line v depth Hp _. inversion_clear Hp. apply Hval; [repeat constructor; discriminate..|assumption].
  - intros line v depth Hp _. inversion_clear Hp. apply Hval; [repeat constructor; discriminate..|assumption].
Qed.

(** The documents that can be printed and read: not empty, as the parser would build
    them, without text outside of the elements. *)
Definition printable_document (xs : list xml) : Prop :=
  xs <> [] /\ wf_nodes true 1 xs /\ Forall printable xs /\ Forall (fun x => plain x = false) xs.

Lemma separated_markup b xs : Forall (fun x => plain x = false) xs -> separated b xs.
Proof. intros H. revert b. induction H as [|x xs Hx _ IH]; intros b; [exact I|]. cbn. rewrite Hx. apply IH. Qed.

(** A rendering without the white space in front of it. *)
Lemma renders_lead xs s :
  renders false xs s -> xs <> [] -> Forall (fun x => plain x = false) xs ->
  renders false xs (skip_lead s) /\ exists d r, skip_lead s = 60 :: d :: r.
Proof.
  intros H Hne Hpl. destruct H as [| |after x xs w c s Hw _ Hm Hr]; [easy | now inversion Hpl |].
  destruct (proj2 (renders_read 0) x c Hm) as ((d & r & ->) & _). rewrite skip_lead_spaces by exact Hw.
  cbn [app]. rewrite skip_lead_cons by reflexivity. split; [|eauto].
  apply (renders_markup after x xs [] (60 :: d :: r) s); [constructor | easy | exact Hm | exact Hr].
Qed.

Lemma document_printed compact b xs :
  printable_document xs ->
  exists p s, Accept_document true b xs (new_printer compact 0) = Ret p /\
    written p = (if b then bom else []) ++ s /\ renders false xs s.
Proof.
  intros (Hne & Hw & Hp & Hpl). unfold Accept_document.
  set (p0 := VisitEnter_document true b (new_printer compact 0)).
  assert (written p0 = (if b then bom else []) /\ p_processEntities p0 = true /\ _depth p0 = 0 /\ seal p0 = [])
    as (E1 & E2 & E3 & E4) by (now destruct b).
  assert (list_printed xs) as HL.
  { apply list_printed_all. apply Forall_forall. intros x _. apply all_printed. }
  destruct (HL p0 false [] Hp E2 ltac:(lia) (separated_markup _ _ Hpl) ltac:(constructor) ltac:(discriminate) (or_introl Hpl))
    as (p & s & b' & A1 & A2 & A3 & _).
  exists p, s. split; [exact A1|]. split; [rewrite A2, E1, E4; now destruct xs|].
  specialize (A3 [] ltac:(constructor) ltac:(easy)). now rewrite app_nil_r in A3.
Qed.

Lemma rendering_read total isDoc xs s :
  renders false xs s -> printable_document xs -> isDoc = true ->
  exists xs', nodes_at true PRESERVE_WHITESPACE total (S (length s)) isDoc 1 [] s = Some (xs', AtEnd) /\
    map unlined xs' = map unlined xs.
Proof.
  intros Hr (_ & (Hf & Hw & _) & Hp & Hpl) ->. destruct (proj1 (renders_read total) _ _ _ Hr) as [HL _].
  destruct (HL (S (length s)) true 1 [] [] AtEnd Hp Hw) as (xs' & E1 & E2).
  - right. now split_and!.
  - now apply separated_markup.
  - easy.
  - constructor.
  - rewrite app_nil_r. lia.
  - rewrite app_nil_r in E1. eauto.
Qed.

(** Printing and reading a document. *)
Lemma document_read compact b xs :
  printable_document xs ->
  exists p xs', Accept_document true b xs (new_printer compact 0) = Ret p /\ text (written p) /\
    document_at true PRESERVE_WHITESPACE (written p) =
      {| nodes := xs'; error := XML_SUCCESS; error_line := 0; with_bom := b |} /\
    map unlined xs' = map unlined xs.
Proof.
  intros Hd. destruct (document_printed compact b xs Hd) as (p & s & E1 & E2 & Hr).
  pose proof Hd as (Hne & (_ & Hw & _) & Hp & Hpl).
  pose proof (proj1 renders_nonzero _ _ _ Hr 1 Hp Hw) as Ht.
  destruct (renders_lead xs s Hr Hne Hpl) as [Hr' (d & r & Es)].
  assert (text (written p)) as Htw.
  { rewrite E2. apply Forall_app. split; [|exact Ht]. destruct b; [repeat constructor; discriminate | constructor]. }
  exists p. rewrite E2 in Htw |- *. destruct b.
  - destruct (rendering_read (1 + lines (bom ++ s)) true xs s Hr Hd eq_refl) as (xs' & E3 & E4).
    exists xs'. split; [exact E1|]. split; [exact Htw|]. split; [|exact E4]. unfold document_at.
    change (skip_lead (bom ++ s)) with (bom ++ s). change (has_bom (bom ++ s)) with true. cbn iota.
    change (drop 3 (bom ++ s)) with s. destruct s as [|c s]; [discriminate Es|]. now rewrite E3.
  - rewrite Es in Hr'. destruct (rendering_read (1 + lines s) true xs _ Hr' Hd eq_refl) as (xs' & E3 & E4).
    exists xs'. split; [exact E1|]. split; [exact Htw|]. split; [|exact E4]. unfold document_at. cbn [app].
    rewrite Es. assert (has_bom (60 :: d :: r) = false) as -> by (apply bool_decide_eq_false; discriminate).
    now rewrite E3.
Qed.

(** ** Properties *)

(** C9. A printable document that is saved is loaded again: [SaveFile] writes it without an
    error, compact or indented, and [LoadFile] of these bytes gives the same tree with the
    same names, attributes and values in the same order, and the byte order mark.
    Both documents have the default flags (entities processed, white space
    preserved), and the file can be opened, is shorter than 2^31 - 1 bytes and is read back in full.

    Printable ([printable_document]) means: the document is not empty; names are ones the
    parser accepts, no element has an attribute twice, elements with content nest at most
    98 deep, declarations stand in front of everything else and in the document only; there
    is no text outside of the elements; no text inside of one is empty or only white space,
    or next to another text; no string has a NUL or a carriage return or is longer than 2^31 - 1 bytes; a CDATA section,
    comment, declaration or unknown node does not contain its own end, and an unknown node
    does not begin like a comment or a CDATA section.  Without the condition on white space
    the claim fails for documents that the parser builds: see [blank_text_lost]. *)
Theorem saved_document_loads compact x y fp :
  printable_document (nodes (document_of x)) ->
  exists bs x', SaveFile true compact true x = Ret (Some bs, x') /\
    nodes (document_of x') = nodes (document_of x) /\ error (document_of x') = XML_SUCCESS /\
    (f_readable fp = true -> f_length fp = Z.of_nat (length bs) -> f_read fp (length bs) = bs ->
     Z.of_nat (length bs) < INT32_MAX ->
     exists z, LoadFile true PRESERVE_WHITESPACE (Some fp) y = Ret z /\
       error (document_of z) = XML_SUCCESS /\ with_bom (document_of z) = with_bom (document_of x) /\
       map unlined (nodes (document_of z)) = map unlined (nodes (document_of x)) /\ readable z).
Proof.
  intros Hd. destruct (document_read compact (_writeBOM x) _ Hd) as (p & xs' & E1 & Ht & E2 & E3).
  exists (written p). eexists. split; [|split; [|split]].
  - unfold SaveFile, SaveFile_fp. cbn [_writeBOM].
    change (nodes (document_of (Document (ClearError (d_doc x)) (d_children x) (_writeBOM x))))
      with (nodes (document_of x)). rewrite E1. reflexivity.
  - reflexivity.
  - reflexivity.
  - intros Hr Hl Hf Hs.
    assert (written p <> []) as Hne by (intros E; rewrite E in E2; discriminate E2).
    assert (Z.to_nat (f_length fp) = length (written p)) as Hn by lia.
    destruct (LoadFile_document true PRESERVE_WHITESPACE (Some fp) y) as (z & Ez & Hz & Dz).
    { rewrite Hn, Hf, until_nul_id by exact Ht. split; [range | exact Hs]. }
    exists z. split; [exact Ez|]. rewrite Hn, Hf, Hr in Dz. cbn [negb] in Dz.
    rewrite Hl, Z.eqb_refl, (proj2 (Z.eqb_neq _ _)) in Dz by lia.
    rewrite (proj2 (Z.eqb_neq _ _)) in Dz by (destruct (written p); [easy | cbn; lia]).
    cbn [negb] in Dz. rewrite until_nul_id in Dz by exact Ht. rewrite Dz, E2. now split_and!.
Qed.

(** ** A concrete document *)

Definition printed_sample : list Z :=
  bytes "<?xml?><!--c--><a b='&lt;1&gt;'>x &amp; y<d/>z<![CDATA[<]]></a>".
Definition sample_document : XMLDocument :=
  match Parse true PRESERVE_WHITESPACE (printed_sample ++ [0]) None new_document with
  | Ret x => x | Undef => new_document end.
Definition sample_file : FILE :=
  match SaveFile true false true sample_document with Ret (Some bs, _) => file_of bs | _ => file_of [] end.

Lemma sample_string v :
  bool_decide (text v) && bool_decide (CR ∉ v) && (Z.of_nat (length v) <=? INT32_MAX) = true -> plain_string v.
Proof. intros H. boolprop. now split_and!. Qed.
Lemma sample_name c n : IsNameStartChar c && forallb IsNameChar n = true -> valid_name (c :: n).
Proof.
  intros H. boolprop. exists c, n. split; [reflexivity|]. split; [assumption|].
  apply Forall_forall. intros x Hx. eapply forallb_forall; [eassumption | now apply list_elem_of_In].
Qed.
Ltac solve_sample :=
  lazymatch goal with
  | |- plain_string _ => apply sample_string; vm_compute; reflexivity
  | |- valid_name _ => apply sample_name; vm_compute; reflexivity
  | |- ends_with _ _ => vm_compute; reflexivity
  | |- NoDup _ => apply (bool_decide_unpack _); vm_compute; exact I
  | |- ~ spaces _ => let H := fresh in intros H; inversion H; discriminate
  | |- Forall _ _ => repeat (constructor; try solve_sample)
  | |- printable _ => constructor; try solve_sample
  | |- wf_node _ _ => constructor; try solve_sample
  | |- _ => try easy
  end.

Lemma sample_printable : printable_document (nodes (document_of sample_document)).
Proof.
  assert (nodes (document_of sample_document) =
    [Declaration 1 (bytes "xml"); Comment 1 (bytes "c");
     Element 1 (bytes "a") [Attribute 1 (bytes "b") (bytes "<1>")]
       [Text 1 false (bytes "x & y"); Element 1 (bytes "d") [] []; Text 1 false (bytes "z"); Text 1 true (bytes "<")]]) as ->
    by (vm_compute; reflexivity).
  split; [discriminate|]. split; [split; [|split]|split].
  - eexists [_], [_; _]. split; [reflexivity|]. split; [reflexivity | solve_sample].
  - solve_sample.
  - easy.
  - solve_sample.
  - solve_sample.
Qed.

Lemma sample_saved : exists x, SaveFile true false true sample_document = Ret (Some (f_read sample_file 1000), x).
Proof. eexists. vm_compute. reflexivity. Qed.

Lemma saved_inj (a b : list Z) (x y : XMLDocument) : Ret (Some a, x) = Ret (Some b, y) -> a = b.
Proof. congruence. Qed.

Lemma saved_document_loads_witness :
  exists z, LoadFile true PRESERVE_WHITESPACE (Some sample_file) new_document = Ret z /\
    error (document_of z) = XML_SUCCESS /\
    map unlined (nodes (document_of z)) = map unlined (nodes (document_of sample_document)).
Proof.
  destruct (saved_document_loads false sample_document new_document sample_file sample_printable)
    as (bs & x & E & _ & _ & H).
  destruct sample_saved as [x' E']. rewrite E' in E. apply saved_inj in E. subst bs.
  destruct H as (z & Ez & He & _ & Hn & _); [vm_compute; reflexivity | vm_compute; reflexivity | vm_compute; reflexivity
    | vm_compute; reflexivity |]. exists z. split; [exact Ez|]. split; [exact He | exact Hn].
Defined.

(** A text that is only white space is written as it is and skipped by the parser: the
    document of [<a>&#32;</a>] is not the one that is loaded after it was saved. *)
Definition blank_document : XMLDocument :=
  match Parse true PRESERVE_WHITESPACE (bytes "<a>&#32;</a>" ++ [0]) None new_document with
  | Ret x => x | Undef => new_document end.

Theorem blank_text_lost :
  nodes (document_of blank_document) = [Element 1 (bytes "a") [] [Text 1 false [32]]] /\
  exists bs x z, SaveFile true true true blank_document = Ret (Some bs, x) /\
    LoadFile true PRESERVE_WHITESPACE (Some (file_of bs)) new_document = Ret z /\
    error (document_of z) = XML_SUCCESS /\ nodes (document_of z) = [Element 1 (bytes "a") [] []].
Proof.
  split; [vm_compute; reflexivity|]. exists (bytes "<a> </a>").
  exists (match SaveFile true true true blank_document with Ret (_, x) => x | Undef => new_document end).
  exists (match LoadFile true PRESERVE_WHITESPACE (Some (file_of (bytes "<a> </a>"))) new_document with
          | Ret z => z | Undef => new_document end).
  split_and!; vm_compute; reflexivity.
Qed.
