(* ===== verification/XmlPool.v ===== *)
(** * Arrays and memory pools of tinyxml2

    [compat/tinyxml2-v34/tinyxml2.h]: the template [DynArray], a growing array of plain
    data, and [MemPoolT], which gives out the items of 4 KB blocks and keeps the
    free ones in a list that runs through the items themselves.  An access outside
    an array, a read of an item that is not on the free list and an overflow of an
    [int] are [Undef].  Theorems: an array is a list; a pool never gives out an item
    twice, and its counter is the number of items given out.  The class [MemPool] is
    the abstract class of the header, and [MemPoolLaws] what the document relies on. *)

From S2P Require Import Prelude.

(** ** [DynArray] *)

Section DynArray.
Context {T : Type}.

(** [_mem] is as long as was allocated; elements nobody wrote are [None]. *)
Record DynArray := Arr { _mem : list (option T); _allocated : Z; _size : Z }.

Definition arr_init (INITIAL_SIZE : nat) : DynArray :=
  Arr (replicate INITIAL_SIZE None) (Z.of_nat INITIAL_SIZE) 0.

Definition arr_clear (a : DynArray) : DynArray := Arr (_mem a) (_allocated a) 0.

Definition EnsureCapacity (cap : Z) (a : DynArray) : ub DynArray :=
  if _allocated a <? cap then
    newAllocated ← chk32 (cap * 2);
    Ret (Arr (take (Z.to_nat (_size a)) (_mem a) ++
              replicate (Z.to_nat newAllocated - Z.to_nat (_size a))%nat None) newAllocated (_size a))
  else Ret a.

(** A store to and a load from [_mem]. *)
Definition store (i : Z) (t : T) (a : DynArray) : ub DynArray :=
  if (0 <=? i) && (i <? Z.of_nat (length (_mem a)))
  then Ret (Arr (<[Z.to_nat i := Some t]> (_mem a)) (_allocated a) (_size a)) else Undef.
Definition load (i : Z) (a : DynArray) : ub T :=
  if i <? 0 then Undef
  else match _mem a !! Z.to_nat i with Some (Some t) => Ret t | _ => Undef end.

Definition with_size (n : Z) (a : DynArray) : DynArray := Arr (_mem a) (_allocated a) n.

Definition Push (t : T) (a : DynArray) : ub DynArray :=
  n ← chk32 (_size a + 1);
  a ← EnsureCapacity n a;
  a ← store (_size a) t a;
  Ret (with_size n a).

(** [PushArr] gives the place of the new elements, which the caller fills. *)
Definition PushArr (count : Z) (a : DynArray) : ub (Z * DynArray) :=
  n ← chk32 (_size a + count);
  a ← EnsureCapacity n a;
  Ret (_size a, with_size n a).
Fixpoint fill_from (i : Z) (ts : list T) (a : DynArray) : ub DynArray :=
  match ts with
  | [] => Ret a
  | t :: ts => a ← store i t a; fill_from (i + 1) ts a
  end.

Definition Pop (a : DynArray) : ub (T * DynArray) :=
  let a := with_size (_size a - 1) a in
  t ← load (_size a) a;
  Ret (t, a).
Definition PopArr (count : Z) (a : DynArray) : DynArray := with_size (_size a - count) a.
Definition arr_empty (a : DynArray) : bool := _size a =? 0.
Definition PeekTop (a : DynArray) : ub T := load (_size a - 1) a.
Definition SwapRemove (i : Z) (a : DynArray) : ub DynArray :=
  t ← load (_size a - 1) a;
  a ← store i t a;
  Ret (with_size (_size a - 1) a).

(** The list an array stands for. *)
Record arr_rep (a : DynArray) (l : list T) : Prop := {
  rep_elements : take (length l) (_mem a) = Some <$> l;
  rep_size : _size a = Z.of_nat (length l);
  rep_allocated : _allocated a = Z.of_nat (length (_mem a));
  rep_bound : _allocated a <= INT32_MAX;
}.

(** The number of elements up to which doubling stays within [int]. *)
Definition MAX_ELEMENTS : Z := 1073741823.

(** What [SwapRemove] makes of the list: the last element takes the place. *)
Definition swap_remove (i : nat) (l : list T) : list T :=
  match last l with
  | Some t => take (length l - 1) (<[i := t]> l)
  | None => l
  end.

Lemma rep_le a l : arr_rep a l -> (length l <= length (_mem a))%nat.
Proof.
  intros [He _ _ _]. apply (f_equal length) in He. rewrite length_take, length_fmap in He. lia.
Qed.

Lemma arr_init_rep n : Z.of_nat n <= INT32_MAX -> arr_rep (arr_init n) [].
Proof. by intros ?; split; cbn; rewrite ?length_replicate. Qed.

Lemma arr_clear_rep a l : arr_rep a l -> arr_rep (arr_clear a) [].
Proof. intros [? ? ? ?]. by split. Qed.

Lemma load_rep a l i t : arr_rep a l -> l !! i = Some t -> load (Z.of_nat i) a = Ret t.
Proof.
  intros [He _ _ _] Hi. unfold load. rewrite (proj2 (Z.ltb_ge _ _)), Nat2Z.id by lia.
  assert (Hm : _mem a !! i = Some (Some t)); [|by rewrite Hm].
  pose proof (lookup_lt_Some _ _ _ Hi).
  rewrite <- (lookup_take_lt _ (length l)) by lia. by rewrite He, list_lookup_fmap, Hi.
Qed.

(** The array grows to twice what is asked for and keeps its elements. *)
Lemma EnsureCapacity_rep a l cap :
  arr_rep a l -> Z.of_nat (length l) <= cap <= MAX_ELEMENTS ->
  exists a', EnsureCapacity cap a = Ret a' /\ arr_rep a' l /\ cap <= _allocated a'.
Proof.
  intros Hr Hc. pose proof (rep_le _ _ Hr) as Hle. destruct Hr as [He Hs Ha Hb].
  unfold EnsureCapacity. destruct (Z.ltb_spec (_allocated a) cap) as [Hlt|Hge].
  - assert (Hchk : chk32 (cap * 2) = Ret (cap * 2)).
    { apply chk32_ret. unfold is_i32, INT32_MIN, INT32_MAX, MAX_ELEMENTS in *. lia. }
    cbn -[Z.mul]. rewrite Hchk. eexists. split; [done|]. unfold MAX_ELEMENTS, INT32_MAX in *. cbn -[Z.mul].
    rewrite Hs, Nat2Z.id. split; [split; cbn -[Z.mul]|lia].
    + rewrite take_app_le by (rewrite length_take; lia). by rewrite take_take, Nat.min_id.
    + done.
    + rewrite length_app, length_take, length_replicate. lia.
    + unfold INT32_MAX; lia.
  - exists a. split_and!; try done; lia.
Qed.

Lemma store_rep a l i t :
  arr_rep a l -> (i < length l)%nat ->
  exists a', store (Z.of_nat i) t a = Ret a' /\ arr_rep a' (<[i := t]> l) /\ _allocated a' = _allocated a.
Proof.
  intros Hr Hi. pose proof (rep_le _ _ Hr) as Hle. destruct Hr as [He Hs Ha Hb]. unfold store.
  rewrite (proj2 (Z.leb_le 0 _)), (proj2 (Z.ltb_lt _ _)), Nat2Z.id by lia. eexists. split; [done|].
  split; [split; cbn|done]; rewrite ?length_insert; try done.
  by rewrite list_fmap_insert, <- He, take_insert_lt by lia.
Qed.

Lemma fill_mem ts : forall i a,
  (i + length ts <= length (_mem a))%nat ->
  fill_from (Z.of_nat i) ts a =
    Ret (Arr (take i (_mem a) ++ (Some <$> ts) ++ drop (i + length ts) (_mem a)) (_allocated a) (_size a)).
Proof.
  induction ts as [|t ts IH]; intros i a Hle; cbn in *.
  - rewrite Nat.add_0_r, take_drop. by destruct a.
  - unfold store. rewrite (proj2 (Z.leb_le 0 _)), (proj2 (Z.ltb_lt _ _)), Nat2Z.id by lia. cbn.
    replace (Z.of_nat i + 1) with (Z.of_nat (S i)) by lia.
    rewrite IH by (cbn; rewrite length_insert; lia). cbn. f_equal. f_equal.
    rewrite (take_S_r _ _ (Some t)) by (rewrite list_lookup_insert_eq by lia; done).
    rewrite take_insert_ge, drop_insert_lt, <- app_assoc by lia. cbn. by rewrite Nat.add_succ_r.
Qed.

Lemma arr_append a l ts :
  arr_rep a l -> Z.of_nat (length l) + Z.of_nat (length ts) <= _allocated a ->
  exists a', fill_from (Z.of_nat (length l)) ts a = Ret a' /\
    arr_rep (with_size (Z.of_nat (length l) + Z.of_nat (length ts)) a') (l ++ ts).
Proof.
  intros [He Hs Ha Hb] Hcap. rewrite fill_mem by lia. eexists. split; [done|].
  split; cbn; rewrite ?length_app, ?length_fmap, ?length_drop, ?length_take; try lia.
  by rewrite He, app_assoc, <- fmap_app, take_app_length' by (by rewrite length_fmap, length_app).
Qed.

Lemma fill_with_size ts : forall i n a,
  fill_from i ts (with_size n a) = (a' ← fill_from i ts a; Ret (with_size n a')).
Proof.
  induction ts as [|t ts IH]; intros i n a; cbn; [done|]. unfold store; cbn.
  destruct (_ && _); [|done]. cbn. apply (IH _ n (Arr _ _ _)).
Qed.

Lemma Push_rep a l t :
  arr_rep a l -> Z.of_nat (length l) < MAX_ELEMENTS ->
  exists a', Push t a = Ret a' /\ arr_rep a' (l ++ [t]).
Proof.
  intros Hr Hlt. pose proof Hr as [_ Hs _ _]. unfold MAX_ELEMENTS in *. unfold Push. cbn.
  rewrite Hs, chk32_ret by (unfold is_i32, INT32_MIN, INT32_MAX; lia). cbn.
  destruct (EnsureCapacity_rep a l (Z.of_nat (length l) + 1)) as (a1 & -> & Hr1 & Hc); [done| |].
  { unfold MAX_ELEMENTS; lia. }
  destruct (arr_append a1 l [t] Hr1) as (a2 & Hf & Hr2); [cbn; lia|]. cbn in Hf.
  cbn. rewrite (rep_size _ _ Hr1). destruct (store _ t a1) as [|a3]; [done|]. cbn in *.
  injection Hf as ->. eauto.
Qed.

Lemma PushArr_rep a l ts :
  arr_rep a l -> Z.of_nat (length l) + Z.of_nat (length ts) <= MAX_ELEMENTS ->
  exists a' i, PushArr (Z.of_nat (length ts)) a = Ret (i, a') /\
    exists a'', fill_from i ts a' = Ret a'' /\ arr_rep a'' (l ++ ts).
Proof.
  intros Hr Hle. pose proof Hr as [_ Hs _ _]. unfold MAX_ELEMENTS in *. unfold PushArr. cbn.
  rewrite Hs, chk32_ret by (unfold is_i32, INT32_MIN, INT32_MAX; lia). cbn.
  destruct (EnsureCapacity_rep a l (Z.of_nat (length l) + Z.of_nat (length ts))) as (a1 & -> & Hr1 & Hc);
    [done| |].
  { unfold MAX_ELEMENTS; lia. }
  cbn. eexists _, _. split; [done|]. rewrite (rep_size _ _ Hr1), fill_with_size.
  destruct (arr_append a1 l ts Hr1) as (a2 & -> & Hr2); [lia|]. cbn. eauto.
Qed.

Lemma PopArr_rep a l ts :
  arr_rep a (l ++ ts) -> arr_rep (PopArr (Z.of_nat (length ts)) a) l.
Proof.
  intros [He Hs Ha Hb]. rewrite length_app in Hs. split; cbn; try done; [|lia].
  apply (f_equal (take (length l))) in He.
  by rewrite take_take, length_app, Nat.min_l, fmap_app, take_app_length' in He
    by (rewrite ?length_fmap; lia).
Qed.

Lemma Pop_rep a l t : arr_rep a (l ++ [t]) ->
  exists a', Pop a = Ret (t, a') /\ arr_rep a' l.
Proof.
  intros Hr. pose proof (PopArr_rep _ _ [t] Hr) as Hp. unfold Pop.
  assert (Hl : load (_size a - 1) a = Ret t).
  { destruct Hr as [? Hs ? ?]. rewrite Hs, length_app. cbn.
    replace (_ - 1) with (Z.of_nat (length l)) by lia.
    apply (load_rep a (l ++ [t])); [by split|]. by apply list_lookup_middle. }
  cbn. change (load (_size a - 1) (with_size (_size a - 1) a)) with (load (_size a - 1) a).
  rewrite Hl. eauto.
Qed.

Lemma last_load a l t : arr_rep a l -> last l = Some t -> load (_size a - 1) a = Ret t.
Proof.
  intros Hr Hl. destruct l as [|x l']; [done|].
  replace (_size a - 1) with (Z.of_nat (length (x :: l') - 1))
    by (rewrite (rep_size _ _ Hr); cbn [length]; lia).
  apply (load_rep _ _ _ _ Hr). rewrite last_lookup in Hl. rewrite <- Hl. f_equal. cbn. lia.
Qed.

Lemma SwapRemove_rep a l i :
  arr_rep a l -> (i < length l)%nat ->
  exists a', SwapRemove (Z.of_nat i) a = Ret a' /\ arr_rep a' (swap_remove i l).
Proof.
  intros Hr Hi. destruct (last l) as [t|] eqn:Hlast.
  2:{ apply last_None in Hlast. subst. cbn in Hi; lia. }
  unfold SwapRemove, swap_remove. rewrite Hlast. cbn. rewrite (last_load _ _ _ Hr Hlast). cbn.
  destruct (store_rep _ _ _ t Hr Hi) as (a1 & -> & Hr1 & _). cbn. eexists. split; [done|].
  rewrite (rep_size _ _ Hr1), length_insert.
  replace (Z.of_nat (length l) - 1) with (Z.of_nat (length l - 1)) by lia.
  destruct Hr1 as [He1 _ Ha1 Hb1]. rewrite length_insert in He1.
  split; cbn; try done; rewrite length_take, length_insert, Nat.min_l by lia; [|done].
  rewrite fmap_take, <- He1, take_take. f_equal. lia.
Qed.
End DynArray.
Arguments DynArray : clear implicits.

(** Removing by swapping loses the element and nothing else. *)
Lemma swap_remove_perm {T} (l : list T) i x :
  l !! i = Some x -> l ≡ₚ x :: swap_remove i l.
Proof.
  intros Hi. destruct (decide (l = [])) as [->|Hne]; [done|].
  destruct (exists_last Hne) as (l' & t & ->). unfold swap_remove.
  rewrite last_snoc, length_app. cbn. rewrite Nat.add_sub.
  destruct (decide (i = length l')) as [->|Hneq].
  - rewrite list_lookup_middle in Hi by done. injection Hi as ->.
    rewrite take_insert_ge, take_app_length by lia. symmetry. apply Permutation_cons_append.
  - pose proof (lookup_lt_Some _ _ _ Hi) as Hlt. rewrite length_app in Hlt. cbn in Hlt.
    rewrite lookup_app_l in Hi by lia. rewrite insert_app_l by lia.
    rewrite take_app_length' by (by rewrite length_insert).
    rewrite <- (take_drop_middle _ _ _ Hi) at 1.
    rewrite (insert_take_drop _ _ t) by lia.
    rewrite <- app_assoc. cbn. solve_Permutation.
Qed.

(** ** [MemPool], the abstract class, and what its users rely on *)

Class MemPool (P : Type) := {
  Alloc : P -> ub (nat * P);
  Free : nat -> P -> ub P;
  SetTracked : P -> ub P;
  CurrentAllocs : P -> Z;
  Untracked : P -> Z;
}.

Class MemPoolLaws (P : Type) `{MemPool P} := {
  pool_ok : P -> Prop;
  used : P -> gset nat;
  allocs : P -> Z;      (* calls of [Alloc] so far *)
  alloc_ok p : pool_ok p -> allocs p < MAX_ELEMENTS ->
    exists a p', Alloc p = Ret (a, p') /\ pool_ok p' /\ (a ∉ used p) /\ used p' = ({[a]} ∪ used p) /\
      allocs p' = allocs p + 1 /\ Untracked p' = Untracked p + 1;
  free_ok p a : pool_ok p -> a ∈ used p ->
    exists p', Free a p = Ret p' /\ pool_ok p' /\ used p' = used p ∖ {[a]} /\
      allocs p' = allocs p /\ Untracked p' = Untracked p;
  tracked_ok p : pool_ok p -> 0 < Untracked p ->
    exists p', SetTracked p = Ret p' /\ pool_ok p' /\ used p' = used p /\
      allocs p' = allocs p /\ Untracked p' = Untracked p - 1;
  current_ok p : pool_ok p -> CurrentAllocs p = Z.of_nat (size (used p));
}.

(** ** [MemPoolT] *)

Section MemPoolT.
Context (ITEM_SIZE : nat).

Definition ITEMS_PER_BLOCK : nat := (4 * 1024) `div` ITEM_SIZE.

(** The items are numbered in the order of their blocks, so item [i] of the block
    that was pushed as number [b] is [b * ITEMS_PER_BLOCK + i]; [items] holds the
    [next] of the items that are not given out. *)
Record MemPoolT := Pool {
  _blockPtrs : DynArray nat;
  items : gmap nat (option nat);
  _root : option nat;
  _currentAllocs : Z;
  _nAllocs : Z;
  _maxAllocs : Z;
  _nUntracked : Z;
}.

Definition pool_init : MemPoolT := Pool (arr_init 10) ∅ None 0 0 0 0.

(** The loop of [Alloc] that links the items of a new block from [i] on. *)
Fixpoint link_items (n i : nat) (m : gmap nat (option nat)) : gmap nat (option nat) :=
  match n with
  | O => m
  | S O => <[i := None]> m
  | S n => link_items n (S i) (<[i := Some (S i)]> m)
  end.

(** The first half of [Alloc]: a new block when no item is free. *)
Definition alloc_block (p : MemPoolT) : ub MemPoolT :=
  match _root p with
  | Some _ => Ret p
  | None =>
      let block := Z.to_nat (_size (_blockPtrs p)) in
      blocks ← Push block (_blockPtrs p);
      let blockItems := (block * ITEMS_PER_BLOCK)%nat in
      Ret (Pool blocks (link_items ITEMS_PER_BLOCK blockItems (items p)) (Some blockItems)
             (_currentAllocs p) (_nAllocs p) (_maxAllocs p) (_nUntracked p))
  end.

Definition pool_alloc (p : MemPoolT) : ub (nat * MemPoolT) :=
  p ← alloc_block p;
  match _root p with
  | Some result =>
      match items p !! result with
      | Some next =>
          currentAllocs ← chk32 (_currentAllocs p + 1);
          nAllocs ← chk32 (_nAllocs p + 1);
          nUntracked ← chk32 (_nUntracked p + 1);
          Ret (result, Pool (_blockPtrs p) (delete result (items p)) next currentAllocs nAllocs
                 (if _maxAllocs p <? currentAllocs then currentAllocs else _maxAllocs p) nUntracked)
      | None => Undef
      end
  | None => Undef
  end.

(** [Free] of an item; one that is free already would enter the list twice. *)
Definition pool_free (item : nat) (p : MemPoolT) : ub MemPoolT :=
  match items p !! item with
  | Some _ => Undef
  | None =>
      currentAllocs ← chk32 (_currentAllocs p - 1);
      Ret (Pool (_blockPtrs p) (<[item := _root p]> (items p)) (Some item) currentAllocs
             (_nAllocs p) (_maxAllocs p) (_nUntracked p))
  end.

Definition pool_set_tracked (p : MemPoolT) : ub MemPoolT :=
  nUntracked ← chk32 (_nUntracked p - 1);
  Ret (Pool (_blockPtrs p) (items p) (_root p) (_currentAllocs p) (_nAllocs p) (_maxAllocs p) nUntracked).

(** [Clear] deletes every block, and with it every item. *)
Fixpoint pop_blocks (fuel : nat) (a : DynArray nat) : ub (DynArray nat) :=
  match fuel with
  | O => Undef
  | S fuel => if arr_empty a then Ret a else '(_, a) ← Pop a; pop_blocks fuel a
  end.
Definition pool_clear (p : MemPoolT) : ub MemPoolT :=
  blocks ← pop_blocks (S (Z.to_nat (_size (_blockPtrs p)))) (_blockPtrs p);
  Ret (Pool blocks ∅ None 0 0 0 0).

(** *** Its invariant *)

(** The free list from [r] runs exactly through the free items. *)
Fixpoint chain (r : option nat) (free : list nat) (m : gmap nat (option nat)) : Prop :=
  match free with
  | [] => r = None /\ m = ∅
  | x :: free => r = Some x /\ exists next, m !! x = Some next /\ chain next free (delete x m)
  end.

Definition n_items (p : MemPoolT) : nat := (Z.to_nat (_size (_blockPtrs p)) * ITEMS_PER_BLOCK)%nat.
Definition all_items (n : nat) : gset nat := list_to_set (seq 0 n).
Definition items_used (p : MemPoolT) : gset nat := all_items (n_items p) ∖ dom (items p).

Record pool_inv (p : MemPoolT) : Prop := {
  inv_chain : exists free, chain (_root p) free (items p);
  inv_items : dom (items p) ⊆ all_items (n_items p);
  inv_blocks : exists bs, arr_rep (_blockPtrs p) bs /\ Z.of_nat (length bs) <= _nAllocs p + 1;
  inv_current : _currentAllocs p = Z.of_nat (size (items_used p));
  inv_allocs : _currentAllocs p <= _nAllocs p <= MAX_ELEMENTS;
  inv_tracked : INT32_MIN <= _nUntracked p <= _nAllocs p;
}.

Lemma elem_of_all n i : i ∈ all_items n <-> (i < n)%nat.
Proof. unfold all_items. rewrite elem_of_list_to_set, elem_of_seq. lia. Qed.

Lemma link_lookup n : forall i m j,
  link_items (S n) i m !! j =
    if decide (i <= j <= i + n)%nat then Some (if decide (j = i + n)%nat then None else Some (S j)) else m !! j.
Proof.
  induction n as [|n IH]; intros i m j.
  - cbn. destruct (decide (i = j)) as [<-|Hne].
    + rewrite lookup_insert_eq. repeat case_decide; try done; lia.
    + rewrite lookup_insert_ne by done. repeat case_decide; try done; lia.
  - change (link_items (S (S n)) i m) with (link_items (S n) (S i) (<[i := Some (S i)]> m)).
    rewrite IH. destruct (decide (i = j)) as [<-|Hne].
    + rewrite lookup_insert_eq. repeat case_decide; try done; lia.
    + rewrite lookup_insert_ne by done. repeat case_decide; try done; lia.
Qed.

Lemma chain_seq n : forall i m,
  (forall j, m !! j = if decide (i <= j <= i + n)%nat
                      then Some (if decide (j = i + n)%nat then None else Some (S j)) else None) ->
  chain (Some i) (seq i (S n)) m.
Proof.
  induction n as [|n IH]; intros i m Hm; cbn -[seq]; (split; [done|]); eexists; (split;
    [rewrite Hm; rewrite decide_True by lia; done|]).
  - rewrite decide_True by lia. split; [done|]. apply map_eq. intros j.
    destruct (decide (j = i)) as [->|Hne]; [by rewrite lookup_delete_eq|].
    rewrite lookup_delete_ne, Hm, lookup_empty by done. case_decide; [lia|done].
  - rewrite decide_False by lia. apply IH. intros j. destruct (decide (j = i)) as [->|Hne].
    + rewrite lookup_delete_eq. case_decide; [lia|done].
    + rewrite lookup_delete_ne, Hm by done. repeat case_decide; try done; lia.
Qed.

(** *** The operations keep it *)

Lemma used_alloc n (m : gmap nat (option nat)) a next :
  dom m ⊆ all_items n -> m !! a = Some next ->
  all_items n ∖ dom (delete a m) = {[a]} ∪ (all_items n ∖ dom m) /\ a ∉ all_items n ∖ dom m.
Proof.
  intros Hsub Ha. apply elem_of_dom_2 in Ha. split; [|set_solver]. rewrite dom_delete_L.
  apply set_eq. intros j. destruct (decide (j = a)); set_solver.
Qed.

Lemma used_free n (m : gmap nat (option nat)) a next :
  all_items n ∖ dom (<[a := next]> m) = (all_items n ∖ dom m) ∖ {[a]}.
Proof. rewrite dom_insert_L. set_solver. Qed.

(** Giving out the first item of the free list. *)
Lemma take_root p : pool_inv p -> is_Some (_root p) -> _nAllocs p < MAX_ELEMENTS ->
  exists a next, _root p = Some a /\ items p !! a = Some next /\
    (a ∉ items_used p) /\
    (forall p', p' = Pool (_blockPtrs p) (delete a (items p)) next (_currentAllocs p + 1) (_nAllocs p + 1)
               (if _maxAllocs p <? _currentAllocs p + 1 then _currentAllocs p + 1 else _maxAllocs p)
               (_nUntracked p + 1) ->
      pool_inv p' /\ items_used p' = {[a]} ∪ items_used p).
Proof.
  intros [[free Hc] Hi [bs [Hb Hbl]] Hcur Hall Htr] [a Ha] Hlt. destruct free as [|x free]; [by destruct Hc; congruence|].
  destruct Hc as [Hr (next & Hx & Hc)]. rewrite Hr in Ha. injection Ha as ->.
  destruct (used_alloc (n_items p) _ _ _ Hi Hx) as [Hu Hna].
  exists a, next. split_and!; try done. intros p' ->. split; [|done]. split; cbn.
  - eauto.
  - rewrite dom_delete_L. unfold n_items in *. cbn. set_solver.
  - exists bs. split; [done|lia].
  - unfold items_used, n_items in *. cbn. rewrite Hu, size_union, size_singleton by set_solver. lia.
  - lia.
  - lia.
Qed.

Definition counts_in_range (p : MemPoolT) : Prop :=
  0 <= _currentAllocs p < MAX_ELEMENTS /\ 0 <= _nAllocs p < MAX_ELEMENTS /\
  INT32_MIN <= _nUntracked p < MAX_ELEMENTS.
Lemma inv_counts p : pool_inv p -> _nAllocs p < MAX_ELEMENTS -> counts_in_range p.
Proof. intros [_ _ (bs & _ & ?) ? ? ?] ?. unfold counts_in_range. lia. Qed.

Lemma size_all n : size (all_items n) = n.
Proof. unfold all_items. rewrite size_list_to_set by apply NoDup_seq. apply length_seq. Qed.

(** A new block adds free items only. *)
Lemma alloc_block_inv p : (0 < ITEMS_PER_BLOCK)%nat -> pool_inv p -> _nAllocs p < MAX_ELEMENTS ->
  exists q, alloc_block p = Ret q /\ is_Some (_root q) /\ items_used q = items_used p /\
    _nAllocs q = _nAllocs p /\ _nUntracked q = _nUntracked p /\ pool_inv q.
Proof.
  intros Hpos Hinv Hlt. unfold alloc_block. destruct (_root p) as [r|] eqn:Hr.
  { exists p. split_and!; try done. }
  destruct Hinv as [[free Hc] Hi (bs & Hb & Hbl) Hcur Hall Htr]. rewrite Hr in Hc.
  destruct free as [|x free]; [|by destruct Hc]. destruct Hc as [_ Hm].
  assert (Hs : n_items p = (length bs * ITEMS_PER_BLOCK)%nat).
  { unfold n_items. by rewrite (rep_size _ _ Hb), Nat2Z.id. }
  assert (Hfull : items_used p = all_items (n_items p)) by (unfold items_used; rewrite Hm; set_solver).
  rewrite Hfull, size_all, Hs in Hcur.
  destruct (Push_rep (_blockPtrs p) bs (Z.to_nat (_size (_blockPtrs p))) Hb) as (blocks & Hpush & Hb'); [nia|].
  rewrite (rep_size _ _ Hb), Nat2Z.id in *. cbn. rewrite Hpush. cbn. eexists. split; [done|].
  assert (Hn : (Z.to_nat (_size blocks) * ITEMS_PER_BLOCK = length bs * ITEMS_PER_BLOCK + ITEMS_PER_BLOCK)%nat).
  { rewrite (rep_size _ _ Hb'), Nat2Z.id, length_app. cbn. lia. }
  set (base := (length bs * ITEMS_PER_BLOCK)%nat) in *. destruct ITEMS_PER_BLOCK as [|k] eqn:Hk; [lia|].
  assert (Hdom : forall j, j ∈ dom (link_items (S k) base (items p)) <-> (base <= j <= base + k)%nat).
  { intros j. rewrite elem_of_dom, link_lookup, Hm, lookup_empty. unfold is_Some. case_decide; naive_solver. }
  assert (Hu : items_used (Pool blocks (link_items (S k) base (items p)) (Some base) (_currentAllocs p)
                 (_nAllocs p) (_maxAllocs p) (_nUntracked p)) = items_used p).
  { rewrite Hfull. unfold items_used, n_items. cbn [_blockPtrs items]. rewrite Hk, Hn. apply set_eq. intros j.
    unfold n_items in Hs. rewrite Hk in Hs. rewrite Hs. rewrite elem_of_difference, !elem_of_all, Hdom. lia. }
  split_and!; try done.
  split; cbn [_root items _blockPtrs _currentAllocs _nAllocs _nUntracked]; try done.
  - exists (seq base (S k)). apply chain_seq. intros j. by rewrite link_lookup, Hm, lookup_empty.
  - intros j. rewrite Hdom. unfold n_items. cbn [_blockPtrs]. rewrite Hk, Hn, elem_of_all. lia.
  - exists (bs ++ [length bs]). split; [done|]. rewrite length_app. cbn. lia.
  - rewrite Hu, Hfull, size_all, Hs. lia.
Qed.

Lemma pool_alloc_inv p : (0 < ITEMS_PER_BLOCK)%nat -> pool_inv p -> _nAllocs p < MAX_ELEMENTS ->
  exists a p', pool_alloc p = Ret (a, p') /\ pool_inv p' /\ (a ∉ items_used p) /\
    items_used p' = {[a]} ∪ items_used p /\
    _nAllocs p' = _nAllocs p + 1 /\ _nUntracked p' = _nUntracked p + 1.
Proof.
  intros Hpos Hinv Hlt. destruct (alloc_block_inv p Hpos Hinv Hlt) as (q & Hq & Hroot & Hu & Hn & Ht & Hq').
  rewrite <- Hn in Hlt. destruct (take_root q Hq' Hroot Hlt) as (a & next & Ha & Hnext & Hna & Hp').
  destruct (Hp' _ eq_refl) as [Hinv' Hu']. destruct (inv_counts q Hq' Hlt) as (? & ? & ?).
  unfold pool_alloc. cbn. rewrite Hq. cbn. rewrite Ha, Hnext.
  unfold MAX_ELEMENTS, INT32_MIN in *.
  cbn. rewrite !chk32_ret by (unfold is_i32, INT32_MIN, INT32_MAX; lia). cbn.
  do 2 eexists. split; [done|]. rewrite <- Hu, <- Hn, <- Ht. by split_and!.
Qed.

Lemma pool_free_inv p a : pool_inv p -> a ∈ items_used p ->
  exists p', pool_free a p = Ret p' /\ pool_inv p' /\ items_used p' = items_used p ∖ {[a]} /\
    _nAllocs p' = _nAllocs p /\ _nUntracked p' = _nUntracked p.
Proof.
  intros [[free Hc] Hi Hb Hcur Hall Htr] Ha. unfold pool_free.
  assert (Hnone : items p !! a = None) by (apply not_elem_of_dom; unfold items_used in Ha; set_solver).
  assert (Hsize : size (items_used p ∖ {[a]}) = (size (items_used p) - 1)%nat).
  { rewrite size_difference, size_singleton; [done|set_solver]. }
  assert (size (items_used p) <> 0)%nat by (rewrite size_non_empty_iff; set_solver).
  rewrite Hnone. cbn. rewrite chk32_ret by (unfold is_i32, INT32_MIN, INT32_MAX, MAX_ELEMENTS in *; lia).
  cbn. eexists. split; [done|].
  assert (Hu : forall b m n u, items_used (Pool (_blockPtrs p) (<[a := _root p]> (items p)) (Some a) b m n u)
             = items_used p ∖ {[a]}).
  { intros. unfold items_used, n_items. cbn. apply used_free. }
  split_and!; try done. split; cbn; try done.
  - exists (a :: free). split; [done|]. exists (_root p). split; [apply lookup_insert_eq|].
    by rewrite delete_insert_id.
  - unfold items_used, n_items in *. cbn. set_solver.
  - rewrite Hu, Hsize, Hcur. lia.
  - lia.
Qed.

Lemma pool_tracked_inv p : pool_inv p -> INT32_MIN < _nUntracked p ->
  exists p', pool_set_tracked p = Ret p' /\ pool_inv p' /\ items_used p' = items_used p /\
    _nAllocs p' = _nAllocs p /\ _nUntracked p' = _nUntracked p - 1.
Proof.
  intros [Hc Hi Hb Hcur Hall Htr] Hpos. unfold pool_set_tracked. cbn.
  unfold INT32_MIN, MAX_ELEMENTS in *.
  rewrite chk32_ret by (unfold is_i32, INT32_MIN, INT32_MAX, MAX_ELEMENTS in *; lia). cbn.
  eexists. split; [done|]. split_and!; try done. split; cbn; try done. unfold INT32_MIN. lia.
Qed.

Lemma pop_blocks_rep bs : forall fuel a, arr_rep a bs -> (length bs < fuel)%nat ->
  exists a', pop_blocks fuel a = Ret a' /\ arr_rep a' [].
Proof.
  induction bs as [|b bs IH] using rev_ind; intros [|fuel] a Hr Hf; try (cbn in *; lia); cbn.
  - unfold arr_empty. rewrite (rep_size _ _ Hr). cbn. eauto.
  - rewrite length_app in Hf. unfold arr_empty. rewrite (rep_size _ _ Hr), length_app. cbn in *.
    rewrite (proj2 (Z.eqb_neq _ _)) by lia. destruct (Pop_rep _ _ _ Hr) as (a' & -> & Hr'). cbn.
    apply IH; [done|lia].
Qed.

Lemma pool_init_inv : pool_inv pool_init.
Proof.
  split; cbn; try done.
  - by exists [].
  - exists []. split; [by apply arr_init_rep|done].
Qed.

Lemma pool_clear_inv p : pool_inv p ->
  exists p', pool_clear p = Ret p' /\ pool_inv p' /\ items_used p' = ∅ /\ _nAllocs p' = 0.
Proof.
  intros [_ _ (bs & Hb & _) _ _ _]. unfold pool_clear.
  destruct (pop_blocks_rep bs (S (Z.to_nat (_size (_blockPtrs p)))) _ Hb) as (a & Ha & Hr).
  { rewrite (rep_size _ _ Hb). lia. }
  cbn -[pop_blocks]. rewrite Ha. cbn. eexists. split; [done|].
  assert (Hu : items_used (Pool a ∅ None 0 0 0 0) = ∅).
  { unfold items_used, n_items. cbn. rewrite (rep_size _ _ Hr). cbn. set_solver. }
  split_and!; try done. split; cbn; try done.
  - by exists [].
  - by exists [].
  - by rewrite Hu.
Qed.

(** *** Users of a pool *)

Inductive pool_call := PAlloc | PFree (item : nat) | PSetTracked | PClear.
Definition call_pool (c : pool_call) (p : MemPoolT) : ub (option nat * MemPoolT) :=
  match c with
  | PAlloc => '(a, p) ← pool_alloc p; Ret (Some a, p)
  | PFree a => p ← pool_free a p; Ret (None, p)
  | PSetTracked => p ← pool_set_tracked p; Ret (None, p)
  | PClear => p ← pool_clear p; Ret (None, p)
  end.

(** What a pool promises: a set of items, of which [Alloc] adds a new one. *)
Inductive hold_step : gset nat -> pool_call -> option nat -> gset nat -> Prop :=
| hold_alloc H a : a ∉ H -> hold_step H PAlloc (Some a) ({[a]} ∪ H)
| hold_free H a : a ∈ H -> hold_step H (PFree a) None (H ∖ {[a]})
| hold_tracked H : hold_step H PSetTracked None H
| hold_clear H : hold_step H PClear None ∅.

(** The user frees what it holds, and counts an item as tracked once. *)
Definition legal_call (H : gset nat) (p : MemPoolT) (c : pool_call) : Prop :=
  match c with
  | PAlloc => _nAllocs p < MAX_ELEMENTS
  | PFree a => a ∈ H
  | PSetTracked => 0 < _nUntracked p
  | PClear => True
  end.

Inductive pool_reach : gset nat -> MemPoolT -> Prop :=
| reach_init : pool_reach ∅ pool_init
| reach_call H p c ans H' p' :
    pool_reach H p -> legal_call H p c -> call_pool c p = Ret (ans, p') -> hold_step H c ans H' ->
    pool_reach H' p'.

Lemma call_inv c p : (0 < ITEMS_PER_BLOCK)%nat -> pool_inv p -> legal_call (items_used p) p c ->
  exists ans p', call_pool c p = Ret (ans, p') /\ pool_inv p' /\ hold_step (items_used p) c ans (items_used p').
Proof.
  intros Hpos Hinv Hl. destruct c as [|a| |]; cbn [call_pool legal_call] in *.
  - destruct (pool_alloc_inv p Hpos Hinv Hl) as (a & p' & -> & Hinv' & Hna & Hu & _). cbn.
    do 2 eexists. split_and!; [done..|]. rewrite Hu. by constructor.
  - destruct (pool_free_inv p a Hinv Hl) as (p' & -> & Hinv' & Hu & _). cbn.
    do 2 eexists. split_and!; [done..|]. rewrite Hu. by constructor.
  - destruct (pool_tracked_inv p Hinv) as (p' & -> & Hinv' & Hu & _); [unfold INT32_MIN; lia|]. cbn.
    do 2 eexists. split_and!; [done..|]. rewrite Hu. constructor.
  - destruct (pool_clear_inv p Hinv) as (p' & -> & Hinv' & Hu & _). cbn.
    do 2 eexists. split_and!; [done..|]. rewrite Hu. constructor.
Qed.

Lemma hold_step_fun H c ans H1 H2 : hold_step H c ans H1 -> hold_step H c ans H2 -> H1 = H2.
Proof. intros S1 S2. by inversion S1; inversion S2; simplify_eq. Qed.

Lemma reach_inv H p : (0 < ITEMS_PER_BLOCK)%nat -> pool_reach H p -> pool_inv p /\ items_used p = H.
Proof.
  intros Hpos. induction 1 as [|H p c ans H' p' _ [Hinv Hu] Hl Hc Hs].
  - split; [apply pool_init_inv|]. unfold items_used, n_items. cbn. set_solver.
  - rewrite <- Hu in *. destruct (call_inv c p Hpos Hinv Hl) as (ans' & p'' & Hc' & Hinv' & Hs').
    rewrite Hc in Hc'. injection Hc' as <- <-. split; [done|]. by eapply hold_step_fun.
Qed.

(** In every state a pool can be brought to, every call its user may make is
    defined, [Alloc] gives out an item nobody holds, and [CurrentAllocs] counts the
    items that are held. *)
Theorem pool_refines_set H p c :
  (0 < ITEMS_PER_BLOCK)%nat -> pool_reach H p -> legal_call H p c ->
  _currentAllocs p = Z.of_nat (size H) /\
  exists ans p' H', call_pool c p = Ret (ans, p') /\ hold_step H c ans H' /\ pool_reach H' p'.
Proof.
  intros Hpos Hr Hl. destruct (reach_inv H p Hpos Hr) as [Hinv <-]. split; [apply inv_current; done|].
  destruct (call_inv c p Hpos Hinv Hl) as (ans & p' & Hc & Hinv' & Hs).
  exists ans, p', (items_used p'). split_and!; [done..|]. by eapply reach_call.
Qed.
End MemPoolT.

(** An instance of the template: a pool with its [ITEM_SIZE]. *)
Record SizedPool := Sized { ITEM_SIZE : nat; sp_pool : MemPoolT }.
Definition resize (sp : SizedPool) (p : MemPoolT) : SizedPool := Sized (ITEM_SIZE sp) p.

#[export] Instance SizedPool_pool : MemPool SizedPool := {
  Alloc sp := '(a, p) ← pool_alloc (ITEM_SIZE sp) (sp_pool sp); Ret (a, resize sp p);
  Free a sp := p ← pool_free a (sp_pool sp); Ret (resize sp p);
  SetTracked sp := p ← pool_set_tracked (sp_pool sp); Ret (resize sp p);
  CurrentAllocs sp := _currentAllocs (sp_pool sp);
  Untracked sp := _nUntracked (sp_pool sp);
}.

(** An item is not larger than a block. *)
Definition sized_ok (sp : SizedPool) : Prop :=
  (0 < ITEMS_PER_BLOCK (ITEM_SIZE sp))%nat /\ pool_inv (ITEM_SIZE sp) (sp_pool sp).

#[export] Program Instance SizedPool_laws : MemPoolLaws SizedPool := {
  pool_ok := sized_ok;
  used sp := items_used (ITEM_SIZE sp) (sp_pool sp);
  allocs sp := _nAllocs (sp_pool sp);
}.
Next Obligation.
  intros [n p] [Hn Hp] Hlt. cbn in *.
  destruct (pool_alloc_inv n p Hn Hp Hlt) as (a & p' & -> & ? & ? & ? & ? & ?). cbn. by do 2 eexists.
Qed.
Next Obligation.
  intros [n p] a [Hn Hp] Ha. cbn in *.
  destruct (pool_free_inv n p a Hp Ha) as (p' & -> & ? & ? & ? & ?). cbn. by eexists.
Qed.
Next Obligation.
  intros [n p] [Hn Hp] Hu. cbn in *.
  destruct (pool_tracked_inv n p Hp) as (p' & -> & ? & ? & ? & ?); [unfold INT32_MIN; lia|]. cbn. by eexists.
Qed.
Next Obligation. intros [n p] [Hn Hp]. by apply inv_current. Qed.

(** The items of two elements, of which the first is freed and given out again. *)
Lemma pool_refines_set_witness :
  exists p, pool_reach 120 {[0%nat; 1%nat]} p /\
    exists ans p' H', call_pool 120 (PFree 0) p = Ret (ans, p') /\
      hold_step {[0%nat; 1%nat]} (PFree 0) ans H' /\ pool_reach 120 H' p'.
Proof.
  set (p0 := pool_init).
  assert (H1 : exists p1, pool_reach 120 ({[0%nat]} ∪ ∅) p1 /\
     exists p2, pool_reach 120 ({[1%nat]} ∪ ({[0%nat]} ∪ ∅)) p2).
  { eexists. split.
    - eapply (reach_call 120 ∅ p0 PAlloc); [constructor|done|vm_compute; reflexivity|by constructor].
    - eexists. eapply (reach_call 120 _ _ PAlloc).
      + eapply (reach_call 120 ∅ p0 PAlloc); [constructor|done|vm_compute; reflexivity|by constructor].
      + done.
      + vm_compute; reflexivity.
      + constructor. set_solver. }
  destruct H1 as (_ & _ & p2 & Hp2). exists p2.
  replace ({[1%nat]} ∪ ({[0%nat]} ∪ ∅)) with ({[0%nat; 1%nat]} : gset nat) in Hp2 by set_solver.
  split; [done|]. apply (pool_refines_set 120 _ p2 (PFree 0)); [vm_compute; lia|done|cbn; set_solver].
Defined.
