(* ===== verification/XmlForest.v ===== *)
(** * The document tree of tinyxml2: links

    [forest] is what the pointers of [XmlTree.v] stand for: a map from each live node
    to its parent, the list of its children and its content, in which parents and children
    agree and nobody is above itself.  [conc] computes the pointers from it.  Theorems:
    unlinking and the three insertions are defined and change the forest as they
    say. *)

From S2P Require Import Prelude XmlPool XmlTree.

(** ** Neighbours in a list *)

Section Neighbours.
Context {A : Type} `{EqDecision A}.

Fixpoint after (x : A) (l : list A) : option A :=
  match l with
  | [] => None
  | y :: l => if decide (x = y) then head l else after x l
  end.
Definition before (x : A) (l : list A) : option A := after x (reverse l).

Lemma after_not_in x l : x ∉ l -> after x l = None.
Proof.
  induction l as [|y l IH]; cbn; [done|]. rewrite not_elem_of_cons. intros [? ?].
  rewrite decide_False by done. auto.
Qed.

Lemma after_app_r x l1 l2 : x ∉ l1 -> after x (l1 ++ l2) = after x l2.
Proof.
  induction l1 as [|y l1 IH]; cbn; [done|]. rewrite not_elem_of_cons. intros [? ?].
  rewrite decide_False by done. auto.
Qed.

Lemma after_here x l1 l2 : x ∉ l1 -> after x (l1 ++ x :: l2) = head l2.
Proof. intros ?. rewrite after_app_r by done. cbn. by rewrite decide_True. Qed.

(** Behind an element of the first part: its neighbour there, or the second part. *)
Lemma after_app_l x l1 l2 : NoDup l1 -> x ∈ l1 ->
  after x (l1 ++ l2) = if decide (last l1 = Some x) then head l2 else after x l1.
Proof.
  induction l1 as [|y l1 IH]; cbn; [by rewrite elem_of_nil|]. rewrite NoDup_cons. intros [Hy Hnd] Hx.
  destruct (decide (x = y)) as [->|Hne].
  - destruct l1 as [|z l1]; cbn; [by rewrite decide_True|]. rewrite decide_False; [done|].
    intros Hl. apply Hy. apply last_Some_elem_of. done.
  - apply elem_of_cons in Hx as [?|Hx]; [done|]. rewrite IH by done.
    destruct l1 as [|z l1]; [by apply elem_of_nil in Hx|]. done.
Qed.

(** Taking an element out, or putting it in, changes the neighbour of the one in front. *)
Lemma after_remove x c l1 l2 : NoDup (l1 ++ c :: l2) -> x <> c ->
  after x (l1 ++ l2) = if decide (last l1 = Some x) then head l2 else after x (l1 ++ c :: l2).
Proof.
  intros Hnd Hne. apply NoDup_app in Hnd as (Hnd1 & Hdisj & Hnd2).
  destruct (decide (x ∈ l1)) as [Hx|Hx].
  - rewrite !after_app_l by done. by case_decide.
  - rewrite !after_app_r by done. cbn. rewrite (decide_False (P := x = c)) by done.
    rewrite decide_False; [done|]. intros Hl. by apply Hx, last_Some_elem_of.
Qed.

Lemma after_insert x c l1 l2 : NoDup (l1 ++ c :: l2) -> x <> c ->
  after x (l1 ++ c :: l2) = if decide (last l1 = Some x) then Some c else after x (l1 ++ l2).
Proof.
  intros Hnd Hne. apply NoDup_app in Hnd as (Hnd1 & Hdisj & Hnd2).
  destruct (decide (x ∈ l1)) as [Hx|Hx].
  - rewrite !after_app_l by done. by case_decide.
  - rewrite !after_app_r by done. cbn. rewrite (decide_False (P := x = c)) by done.
    rewrite decide_False; [done|]. intros Hl. by apply Hx, last_Some_elem_of.
Qed.

Lemma before_not_in x l : x ∉ l -> before x l = None.
Proof. intros. apply after_not_in. by rewrite elem_of_reverse. Qed.

Lemma last_reverse' (l : list A) : last (reverse l) = head l.
Proof. by destruct l as [|x l]; [|rewrite reverse_cons, last_snoc]. Qed.
Lemma head_reverse' (l : list A) : head (reverse l) = last l.
Proof. by rewrite <- (last_reverse' (reverse l)), reverse_involutive. Qed.

Lemma reverse_middle (c : A) l1 l2 : reverse (l1 ++ c :: l2) = reverse l2 ++ c :: reverse l1.
Proof. by rewrite reverse_app, reverse_cons, <- app_assoc. Qed.

Lemma before_here x l1 l2 : x ∉ l2 -> before x (l1 ++ x :: l2) = last l1.
Proof.
  intros ?. unfold before. rewrite reverse_middle, after_here by (by rewrite elem_of_reverse). apply head_reverse'.
Qed.

Lemma before_insert x c l1 l2 : NoDup (l1 ++ c :: l2) -> x <> c ->
  before x (l1 ++ c :: l2) = if decide (head l2 = Some x) then Some c else before x (l1 ++ l2).
Proof.
  intros Hnd Hne. unfold before. rewrite reverse_middle, reverse_app, (after_insert _ c).
  - by rewrite last_reverse'.
  - rewrite <- reverse_middle. by rewrite reverse_Permutation.
  - done.
Qed.

Lemma before_remove x c l1 l2 : NoDup (l1 ++ c :: l2) -> x <> c ->
  before x (l1 ++ l2) = if decide (head l2 = Some x) then last l1 else before x (l1 ++ c :: l2).
Proof.
  intros Hnd Hne. unfold before. rewrite reverse_middle, reverse_app, (after_remove _ c).
  - by rewrite last_reverse', head_reverse'.
  - rewrite <- reverse_middle. by rewrite reverse_Permutation.
  - done.
Qed.

Lemma NoDup_middle (c : A) l1 l2 : NoDup (l1 ++ c :: l2) <-> (c ∉ l1) /\ (c ∉ l2) /\ NoDup (l1 ++ l2).
Proof. rewrite <- Permutation_middle, NoDup_cons, not_elem_of_app. tauto. Qed.

Lemma after_in x y l : after x l = Some y -> y ∈ l.
Proof.
  induction l as [|z l IH]; cbn; [done|]. case_decide; [|by right; auto].
  intros Hh. right. by apply head_Some_elem_of.
Qed.
End Neighbours.

(** ** Forests *)

Record anode := ANode { up : option node; kids : list node; what : content }.
Abbreviation forest_map := (gmap node anode).

Definition set_up (v : option node) (n : anode) : anode := ANode v (kids n) (what n).
Definition set_kids (l : list node) (n : anode) : anode := ANode (up n) l (what n).
Definition set_what (c : content) (n : anode) : anode := ANode (up n) (kids n) c.

Definition child (F : forest_map) (x y : node) : Prop := exists n, F !! x = Some n /\ up n = Some y.
(** [x] is [c] or somewhere below it. *)
Definition below (F : forest_map) (c x : node) : Prop := rtc (child F) x c.

Record forest (F : forest_map) : Prop := {
  f_up c n p : F !! c = Some n -> up n = Some p -> exists m, F !! p = Some m /\ c ∈ kids m;
  f_kids p m c : F !! p = Some m -> c ∈ kids m -> exists n, F !! c = Some n /\ up n = Some p;
  f_nodup p m : F !! p = Some m -> NoDup (kids m);
  f_doc c n p : F !! c = Some n -> up n = Some p -> _document c = _document p;
  f_root d n : F !! DocNode d = Some n -> up n = None;
  f_acyclic c : Acc (child F) c;
}.

(** The pointers of a node. *)
Definition siblings (F : forest_map) (n : anode) : list node :=
  match up n with
  | Some p => match F !! p with Some m => kids m | None => [] end
  | None => []
  end.
Definition pointers (F : forest_map) (c : node) (n : anode) : XMLNode :=
  Node (up n) (head (kids n)) (last (kids n)) (before c (siblings F n)) (after c (siblings F n)) (what n).
Definition conc (F : forest_map) : gmap node XMLNode := map_imap (fun c n => Some (pointers F c n)) F.

Lemma conc_lookup F c : conc F !! c = pointers F c <$> F !! c.
Proof. unfold conc. rewrite map_lookup_imap. by destruct (F !! c). Qed.

Lemma conc_lookup_some F c n : F !! c = Some n -> conc F !! c = Some (pointers F c n).
Proof. intros Hc. by rewrite conc_lookup, Hc. Qed.

(** *** Changes of the links *)

(** [c] leaves the children of [p], which are [l] without it. *)
Definition unhook (p c : node) (l : list node) (F : forest_map) : forest_map :=
  alter (set_kids l) p (alter (set_up None) c F).
(** [c] joins the children of [p], which are [l] with it. *)
Definition hook (p c : node) (l : list node) (F : forest_map) : forest_map :=
  alter (set_kids l) p (alter (set_up (Some p)) c F).

(** What the two do to the members of a node [x]. *)
Definition unlinked_at (p c : node) (l1 l2 : list node) (x : node) (r : XMLNode) : XMLNode :=
  Node (if decide (x = c) then None else _parent r)
       (if decide (x = p) then head (l1 ++ l2) else _firstChild r)
       (if decide (x = p) then last (l1 ++ l2) else _lastChild r)
       (if decide (x = c) then None else if decide (head l2 = Some x) then last l1 else _prev r)
       (if decide (x = c) then None else if decide (last l1 = Some x) then head l2 else _next r)
       (body r).
Definition linked_at (p c : node) (l1 l2 : list node) (x : node) (r : XMLNode) : XMLNode :=
  Node (if decide (x = c) then Some p else _parent r)
       (if decide (x = p) then head (l1 ++ c :: l2) else _firstChild r)
       (if decide (x = p) then last (l1 ++ c :: l2) else _lastChild r)
       (if decide (x = c) then last l1 else if decide (head l2 = Some x) then Some c else _prev r)
       (if decide (x = c) then head l2 else if decide (last l1 = Some x) then Some c else _next r)
       (body r).

Lemma not_own_parent F p : forest F -> ~ child F p p.
Proof. intros HF Hc. induction (f_acyclic _ HF p) as [p _ IH]. by eapply IH. Qed.

(** The parent of a child is the node whose list it is in. *)
Lemma one_parent F p m q m' c : forest F ->
  F !! p = Some m -> c ∈ kids m -> F !! q = Some m' -> c ∈ kids m' -> p = q.
Proof.
  intros HF Hp Hc Hq Hc'. destruct (f_kids _ HF _ _ _ Hp Hc) as (n & Hn & Hup).
  destruct (f_kids _ HF _ _ _ Hq Hc') as (n' & Hn' & Hup'). congruence.
Qed.

Section Relink.
Context (F : forest_map) (HF : forest F) (p c : node).

Lemma kid_parent m x : F !! p = Some m -> x ∈ kids m -> exists n, F !! x = Some n /\ up n = Some p /\ x <> p.
Proof.
  intros Hp Hx. destruct (f_kids _ HF _ _ _ Hp Hx) as (n & Hn & Hup). exists n. split_and!; try done.
  intros ->. apply (not_own_parent F p HF). by exists n.
Qed.

(** A change of the parent of [c] and of the children of [p]. *)
Definition relink (v : option node) (l : list node) : forest_map :=
  alter (set_kids l) p (alter (set_up v) c F).

Lemma relink_lookup v l x : relink v l !! x =
  (fun n => ANode (if decide (x = c) then v else up n) (if decide (x = p) then l else kids n) (what n)) <$> F !! x.
Proof.
  unfold relink. destruct (decide (x = p)) as [->|Hp].
  - rewrite lookup_alter_eq. destruct (decide (p = c)) as [->|Hc].
    + rewrite lookup_alter_eq. by destruct (F !! c).
    + rewrite lookup_alter_ne by done. by destruct (F !! p).
  - rewrite lookup_alter_ne by done. destruct (decide (x = c)) as [->|Hc].
    + rewrite lookup_alter_eq. by destruct (F !! c).
    + rewrite lookup_alter_ne by done. by destruct (F !! x) as [[]|].
Qed.

Lemma relink_siblings v l n : is_Some (F !! p) ->
  siblings (relink v l) n = if decide (up n = Some p) then l else siblings F n.
Proof.
  intros [m Hm]. unfold siblings. destruct (up n) as [q|]; [|by rewrite decide_False].
  rewrite relink_lookup. destruct (decide (Some q = Some p)) as [Heq|Hne].
  - injection Heq as ->. rewrite Hm. cbn. by rewrite decide_True.
  - destruct (F !! q) as [m'|]; [|done]. cbn. rewrite decide_False by congruence. done.
Qed.

Lemma siblings_kids m n : F !! p = Some m -> up n = Some p -> siblings F n = kids m.
Proof. intros Hm Hu. unfold siblings. by rewrite Hu, Hm. Qed.

(** A node that is not a child of [p] is no neighbour of [c] there. *)
Lemma not_neighbour m n x l : F !! p = Some m -> F !! x = Some n -> up n <> Some p ->
  (forall y, y ∈ l -> y ∈ kids m) -> head l <> Some x /\ last l <> Some x.
Proof.
  intros Hm Hn Hu Hl.
  split; intros Hx; apply Hu; destruct (kid_parent m x Hm) as (n' & ? & ? & ?); try congruence; apply Hl.
  - by apply head_Some_elem_of.
  - by apply last_Some_elem_of.
Qed.

Lemma conc_unhook m l1 l2 x : F !! p = Some m -> kids m = l1 ++ c :: l2 ->
  conc (unhook p c (l1 ++ l2) F) !! x = unlinked_at p c l1 l2 x <$> conc F !! x.
Proof.
  intros Hm Hk. change (unhook p c (l1 ++ l2) F) with (relink None (l1 ++ l2)).
  rewrite !conc_lookup, relink_lookup. destruct (F !! x) as [n|] eqn:Hn; [|done]. cbn. f_equal.
  pose proof (f_nodup _ HF _ _ Hm) as Hnd. rewrite Hk in Hnd.
  unfold pointers, unlinked_at. cbn. destruct (decide (x = c)) as [->|Hne].
  - f_equal; by case_decide.
  - rewrite relink_siblings by (by eexists). cbn. destruct (decide (up n = Some p)) as [Hu|Hu].
    + rewrite (siblings_kids m n Hm Hu), Hk. rewrite (before_remove x c), (after_remove x c) by done.
      f_equal; by case_decide.
    + destruct (not_neighbour m n x l1 Hm Hn Hu) as [_ ?]; [rewrite Hk; set_solver|].
      destruct (not_neighbour m n x l2 Hm Hn Hu) as [? _]; [rewrite Hk; set_solver|].
      rewrite !(decide_False (P := _ = Some x)) by done. f_equal; by case_decide.
Qed.

Lemma conc_hook m n0 l1 l2 x : F !! p = Some m -> kids m = l1 ++ l2 -> F !! c = Some n0 -> up n0 = None ->
  conc (hook p c (l1 ++ c :: l2) F) !! x = linked_at p c l1 l2 x <$> conc F !! x.
Proof.
  intros Hm Hk Hc Hr. change (hook p c (l1 ++ c :: l2) F) with (relink (Some p) (l1 ++ c :: l2)).
  rewrite !conc_lookup, relink_lookup. destruct (F !! x) as [n|] eqn:Hn; [|done]. cbn. f_equal.
  pose proof (f_nodup _ HF _ _ Hm) as Hnd. rewrite Hk in Hnd.
  assert (Hcl : c ∉ l1 ++ l2).
  { intros Hin. destruct (kid_parent m c Hm) as (n' & ? & ? & ?); [by rewrite Hk|congruence]. }
  assert (Hnd' : NoDup (l1 ++ c :: l2)) by (by rewrite <- Permutation_middle, NoDup_cons).
  unfold pointers, linked_at. cbn. rewrite relink_siblings by (by eexists). cbn.
  destruct (decide (x = c)) as [->|Hne].
  - rewrite (decide_True (P := Some p = Some p)) by done. rewrite before_here, after_here by set_solver. f_equal; by case_decide.
  - destruct (decide (up n = Some p)) as [Hu|Hu].
    + rewrite (siblings_kids m n Hm Hu), Hk, (before_insert x c), (after_insert x c) by done.
      f_equal; by case_decide.
    + destruct (not_neighbour m n x l1 Hm Hn Hu) as [_ ?]; [rewrite Hk; set_solver|].
      destruct (not_neighbour m n x l2 Hm Hn Hu) as [? _]; [rewrite Hk; set_solver|].
      rewrite !(decide_False (P := _ = Some x)) by done. f_equal; by case_decide.
Qed.
End Relink.

(** ** Running code on a heap

    The heap behind some writes is the one in front of them with the function [g] of address
    and members applied throughout. *)

Section Exec.
Context {P : Type} `{MemPool P}.
Implicit Types (h : heap (P := P)) (D : gmap nat (XMLDocument (P := P))) (N : gmap node XMLNode).

(** The write of a member of the node [x]. *)
Definition at_node (x : node) (f : XMLNode -> XMLNode) (y : node) (r : XMLNode) : XMLNode :=
  if decide (y = x) then f r else r.
Definition upd (g : node -> XMLNode -> XMLNode) N : gmap node XMLNode := map_imap (fun x r => Some (g x r)) N.

Lemma upd_lookup g N x : upd g N !! x = g x <$> N !! x.
Proof. unfold upd. rewrite map_lookup_imap. by destruct (N !! x). Qed.

Lemma at_node_eq x f r : at_node x f x r = f r.
Proof. unfold at_node. by rewrite decide_True. Qed.
Lemma at_node_ne x f y r : y <> x -> at_node x f y r = r.
Proof. intros. unfold at_node. by rewrite decide_False. Qed.

Lemma upd_id N : upd (fun _ r => r) N = N.
Proof. apply map_eq. intros x. rewrite upd_lookup. by destruct (N !! x). Qed.

Lemma get_upd g N D x r : N !! x = Some r -> get x (Heap (upd g N) D) = Ret (g x r).
Proof. intros Hx. unfold get. cbn. by rewrite upd_lookup, Hx. Qed.

Lemma modify_upd g N D x r f : N !! x = Some r ->
  modify x f (Heap (upd g N) D) =
    Ret (Heap (upd (fun y r => at_node x f y (g y r)) N) D).
Proof.
  intros Hx. unfold modify. cbn. rewrite upd_lookup, Hx. cbn. do 2 f_equal. apply map_eq. intros y.
  rewrite upd_lookup. unfold at_node. destruct (decide (y = x)) as [->|Hne].
  - by rewrite lookup_insert_eq, Hx.
  - by rewrite lookup_insert_ne, upd_lookup by done.
Qed.
End Exec.

(** One access to memory, and the comparison of addresses known to differ or not. *)
Ltac exec1 :=
  first
  [ erewrite get_upd by eassumption
  | erewrite modify_upd by eassumption ].
Ltac same_node :=
  match goal with
  | |- context [at_node ?x ?f ?x ?r] => rewrite (at_node_eq x f r)
  | Hne : ?x <> ?y |- context [at_node ?y ?f ?x ?r] => rewrite (at_node_ne y f x r) by done
  | Hne : ?y <> ?x |- context [at_node ?y ?f ?x ?r] => rewrite (at_node_ne y f x r) by congruence
  | |- context [decide (?x = ?x)] => rewrite (decide_True (P := x = x)) by done
  | |- context [decide (None = Some ?x)] => rewrite (decide_False (P := None = Some x)) by done
  | Hne : ?x <> ?y |- context [decide (?x = ?y)] => rewrite (decide_False (P := x = y)) by done
  | Hne : ?y <> ?x |- context [decide (?x = ?y)] => rewrite (decide_False (P := x = y)) by congruence
  end.
Ltac exec := repeat (first [exec1 | same_node];
  cbn [mbind ub_bind _parent _firstChild _lastChild _prev _next body pointers
       set_parent set_firstChild set_lastChild set_prev set_next nodes docs]).

Lemma last_app_some {A} (l1 : list A) x l2 : last (l1 ++ x :: l2) = last (x :: l2).
Proof. rewrite last_app, last_cons. by destruct (last l2). Qed.
Lemma head_snoc_app {A} (l1 : list A) x l2 : head ((l1 ++ [x]) ++ l2) = head (l1 ++ [x]).
Proof. by destruct l1. Qed.

Lemma ends {A} (l : list A) : l = [] \/ exists l' x, l = l' ++ [x].
Proof. destruct l using rev_ind; eauto. Qed.
(** The list of children with a place marked: the neighbours of the place exist. *)
Lemma place {A} (l1 l2 : list A) :
  (l1 = [] \/ exists l' x, l1 = l' ++ [x]) /\ (l2 = [] \/ exists x l', l2 = x :: l').
Proof. split; [apply ends|destruct l2; eauto]. Qed.

(** The heap the code has left, compared with the one the forest stands for. *)
Ltac same_heap Hr Hrp :=
  do 2 f_equal; apply map_eq; intros x; rewrite upd_lookup, Hr;
  match type of Hrp with ?N !! ?p = _ =>
    destruct (decide (x = p)) as [->|];
    [rewrite Hrp | destruct (N !! x) as [[]|]; [|done]]
  end;
  cbn [fmap option_fmap option_map]; f_equal; unfold unlinked_at, linked_at, at_node;
  rewrite ?head_snoc_app, ?last_app_some, ?last_snoc;
  repeat (case_decide; try congruence; simplify_eq/=);
  rewrite ?app_nil_r, ?last_snoc; try done.

(** A child [q] of the node whose children [Hx] speaks of. *)
Ltac sibling Hx q c :=
  let n := fresh "n" in let Hn := fresh "Hn" in let Hr := fresh "Hr" in
  destruct (Hx q) as (n & Hn & _ & ?); [set_solver|];
  assert (Hr := conc_lookup_some _ _ _ Hn); assert (q <> c) by set_solver.

Section Links.
Context {P : Type} `{MemPool P}.
Implicit Types (h : heap (P := P)).

Lemma Unlink_conc F p c m l1 l2 (D : gmap nat XMLDocument) :
  forest F -> F !! p = Some m -> kids m = l1 ++ c :: l2 ->
  Unlink p c (Heap (P := P) (conc F) D) = Ret (Heap (conc (unhook p c (l1 ++ l2) F)) D).
Proof.
  intros HF Hm Hk.
  assert (Hx : forall x, x ∈ l1 ++ c :: l2 -> exists n, F !! x = Some n /\ up n = Some p /\ x <> p)
    by (rewrite <- Hk; intros; by eapply kid_parent).
  destruct (Hx c) as (n & Hn & Hu & Hcp); [set_solver|].
  pose proof (f_nodup _ HF _ _ Hm) as Hnd. rewrite Hk in Hnd. apply NoDup_middle in Hnd as (Hc1 & Hc2 & Hnd).
  assert (Hrp : conc F !! p = Some (pointers F p m)) by (by rewrite conc_lookup, Hm).
  assert (Hrc : conc F !! c = Some (Node (Some p) (head (kids n)) (last (kids n)) (last l1) (head l2) (what n))).
  { rewrite conc_lookup, Hn. cbn. unfold pointers. rewrite Hu. unfold siblings. rewrite Hu, Hm, Hk.
    by rewrite before_here, after_here. }
  assert (Hr : forall x, conc (unhook p c (l1 ++ l2) F) !! x = unlinked_at p c l1 l2 x <$> conc F !! x)
    by (intros; by eapply conc_unhook).
  assert (Hhead : head l1 <> Some c) by (intros ?%head_Some_elem_of; done).
  assert (Hlast : last l2 <> Some c) by (intros ?%last_Some_elem_of; done).
  rewrite <- (upd_id (conc F)) at 1. unfold Unlink, pointers in *. rewrite Hk in *.
  destruct (place l1 l2) as [[->|(l1' & q1 & ->)] [->|(q2 & l2' & ->)]];
    rewrite ?head_snoc_app, ?last_app_some, ?last_snoc in *; cbn [app head last] in *.
  - exec. same_heap Hr Hrp.
  - sibling Hx q2 c. exec. same_heap Hr Hrp.
  - sibling Hx q1 c. exec. same_heap Hr Hrp.
  - sibling Hx q1 c. sibling Hx q2 c. exec. same_heap Hr Hrp.
Qed.

(** *** Linking a node that is in no tree *)
Section Link.
Context (F : forest_map) (p c : node) (m n : anode) (D : gmap nat (XMLDocument (P := P))).
Context (HF : forest F) (Hm : F !! p = Some m) (Hn : F !! c = Some n) (Hroot : up n = None) (Hcp : c <> p).

Lemma root_no_kid x : x ∈ kids m -> exists n, F !! x = Some n /\ up n = Some p /\ x <> p.
Proof using HF Hm. intros. by eapply kid_parent. Qed.
Lemma root_not_in : c ∉ kids m.
Proof using HF Hm Hn Hroot. intros Hin. destruct (root_no_kid c Hin) as (? & ? & ? & _). congruence. Qed.
Lemma root_pointers : conc F !! c = Some (Node None (head (kids n)) (last (kids n)) None None (what n)).
Proof using Hn Hroot. rewrite (conc_lookup_some _ _ _ Hn). unfold pointers, siblings. by rewrite Hroot. Qed.

Lemma link_last_conc :
  link_last p c (Heap (P := P) (conc F) D) = Ret (Heap (conc (hook p c (kids m ++ [c]) F)) D).
Proof using All.
  pose proof root_no_kid as Hx. pose proof root_not_in as Hni. pose proof root_pointers as Hrc.
  pose proof (conc_lookup_some _ _ _ Hm) as Hrp.
  assert (Hr : forall x, conc (hook p c (kids m ++ [c]) F) !! x = linked_at p c (kids m) [] x <$> conc F !! x).
  { intros. eapply conc_hook; try done. by rewrite app_nil_r. }
  rewrite <- (upd_id (conc F)) at 1. unfold link_last, pointers in *.
  destruct (ends (kids m)) as [Hk|(l & q & Hk)]; rewrite Hk in *.
  - cbn [head last] in *. exec. same_heap Hr Hrp.
  - sibling Hx q c. rewrite last_snoc in *. exec. same_heap Hr Hrp.
Qed.

Lemma link_first_conc :
  link_first p c (Heap (P := P) (conc F) D) = Ret (Heap (conc (hook p c (c :: kids m) F)) D).
Proof using All.
  pose proof root_no_kid as Hx. pose proof root_not_in as Hni. pose proof root_pointers as Hrc.
  pose proof (conc_lookup_some _ _ _ Hm) as Hrp.
  assert (Hr : forall x, conc (hook p c (c :: kids m) F) !! x = linked_at p c [] (kids m) x <$> conc F !! x)
    by (intros; by eapply (conc_hook F HF p c m n [])).
  rewrite <- (upd_id (conc F)) at 1. unfold link_first, pointers in *.
  destruct (kids m) as [|q l] eqn:Hk; cbn [head last] in *.
  - exec. same_heap Hr Hrp.
  - sibling Hx q c. exec. same_heap Hr Hrp.
Qed.

Lemma link_after_conc a q l1 l2 : kids m = l1 ++ a :: q :: l2 ->
  link_after p a c (Heap (P := P) (conc F) D) = Ret (Heap (conc (hook p c (l1 ++ a :: c :: q :: l2) F)) D).
Proof using All.
  intros Hk. pose proof root_no_kid as Hx. pose proof root_not_in as Hni. pose proof root_pointers as Hrc.
  pose proof (conc_lookup_some _ _ _ Hm) as Hrp. pose proof (f_nodup _ HF _ _ Hm) as Hnd.
  assert (Hr : forall x, conc (hook p c (l1 ++ a :: c :: q :: l2) F) !! x =
                         linked_at p c (l1 ++ [a]) (q :: l2) x <$> conc F !! x).
  { intros. replace (l1 ++ a :: c :: q :: l2) with ((l1 ++ [a]) ++ c :: q :: l2) by (by rewrite <- app_assoc).
    eapply conc_hook; try done. by rewrite <- app_assoc. }
  rewrite Hk in *. assert (a <> q) by (apply NoDup_middle in Hnd; set_solver).
  destruct (Hx a) as (na & Hna & Hua & ?); [set_solver|]. assert (a <> c) by set_solver.
  assert (Hra : conc F !! a = Some (Node (Some p) (head (kids na)) (last (kids na)) (last l1) (Some q) (what na))).
  { rewrite conc_lookup, Hna. cbn. unfold pointers. rewrite Hua. unfold siblings. rewrite Hua, Hm, Hk.
    apply NoDup_middle in Hnd as (? & ? & _). by rewrite before_here, after_here. }
  sibling Hx q c. rewrite <- (upd_id (conc F)) at 1. unfold link_after, pointers in *. rewrite Hk in *.
  exec. cbn [deref mbind ub_bind]. exec. same_heap Hr Hrp.
  by destruct l1.
Qed.
End Link.
End Links.

(** ** Forests stay forests *)

Lemma acc_below F G c :
  (forall x y, below F c y -> child G x y -> child F x y) -> Acc (child F) c ->
  forall x, below F c x -> Acc (child F) x -> Acc (child G) x.
Proof.
  intros Hsub _ x Hb Hx. induction Hx as [x _ IH]. constructor. intros y Hy.
  pose proof (Hsub y x Hb Hy) as Hy'. apply IH; [done|]. by eapply rtc_l.
Qed.

Section Preserved.
Context (F : forest_map) (HF : forest F) (p c : node) (m : anode) (Hm : F !! p = Some m).

Lemma forest_unhook l1 l2 : kids m = l1 ++ c :: l2 -> forest (unhook p c (l1 ++ l2) F).
Proof using HF Hm.
  intros Hk. change (unhook p c (l1 ++ l2) F) with (relink F p c None (l1 ++ l2)).
  assert (Hc : c ∈ kids m) by (rewrite Hk; set_solver).
  destruct (kid_parent F HF p m c Hm Hc) as (n & Hn & Hu & Hne).
  pose proof (f_nodup _ HF _ _ Hm) as Hnd. rewrite Hk in Hnd. apply NoDup_middle in Hnd as (Hc1 & Hc2 & Hnd).
  split.
  - intros x r q. rewrite relink_lookup. destruct (F !! x) as [nx|] eqn:Hx; [|done]. intros [= <-]. cbn.
    destruct (decide (x = c)); [done|]. intros Hux. destruct (f_up _ HF _ _ _ Hx Hux) as (mq & Hq & Hin).
    rewrite relink_lookup, Hq. eexists. split; [done|]. cbn.
    destruct (decide (q = p)) as [->|]; [|done]. rewrite Hm in Hq. injection Hq as <-. rewrite Hk in Hin. set_solver.
  - intros q r x. rewrite relink_lookup. destruct (F !! q) as [mq|] eqn:Hq; [|done]. intros [= <-]. cbn. intros Hin.
    assert (Hin' : x ∈ kids mq /\ x <> c).
    { destruct (decide (q = p)) as [->|Hqp].
      - rewrite Hm in Hq. injection Hq as <-. rewrite Hk. set_solver.
      - split; [done|]. intros ->. apply Hqp. by eapply one_parent. }
    destruct Hin' as [Hin' Hxc]. destruct (f_kids _ HF _ _ _ Hq Hin') as (nx & Hx & Hux).
    rewrite relink_lookup, Hx. eexists. split; [done|]. cbn. by rewrite decide_False.
  - intros q r. rewrite relink_lookup. destruct (F !! q) as [mq|] eqn:Hq; [|done]. intros [= <-]. cbn.
    case_decide; [done|]. by eapply f_nodup.
  - intros x r q. rewrite relink_lookup. destruct (F !! x) as [nx|] eqn:Hx; [|done]. intros [= <-]. cbn.
    case_decide; [done|]. by apply (f_doc _ HF x nx).
  - intros d r. rewrite relink_lookup. destruct (F !! DocNode d) as [nx|] eqn:Hx; [|done]. intros [= <-]. cbn.
    case_decide; [done|]. by eapply f_root.
  - intros x. induction (f_acyclic _ HF x) as [x _ IH]. constructor. intros y (ny & Hy & Huy). apply IH. rewrite relink_lookup in Hy.
    destruct (F !! y) as [n'|] eqn:Hy'; [|done]. injection Hy as <-. cbn in Huy. case_decide; [done|].
    by exists n'.
Qed.

Lemma forest_hook n l : F !! c = Some n -> up n = None -> l ≡ₚ c :: kids m -> ~ below F c p ->
  _document c = _document p -> ToDocument c = false -> forest (hook p c l F).
Proof using HF Hm.
  intros Hn Hu Hl Hb Hdoc Hitem. change (hook p c l F) with (relink F p c (Some p) l).
  assert (Hcp : c <> p) by (intros ->; apply Hb; constructor).
  assert (Hni : c ∉ kids m).
  { intros Hc. destruct (kid_parent F HF p m c Hm Hc) as (? & ? & ? & _). congruence. }
  split.
  - intros x r q. rewrite relink_lookup. destruct (F !! x) as [nx|] eqn:Hx; [|done]. intros [= <-]. cbn.
    destruct (decide (x = c)) as [->|Hxc].
    + intros [= <-]. rewrite relink_lookup, Hm. eexists. split; [done|]. cbn.
      rewrite decide_True, Hl by done. set_solver.
    + intros Hux. destruct (f_up _ HF _ _ _ Hx Hux) as (mq & Hq & Hin).
      rewrite relink_lookup, Hq. eexists. split; [done|]. cbn.
      destruct (decide (q = p)) as [->|]; [|done]. rewrite Hm in Hq. injection Hq as <-. rewrite Hl. set_solver.
  - intros q r x. rewrite relink_lookup. destruct (F !! q) as [mq|] eqn:Hq; [|done]. intros [= <-]. cbn. intros Hin.
    rewrite relink_lookup. destruct (decide (x = c)) as [->|Hxc].
    + rewrite Hn. eexists. split; [done|]. cbn.
      destruct (decide (q = p)) as [->|Hqp]; [done|].
      destruct (f_kids _ HF _ _ _ Hq Hin) as (? & ? & ?). congruence.
    + assert (Hin' : x ∈ kids mq).
      { destruct (decide (q = p)) as [->|Hqp]; [|done]. rewrite Hm in Hq. injection Hq as <-.
        rewrite Hl in Hin. set_solver. }
      destruct (f_kids _ HF _ _ _ Hq Hin') as (nx & Hx & Hux). rewrite Hx. by eexists.
  - intros q r. rewrite relink_lookup. destruct (F !! q) as [mq|] eqn:Hq; [|done]. intros [= <-]. cbn.
    pose proof (f_nodup _ HF _ _ Hq) as Hnd. case_decide as Hqp; [|done]. subst q. rewrite Hl, NoDup_cons.
    rewrite Hm in Hq. injection Hq as <-. done.
  - intros x r q. rewrite relink_lookup. destruct (F !! x) as [nx|] eqn:Hx; [|done]. intros [= <-]. cbn.
    case_decide as Hxc; [by intros [= <-]; subst|]. by apply (f_doc _ HF x nx).
  - intros d r. rewrite relink_lookup. destruct (F !! DocNode d) as [nx|] eqn:Hx; [|done]. intros [= <-]. cbn.
    case_decide; [by subst|]. by eapply f_root.
  - set (G := relink F p c (Some p) l).
    assert (Hch : forall x y, child G x y -> (x = c /\ y = p) \/ child F x y).
    { intros x y (nx & Hx & Hux). unfold G in Hx. rewrite relink_lookup in Hx.
      destruct (F !! x) as [n'|] eqn:Hx'; [|done]. injection Hx as <-. cbn in Hux.
      case_decide as Hxc; [left; split; congruence|right; by exists n']. }
    assert (Hc : Acc (child G) c).
    { eapply (acc_below F G c); [|by apply f_acyclic|constructor|by apply f_acyclic].
      intros x y Hy [[-> ->]|?]%Hch; [|done]. by contradict Hb. }
    intros x. induction (f_acyclic _ HF x) as [x _ IH]. constructor. intros y [[-> ->]|Hy]%Hch; [done|]. by apply IH.
Qed.
End Preserved.
