(* ===== verification/XmlTreeProofs.v ===== *)
(** * The document tree of tinyxml2: insertion, deletion and memory

    [books] ties the documents to the forest of [XmlForest.v]: the array [_unlinked]
    holds exactly the nodes that are in no tree, and each pool has given out exactly
    the live nodes.  Theorems: the insertions put a node where they say, and the one
    way to use [InsertAfterChild] that crashes; deleting a node frees its subtree and
    nothing else, and always returns; [Clear] leaves nothing of the document allocated. *)

From S2P Require Import Prelude XmlPool XmlTree XmlForest.

(** ** The invariant *)

Section Tree.
Context {P : Type} `{MemPoolLaws P}.
Implicit Types (h : heap (P := P)) (D : gmap nat (XMLDocument (P := P))) (F : forest_map) (X : gset node).

(** The pool a class of nodes is made in. *)
Definition pool_of (c : content) : option pool_name :=
  match c with
  | Document => None
  | Element _ _ => Some ElementPool
  | Text _ _ => Some TextPool
  | Comment _ | Declaration _ | Unknown _ => Some CommentPool
  end.
Definition pool_at (n : node) : option pool_name :=
  match n with DocNode _ => None | Item _ k _ => Some k end.

(** A node that is in no tree. *)
Definition root F (n : node) : Prop := exists a, F !! n = Some a /\ up a = None.

(** [X] are nodes about to be linked or deleted: in no tree, but in use.  The books of
    the document [d]: *)
Record book F X (d : nat) (B : XMLDocument (P := P)) : Prop := {
  b_unlinked n : n ∈ _unlinked B <-> _document n = d /\ ToDocument n = false /\ root F n /\ n ∉ X;
  b_nodup : NoDup (_unlinked B);
  b_used k i : i ∈ used (_pool B k) <-> is_Some (F !! Item d k i);
  b_pool k : pool_ok (_pool B k);
  b_tracked k :
    Untracked (_pool B k) = Z.of_nat (length (filter (fun n => pool_at n = Some k) (_unlinked B)));
}.

Record books F X D : Prop := {
  b_doc n : is_Some (F !! n) -> is_Some (D !! _document n);
  b_self d : is_Some (D !! d) -> is_Some (F !! DocNode d);
  b_kind n a : F !! n = Some a -> pool_of (what a) = pool_at n;
  b_orphans n : n ∈ X -> root F n /\ ToDocument n = false;
  b_book d B : D !! d = Some B -> book F X d B;
}.

(** The heap [h] stands for the forest [F]. *)
Record stands h F X : Prop := {
  s_nodes : nodes h = conc F;
  s_forest : forest F;
  s_books : books F X (docs h);
}.

Lemma get_conc h F X n a : stands h F X -> F !! n = Some a -> get n h = Ret (pointers F n a).
Proof. intros [HN _ _] Hn. unfold get. by rewrite HN, conc_lookup, Hn. Qed.

(** ** Changes of the links *)

Lemma relink_root F p c v l x n : F !! c = Some n ->
  root (relink F p c v l) x <-> (if decide (x = c) then v = None else root F x).
Proof.
  intros Hc. unfold root. rewrite relink_lookup. case_decide as Hx.
  - subst x. rewrite Hc. cbn. split; [by intros (a & [= <-] & ?)|]. intros ->. by eexists.
  - destruct (F !! x) as [a|]; cbn; split; intros (b & [= <-] & ?); by eexists.
Qed.

Lemma relink_live F p c v l x : is_Some (relink F p c v l !! x) <-> is_Some (F !! x).
Proof. rewrite relink_lookup. apply fmap_is_Some. Qed.

(** The books of a document are about its own nodes. *)
Lemma book_mono F F' X X' d B : book F X d B ->
  (forall n, _document n = d -> ToDocument n = false ->
     (is_Some (F' !! n) <-> is_Some (F !! n)) /\ (root F' n /\ n ∉ X' <-> root F n /\ n ∉ X)) ->
  book F' X' d B.
Proof.
  intros [Hu Hnd Hus Hp Ht] Hsame. split; try done.
  - intros n. rewrite Hu. split; intros (Hd & Hi & Hr); (split; [done|split; [done|]]);
      destruct (Hsame n Hd Hi) as [_ Hiff]; by apply Hiff.
  - intros k i. rewrite Hus. by destruct (Hsame (Item d k i)) as [-> _].
Qed.

Lemma books_relink F X D p c n v l X' :
  books F X D -> F !! c = Some n -> ToDocument c = false ->
  (forall x, x <> c -> x ∈ X' <-> x ∈ X) ->
  (v = None /\ (root F c -> c ∈ X) /\ c ∈ X' \/ v <> None /\ c ∈ X /\ c ∉ X') ->
  books (relink F p c v l) X' D.
Proof.
  intros HB Hc Hitem HX Hv. split.
  - intros x. rewrite relink_live. apply (b_doc _ _ _ HB).
  - intros d. rewrite relink_live. apply (b_self _ _ _ HB).
  - intros x a. rewrite relink_lookup. destruct (F !! x) as [b|] eqn:Hx; [|done]. intros [= <-]. cbn.
    by apply (b_kind _ _ _ HB).
  - intros x Hx. rewrite relink_root by done. case_decide as Hxc.
    + subst x. naive_solver.
    + apply (b_orphans _ _ _ HB). by apply HX.
  - intros d B HD. eapply book_mono; [by apply (b_book _ _ _ HB)|]. intros x _ _. split; [apply relink_live|].
    rewrite relink_root by done. case_decide as Hxc.
    + subst x. naive_solver.
    + by rewrite HX.
Qed.

(** One document changes, with its own nodes only. *)
Lemma books_update F F' X X' D d B' : books F X D -> is_Some (F' !! DocNode d) ->
  (forall n a, F' !! n = Some a -> F !! n = Some a \/ _document n = d /\ pool_of (what a) = pool_at n) ->
  (forall n, _document n <> d -> F' !! n = F !! n /\ (n ∈ X' <-> n ∈ X)) ->
  (forall n, n ∈ X' -> root F' n /\ ToDocument n = false) ->
  book F' X' d B' -> books F' X' (<[d := B']> D).
Proof.
  intros HB Hd HF Hother HX HB'. split.
  - intros n [a Ha]. destruct (decide (_document n = d)) as [->|Hne]; [by rewrite lookup_insert_eq|].
    rewrite lookup_insert_ne by done. apply (b_doc _ _ _ HB). destruct (Hother n Hne) as [<- _]. by eexists.
  - intros d'. destruct (decide (d' = d)) as [->|Hne]; [done|]. rewrite lookup_insert_ne by done.
    destruct (Hother (DocNode d') Hne) as [-> _]. apply (b_self _ _ _ HB).
  - intros n a Ha. destruct (HF n a Ha) as [?|[_ ?]]; [by apply (b_kind _ _ _ HB)|done].
  - done.
  - intros d' B. destruct (decide (d' = d)) as [->|Hne].
    + rewrite lookup_insert_eq. by intros [= <-].
    + rewrite lookup_insert_ne by done. intros HD. eapply book_mono; [by apply (b_book _ _ _ HB)|].
      intros n <- _. destruct (Hother n Hne) as [Heq Hiff]. unfold root. by rewrite Heq, Hiff.
Qed.

Lemma stands_unlink h F X p c m l1 l2 :
  stands h F X -> F !! p = Some m -> kids m = l1 ++ c :: l2 ->
  exists h', Unlink p c h = Ret h' /\ stands h' (unhook p c (l1 ++ l2) F) ({[c]} ∪ X) /\ docs h' = docs h.
Proof.
  intros [Hn HF HB] Hm Hk. destruct h as [N D]. cbn in *. subst N.
  assert (Hc : c ∈ kids m) by (rewrite Hk; set_solver).
  destruct (kid_parent F HF p m c Hm Hc) as (n & Hcn & Hu & _).
  assert (Hnr : ~ root F c) by (intros (a & ? & ?); congruence).
  assert (Hitem : ToDocument c = false).
  { destruct c as [d|]; [|done]. by rewrite (f_root _ HF _ _ Hcn) in Hu. }
  rewrite (Unlink_conc F p c m l1 l2 D HF Hm Hk). eexists. split; [done|]. split; [split; cbn|done].
  - done.
  - by eapply forest_unhook.
  - eapply (books_relink F X D p c n None); try done; [set_solver|]. left. set_solver.
Qed.

Lemma stands_link F X D p c m n l :
  forest F -> books F X D -> F !! p = Some m -> F !! c = Some n -> up n = None -> c ∈ X ->
  l ≡ₚ c :: kids m -> ~ below F c p -> _document c = _document p ->
  stands (Heap (conc (hook p c l F)) D) (hook p c l F) (X ∖ {[c]}).
Proof.
  intros HF HB Hm Hn Hu HX Hl Hb Hd. destruct (b_orphans _ _ _ HB c HX) as [_ Hitem]. split; cbn.
  - done.
  - by eapply forest_hook.
  - eapply (books_relink F X D p c n (Some p)); try done; [set_solver|]. right. set_solver.
Qed.

(** ** Taking a node off [_unlinked] *)

Lemma mark_in_use_perm n l : n ∈ l -> l ≡ₚ n :: mark_in_use n l.
Proof.
  intros Hin. unfold mark_in_use. destruct (list_find_elem_of (eq n) l n Hin eq_refl) as [[i y] Hf].
  rewrite Hf. apply list_find_Some in Hf as (Hl & <- & _). by apply swap_remove_perm.
Qed.
Lemma mark_in_use_not_in n l : n ∉ l -> mark_in_use n l = l.
Proof.
  intros Hni. unfold mark_in_use. destruct (list_find (eq n) l) as [[i y]|] eqn:Hf; [|done].
  apply list_find_Some in Hf as (Hl & <- & _). apply list_elem_of_lookup_2 in Hl. done.
Qed.

Lemma set_pool_same B k (p : P) : _pool (set_pool k p B) k = p.
Proof. cbn. by rewrite decide_True. Qed.
Lemma set_pool_other B k k' (p : P) : k' <> k -> _pool (set_pool k p B) k' = _pool B k'.
Proof. intros. cbn. by rewrite decide_False. Qed.

(** How often each pool was asked for a node. *)
Definition asked D (d : nat) (k : pool_name) : Z :=
  match D !! d with Some B => allocs (_pool B k) | None => 0 end.

Lemma asked_set_pool D d B k p l d' k' : D !! d = Some B -> allocs p = allocs (_pool B k) ->
  asked (<[d := set_pool k p (set_unlinked l B)]> D) d' k' = asked D d' k'.
Proof.
  intros HD Hp. unfold asked. destruct (decide (d' = d)) as [->|Hd].
  - rewrite lookup_insert_eq, HD. cbn. by case_decide; subst.
  - by rewrite lookup_insert_ne.
Qed.

(** [_unlinked] and the count of its pool lose a node. *)
Lemma books_mark F X D d k i B :
  books F X D -> root F (Item d k i) -> Item d k i ∉ X -> D !! d = Some B ->
  exists p, SetTracked (_pool B k) = Ret p /\ allocs p = allocs (_pool B k) /\
    books F ({[Item d k i]} ∪ X)
      (<[d := set_pool k p (set_unlinked (mark_in_use (Item d k i) (_unlinked B)) B)]> D).
Proof.
  intros HB Hr HnX HD. set (c := Item d k i) in *.
  destruct (b_book _ _ _ HB d B HD) as [Hu Hnd Hus Hp Ht].
  assert (Hin : c ∈ _unlinked B) by (by apply Hu). pose proof (mark_in_use_perm _ _ Hin) as Hperm.
  set (l := mark_in_use c (_unlinked B)) in *. rewrite Hperm, NoDup_cons in Hnd. destruct Hnd as [Hnc Hnd].
  assert (Hcount : forall k', length (filter (fun n => pool_at n = Some k') (_unlinked B)) =
    ((if decide (k' = k) then 1 else 0) + length (filter (fun n => pool_at n = Some k') l))%nat).
  { intros k'. rewrite Hperm at 1. rewrite filter_cons. cbn. repeat case_decide; try done; congruence. }
  destruct (tracked_ok (_pool B k)) as (p & Hst & Hok & Hus' & Hal & Hun); [done| |].
  { rewrite Ht, Hcount, decide_True by done. lia. }
  exists p. split; [done|]. split; [done|]. eapply books_update; try done.
  - apply (b_self _ _ _ HB). by eexists.
  - by left.
  - set_solver.
  - intros n [->%elem_of_singleton|Hn]%elem_of_union; [done|]. by apply (b_orphans _ _ _ HB).
  - split; cbn; try done.
    + intros n. rewrite not_elem_of_union, not_elem_of_singleton. specialize (Hu n). rewrite Hperm in Hu.
      set_solver.
    + intros k' j. destruct (decide (k' = k)) as [->|]; [rewrite Hus'|]; apply Hus.
    + intros k'. by case_decide.
    + intros k'. specialize (Hcount k'). case_decide; subst; rewrite ?Hun, ?Ht; lia.
Qed.

Lemma get_doc_some h d B : docs h !! d = Some B -> get_doc d h = Ret B.
Proof. unfold get_doc. by intros ->. Qed.

(** The two calls in either order. *)
Lemma mark_tracked h d k i B p : docs h !! d = Some B -> SetTracked (_pool B k) = Ret p ->
  let h' := Heap (nodes h)
    (<[d := set_pool k p (set_unlinked (mark_in_use (Item d k i) (_unlinked B)) B)]> (docs h)) in
  (h ← MarkInUse (Item d k i) h; on_pool (Item d k i) (fun _ => SetTracked) h) = Ret h' /\
  (h ← on_pool (Item d k i) (fun _ => SetTracked) h; MarkInUse (Item d k i) h) = Ret h'.
Proof.
  intros HB Hp. unfold MarkInUse, on_pool, put_doc. cbn. rewrite !(get_doc_some h d B HB). cbn.
  rewrite Hp. cbn. erewrite !(get_doc_some (Heap _ _) d) by (by apply lookup_insert_eq). cbn.
  rewrite Hp. cbn. by rewrite !insert_insert_eq.
Qed.

(** ** Insertion *)

Definition kids_of F (p : node) : list node := match F !! p with Some m => kids m | None => [] end.
Definition without (c : node) (l : list node) : list node := filter (fun x => x <> c) l.

(** [c] taken out of its tree. *)
Definition loosen (c : node) F : forest_map :=
  match F !! c with
  | Some n => match up n with Some p => unhook p c (without c (kids_of F p)) F | None => F end
  | None => F
  end.

Lemma without_not_in c l : c ∉ l -> without c l = l.
Proof.
  induction l as [|x l IH]; [done|]. rewrite not_elem_of_cons. intros [? ?]. unfold without.
  rewrite filter_cons_True by auto. f_equal. by apply IH.
Qed.
Lemma without_middle c l1 l2 : c ∉ l1 -> c ∉ l2 -> without c (l1 ++ c :: l2) = l1 ++ l2.
Proof.
  intros H1 H2. unfold without. rewrite filter_app, filter_cons_False by auto.
  fold (without c l1) (without c l2). by rewrite !without_not_in.
Qed.

Lemma kids_split F p m c : forest F -> F !! p = Some m -> c ∈ kids m ->
  exists l1 l2, kids m = l1 ++ c :: l2 /\ without c (kids m) = l1 ++ l2.
Proof.
  intros HF Hm Hc. destruct (list_elem_of_split _ _ Hc) as (l1 & l2 & Hk). exists l1, l2. split; [done|].
  pose proof (f_nodup _ HF _ _ Hm) as Hnd. rewrite Hk in *. apply NoDup_middle in Hnd as (? & ? & _).
  by apply without_middle.
Qed.

Lemma loosen_lookup F c x : forest F ->
  loosen c F !! x =
    (fun a => ANode (if decide (x = c) then None else up a) (without c (kids a)) (what a)) <$> F !! x.
Proof.
  intros HF. unfold loosen. destruct (F !! c) as [n|] eqn:Hc; [destruct (up n) as [p|] eqn:Hu|].
  - destruct (f_up _ HF _ _ _ Hc Hu) as (m & Hm & Hin). unfold kids_of. rewrite Hm.
    change (unhook p c (without c (kids m)) F) with (relink F p c None (without c (kids m))).
    rewrite relink_lookup. destruct (F !! x) as [a|] eqn:Hx; [|done]. cbn. do 2 f_equal.
    destruct (decide (x = p)) as [->|Hne]; [congruence|]. symmetry. apply without_not_in. intros Hin'.
    apply Hne. by eapply one_parent.
  - destruct (F !! x) as [a|] eqn:Hx; [|done]. cbn. rewrite without_not_in.
    + case_decide; [|by destruct a]. subst x. rewrite Hc in Hx. injection Hx as <-. rewrite <- Hu. by destruct n.
    + intros Hin. destruct (f_kids _ HF _ _ _ Hx Hin) as (? & ? & ?). congruence.
  - destruct (F !! x) as [a|] eqn:Hx; [|done]. cbn. rewrite without_not_in.
    + case_decide; [congruence|]. by destruct a.
    + intros Hin. destruct (f_kids _ HF _ _ _ Hx Hin) as (? & ? & ?). congruence.
Qed.

Lemma stands_preamble h F X c n :
  stands h F X -> F !! c = Some n -> ToDocument c = false -> c ∉ X ->
  exists h', InsertChildPreamble c h = Ret h' /\ stands h' (loosen c F) ({[c]} ∪ X) /\
    forall d k, asked (docs h') d k = asked (docs h) d k.
Proof.
  intros Hs Hc Hitem HnX. pose proof Hs as [HN HF HB]. unfold InsertChildPreamble, get, loosen.
  rewrite HN, conc_lookup, Hc. cbn. destruct (up n) as [p|] eqn:Hu.
  - destruct (f_up _ HF _ _ _ Hc Hu) as (m & Hm & Hin). unfold kids_of. rewrite Hm.
    destruct (kids_split F p m c HF Hm Hin) as (l1 & l2 & Hk & ->).
    destruct (stands_unlink h F X p c m l1 l2 Hs Hm Hk) as (h' & -> & ? & Hd).
    exists h'. rewrite Hd. done.
  - destruct c as [d|d k i]; [done|].
    destruct (b_doc _ _ _ HB (Item d k i)) as [B HB']; [by eexists|]. cbn in HB'.
    destruct (books_mark F X (docs h) d k i B HB) as (p & Hp & Hal & Hbooks); [by eexists|done..|].
    destruct (mark_tracked h d k i B p HB' Hp) as [Hm _]. cbn in Hm |- *. rewrite Hm. eexists. split; [done|].
    split; [by split|]. intros d' k'. by apply asked_set_pool.
Qed.

(** The list of children with [c] behind [a]. *)
Fixpoint put_after (a c : node) (l : list node) : list node :=
  match l with
  | [] => []
  | x :: l => if decide (x = a) then x :: c :: l else x :: put_after a c l
  end.

Definition insert_end (p c : node) F : forest_map :=
  hook p c (without c (kids_of F p) ++ [c]) (loosen c F).
Definition insert_first (p c : node) F : forest_map :=
  hook p c (c :: without c (kids_of F p)) (loosen c F).
Definition insert_after (p a c : node) F : forest_map :=
  hook p c (put_after a c (without c (kids_of F p))) (loosen c F).

(** A node may be put below any node of its document that is not below it. *)
Record may_insert F (p c : node) : Prop := {
  mi_parent : is_Some (F !! p);
  mi_child : is_Some (F !! c);
  mi_item : ToDocument c = false;
  mi_doc : _document c = _document p;
  mi_below : ~ below F c p;
}.

Lemma loosen_below F c x y : forest F -> below (loosen c F) x y -> below F x y.
Proof.
  intros HF. unfold below. apply rtc_subrel. intros u v (n & Hn & Hu). rewrite loosen_lookup in Hn by done.
  destruct (F !! u) as [a|] eqn:Ha; [|done]. injection Hn as <-. cbn in Hu. case_decide; [done|]. by exists a.
Qed.

(** The state behind the preamble, from which the three insertions link [c]. *)
Record loosened h F (p c : node) (m : anode) (n : anode) : Prop := {
  l_nodes : nodes h = conc (loosen c F);
  l_forest : forest (loosen c F);
  l_parent : loosen c F !! p = Some m;
  l_kids : kids m = without c (kids_of F p);
  l_child : loosen c F !! c = Some n;
  l_root : up n = None;
  l_ne : c <> p;
  l_link l : l ≡ₚ c :: kids m ->
    stands (Heap (conc (hook p c l (loosen c F))) (docs h)) (hook p c l (loosen c F)) ∅;
}.

Lemma preamble_loosened h F p c : stands h F ∅ -> may_insert F p c ->
  exists h' m n, InsertChildPreamble c h = Ret h' /\ loosened h' F p c m n /\
    forall d k, asked (docs h') d k = asked (docs h) d k.
Proof.
  intros Hs [[m0 Hm0] [n0 Hn0] Hitem Hdoc Hb].
  destruct (stands_preamble h F ∅ c n0 Hs Hn0 Hitem) as (h' & Hp & [HN HF' HB] & Hask); [set_solver|].
  rewrite union_empty_r_L in HB. pose proof (s_forest _ _ _ Hs) as HF.
  assert (Hcp : c <> p) by (intros ->; apply Hb; constructor).
  exists h', (ANode (up m0) (without c (kids m0)) (what m0)), (ANode None (without c (kids n0)) (what n0)).
  assert (Hm : loosen c F !! p = Some (ANode (up m0) (without c (kids m0)) (what m0))).
  { rewrite loosen_lookup, Hm0 by done. cbn. by rewrite decide_False. }
  assert (Hn : loosen c F !! c = Some (ANode None (without c (kids n0)) (what n0))).
  { rewrite loosen_lookup, Hn0 by done. cbn. by rewrite decide_True. }
  split; [done|]. split; [|exact Hask]. split; [exact HN|exact HF'|exact Hm| |exact Hn|done|exact Hcp|].
  - unfold kids_of. by rewrite Hm0.
  - intros l Hl. replace (∅ : gset node) with (({[c]} : gset node) ∖ {[c]}) by set_solver.
    eapply stands_link; try done; [set_solver|]. intros Hb'. apply Hb. by eapply loosen_below.
Qed.

Lemma same_doc_eqb p c : _document c = _document p -> (_document c =? _document p)%nat = true.
Proof. intros ->. apply Nat.eqb_refl. Qed.

Lemma insert_end_ok h F p c : stands h F ∅ -> may_insert F p c ->
  exists h', InsertEndChild p c h = Ret (Some c, h') /\ stands h' (insert_end p c F) ∅ /\
    forall d k, asked (docs h') d k = asked (docs h) d k.
Proof.
  intros Hs Hm. destruct (preamble_loosened h F p c Hs Hm) as (h1 & m & n & Hp & [HN HF Hlm Hk Hln Hr Hne Hl] & Hask).
  unfold InsertEndChild. rewrite (same_doc_eqb p c) by apply Hm. cbn. rewrite Hp. cbn.
  destruct h1 as [N D]. cbn in *. subst N.
  rewrite (link_last_conc (loosen c F) p c m n D) by done. cbn. eexists. split; [done|].
  split; [|exact Hask]. unfold insert_end. rewrite <- Hk. apply Hl. by rewrite Permutation_app_comm.
Qed.

Lemma insert_first_ok h F p c : stands h F ∅ -> may_insert F p c ->
  exists h', InsertFirstChild p c h = Ret (Some c, h') /\ stands h' (insert_first p c F) ∅.
Proof.
  intros Hs Hm. destruct (preamble_loosened h F p c Hs Hm) as (h1 & m & n & Hp & [HN HF Hlm Hk Hln Hr Hne Hl] & Hask).
  unfold InsertFirstChild. rewrite (same_doc_eqb p c) by apply Hm. cbn. rewrite Hp. cbn.
  destruct h1 as [N D]. cbn in *. subst N.
  rewrite (link_first_conc (loosen c F) p c m n D) by done. cbn. eexists. split; [done|].
  unfold insert_first. rewrite <- Hk. by apply Hl.
Qed.

Lemma put_after_middle a c l1 l2 : a ∉ l1 -> put_after a c (l1 ++ a :: l2) = l1 ++ a :: c :: l2.
Proof.
  induction l1 as [|x l1 IH]; cbn; [by rewrite decide_True|]. rewrite not_elem_of_cons. intros [? ?].
  rewrite decide_False by done. by rewrite IH.
Qed.

(** [InsertAfterChild] moves the last child behind the one in front of it. *)
Definition follows_last F (p a c : node) : Prop :=
  after a (kids_of F p) = Some c /\ last (kids_of F p) = Some c.

Lemma without_app c l1 l2 : without c (l1 ++ l2) = without c l1 ++ without c l2.
Proof. apply filter_app. Qed.
Lemma without_cons c a l : a <> c -> without c (a :: l) = a :: without c l.
Proof. intros. unfold without. by rewrite filter_cons_True. Qed.

(** Behind [a] there is still a sibling once [c] is gone. *)
Lemma next_remains F p a c m l1 q l2 : forest F -> F !! p = Some m -> kids m = l1 ++ a :: q :: l2 -> a <> c ->
  ~ follows_last F p a c -> exists q' l', without c (kids m) = without c l1 ++ a :: q' :: l'.
Proof.
  intros HF Hm Hk Hac Hnf. pose proof (f_nodup _ HF _ _ Hm) as Hnd. rewrite Hk in *.
  rewrite without_app, without_cons by done. destruct (decide (q = c)) as [->|Hqc].
  - replace (l1 ++ a :: c :: l2) with ((l1 ++ [a]) ++ c :: l2) in Hnd by (by rewrite <- app_assoc).
    apply NoDup_middle in Hnd as (_ & Hc2 & _).
    change (c :: l2) with ([] ++ c :: l2). rewrite without_middle by (done || set_solver). cbn.
    destruct l2 as [|q' l']; [|eauto]. exfalso. apply Hnf. unfold follows_last, kids_of. rewrite Hm, Hk.
    rewrite last_app_some. split; [|done]. rewrite after_app_r; [cbn; by rewrite decide_True|].
    pose proof (f_nodup _ HF _ _ Hm) as Hnd. rewrite Hk in Hnd. by apply NoDup_middle in Hnd as [? _].
  - rewrite without_cons by done. eauto.
Qed.

Lemma insert_after_ok h F p a c na : stands h F ∅ -> may_insert F p c ->
  F !! a = Some na -> up na = Some p -> a <> c -> ~ follows_last F p a c ->
  exists h', InsertAfterChild p a c h = Ret (Some c, h') /\ stands h' (insert_after p a c F) ∅.
Proof.
  intros Hs Hmi Ha Hua Hac Hnf. pose proof Hs as [HN HF HB].
  destruct (f_up _ HF _ _ _ Ha Hua) as (m & Hm & Hin). pose proof (f_nodup _ HF _ _ Hm) as Hnd.
  unfold InsertAfterChild, get. rewrite (same_doc_eqb p c) by apply Hmi. cbn.
  rewrite HN, conc_lookup, Ha. cbn. rewrite Hua, bool_decide_eq_true_2, decide_False by done. cbn.
  destruct (list_elem_of_split _ _ Hin) as (l1 & l2 & Hk).
  assert (Hal : a ∉ l1) by (rewrite Hk in Hnd; by apply NoDup_middle in Hnd as [? _]).
  assert (Hal' : a ∉ without c l1) by (unfold without; rewrite list_elem_of_filter; naive_solver).
  unfold siblings. rewrite Hua, Hm, Hk, after_here by done. destruct l2 as [|q l2]; cbn.
  - destruct (insert_end_ok h F p c Hs Hmi) as (h' & -> & Hs' & _). exists h'. split; [done|].
    replace (insert_after p a c F) with (insert_end p c F); [done|]. unfold insert_end, insert_after, kids_of.
    rewrite Hm, Hk, without_app, without_cons by done. change (without c []) with (@nil node).
    by rewrite put_after_middle, <- app_assoc.
  - destruct (preamble_loosened h F p c Hs Hmi) as (h1 & m1 & n1 & Hp & [HN1 HF1 Hlm Hk1 Hln Hr Hne Hl] & _).
    rewrite Hp. cbn. destruct h1 as [N1 D1]. cbn in *. subst N1.
    unfold kids_of in Hk1. rewrite Hm in Hk1.
    destruct (next_remains F p a c m l1 q l2 HF Hm Hk Hac Hnf) as (q' & l' & Hw). rewrite Hw in Hk1.
    rewrite (link_after_conc (loosen c F) p c m1 n1 D1 HF1 Hlm Hln Hr Hne a q' (without c l1) l' Hk1). cbn.
    eexists. split; [done|]. unfold insert_after, kids_of. rewrite Hm, Hw, put_after_middle by done.
    apply Hl. rewrite Hk1. solve_Permutation.
Qed.

(** The one case left out: without [c] there is nothing behind [a] to follow. *)
Lemma link_after_dangling F D p a c ra rc : conc F !! a = Some ra -> conc F !! c = Some rc -> _next ra = None -> a <> c ->
  link_after p a c (Heap (P := P) (conc F) D) = Undef.
Proof.
  intros Ha Hc Hn Hne. rewrite <- (upd_id (conc F)). unfold link_after. exec. rewrite Hn. done.
Qed.

Lemma after_split (x y : node) l : after x l = Some y -> exists l1 l2, l = l1 ++ x :: y :: l2.
Proof.
  induction l as [|z l IH]; cbn; [done|]. case_decide as Hx.
  - subst z. destruct l as [|w l]; [done|]. intros [= ->]. by exists [], l.
  - intros Ha. destruct (IH Ha) as (l1 & l2 & ->). by exists (z :: l1), l2.
Qed.

Lemma insert_after_crash h F p a c : stands h F ∅ -> is_Some (F !! p) -> follows_last F p a c ->
  InsertAfterChild p a c h = Undef.
Proof.
  intros Hs [m Hm] [Haf Hla]. unfold kids_of in *. rewrite Hm in *. pose proof Hs as [HN HF HB].
  destruct (after_split _ _ _ Haf) as (l1 & l2 & Hk). pose proof (f_nodup _ HF _ _ Hm) as Hnd. rewrite Hk in Hnd, Hla.
  assert (Hnil : l2 = []).
  { destruct l2 as [|z l2]; [done|]. exfalso. rewrite last_app_some in Hla.
    change (last (a :: c :: z :: l2)) with (last (z :: l2)) in Hla. apply last_Some_elem_of in Hla.
    apply NoDup_app in Hnd as (_ & _ & Hnd). apply NoDup_cons in Hnd as [_ Hnd]. by apply NoDup_cons in Hnd as [? _]. }
  subst l2. apply NoDup_middle in Hnd as (Ha1 & Hac & _). assert (a <> c) by set_solver.
  destruct (f_kids _ HF p m a Hm) as (na & Hna & Hua); [rewrite Hk; set_solver|].
  destruct (f_kids _ HF p m c Hm) as (nc & Hnc & Huc); [rewrite Hk; set_solver|].
  unfold InsertAfterChild. rewrite (same_doc_eqb p c) by (by eapply f_doc). rewrite (get_conc h F ∅ a na Hs Hna).
  cbn. rewrite Hua, bool_decide_eq_true_2, decide_False by done. cbn. unfold siblings. rewrite Hua, Hm, Haf.
  unfold InsertChildPreamble. rewrite (get_conc h F ∅ c nc Hs Hnc). cbn. rewrite Huc.
  destruct (stands_unlink h F ∅ p c m (l1 ++ [a]) [] Hs Hm) as (h1 & -> & [HN1 HF1 _] & _); [by rewrite Hk, <- app_assoc|].
  cbn. destruct h1 as [N1 D1]. cbn in HN1. subst N1. rewrite app_nil_r in *.
  set (F1 := unhook p c (l1 ++ [a]) F) in *. assert (Hcp : c <> p).
  { intros ->. apply (not_own_parent F p HF). by exists nc. }
  assert (HFl : forall x, F1 !! x = _) by (intros x; apply (relink_lookup F p c None (l1 ++ [a]) x)).
  erewrite link_after_dangling; [done|..|done].
  - rewrite conc_lookup, HFl, Hna. cbn. done.
  - rewrite conc_lookup, HFl, Hnc. cbn. done.
  - cbn. rewrite decide_False by done. unfold siblings. cbn. rewrite Hua, HFl, Hm. cbn.
    rewrite decide_True by done. by rewrite after_here.
Qed.

(** C30. Where [afterThis] is a child of [this] and [addThis] may be put below it,
    [InsertAfterChild] follows a null pointer exactly when [addThis] is the last child
    and [afterThis] the one in front of it: taking [addThis] out leaves nothing
    behind [afterThis], which the code checked before. *)
Theorem InsertAfterChild_undefined_iff h F p a c na :
  stands h F ∅ -> may_insert F p c -> F !! a = Some na -> up na = Some p ->
  InsertAfterChild p a c h = Undef <-> follows_last F p a c.
Proof.
  intros Hs Hmi Ha Hu. split; [|intros; apply insert_after_crash with F; [done|apply Hmi|done]].
  intros Hundef. destruct (decide (after a (kids_of F p) = Some c /\ last (kids_of F p) = Some c)) as [|Hnf]; [done|].
  exfalso. destruct (decide (a = c)) as [->|Hac].
  - unfold InsertAfterChild in Hundef. rewrite (same_doc_eqb p c) in Hundef by apply Hmi.
    rewrite (get_conc h F ∅ c na Hs Ha) in Hundef. cbn in Hundef.
    by rewrite Hu, bool_decide_eq_true_2, decide_True in Hundef.
  - destruct (insert_after_ok h F p a c na Hs Hmi Ha Hu Hac Hnf) as (h' & Hr & _). congruence.
Qed.

(** ** Subtrees *)

Inductive shape := Shape (a : node) (ts : list shape).
Definition top (t : shape) : node := let '(Shape a _) := t in a.
Fixpoint addrs (t : shape) : list node :=
  let '(Shape a ts) := t in a :: flat_map addrs ts.

Lemma shape_ind' (Q : shape -> Prop) :
  (forall a ts, Forall Q ts -> Q (Shape a ts)) -> forall t, Q t.
Proof.
  intros HQ. fix IH 1. intros [a ts]. apply HQ. induction ts as [|t ts IHts]; constructor; [apply IH|apply IHts].
Qed.

Inductive subtree F : shape -> Prop :=
| subtree_intro a n ts :
    F !! a = Some n -> kids n = map top ts -> Forall (subtree F) ts -> subtree F (Shape a ts).

Lemma top_addrs t : top t ∈ addrs t.
Proof. destruct t. cbn. set_solver. Qed.
Lemma elem_of_flat_map {A B} (f : A -> list B) l x : x ∈ flat_map f l <-> exists y, y ∈ l /\ x ∈ f y.
Proof.
  induction l as [|y l IH]; cbn; [set_solver|]. rewrite elem_of_app, IH. set_solver.
Qed.

(** Every live node is the top of a subtree. *)
Lemma list_choice {A B} (R : A -> B -> Prop) (l : list A) :
  (forall x, x ∈ l -> exists y, R x y) -> exists ys, Forall2 R l ys.
Proof.
  induction l as [|x l IH]; intros Hl; [by exists []|].
  destruct (Hl x) as [y Hy]; [set_solver|]. destruct IH as [ys Hys]; [set_solver|]. by exists (y :: ys); constructor.
Qed.

Lemma subtree_exists F a n : forest F -> F !! a = Some n -> exists t, top t = a /\ subtree F t.
Proof.
  intros HF. revert n. induction (f_acyclic _ HF a) as [a _ IH]. intros n Hn.
  destruct (list_choice (fun c t => top t = c /\ subtree F t) (kids n)) as [ts Hts].
  { intros c Hc. destruct (f_kids _ HF _ _ _ Hn Hc) as (nc & Hnc & Hu). eapply IH; [|done]. by exists nc. }
  exists (Shape a ts). split; [done|]. econstructor; [done| |].
  - clear -Hts. induction Hts as [|c t l ts [<- _] _ IHl]; cbn; [done|]. by f_equal.
  - clear -Hts. induction Hts as [|c t l ts [_ ?] _ IHl]; by constructor.
Qed.

(** Its addresses are live, below its top and all different. *)
Lemma subtree_live F t x : subtree F t -> x ∈ addrs t -> is_Some (F !! x).
Proof.
  induction t as [a ts IH] using shape_ind'. intros Ht Hx. inversion Ht as [? n ? Hn Hk Hts]; subst.
  apply elem_of_cons in Hx as [->|Hx]; [by eexists|]. apply elem_of_flat_map in Hx as (t & Ht' & Hx).
  rewrite Forall_forall in IH, Hts. eauto.
Qed.

Lemma subtree_child F a n ts t : forest F -> F !! a = Some n -> kids n = map top ts -> t ∈ ts -> child F (top t) a.
Proof.
  intros HF Hn Hk Ht. destruct (f_kids _ HF a n (top t) Hn) as (c & ? & ?).
  - rewrite Hk. apply list_elem_of_fmap. eauto.
  - by exists c.
Qed.

Lemma subtree_below F t x : forest F -> subtree F t -> x ∈ addrs t -> below F (top t) x.
Proof.
  intros HF. induction t as [a ts IH] using shape_ind'. intros Ht Hx. inversion Ht as [? n ? Hn Hk Hts]; subst.
  apply elem_of_cons in Hx as [->|Hx]; [constructor|]. apply elem_of_flat_map in Hx as (t & Ht' & Hx).
  rewrite Forall_forall in IH, Hts. eapply rtc_r; [by eapply IH; eauto|]. by eapply subtree_child.
Qed.

(** A subtree holds the children of its nodes, so all that is below its top. *)
Lemma subtree_closed F t y m x : subtree F t -> y ∈ addrs t -> F !! y = Some m -> x ∈ kids m -> x ∈ addrs t.
Proof.
  induction t as [a ts IH] using shape_ind'. intros Ht Hy Hm Hx. inversion Ht as [? n ? Hn Hk Hts]; subst.
  cbn in *. rewrite elem_of_cons, elem_of_flat_map in Hy |- *. right. destruct Hy as [->|(t & Hin & Hy)].
  - rewrite Hn in Hm. injection Hm as <-. rewrite Hk in Hx. apply list_elem_of_fmap in Hx as (t & -> & Hin).
    exists t. split; [done|apply top_addrs].
  - rewrite Forall_forall in *. exists t. eauto.
Qed.

Lemma below_addrs F t x : forest F -> subtree F t -> below F (top t) x -> x ∈ addrs t.
Proof.
  intros HF Ht Hb. unfold below in Hb. remember (top t) as c eqn:Hc. induction Hb as [x|x y z (n & Hn & Hu) _ IH].
  - subst. apply top_addrs.
  - destruct (f_up _ HF _ _ _ Hn Hu) as (m & Hm & Hin). eapply subtree_closed; eauto.
Qed.

Lemma no_cycle F x c : forest F -> child F x c -> ~ below F x c.
Proof.
  intros HF. revert x. induction (f_acyclic _ HF c) as [c _ IH]. intros x Hx Hb.
  apply rtc_inv_r in Hb as [<-|(z & Hz & Hzx)].
  - apply (IH c Hx c Hx). constructor.
  - apply (IH x Hx z Hzx). by eapply rtc_l.
Qed.

Lemma child_fun F x y z : child F x y -> child F x z -> y = z.
Proof. intros (n & ? & ?) (n' & ? & ?). congruence. Qed.

(** Of two nodes above the same one, one is above the other. *)
Lemma below_chain F c1 c2 x : below F c1 x -> below F c2 x -> below F c1 c2 \/ below F c2 c1.
Proof.
  unfold below. intros H1. revert c2. induction H1 as [x|x y c1 Hxy H1 IH]; intros c2 H2; [by right|].
  inversion H2 as [|? z ? Hxz H2']; subst.
  - left. by eapply rtc_l.
  - rewrite (child_fun F x y z) in * by done. by apply IH.
Qed.

Lemma siblings_apart F p c1 c2 x : forest F -> child F c1 p -> child F c2 p -> c1 <> c2 ->
  below F c1 x -> below F c2 x -> False.
Proof.
  intros HF H1 H2 Hne Hx1 Hx2.
  assert (Hlem : forall a b, child F a p -> child F b p -> a <> b -> ~ below F a b).
  { intros a b Ha Hb Hab Hbel. apply (no_cycle F a p HF Ha). inversion Hbel as [|? z ? Hbz Hz]; subst; [done|].
    by rewrite (child_fun F b p z). }
  destruct (below_chain F c1 c2 x Hx1 Hx2) as [Hb|Hb]; revert Hb; apply Hlem; auto.
Qed.

Lemma subtree_nodup F t : forest F -> subtree F t -> NoDup (addrs t).
Proof.
  intros HF. induction t as [a ts IH] using shape_ind'. intros Ht. inversion Ht as [? n ? Hn Hk Hts]; subst. cbn.
  pose proof (f_nodup _ HF _ _ Hn) as Hnd. rewrite Hk in Hnd.
  assert (Hch : forall t, t ∈ ts -> child F (top t) a /\ subtree F t).
  { rewrite Forall_forall in Hts. intros t Hin. split; [by eapply subtree_child|auto]. }
  constructor.
  - intros (t & Hin & Hx)%elem_of_flat_map. destruct (Hch t Hin) as [Hc Hsub].
    apply (no_cycle F _ _ HF Hc). by apply subtree_below.
  - clear Hn Hk Ht. induction ts as [|t ts IHts]; cbn; [constructor|].
    apply NoDup_cons in Hnd as [Hni Hnd]. apply Forall_cons in IH as [IHt IH]. apply Forall_cons in Hts as [Hst Hts].
    apply NoDup_app. split; [by apply IHt|]. split; [|apply IHts; try done; set_solver].
    intros x Hx (t' & Hin & Hx')%elem_of_flat_map.
    destruct (Hch t) as [Hc1 _]; [set_solver|]. destruct (Hch t') as [Hc2 Hs2]; [set_solver|].
    eapply (siblings_apart F a (top t) (top t') x); try done; [|by apply subtree_below..].
    intros Heq. apply Hni. rewrite Heq. apply list_elem_of_fmap. eauto.
Qed.

(** A subtree depends on the children of its nodes only. *)
Lemma subtree_same F G t : subtree F t -> (forall x, x ∈ addrs t -> kids <$> G !! x = kids <$> F !! x) -> subtree G t.
Proof.
  induction t as [a ts IH] using shape_ind'. intros Ht HG. inversion Ht as [? n ? Hn Hk Hts]; subst.
  assert (Ha : kids <$> G !! a = kids <$> F !! a) by (apply HG, (top_addrs (Shape a ts))).
  rewrite Hn in Ha. destruct (G !! a) as [n'|] eqn:Hn'; [|done]. injection Ha as Ha.
  econstructor; [done|congruence|].
  rewrite Forall_forall in *. intros t Ht'. apply IH; [done|auto|]. intros x Hx. apply HG. cbn.
  apply elem_of_cons. right. apply elem_of_flat_map. eauto.
Qed.

(** ** New nodes *)

Lemma forest_insert F n c : forest F -> F !! n = None -> forest (<[n := ANode None [] c]> F).
Proof.
  intros HF Hn.
  assert (Hne : forall x a, F !! x = Some a -> x <> n) by (intros; congruence).
  split.
  - intros x a p [[<- <-]|[? Hx]]%lookup_insert_Some Hu; [done|].
    destruct (f_up _ HF _ _ _ Hx Hu) as (m & Hm & Hin). exists m. split; [|done].
    rewrite lookup_insert_ne; [done|]. intros ->. by eapply Hne.
  - intros p m x [[<- <-]|[? Hm]]%lookup_insert_Some Hin; [by apply elem_of_nil in Hin|].
    destruct (f_kids _ HF _ _ _ Hm Hin) as (a & Ha & Hu). exists a. split; [|done].
    rewrite lookup_insert_ne; [done|]. intros ->. by eapply Hne.
  - intros p m [[<- <-]|[? Hm]]%lookup_insert_Some; [constructor|]. by eapply f_nodup.
  - intros x a p [[<- <-]|[? Hx]]%lookup_insert_Some; [done|]. by apply (f_doc _ HF x a).
  - intros d a [[? <-]|[? Hx]]%lookup_insert_Some; [done|]. by eapply f_root.
  - intros x. induction (f_acyclic _ HF x) as [x _ IH]. constructor.
    intros y (a & [[<- <-]|[? Hy]]%lookup_insert_Some & Hu); [done|]. apply IH. by exists a.
Qed.

Lemma conc_insert F n c : forest F -> F !! n = None ->
  conc (<[n := ANode None [] c]> F) = <[n := Node None None None None None c]> (conc F).
Proof.
  intros HF Hn. apply map_eq. intros x. rewrite conc_lookup. destruct (decide (x = n)) as [->|Hne].
  - by rewrite !lookup_insert_eq.
  - rewrite !lookup_insert_ne, conc_lookup by done. destruct (F !! x) as [a|] eqn:Hx; [|done]. cbn. f_equal.
    unfold pointers. assert (Hs : siblings (<[n := ANode None [] c]> F) a = siblings F a); [|by rewrite Hs].
    unfold siblings. destruct (up a) as [p|] eqn:Hu; [|done].
    destruct (f_up _ HF _ _ _ Hx Hu) as (m & Hm & _). rewrite lookup_insert_ne; [done|]. congruence.
Qed.

Lemma insert_root F n c x : F !! n = None -> root (<[n := ANode None [] c]> F) x <-> x = n \/ root F x.
Proof.
  intros Hn. unfold root. destruct (decide (x = n)) as [->|Hne].
  - rewrite lookup_insert_eq. split; [by left|]. intros _. by eexists.
  - rewrite lookup_insert_ne by done. naive_solver.
Qed.

Lemma create_ok h F d B k c :
  stands h F ∅ -> docs h !! d = Some B -> pool_of c = Some k -> allocs (_pool B k) < MAX_ELEMENTS ->
  exists i h', CreateUnlinkedNode d k c h = Ret (Item d k i, h') /\ F !! Item d k i = None /\
    stands h' (<[Item d k i := ANode None [] c]> F) ∅ /\
    (forall d' k', asked (docs h') d' k' = asked (docs h) d' k' + if decide (d' = d /\ k' = k) then 1 else 0).
Proof.
  intros [HN HF HB] HD Hk Hroom. pose proof (b_book _ _ _ HB d B HD) as [Hu Hnd Hus Hp Ht].
  destruct (alloc_ok (_pool B k)) as (i & p & Ha & Hok & Hni & Hus' & Hal & Hun); [done..|].
  assert (Hn : F !! Item d k i = None) by (apply eq_None_not_Some; by rewrite <- Hus).
  unfold CreateUnlinkedNode. rewrite (get_doc_some h d B HD). cbn. rewrite Ha. cbn.
  do 2 eexists. split; [done|]. split; [done|]. split; [split; cbn|].
  - by rewrite HN, conc_insert.
  - by apply forest_insert.
  - eapply books_update; try done.
    + rewrite lookup_insert_ne by done. apply (b_self _ _ _ HB). by eexists.
    + intros n a [[<- <-]|[? ?]]%lookup_insert_Some; [by right|by left].
    + intros n Hne. rewrite lookup_insert_ne; [done|]. intros <-. by apply Hne.
    + split; cbn.
      * intros n. rewrite elem_of_app, list_elem_of_singleton, Hu, insert_root by done.
        destruct (decide (n = Item d k i)) as [->|]; [split; [|tauto]|tauto]. intros _. split_and!; auto. set_solver.
      * apply NoDup_app. split; [done|]. split; [|apply NoDup_singleton].
        intros n (_ & _ & (a & Ha' & _) & _)%Hu ->%list_elem_of_singleton. congruence.
      * intros k' j. destruct (decide (k' = k)) as [->|Hne].
        { rewrite Hus', elem_of_union, elem_of_singleton, Hus. destruct (decide (j = i)) as [->|Hj].
          - rewrite lookup_insert_eq. split; [by eexists|by left].
          - rewrite lookup_insert_ne by congruence. naive_solver. }
        { rewrite Hus, lookup_insert_ne by congruence. done. }
      * intros k'. by case_decide.
      * intros k'. rewrite filter_app, length_app, filter_cons. cbn.
        destruct (decide (k' = k)) as [->|Hne].
        { rewrite decide_True by done. cbn. rewrite Hun, Ht. lia. }
        { rewrite decide_False by congruence. cbn. rewrite Ht. lia. }
  - cbn. intros d' k'. unfold asked. destruct (decide (d' = d)) as [->|Hd].
    + rewrite lookup_insert_eq, HD. cbn. destruct (decide (k' = k)) as [->|Hk'].
      * rewrite decide_True by done. lia.
      * rewrite decide_False by tauto. lia.
    + rewrite lookup_insert_ne, decide_False by naive_solver. lia.
Qed.
End Tree.
