(* ===== verification/XmlDelete.v ===== *)
(** * The document tree of tinyxml2: deletion

    The destructor of a node deletes its children one after the other, so the
    theorems go by induction on subtrees: [DeleteNode] with fuel twice the number of
    nodes always returns, frees the nodes of the subtree and leaves all others
    as they are. *)

From S2P Require Import Prelude XmlPool XmlTree XmlForest XmlTreeProofs.

Section Delete.
Context {P : Type} `{MemPoolLaws P}.
Implicit Types (h : heap (P := P)) (D : gmap nat (XMLDocument (P := P))) (F : forest_map) (X : gset node).

(** Deleting does not count as asking for a node. *)
Definition same_asked h h' : Prop := forall d k, asked (docs h') d k = asked (docs h) d k.
Lemma same_asked_trans h1 h2 h3 : same_asked h1 h2 -> same_asked h2 h3 -> same_asked h1 h3.
Proof. intros H1 H2 d k. by rewrite H2, H1. Qed.

(** ** Freeing one node *)

Lemma conc_delete F n a : forest F -> F !! n = Some a -> kids a = [] -> conc (delete n F) = delete n (conc F).
Proof.
  intros HF Hn Hk. apply map_eq. intros x. rewrite conc_lookup. destruct (decide (x = n)) as [->|Hne].
  - by rewrite !lookup_delete_eq.
  - rewrite !lookup_delete_ne, conc_lookup by done. destruct (F !! x) as [b|] eqn:Hx; [|done]. cbn. f_equal.
    unfold pointers. assert (Hs : siblings (delete n F) b = siblings F b); [|by rewrite Hs].
    unfold siblings. destruct (up b) as [p|] eqn:Hu; [|done]. rewrite lookup_delete_ne; [done|]. intros <-.
    destruct (f_up _ HF _ _ _ Hx Hu) as (m & Hm & Hin). rewrite Hn in Hm. injection Hm as <-.
    rewrite Hk in Hin. by apply elem_of_nil in Hin.
Qed.

Lemma forest_delete F n a : forest F -> F !! n = Some a -> kids a = [] -> up a = None -> forest (delete n F).
Proof.
  intros HF Hn Hk Hu.
  assert (Hnk : forall p m, F !! p = Some m -> n ∉ kids m).
  { intros p m Hm Hin. destruct (f_kids _ HF _ _ _ Hm Hin) as (? & ? & ?). congruence. }
  split.
  - intros c b p [Hcn Hc]%lookup_delete_Some Hup. destruct (f_up _ HF _ _ _ Hc Hup) as (m & Hm & Hin).
    exists m. split; [|done]. rewrite lookup_delete_ne; [done|]. intros <-. rewrite Hn in Hm. injection Hm as <-.
    rewrite Hk in Hin. by apply elem_of_nil in Hin.
  - intros p m c [_ Hm]%lookup_delete_Some Hin. destruct (f_kids _ HF _ _ _ Hm Hin) as (b & Hb & Hup).
    exists b. split; [|done]. rewrite lookup_delete_ne; [done|]. intros <-. by apply (Hnk p m).
  - intros p m [_ Hm]%lookup_delete_Some. by eapply f_nodup.
  - intros c b p [_ Hc]%lookup_delete_Some. by apply (f_doc _ HF c b).
  - intros d b [_ Hd]%lookup_delete_Some. by eapply f_root.
  - intros x. induction (f_acyclic _ HF x) as [x _ IH]. constructor. intros y (b & [_ Hb]%lookup_delete_Some & Hup).
    apply IH. by exists b.
Qed.

Lemma books_free F X D d k i B :
  books F X D -> Item d k i ∈ X -> D !! d = Some B ->
  exists p, Free i (_pool B k) = Ret p /\ allocs p = allocs (_pool B k) /\
    books (delete (Item d k i) F) (X ∖ {[Item d k i]}) (<[d := set_pool k p B]> D).
Proof.
  intros HB HX HD. destruct (b_orphans _ _ _ HB _ HX) as [(a & Ha & Hup) _].
  destruct (b_book _ _ _ HB d B HD) as [Hu Hnd Hus Hp Ht].
  destruct (free_ok (_pool B k) i) as (p & Hf & Hok & Hus' & Hal & Hun); [done|apply Hus; by eexists|].
  exists p. split; [done|]. split; [done|]. set (c := Item d k i) in *.
  assert (Hroot : forall n, root (delete c F) n <-> root F n /\ n <> c).
  { intros n. unfold root. split.
    - intros (b & [? ?]%lookup_delete_Some & ?). split; [by exists b|congruence].
    - intros [(b & ? & ?) ?]. exists b. by rewrite lookup_delete_ne. }
  eapply books_update; try done.
  - rewrite lookup_delete_ne by done. apply (b_self _ _ _ HB). by eexists.
  - intros n b [_ ?]%lookup_delete_Some. by left.
  - intros n Hne. assert (n <> c) by (intros ->; by apply Hne). rewrite lookup_delete_ne by done. set_solver.
  - intros n [HnX Hne%not_elem_of_singleton]%elem_of_difference. rewrite Hroot.
    destruct (b_orphans _ _ _ HB n HnX). done.
  - split; cbn; try done.
    + intros n. rewrite Hu, Hroot, not_elem_of_difference, elem_of_singleton.
      destruct (decide (n = c)) as [->|]; tauto.
    + intros k' j. destruct (decide (k' = k)) as [->|Hk].
      * rewrite Hus', elem_of_difference, elem_of_singleton, Hus. destruct (decide (j = i)) as [->|Hj].
        { unfold c. rewrite lookup_delete_eq. split; [naive_solver|]. by intros []. }
        { rewrite lookup_delete_ne by (unfold c; congruence). naive_solver. }
      * rewrite Hus, lookup_delete_ne by (unfold c; congruence). done.
    + intros k'. by case_decide.
    + intros k'. case_decide; subst; by rewrite ?Hun, ?Ht.
Qed.

Lemma stands_free h F X n a : stands h F X -> n ∈ X -> F !! n = Some a -> kids a = [] ->
  exists h', free_node n h = Ret h' /\ stands h' (delete n F) (X ∖ {[n]}) /\ same_asked h h'.
Proof.
  intros [HN HF HB] HX Hn Hk. destruct (b_orphans _ _ _ HB n HX) as [(a' & Ha' & Hup) Hitem].
  rewrite Hn in Ha'. injection Ha' as <-. destruct n as [d|d k i]; [done|].
  destruct (b_doc _ _ _ HB (Item d k i)) as [B HD]; [by eexists|]. cbn in HD.
  destruct (books_free F X (docs h) d k i B HB HX HD) as (p & Hf & Hal & HB').
  unfold free_node, on_pool. cbn. rewrite (get_doc_some h d B HD). cbn. rewrite Hf. cbn.
  eexists. split; [done|]. split; [split; cbn; [|by eapply forest_delete|done]|].
  - by rewrite HN, (conc_delete F _ a).
  - intros d' k'. unfold asked. cbn. destruct (decide (d' = d)) as [->|]; [|by rewrite lookup_insert_ne].
    rewrite lookup_insert_eq, HD. cbn. by case_decide; subst.
Qed.

(** ** Freeing a subtree *)

(** The forest without some nodes. *)
Definition cut (l : list node) F : forest_map := filter (fun kv => kv.1 ∉ l) F.

Lemma cut_lookup l F x : cut l F !! x = if decide (x ∈ l) then None else F !! x.
Proof.
  unfold cut. case_decide as Hx.
  - apply map_lookup_filter_None. right. intros a _. cbn. tauto.
  - destruct (F !! x) as [a|] eqn:Ha.
    + by apply map_lookup_filter_Some.
    + apply map_lookup_filter_None. by left.
Qed.

Lemma cut_app l1 l2 F : cut (l1 ++ l2) F = cut l2 (cut l1 F).
Proof.
  apply map_eq. intros x. rewrite !cut_lookup.
  destruct (decide (x ∈ l2)); [rewrite decide_True by (apply elem_of_app; by right); done|].
  destruct (decide (x ∈ l1)); [by rewrite decide_True by (apply elem_of_app; by left)|].
  rewrite decide_False; [done|]. by rewrite elem_of_app; intros [].
Qed.

(** The destructor and the release of the memory, behind [MarkInUse]. *)
Definition end_node (fuel : nat) (n : node) h : ub heap :=
  h ← DeleteChildren fuel n h;
  m ← get n h;
  h ← match _parent m with Some p => Unlink p n h | None => Ret h end;
  free_node n h.

Lemma DeleteNode_eq fuel n h :
  DeleteNode fuel n h = (h ← (if ToDocument n then Ret h else MarkInUse n h); end_node fuel n h).
Proof. done. Qed.
Lemma DeleteChildren_S fuel n h :
  DeleteChildren (S fuel) n h =
    (t ← get n h;
     match _firstChild t with
     | Some c => h ← Unlink n c h; h ← DeleteNode fuel c h; DeleteChildren fuel n h
     | None => h ← modify n (set_lastChild None) h; modify n (set_firstChild None) h
     end).
Proof. done. Qed.

(** A node in use is not in [_unlinked]: marking it changes nothing. *)
Lemma mark_orphan h F X n : stands h F X -> n ∈ X -> MarkInUse n h = Ret h.
Proof.
  intros [_ _ HB] HX. destruct (b_orphans _ _ _ HB n HX) as [(a & Ha & _) Hitem].
  destruct (b_doc _ _ _ HB n) as [B HD]; [by eexists|].
  unfold MarkInUse, put_doc. rewrite (get_doc_some h _ B HD). cbn. f_equal. destruct h as [N D]. cbn in *. f_equal.
  rewrite mark_in_use_not_in.
  - apply insert_id. rewrite HD. by destruct B.
  - intros Hin. by apply (b_unlinked _ _ _ _ (b_book _ _ _ HB _ _ HD)) in Hin as (_ & _ & _ & ?).
Qed.

Lemma no_children h F X p m : stands h F X -> F !! p = Some m -> kids m = [] ->
  (h ← modify p (set_lastChild None) h; modify p (set_firstChild None) h) = Ret h.
Proof.
  intros [HN _ _] Hm Hk. destruct h as [N D]. cbn in *. subst N. pose proof (conc_lookup_some _ _ _ Hm) as Hp.
  rewrite <- (upd_id (conc F)) at 1. erewrite modify_upd by done. cbn. erewrite modify_upd by done.
  do 2 f_equal. apply map_eq. intros x. rewrite upd_lookup. unfold at_node. cbn beta.
  destruct (decide (x = p)) as [->|]; [|by destruct (conc F !! x)].
  rewrite Hp. cbn. unfold pointers. by rewrite Hk.
Qed.

Definition weight (ts : list shape) : nat := length (flat_map addrs ts).

Definition destroys (t : shape) : Prop := forall F X h fuel,
  stands h F X -> subtree F t -> top t ∈ X -> (2 * length (addrs t) - 1 <= fuel)%nat ->
  exists h', end_node fuel (top t) h = Ret h' /\ stands h' (cut (addrs t) F) (X ∖ {[top t]}) /\ same_asked h h'.

Lemma unhook_kids F p c l x : x <> p -> kids <$> unhook p c l F !! x = kids <$> F !! x.
Proof.
  intros Hxp. change (unhook p c l F) with (relink F p c None l). rewrite relink_lookup.
  destruct (F !! x); cbn; [|done]. by rewrite decide_False.
Qed.

Lemma addrs_pos t : (1 <= length (addrs t))%nat.
Proof. destruct t. cbn. lia. Qed.

(** [DeleteChild], whether called by itself or in the loop. *)
Lemma child_ok t : destroys t -> forall F X h fuel p m l1 l2,
  stands h F X -> F !! p = Some m -> kids m = l1 ++ top t :: l2 -> subtree F t ->
  (2 * length (addrs t) <= fuel)%nat ->
  exists h1 h2, Unlink p (top t) h = Ret h1 /\ DeleteNode fuel (top t) h1 = Ret h2 /\
    stands h2 (cut (addrs t) (unhook p (top t) (l1 ++ l2) F)) X /\ same_asked h h2.
Proof.
  intros Ht F X h fuel p m l1 l2 Hs Hm Hk Hsub Hfuel. pose proof (s_forest _ _ _ Hs) as HF.
  assert (Hc : child F (top t) p).
  { destruct (f_kids _ HF p m (top t) Hm) as (b & ? & ?); [rewrite Hk; set_solver|by exists b]. }
  destruct (stands_unlink h F X p (top t) m l1 l2 Hs Hm Hk) as (h1 & Hu & Hs1 & Hd1). exists h1.
  set (F1 := unhook p (top t) (l1 ++ l2) F) in *. pose proof (addrs_pos t).
  assert (HtX : top t ∉ X).
  { intros HX. destruct (b_orphans _ _ _ (s_books _ _ _ Hs) _ HX) as [(b & Hb & Hub) _].
    destruct Hc as (b' & ? & ?). congruence. }
  rewrite DeleteNode_eq.
  destruct (b_orphans _ _ _ (s_books _ _ _ Hs1) (top t)) as [_ ->]; [set_solver|].
  rewrite (mark_orphan h1 F1 _ (top t) Hs1) by set_solver. cbn -[end_node].
  destruct (Ht F1 _ h1 fuel Hs1) as (h2 & -> & Hs2 & Hask); [|set_solver|lia|].
  - eapply subtree_same; [done|]. intros x Hx. apply unhook_kids. intros ->.
    by apply (no_cycle F _ _ HF Hc), subtree_below.
  - exists h2. split; [exact Hu|split; [reflexivity|split]]; [|intros d k; by rewrite Hask, Hd1].
    by replace X with (({[top t]} ∪ X) ∖ {[top t]}) by set_solver.
Qed.

Lemma cut_unhook_lookup F p t l x : cut (addrs t) (unhook p (top t) l F) !! x =
  if decide (x ∈ addrs t) then None
  else (fun n => ANode (up n) (if decide (x = p) then l else kids n) (what n)) <$> F !! x.
Proof.
  rewrite cut_lookup. case_decide as Hx; [done|].
  change (unhook p (top t) l F) with (relink F p (top t) None l).
  rewrite relink_lookup. destruct (F !! x) as [b|]; [|done]. cbn. f_equal.
  rewrite (decide_False (P := x = top t)); [done|]. intros ->. apply Hx, top_addrs.
Qed.

(** What is left once the first child and then the others are gone. *)
Lemma cut_children F p m t ts l : F !! p = Some m -> p ∉ addrs t ->
  alter (set_kids []) p (cut (flat_map addrs ts) (cut (addrs t) (unhook p (top t) l F))) =
  alter (set_kids []) p (cut (flat_map addrs (t :: ts)) F).
Proof.
  intros Hm Hpt. cbn. rewrite cut_app. apply map_eq. intros x. destruct (decide (x = p)) as [->|Hne].
  - rewrite !lookup_alter_eq, !(cut_lookup (flat_map _ _)), cut_unhook_lookup, cut_lookup.
    destruct (decide _); [done|]. by rewrite !decide_False, Hm.
  - rewrite !lookup_alter_ne, !(cut_lookup (flat_map _ _)), cut_unhook_lookup, cut_lookup by done.
    destruct (decide _); [done|]. destruct (decide _); [done|].
    by destruct (F !! x) as [[]|]; cbn; rewrite ?decide_False.
Qed.

Lemma cut_nothing F p m : F !! p = Some m -> kids m = [] -> alter (set_kids []) p (cut [] F) = F.
Proof.
  intros Hm Hk. apply map_eq. intros x. destruct (decide (x = p)) as [->|Hne].
  - rewrite lookup_alter_eq, cut_lookup, decide_False, Hm by apply not_elem_of_nil. cbn.
    destruct m. cbn in *. by subst.
  - by rewrite lookup_alter_ne, cut_lookup, decide_False by (done || apply not_elem_of_nil).
Qed.

(** The loop of [DeleteChildren], given that each child can be destroyed. *)
Lemma children_ok ts : Forall destroys ts -> forall F X h fuel p m,
  stands h F X -> F !! p = Some m -> kids m = map top ts -> Forall (subtree F) ts ->
  (2 * weight ts + 1 <= fuel)%nat ->
  exists h', DeleteChildren fuel p h = Ret h' /\
    stands h' (alter (set_kids []) p (cut (flat_map addrs ts) F)) X /\ same_asked h h'.
Proof.
  induction 1 as [|t ts Ht Hts IH]; intros F X h fuel p m Hs Hm Hk Hsub Hfuel; (destruct fuel as [|fuel]; [lia|]);
    rewrite DeleteChildren_S, (get_conc h F X p m Hs Hm); cbn -[DeleteNode DeleteChildren Nat.mul] in *.
  - rewrite Hk. cbn. pose proof (no_children h F X p m Hs Hm Hk) as Hno. cbn in Hno. rewrite Hno.
    exists h. split; [done|]. by rewrite (cut_nothing F p m).
  - rewrite Hk. cbn -[DeleteNode DeleteChildren].
    pose proof (s_forest _ _ _ Hs) as HF. assert (Hsub0 : subtree F (Shape p (t :: ts))) by (by econstructor).
    pose proof (subtree_nodup F _ HF Hsub0) as Hnd. cbn in Hnd. apply NoDup_cons in Hnd as [Hp Hnd].
    apply NoDup_app in Hnd as (_ & Hdisj & _). apply Forall_cons in Hsub as [Hsubt Hsub].
    unfold weight in *. cbn -[Nat.mul] in Hfuel. rewrite length_app in Hfuel. pose proof (addrs_pos t).
    destruct (child_ok t Ht F X h fuel p m [] (map top ts) Hs Hm Hk Hsubt) as (h1 & h2 & -> & Hd & Hs2 & Hask2); [lia|].
    cbn -[DeleteNode DeleteChildren] in *. rewrite Hd. cbn -[DeleteChildren].
    assert (Hpt : p ∉ addrs t) by set_solver.
    destruct (IH _ X h2 fuel p (ANode (up m) (map top ts) (what m)) Hs2) as (h3 & -> & Hs3 & Hask3); [|done| |lia|].
    + rewrite cut_unhook_lookup, decide_False, Hm by done. cbn. by rewrite decide_True.
    + rewrite Forall_forall in *. intros t' Hin. eapply subtree_same; [by apply Hsub|]. intros x Hx.
      assert (Hxs : x ∈ flat_map addrs ts) by (apply elem_of_flat_map; eauto).
      rewrite cut_unhook_lookup, decide_False by (intros Hx'; by apply (Hdisj x)). destruct (F !! x); cbn; [|done].
      rewrite decide_False; [done|]. intros ->. apply Hp. set_solver.
    + exists h3. split; [done|]. split; [by rewrite (cut_children F p m t ts (map top ts)) in Hs3|].
      by eapply same_asked_trans.
Qed.

Lemma destroy_ok t : destroys t.
Proof.
  induction t as [a ts IH] using shape_ind'. intros F X h fuel Hs Hsub HX Hfuel.
  inversion Hsub as [? n ? Hn Hk Hts]; subst. cbn [top addrs length] in *.
  destruct (children_ok ts IH F X h fuel a n Hs Hn Hk Hts) as (h1 & Hd & Hs1 & Hask1); [unfold weight; lia|].
  pose proof (subtree_nodup F _ (s_forest _ _ _ Hs) Hsub) as Hnd. cbn in Hnd. apply NoDup_cons in Hnd as [Ha _].
  assert (Hn1 : alter (set_kids []) a (cut (flat_map addrs ts) F) !! a = Some (set_kids [] n)).
  { by rewrite lookup_alter_eq, cut_lookup, decide_False, Hn. }
  unfold end_node. rewrite Hd. cbn. rewrite (get_conc h1 _ X a _ Hs1 Hn1). cbn.
  destruct (b_orphans _ _ _ (s_books _ _ _ Hs) a HX) as [(n' & Hn' & Hup) _].
  rewrite Hn in Hn'. injection Hn' as <-. rewrite Hup. cbn.
  destruct (stands_free h1 _ X a _ Hs1 HX Hn1) as (h2 & -> & Hs2 & Hask2); [done|]. exists h2. split; [done|].
  split; [|by eapply same_asked_trans].
  replace (cut (a :: flat_map addrs ts) F) with (delete a (alter (set_kids []) a (cut (flat_map addrs ts) F))); [done|].
  apply map_eq. intros x. rewrite cut_lookup. destruct (decide (x = a)) as [->|Hne].
  - rewrite lookup_delete_eq, decide_True by set_solver. done.
  - rewrite lookup_delete_ne, lookup_alter_ne, cut_lookup by done. repeat case_decide; try done; set_solver.
Qed.

(** ** Deleting a node *)

Lemma subtree_size F t : forest F -> subtree F t -> (length (addrs t) <= size F)%nat.
Proof.
  intros HF Ht. rewrite <- size_dom, <- (size_list_to_set (C := gset node)) by (by apply subtree_nodup with F).
  apply subseteq_size. intros x. rewrite elem_of_list_to_set, elem_of_dom. by apply subtree_live.
Qed.

Lemma deleted_ok h F t fuel : stands h F ∅ -> subtree F t -> ToDocument (top t) = false ->
  (2 * length (addrs t) <= fuel)%nat ->
  exists h', doc_DeleteNode fuel (top t) h = Ret h' /\ stands h' (cut (addrs t) (loosen (top t) F)) ∅ /\
    same_asked h h'.
Proof.
  intros Hs Hsub Hitem Hfuel. pose proof Hs as [_ HF HB].
  destruct (subtree_live F t (top t) Hsub (top_addrs t)) as [n Hn].
  unfold doc_DeleteNode. rewrite (get_conc h F ∅ _ _ Hs Hn). cbn -[DeleteNode].
  unfold loosen. rewrite Hn. destruct (up n) as [p|] eqn:Hu.
  - destruct (f_up _ HF _ _ _ Hn Hu) as (m & Hm & Hin). unfold kids_of. rewrite Hm.
    destruct (kids_split F p m _ HF Hm Hin) as (l1 & l2 & Hk & ->).
    destruct (child_ok t (destroy_ok t) F ∅ h fuel p m l1 l2 Hs Hm Hk Hsub Hfuel) as (h1 & h2 & Hu1 & Hd & Hs2 & Hask).
    unfold DeleteChild. rewrite Hu1. cbn -[DeleteNode]. rewrite Hd. by exists h2.
  - destruct t as [a ts]. cbn [top] in *. destruct a as [|d k i]; [done|].
    destruct (b_doc _ _ _ HB (Item d k i)) as [B HD]; [by eexists|]. cbn in HD.
    destruct (books_mark F ∅ (docs h) d k i B HB) as (q & Hq & Hal & HB'); [by eexists|set_solver|done|].
    destruct (mark_tracked h d k i B q HD Hq) as [_ Hmt].
    assert (Hstep : (h ← on_pool (Item d k i) (fun _ => SetTracked) h; DeleteNode fuel (Item d k i) h) =
      (h ← (h ← on_pool (Item d k i) (fun _ => SetTracked) h; MarkInUse (Item d k i) h); end_node fuel (Item d k i) h)).
    { destruct (on_pool _ _ h); [done|]. apply DeleteNode_eq. }
    rewrite union_empty_r_L in HB'. cbn -[DeleteNode end_node on_pool] in Hstep, Hmt |- *.
    match type of Hmt with _ = Ret ?h1' => set (h1 := h1') in Hmt end.
    assert (Hs1 : stands h1 F {[Item d k i]}) by (split; [apply Hs|exact HF|exact HB']).
    rewrite Hstep, Hmt. cbn -[end_node].
    destruct (destroy_ok (Shape (Item d k i) ts) F _ h1 fuel Hs1 Hsub) as (h' & Hd & Hs' & Hask); [cbn; set_solver|lia|].
    cbn [top] in Hd, Hs'. rewrite Hd. exists h'. split; [done|]. split; [by rewrite difference_diag_L in Hs'|].
    intros d' k'. rewrite Hask. by apply asked_set_pool.
Qed.

(** ** Clearing a document *)

(** Every node is below a node that is in no tree. *)
Lemma child_irreflexive F : forest F -> Irreflexive (tc (child F)).
Proof.
  intros HF x Hx. inversion Hx as [? ? Hc|? z ? Hc Hz]; subst.
  - apply (no_cycle F x x HF Hc). constructor.
  - apply (no_cycle F x z HF Hc). by apply tc_rtc.
Qed.

Lemma root_above F x : forest F -> is_Some (F !! x) -> exists r, root F r /\ below F r x.
Proof.
  intros HF. assert (Hsn : sn (child F) x).
  { apply tc_finite_sn; [by apply child_irreflexive|]. exists (elements (dom F)). intros y Hy.
    apply elem_of_elements, elem_of_dom. induction Hy as [u v (n & Hn & Hu)|]; [|done].
    destruct (f_up _ HF _ _ _ Hn Hu) as (m & ? & _). by eexists. }
  induction Hsn as [x _ IH]. intros [n Hn]. destruct (up n) as [p|] eqn:Hu.
  - assert (Hc : child F x p) by (by exists n). destruct (IH p) as (r & Hr & Hb); [done| |].
    + destruct (f_up _ HF _ _ _ Hn Hu) as (m & ? & _). by eexists.
    + exists r. split; [done|]. by eapply rtc_l.
  - exists x. split; [by exists n|constructor].
Qed.

Lemma below_doc F x y : forest F -> below F x y -> _document y = _document x.
Proof.
  intros HF. unfold below. induction 1 as [|u v w (n & Hn & Hu) _ IH]; [done|].
  rewrite <- IH. by apply (f_doc _ HF u n).
Qed.

Lemma document_on_top F c d : forest F -> below F c (DocNode d) -> c = DocNode d.
Proof.
  intros HF Hb. unfold below in Hb. remember (DocNode d) as x eqn:Hx. destruct Hb as [|x y z (n & Hn & Hu) _]; [done|].
  subst x. by rewrite (f_root _ HF _ _ Hn) in Hu.
Qed.

(** A document has no node but itself when [_unlinked] is empty and it has no child. *)
Lemma nothing_left F D d B x m : forest F -> books F ∅ D -> D !! d = Some B -> _unlinked B = [] ->
  F !! DocNode d = Some m -> kids m = [] -> is_Some (F !! x) -> _document x = d -> x = DocNode d.
Proof.
  intros HF HB HD Hnil Hm Hk Hx Hd. destruct (root_above F x HF Hx) as (r & Hr & Hb).
  assert (Hrd : _document r = d) by (by rewrite <- (below_doc F r x)).
  destruct r as [d'|d' k i]; cbn in Hrd; subst d'.
  - inversion Hb as [|? ? ? _ _]; subst; [done|]. apply rtc_inv_r in Hb as [->|(z & _ & n & Hn & Hu)]; [done|].
    destruct (f_up _ HF _ _ _ Hn Hu) as (m' & Hm' & Hin). rewrite Hm in Hm'. injection Hm' as <-.
    rewrite Hk in Hin. by apply elem_of_nil in Hin.
  - assert (Hin : Item d k i ∈ _unlinked B).
    { apply (b_unlinked _ _ _ _ (b_book _ _ _ HB d B HD)). by split_and!. }
    rewrite Hnil in Hin. by apply elem_of_nil in Hin.
Qed.

(** What [Clear] leaves of the forest. *)
Definition cleared (d : nat) F F' : Prop := forall x,
  F' !! x = if decide (_document x = d) then (if decide (x = DocNode d) then set_kids [] <$> F !! x else None)
            else F !! x.

(** The nodes of a subtree whose top is in no tree leave [_unlinked] by the top. *)
Lemma unlinked_after F D D' t d B B' : forest F -> books F ∅ D -> D !! d = Some B ->
  subtree F t -> root F (top t) -> top t ∈ _unlinked B ->
  books (cut (addrs t) F) ∅ D' -> D' !! d = Some B' -> _unlinked B ≡ₚ top t :: _unlinked B'.
Proof.
  intros HF HB HD Hsub Hr Hin HB' HD'.
  pose proof (b_book _ _ _ HB d B HD) as [Hu Hnd _ _ _]. pose proof (b_book _ _ _ HB' d B' HD') as [Hu' Hnd' _ _ _].
  assert (Hroot : forall n, root (cut (addrs t) F) n <-> root F n /\ n <> top t).
  { intros n. unfold root at 1. rewrite cut_lookup. case_decide as Hn.
    - split; [by intros (? & ? & _)|]. intros [Hrn Hne].
      pose proof (subtree_below F t n HF Hsub Hn) as Hb. inversion Hb as [|? z ? (a & Ha & Hua) _]; subst; [done|].
      destruct Hrn as (a' & ? & ?). congruence.
    - split; [|by intros [? _]]. intros Hrn. split; [done|]. intros ->. apply Hn, top_addrs. }
  apply NoDup_Permutation; [done| |].
  - constructor; [|done]. rewrite Hu', Hroot. tauto.
  - intros n. rewrite elem_of_cons, Hu, Hu', Hroot. apply Hu in Hin. destruct (decide (n = top t)) as [->|]; tauto.
Qed.

Lemma unlinked_ok rounds : forall h F d B fuel m,
  stands h F ∅ -> docs h !! d = Some B -> (length (_unlinked B) < rounds)%nat -> (2 * size F <= fuel)%nat ->
  F !! DocNode d = Some m -> kids m = [] ->
  exists h' F', delete_unlinked rounds fuel d h = Ret h' /\ stands h' F' ∅ /\ cleared d F F' /\ same_asked h h'.
Proof.
  induction rounds as [|rounds IH]; intros h F d B fuel m Hs HD Hlen Hfuel Hm Hk; [lia|].
  pose proof Hs as [_ HF HB]. cbn -[doc_DeleteNode]. rewrite (get_doc_some h d B HD). cbn -[doc_DeleteNode].
  destruct (_unlinked B) as [|n l] eqn:Hun.
  - exists h, F. split; [done|]. split; [done|]. split; [|done]. intros x. case_decide as Hd; [|done].
    destruct (F !! x) as [a|] eqn:Hx; [|by case_decide].
    rewrite (nothing_left F _ d B x m HF HB HD Hun Hm Hk) in * by (done || by eexists).
    rewrite decide_True by done. cbn. rewrite Hm in Hx. injection Hx as <-. destruct m. cbn in *. by subst.
  - destruct (proj1 (b_unlinked _ _ _ _ (b_book _ _ _ HB d B HD) n)) as (Hnd & Hitem & Hr & _);
      [rewrite Hun; set_solver|].
    destruct Hr as (a & Ha & Hup). destruct (subtree_exists F n a HF Ha) as (t & <- & Hsub).
    assert (Hroot : root F (top t)) by (by exists a).
    destruct (deleted_ok h F t fuel Hs Hsub Hitem) as (h1 & -> & Hs1 & Hask1).
    { pose proof (subtree_size F t HF Hsub). lia. }
    assert (Hlo : loosen (top t) F = F) by (unfold loosen; by rewrite Ha, Hup). rewrite Hlo in Hs1.
    assert (Hdt : DocNode d ∉ addrs t).
    { intros Hin%(subtree_below F t _ HF Hsub)%document_on_top; [|done]. by rewrite Hin in Hitem. }
    assert (Hm1 : cut (addrs t) F !! DocNode d = Some m) by (by rewrite cut_lookup, decide_False).
    destruct (b_doc _ _ _ (s_books _ _ _ Hs1) (DocNode d)) as [B1 HD1]; [by eexists|]. cbn in HD1.
    assert (Hperm : _unlinked B ≡ₚ top t :: _unlinked B1).
    { eapply unlinked_after; try done; [rewrite Hun; set_solver|apply Hs1]. }
    apply Permutation_length in Hperm. rewrite Hun in Hperm. cbn in Hperm, Hlen.
    destruct (IH h1 _ d B1 fuel m Hs1 HD1) as (h' & F' & Hl & Hs' & Hcl & Hask); try done; [lia| |].
    { transitivity (2 * size F)%nat; [|done]. apply Nat.mul_le_mono_l, map_subseteq_size, map_filter_subseteq. }
    cbn -[delete_unlinked] in *. exists h', F'. split; [done|]. split; [done|].
    split; [|by eapply same_asked_trans]. intros x. rewrite Hcl, cut_lookup. destruct (decide (_document x = d)) as [Hd|Hd].
    + destruct (decide (x = DocNode d)) as [->|]; [by rewrite decide_False|done].
    + rewrite decide_False; [done|]. intros Hx. apply Hd. rewrite <- Hnd.
      by eapply below_doc; [|apply subtree_below].
Qed.

Lemma clear_ok h F d B fuel : stands h F ∅ -> docs h !! d = Some B -> (2 * size F + 1 <= fuel)%nat ->
  exists h' F' B', Clear fuel d h = Ret h' /\ stands h' F' ∅ /\ cleared d F F' /\ docs h' !! d = Some B' /\
    same_asked h h'.
Proof.
  intros Hs HD Hfuel. pose proof Hs as [_ HF HB]. destruct (b_self _ _ _ HB d) as [m Hm]; [by eexists|].
  destruct (subtree_exists F _ m HF Hm) as ([a ts] & Ht & Hsub). cbn in Ht. subst a.
  pose proof (subtree_size F _ HF Hsub) as Hsize. inversion Hsub as [? m' ? Hm' Hk Hts]; subst.
  rewrite Hm in Hm'. injection Hm' as <-.
  destruct (children_ok ts) with (F := F) (X := (∅ : gset node)) (h := h) (fuel := fuel) (p := DocNode d) (m := m)
    as (h1 & Hd & Hs1 & Hask1); try done.
  { apply Forall_forall. intros. apply destroy_ok. }
  { unfold weight. cbn in Hsize. lia. }
  pose proof (subtree_nodup F _ HF Hsub) as Hnd. cbn in Hnd. apply NoDup_cons in Hnd as [Hni _].
  set (F1 := alter (set_kids []) (DocNode d) (cut (flat_map addrs ts) F)) in *.
  assert (Hm1 : F1 !! DocNode d = Some (set_kids [] m)).
  { unfold F1. by rewrite lookup_alter_eq, cut_lookup, decide_False, Hm. }
  destruct (b_doc _ _ _ (s_books _ _ _ Hs1) (DocNode d)) as [B1 HD1]; [by eexists|]. cbn in HD1.
  assert (Hle : (2 * size F1 <= fuel)%nat).
  { unfold F1. rewrite <- size_dom, dom_alter_L, size_dom. pose proof (map_subseteq_size _ _ (map_filter_subseteq (fun kv => kv.1 ∉ flat_map addrs ts) F)).
    unfold cut. lia. }
  destruct (unlinked_ok (S (length (_unlinked B1))) h1 F1 d B1 fuel (set_kids [] m) Hs1 HD1) as (h' & F' & Hl & Hs' & Hcl & Hask2); try done; [lia|].
  destruct (b_doc _ _ _ (s_books _ _ _ Hs') (DocNode d)) as [B' HD'].
  { rewrite Hcl. cbn. rewrite !decide_True, Hm1 by done. by eexists. }
  exists h', F', B'. unfold Clear. rewrite Hd. cbn -[delete_unlinked]. rewrite (get_doc_some h1 d B1 HD1).
  cbn -[delete_unlinked]. rewrite Hl. split; [done|]. split; [done|].
  split; [|split; [done|by eapply same_asked_trans]].
  intros x. rewrite Hcl. destruct (decide (_document x = d)) as [Hxd|Hxd].
  - destruct (decide (x = DocNode d)) as [->|]; [|done]. by rewrite Hm1, Hm.
  - unfold F1. rewrite lookup_alter_ne, cut_lookup, decide_False; [done| |by intros <-].
    intros Hx. apply Hxd. apply (below_doc F (DocNode d) x HF). eapply (subtree_below F (Shape (DocNode d) ts)); try done.
    cbn. by apply elem_of_cons; right.
Qed.

(** A pool whose document is cleared. *)
Lemma cleared_pools h F F' d B k : stands h F' ∅ -> cleared d F F' -> docs h !! d = Some B ->
  CurrentAllocs (_pool B k) = 0 /\ Untracked (_pool B k) = 0.
Proof.
  intros [_ HF HB] Hcl HD. pose proof (b_book _ _ _ HB d B HD) as [Hu Hnd Hus Hp Ht].
  assert (Hitem : forall k i, F' !! Item d k i = None).
  { intros k' i. rewrite Hcl. cbn. by rewrite decide_True, decide_False. }
  split.
  - rewrite current_ok by done. replace (used (_pool B k)) with (∅ : gset nat); [done|]. symmetry.
    apply set_eq. intros i. rewrite Hus, Hitem. split; [by intros []|by intros ?%elem_of_empty].
  - rewrite Ht. destruct (_unlinked B) as [|n l] eqn:Hl; [done|]. exfalso.
    destruct (proj1 (Hu n)) as (Hd & Hi & (a & Ha & _) & _); [set_solver|].
    destruct n as [|d' k' i]; [done|]. cbn in Hd. subst d'. by rewrite Hitem in Ha.
Qed.

(** C16. For a heap of documents built through the interface (it stands for a forest,
    with every node that is in no tree on the list [_unlinked]), the deletion of the nodes
    in [Clear] returns and leaves of the document [d] only the document itself, without
    children; the other documents are as before, and each of the three node pools of [d]
    (elements, comments, texts) has no node given out and none untracked, as the assertion
    at the end of [Clear] says.  Not covered: a document that a failed parse left, where the
    parser has deleted nodes it never tracked and the source does not make the assertion;
    the pool of attributes, which [XmlAttributes] models; and the buffer and the error
    fields, which [XmlDocument.Clear] resets. *)
Theorem Clear_frees_document h F d B fuel : stands h F ∅ -> docs h !! d = Some B -> (2 * size F + 1 <= fuel)%nat ->
  exists h' F' B', Clear fuel d h = Ret h' /\ stands h' F' ∅ /\ cleared d F F' /\ docs h' !! d = Some B' /\
    forall k, CurrentAllocs (_pool B' k) = 0 /\ Untracked (_pool B' k) = 0.
Proof.
  intros Hs HD Hfuel. destruct (clear_ok h F d B fuel Hs HD Hfuel) as (h' & F' & B' & Hc & Hs' & Hcl & HD' & _).
  exists h', F', B'. split; [done|]. split; [done|]. split; [done|]. split; [done|].
  intros k. by eapply cleared_pools.
Qed.
End Delete.
