(* ===== verification/XmlClone.v ===== *)
(** * The document tree of tinyxml2: copies

    [DeepClone] builds the copy of a subtree from new nodes while it walks the
    original; [DeepCopy] does so for a whole document.  Theorems: the copy has
    the contents of the original in the same shape, consists of new nodes of the
    target, and the original is as before. *)

From S2P Require Import Prelude XmlPool XmlTree XmlForest XmlTreeProofs XmlDelete.

(** ** Contents of a subtree *)

Inductive xtree := XTree (c : content) (ts : list xtree).

Fixpoint contents (F : forest_map) (t : shape) : xtree :=
  let '(Shape a ts) := t in
  XTree (match F !! a with Some n => what n | None => Document end) (map (contents F) ts).

(** The names of the attributes of an element are different. *)
Definition attributes_ok (c : content) : Prop :=
  match c with Element _ l => NoDup l.*1 | _ => True end.

Lemma contents_same F G t : (forall x, x ∈ addrs t -> what <$> G !! x = what <$> F !! x) -> contents G t = contents F t.
Proof.
  induction t as [a ts IH] using shape_ind'. intros Hsame. cbn.
  assert (Ha : what <$> G !! a = what <$> F !! a) by (apply Hsame; cbn; set_solver).
  f_equal.
  - by destruct (F !! a), (G !! a); cbn in Ha; simplify_eq.
  - apply map_ext_in. intros t Ht. rewrite Forall_forall in IH. apply IH; [by apply list_elem_of_In|].
    intros x Hx. apply Hsame. cbn. apply elem_of_cons. right. apply elem_of_flat_map.
    exists t. split; [by apply list_elem_of_In|done].
Qed.

(** Setting attributes with different names one after the other. *)
Lemma set_attribute_new a v l : a ∉ l.*1 -> set_attribute a v l = l ++ [(a, v)].
Proof.
  induction l as [|[b w] l IH]; cbn; [done|]. rewrite not_elem_of_cons. intros [? ?].
  rewrite decide_False by done. by rewrite IH.
Qed.

Section Clone.
Context {P : Type} `{MemPoolLaws P}.
Implicit Types (h : heap (P := P)) (D : gmap nat (XMLDocument (P := P))) (F : forest_map).

(** ** One node *)

Lemma modify_body F D n a c : F !! n = Some a ->
  modify n (set_body c) (Heap (P := P) (conc F) D) = Ret (Heap (conc (alter (set_what c) n F)) D).
Proof.
  intros Hn. unfold modify. cbn. rewrite conc_lookup, Hn. cbn. do 2 f_equal. apply map_eq. intros x.
  assert (Hs : forall b, siblings (alter (set_what c) n F) b = siblings F b).
  { intros b. unfold siblings. destruct (up b) as [p|]; [|done]. destruct (decide (p = n)) as [->|Hne].
    - rewrite lookup_alter_eq. by destruct (F !! n).
    - by rewrite lookup_alter_ne. }
  rewrite conc_lookup. destruct (decide (x = n)) as [->|Hne].
  - rewrite lookup_insert_eq, lookup_alter_eq, Hn. cbn. unfold pointers. by rewrite Hs.
  - rewrite lookup_insert_ne, lookup_alter_ne, conc_lookup by done. destruct (F !! x); [|done]. cbn.
    unfold pointers. by rewrite Hs.
Qed.

Lemma what_lookup F n c x : alter (set_what c) n F !! x =
  (fun b => ANode (up b) (kids b) (if decide (x = n) then c else what b)) <$> F !! x.
Proof.
  destruct (decide (x = n)) as [->|Hne]; [by rewrite lookup_alter_eq|].
  rewrite lookup_alter_ne by done. by destruct (F !! x) as [[]|].
Qed.

Lemma forest_what F n c : forest F -> forest (alter (set_what c) n F).
Proof.
  intros HF. split.
  - intros x b p. rewrite what_lookup. destruct (F !! x) as [bx|] eqn:Hx; [|done]. intros [= <-]. cbn. intros Hu.
    destruct (f_up _ HF _ _ _ Hx Hu) as (m & Hm & Hin). rewrite what_lookup, Hm. by eexists.
  - intros p m x. rewrite what_lookup. destruct (F !! p) as [mp|] eqn:Hp; [|done]. intros [= <-]. cbn. intros Hin.
    destruct (f_kids _ HF _ _ _ Hp Hin) as (b & Hb & Hu). rewrite what_lookup, Hb. by eexists.
  - intros p m. rewrite what_lookup. destruct (F !! p) as [mp|] eqn:Hp; [|done]. intros [= <-]. cbn. by eapply f_nodup.
  - intros x b p. rewrite what_lookup. destruct (F !! x) as [bx|] eqn:Hx; [|done]. intros [= <-]. cbn. by apply (f_doc _ HF x bx).
  - intros d b. rewrite what_lookup. destruct (F !! DocNode d) as [bx|] eqn:Hx; [|done]. intros [= <-]. cbn. by eapply f_root.
  - intros x. induction (f_acyclic _ HF x) as [x _ IH]. constructor. intros y (b & Hy & Hu). apply IH.
    rewrite what_lookup in Hy. destruct (F !! y) as [b'|] eqn:Hy'; [|done]. injection Hy as <-. by exists b'.
Qed.

(** Changing what a node holds, within its class. *)
Lemma stands_what h F X n a c : stands h F X -> F !! n = Some a -> pool_of c = pool_of (what a) ->
  exists h', modify n (set_body c) h = Ret h' /\ stands h' (alter (set_what c) n F) X /\ docs h' = docs h.
Proof.
  intros [HN HF HB] Hn Hc. destruct h as [N D]. cbn in *. subst N. rewrite (modify_body F D n a) by done.
  assert (Hlive : forall x, is_Some (alter (set_what c) n F !! x) <-> is_Some (F !! x))
    by (intros x; rewrite what_lookup; apply fmap_is_Some).
  assert (Hroot : forall x, root (alter (set_what c) n F) x <-> root F x).
  { intros x. unfold root. rewrite what_lookup. destruct (F !! x) as [b|]; [|naive_solver]. cbn.
    split; intros (b' & [= <-] & Hu); by eexists. }
  eexists. split; [done|]. split; [|done]. split; cbn; [done|by apply forest_what|]. split.
  - intros x. rewrite Hlive. apply (b_doc _ _ _ HB).
  - intros d. rewrite Hlive. apply (b_self _ _ _ HB).
  - intros x b. rewrite what_lookup. destruct (F !! x) as [bx|] eqn:Hx; [|done]. intros [= <-]. cbn.
    case_decide; [subst x|by apply (b_kind _ _ _ HB)]. rewrite Hn in Hx. injection Hx as <-. rewrite Hc.
    by apply (b_kind _ _ _ HB).
  - intros x. rewrite Hroot. apply (b_orphans _ _ _ HB).
  - intros d B HD. eapply book_mono; [by apply (b_book _ _ _ HB)|]. intros x _ _. by rewrite Hlive, Hroot.
Qed.

(** A new node is filled before anyone else sees it. *)
Lemma refill h F n c c' : F !! n = None -> pool_of c' = pool_of c ->
  stands h (<[n := ANode None [] c]> F) ∅ ->
  exists h', modify n (set_body c') h = Ret h' /\ stands h' (<[n := ANode None [] c']> F) ∅ /\ docs h' = docs h.
Proof.
  intros Hn Hc Hs. destruct (stands_what h _ ∅ n (ANode None [] c) c' Hs) as (h' & Hm & Hs' & Hd); [apply lookup_insert_eq|done|].
  rewrite alter_insert_eq in Hs'. eauto.
Qed.

Lemma clone_attributes_ok l : forall h F n name l0,
  F !! n = None -> NoDup (l0 ++ l).*1 -> stands h (<[n := ANode None [] (Element name l0)]> F) ∅ ->
  exists h', clone_attributes n l h = Ret h' /\
    stands h' (<[n := ANode None [] (Element name (l0 ++ l))]> F) ∅ /\ docs h' = docs h.
Proof.
  induction l as [|[a v] l IH]; intros h F n name l0 Hn Hnd Hs; cbn.
  - exists h. by rewrite app_nil_r.
  - unfold SetAttribute, on_attributes. rewrite (get_conc h _ ∅ n _ Hs (lookup_insert_eq _ _ _)). cbn.
    rewrite fmap_app, fmap_cons in Hnd. cbn in Hnd. pose proof Hnd as (Ha & _ & _)%NoDup_middle.
    rewrite set_attribute_new by done.
    destruct (refill h F n (Element name l0) (Element name (l0 ++ [(a, v)])) Hn) as (h1 & -> & Hs1 & Hd1); [done..|].
    cbn. destruct (IH h1 F n name (l0 ++ [(a, v)]) Hn) as (h2 & -> & Hs2 & Hd2); [|done|].
    + by rewrite <- app_assoc, fmap_app.
    + exists h2. rewrite <- app_assoc in Hs2. split; [done|]. split; [done|]. by rewrite Hd2.
Qed.

(** [ShallowClone] gives a new node of the target with the same contents. *)
Lemma shallow_ok h F n a d B : stands h F ∅ -> F !! n = Some a -> ToDocument n = false -> attributes_ok (what a) ->
  docs h !! d = Some B -> (forall k, allocs (_pool B k) < MAX_ELEMENTS) ->
  exists n' h', ShallowClone n d h = Ret (Some n', h') /\ F !! n' = None /\ _document n' = d /\ ToDocument n' = false /\
    stands h' (<[n' := ANode None [] (what a)]> F) ∅ /\
    (forall k, asked (docs h') d k <= asked (docs h) d k + 1).
Proof.
  intros Hs Hn Hitem Hok HD Hroom. unfold ShallowClone. rewrite (get_conc h F ∅ n a Hs Hn). cbn.
  pose proof (b_kind _ _ _ (s_books _ _ _ Hs) n a Hn) as Hkind. destruct n as [|dn kn i]; [done|].
  assert (Hc : forall k c, pool_of c = Some k ->
    exists i h', CreateUnlinkedNode d k c h = Ret (Item d k i, h') /\ F !! Item d k i = None /\
      stands h' (<[Item d k i := ANode None [] c]> F) ∅ /\ (forall k, asked (docs h') d k <= asked (docs h) d k + 1)).
  { intros k c Hk. destruct (create_ok h F d B k c Hs HD Hk (Hroom k)) as (j & h' & ? & ? & ? & Hask).
    exists j, h'. split_and!; try done. intros k'. rewrite Hask. case_decide; lia. }
  destruct (what a) as [|name l|s cdata|s|s|s]; cbn in Hkind; [done|..].
  - destruct (Hc ElementPool (Element name []) eq_refl) as (j & h1 & Hnew & Hj & Hs1 & Hask).
    unfold XMLElement_ShallowClone, NewElement.
    rewrite Hnew. cbn. destruct (clone_attributes_ok l h1 F (Item d ElementPool j) name [] Hj Hok Hs1) as (h2 & -> & Hs2 & Hd2).
    cbn. eexists _, _. split; [done|]. rewrite Hd2. done.
  - destruct (Hc TextPool (Text s false) eq_refl) as (j & h1 & Hnew & Hj & Hs1 & Hask). unfold XMLText_ShallowClone, NewText.
    rewrite Hnew. cbn.
    destruct (refill h1 F (Item d TextPool j) (Text s false) (Text s cdata) Hj eq_refl Hs1) as (h2 & -> & Hs2 & Hd2).
    cbn. eexists _, _. split; [done|]. rewrite Hd2. done.
  - destruct (Hc CommentPool (Comment s) eq_refl) as (j & h1 & Hnew & Hj & Hs1 & Hask).
    unfold XMLComment_ShallowClone, NewComment. rewrite Hnew. by exists (Item d CommentPool j), h1.
  - destruct (Hc CommentPool (Declaration s) eq_refl) as (j & h1 & Hnew & Hj & Hs1 & Hask).
    unfold XMLDeclaration_ShallowClone, NewDeclaration. change (default xml_header (Some s)) with s. rewrite Hnew. by exists (Item d CommentPool j), h1.
  - destruct (Hc CommentPool (Unknown s) eq_refl) as (j & h1 & Hnew & Hj & Hs1 & Hask).
    unfold XMLUnknown_ShallowClone, NewUnknown. rewrite Hnew. by exists (Item d CommentPool j), h1.
Qed.

(** ** Subtrees *)

Lemma DeepClone_eq fuel n d h : DeepClone fuel n d h =
  ('(clone, h) ← ShallowClone n d h;
   match clone with
   | None => Ret (None, h)
   | Some clone => t ← get n h; h ← clone_children fuel (_firstChild t) clone d h; Ret (Some clone, h)
   end).
Proof. done. Qed.
Lemma clone_children_S fuel cur clone d h : clone_children (S fuel) cur clone d h =
  match cur with
  | None => Ret h
  | Some c =>
      '(childClone, h) ← DeepClone fuel c d h;
      childClone ← deref childClone;
      '(_, h) ← InsertEndChild clone childClone h;
      n ← get c h;
      clone_children fuel (_next n) clone d h
  end.
Proof. by destruct cur. Qed.

Definition all_attributes_ok F : Prop := forall x a, F !! x = Some a -> attributes_ok (what a).

(** [t'] is a copy of [t] made of new nodes of the document [d]. *)
Record copied F F' (d : nat) (t t' : shape) : Prop := {
  cp_subtree : subtree F' t';
  cp_new x : x ∈ addrs t' -> F !! x = None;
  cp_doc : _document (top t') = d;
  cp_contents : contents F' t' = contents F t;
}.

Definition clones (t : shape) : Prop := forall h F fuel d,
  stands h F ∅ -> all_attributes_ok F -> subtree F t -> ToDocument (top t) = false -> is_Some (docs h !! d) ->
  (forall k, asked (docs h) d k + Z.of_nat (length (addrs t)) <= MAX_ELEMENTS) -> (2 * length (addrs t) <= fuel)%nat ->
  exists h' F' t', DeepClone fuel (top t) d h = Ret (Some (top t'), h') /\ stands h' F' ∅ /\ all_attributes_ok F' /\
    copied F F' d t t' /\ root F' (top t') /\ ToDocument (top t') = false /\ F ⊆ F' /\
    (forall k, asked (docs h') d k <= asked (docs h) d k + Z.of_nat (length (addrs t))).

(** Appending a new node to the children of [p]. *)
Lemma insert_end_new F p m c n : forest F -> F !! p = Some m -> F !! c = Some n -> up n = None -> c ∉ kids m ->
  insert_end p c F = relink F p c (Some p) (kids m ++ [c]).
Proof.
  intros HF Hm Hn Hu Hni. unfold insert_end, kids_of, loosen. rewrite Hm, Hn, Hu, without_not_in by done. done.
Qed.

(** One round of the loop: the clone [t1] of a child becomes the last child of [p]. *)
Lemma append_ok h F F1 p m t t1 d : stands h F1 ∅ -> all_attributes_ok F1 -> F !! p = Some m -> F ⊆ F1 -> forest F ->
  copied F F1 d t t1 -> root F1 (top t1) -> ToDocument (top t1) = false -> _document p = d ->
  exists h' F2, InsertEndChild p (top t1) h = Ret (Some (top t1), h') /\ stands h' F2 ∅ /\ all_attributes_ok F2 /\
    F2 !! p = Some (set_kids (kids m ++ [top t1]) m) /\ copied F F2 d t t1 /\
    (forall x b, x <> p -> F !! x = Some b -> F2 !! x = Some b) /\
    (forall d k, asked (docs h') d k = asked (docs h) d k).
Proof.
  intros Hs Hat Hm Hsub HF [Hst Hnew Hdoc Hcon] (n & Hn & Hu) Hitem Hpd. pose proof (s_forest _ _ _ Hs) as HF1.
  assert (Hm1 : F1 !! p = Some m) by (by eapply lookup_weaken).
  assert (Hcn : F !! top t1 = None) by (apply Hnew, top_addrs).
  assert (Hpt : p ∉ addrs t1) by (intros Hp; apply Hnew in Hp; congruence).
  assert (Hck : top t1 ∉ kids m).
  { intros Hin. destruct (f_kids _ HF _ _ _ Hm Hin) as (? & ? & _). congruence. }
  destruct (insert_end_ok h F1 p (top t1) Hs) as (h' & Hi & Hs' & Hask).
  { split; [by eexists|by eexists|done|congruence|]. intros Hb. by apply Hpt, (below_addrs F1). }
  rewrite (insert_end_new F1 p m (top t1) n) in Hs' by done.
  set (F2 := relink F1 p (top t1) (Some p) (kids m ++ [top t1])) in *.
  assert (Hl : forall x, x <> p -> x <> top t1 -> F2 !! x = F1 !! x).
  { intros x Hxp Hxc. unfold F2. rewrite relink_lookup. destruct (F1 !! x) as [[]|]; [|done]. cbn.
    by rewrite !decide_False. }
  exists h', F2. split; [done|]. split; [done|]. split; [|split; [|split; [|split]]].
  - intros x a. unfold F2. rewrite relink_lookup. destruct (F1 !! x) as [b|] eqn:Hx; [|done]. intros [= <-]. cbn. eauto.
  - unfold F2. rewrite relink_lookup, Hm1. cbn.
    rewrite (decide_True (P := p = p)), (decide_False (P := p = top t1)); [done| |done]. intros ->. congruence.
  - split; [|done..|].
    + eapply subtree_same; [done|]. intros x Hx. unfold F2. rewrite relink_lookup.
      destruct (F1 !! x); [|done]. cbn. rewrite decide_False; [done|]. by intros ->.
    + rewrite <- Hcon. apply contents_same. intros x Hx. unfold F2. rewrite relink_lookup. by destruct (F1 !! x).
  - intros x b Hxp Hx. rewrite Hl; [by eapply lookup_weaken|done|]. intros ->. congruence.
  - done.
Qed.

(** A copy stays one while other nodes than its own change. *)
Lemma copied_later F F1 F2 d t t' p : copied F F1 d t t' -> p ∉ addrs t' ->
  (forall x b, x <> p -> F1 !! x = Some b -> F2 !! x = Some b) -> copied F F2 d t t'.
Proof.
  intros [Hst Hnew Hdoc Hcon] Hp Hsame.
  assert (Hx : forall x, x ∈ addrs t' -> F2 !! x = F1 !! x).
  { intros x Hx. destruct (subtree_live F1 t' x Hst Hx) as [b Hb]. rewrite Hb. apply Hsame; [|done]. by intros ->. }
  split; [|done|done|].
  - eapply subtree_same; [done|]. intros x Hin. by rewrite Hx.
  - rewrite <- Hcon. apply contents_same. intros x Hin. by rewrite Hx.
Qed.

Lemma copied_earlier F F1 F2 d t t' p : copied F1 F2 d t t' -> subtree F t -> p ∉ addrs t -> is_Some (F1 !! p) ->
  (forall x b, x <> p -> F !! x = Some b -> F1 !! x = Some b) -> copied F F2 d t t'.
Proof.
  intros [Hst Hnew Hdoc Hcon] Ht Hp [mp Hmp] Hsame. split; [done| |done|].
  - intros x Hx%Hnew. destruct (F !! x) as [b|] eqn:Hb; [|done]. destruct (decide (x = p)) as [->|Hne]; [congruence|].
    rewrite (Hsame x b Hne Hb) in Hx. done.
  - rewrite Hcon. apply contents_same. intros x Hx. destruct (subtree_live F t x Ht Hx) as [b Hb].
    rewrite (Hsame x b), Hb; [done| |done]. by intros ->.
Qed.

(** One round of the loop over the children of [a], whose clones are appended to [p]. *)
Lemma round_ok t : clones t -> forall h F fuel d a na pre l p m,
  stands h F ∅ -> all_attributes_ok F -> F !! a = Some na -> kids na = pre ++ top t :: l -> subtree F t ->
  F !! p = Some m -> _document p = d -> p <> a -> p ∉ addrs t ->
  (forall k, asked (docs h) d k + Z.of_nat (length (addrs t)) <= MAX_ELEMENTS) -> (2 * length (addrs t) <= fuel)%nat ->
  exists h2 F2 t1, clone_children (S fuel) (Some (top t)) p d h = clone_children fuel (head l) p d h2 /\
    stands h2 F2 ∅ /\ all_attributes_ok F2 /\ F2 !! p = Some (set_kids (kids m ++ [top t1]) m) /\
    copied F F2 d t t1 /\ (forall x b, x <> p -> F !! x = Some b -> F2 !! x = Some b) /\
    (forall k, asked (docs h2) d k <= asked (docs h) d k + Z.of_nat (length (addrs t))).
Proof.
  intros Ht h F fuel d a na pre l p m Hs Hat Ha Hk Hsubt Hm Hpd Hpa Hpt Hroom Hfuel.
  pose proof (s_forest _ _ _ Hs) as HF. pose proof (f_nodup _ HF _ _ Ha) as Hnd. rewrite Hk in Hnd.
  destruct (f_kids _ HF a na (top t) Ha) as (nt & Hnt & Hut); [rewrite Hk; set_solver|].
  assert (Hdoc : is_Some (docs h !! d)) by (rewrite <- Hpd; apply (b_doc _ _ _ (s_books _ _ _ Hs)); by eexists).
  assert (Hitem : ToDocument (top t) = false).
  { destruct (top t) as [dd|] eqn:Htop; [|done]. by rewrite (f_root _ HF _ _ Hnt) in Hut. }
  destruct (Ht h F fuel d Hs Hat Hsubt Hitem Hdoc Hroom Hfuel)
    as (h1 & F1 & t1 & Hd & Hs1 & Hat1 & Hcp & Hr1 & Hi1 & Hsub1 & Hask1).
  destruct (append_ok h1 F F1 p m t t1 d Hs1 Hat1 Hm Hsub1 HF Hcp Hr1 Hi1 Hpd)
    as (h2 & F2 & Hi & Hs2 & Hat2 & Hm2 & Hcp2 & Hsame2 & Hask2).
  exists h2, F2, t1. split.
  - rewrite clone_children_S, Hd. cbn -[clone_children InsertEndChild]. rewrite Hi. cbn -[clone_children].
    assert (Hnt2 : F2 !! top t = Some nt) by (apply Hsame2; [intros <-; apply Hpt, top_addrs|done]).
    rewrite (get_conc h2 F2 ∅ (top t) nt Hs2 Hnt2). cbn -[clone_children]. unfold siblings.
    rewrite Hut, (Hsame2 a na), Hk by done. apply NoDup_middle in Hnd as (? & _ & _). by rewrite after_here.
  - split; [done|]. split; [done|]. split; [done|]. split; [done|]. split; [done|]. intros k. by rewrite Hask2.
Qed.

(** The whole loop. *)
Definition loop_copies F F' (d : nat) (p : node) (m : anode) (ts ts' : list shape) : Prop :=
  F' !! p = Some (set_kids (kids m ++ map top ts') m) /\ Forall2 (copied F F' d) ts ts' /\
  (forall x b, x <> p -> F !! x = Some b -> F' !! x = Some b).

Lemma loop_ok ts : Forall clones ts -> forall h F fuel d a na pre p m,
  stands h F ∅ -> all_attributes_ok F -> F !! a = Some na -> kids na = pre ++ map top ts -> Forall (subtree F) ts ->
  F !! p = Some m -> _document p = d -> p <> a -> p ∉ flat_map addrs ts ->
  (forall k, asked (docs h) d k + Z.of_nat (weight ts) <= MAX_ELEMENTS) -> (2 * weight ts + 1 <= fuel)%nat ->
  exists h' F' ts', clone_children fuel (head (map top ts)) p d h = Ret h' /\ stands h' F' ∅ /\
    all_attributes_ok F' /\ loop_copies F F' d p m ts ts' /\
    (forall k, asked (docs h') d k <= asked (docs h) d k + Z.of_nat (weight ts)).
Proof.
  induction 1 as [|t ts Ht Hts IH]; intros h F fuel d a na pre p m Hs Hat Ha Hk Hsub Hm Hpd Hpa Hp Hroom Hfuel;
    (destruct fuel as [|fuel]; [lia|]).
  - exists h, F, []. split; [done|]. split; [done|]. split; [done|]. split.
    + split; [|split; [constructor|done]]. cbn. rewrite app_nil_r, Hm. by destruct m.
    + intros k. unfold weight. cbn. lia.
  - apply Forall_cons in Hsub as [Hsubt Hsub]. unfold weight in *. cbn -[Nat.mul] in Hfuel, Hroom, Hp, Hk.
    pose proof (addrs_pos t). rewrite length_app in *. apply not_elem_of_app in Hp as [Hpt Hp].
    destruct (round_ok t Ht h F fuel d a na pre (map top ts) p m Hs Hat Ha Hk Hsubt Hm Hpd Hpa Hpt)
      as (h2 & F2 & t1 & Hr & Hs2 & Hat2 & Hm2 & Hcp2 & Hsame2 & Hask2); [intros k; specialize (Hroom k); lia|lia|].
    assert (Hpts : forall t', t' ∈ ts -> p ∉ addrs t').
    { intros t' Hin Hp'. apply Hp, elem_of_flat_map. eauto. }
    assert (Hsub2 : Forall (subtree F2) ts).
    { rewrite Forall_forall in *. intros t' Hin. eapply subtree_same; [by apply Hsub|]. intros x Hx.
      destruct (subtree_live F t' x (Hsub t' Hin) Hx) as [b Hb]. rewrite (Hsame2 x b), Hb; [done| |done].
      intros ->. by eapply Hpts. }
    destruct (IH h2 F2 fuel d a na (pre ++ [top t]) p (set_kids (kids m ++ [top t1]) m) Hs2 Hat2)
      as (h3 & F3 & ts' & Hl & Hs3 & Hat3 & (Hm3 & Hcp3 & Hsame3) & Hask3); try done.
    { by apply Hsame2. }
    { by rewrite <- app_assoc. }
    { intros k. specialize (Hroom k). specialize (Hask2 k). lia. }
    { lia. }
    exists h3, F3, (t1 :: ts'). cbn [map head]. rewrite Hr, Hl. split; [done|]. split; [done|]. split; [done|]. split.
    + split; [|split].
      * rewrite Hm3. cbn. by rewrite <- app_assoc.
      * constructor.
        { eapply (copied_later F F2 F3); try done. intros Hp'. apply (cp_new _ _ _ _ _ Hcp2) in Hp'. congruence. }
        { clear -Hcp3 Hsub Hpts Hm2 Hsame2. induction Hcp3 as [|t' t'' ts ts' Hc _ IH]; constructor.
          - apply Forall_cons in Hsub as [? _]. eapply (copied_earlier F F2 F3); [done|done| |by eexists|done].
            apply Hpts. set_solver.
          - apply Forall_cons in Hsub as [_ ?]. apply IH; [done|]. intros t0 Hin. apply Hpts. set_solver. }
      * intros x b Hxp Hx. apply Hsame3; [done|]. by apply Hsame2.
    + intros k. specialize (Hask2 k). specialize (Hask3 k). cbn. rewrite length_app. lia.
Qed.

(** What the copies of the children make of the copy of the node. *)
Lemma copied_node F F' d a n ts ts' p : Forall2 (copied F F' d) ts ts' -> F !! a = Some n -> F !! p = None ->
  F' !! p = Some (ANode None (map top ts') (what n)) -> _document p = d ->
  copied F F' d (Shape a ts) (Shape p ts').
Proof.
  intros Hcp Ha Hp Hp' Hd. split; [| |done|].
  - econstructor; [done|done|]. clear -Hcp. induction Hcp as [|t t' ts ts' [? _ _ _] _ IH]; by constructor.
  - cbn. intros x [->|Hx]%elem_of_cons; [done|]. clear -Hcp Hx.
    induction Hcp as [|t t' ts ts' [_ Hnew _ _] _ IH]; cbn in Hx; [by apply elem_of_nil in Hx|].
    apply elem_of_app in Hx as [Hx|Hx]; auto.
  - cbn. rewrite Ha, Hp'. cbn. f_equal. clear -Hcp.
    induction Hcp as [|t t' ts ts' [_ _ _ Hcon] _ IH]; cbn; [done|]. by rewrite Hcon, IH.
Qed.

Lemma clone_ok t : clones t.
Proof.
  induction t as [a ts IH] using shape_ind'. intros h F fuel d Hs Hat Hsub Hitem [B HD] Hroom Hfuel.
  pose proof (s_forest _ _ _ Hs) as HF. pose proof (subtree_nodup F _ HF Hsub) as Hnd.
  inversion Hsub as [? n ? Hn Hk Hts]; subst. cbn [top addrs length] in *.
  rewrite DeepClone_eq.
  destruct (shallow_ok h F a n d B Hs Hn Hitem (Hat _ _ Hn) HD) as (p & h1 & -> & Hp & Hpd & Hpi & Hs1 & Hask1).
  { intros k. specialize (Hroom k). unfold asked in Hroom. rewrite HD in Hroom. lia. }
  cbn -[clone_children]. set (F1 := <[p := ANode None [] (what n)]> F) in *.
  assert (Hsame : forall x b, F !! x = Some b -> F1 !! x = Some b).
  { intros x b Hx. unfold F1. rewrite lookup_insert_ne; [done|]. congruence. }
  assert (Hlive : forall x, x ∈ flat_map addrs ts -> x <> p).
  { intros x Hx ->. destruct (subtree_live F _ p Hsub) as [b Hb]; [cbn; set_solver|congruence]. }
  rewrite (get_conc h1 F1 ∅ a n Hs1 (Hsame _ _ Hn)). cbn -[clone_children]. rewrite Hk.
  destruct (loop_ok ts IH h1 F1 fuel d a n [] p (ANode None [] (what n)) Hs1)
    as (h2 & F2 & ts' & Hl & Hs2 & Hat2 & (Hp2 & Hcp & Hsame2) & Hask2); try done.
  { intros x b [[<- <-]|[_ Hx]]%lookup_insert_Some; [by apply (Hat _ _ Hn)|by eapply Hat]. }
  { by apply Hsame. }
  { rewrite Forall_forall in *. intros t Hin. eapply subtree_same; [by apply Hts|]. intros x Hx.
    destruct (subtree_live F t x (Hts t Hin) Hx) as [b Hb]. by rewrite (Hsame x b), Hb. }
  { apply lookup_insert_eq. }
  { congruence. }
  { intros Hin. by apply (Hlive p). }
  { intros k. specialize (Hroom k). specialize (Hask1 k). unfold weight. lia. }
  { unfold weight. lia. }
  rewrite Hl. cbn. exists h2, F2, (Shape p ts'). split; [done|]. split; [done|]. split; [done|].
  cbn in Hp2. split.
  { eapply copied_node; try done. clear -Hcp Hp Hsame Hts Hlive.
    induction Hcp as [|t t' ts ts' Hc _ IHc]; constructor; apply Forall_cons in Hts as [? ?].
    - eapply (copied_earlier F F1 F2 d t t' p); try done.
      + intros Hin. apply (Hlive p); [cbn; set_solver|done].
      + unfold F1. rewrite lookup_insert_eq. by eexists.
      + intros x b _. apply Hsame.
    - apply IHc; [done|]. intros x Hx. apply Hlive. cbn. set_solver. }
  split; [by eexists|]. split; [done|]. split.
  { apply map_subseteq_spec. intros x b Hx. apply Hsame2; [congruence|]. by apply Hsame. }
  intros k. specialize (Hask1 k). specialize (Hask2 k). unfold weight in Hask2. lia.
Qed.

(** ** Documents *)

Lemma deep_copy_ok h F this target B ts fuel :
  stands h F ∅ -> all_attributes_ok F -> this <> target -> docs h !! target = Some B ->
  subtree F (Shape (DocNode this) ts) ->
  (forall k, asked (docs h) target k + Z.of_nat (weight ts) <= MAX_ELEMENTS) -> (2 * size F + 1 <= fuel)%nat ->
  exists h' F' ts', DeepCopy fuel this target h = Ret h' /\ stands h' F' ∅ /\
    subtree F' (Shape (DocNode target) ts') /\ map (contents F') ts' = map (contents F) ts /\
    (forall x b, _document x <> target -> F !! x = Some b -> F' !! x = Some b).
Proof.
  intros Hs Hat Hne HD Hsub Hroom Hfuel. pose proof (s_forest _ _ _ Hs) as HF.
  pose proof (subtree_size F _ HF Hsub) as Hsize. cbn in Hsize.
  destruct (clear_ok h F target B fuel Hs HD Hfuel) as (h1 & F1 & B1 & Hc & Hs1 & Hcl & HD1 & Hask1).
  unfold DeepCopy. rewrite (proj2 (Nat.eqb_neq _ _)) by done. rewrite Hc. cbn -[clone_children].
  assert (Hother : forall x, _document x <> target -> F1 !! x = F !! x).
  { intros x Hx. rewrite Hcl. by rewrite decide_False. }
  assert (Hin : forall x, x ∈ flat_map addrs ts -> _document x = this).
  { intros x Hx. apply (below_doc F (DocNode this) x HF), (subtree_below F (Shape (DocNode this) ts)); try done.
    cbn. by apply elem_of_cons; right. }
  inversion Hsub as [? n ? Hn Hk Hts]; subst.
  assert (Hn1 : F1 !! DocNode this = Some n) by (by rewrite Hother).
  rewrite (get_conc h1 F1 ∅ _ n Hs1 Hn1). cbn -[clone_children]. rewrite Hk.
  destruct (b_self _ _ _ (s_books _ _ _ Hs) target) as [m Hm]; [by eexists|].
  assert (Hm1 : F1 !! DocNode target = Some (set_kids [] m)) by (rewrite Hcl; cbn; by rewrite !decide_True, Hm).
  assert (Hx : forall x t, t ∈ ts -> x ∈ addrs t -> F1 !! x = F !! x).
  { intros x t Ht Hx. apply Hother. rewrite Hin by (apply elem_of_flat_map; eauto). done. }
  destruct (loop_ok ts) with (h := h1) (F := F1) (fuel := fuel) (d := target) (a := DocNode this) (na := n)
    (pre := @nil node) (p := DocNode target) (m := set_kids [] m) as (h2 & F2 & ts' & Hl & Hs2 & _ & (Hp2 & Hcp & Hsame2) & _); try done.
  { apply Forall_forall. intros. apply clone_ok. }
  { intros x a. rewrite Hcl. repeat case_decide; try done; [|by eauto]. destruct (F !! x) eqn:E; [|done].
    intros [= <-]. cbn. by eapply Hat. }
  { rewrite Forall_forall in *. intros t Ht. eapply subtree_same; [by apply Hts|]. intros x Hxt. by rewrite (Hx x t). }
  { congruence. }
  { intros Hd%Hin. cbn in Hd. congruence. }
  { intros k. by rewrite Hask1. }
  { unfold weight. lia. }
  exists h2, F2, ts'. split; [done|]. split; [done|]. cbn in Hp2. split; [|split].
  - econstructor; [done|done|]. clear -Hcp. induction Hcp as [|t t' ts ts' [? _ _ _] _ IH]; by constructor.
  - clear -Hcp Hx. induction Hcp as [|t t' ts ts' [_ _ _ Hcon] _ IH]; cbn; [done|]. rewrite Hcon, IH.
    + f_equal. apply contents_same. intros x Hxt. rewrite (Hx x t); [done|set_solver|done].
    + intros x t0 Ht0. apply Hx. set_solver.
  - intros x b Hxd Hxb. apply Hsame2; [by intros ->|]. by rewrite Hother.
Qed.

(** C23. [DeepCopy] always returns, and then the target has copies of the children of
    this document, equal in shape and contents and made of nodes of its own; every
    other document is as before. *)
Theorem DeepCopy_copies h F this target B ts fuel :
  stands h F ∅ -> all_attributes_ok F -> this <> target -> docs h !! target = Some B ->
  subtree F (Shape (DocNode this) ts) ->
  (forall k, asked (docs h) target k + Z.of_nat (weight ts) <= MAX_ELEMENTS) -> (2 * size F + 1 <= fuel)%nat ->
  exists h' F' ts', DeepCopy fuel this target h = Ret h' /\ stands h' F' ∅ /\
    subtree F' (Shape (DocNode target) ts') /\ map (contents F') ts' = map (contents F) ts /\
    (forall x b, _document x <> target -> F !! x = Some b -> F' !! x = Some b).
Proof. apply deep_copy_ok. Qed.

End Clone.
