(* ===== verification/XmlClient.v ===== *)
(** * Users of a tinyxml2 document

    The calls by which a program builds, changes and takes apart documents, in any
    order.  [legal] is what the caller has to see to: nodes that are alive, and no node
    below itself.  Theorem: a legal call is defined, whatever was done before, and does
    to the forest what [forest_step] says, so no sequence of legal calls uses a node that is
    gone, and each leaves documents that can be used again. *)

From S2P Require Import Prelude XmlPool XmlTree XmlForest XmlTreeProofs XmlDelete XmlClone.

Inductive tree_call :=
| CNewElement (d : nat) (name : list Z)
| CNewText (d : nat) (s : list Z)
| CNewComment (d : nat) (s : list Z)
| CNewDeclaration (d : nat) (s : option (list Z))
| CNewUnknown (d : nat) (s : list Z)
| CInsertEnd (this addThis : node)
| CInsertFirst (this addThis : node)
| CInsertAfter (this afterThis addThis : node)
| CSetAttribute (this : node) (name value : list Z)
| CDeleteAttribute (this : node) (name : list Z)
| CSetValue (this : node) (s : list Z)
| CDeleteChildren (this : node)
| CDeleteNode (n : node)
| CClear (d : nat)
| CDeepClone (n : node) (d : nat).

Section Client.
Context {P : Type} `{MemPoolLaws P}.
Implicit Types (h : heap (P := P)) (F : forest_map).

(** Recursion is never deeper than this, see [children_ok] and [clone_ok]. *)
Definition enough h : nat := S (2 * size (nodes h)).

Definition some_node (r : ub (node * heap (P := P))) : ub (option node * heap) := '(n, h) ← r; Ret (Some n, h).
Definition no_node (r : ub (heap (P := P))) : ub (option node * heap) := h ← r; Ret (None, h).

Definition run_call (c : tree_call) h : ub (option node * heap) :=
  match c with
  | CNewElement d s => some_node (NewElement d s h)
  | CNewText d s => some_node (NewText d s h)
  | CNewComment d s => some_node (NewComment d s h)
  | CNewDeclaration d s => some_node (NewDeclaration d s h)
  | CNewUnknown d s => some_node (NewUnknown d s h)
  | CInsertEnd p c => InsertEndChild p c h
  | CInsertFirst p c => InsertFirstChild p c h
  | CInsertAfter p a c => InsertAfterChild p a c h
  | CSetAttribute n a v => no_node (SetAttribute n a v h)
  | CDeleteAttribute n a => no_node (DeleteAttribute n a h)
  | CSetValue n s => no_node (SetValue n s h)
  | CDeleteChildren p => no_node (DeleteChildren (enough h) p h)
  | CDeleteNode n => no_node (doc_DeleteNode (enough h) n h)
  | CClear d => no_node (Clear (enough h) d h)
  | CDeepClone n d => DeepClone (enough h) n d h
  end.

(** What a new node holds. *)
Definition new_content (c : tree_call) : option (nat * content) :=
  match c with
  | CNewElement d s => Some (d, Element s [])
  | CNewText d s => Some (d, Text s false)
  | CNewComment d s => Some (d, Comment s)
  | CNewDeclaration d s => Some (d, Declaration (default xml_header s))
  | CNewUnknown d s => Some (d, Unknown s)
  | _ => None
  end.

(** What a change of one node makes of what it holds. *)
Definition changed (c : tree_call) (w : content) : option (node * content) :=
  match c, w with
  | CSetAttribute n a v, Element name l => Some (n, Element name (set_attribute a v l))
  | CDeleteAttribute n a, Element name l => Some (n, Element name (delete_attribute a l))
  | CSetValue n s, Element _ l => Some (n, Element s l)
  | CSetValue n s, Text _ cdata => Some (n, Text s cdata)
  | CSetValue n s, Comment _ => Some (n, Comment s)
  | CSetValue n s, Declaration _ => Some (n, Declaration s)
  | CSetValue n s, Unknown _ => Some (n, Unknown s)
  | _, _ => None
  end.

(** The promise: what a call does to the forest, and the node it returns. *)
Inductive forest_step F : tree_call -> option node -> forest_map -> Prop :=
| step_new c d w n : new_content c = Some (d, w) -> F !! n = None -> _document n = d -> ToDocument n = false ->
    forest_step F c (Some n) (<[n := ANode None [] w]> F)
| step_end p c : forest_step F (CInsertEnd p c) (Some c) (insert_end p c F)
| step_first p c : forest_step F (CInsertFirst p c) (Some c) (insert_first p c F)
| step_after p a c : a <> c -> forest_step F (CInsertAfter p a c) (Some c) (insert_after p a c F)
| step_same p c : forest_step F (CInsertAfter p c c) (Some c) F
| step_change c n a w : F !! n = Some a -> changed c (what a) = Some (n, w) ->
    forest_step F c None (alter (set_what w) n F)
| step_children p m ts : F !! p = Some m -> kids m = map top ts -> Forall (subtree F) ts ->
    forest_step F (CDeleteChildren p) None (alter (set_kids []) p (cut (flat_map addrs ts) F))
| step_delete t : subtree F t ->
    forest_step F (CDeleteNode (top t)) None (cut (addrs t) (loosen (top t) F))
| step_clear d F' : cleared d F F' -> forest_step F (CClear d) None F'
| step_clone t d t' F' : subtree F t -> copied F F' d t t' -> root F' (top t') -> F ⊆ F' ->
    forest_step F (CDeepClone (top t) d) (Some (top t')) F'.

(** What the caller sees to; [MAX_ELEMENTS] bounds the calls to a pool. *)
Definition legal h F (c : tree_call) : Prop :=
  match c with
  | CNewElement d _ | CNewText d _ | CNewComment d _ | CNewDeclaration d _ | CNewUnknown d _ =>
      is_Some (docs h !! d) /\ forall k, asked (docs h) d k < MAX_ELEMENTS
  | CInsertEnd p c | CInsertFirst p c => may_insert F p c
  | CInsertAfter p a c =>
      may_insert F p c /\ (exists na, F !! a = Some na /\ up na = Some p) /\ ~ follows_last F p a c
  | CSetAttribute n _ _ | CDeleteAttribute n _ => exists a s l, F !! n = Some a /\ what a = Element s l
  | CSetValue n _ | CDeleteNode n => is_Some (F !! n) /\ ToDocument n = false
  | CDeleteChildren p => is_Some (F !! p)
  | CClear d => is_Some (docs h !! d)
  | CDeepClone n d =>
      is_Some (F !! n) /\ ToDocument n = false /\ is_Some (docs h !! d) /\
      forall k, asked (docs h) d k + Z.of_nat (size F) <= MAX_ELEMENTS
  end.

(** The invariant of a program that keeps to this. *)
Definition sound h F : Prop := stands h F ∅ /\ all_attributes_ok F.

(** *** Attributes stay different *)

Lemma set_attribute_names a v l x : x ∈ (set_attribute a v l).*1 <-> x = a \/ x ∈ l.*1.
Proof.
  induction l as [|[b w] l IH]; cbn; [set_solver|]. case_decide; cbn; rewrite ?elem_of_cons, ?IH; naive_solver.
Qed.
Lemma set_attribute_nodup a v l : NoDup l.*1 -> NoDup (set_attribute a v l).*1.
Proof.
  induction l as [|[b w] l IH]; cbn; intros Hnd; [apply NoDup_singleton|].
  apply NoDup_cons in Hnd as [Hb Hnd]. case_decide; cbn; apply NoDup_cons; (split; [|by auto]).
  - congruence.
  - rewrite set_attribute_names. naive_solver.
Qed.
Lemma delete_attribute_nodup a l : NoDup l.*1 ->
  NoDup (delete_attribute a l).*1 /\ forall x, x ∈ (delete_attribute a l).*1 -> x ∈ l.*1.
Proof.
  induction l as [|[b w] l IH]; cbn; intros Hnd; [done|]. apply NoDup_cons in Hnd as [Hb Hnd].
  destruct (IH Hnd) as [Hnd' Hsub]. case_decide; cbn; [set_solver|]. rewrite NoDup_cons. set_solver.
Qed.

Lemma changed_ok c w n w' : changed c w = Some (n, w') -> attributes_ok w -> pool_of w' = pool_of w /\ attributes_ok w'.
Proof.
  intros Hc Hok. destruct c, w; cbn in Hc; simplify_eq; cbn in *; split; try done.
  - by apply set_attribute_nodup.
  - by apply delete_attribute_nodup.
Qed.

Definition same_whats F F' : Prop := forall x b, F' !! x = Some b -> exists a, F !! x = Some a /\ what b = what a.
Lemma same_whats_ok F F' : same_whats F F' -> all_attributes_ok F -> all_attributes_ok F'.
Proof. intros Hw Hok x b Hb. destruct (Hw x b Hb) as (a & Ha & ->). eauto. Qed.
Lemma same_whats_trans F G K : same_whats F G -> same_whats G K -> same_whats F K.
Proof.
  intros H1 H2 x b Hb. destruct (H2 x b Hb) as (a & Ha & ->). destruct (H1 x a Ha) as (a' & ? & ?). eauto.
Qed.
Lemma relink_whats F p c v l : same_whats F (relink F p c v l).
Proof. intros x b. rewrite relink_lookup. destruct (F !! x) as [a|]; [|done]. intros [= <-]. eauto. Qed.
Lemma loosen_whats F c : forest F -> same_whats F (loosen c F).
Proof. intros HF x b. rewrite loosen_lookup by done. destruct (F !! x) as [a|]; [|done]. intros [= <-]. eauto. Qed.
Lemma cut_whats F l : same_whats F (cut l F).
Proof. intros x b. rewrite cut_lookup. case_decide; [done|]. eauto. Qed.
Lemma kids_whats F p l : same_whats F (alter (set_kids l) p F).
Proof.
  intros x b. destruct (decide (x = p)) as [->|]; [|rewrite lookup_alter_ne by done; eauto].
  rewrite lookup_alter_eq. destruct (F !! p) as [a|]; [|done]. intros [= <-]. eauto.
Qed.
Lemma cleared_whats d F F' : cleared d F F' -> same_whats F F'.
Proof.
  intros Hcl x b. rewrite Hcl. repeat case_decide; try done; [|eauto]. destruct (F !! x) as [a|]; [|done].
  intros [= <-]. eauto.
Qed.

Lemma enough_size h F X : stands h F X -> enough h = S (2 * size F).
Proof.
  intros [HN _ _]. unfold enough. rewrite HN, <- !size_dom. do 3 f_equal.
  apply set_eq. intros x. rewrite !elem_of_dom, conc_lookup. apply fmap_is_Some.
Qed.

(** *** The calls *)

Definition refined h F (c : tree_call) : Prop :=
  exists r h' F', run_call c h = Ret (r, h') /\ forest_step F c r F' /\ sound h' F'.

Lemma new_refined h F c d w k : sound h F -> new_content c = Some (d, w) -> pool_of w = Some k -> attributes_ok w ->
  run_call c h = some_node (CreateUnlinkedNode d k w h) -> is_Some (docs h !! d) ->
  (forall k, asked (docs h) d k < MAX_ELEMENTS) -> refined h F c.
Proof.
  intros [Hs Hok] Hc Hk Hw Hrun [B HD] Hroom.
  destruct (create_ok h F d B k w Hs HD Hk) as (i & h' & Hnew & Hn & Hs' & _).
  { specialize (Hroom k). unfold asked in Hroom. by rewrite HD in Hroom. }
  exists (Some (Item d k i)), h', (<[Item d k i := ANode None [] w]> F). rewrite Hrun, Hnew. split; [done|].
  split; [by econstructor|]. split; [done|].
  intros x a [[<- <-]|[_ Hx]]%lookup_insert_Some; [done|by eapply Hok].
Qed.

Lemma insert_refined h F c x : sound h F -> forall p l, forest_step F c (Some x) (hook p x l (loosen x F)) ->
  (exists h', run_call c h = Ret (Some x, h') /\ stands h' (hook p x l (loosen x F)) ∅) -> refined h F c.
Proof.
  intros [Hs Hok] p l Hstep (h' & Hrun & Hs'). exists (Some x), h', (hook p x l (loosen x F)).
  split; [done|]. split; [done|]. split; [done|]. eapply same_whats_ok; [|done].
  eapply same_whats_trans; [apply loosen_whats, Hs|apply relink_whats].
Qed.

Lemma change_refined h F c n a w : sound h F -> F !! n = Some a -> changed c (what a) = Some (n, w) ->
  run_call c h = no_node (modify n (set_body w) h) -> refined h F c.
Proof.
  intros [Hs Hok] Hn Hc Hrun. destruct (changed_ok _ _ _ _ Hc (Hok _ _ Hn)) as [Hp Hw].
  destruct (stands_what h F ∅ n a w Hs Hn Hp) as (h' & Hm & Hs' & _).
  exists None, h', (alter (set_what w) n F). rewrite Hrun, Hm. split; [done|]. split; [by eapply step_change|].
  split; [done|]. intros x b. rewrite what_lookup. destruct (F !! x) as [b'|] eqn:Hx; [|done]. intros [= <-]. cbn.
  case_decide; [done|by eapply Hok].
Qed.

Lemma delete_refined h F c F' : sound h F -> forest_step F c None F' -> same_whats F F' ->
  (exists h', run_call c h = Ret (None, h') /\ stands h' F' ∅) -> refined h F c.
Proof.
  intros [Hs Hok] Hstep Hw (h' & Hrun & Hs'). exists None, h', F'. split; [done|]. split; [done|].
  split; [done|]. by eapply same_whats_ok.
Qed.

Lemma attributes_refined h F c n a s l f : sound h F -> F !! n = Some a -> what a = Element s l ->
  run_call c h = no_node (on_attributes n f h) -> changed c (Element s l) = Some (n, Element s (f l)) -> refined h F c.
Proof.
  intros Hso Hn Hw Hrun Hc. eapply (change_refined h F c n a); [done|done|by rewrite Hw|].
  rewrite Hrun. unfold on_attributes. rewrite (get_conc h F ∅ n a (proj1 Hso) Hn). cbn. by rewrite Hw.
Qed.

Lemma value_refined h F n a s : sound h F -> F !! n = Some a -> ToDocument n = false -> refined h F (CSetValue n s).
Proof.
  intros Hso Hn Hitem. pose proof (b_kind _ _ _ (s_books _ _ _ (proj1 Hso)) n a Hn) as Hk.
  assert (Hrun : forall w, changed (CSetValue n s) (what a) = Some (n, w) ->
    run_call (CSetValue n s) h = no_node (modify n (set_body w) h)).
  { intros w Hc. cbn. unfold SetValue, modify. rewrite (s_nodes _ _ _ (proj1 Hso)), conc_lookup, Hn. cbn.
    unfold pointers, set_body. cbn. destruct (what a); cbn in Hc; simplify_eq; done. }
  destruct n as [|d k i]; [done|]. destruct (what a) eqn:Hw; cbn in Hk; [done|..];
    (eapply change_refined; [done|done|by rewrite Hw|apply Hrun; done]).
Qed.

Lemma children_refined h F p : sound h F -> is_Some (F !! p) -> refined h F (CDeleteChildren p).
Proof.
  intros Hso [m Hm]. pose proof Hso as [Hs _]. pose proof (s_forest _ _ _ Hs) as HF.
  destruct (subtree_exists F p m HF Hm) as ([a ts] & Ht & Hsub). cbn in Ht. subst a.
  pose proof (subtree_size F _ HF Hsub) as Hsize. inversion Hsub as [? m' ? Hm' Hk Hts]; subst.
  rewrite Hm in Hm'. injection Hm' as <-.
  eapply delete_refined; [done|by econstructor|eapply same_whats_trans; [apply cut_whats|apply kids_whats]|].
  destruct (children_ok ts) with (F := F) (X := (∅ : gset node)) (h := h) (fuel := enough h) (p := p) (m := m)
    as (h1 & Hd & Hs1 & _); try done.
  - apply Forall_forall. intros. apply destroy_ok.
  - rewrite (enough_size h F ∅ Hs). unfold weight. cbn in Hsize. lia.
  - exists h1. unfold run_call, no_node. rewrite Hd. done.
Qed.

Lemma node_refined h F n : sound h F -> is_Some (F !! n) -> ToDocument n = false -> refined h F (CDeleteNode n).
Proof.
  intros Hso [a Ha] Hitem. pose proof Hso as [Hs _]. pose proof (s_forest _ _ _ Hs) as HF.
  destruct (subtree_exists F n a HF Ha) as (t & <- & Hsub). pose proof (subtree_size F t HF Hsub).
  eapply delete_refined; [done|by econstructor|eapply same_whats_trans; [by apply loosen_whats|apply cut_whats]|].
  destruct (deleted_ok h F t (enough h) Hs Hsub Hitem) as (h' & Hd & Hs' & _).
  - rewrite (enough_size h F ∅ Hs). lia.
  - exists h'. unfold run_call, no_node. rewrite Hd. done.
Qed.

Lemma clear_refined h F d : sound h F -> is_Some (docs h !! d) -> refined h F (CClear d).
Proof.
  intros Hso [B HD]. pose proof Hso as [Hs _].
  destruct (clear_ok h F d B (enough h) Hs HD) as (h' & F' & B' & Hc & Hs' & Hcl & _).
  - rewrite (enough_size h F ∅ Hs). lia.
  - eapply (delete_refined h F _ F'); [done|by constructor|by eapply cleared_whats|].
    exists h'. unfold run_call, no_node. rewrite Hc. done.
Qed.

Lemma clone_refined h F n d : sound h F -> is_Some (F !! n) -> ToDocument n = false -> is_Some (docs h !! d) ->
  (forall k, asked (docs h) d k + Z.of_nat (size F) <= MAX_ELEMENTS) -> refined h F (CDeepClone n d).
Proof.
  intros [Hs Hok] [a Ha] Hitem HD Hroom. pose proof (s_forest _ _ _ Hs) as HF.
  destruct (subtree_exists F n a HF Ha) as (t & <- & Hsub). pose proof (subtree_size F t HF Hsub) as Hsize.
  destruct (clone_ok t h F (enough h) d Hs Hok Hsub Hitem HD) as (h' & F' & t' & Hd & Hs' & Hok' & Hcp & Hr & _ & HF' & _).
  - intros k. specialize (Hroom k). lia.
  - rewrite (enough_size h F ∅ Hs). lia.
  - exists (Some (top t')), h', F'. split; [done|]. split; [by econstructor|done].
Qed.

(** C5. From every heap that stands for a forest, a legal call of the interface is
    defined and terminates, its effect is the one [forest_step] promises, and the heap
    it leaves stands for the forest it should: no sequence of legal calls follows a
    dangling or null pointer. *)
Theorem document_calls_refine h F c : sound h F -> legal h F c ->
  exists r h' F', run_call c h = Ret (r, h') /\ forest_step F c r F' /\ sound h' F'.
Proof.
  intros Hso Hl. change (refined h F c). pose proof Hso as [Hs _].
  destruct c as [d s|d s|d s|d s|d s|p c|p c|p a c|n a v|n a|n s|p|n|d|n d]; cbn in Hl.
  1-5: destruct Hl as [Hd Hroom]; (eapply new_refined;
    [exact Hso|reflexivity|reflexivity| |reflexivity|exact Hd|exact Hroom]); first [apply NoDup_nil_2 | done].
  - eapply insert_refined; [done|apply step_end|].
    destruct (insert_end_ok h F p c Hs Hl) as (h' & ? & ? & _). eauto.
  - eapply insert_refined; [done|apply step_first|]. by apply insert_first_ok.
  - destruct Hl as (Hmi & (na & Ha & Hu) & Hnf). destruct (decide (a = c)) as [->|Hac].
    + exists (Some c), h, F. split; [|split; [apply step_same|done]]. unfold run_call, InsertAfterChild.
      rewrite (same_doc_eqb p c) by apply Hmi. rewrite (get_conc h F ∅ c na Hs Ha). cbn.
      by rewrite Hu, bool_decide_eq_true_2, decide_True.
    + eapply insert_refined; [done|by apply step_after|]. by eapply insert_after_ok.
  - destruct Hl as (b & s & l & Hn & Hw). by eapply attributes_refined.
  - destruct Hl as (b & s & l & Hn & Hw). by eapply attributes_refined.
  - destruct Hl as [[b Hn] Hitem]. by eapply value_refined.
  - by apply children_refined.
  - destruct Hl as [? ?]. by apply node_refined.
  - by apply clear_refined.
  - destruct Hl as (? & ? & ? & ?). by apply clone_refined.
Qed.

(** ** Adding to a tree *)

(** [InsertNewChildElement] and its like add a new last child. *)
Record added F F' (p n : node) (m : anode) (w : content) : Prop := {
  ad_new : F !! n = None;
  ad_item : ToDocument n = false;
  ad_doc : _document n = _document p;
  ad_parent : F' !! p = Some (set_kids (kids m ++ [n]) m);
  ad_node : F' !! n = Some (ANode (Some p) [] w);
  ad_other x : x <> p -> x <> n -> F' !! x = F !! x;
}.

Lemma new_may_insert F p m n w : forest F -> F !! p = Some m -> F !! n = Some (ANode None [] w) -> p <> n ->
  ToDocument n = false -> _document n = _document p -> may_insert F p n.
Proof.
  intros HF Hm Hn Hpn Hi Hd. split; [by eexists|by eexists|done|done|]. intros Hb.
  assert (Hsub : subtree F (Shape n [])) by (by econstructor).
  apply (below_addrs F _ p HF Hsub) in Hb. cbn in Hb. set_solver.
Qed.

Lemma insert_new_ok h F p m k w :
  stands h F ∅ -> F !! p = Some m -> pool_of w = Some k -> (forall k, asked (docs h) (_document p) k < MAX_ELEMENTS) ->
  exists n h' F', insert_new p (CreateUnlinkedNode (_document p) k w) h = Ret (Some n, h') /\ stands h' F' ∅ /\
    added F F' p n m w /\ forall d k, asked (docs h') d k <= asked (docs h) d k + 1.
Proof.
  intros Hs Hm Hw Hroom. destruct (b_doc _ _ _ (s_books _ _ _ Hs) p) as [B HD]; [by eexists|].
  destruct (create_ok h F (_document p) B k w Hs HD Hw) as (i & h1 & Hnew & Hn & Hs1 & Hask1).
  { specialize (Hroom k). unfold asked in Hroom. by rewrite HD in Hroom. }
  set (n := Item (_document p) k i) in *. assert (Hpn : p <> n) by congruence.
  set (F1 := <[n := ANode None [] w]> F) in *.
  assert (Hm1 : F1 !! p = Some m) by (unfold F1; by rewrite lookup_insert_ne).
  assert (Hn1 : F1 !! n = Some (ANode None [] w)) by apply lookup_insert_eq.
  pose proof (s_forest _ _ _ Hs1) as HF1.
  assert (Hmi : may_insert F1 p n) by (by eapply new_may_insert).
  destruct (insert_end_ok h1 F1 p n Hs1 Hmi) as (h2 & Hi & Hs2 & Hask2).
  assert (Hnk : n ∉ kids m).
  { intros Hin. destruct (f_kids _ (s_forest _ _ _ Hs) _ _ _ Hm Hin) as (? & ? & _). congruence. }
  rewrite (insert_end_new F1 p m n (ANode None [] w)) in Hs2 by done.
  assert (Hrun : insert_new p (CreateUnlinkedNode (_document p) k w) h = Ret (Some n, h2)).
  { unfold insert_new. rewrite Hnew. cbn -[InsertEndChild]. fold n. by rewrite Hi. }
  exists n, h2, (relink F1 p n (Some p) (kids m ++ [n])). split; [done|]. split; [done|]. split.
  - split; [done..| | |].
    + rewrite relink_lookup, Hm1. cbn. rewrite decide_False, decide_True by done. by destruct m.
    + rewrite relink_lookup, Hn1. cbn. rewrite decide_True, decide_False by done. done.
    + intros x Hxp Hxn. rewrite relink_lookup. unfold F1. rewrite lookup_insert_ne by done.
      destruct (F !! x) as [[]|]; [|done]. cbn. by rewrite !decide_False.
  - intros d k'. rewrite Hask2, Hask1. case_decide; lia.
Qed.

(** ** New documents *)

Lemma forest_empty : forest ∅.
Proof.
  split; try (intros *; by rewrite lookup_empty).
  intros c. constructor. intros y (n & Hn & _). by rewrite lookup_empty in Hn.
Qed.

Lemma empty_sound : sound (Heap (P := P) ∅ ∅) ∅.
Proof.
  split; [split; [done|apply forest_empty|]|intros x a; by rewrite lookup_empty].
  split.
  - intros n. rewrite lookup_empty. by intros [].
  - intros d. cbn. rewrite lookup_empty. by intros [].
  - intros n a. by rewrite lookup_empty.
  - intros n Hn. by apply elem_of_empty in Hn.
  - intros d B. cbn. by rewrite lookup_empty.
Qed.

(** A document with pools nobody used yet. *)
Definition fresh_pool (p : P) : Prop := pool_ok p /\ used p = ∅ /\ Untracked p = 0.

Lemma new_document_sound h F d pools : sound h F -> docs h !! d = None -> (forall k, fresh_pool (pools k)) ->
  sound (construct_document d pools h) (<[DocNode d := ANode None [] Document]> F).
Proof.
  intros [[HN HF HB] Hok] HD Hp.
  assert (Hgone : forall n, _document n = d -> F !! n = None).
  { intros n <-. apply eq_None_not_Some. intros Hn. apply (b_doc _ _ _ HB) in Hn as [B HB']. congruence. }
  split; [split; cbn|].
  - rewrite HN. symmetry. apply conc_insert; [done|]. by apply Hgone.
  - apply forest_insert; [done|]. by apply Hgone.
  - eapply books_update; try done.
    + rewrite lookup_insert_eq. by eexists.
    + intros n a [[<- <-]|[? ?]]%lookup_insert_Some; [by right|by left].
    + intros n Hne. rewrite lookup_insert_ne; [done|]. by intros <-.
    + split; cbn; try done; [|constructor|..].
      * intros n. split; [by intros ?%elem_of_nil|]. intros (Hd & Hi & (a & Ha & _) & _).
        apply lookup_insert_Some in Ha as [[<- _]|[_ Ha]]; [done|]. by rewrite Hgone in Ha.
      * intros k i. destruct (Hp k) as (_ & -> & _). rewrite lookup_insert_ne, Hgone by done.
        split; [by intros ?%elem_of_empty|by intros []].
      * intros k. apply Hp.
      * intros k. apply Hp.
  - intros x a [[<- <-]|[_ Hx]]%lookup_insert_Some; [done|by eapply Hok].
Qed.
End Client.

(** ** A document with two elements, and an empty one *)

Definition demo_pools (k : pool_name) : SizedPool := Sized 120 pool_init.
Lemma demo_fresh k : fresh_pool (demo_pools k).
Proof.
  split; [|split; [|done]].
  - split; [by vm_compute; lia|apply pool_init_inv].
  - cbn. unfold items_used, n_items. cbn. set_solver.
Qed.

Definition empty_documents : heap (P := SizedPool) := construct_document 1 demo_pools (construct_document 0 demo_pools (Heap ∅ ∅)).
Definition empty_forest : forest_map :=
  <[DocNode 1 := ANode None [] Document]> (<[DocNode 0 := ANode None [] Document]> ∅).
Lemma empty_documents_sound : sound empty_documents empty_forest.
Proof.
  apply new_document_sound; [|done|apply demo_fresh]. apply new_document_sound; [|done|apply demo_fresh].
  apply empty_sound.
Qed.

Definition el (c : Z) : content := Element [c] [].

Record demo (h : heap (P := SizedPool)) (F : forest_map) (a b : node) : Prop := {
  de_sound : sound h F;
  de_one : F !! DocNode 0 = Some (ANode None [a; b] Document);
  de_a : F !! a = Some (ANode (Some (DocNode 0)) [] (el 97));
  de_b : F !! b = Some (ANode (Some (DocNode 0)) [] (el 98));
  de_two : F !! DocNode 1 = Some (ANode None [] Document);
  de_item : ToDocument b = false /\ _document b = 0%nat;
  de_asked d k : asked (docs h) d k <= 2;
}.

Lemma demo_exists : exists h F a b, demo h F a b.
Proof.
  assert (Hask : forall d k, asked (docs empty_documents) d k <= 0).
  { intros d k. unfold asked, empty_documents, construct_document. cbn.
    destruct (decide (d = 1%nat)) as [->|]; [by rewrite lookup_insert_eq|]. rewrite lookup_insert_ne by done.
    destruct (decide (d = 0%nat)) as [->|]; [by rewrite lookup_insert_eq|]. by rewrite lookup_insert_ne. }
  pose proof empty_documents_sound as [Hs0 Hok0].
  destruct (insert_new_ok empty_documents empty_forest (DocNode 0) (ANode None [] Document) ElementPool (el 97) Hs0)
    as (a & h1 & F1 & _ & Hs1 & [Hna Hai Had Hp1 Ha1 Ho1] & Hask1); [done..| |].
  { intros k. specialize (Hask 0%nat k). unfold MAX_ELEMENTS. cbn in *. lia. }
  destruct (insert_new_ok h1 F1 (DocNode 0) _ ElementPool (el 98) Hs1 Hp1) as
    (b & h2 & F2 & _ & Hs2 & [Hnb Hbi Hbd Hp2 Hb2 Ho2] & Hask2); [done|..].
  { intros k. specialize (Hask 0%nat k). specialize (Hask1 0%nat k). unfold MAX_ELEMENTS. cbn in *. lia. }
  assert (a <> b) by congruence. assert (a <> DocNode 0) by (by intros ->).
  exists h2, F2, a, b. split; try done.
  - split; [done|]. intros x n Hx. destruct (decide (x = DocNode 0)) as [->|]; [by rewrite Hp2 in Hx; simplify_eq|].
    destruct (decide (x = b)) as [->|]; [by rewrite Hb2 in Hx; simplify_eq; apply NoDup_nil_2|].
    rewrite Ho2 in Hx by done. destruct (decide (x = a)) as [->|]; [by rewrite Ha1 in Hx; simplify_eq; apply NoDup_nil_2|].
    rewrite Ho1 in Hx by done. by eapply Hok0.
  - by rewrite Ho2.
  - rewrite Ho2, Ho1; [done|done|by intros <-|done|by intros <-].
  - intros d k. specialize (Hask d k). specialize (Hask1 d k). specialize (Hask2 d k). lia.
Qed.

Lemma demo_docs h F a b d : demo h F a b -> d = 0%nat \/ d = 1%nat -> is_Some (docs h !! d).
Proof.
  intros [[[_ _ HB] _] H0 _ _ H1 _ _] [->| ->]; [apply (b_doc _ _ _ HB (DocNode 0))|apply (b_doc _ _ _ HB (DocNode 1))];
    by eexists.
Qed.

Lemma demo_insert h F a b : demo h F a b -> may_insert F (DocNode 0) b.
Proof.
  intros [[[_ HF _] _] H0 Ha Hb _ [Hi Hd] _]. split; [by eexists|by eexists|done|done|].
  intros Hbel%document_on_top; [|done]. by subst b.
Qed.

Lemma demo_subtree h F a b : demo h F a b -> subtree F (Shape (DocNode 0) [Shape a []; Shape b []]).
Proof.
  intros Hd. econstructor; [apply Hd|done|]. repeat constructor; econstructor; [apply Hd|done|constructor|apply Hd|done|constructor].
Qed.

(** Moving the second element to the front. *)
Lemma document_calls_refine_witness : exists h F a b, demo h F a b /\ exists r h' F',
  run_call (CInsertFirst (DocNode 0) b) h = Ret (r, h') /\ forest_step F (CInsertFirst (DocNode 0) b) r F' /\ sound h' F'.
Proof.
  destruct demo_exists as (h & F & a & b & Hd). exists h, F, a, b. split; [done|].
  apply (document_calls_refine h F (CInsertFirst (DocNode 0) b)); [apply Hd|apply (demo_insert h F a b Hd)].
Defined.

(** Putting the second element behind the first, where it is. *)
Lemma InsertAfterChild_undefined_iff_witness : exists h F a b, demo h F a b /\
  InsertAfterChild (DocNode 0) a b h = Undef.
Proof.
  destruct demo_exists as (h & F & a & b & Hd). exists h, F, a, b. split; [done|].
  apply (InsertAfterChild_undefined_iff h F (DocNode 0) a b _ (proj1 (de_sound _ _ _ _ Hd)) (demo_insert h F a b Hd)
    (de_a _ _ _ _ Hd) eq_refl).
  unfold follows_last, kids_of. rewrite (de_one _ _ _ _ Hd). cbn. by rewrite decide_True.
Defined.

Lemma Clear_frees_document_witness : exists h F a b h' F' B', demo h F a b /\
  Clear (2 * size F + 1) 0 h = Ret h' /\ stands h' F' ∅ /\ cleared 0 F F' /\ docs h' !! 0%nat = Some B' /\
    forall k, CurrentAllocs (_pool B' k) = 0 /\ Untracked (_pool B' k) = 0.
Proof.
  destruct demo_exists as (h & F & a & b & Hd). destruct (demo_docs h F a b 0 Hd) as [B HB]; [by left|].
  destruct (Clear_frees_document h F 0 B (2 * size F + 1) (proj1 (de_sound _ _ _ _ Hd)) HB (Nat.le_refl _))
    as (h' & F' & B' & ?). by exists h, F, a, b, h', F', B'.
Defined.

Lemma DeepCopy_copies_witness : exists h F a b h' F' ts', demo h F a b /\
  DeepCopy (2 * size F + 1) 0 1 h = Ret h' /\ stands h' F' ∅ /\ subtree F' (Shape (DocNode 1) ts') /\
    map (contents F') ts' = map (contents F) [Shape a []; Shape b []] /\
    (forall x n, _document x <> 1%nat -> F !! x = Some n -> F' !! x = Some n).
Proof.
  destruct demo_exists as (h & F & a & b & Hd). destruct (demo_docs h F a b 1 Hd) as [B HB]; [by right|].
  destruct (DeepCopy_copies h F 0 1 B [Shape a []; Shape b []] (2 * size F + 1) (proj1 (de_sound _ _ _ _ Hd))
    (proj2 (de_sound _ _ _ _ Hd))) as (h' & F' & ts' & ?); [done|done| | |done|].
  - by eapply demo_subtree.
  - intros k. pose proof (de_asked _ _ _ _ Hd 1%nat k). unfold MAX_ELEMENTS, weight. cbn. lia.
  - by exists h, F, a, b, h', F', ts'.
Defined.
