(* ===== verification/XmlFind.v ===== *)
(** * Looking things up in a tinyxml2 document

    The loops over siblings, the text of an element, its attributes and the comparison
    of nodes.  Theorems: the four searches for elements give the first or last match
    among the siblings they look at; [GetText] passes over comments, and reads what
    [SetText] writes; an
    attribute has the value set last; [ShallowEqual] does not look at the names of
    attributes. *)

From S2P Require Import Prelude XmlPool XmlTree XmlForest XmlTreeProofs XmlDelete XmlClone XmlClient.

Section Find.
Context {P : Type} `{MemPoolLaws P}.
Implicit Types (h : heap (P := P)) (F : forest_map).

(** ** Searches *)

(** The node is an element of that name. *)
Definition matches F (name : option (list Z)) (x : node) : Prop :=
  exists a, F !! x = Some a /\ ToElementWithName name (Node None None None None None (what a)) = true.
#[global] Instance matches_dec F name x : Decision (matches F name x).
Proof.
  unfold matches. destruct (F !! x) as [a|] eqn:Hx.
  - destruct (ToElementWithName name (Node None None None None None (what a))) eqn:Ht.
    + left. eauto.
    + right. intros (b & [= <-] & ?). congruence.
  - right. by intros (b & ? & _).
Defined.
Definition found F name (l : list node) : list node := filter (matches F name) l.

Lemma walk_step F X h name fuel step x a : stands h F X -> F !! x = Some a ->
  walk (S fuel) step name (Some x) h =
    if decide (matches F name x) then Ret (Some x) else walk fuel step name (step (pointers F x a)) h.
Proof.
  intros Hs Hx. cbn. rewrite (get_conc h F X x a Hs Hx). cbn.
  change (ToElementWithName name (pointers F x a)) with (ToElementWithName name (Node None None None None None (what a))).
  case_decide as Hm.
  - destruct Hm as (b & Hb & Ht). rewrite Hx in Hb. injection Hb as <-. by rewrite Ht.
  - destruct (ToElementWithName _ _) eqn:Ht; [|done]. exfalso. apply Hm. by exists a.
Qed.

Lemma kid_neighbours F p m l1 x l2 : forest F -> F !! p = Some m -> kids m = l1 ++ x :: l2 ->
  exists a, F !! x = Some a /\ _next (pointers F x a) = head l2 /\ _prev (pointers F x a) = last l1.
Proof.
  intros HF Hm Hk. pose proof (f_nodup _ HF _ _ Hm) as Hnd. rewrite Hk in Hnd. apply NoDup_middle in Hnd as (? & ? & _).
  destruct (f_kids _ HF p m x Hm) as (a & Ha & Hu); [rewrite Hk; set_solver|]. exists a. split; [done|].
  cbn. unfold siblings. rewrite Hu, Hm, Hk. by rewrite after_here, before_here.
Qed.

(** Forwards over the siblings [l2], and backwards over [l1]. *)
Lemma walk_next F X h p m name l2 : stands h F X -> F !! p = Some m -> forall l1 fuel,
  kids m = l1 ++ l2 -> (length l2 < fuel)%nat -> walk fuel _next name (head l2) h = Ret (head (found F name l2)).
Proof.
  intros Hs Hm. induction l2 as [|x l2 IH]; intros l1 fuel Hk Hf; (destruct fuel as [|fuel]; [cbn in *; lia|]); [done|].
  destruct (kid_neighbours F p m l1 x l2 (s_forest _ _ _ Hs) Hm Hk) as (a & Ha & Hn & _).
  cbn [head]. rewrite (walk_step F X h name fuel _ x a Hs Ha), Hn. unfold found. rewrite filter_cons.
  case_decide; [done|]. apply (IH (l1 ++ [x])); [by rewrite <- app_assoc|cbn in Hf; lia].
Qed.
Lemma walk_prev F X h p m name l1 : stands h F X -> F !! p = Some m -> forall l2 fuel,
  kids m = l1 ++ l2 -> (length l1 < fuel)%nat -> walk fuel _prev name (last l1) h = Ret (last (found F name l1)).
Proof.
  intros Hs Hm. induction l1 as [|x l1 IH] using rev_ind; intros l2 fuel Hk Hf; (destruct fuel as [|fuel]; [lia|]); [done|].
  rewrite <- app_assoc in Hk. cbn in Hk. rewrite length_app in Hf. cbn in Hf.
  destruct (kid_neighbours F p m l1 x l2 (s_forest _ _ _ Hs) Hm Hk) as (a & Ha & _ & Hp).
  rewrite last_snoc, (walk_step F X h name fuel _ x a Hs Ha), Hp. unfold found. rewrite filter_app, filter_cons, filter_nil.
  case_decide; [by rewrite last_snoc|]. rewrite app_nil_r. apply (IH (x :: l2)); [done|lia].
Qed.

(** There are no more siblings than nodes. *)
Lemma kids_size F p m : forest F -> F !! p = Some m -> (length (kids m) <= size F)%nat.
Proof.
  intros HF Hm. rewrite <- size_dom, <- (size_list_to_set (C := gset node) (kids m)) by (by eapply f_nodup).
  apply subseteq_size. intros x. rewrite elem_of_list_to_set, elem_of_dom. intros Hx.
  destruct (f_kids _ HF _ _ _ Hm Hx) as (a & ? & _). by eexists.
Qed.
Lemma nodes_size h F X : stands h F X -> size (nodes h) = size F.
Proof. intros Hs. pose proof (enough_size h F X Hs) as He. unfold enough in He. lia. Qed.

(** [FirstChildElement] and [LastChildElement] give the first and the last child
    that is an element of the name asked for (any element without a name),
    [NextSiblingElement] and [PreviousSiblingElement] the nearest one behind and in front
    of a node, and nothing when there is none. *)
Theorem searches_find h F X p m name : stands h F X -> F !! p = Some m ->
  FirstChildElement p name h = Ret (head (found F name (kids m))) /\
  LastChildElement p name h = Ret (last (found F name (kids m))) /\
  forall l1 x l2, kids m = l1 ++ x :: l2 ->
    NextSiblingElement x name h = Ret (head (found F name l2)) /\
    PreviousSiblingElement x name h = Ret (last (found F name l1)).
Proof.
  intros Hs Hm. pose proof (s_forest _ _ _ Hs) as HF. pose proof (kids_size F p m HF Hm) as Hsize.
  unfold FirstChildElement, LastChildElement, NextSiblingElement, PreviousSiblingElement, walk_from.
  rewrite (nodes_size h F X Hs), (get_conc h F X p m Hs Hm). cbn -[walk]. split; [|split].
  - apply (walk_next F X h p m name (kids m) Hs Hm []); [done|lia].
  - apply (walk_prev F X h p m name (kids m) Hs Hm []); [by rewrite app_nil_r|lia].
  - intros l1 x l2 Hk. destruct (kid_neighbours F p m l1 x l2 HF Hm Hk) as (a & Ha & Hn & Hp).
    rewrite Hk, length_app in Hsize. cbn in Hsize. rewrite (get_conc h F X x a Hs Ha). cbn -[walk] in *. rewrite Hn, Hp. split.
    + apply (walk_next F X h p m name l2 Hs Hm (l1 ++ [x])); [by rewrite <- app_assoc|lia].
    + apply (walk_prev F X h p m name l1 Hs Hm (x :: l2)); [done|lia].
Qed.

(** ** Text *)

(** The text that counts for an element with these children: comments do not matter. *)
Fixpoint text_in F (l : list node) : option (list Z) :=
  match l with
  | x :: l =>
      match what <$> F !! x with
      | Some (Comment _) => text_in F l
      | Some (Text s _) => Some s
      | _ => None
      end
  | [] => None
  end.

Lemma skip_comments_spec F X h p m l2 : stands h F X -> F !! p = Some m -> forall l1 fuel,
  kids m = l1 ++ l2 -> (length l2 < fuel)%nat ->
  exists r, skip_comments fuel (head l2) h = Ret r /\
    match r with
    | Some x => exists a, F !! x = Some a /\ text_in F l2 = match what a with Text s _ => Some s | _ => None end
    | None => text_in F l2 = None
    end.
Proof.
  intros Hs Hm. induction l2 as [|x l2 IH]; intros l1 fuel Hk Hf; (destruct fuel as [|fuel]; [cbn in *; lia|]);
    [by exists None|].
  destruct (kid_neighbours F p m l1 x l2 (s_forest _ _ _ Hs) Hm Hk) as (a & Ha & Hn & _).
  cbn [head skip_comments text_in]. rewrite (get_conc h F X x a Hs Ha), Ha. cbn. unfold option_map.
  destruct (what a) eqn:Hw; cbn; try (exists (Some x); split; [done|]; exists a; by rewrite Hw).
  cbn in Hn. rewrite Hn. apply (IH (l1 ++ [x])); [by rewrite <- app_assoc|cbn in Hf; lia].
Qed.

(** [GetText] is the value of the first child that is no comment, if that is a text. *)
Lemma GetText_spec h F X p m : stands h F X -> F !! p = Some m -> GetText p h = Ret (text_in F (kids m)).
Proof.
  intros Hs Hm. unfold GetText. rewrite (get_conc h F X p m Hs Hm), (nodes_size h F X Hs). cbn -[skip_comments].
  pose proof (kids_size F p m (s_forest _ _ _ Hs) Hm).
  destruct (skip_comments_spec F X h p m (kids m) Hs Hm [] (S (size F)) eq_refl) as (r & Hr & Hspec); [lia|].
  rewrite Hr. cbn. destruct r as [x|]; [|by rewrite Hspec]. destruct Hspec as (a & Ha & ->).
  by rewrite (get_conc h F X x a Hs Ha).
Qed.

Lemma first_text h F X p m s : stands h F X -> F !! p = Some m ->
  (exists c l a t cdata, kids m = c :: l /\ F !! c = Some a /\ what a = Text t cdata /\ SetText p s h = SetValue c s h) \/
  SetText p s h = ('(theText, h) ← NewText (_document p) s h; '(_, h) ← InsertFirstChild p theText h; Ret h).
Proof.
  intros Hs Hm. unfold SetText. rewrite (get_conc h F X p m Hs Hm). cbn -[InsertFirstChild NewText].
  destruct (kids m) as [|c l] eqn:Hk; cbn -[InsertFirstChild NewText]; [by right|].
  destruct (f_kids _ (s_forest _ _ _ Hs) p m c Hm) as (a & Ha & _); [rewrite Hk; set_solver|].
  rewrite (get_conc h F X c a Hs Ha). cbn -[InsertFirstChild NewText].
  destruct (what a) eqn:Hw; cbn -[InsertFirstChild NewText]; try (by right). left. by eexists c, l, a, _, _.
Qed.

(** After [SetText] the first child is a text, with that value. *)
Lemma SetText_first h F p m s : stands h F ∅ -> F !! p = Some m ->
  (forall k, asked (docs h) (_document p) k < MAX_ELEMENTS) ->
  exists h' F' m' c l a cdata, SetText p s h = Ret h' /\ stands h' F' ∅ /\ F' !! p = Some m' /\ kids m' = c :: l /\
    F' !! c = Some a /\ what a = Text s cdata.
Proof.
  intros Hs Hm Hroom. destruct (first_text h F ∅ p m s Hs Hm) as [(c & l & a & t & cdata & Hk & Hc & Hw & ->)| ->].
  - assert (Hset : SetValue c s h = modify c (set_body (Text s cdata)) h).
    { unfold SetValue, modify. rewrite (s_nodes _ _ _ Hs), conc_lookup, Hc. cbn. by rewrite Hw. }
    destruct (stands_what h F ∅ c a (Text s cdata) Hs Hc) as (h' & Hmod & Hs' & _); [by rewrite Hw|].
    eexists h', _, _, c, l, _, cdata. rewrite Hset. split; [done|]. split; [exact Hs'|].
    rewrite !what_lookup, Hm, Hc. split; [done|]. split; [exact Hk|]. split; [done|]. cbn. by rewrite decide_True.
  - destruct (b_doc _ _ _ (s_books _ _ _ Hs) p) as [B HD]; [by eexists|].
    destruct (create_ok h F (_document p) B TextPool (Text s false) Hs HD eq_refl) as (i & h1 & Hnew & Hn & Hs1 & _).
    { specialize (Hroom TextPool). unfold asked in Hroom. by rewrite HD in Hroom. }
    set (n := Item (_document p) TextPool i) in *. assert (Hpn : p <> n) by congruence.
    pose proof (s_forest _ _ _ Hs1) as HF1. set (F1 := <[n := ANode None [] (Text s false)]> F) in *.
    assert (Hm1 : F1 !! p = Some m) by (unfold F1; by rewrite lookup_insert_ne).
    assert (Hn1 : F1 !! n = Some (ANode None [] (Text s false))) by apply lookup_insert_eq.
    destruct (insert_first_ok h1 F1 p n Hs1) as (h2 & Hi & Hs2).
    { by eapply new_may_insert. }
    unfold insert_first, loosen in Hs2. rewrite Hn1 in Hs2. cbn [up] in Hs2.
    match type of Hs2 with stands _ (hook _ _ ?l _) _ => change (hook p n l F1) with (relink F1 p n (Some p) l) in Hs2 end.
    eexists h2, _, _, n, _, _, false. unfold NewText. rewrite Hnew. cbn -[InsertFirstChild]. fold n. rewrite Hi.
    split; [done|]. split; [exact Hs2|]. rewrite !(relink_lookup F1 p n (Some p)), Hm1, Hn1. cbn.
    by rewrite (decide_True (P := p = p)).
Qed.

(** What [SetText] writes, [GetText] reads, whatever children the element has. *)
Theorem SetText_GetText h F p m s : stands h F ∅ -> F !! p = Some m ->
  (forall k, asked (docs h) (_document p) k < MAX_ELEMENTS) ->
  exists h', SetText p s h = Ret h' /\ GetText p h' = Ret (Some s).
Proof.
  intros Hs Hm Hroom.
  destruct (SetText_first h F p m s Hs Hm Hroom) as (h' & F' & m' & c & l & a & cdata & Ht & Hs' & Hm' & Hk & Hc & Hw).
  exists h'. split; [done|]. rewrite (GetText_spec h' F' ∅ p m' Hs' Hm'), Hk. cbn. rewrite Hc. cbn. by rewrite Hw.
Qed.

(** ** Attributes *)

Lemma find_set a v l b : find_attribute b (set_attribute a v l) = if decide (a = b) then Some v else find_attribute b l.
Proof.
  induction l as [|[c w] l IH]; cbn; [done|]. destruct (decide (c = a)) as [->|Hca]; cbn.
  - by case_decide.
  - rewrite IH. repeat case_decide; congruence.
Qed.
Lemma find_delete a l b : NoDup l.*1 ->
  find_attribute b (delete_attribute a l) = if decide (a = b) then None else find_attribute b l.
Proof.
  induction l as [|[c w] l IH]; cbn; intros Hnd; [by case_decide|]. apply NoDup_cons in Hnd as [Hc Hnd].
  destruct (decide (c = a)) as [->|Hca]; cbn.
  - case_decide as Hab; [subst b|done]. clear -Hc. induction l as [|[d u] l IH]; cbn in *; [done|].
    apply not_elem_of_cons in Hc as [? ?]. rewrite decide_False by done. auto.
  - rewrite IH by done. repeat case_decide; congruence.
Qed.

(** ** Comparison *)

(** Two elements are equal for [ShallowEqual] when their names and the values of their
    attributes are, in order; the names of the attributes do not count. *)
Lemma same_values_iff l m : same_values l m = true <-> l.*2 = m.*2.
Proof.
  revert m. induction l as [|[a v] l IH]; intros [|[b w] m]; cbn; try done.
  case_decide as Hv; [rewrite IH; split; [by intros ->; subst|by intros [=]]|]. split; [done|]. by intros [= ? _].
Qed.
Lemma ShallowEqual_ignores_names : exists l m, l <> m /\ ShallowEqual (Element [97] l) (Element [97] m) = true.
Proof. by exists [([98], [49])], [([99], [49])]. Qed.
End Find.
