(* ===== verification/XmlNumber.v ===== *)
(** * Numbers in a tinyxml2 document

    [compat/tinyxml2-v34/]: the conversions of [XMLUtil] between text and numbers, and
    the overloads of elements, attributes and the printer that use them.  The C functions are
    modelled as the standard defines them: a number that does not fit what [sscanf]
    stores to is [Undef].  A [conversion] is a pair of [ToStr] and [To...]; the
    overloads for one type differ from those for another only in it, and those for
    [float] and [double] are the same code over conversions the C library gives.
    Theorems: every value that is set is read back, as attribute and as text, for all five types; a number out of
    range is not refused. *)

From S2P Require Import Prelude XmlText XmlDocument XmlPrinter XmlPool XmlTree XmlForest XmlTreeProofs XmlDelete XmlClone XmlClient XmlFind.

Abbreviation str := (list Z).

(** ** The C library *)

Fixpoint skip_blanks (l : str) : str :=
  match l with c :: l' => if isspace c then skip_blanks l' else l | [] => [] end.
Definition sign (l : str) : bool * str :=
  match l with c :: l' => if c =? 45 then (true, l') else if c =? 43 then (false, l') else (false, l) | [] => (false, []) end.

(** The value of a digit in base 10 or 16. *)
Definition digit (base c : Z) : option Z :=
  if isdigit c then Some (c - 48)
  else if (base =? 16) && (97 <=? c) && (c <=? 102) then Some (c - 87)
  else if (base =? 16) && (65 <=? c) && (c <=? 70) then Some (c - 55)
  else None.
Fixpoint digits (base acc : Z) (l : str) : Z :=
  match l with
  | c :: l => match digit base c with Some d => digits base (acc * base + d) l | None => acc end
  | [] => acc
  end.
Definition number_at (base : Z) (l : str) : option Z :=
  match l with
  | c :: _ => match digit base c with Some _ => Some (digits base 0 l) | None => None end
  | [] => None
  end.
(** [strtol] in base 10 or 16; in base 16 a prefix [0x] is part of the number. *)
Definition prefixed (l : str) : option Z :=
  match l with
  | c :: x :: l' => if (c =? 48) && ((x =? 120) || (x =? 88)) then number_at 16 l' else number_at 16 l
  | _ => number_at 16 l
  end.
Definition scan_number (base : Z) (l : str) : option Z :=
  let '(negative, l) := sign (skip_blanks l) in
  let n := if base =? 16 then prefixed l else number_at base l in
  if negative then Z.opp <$> n else n.

(** [sscanf] with [%d] or [%lld], and with [%u], [%x] and their long forms. *)
Definition sscanf_signed (in_range : Z -> bool) (l : str) : ub (option Z) :=
  match scan_number 10 l with
  | Some v => if in_range v then Ret (Some v) else Undef
  | None => Ret None
  end.
Definition sscanf_unsigned (base limit : Z) (l : str) : ub (option Z) :=
  match scan_number base l with
  | Some v => if Z.abs v <? limit then Ret (Some (v mod limit)) else Undef
  | None => Ret None
  end.

(** [snprintf] of a text that may be cut. *)
Definition BUF_SIZE : nat := 200.
Definition snprintf (l : str) : str := take (BUF_SIZE - 1) l.

(** ** [XMLUtil] *)

Fixpoint skip_white (l : str) : str :=
  match l with c :: l' => if IsWhiteSpace c then skip_white l' else l | [] => [] end.
Definition IsPrefixHex (l : str) : bool :=
  match skip_white l with
  | c :: x :: _ => (c =? 48) && ((x =? 120) || (x =? 88))
  | _ => false
  end.

Definition ToStr_int (v : Z) : str := snprintf (bytes (to_string v)).
Definition ToStr_unsigned (v : Z) : str := snprintf (bytes (to_string v)).
Definition ToStr_int64 (v : Z) : str := snprintf (bytes (to_string v)).
(** The cast to [long long] and [%llu] cancel out. *)
Definition ToStr_uint64 (v : Z) : str := snprintf (bytes (to_string (u64 (i64 v)))).

(** [writeBoolTrue] and [writeBoolFalse], and how they are set. *)
Record bool_names := BoolNames { writeBoolTrue : str; writeBoolFalse : str }.
Definition default_names : bool_names := BoolNames (bytes "true") (bytes "false").
Definition SetBoolSerialization (writeTrue writeFalse : option str) : bool_names :=
  BoolNames (default (bytes "true") writeTrue) (default (bytes "false") writeFalse).
Definition ToStr_bool (w : bool_names) (v : bool) : str := snprintf (if v then writeBoolTrue w else writeBoolFalse w).

Definition ToInt (l : str) : ub (option Z) :=
  if IsPrefixHex l then v ← sscanf_unsigned 16 (2 ^ 32) l; Ret (option_map i32 v)
  else sscanf_signed in_i32 l.
Definition ToUnsigned (l : str) : ub (option Z) := sscanf_unsigned (if IsPrefixHex l then 16 else 10) (2 ^ 32) l.
Definition ToInt64 (l : str) : ub (option Z) :=
  if IsPrefixHex l then v ← sscanf_unsigned 16 (2 ^ 64) l; Ret (option_map i64 v)
  else sscanf_signed in_i64 l.
Definition ToUnsigned64 (l : str) : ub (option Z) := sscanf_unsigned (if IsPrefixHex l then 16 else 10) (2 ^ 64) l.

Definition TRUE_VALS : list str := [bytes "true"; bytes "True"; bytes "TRUE"].
Definition FALSE_VALS : list str := [bytes "false"; bytes "False"; bytes "FALSE"].
Definition ToBool (l : str) : ub (option bool) :=
  ival ← ToInt l;
  Ret (match ival with
       | Some i => Some (negb (i =? 0))
       | None => if decide (l ∈ TRUE_VALS) then Some true else if decide (l ∈ FALSE_VALS) then Some false else None
       end).

(** ** The overloads *)

Record conversion (T : Type) := Conv { to_str : T -> str; from_str : str -> ub (option T) }.
Arguments Conv {T}. Arguments to_str {T}. Arguments from_str {T}.
Definition int_conv : conversion Z := Conv ToStr_int ToInt.
Definition unsigned_conv : conversion Z := Conv ToStr_unsigned ToUnsigned.
Definition int64_conv : conversion Z := Conv ToStr_int64 ToInt64.
Definition uint64_conv : conversion Z := Conv ToStr_uint64 ToUnsigned64.
Definition bool_conv (w : bool_names) : conversion bool := Conv (ToStr_bool w) ToBool.

Section Overloads.
Context {P : Type} `{MemPool P} {T : Type} (c : conversion T).
Implicit Types (h : heap (P := P)).

(** [XMLAttribute::Query...Value]: the error, and what is stored, if anything is. *)
Definition QueryValue (value : str) : ub (XMLError * option T) :=
  v ← from_str c value;
  Ret (match v with Some v => (XML_SUCCESS, Some v) | None => (XML_WRONG_ATTRIBUTE_TYPE, None) end).

(** [XMLAttribute::...Value], with the value it has before, zero or false. *)
Definition ValueOr (value : str) (zero : T) : ub T := '(_, v) ← QueryValue value; Ret (default zero v).

(** [XMLElement::Query...Attribute], [...Attribute] and [SetAttribute]. *)
Definition QueryAttribute (this : node) (name : str) h : ub (XMLError * option T) :=
  a ← Attribute this name None h;
  match a with Some value => QueryValue value | None => Ret (XML_NO_ATTRIBUTE, None) end.
Definition AttributeOr (this : node) (name : str) (defaultValue : T) h : ub T :=
  '(_, v) ← QueryAttribute this name h; Ret (default defaultValue v).
(** [XMLAttribute::SetAttribute]: the new value of the attribute, through a buffer. *)
Definition XMLAttribute_SetAttribute (v : T) : str := let buf := to_str c v in buf.
Definition SetAttributeTo (this : node) (name : str) (v : T) h : ub heap := SetAttribute this name (XMLAttribute_SetAttribute v) h.

(** [XMLElement::SetText], [Query...Text] and [...Text]. *)
Definition SetTextTo (this : node) (v : T) h : ub heap := SetText this (to_str c v) h.
Definition QueryText (this : node) h : ub (XMLError * option T) :=
  t ← get this h;
  first ← match _firstChild t with
          | Some x => n ← get x h; Ret (match body n with Text s _ => Some s | _ => None end)
          | None => Ret None
          end;
  match first with
  | Some s =>
      v ← from_str c s;
      Ret (match v with Some v => (XML_SUCCESS, Some v) | None => (XML_CAN_NOT_CONVERT_TEXT, None) end)
  | None => Ret (XML_NO_TEXT_NODE, None)
  end.
Definition TextOr (this : node) (defaultValue : T) h : ub T :=
  '(_, v) ← QueryText this h; Ret (default defaultValue v).
End Overloads.

(** ** Text and back *)

(** The values that a conversion is for. *)
Definition reads_back {T} (c : conversion T) (ok : T -> Prop) : Prop :=
  forall v, ok v -> from_str c (to_str c v) = Ret (Some v).

Lemma digits_bytes s : forall acc, str_forallb is_digit s = true -> digits 10 acc (bytes s) = digits_value acc s.
Proof.
  induction s as [|c s IH]; intros acc Hs; cbn in *; [done|]. apply andb_true_iff in Hs as [Hc Hs].
  unfold digit, isdigit. unfold is_digit in Hc. rewrite Hc. by rewrite IH.
Qed.

(** The digits of a number: they start with one, hold nothing else and are its value. *)
Lemma number_digits n : 0 <= n ->
  exists d l, bytes (dec_digits (S (Z.to_nat (Z.log2 n))) n "") = d :: l /\ 48 <= d <= 57 /\
    Forall (fun c => 48 <= c <= 57) l /\ digits 10 0 (d :: l) = n.
Proof.
  intros Hn. set (s := dec_digits (S (Z.to_nat (Z.log2 n))) n "").
  assert (Hd : str_forallb is_digit s = true).
  { apply dec_digits_forallb; [|done]. intros d Hd. unfold is_digit. apply andb_true_iff. rewrite !Z.leb_le. lia. }
  assert (Hv : digits 10 0 (bytes s) = n).
  { rewrite digits_bytes by done. unfold s. rewrite dec_digits_value by (by apply log2_fuel). done. }
  destruct (dec_digits_head (Z.to_nat (Z.log2 n)) n "") as (ch & t & Ht & Hch). fold s in Ht. rewrite Ht in *.
  assert (Hall : forall u, str_forallb is_digit u = true -> Forall (fun c => 48 <= c <= 57) (bytes u)).
  { clear. induction u as [|x u IH]; cbn; intros Hu; constructor; apply andb_true_iff in Hu as [Hx Hu]; [|auto].
    unfold is_digit in Hx. boolprop. lia. }
  specialize (Hall _ Hd). cbn in Hall. apply Forall_cons in Hall as [? ?]. by exists (char_code ch), (bytes t).
Qed.

(** How the text of a number starts; in particular it is not taken for hexadecimal. *)
Lemma digit_not_space d : 48 <= d <= 57 -> isspace d = false /\ IsWhiteSpace d = false.
Proof.
  intros Hd. assert (isspace d = false) as Hs.
  { unfold isspace. apply orb_false_iff. split; [apply Z.eqb_neq; lia|apply andb_false_iff; right; apply Z.leb_gt; lia]. }
  split; [done|]. unfold IsWhiteSpace. rewrite Hs. apply andb_false_r.
Qed.

Lemma not_hex_digits d l : 48 <= d <= 57 -> Forall (fun c => 48 <= c <= 57) l -> IsPrefixHex (d :: l) = false.
Proof.
  intros Hd Hl. unfold IsPrefixHex. cbn [skip_white]. rewrite (proj2 (digit_not_space d Hd)).
  destruct l as [|x l]; [done|]. apply Forall_cons in Hl as [Hx _].
  rewrite (proj2 (Z.eqb_neq x 120)), (proj2 (Z.eqb_neq x 88)) by lia. cbn. apply andb_false_r.
Qed.

Lemma number_at_digits d l : 48 <= d <= 57 -> number_at 10 (d :: l) = Some (digits 10 0 (d :: l)).
Proof.
  intros Hd. unfold number_at.
  assert (Hdig : digit 10 d = Some (d - 48)).
  { unfold digit, isdigit. by rewrite !(proj2 (Z.leb_le _ _)) by lia. }
  by rewrite Hdig.
Qed.

Lemma scan_number_digits d l : 48 <= d <= 57 -> scan_number 10 (d :: l) = Some (digits 10 0 (d :: l)).
Proof.
  intros Hd. unfold scan_number. cbn [skip_blanks]. rewrite (proj1 (digit_not_space d Hd)). cbn [sign].
  rewrite (proj2 (Z.eqb_neq d 45)), (proj2 (Z.eqb_neq d 43)) by lia.
  change (10 =? 16) with false. cbn iota. by apply number_at_digits.
Qed.
Lemma scan_negative d l : 48 <= d <= 57 -> scan_number 10 (45 :: d :: l) = Some (- digits 10 0 (d :: l)).
Proof.
  intros Hd. unfold scan_number. change (skip_blanks (45 :: d :: l)) with (45 :: d :: l).
  change (sign (45 :: d :: l)) with (true, d :: l). change (10 =? 16) with false. cbn iota.
  by rewrite number_at_digits.
Qed.

(** The text of a number, not cut. *)
Lemma number_text z : Z.abs z < 10 ^ 20 ->
  snprintf (bytes (to_string z)) = bytes (to_string z) /\
  IsPrefixHex (bytes (to_string z)) = false /\ scan_number 10 (bytes (to_string z)) = Some z.
Proof.
  intros Hz. split.
  - unfold snprintf. apply take_ge. rewrite bytes_length. unfold BUF_SIZE.
    pose proof (to_string_length z 20 ltac:(lia) ltac:(lia)). lia.
  - unfold to_string. destruct (number_digits (Z.abs z)) as (d & l & Hdl & Hd & Hl & Hv); [lia|].
    destruct (Z.ltb_spec z 0) as [Hneg|Hpos].
    + cbn [bytes]. change (char_code "-"%char) with 45. rewrite Hdl. split; [done|].
      rewrite scan_negative, Hv by done. f_equal. lia.
    + rewrite Hdl. split; [by apply not_hex_digits|]. rewrite scan_number_digits, Hv by done. f_equal. lia.
Qed.

Lemma int_reads_back : reads_back int_conv is_i32.
Proof.
  intros v Hv. change (ToInt (ToStr_int v) = Ret (Some v)). unfold ToStr_int, ToInt. destruct (number_text v) as (-> & -> & Hs); [range|].
  unfold sscanf_signed. rewrite Hs. unfold in_i32. by rewrite !(proj2 (Z.leb_le _ _)) by apply Hv.
Qed.
Lemma unsigned_reads_back : reads_back unsigned_conv is_u32.
Proof.
  intros v Hv. change (ToUnsigned (ToStr_unsigned v) = Ret (Some v)). unfold ToStr_unsigned, ToUnsigned. destruct (number_text v) as (-> & -> & Hs); [range|].
  unfold sscanf_unsigned. rewrite Hs. rewrite (proj2 (Z.ltb_lt _ _)), Z.mod_small by range. done.
Qed.
Lemma int64_reads_back : reads_back int64_conv is_i64.
Proof.
  intros v Hv. change (ToInt64 (ToStr_int64 v) = Ret (Some v)). unfold ToStr_int64, ToInt64. destruct (number_text v) as (-> & -> & Hs); [range|].
  unfold sscanf_signed. rewrite Hs. by rewrite (proj2 (in_i64_spec v)).
Qed.
Lemma uint64_reads_back : reads_back uint64_conv is_u64.
Proof.
  intros v Hv. change (ToUnsigned64 (ToStr_uint64 v) = Ret (Some v)). unfold ToStr_uint64, ToUnsigned64.
  assert (Hc : u64 (i64 v) = v) by (unfold u64, i64; range). rewrite Hc.
  destruct (number_text v) as (-> & -> & Hs); [range|].
  unfold sscanf_unsigned. rewrite Hs. rewrite (proj2 (Z.ltb_lt _ _)), Z.mod_small by range. done.
Qed.
Lemma bool_reads_back : reads_back (bool_conv default_names) (fun _ => True).
Proof. by intros [] _; vm_compute. Qed.

(** ** Values in a document *)

Section Documents.
Context {P : Type} `{MemPoolLaws P} {T : Type} (c : conversion T) (ok : T -> Prop).
Context (Hc : reads_back c ok).
Implicit Types (h : heap (P := P)) (F : forest_map).

Lemma attribute_reads_back h F p m s l name v d : stands h F ∅ -> F !! p = Some m -> what m = XmlTree.Element s l -> ok v ->
  exists h', SetAttributeTo c p name v h = Ret h' /\ QueryAttribute c p name h' = Ret (XML_SUCCESS, Some v) /\
    AttributeOr c p name d h' = Ret v.
Proof.
  intros Hs Hm Hw Hv.
  destruct (stands_what h F ∅ p m (XmlTree.Element s (set_attribute name (to_str c v) l)) Hs Hm) as (h' & Hmod & Hs' & _);
    [by rewrite Hw|].
  assert (Hq : QueryAttribute c p name h' = Ret (XML_SUCCESS, Some v)).
  { assert (Hm' : alter (set_what (XmlTree.Element s (set_attribute name (to_str c v) l))) p F !! p =
      Some (set_what (XmlTree.Element s (set_attribute name (to_str c v) l)) m)).
    { by rewrite lookup_alter_eq, Hm. }
    unfold QueryAttribute, Attribute. rewrite (get_conc h' _ ∅ p _ Hs' Hm'). cbn. rewrite find_set, decide_True by done.
    cbn. unfold QueryValue. by rewrite (Hc v Hv). }
  exists h'. split; [|split; [done|by unfold AttributeOr; rewrite Hq]].
  unfold SetAttributeTo, SetAttribute, on_attributes. rewrite (get_conc h F ∅ p m Hs Hm). cbn. by rewrite Hw.
Qed.

Lemma QueryText_first h F p m x l a s cdata : stands h F ∅ -> F !! p = Some m -> kids m = x :: l ->
  F !! x = Some a -> what a = XmlTree.Text s cdata ->
  QueryText c p h = (v ← from_str c s;
    Ret (match v with Some v => (XML_SUCCESS, Some v) | None => (XML_CAN_NOT_CONVERT_TEXT, None) end)).
Proof.
  intros Hs Hm Hk Hx Hw. unfold QueryText. rewrite (get_conc h F ∅ p m Hs Hm). cbn. rewrite Hk. cbn.
  rewrite (get_conc h F ∅ x a Hs Hx). cbn. by rewrite Hw.
Qed.

Lemma text_reads_back h F p m v d : stands h F ∅ -> F !! p = Some m -> ok v ->
  (forall k, asked (docs h) (_document p) k < MAX_ELEMENTS) ->
  exists h', SetTextTo c p v h = Ret h' /\ QueryText c p h' = Ret (XML_SUCCESS, Some v) /\ TextOr c p d h' = Ret v.
Proof.
  intros Hs Hm Hv Hroom. destruct (SetText_first h F p m (to_str c v) Hs Hm Hroom)
    as (h' & F' & m' & x & l & a & cdata & Ht & Hs' & Hm' & Hk & Hx & Hw).
  assert (Hq : QueryText c p h' = Ret (XML_SUCCESS, Some v)).
  { rewrite (QueryText_first h' F' p m' x l a _ cdata Hs' Hm' Hk Hx Hw). by rewrite (Hc v Hv). }
  exists h'. split; [done|]. split; [done|]. unfold TextOr. by rewrite Hq.
Qed.

(** [Query...Text] looks only at the first child, unlike [GetText]: the number behind a
    comment is not found although its text is. *)
Lemma comment_hides_number h F p m x y l a b s t cdata : stands h F ∅ -> F !! p = Some m -> kids m = x :: y :: l ->
  F !! x = Some a -> what a = XmlTree.Comment s -> F !! y = Some b -> what b = XmlTree.Text t cdata ->
  GetText p h = Ret (Some t) /\ QueryText c p h = Ret (XML_NO_TEXT_NODE, None).
Proof.
  intros Hs Hm Hk Hx Hwx Hy Hwy. split.
  - rewrite (GetText_spec h F ∅ p m Hs Hm), Hk. cbn. rewrite Hx. cbn. rewrite Hwx, Hy. cbn. by rewrite Hwy.
  - unfold QueryText. rewrite (get_conc h F ∅ p m Hs Hm). cbn. rewrite Hk. cbn.
    rewrite (get_conc h F ∅ x a Hs Hx). cbn. by rewrite Hwx.
Qed.
End Documents.

(** The types of the overloads, with the values of each. *)
Inductive overload : forall T : Type, conversion T -> (T -> Prop) -> Prop :=
  | over_int : overload Z int_conv is_i32
  | over_unsigned : overload Z unsigned_conv is_u32
  | over_int64 : overload Z int64_conv is_i64
  | over_uint64 : overload Z uint64_conv is_u64
  | over_bool : overload bool (bool_conv default_names) (fun _ => True).
Arguments overload {T}.

Lemma overload_reads_back T (c : conversion T) ok : overload c ok -> reads_back c ok.
Proof.
  intros []; [apply int_reads_back|apply unsigned_reads_back|apply int64_reads_back|apply uint64_reads_back|apply bool_reads_back].
Qed.

(** C10. Every [int], [unsigned], [int64_t], [uint64_t] and [bool] that is set as an
    attribute or as the text of an element is read back as that value, with success
    and whatever default is given.  A [bool] is written with the default names, "true" and
    "false": [XMLUtil::SetBoolSerialization] changes what [ToStr] writes and not what
    [ToBool] reads, so nothing is claimed after it was called. *)
Theorem values_read_back {P : Type} `{MemPoolLaws P} {T : Type} (c : conversion T) ok (h : heap (P := P)) F p m s l name v d :
  overload c ok -> ok v -> stands h F ∅ -> F !! p = Some m -> what m = XmlTree.Element s l ->
  (forall k, asked (docs h) (_document p) k < MAX_ELEMENTS) ->
  (exists h', SetAttributeTo c p name v h = Ret h' /\ QueryAttribute c p name h' = Ret (XML_SUCCESS, Some v) /\
    AttributeOr c p name d h' = Ret v) /\
  (exists h', SetTextTo c p v h = Ret h' /\ QueryText c p h' = Ret (XML_SUCCESS, Some v) /\ TextOr c p d h' = Ret v).
Proof.
  intros Ho%overload_reads_back Hv Hs Hm Hw Hroom.
  split; [by eapply attribute_reads_back|by eapply text_reads_back].
Qed.

(** The least [int64_t] in the first element of the document. *)
Lemma values_read_back_witness : exists h F a b, demo h F a b /\
  (exists h', SetAttributeTo int64_conv a [120] (- 2 ^ 63) h = Ret h' /\
    QueryAttribute int64_conv a [120] h' = Ret (XML_SUCCESS, Some (- 2 ^ 63)) /\ AttributeOr int64_conv a [120] 0 h' = Ret (- 2 ^ 63)) /\
  (exists h', SetTextTo int64_conv a (- 2 ^ 63) h = Ret h' /\
    QueryText int64_conv a h' = Ret (XML_SUCCESS, Some (- 2 ^ 63)) /\ TextOr int64_conv a 0 h' = Ret (- 2 ^ 63)).
Proof.
  destruct demo_exists as (h & F & a & b & Hd). exists h, F, a, b. split; [done|].
  eapply (values_read_back int64_conv is_i64 h F a); [constructor|by vm_compute|apply Hd|apply Hd|done|].
  intros k. pose proof (de_asked _ _ _ _ Hd (_document a) k). unfold MAX_ELEMENTS. lia.
Defined.

(** ** Values in the printer *)

(** [XMLPrinter::PushAttribute] and [PushText] of a value. *)
Definition PushAttributeTo {T} (c : conversion T) (name : str) (v : T) : XMLPrinter -> XMLPrinter := PushAttribute name (to_str c v).
Definition PushTextTo {T} (c : conversion T) (v : T) : XMLPrinter -> XMLPrinter := PushText (to_str c v) false.

Lemma print_loop_plain r l run : Forall (fun x => entity_flag r x = false) l -> (length (run ++ l) < BUF_SIZE)%nat ->
  print_loop r l run = run ++ l.
Proof.
  intros Hl. revert run. induction Hl as [|x l Hx Hl IH]; intros run Hlen; cbn [print_loop].
  - rewrite app_nil_r in *. apply take_ge. unfold toPrint, BUF_SIZE in *.
    rewrite (proj2 (Z.ltb_ge _ _)); unfold INT32_MAX; lia.
  - rewrite Hx, andb_false_r, IH by (by rewrite <- app_assoc). by rewrite <- app_assoc.
Qed.

(** The text of a value needs no entities. *)
Lemma value_plain T (c : conversion T) ok v r : overload c ok -> ok v ->
  Forall (fun x => entity_flag r x = false) (to_str c v) /\ (length (to_str c v) < BUF_SIZE)%nat.
Proof.
  assert (Hd : forall l, Forall (fun x => 48 <= x <= 57) l -> Forall (fun x => entity_flag r x = false) l).
  { intros l Hl. apply (Forall_impl _ _ _ Hl). intros x Hx.
    unfold entity_flag. cbn -[Z.eqb].
    unfold AMP, DOUBLE_QUOTE, SINGLE_QUOTE. destruct r; repeat apply orb_false_intro; first [done|apply Z.eqb_neq; lia]. }
  assert (Hn : forall z, Forall (fun x => entity_flag r x = false) (snprintf (bytes (to_string z))) /\
    (length (snprintf (bytes (to_string z))) < BUF_SIZE)%nat).
  { intros z. split; [apply Forall_take|unfold snprintf; rewrite length_take; unfold BUF_SIZE; lia].
    unfold to_string. destruct (number_digits (Z.abs z)) as (d & l & Hdl & ? & ? & _); [lia|].
    destruct (z <? 0); cbn [bytes]; rewrite Hdl; [constructor; [by destruct r|]|]; apply Hd; by constructor. }
  intros Ho. revert v. destruct Ho; intros v _; [apply Hn..|]. destruct v, r; split; vm_compute; repeat constructor.
Qed.

(** A value is printed as it is, with and without entities. *)
Lemma PushTextTo_writes T (c : conversion T) ok v p : overload c ok -> ok v ->
  written (PushTextTo c v p) = written p ++ (if _elementJustOpened p then [62] else []) ++ to_str c v.
Proof.
  intros Ho Hv. destruct (value_plain T c ok v true Ho Hv) as [Hp Hl].
  assert (Hw : forall e, PrintString e (to_str c v) true = to_str c v).
  { intros []; [|done]. by apply (print_loop_plain true _ []). }
  unfold PushTextTo, PushText, Print_string, SealElementIfJustOpened. cbn.
  destruct (_elementJustOpened p); cbn; rewrite Hw; by rewrite <- ?app_assoc.
Qed.
Lemma PushAttributeTo_writes T (c : conversion T) ok name v p : overload c ok -> ok v ->
  written (PushAttributeTo c name v p) = written p ++ [32] ++ name ++ [61; DOUBLE_QUOTE] ++ to_str c v ++ [DOUBLE_QUOTE].
Proof.
  intros Ho Hv. destruct (value_plain T c ok v false Ho Hv) as [Hp Hl].
  assert (Hw : forall e, PrintString e (to_str c v) false = to_str c v).
  { intros []; [|done]. by apply (print_loop_plain false _ []). }
  unfold PushAttributeTo, PushAttribute, Print_string. cbn. rewrite Hw. by rewrite <- !app_assoc.
Qed.

(** ** Numbers that are too large *)

(** A number without a meaning for the type is not refused: what [sscanf] does with it is
    undefined. *)
Lemma int_out_of_range z : Z.abs z < 10 ^ 20 -> ~ is_i32 z -> ToInt (bytes (to_string z)) = Undef.
Proof.
  intros Hz Hi. destruct (number_text z Hz) as (_ & Hhex & Hscan). unfold ToInt, sscanf_signed. rewrite Hhex, Hscan.
  destruct (in_i32 z) eqn:Hr; [|done]. exfalso. apply Hi. unfold in_i32 in Hr. boolprop. unfold is_i32. lia.
Qed.
