(* ===== verification/XmlVisit.v ===== *)
(** * Visitors of a tinyxml2 document

    [XMLVisitor] with [Accept] of every kind of node, which walks over the pointers of the nodes and
    lets the visitor decide how far to go, and the printer as a visitor.  A visitor is a
    record of operations on a state of its own.

    Theorems: the walk visits what the forest holds, in the order of the document; a
    visitor that refuses an element does not see what is below it, and its exit decides about the
    siblings; a printable document that was built by any calls is parsed from its print as it was
    built; a copy of a document is printed as the original. *)

From S2P Require Import Prelude XmlText XmlDocument XmlGrammar XmlRefine XmlPrinter XmlRoundtrip.
From S2P Require Import XmlPool XmlTree XmlForest XmlTreeProofs XmlDelete XmlClone XmlClient XmlFind.

(** ** The interface *)

Record XMLVisitor (S : Type) := Visitor {
  VisitEnter_doc : S -> ub (bool * S);
  VisitExit_doc : S -> ub (bool * S);
  VisitEnter_elem : list Z -> list (list Z * list Z) -> S -> ub (bool * S);
  VisitExit_elem : list Z -> list (list Z * list Z) -> S -> ub (bool * S);
  Visit_text : list Z -> bool -> S -> ub (bool * S);
  Visit_comment : list Z -> S -> ub (bool * S);
  Visit_declaration : list Z -> S -> ub (bool * S);
  Visit_unknown : list Z -> S -> ub (bool * S);
}.
Arguments VisitEnter_doc {S}. Arguments VisitExit_doc {S}. Arguments VisitEnter_elem {S}. Arguments VisitExit_elem {S}.
Arguments Visit_text {S}. Arguments Visit_comment {S}. Arguments Visit_declaration {S}. Arguments Visit_unknown {S}.

(** A visitor that overrides nothing. *)
Definition default_visitor (S : Type) : XMLVisitor S :=
  Visitor S (fun s => Ret (true, s)) (fun s => Ret (true, s)) (fun _ _ s => Ret (true, s)) (fun _ _ s => Ret (true, s))
    (fun _ _ s => Ret (true, s)) (fun _ s => Ret (true, s)) (fun _ s => Ret (true, s)) (fun _ s => Ret (true, s)).

Section Visit.
Context {S : Type} (V : XMLVisitor S).

(** [Accept] of a node whose children are visited by [children]. *)
Definition accept_content (c : content) (children : S -> ub S) (s : S) : ub (bool * S) :=
  match c with
  | XmlTree.Document =>
      '(b, s) ← VisitEnter_doc V s;
      s ← (if b : bool then children s else Ret s);
      VisitExit_doc V s
  | XmlTree.Element name attributes =>
      '(b, s) ← VisitEnter_elem V name attributes s;
      s ← (if b : bool then children s else Ret s);
      VisitExit_elem V name attributes s
  | XmlTree.Text v cdata => Visit_text V v cdata s
  | XmlTree.Comment v => Visit_comment V v s
  | XmlTree.Declaration v => Visit_declaration V v s
  | XmlTree.Unknown v => Visit_unknown V v s
  end.

(** ** The walk over the pointers *)

Section Heap.
Context {P : Type} `{MemPool P}.
Implicit Types (h : heap (P := P)).

(** The loop from a child on; as much fuel as there are nodes to visit is enough. *)
Fixpoint accept_children (fuel : nat) (cur : option node) (h : heap (P := P)) (s : S) : ub S :=
  match cur, fuel with
  | None, _ => Ret s
  | Some _, O => Undef
  | Some c, Datatypes.S fuel =>
      n ← XmlTree.get c h;
      '(b, s) ← accept_content (body n) (accept_children fuel (_firstChild n) h) s;
      if b : bool then accept_children fuel (_next n) h s else Ret s
  end.
Definition node_Accept (this : node) (h : heap (P := P)) (s : S) : ub (bool * S) :=
  n ← XmlTree.get this h;
  accept_content (body n) (accept_children (size (XmlTree.nodes h)) (_firstChild n) h) s.
End Heap.

(** ** The walk over a tree *)

Fixpoint visit (t : xtree) (s : S) : ub (bool * S) :=
  let '(XTree c ts) := t in
  accept_content c
    ((fix visit_all (ts : list xtree) (s : S) : ub S :=
        match ts with
        | [] => Ret s
        | t :: ts => '(b, s) ← visit t s; if b : bool then visit_all ts s else Ret s
        end) ts) s.
Fixpoint visit_all (ts : list xtree) (s : S) : ub S :=
  match ts with
  | [] => Ret s
  | t :: ts => '(b, s) ← visit t s; if b : bool then visit_all ts s else Ret s
  end.
Lemma visit_unfold c ts s : visit (XTree c ts) s = accept_content c (visit_all ts) s.
Proof. reflexivity. Qed.

Lemma accept_content_ext c f g s : (forall s, f s = g s) -> accept_content c f s = accept_content c g s.
Proof.
  intros Hfg. destruct c as [|name l| | | |]; cbn; try done;
    [destruct (VisitEnter_doc V s) as [|[[] ?]]|destruct (VisitEnter_elem V name l s) as [|[[] ?]]]; cbn; by rewrite ?Hfg.
Qed.

Section Refinement.
Context {P : Type} `{MemPoolLaws P}.
Implicit Types (h : heap (P := P)) (F : forest_map).

(** From a child on the loop visits the trees of that child and of those behind it. *)
Lemma accept_children_ok h F X : stands h F X -> forall fuel p m ts1 ts2 s,
  F !! p = Some m -> kids m = map top (ts1 ++ ts2) -> Forall (subtree F) ts2 -> (weight ts2 <= fuel)%nat ->
  accept_children fuel (head (map top ts2)) h s = visit_all (map (contents F) ts2) s.
Proof.
  intros Hs. induction fuel as [|fuel IH]; intros p m ts1 [|[a ts] ts2] s Hm Hk Hsub Hf; try done.
  - cbn in Hf. lia.
  - apply Forall_cons in Hsub as [Ht Hsub]. inversion Ht as [? n ? Hn Hkn Hts]; subst.
    unfold weight in Hf. cbn in Hf. rewrite length_app in Hf.
    rewrite map_app in Hk. cbn in Hk.
    destruct (kid_neighbours F p m (map top ts1) a (map top ts2) (s_forest _ _ _ Hs) Hm Hk) as (n' & Hn' & Hnext & _).
    rewrite Hn in Hn'. injection Hn' as <-.
    change (visit_all (map (contents F) (Shape a ts :: ts2)) s) with
      ('(b, s) ← visit (contents F (Shape a ts)) s; if b : bool then visit_all (map (contents F) ts2) s else Ret s).
    cbn [map head top accept_children contents]. rewrite (get_conc h F X a n Hs Hn), Hn, visit_unfold. cbn [mbind ub_bind].
    rewrite Hnext. cbn [pointers body _firstChild]. rewrite Hkn.
    rewrite (accept_content_ext _ _ (visit_all (map (contents F) ts))).
    2:{ intros s'. eapply (IH a n []); [done|done|done|]. unfold weight. lia. }
    destruct (accept_content _ _ _) as [|[[] s']]; cbn; [done| |done].
    apply (IH p m (ts1 ++ [Shape a ts])); [done| |done|unfold weight; lia].
    rewrite Hk, !map_app. cbn. by rewrite <- app_assoc.
Qed.

Lemma node_Accept_ok h F X t s : stands h F X -> subtree F t -> node_Accept (top t) h s = visit (contents F t) s.
Proof.
  intros Hs Ht. pose proof (subtree_size F t (s_forest _ _ _ Hs) Ht) as Hsize.
  inversion Ht as [a n ts Hn Hk Hts]; subst. unfold node_Accept. cbn [top contents].
  rewrite (get_conc h F X a n Hs Hn), Hn, visit_unfold. cbn -[accept_children weight] in *. rewrite Hk.
  apply accept_content_ext. intros s'. rewrite (nodes_size h F X Hs).
  apply (accept_children_ok h F X Hs _ a n []); [done|done|done|]. unfold weight. lia.
Qed.
End Refinement.

(** A visitor that refuses an element is not shown what is below it; whether it sees the
    siblings is decided by what it says at the exit. *)
Lemma refused_element name l ts us s s1 b s2 :
  VisitEnter_elem V name l s = Ret (false, s1) -> VisitExit_elem V name l s1 = Ret (b, s2) ->
  visit_all (XTree (XmlTree.Element name l) ts :: us) s = if b then visit_all us s2 else Ret s2.
Proof. intros He Hx. cbn. rewrite He. cbn. by rewrite Hx. Qed.
End Visit.

(** ** The printer as a visitor *)

Definition attributes_of (l : list (list Z * list Z)) : list attribute := (fun a => XmlGrammar.Attribute 0 a.1 a.2) <$> l.
(** [_processEntities] and [_writeBOM] of the document. *)
Definition printer_visitor (processEntities hasBOM : bool) : XMLVisitor XMLPrinter := {|
  VisitEnter_doc p := Ret (true, VisitEnter_document processEntities hasBOM p);
  VisitExit_doc p := Ret (true, p);
  VisitEnter_elem name l p := Ret (true, VisitEnter_element name (attributes_of l) p);
  VisitExit_elem _ _ p := p ← VisitExit_element p; Ret (true, p);
  Visit_text v cdata p := Ret (true, PushText v cdata p);
  Visit_comment v p := Ret (true, PushComment v p);
  Visit_declaration v p := Ret (true, PushDeclaration v p);
  Visit_unknown v p := Ret (true, PushUnknown v p);
|}.

(** The tree of a node as the parser gives it, without lines; a node that is no element shows no
    children. *)
Fixpoint xml_of (t : xtree) : xml :=
  let '(XTree c ts) := t in
  match c with
  | XmlTree.Document => XmlGrammar.Element 0 [] [] (map xml_of ts)
  | XmlTree.Element name l => XmlGrammar.Element 0 name (attributes_of l) (map xml_of ts)
  | XmlTree.Text v cdata => XmlGrammar.Text 0 cdata v
  | XmlTree.Comment v => XmlGrammar.Comment 0 v
  | XmlTree.Declaration v => XmlGrammar.Declaration 0 v
  | XmlTree.Unknown v => XmlGrammar.Unknown 0 v
  end.

Lemma xtree_ind' (Q : xtree -> Prop) : (forall c ts, Forall Q ts -> Q (XTree c ts)) -> forall t, Q t.
Proof.
  intros HQ. fix IH 1. intros [c ts]. apply HQ. induction ts as [|t ts IHts]; constructor; [apply IH|apply IHts].
Qed.

Lemma unlined_xml_of t : unlined (xml_of t) = xml_of t.
Proof.
  induction t as [c ts IH] using xtree_ind'. destruct c; cbn; try done; f_equal.
  - rewrite map_map. apply map_ext_Forall. exact IH.
  - unfold attributes_of. rewrite <- list_fmap_compose. by apply list_fmap_ext.
  - rewrite map_map. apply map_ext_Forall. exact IH.
Qed.

(** No document is inside the tree. *)
Inductive inner : xtree -> Prop :=
  inner_intro c ts : c <> XmlTree.Document -> Forall inner ts -> inner (XTree c ts).

Section Printer.
Context (processEntities hasBOM : bool).
Abbreviation V := (printer_visitor processEntities hasBOM).

Lemma visit_all_printer ts :
  Forall (fun t => inner t -> forall p, visit V t p = (p ← Accept (xml_of t) p; Ret (true, p))) ts -> Forall inner ts ->
  forall p, visit_all V ts p = Accept_all (map xml_of ts) p.
Proof.
  induction 1 as [|t ts Ht Hts IH]; intros Hin p; cbn; [done|]. apply Forall_cons in Hin as [Hi Hin]. rewrite Ht by done.
  destruct (Accept _ p); cbn; [done|]. by apply IH.
Qed.

Lemma visit_printer t : inner t -> forall p, visit V t p = (p ← Accept (xml_of t) p; Ret (true, p)).
Proof.
  induction t as [c ts IH] using xtree_ind'. intros Hi p. inversion Hi as [? ? Hc Hts]; subst.
  rewrite visit_unfold. destruct c; try done.
  change (xml_of (XTree (XmlTree.Element name attributes) ts)) with (XmlGrammar.Element 0 name (attributes_of attributes) (map xml_of ts)).
  rewrite Accept_children. cbn. rewrite (visit_all_printer ts IH Hts). by destruct (Accept_all _ _).
Qed.

Lemma visit_document ts p : Forall inner ts ->
  visit V (XTree XmlTree.Document ts) p = (p ← Accept_document processEntities hasBOM (map xml_of ts) p; Ret (true, p)).
Proof.
  intros Hts. rewrite visit_unfold. cbn. unfold Accept_document.
  rewrite visit_all_printer by (done || apply Forall_forall; auto using visit_printer). done.
Qed.
End Printer.

(** ** Documents that were built *)

Section Built.
Context {P : Type} `{MemPoolLaws P}.
Implicit Types (h : heap (P := P)) (F : forest_map).

(** Below a document there are only nodes of the other kinds. *)
Lemma contents_inner h F X t : stands h F X -> subtree F t -> ToDocument (top t) = false -> inner (contents F t).
Proof.
  intros Hs. induction t as [a ts IH] using shape_ind'. intros Ht Ha. inversion Ht as [? n ? Hn Hk Hts]; subst. cbn in *.
  rewrite Hn. constructor.
  - intros Hw. pose proof (b_kind _ _ _ (s_books _ _ _ Hs) a n Hn) as Hkind. rewrite Hw in Hkind. by destruct a.
  - rewrite Forall_map, Forall_forall in *. intros t Hin. apply IH; [done|auto|].
    destruct (f_kids _ (s_forest _ _ _ Hs) a n (top t) Hn) as (b & Hb & Hu).
    { rewrite Hk. apply list_elem_of_fmap. eauto. }
    destruct (top t) as [d|] eqn:Htop; [|done]. by rewrite (f_root _ (s_forest _ _ _ Hs) d b Hb) in Hu.
Qed.

Lemma document_contents h F X d ts : stands h F X -> subtree F (Shape (DocNode d) ts) ->
  contents F (Shape (DocNode d) ts) = XTree XmlTree.Document (map (contents F) ts) /\ Forall inner (map (contents F) ts).
Proof.
  intros Hs Ht. inversion Ht as [? n ? Hn Hk Hts]; subst. pose proof (b_kind _ _ _ (s_books _ _ _ Hs) _ n Hn) as Hkind. split.
  - cbn. rewrite Hn. by destruct (what n).
  - rewrite Forall_map, Forall_forall in *. intros t Hin. apply (contents_inner h F X t Hs); [auto|].
    destruct (f_kids _ (s_forest _ _ _ Hs) _ n (top t) Hn) as (b & Hb & Hu).
    { rewrite Hk. apply list_elem_of_fmap. eauto. }
    destruct (top t) as [d'|] eqn:Htop; [|done]. by rewrite (f_root _ (s_forest _ _ _ Hs) d' b Hb) in Hu.
Qed.

(** The nodes of a document with these subtrees. *)
Definition document_nodes F (ts : list shape) : list xml := map xml_of (map (contents F) ts).

Lemma printed_document processEntities hasBOM h F X d ts p :
  stands h F X -> subtree F (Shape (DocNode d) ts) ->
  node_Accept (printer_visitor processEntities hasBOM) (DocNode d) h p =
    (p ← Accept_document processEntities hasBOM (document_nodes F ts) p; Ret (true, p)).
Proof.
  intros Hs Ht. destruct (document_contents h F X d ts Hs Ht) as [Hc Hin].
  pose proof (node_Accept_ok (printer_visitor processEntities hasBOM) h F X _ p Hs Ht) as Ha. cbn [top] in Ha.
  rewrite Ha, Hc. by apply visit_document.
Qed.

Lemma unlined_document F ts : map unlined (document_nodes F ts) = document_nodes F ts.
Proof. unfold document_nodes. rewrite map_map. apply map_ext. apply unlined_xml_of. Qed.

(** C6. A printable document that was built by any calls of the interface is printed by the
    visitor, through the pointers of its nodes, without an error, compact or indented, and
    parsing the text (if it is shorter than 2^31 - 1 bytes) gives the nodes that were built,
    in their order, with their names, attributes and values.  Entities are
    processed and white space is preserved, as by default.  The interface can build more
    than the text can carry; [printable_document] says what is left out: empty documents,
    text outside of the elements, texts that are empty or only white space or next to
    each other, names that the parser does not accept, attributes twice, declarations in other places,
    nesting beyond 98, strings with a NUL or a carriage return, and nodes that contain their own end or, for an
    unknown node, begin like a comment or a CDATA section. *)
Theorem built_document_parses compact hasBOM h F d ts y :
  sound h F -> subtree F (Shape (DocNode d) ts) -> printable_document (document_nodes F ts) ->
  exists p, node_Accept (printer_visitor true hasBOM) (DocNode d) h (new_printer compact 0) = Ret (true, p) /\
    (Z.of_nat (length (written p)) < INT32_MAX ->
     exists z, XmlDocument.Parse true PRESERVE_WHITESPACE (written p ++ [0]) None y = Ret z /\
       error (document_of z) = XML_SUCCESS /\ with_bom (document_of z) = hasBOM /\
       map unlined (XmlGrammar.nodes (document_of z)) = document_nodes F ts /\ readable z).
Proof.
  intros [Hs _] Ht Hd. destruct (document_read compact hasBOM _ Hd) as (p & xs & Hp & Htext & Hdoc & Hxs).
  exists p. rewrite (printed_document true hasBOM h F ∅ d ts _ Hs Ht), Hp. split; [done|]. intros Hlen.
  assert (Hn : until_nul (written p ++ [0]) = written p).
  { by apply until_nul_app. }
  destruct (Parse_document true PRESERVE_WHITESPACE (written p ++ [0]) None y) as (z & Hz & Hof & _ & Hr).
  { set_solver. }
  { by rewrite Hn, until_nul_id. }
  exists z. split; [done|]. rewrite Hn, until_nul_id, Hdoc in Hof by done.
  rewrite bool_decide_eq_false_2 in Hof by (intros E; rewrite E in Hdoc; discriminate Hdoc).
  rewrite Hof. unfold cleaned. cbn [error]. rewrite bool_decide_eq_true_2 by done. cbn.
  rewrite Hxs, unlined_document. by split_and!.
Qed.

(** Printing a copy gives what printing the original gives. *)
Theorem copy_prints_alike h F this target B ts processEntities hasBOM p :
  stands h F ∅ -> all_attributes_ok F -> this <> target -> docs h !! target = Some B -> subtree F (Shape (DocNode this) ts) ->
  (forall k, asked (docs h) target k + Z.of_nat (weight ts) <= MAX_ELEMENTS) ->
  exists h', DeepCopy (2 * size F + 1) this target h = Ret h' /\
    node_Accept (printer_visitor processEntities hasBOM) (DocNode target) h' p =
    node_Accept (printer_visitor processEntities hasBOM) (DocNode this) h p.
Proof.
  intros Hs Hat Hne HB Ht Hroom.
  destruct (deep_copy_ok h F this target B ts (2 * size F + 1) Hs Hat Hne HB Ht Hroom) as (h' & F' & ts' & Hc & Hs' & Ht' & Hco & _);
    [done|].
  exists h'. split; [done|]. rewrite (printed_document _ _ h F ∅ this ts p Hs Ht), (printed_document _ _ h' F' ∅ target ts' p Hs' Ht').
  unfold document_nodes. by rewrite Hco.
Qed.
End Built.

(** Two elements, printed and read. *)
Lemma built_document_parses_witness : exists h F a b p, demo h F a b /\
  node_Accept (printer_visitor true false) (DocNode 0) h (new_printer false 0) = Ret (true, p) /\
    (Z.of_nat (length (written p)) < INT32_MAX ->
     exists z, XmlDocument.Parse true PRESERVE_WHITESPACE (written p ++ [0]) None new_document = Ret z /\
       map unlined (XmlGrammar.nodes (document_of z)) = [XmlGrammar.Element 0 [97] [] []; XmlGrammar.Element 0 [98] [] []]).
Proof.
  destruct demo_exists as (h & F & a & b & Hd).
  assert (Hn : document_nodes F [Shape a []; Shape b []] = [XmlGrammar.Element 0 [97] [] []; XmlGrammar.Element 0 [98] [] []]).
  { unfold document_nodes. cbn. by rewrite (de_a _ _ _ _ Hd), (de_b _ _ _ _ Hd). }
  destruct (built_document_parses false false h F 0 [Shape a []; Shape b []] new_document (de_sound _ _ _ _ Hd)
    (demo_subtree h F a b Hd)) as (p & Hp & Hz).
  - rewrite Hn. split; [done|]. split; [split; [|split]|split].
    + eexists [], _. split; [reflexivity|]. split; [done | solve_sample].
    + solve_sample.
    + easy.
    + solve_sample.
    + solve_sample.
  - exists h, F, a, b, p. split; [done|]. split; [done|]. intros Hlen. destruct (Hz Hlen) as (z & Hz1 & _ & _ & Hz2 & _).
    exists z. by rewrite Hz2, Hn.
Defined.
