(* ===== verification/XmlAttributes.v ===== *)
(** * The attributes of elements in memory

    [compat/tinyxml2-v34/tinyxml2.cpp], [XMLElement]: the attributes of an element are
    objects of the document's attribute pool, linked from [_rootAttribute] on.  [XmlTree]
    has them as a list of names and values; here they are cells with addresses, for
    all elements of a document, and a cell that is gone or was never given out is [Undef].

    Theorem: whatever is done with the attributes of elements in whatever order, the links
    of each element stand for its list, and the operations do to the list what [XmlTree]
    says they do; no cell is in two lists, and a cell is allocated exactly as long as it is
    in one. *)

From S2P Require Import Prelude XmlPool XmlTree XmlForest XmlFind.

(** ** Memory *)

Record XMLAttribute := Attrib { _name : list Z; _value : list Z; at_next : option nat }.

Section Attributes.
Context {P : Type} `{MemPool P}.

(** The cells of a document and the [_rootAttribute] of its elements. *)
Record attr_heap := AHeap {
  cells : gmap nat XMLAttribute;
  _rootAttribute : gmap node (option nat);
  _attributePool : P;
}.

Definition cell (a : nat) (h : attr_heap) : ub XMLAttribute :=
  match cells h !! a with Some c => Ret c | None => Undef end.
Definition write_cell (a : nat) (f : XMLAttribute -> XMLAttribute) (h : attr_heap) : ub attr_heap :=
  c ← cell a h; Ret (AHeap (<[a := f c]> (cells h)) (_rootAttribute h) (_attributePool h)).
Definition root_of (e : node) (h : attr_heap) : ub (option nat) :=
  match _rootAttribute h !! e with Some r => Ret r | None => Undef end.
Definition write_root (e : node) (r : option nat) (h : attr_heap) : attr_heap :=
  AHeap (cells h) (<[e := r]> (_rootAttribute h)) (_attributePool h).

(** ** Operations *)

Definition XMLElement_new (e : node) (h : attr_heap) : attr_heap := write_root e None h.

Definition CreateAttribute (h : attr_heap) : ub (nat * attr_heap) :=
  '(a, p) ← Alloc (_attributePool h);
  p ← SetTracked p;
  Ret (a, AHeap (<[a := Attrib [] [] None]> (cells h)) (_rootAttribute h) p).
(** The static [DeleteAttribute]. *)
Definition free_attribute (a : nat) (h : attr_heap) : ub attr_heap :=
  _ ← cell a h;
  p ← Free a (_attributePool h);
  Ret (AHeap (delete a (cells h)) (_rootAttribute h) p).

(** The loops over the attributes: the first with the name, and the one in front of it.  There are
    no more attributes than cells. *)
Fixpoint seek (fuel : nat) (name : list Z) (prev cur : option nat) (h : attr_heap) : ub (option nat * option nat) :=
  match cur, fuel with
  | None, _ => Ret (prev, None)
  | Some _, O => Undef
  | Some a, S fuel =>
      c ← cell a h;
      if decide (_name c = name) then Ret (prev, Some a) else seek fuel name (Some a) (at_next c) h
  end.
Definition seek_from (e : node) (name : list Z) (h : attr_heap) : ub (option nat * option nat) :=
  r ← root_of e h; seek (size (cells h)) name None r h.

Definition elem_FindAttribute (e : node) (name : list Z) (h : attr_heap) : ub (option nat) :=
  '(_, a) ← seek_from e name h; Ret a.

(** [last->_next = attrib], or the first attribute. *)
Definition link_attribute (e : node) (last : option nat) (a : option nat) (h : attr_heap) : ub attr_heap :=
  match last with
  | Some l => write_cell l (fun c => Attrib (_name c) (_value c) a) h
  | None => Ret (write_root e a h)
  end.

Definition FindOrCreateAttribute (e : node) (name : list Z) (h : attr_heap) : ub (nat * attr_heap) :=
  '(last, attrib) ← seek_from e name h;
  match attrib with
  | Some a => Ret (a, h)
  | None =>
      '(a, h) ← CreateAttribute h;
      h ← link_attribute e last (Some a) h;
      h ← write_cell a (fun c => Attrib name (_value c) (at_next c)) h;
      Ret (a, h)
  end.
Definition elem_SetAttribute (e : node) (name value : list Z) (h : attr_heap) : ub attr_heap :=
  '(a, h) ← FindOrCreateAttribute e name h;
  write_cell a (fun c => Attrib (_name c) value (at_next c)) h.
Definition elem_DeleteAttribute (e : node) (name : list Z) (h : attr_heap) : ub attr_heap :=
  '(prev, attrib) ← seek_from e name h;
  match attrib with
  | Some a =>
      c ← cell a h;
      h ← link_attribute e prev (at_next c) h;
      free_attribute a h
  | None => Ret h
  end.

(** A round of [ParseAttributes]: an attribute that was read as [name] and [value] goes behind
    [prevAttribute], unless there is one of its name. *)
Definition parsed_attribute (e : node) (prevAttribute : option nat) (name value : list Z) (h : attr_heap) : ub (option nat * attr_heap) :=
  '(a, h) ← CreateAttribute h;
  h ← write_cell a (fun c => Attrib name value (at_next c)) h;
  found ← elem_FindAttribute e name h;
  match found with
  | Some _ => h ← free_attribute a h; Ret (None, h)
  | None => h ← link_attribute e prevAttribute (Some a) h; Ret (Some a, h)
  end.

(** A round whose [ParseDeep] fails: the attribute is deleted again, whatever was read of it. *)
Definition unread_attribute (h : attr_heap) : ub attr_heap :=
  '(a, h) ← CreateAttribute h; free_attribute a h.

(** The attributes of a tag, [None] where one cannot be read; whether all were read and are
    different. *)
Fixpoint parse_attributes (e : node) (prevAttribute : option nat) (read : list (option (list Z * list Z))) (h : attr_heap) : ub (bool * attr_heap) :=
  match read with
  | [] => Ret (true, h)
  | None :: _ => h ← unread_attribute h; Ret (false, h)
  | Some (name, value) :: read =>
      '(a, h) ← parsed_attribute e prevAttribute name value h;
      match a with
      | Some a => parse_attributes e (Some a) read h
      | None => Ret (false, h)
      end
  end.

(** [~XMLElement]. *)
Fixpoint delete_attributes (fuel : nat) (e : node) (h : attr_heap) : ub attr_heap :=
  r ← root_of e h;
  match r, fuel with
  | None, _ => Ret h
  | Some _, O => Undef
  | Some a, S fuel =>
      c ← cell a h;
      h ← free_attribute a h;
      delete_attributes fuel e (write_root e (at_next c) h)
  end.
Definition XMLElement_delete (e : node) (h : attr_heap) : ub attr_heap :=
  h ← delete_attributes (size (cells h)) e h;
  Ret (AHeap (cells h) (delete e (_rootAttribute h)) (_attributePool h)).
End Attributes.
Arguments attr_heap : clear implicits.

(** ** What the cells stand for *)

(** A cell with its name and value. *)
Abbreviation entry := (nat * (list Z * list Z))%type.

(** The cells from [cur] up to [fin]. *)
Fixpoint segment (C : gmap nat XMLAttribute) (cur : option nat) (l : list entry) (fin : option nat) : Prop :=
  match l with
  | [] => cur = fin
  | (a, (n, v)) :: l => cur = Some a /\ exists next, C !! a = Some (Attrib n v next) /\ segment C next l fin
  end.
Definition chain C (cur : option nat) (l : list entry) : Prop := segment C cur l None.

Lemma segment_frame C C' l fin : forall cur,
  segment C cur l fin -> (forall a, a ∈ l.*1 -> C' !! a = C !! a) -> segment C' cur l fin.
Proof.
  induction l as [|[a [n v]] l IH]; intros cur; cbn; [done|]. intros (-> & next & Hc & Hl) HC. split; [done|].
  exists next. rewrite HC by set_solver. split; [done|]. apply IH; [done|]. set_solver.
Qed.

Lemma segment_live C l fin : forall cur a, segment C cur l fin -> a ∈ l.*1 -> is_Some (C !! a).
Proof.
  induction l as [|[b [n v]] l IH]; intros cur a; cbn; [set_solver|]. intros (-> & next & Hc & Hl).
  rewrite elem_of_cons. intros [->|Ha]; [by eexists|by eapply IH].
Qed.

Lemma segment_app C l1 l2 fin : forall cur,
  segment C cur (l1 ++ l2) fin <-> exists mid, segment C cur l1 mid /\ segment C mid l2 fin.
Proof.
  induction l1 as [|[a [n v]] l1 IH]; intros cur; cbn; [naive_solver|]. split.
  - intros (-> & next & Hc & (mid & ? & ?)%IH). exists mid. eauto.
  - intros (mid & (-> & next & Hc & Hl1) & Hl2). split; [done|]. exists next. split; [done|]. apply IH. eauto.
Qed.

(** Cells that change where the chain is not, and one that changes its name or value. *)
Lemma segment_insert C l cur fin a c : segment C cur l fin -> (a ∉ l.*1) -> segment (<[a := c]> C) cur l fin.
Proof. intros Hs Ha. apply (segment_frame C); [done|]. intros b Hb. rewrite lookup_insert_ne; [done|]. by intros ->. Qed.
Lemma segment_delete C l cur fin a : segment C cur l fin -> (a ∉ l.*1) -> segment (delete a C) cur l fin.
Proof. intros Hs Ha. apply (segment_frame C); [done|]. intros b Hb. rewrite lookup_delete_ne; [done|]. by intros ->. Qed.

Lemma nodup_entry (l1 l2 : list entry) a x : NoDup (l1 ++ (a, x) :: l2).*1 ->
  (a ∉ l1.*1) /\ (a ∉ l2.*1) /\ NoDup (l1 ++ l2).*1.
Proof. rewrite !fmap_app, fmap_cons. by intros (? & ? & ?)%NoDup_middle. Qed.

Lemma chain_entry C r l1 a n v l2 : chain C r (l1 ++ (a, (n, v)) :: l2) ->
  exists next, C !! a = Some (Attrib n v next) /\ segment C r l1 (Some a) /\ chain C next l2.
Proof. intros (mid & Hl1 & (-> & next & Hc & Hl2))%segment_app. eauto. Qed.

Lemma chain_change C r l1 a n v l2 n' v' next : chain C r (l1 ++ (a, (n, v)) :: l2) -> NoDup (l1 ++ (a, (n, v)) :: l2).*1 ->
  C !! a = Some (Attrib n v next) -> chain (<[a := Attrib n' v' next]> C) r (l1 ++ (a, (n', v')) :: l2).
Proof.
  intros (next' & Hc & Hl1 & Hl2)%chain_entry (Ha1 & Ha2 & _)%nodup_entry Hc'. rewrite Hc in Hc'. injection Hc' as ->.
  apply segment_app. exists (Some a). split; [by apply segment_insert|]. split; [done|]. exists next.
  rewrite lookup_insert_eq. split; [done|]. by apply segment_insert.
Qed.

(** The last address of a list, or what is in front of it. *)
Definition last_of (prev : option nat) (l : list entry) : option nat :=
  match last l.*1 with Some a => Some a | None => prev end.
Lemma last_of_cons prev a x l : last_of prev ((a, x) :: l) = last_of (Some a) l.
Proof. unfold last_of. rewrite fmap_cons, last_cons. by destruct (last l.*1). Qed.

Section Laws.
Context {P : Type} `{MemPoolLaws P}.
Implicit Types (h : attr_heap P) (A : gmap node (list entry)).

Record holds h A : Prop := {
  ho_lists e : match A !! e with
               | Some l => exists r, _rootAttribute h !! e = Some r /\ chain (cells h) r l
               | None => _rootAttribute h !! e = None
               end;
  ho_nodup e l : A !! e = Some l -> NoDup l.*1;
  ho_apart e1 l1 e2 l2 a : A !! e1 = Some l1 -> A !! e2 = Some l2 -> a ∈ l1.*1 -> a ∈ l2.*1 -> e1 = e2;
  ho_cells a : is_Some (cells h !! a) -> exists e l, A !! e = Some l /\ a ∈ l.*1;
  ho_used : used (_attributePool h) = dom (cells h);
  ho_pool : pool_ok (_attributePool h) /\ Untracked (_attributePool h) = 0;
}.

(** The addresses of an element's attributes. *)
Definition addresses A (e : node) : list nat := (default [] (A !! e)).*1.

(** A change that concerns the attributes of one element. *)
Lemma holds_update h A e h' r' l' :
  holds h A -> _rootAttribute h' = <[e := r']> (_rootAttribute h) -> chain (cells h') r' l' -> NoDup l'.*1 ->
  (forall a, a ∈ l'.*1 -> a ∉ addresses A e -> cells h !! a = None) ->
  (forall a, a ∉ l'.*1 -> cells h' !! a = if decide (a ∈ addresses A e) then None else cells h !! a) ->
  used (_attributePool h') = dom (cells h') -> pool_ok (_attributePool h') /\ Untracked (_attributePool h') = 0 ->
  holds h' (<[e := l']> A).
Proof.
  intros [Hl Hnd Hap Hce _ _] Hroot Hch Hnd' Hnew Hold Hu Hp.
  assert (Hother : forall e2 l2 a, A !! e2 = Some l2 -> e2 <> e -> a ∈ l2.*1 -> (a ∉ l'.*1) /\ (a ∉ addresses A e)).
  { intros e2 l2 a He2 Hne Ha. assert (Hna : a ∉ addresses A e).
    { unfold addresses. destruct (A !! e) as [l|] eqn:He; cbn; [|set_solver]. intros Ha'. by apply Hne, (Hap e2 l2 e l a). }
    split; [|done]. intros Ha'. specialize (Hnew a Ha' Hna). specialize (Hl e2). rewrite He2 in Hl.
    destruct Hl as (r & _ & Hc). destruct (segment_live _ _ _ _ _ Hc Ha). congruence. }
  split; [| | | |done|done].
  - intros e2. rewrite Hroot. destruct (decide (e2 = e)) as [->|Hne].
    + rewrite !lookup_insert_eq. eauto.
    + rewrite !lookup_insert_ne by done. specialize (Hl e2). destruct (A !! e2) as [l2|] eqn:He2; [|done].
      destruct Hl as (r & Hr & Hc). exists r. split; [done|]. apply (segment_frame _ _ _ _ _ Hc). intros a Ha.
      destruct (Hother e2 l2 a He2 Hne Ha). rewrite Hold by done. by case_decide.
  - intros e2 l2 [[<- <-]|[? ?]]%lookup_insert_Some; [done|eauto].
  - intros e1 l1 e2 l2 a [[<- <-]|[Hn1 H1]]%lookup_insert_Some [[<- <-]|[Hn2 H2]]%lookup_insert_Some Ha1 Ha2; [done|..].
    + exfalso. by destruct (Hother e2 l2 a H2 (not_eq_sym Hn2) Ha2).
    + exfalso. by destruct (Hother e1 l1 a H1 (not_eq_sym Hn1) Ha1).
    + eauto.
  - intros a Ha. destruct (decide (a ∈ l'.*1)) as [Hin|Hni]; [exists e, l'; by rewrite lookup_insert_eq|].
    rewrite Hold in Ha by done. case_decide as Hd; [by destruct Ha|].
    destruct (Hce a Ha) as (e2 & l2 & He2 & Hin2). exists e2, l2. rewrite lookup_insert_ne; [done|].
    intros ->. apply Hd. unfold addresses. by rewrite He2.
Qed.

(** ** The loops *)

Lemma seek_ok h name l : forall fuel prev cur, chain (cells h) cur l -> (length l <= fuel)%nat ->
  (exists l1 a v l2, l = l1 ++ (a, (name, v)) :: l2 /\ (name ∉ l1.*2.*1) /\
     seek fuel name prev cur h = Ret (last_of prev l1, Some a)) \/
  ((name ∉ l.*2.*1) /\ seek fuel name prev cur h = Ret (last_of prev l, None)).
Proof.
  induction l as [|[a [n v]] l IH]; intros fuel prev cur Hch Hf.
  - cbn in Hch. subst cur. right. split; [set_solver|]. by destruct fuel.
  - destruct Hch as (-> & next & Hc & Hl). destruct fuel as [|fuel]; [cbn in Hf; lia|]. cbn [seek].
    unfold cell. rewrite Hc. cbn. case_decide as Hn.
    + subst n. left. exists [], a, v, l. split; [done|]. split; [set_solver|done].
    + destruct (IH fuel (Some a) next Hl) as [(l1 & b & w & l2 & -> & Hni & Hs)|[Hni Hs]]; [cbn in Hf; lia|..].
      * left. exists ((a, (n, v)) :: l1), b, w, l2. rewrite last_of_cons. split; [done|]. split; [set_solver|done].
      * right. rewrite last_of_cons. split; [set_solver|done].
Qed.

Lemma chain_size C r l : chain C r l -> NoDup l.*1 -> (length l <= size C)%nat.
Proof.
  intros Hc Hnd. rewrite <- (length_fmap fst), <- (size_list_to_set (C := gset nat) l.*1), <- (size_dom (D := gset nat)) by done.
  apply subseteq_size. intros a. rewrite elem_of_list_to_set, elem_of_dom. intros Ha. by eapply segment_live.
Qed.

Lemma list_of h A e l : holds h A -> A !! e = Some l ->
  exists r, _rootAttribute h !! e = Some r /\ chain (cells h) r l /\ NoDup l.*1.
Proof.
  intros Hh He. pose proof (ho_lists _ _ Hh e) as Hl. rewrite He in Hl. destruct Hl as (r & ? & ?).
  exists r. split_and!; [done..|]. by eapply ho_nodup.
Qed.

Lemma seek_from_ok h A e l name : holds h A -> A !! e = Some l ->
  (exists l1 a v l2, l = l1 ++ (a, (name, v)) :: l2 /\ (name ∉ l1.*2.*1) /\ seek_from e name h = Ret (last_of None l1, Some a)) \/
  ((name ∉ l.*2.*1) /\ seek_from e name h = Ret (last_of None l, None)).
Proof.
  intros Hh He. destruct (list_of h A e l Hh He) as (r & Hr & Hc & Hnd). unfold seek_from, root_of. rewrite Hr.
  apply seek_ok; [done|]. by eapply chain_size.
Qed.

(** Another list behind a part of the attributes. *)
Lemma link_ok h e r l1 l2 t l2' : _rootAttribute h !! e = Some r -> chain (cells h) r (l1 ++ l2) -> NoDup l1.*1 ->
  chain (cells h) t l2' -> (forall a, a ∈ l1.*1 -> a ∉ l2'.*1) ->
  exists h' r', link_attribute e (last_of None l1) t h = Ret h' /\ _rootAttribute h' = <[e := r']> (_rootAttribute h) /\
    chain (cells h') r' (l1 ++ l2') /\ _attributePool h' = _attributePool h /\ dom (cells h') = dom (cells h) /\
    (forall a, a ∉ l1.*1 -> cells h' !! a = cells h !! a).
Proof.
  intros Hr Hc Hnd Ht Hdis. destruct l1 as [|[z [n v]] l0 _] using rev_ind.
  - eexists (write_root e t h), t. split; [done|]. by split_and!.
  - rewrite <- app_assoc in Hc. cbn in Hc. apply chain_entry in Hc as (mid & Hz & Hl0 & _).
    rewrite fmap_app in Hnd. cbn in Hnd. apply NoDup_app in Hnd as (_ & Hz0 & _).
    assert (Hlast : last_of None (l0 ++ [(z, (n, v))]) = Some z) by (unfold last_of; rewrite fmap_app; change [(z, (n, v))].*1 with [z]; by rewrite last_snoc).
    rewrite Hlast. cbn. unfold write_cell, cell. rewrite Hz. cbn. eexists _, r. split; [done|]. cbn.
    assert (z ∉ l0.*1) by (intros Hin; apply (Hz0 z Hin); set_solver).
    split; [by rewrite insert_id|]. split; [|split; [done|split]].
    + rewrite <- app_assoc. cbn. apply segment_app. exists (Some z). split; [by apply segment_insert|]. split; [done|].
      exists t. rewrite lookup_insert_eq. split; [done|]. apply segment_insert; [done|]. apply Hdis. rewrite fmap_app. set_solver.
    + rewrite dom_insert_L. apply elem_of_dom_2 in Hz. set_solver.
    + intros a Ha. rewrite lookup_insert_ne; [done|]. intros ->. apply Ha. rewrite fmap_app. set_solver.
Qed.

(** ** The operations *)

(** The lists as [XmlTree] has them. *)
Lemma set_attribute_found name value l1 v (l2 : list (list Z * list Z)) : name ∉ l1.*1 ->
  set_attribute name value (l1 ++ (name, v) :: l2) = l1 ++ (name, value) :: l2.
Proof.
  induction l1 as [|[n w] l1 IH]; cbn; intros Hni; [by rewrite decide_True|].
  apply not_elem_of_cons in Hni as [Hne Hni]. rewrite decide_False by done. by rewrite IH.
Qed.
Lemma set_attribute_absent name value l : name ∉ l.*1 -> set_attribute name value l = l ++ [(name, value)].
Proof.
  induction l as [|[n w] l IH]; cbn; intros Hni; [done|].
  apply not_elem_of_cons in Hni as [Hne Hni]. rewrite decide_False by done. by rewrite IH.
Qed.
Lemma delete_attribute_found name l1 v (l2 : list (list Z * list Z)) : name ∉ l1.*1 ->
  delete_attribute name (l1 ++ (name, v) :: l2) = l1 ++ l2.
Proof.
  induction l1 as [|[n w] l1 IH]; cbn; intros Hni; [by rewrite decide_True|].
  apply not_elem_of_cons in Hni as [Hne Hni]. rewrite decide_False by done. by rewrite IH.
Qed.
Lemma delete_attribute_none name l : name ∉ l.*1 -> delete_attribute name l = l.
Proof.
  induction l as [|[n w] l IH]; cbn; intros Hni; [done|].
  apply not_elem_of_cons in Hni as [Hne Hni]. rewrite decide_False by done. by rewrite IH.
Qed.

Lemma create_attribute_ok h A : holds h A -> allocs (_attributePool h) < MAX_ELEMENTS ->
  exists a p, CreateAttribute h = Ret (a, AHeap (<[a := Attrib [] [] None]> (cells h)) (_rootAttribute h) p) /\
    cells h !! a = None /\ used p = {[a]} ∪ dom (cells h) /\ pool_ok p /\ Untracked p = 0 /\
    allocs p = allocs (_attributePool h) + 1.
Proof.
  intros [_ _ _ _ Hu [Hp Ht]] Hroom. destruct (alloc_ok _ Hp Hroom) as (a & p1 & Ha & Hp1 & Hni & Hu1 & Hal & Ht1).
  destruct (tracked_ok p1 Hp1) as (p2 & Hs & Hp2 & Hu2 & Hal2 & Ht2); [lia|].
  exists a, p2. unfold CreateAttribute. rewrite Ha. cbn. rewrite Hs. cbn. split; [done|].
  rewrite Hu in Hni, Hu1. rewrite not_elem_of_dom in Hni. split_and!; [done|congruence|done|lia|lia].
Qed.

Lemma free_attribute_ok h a : pool_ok (_attributePool h) -> used (_attributePool h) = dom (cells h) -> is_Some (cells h !! a) ->
  exists p, free_attribute a h = Ret (AHeap (delete a (cells h)) (_rootAttribute h) p) /\
    pool_ok p /\ used p = dom (delete a (cells h)) /\ Untracked p = Untracked (_attributePool h) /\
    allocs p = allocs (_attributePool h).
Proof.
  intros Hp Hu [c Hc]. destruct (free_ok _ a Hp) as (p & Hf & Hp' & Hu' & Hal & Ht).
  { rewrite Hu. by apply elem_of_dom_2 in Hc. }
  exists p. unfold free_attribute, cell. rewrite Hc. cbn. rewrite Hf. cbn. split; [done|].
  rewrite dom_delete_L, <- Hu. by split_and!.
Qed.

(** A new cell behind the attributes of an element, with its name and value. *)
Lemma append_cell_ok h A e l r a p n v : holds h A -> A !! e = Some l -> _rootAttribute h !! e = Some r -> chain (cells h) r l -> NoDup l.*1 ->
  cells h !! a = None -> used p = {[a]} ∪ dom (cells h) -> pool_ok p -> Untracked p = 0 ->
  exists h' r', link_attribute e (last_of None l) (Some a) (AHeap (<[a := Attrib n v None]> (cells h)) (_rootAttribute h) p) = Ret h' /\
    _rootAttribute h' = <[e := r']> (_rootAttribute h) /\ chain (cells h') r' (l ++ [(a, (n, v))]) /\ _attributePool h' = p /\
    dom (cells h') = {[a]} ∪ dom (cells h) /\ cells h' !! a = Some (Attrib n v None) /\ NoDup (l ++ [(a, (n, v))]).*1 /\
    (forall b, b ∉ l.*1 -> b <> a -> cells h' !! b = cells h !! b).
Proof.
  intros Hh He Hr Hc Hnd Ha Hu Hp Ht.
  assert (Hal : a ∉ l.*1) by (intros Hin; destruct (segment_live _ _ _ _ _ Hc Hin); congruence).
  destruct (link_ok (AHeap (<[a := Attrib n v None]> (cells h)) (_rootAttribute h) p) e r l [] (Some a) [(a, (n, v))])
    as (h' & r' & Hl & Hr' & Hc' & Hp' & Hd & Hout); cbn; [done| |done| |set_solver|].
  - rewrite app_nil_r. by apply segment_insert.
  - split; [done|]. exists None. by rewrite lookup_insert_eq.
  - exists h', r'. split; [done|]. split; [done|]. split; [done|]. split; [done|]. split; [|split; [|split]].
    + rewrite Hd. cbn. by rewrite dom_insert_L.
    + rewrite Hout by done. cbn. by rewrite lookup_insert_eq.
    + rewrite fmap_app. apply NoDup_app. split; [done|]. split; [|apply NoDup_singleton]. set_solver.
    + intros b Hb Hba. rewrite Hout by done. cbn. by rewrite lookup_insert_ne.
Qed.

Lemma addresses_some A e l : A !! e = Some l -> addresses A e = l.*1.
Proof. unfold addresses. by intros ->. Qed.

(** [SetAttribute]: the value in place, or a new attribute at the end. *)
Lemma set_ok h A e l name value : holds h A -> A !! e = Some l -> allocs (_attributePool h) < MAX_ELEMENTS ->
  exists h' l', elem_SetAttribute e name value h = Ret h' /\ holds h' (<[e := l']> A) /\ l'.*2 = set_attribute name value l.*2 /\
    allocs (_attributePool h') <= allocs (_attributePool h) + 1.
Proof.
  intros Hh He Hroom. destruct (list_of h A e l Hh He) as (r & Hr & Hc & Hnd). pose proof (addresses_some A e l He) as Had.
  unfold elem_SetAttribute, FindOrCreateAttribute.
  destruct (seek_from_ok h A e l name Hh He) as [(l1 & a & v & l2 & -> & Hni & ->)|[Hni ->]]; cbn -[link_attribute].
  - destruct (chain_entry _ _ _ _ _ _ _ Hc) as (next & Hca & _). unfold write_cell, cell. rewrite Hca. cbn.
    eexists _, (l1 ++ (a, (name, value)) :: l2). split; [done|]. split; [|split; [|cbn; lia]].
    + assert (Hsame : (l1 ++ (a, (name, value)) :: l2).*1 = (l1 ++ (a, (name, v)) :: l2).*1) by (by rewrite !fmap_app).
      apply (holds_update h A e _ r); rewrite ?Hsame, ?Had; cbn; try done.
      * by rewrite insert_id.
      * by apply (chain_change _ _ _ _ name v).
      * intros b Hb. rewrite decide_False by done. rewrite lookup_insert_ne; [done|]. intros ->. apply Hb. rewrite fmap_app. set_solver.
      * rewrite (ho_used _ _ Hh), dom_insert_L. apply elem_of_dom_2 in Hca. set_solver.
      * apply (ho_pool _ _ Hh).
    + rewrite !fmap_app. cbn. by rewrite set_attribute_found.
  - destruct (create_attribute_ok h A Hh Hroom) as (a & p & -> & Ha & Hu & Hp & Ht & Hal). cbn -[link_attribute].
    destruct (append_cell_ok h A e l r a p [] [] Hh He Hr Hc Hnd Ha Hu Hp Ht) as (h1 & r' & -> & Hr1 & Hc1 & Hp1 & Hd1 & Ha1 & Hnd1 & Hout).
    cbn. unfold write_cell, cell. rewrite Ha1. cbn. rewrite lookup_insert_eq. cbn. rewrite insert_insert_eq.
    eexists _, (l ++ [(a, (name, value))]). split; [done|]. split; [|split; [|cbn; rewrite Hp1; lia]].
    + apply (holds_update h A e _ r'); cbn; try done.
      * by apply (chain_change _ _ l a [] []).
      * by rewrite fmap_app in *.
      * intros b Hb Hb'. rewrite Had in Hb'. rewrite fmap_app in Hb. cbn in Hb. assert (b = a) as -> by set_solver. done.
      * intros b Hb. rewrite fmap_app in Hb. cbn in Hb. rewrite Had, decide_False by set_solver.
        rewrite lookup_insert_ne by set_solver. apply Hout; set_solver.
      * rewrite Hp1, dom_insert_L, Hd1, Hu. set_solver.
      * by rewrite Hp1.
    + rewrite fmap_app. by rewrite set_attribute_absent.
Qed.

(** [DeleteAttribute]. *)
Lemma delete_ok h A e l name : holds h A -> A !! e = Some l ->
  exists h' l', elem_DeleteAttribute e name h = Ret h' /\ holds h' (<[e := l']> A) /\ l'.*2 = delete_attribute name l.*2 /\
    allocs (_attributePool h') = allocs (_attributePool h).
Proof.
  intros Hh He. destruct (list_of h A e l Hh He) as (r & Hr & Hc & Hnd). pose proof (addresses_some A e l He) as Had.
  unfold elem_DeleteAttribute.
  destruct (seek_from_ok h A e l name Hh He) as [(l1 & a & v & l2 & -> & Hni & ->)|[Hni ->]]; cbn -[link_attribute free_attribute].
  - destruct (chain_entry _ _ _ _ _ _ _ Hc) as (next & Hca & _ & Hl2). pose proof (nodup_entry _ _ _ _ Hnd) as (Ha1 & Ha2 & Hnd').
    unfold cell. rewrite Hca. cbn -[link_attribute free_attribute].
    pose proof Hnd' as Hnd12. rewrite fmap_app in Hnd12. apply NoDup_app in Hnd12 as (Hnd1 & Hdis & _).
    destruct (link_ok h e r l1 _ next l2 Hr Hc Hnd1 Hl2 Hdis) as (h1 & r' & -> & Hr1 & Hc1 & Hp1 & Hd1 & Hout).
    cbn -[free_attribute]. pose proof (ho_pool _ _ Hh) as [Hp Ht]. pose proof (ho_used _ _ Hh) as Hu.
    destruct (free_attribute_ok h1 a) as (p & -> & Hp' & Hu' & Ht' & Hal); [by rewrite Hp1|by rewrite Hp1, Hd1|by rewrite Hout|].
    eexists _, (l1 ++ l2). split; [done|]. split; [|split; [|cbn; by rewrite Hal, Hp1]].
    + apply (holds_update h A e _ r'); cbn; try done; rewrite ?Had.
      * apply segment_delete; [done|]. rewrite fmap_app. set_solver.
      * rewrite !fmap_app. set_solver.
      * intros b Hb. rewrite fmap_app in Hb. rewrite fmap_app. cbn. destruct (decide (b = a)) as [->|Hba].
        { rewrite lookup_delete_eq, decide_True by set_solver. done. }
        { rewrite lookup_delete_ne, decide_False by set_solver. apply Hout. set_solver. }
      * split; [done|]. by rewrite Ht', Hp1.
    + rewrite !fmap_app. cbn. by rewrite delete_attribute_found.
  - exists h, l. split; [done|]. split; [by rewrite insert_id|]. split; [|done]. by rewrite delete_attribute_none.
Qed.

(** [Attribute] gives the value that the list has. *)
Lemma find_split name l1 v (l2 : list (list Z * list Z)) : name ∉ l1.*1 -> find_attribute name (l1 ++ (name, v) :: l2) = Some v.
Proof.
  induction l1 as [|[n w] l1 IH]; cbn; intros Hni; [by rewrite decide_True|].
  apply not_elem_of_cons in Hni as [Hne Hni]. rewrite decide_False by done. by rewrite IH.
Qed.
Lemma find_none name l : name ∉ l.*1 -> find_attribute name l = None.
Proof.
  induction l as [|[n w] l IH]; cbn; intros Hni; [done|].
  apply not_elem_of_cons in Hni as [Hne Hni]. rewrite decide_False by done. by rewrite IH.
Qed.
Lemma find_ok h A e l name : holds h A -> A !! e = Some l ->
  exists r, elem_FindAttribute e name h = Ret r /\
    find_attribute name l.*2 = match r with Some a => _value <$> cells h !! a | None => None end /\
    (is_Some r <-> name ∈ l.*2.*1).
Proof.
  intros Hh He. destruct (list_of h A e l Hh He) as (r & Hr & Hc & Hnd). unfold elem_FindAttribute.
  destruct (seek_from_ok h A e l name Hh He) as [(l1 & a & v & l2 & -> & Hni & ->)|[Hni ->]].
  - exists (Some a). split; [done|]. destruct (chain_entry _ _ _ _ _ _ _ Hc) as (next & -> & _). split.
    + rewrite fmap_app. cbn. by rewrite find_split.
    + split; [|by eexists]. intros _. rewrite !fmap_app. set_solver.
  - exists None. split; [done|]. split; [by apply find_none|]. split; [by intros []|done].
Qed.

(** A round of [ParseAttributes]. *)
Lemma parsed_ok h A e l name value : holds h A -> A !! e = Some l -> allocs (_attributePool h) < MAX_ELEMENTS ->
  exists r h', parsed_attribute e (last_of None l) name value h = Ret (r, h') /\
    allocs (_attributePool h') = allocs (_attributePool h) + 1 /\
    match r with
    | Some a => (name ∉ l.*2.*1) /\ holds h' (<[e := l ++ [(a, (name, value))]]> A)
    | None => (name ∈ l.*2.*1) /\ holds h' A
    end.
Proof.
  intros Hh He Hroom. destruct (list_of h A e l Hh He) as (r & Hr & Hc & Hnd). pose proof (addresses_some A e l He) as Had.
  unfold parsed_attribute. destruct (create_attribute_ok h A Hh Hroom) as (a & p & -> & Ha & Hu & Hp & Ht & Hal).
  assert (Hal' : a ∉ l.*1) by (intros Hin; destruct (segment_live _ _ _ _ _ Hc Hin); congruence).
  cbn -[link_attribute free_attribute]. unfold write_cell at 1, cell. cbn -[link_attribute free_attribute]. rewrite lookup_insert_eq.
  cbn -[link_attribute free_attribute]. rewrite insert_insert_eq. unfold elem_FindAttribute, seek_from, root_of. cbn -[link_attribute free_attribute seek].
  rewrite Hr. cbn -[link_attribute free_attribute seek]. set (h1 := AHeap (<[a := Attrib name value None]> (cells h)) (_rootAttribute h) p).
  assert (Hc1 : chain (cells h1) r l) by (by apply segment_insert).
  destruct (seek_ok h1 name l (size (cells h1)) None r Hc1 (chain_size _ _ _ Hc1 Hnd)) as [(l1 & b & v & l2 & -> & Hni & Hs)|[Hni Hs]];
    cbn -[link_attribute free_attribute seek] in Hs |- *; rewrite Hs; cbn -[link_attribute free_attribute].
  - destruct (free_attribute_ok h1 a) as (p' & -> & Hp' & Hu' & Ht' & Hal2); cbn; [done|by rewrite dom_insert_L|by rewrite lookup_insert_eq|].
    cbn in Hu'. rewrite delete_insert_id in Hu' |- * by done. eexists None, _. split; [done|]. cbn in *. split; [lia|].
    split; [rewrite !fmap_app; set_solver|]. rewrite <- (insert_id A e _ He).
    apply (holds_update h A e _ r); cbn; rewrite ?Had; try done.
    + by rewrite insert_id.
    + intros c Hc'. by rewrite decide_False.
    + split; [done|]. lia.
  - subst h1. destruct (append_cell_ok h A e l r a p name value Hh He Hr Hc Hnd Ha Hu Hp Ht) as (h2 & r' & -> & Hr2 & Hc2 & Hp2 & Hd2 & Ha2 & Hnd2 & Hout).
    exists (Some a), h2. split; [done|]. split; [by rewrite Hp2|]. split; [done|].
    apply (holds_update h A e h2 r'); try done; rewrite ?Had.
    + intros b Hb Hb'. rewrite fmap_app in Hb. cbn in Hb. assert (b = a) as -> by set_solver. done.
    + intros b Hb. rewrite fmap_app in Hb. cbn in Hb. rewrite decide_False by set_solver. apply Hout; set_solver.
    + by rewrite Hp2, Hd2.
    + by rewrite Hp2.
Qed.

Lemma unread_ok h A e l : holds h A -> A !! e = Some l -> allocs (_attributePool h) < MAX_ELEMENTS ->
  exists h', unread_attribute h = Ret h' /\ holds h' A.
Proof.
  intros Hh He Hroom. destruct (list_of h A e l Hh He) as (r & Hr & Hc & Hnd). pose proof (addresses_some A e l He) as Had.
  unfold unread_attribute. destruct (create_attribute_ok h A Hh Hroom) as (a & p & -> & Ha & Hu & Hp & Ht & Hal).
  cbn -[free_attribute]. set (h1 := AHeap (<[a := Attrib [] [] None]> (cells h)) (_rootAttribute h) p).
  destruct (free_attribute_ok h1 a) as (p' & -> & Hp' & Hu' & Ht' & Hal2); cbn; [done|by rewrite dom_insert_L|by rewrite lookup_insert_eq|].
  cbn in Hu', Ht'. rewrite delete_insert_id in Hu' |- * by done. eexists. split; [done|]. rewrite <- (insert_id A e _ He).
  apply (holds_update h A e _ r); cbn; rewrite ?Had; try done.
  - by rewrite insert_id.
  - intros c Hc'. by rewrite decide_False.
  - split; [done|]. lia.
Qed.

(** [~XMLElement] frees what the element has. *)
Lemma delete_attributes_ok e l : forall h A fuel, holds h A -> A !! e = Some l -> (length l <= fuel)%nat ->
  exists h', delete_attributes fuel e h = Ret h' /\ holds h' (<[e := []]> A) /\ allocs (_attributePool h') = allocs (_attributePool h).
Proof.
  induction l as [|[a [n v]] l IH]; intros h A fuel Hh He Hf; destruct (list_of h A e _ Hh He) as (r & Hr & Hc & Hnd).
  - cbn in Hc. subst r. exists h. rewrite insert_id by done. split; [|done]. destruct fuel; cbn; unfold root_of; by rewrite Hr.
  - destruct Hc as (-> & next & Hca & Hl). destruct fuel as [|fuel]; [cbn in Hf; lia|]. cbn -[free_attribute].
    unfold root_of. rewrite Hr. cbn -[free_attribute]. unfold cell. rewrite Hca. cbn -[free_attribute].
    pose proof (ho_pool _ _ Hh) as [Hp Ht].
    destruct (free_attribute_ok h a Hp (ho_used _ _ Hh)) as (p & -> & Hp' & Hu' & Ht' & Hal); [by eexists|]. cbn.
    apply NoDup_cons in Hnd as [Hna Hnd]. cbn in Hna.
    destruct (IH (write_root e next (AHeap (delete a (cells h)) (_rootAttribute h) p)) (<[e := l]> A) fuel) as (h' & Hd & Hh' & Hal');
      [| by rewrite lookup_insert_eq|cbn in Hf; lia|].
    + pose proof (addresses_some A e _ He) as Had. apply (holds_update h A e _ next); cbn; try done; rewrite ?Had.
      * by apply segment_delete.
      * cbn. set_solver.
      * intros b Hb. cbn. destruct (decide (b = a)) as [->|Hba].
        { rewrite lookup_delete_eq, decide_True by set_solver. done. }
        { rewrite lookup_delete_ne, decide_False by set_solver. done. }
      * split; [done|lia].
    + rewrite insert_insert_eq in Hh'. exists h'. split; [done|]. split; [done|]. by rewrite Hal'.
Qed.

Lemma delete_element_ok h A e l : holds h A -> A !! e = Some l ->
  exists h', XMLElement_delete e h = Ret h' /\ holds h' (delete e A) /\ allocs (_attributePool h') = allocs (_attributePool h).
Proof.
  intros Hh He. destruct (list_of h A e l Hh He) as (r & Hr & Hc & Hnd).
  destruct (delete_attributes_ok e l h A (size (cells h)) Hh He) as (h1 & Hd & [Hl1 Hnd1 Hap1 Hce1 Hu1 Hp1] & Hal); [by eapply chain_size|].
  eexists. unfold XMLElement_delete. rewrite Hd. split; [done|]. split; [|done]. split; cbn; try done.
  - intros e2. destruct (decide (e2 = e)) as [->|Hne]; [by rewrite !lookup_delete_eq|]. rewrite !lookup_delete_ne by done.
    specialize (Hl1 e2). by rewrite lookup_insert_ne in Hl1.
  - intros e2 l2 [Hne He2]%lookup_delete_Some. apply (Hnd1 e2). by rewrite lookup_insert_ne.
  - intros e1 l1 e2 l2 a [Hne1 He1]%lookup_delete_Some [Hne2 He2]%lookup_delete_Some.
    apply Hap1; by rewrite lookup_insert_ne.
  - intros a Ha. destruct (Hce1 a Ha) as (e2 & l2 & [[<- <-]|[Hne He2]]%lookup_insert_Some & Hin); [set_solver|].
    exists e2, l2. by rewrite lookup_delete_ne.
Qed.

Lemma new_ok h A e : holds h A -> A !! e = None -> holds (XMLElement_new e h) (<[e := []]> A).
Proof.
  intros Hh He. apply (holds_update h A e _ None); cbn; try done.
  - constructor.
  - set_solver.
  - intros a _. unfold addresses. rewrite He. cbn. rewrite decide_False; [done|]. set_solver.
  - apply (ho_used _ _ Hh).
  - apply (ho_pool _ _ Hh).
Qed.

(** The names and values that a tag gives, up to the first that cannot be read or is there
    twice. *)
Fixpoint parsed_list (l : list (list Z * list Z)) (read : list (option (list Z * list Z))) : bool * list (list Z * list Z) :=
  match read with
  | [] => (true, l)
  | None :: _ => (false, l)
  | Some (n, v) :: read => if decide (n ∈ l.*1) then (false, l) else parsed_list (l ++ [(n, v)]) read
  end.

Lemma last_of_snoc prev l a x : last_of prev (l ++ [(a, x)]) = Some a.
Proof. unfold last_of. rewrite fmap_app. change [(a, x)].*1 with [a]. by rewrite last_snoc. Qed.

Lemma parse_attributes_ok e read : forall h A l, holds h A -> A !! e = Some l ->
  allocs (_attributePool h) + Z.of_nat (length read) <= MAX_ELEMENTS ->
  exists h' l', parse_attributes e (last_of None l) read h = Ret ((parsed_list l.*2 read).1, h') /\
    holds h' (<[e := l']> A) /\ l'.*2 = (parsed_list l.*2 read).2.
Proof.
  induction read as [|[[n v]|] read IH]; intros h A l Hh He Hroom; cbn -[parsed_attribute unread_attribute].
  - exists h, l. by rewrite insert_id.
  - cbn in Hroom. destruct (parsed_ok h A e l n v Hh He) as (r & h1 & -> & Hal & Hr); [lia|]. cbn.
    destruct r as [a|]; destruct Hr as [Hn Hh1].
    + rewrite decide_False by done.
      destruct (IH h1 _ (l ++ [(a, (n, v))]) Hh1) as (h' & l' & Hp & Hh' & Hl'); [by rewrite lookup_insert_eq|lia|].
      rewrite last_of_snoc in Hp. rewrite fmap_app in Hp, Hl'. rewrite insert_insert_eq in Hh'. exists h', l'. by rewrite Hp.
    + rewrite decide_True by done. exists h1, l. rewrite insert_id by done. done.
  - cbn in Hroom. destruct (unread_ok h A e l Hh He) as (h1 & -> & Hh1); [lia|]. cbn. exists h1, l. by rewrite insert_id.
Qed.

(** ** Counting *)

Definition lists A : gmap node (list (list Z * list Z)) := (fun l => l.*2) <$> A.
Definition attribute_count (M : gmap node (list (list Z * list Z))) : nat := length (concat (map_to_list M).*2).

Lemma NoDup_concat_keys {K} (kls : list (K * list entry)) : NoDup kls.*1 ->
  (forall k l, (k, l) ∈ kls -> NoDup l.*1) ->
  (forall k1 l1 k2 l2 a, (k1, l1) ∈ kls -> (k2, l2) ∈ kls -> a ∈ l1.*1 -> a ∈ l2.*1 -> k1 = k2) ->
  NoDup (concat kls.*2).*1.
Proof.
  induction kls as [|[k l] kls IH]; cbn; intros Hk Hnd Hap; [constructor|]. apply NoDup_cons in Hk as [Hk Hks].
  rewrite fmap_app. apply NoDup_app. split; [apply (Hnd k); set_solver|]. split.
  - intros a Ha (x & -> & Hx)%list_elem_of_fmap. apply list_elem_of_In, in_concat in Hx as (l2 & Hl2 & Hx).
    apply list_elem_of_In, list_elem_of_fmap in Hl2 as ([k2 l2'] & -> & Hk2). apply list_elem_of_In in Hx. cbn in Hx.
    assert (k = k2) as <-.
    { apply (Hap k l k2 l2' x.1); [set_solver|set_solver|done|]. apply list_elem_of_fmap. eauto. }
    apply Hk, list_elem_of_fmap. by exists (k, l2').
  - apply IH; [done|set_solver|]. intros k1 l1 k2 l2 a H1 H2. apply Hap; set_solver.
Qed.

(** The pool has given out as many items as there are attributes. *)
Lemma holds_count h A : holds h A -> CurrentAllocs (_attributePool h) = Z.of_nat (attribute_count (lists A)).
Proof.
  intros Hh. pose proof (ho_pool _ _ Hh) as [Hp _]. rewrite (current_ok _ Hp), (ho_used _ _ Hh). f_equal.
  assert (Hlen : attribute_count (lists A) = length (concat (map_to_list A).*2).*1).
  { unfold attribute_count, lists. rewrite map_to_list_fmap. induction (map_to_list A) as [|[k l] kls IH]; cbn; [done|].
    rewrite fmap_app, !length_app, IH. by rewrite !length_fmap. }
  rewrite Hlen, <- (size_list_to_set (C := gset nat)).
  2:{ apply NoDup_concat_keys; [apply NoDup_fst_map_to_list|intros k l Hl; by eapply ho_nodup; [|apply elem_of_map_to_list]|].
      intros k1 l1 k2 l2 a H1%elem_of_map_to_list H2%elem_of_map_to_list. by eapply ho_apart. }
  f_equal. apply set_eq. intros a. rewrite elem_of_dom, elem_of_list_to_set, list_elem_of_fmap. split.
  - intros (e & l & He & Hin)%(ho_cells _ _ Hh). apply list_elem_of_fmap in Hin as (x & -> & Hx). exists x. split; [done|].
    apply list_elem_of_In, in_concat. exists l. rewrite <- !list_elem_of_In. split; [|done].
    apply list_elem_of_fmap. exists (e, l). split; [done|]. by apply elem_of_map_to_list.
  - intros (x & -> & Hx). apply list_elem_of_In, in_concat in Hx as (l & Hl & Hx).
    apply list_elem_of_In, list_elem_of_fmap in Hl as ([e l'] & -> & He%elem_of_map_to_list). apply list_elem_of_In in Hx.
    destruct (list_of h A e l' Hh He) as (r & _ & Hc & _). eapply segment_live; [exact Hc|]. apply list_elem_of_fmap. eauto.
Qed.

(** ** Calls *)

Inductive attr_call :=
| ANew (e : node)
| ASet (e : node) (name value : list Z)
| ADelete (e : node) (name : list Z)
| AParse (e : node) (read : list (option (list Z * list Z)))
| ADestroy (e : node).

Definition run_attr (c : attr_call) (h : attr_heap P) : ub (bool * attr_heap P) :=
  match c with
  | ANew e => Ret (true, XMLElement_new e h)
  | ASet e n v => h ← elem_SetAttribute e n v h; Ret (true, h)
  | ADelete e n => h ← elem_DeleteAttribute e n h; Ret (true, h)
  | AParse e read => parse_attributes e None read h
  | ADestroy e => h ← XMLElement_delete e h; Ret (true, h)
  end.

(** What they mean for the lists of the elements. *)
Definition attribute_spec (c : attr_call) (M : gmap node (list (list Z * list Z))) : bool * gmap node (list (list Z * list Z)) :=
  match c with
  | ANew e => (true, <[e := []]> M)
  | ASet e n v => (true, alter (set_attribute n v) e M)
  | ADelete e n => (true, alter (delete_attribute n) e M)
  | AParse e read => let '(b, l) := parsed_list [] read in (b, <[e := l]> M)
  | ADestroy e => (true, delete e M)
  end.

(** The element is there, or new; the tag of an element is parsed once, before anything else; there
    is memory. *)
Definition attr_legal h A (c : attr_call) : Prop :=
  match c with
  | ANew e => A !! e = None
  | ASet e _ _ => is_Some (A !! e) /\ allocs (_attributePool h) < MAX_ELEMENTS
  | ADelete e _ | ADestroy e => is_Some (A !! e)
  | AParse e read => A !! e = Some [] /\ allocs (_attributePool h) + Z.of_nat (length read) <= MAX_ELEMENTS
  end.

Lemma lists_insert A e l : lists (<[e := l]> A) = <[e := l.*2]> (lists A).
Proof. apply fmap_insert. Qed.
Lemma lists_alter A e l l' f : A !! e = Some l -> l'.*2 = f l.*2 -> lists (<[e := l']> A) = alter f e (lists A).
Proof.
  intros He Hl. rewrite lists_insert, Hl. apply map_eq. intros x. destruct (decide (x = e)) as [->|Hne].
  - rewrite lookup_insert_eq, lookup_alter_eq. unfold lists. by rewrite lookup_fmap, He.
  - by rewrite lookup_insert_ne, lookup_alter_ne.
Qed.

(** C11. Whatever is done to the attributes of the elements of a document, in whatever
    order, the linked cells of each element stand for its list of names and values, each call does to
    the lists what it should (of the attributes of a tag, those in front of the first that cannot be
    read or is there twice), no cell is lost or shared, and the pool has given out exactly as many
    cells as there are attributes. *)
Theorem attribute_cells_refine h A c : holds h A -> attr_legal h A c ->
  exists h' A', run_attr c h = Ret ((attribute_spec c (lists A)).1, h') /\ holds h' A' /\
    lists A' = (attribute_spec c (lists A)).2 /\
    CurrentAllocs (_attributePool h') = Z.of_nat (attribute_count (lists A')).
Proof.
  intros Hh Hl.
  cut (exists h' A', run_attr c h = Ret ((attribute_spec c (lists A)).1, h') /\ holds h' A' /\ lists A' = (attribute_spec c (lists A)).2).
  { intros (h' & A' & ? & ? & ?). exists h', A'. split_and!; [done..|]. by apply holds_count. }
  destruct c as [e|e n v|e n|e read|e]; cbn -[elem_SetAttribute elem_DeleteAttribute XMLElement_delete parse_attributes] in *.
  - exists (XMLElement_new e h), (<[e := []]> A). split; [done|]. split; [by apply new_ok|]. by rewrite lists_insert.
  - destruct Hl as [[l He] Hroom]. destruct (set_ok h A e l n v Hh He Hroom) as (h' & l' & -> & Hh' & Hl' & _).
    exists h', (<[e := l']> A). split; [done|]. split; [done|]. by eapply lists_alter.
  - destruct Hl as [l He]. destruct (delete_ok h A e l n Hh He) as (h' & l' & -> & Hh' & Hl' & _).
    exists h', (<[e := l']> A). split; [done|]. split; [done|]. by eapply lists_alter.
  - destruct Hl as [He Hroom]. destruct (parse_attributes_ok e read h A [] Hh He Hroom) as (h' & l' & Hp & Hh' & Hl').
    change (last_of None []) with (@None nat) in Hp. rewrite Hp. cbn in *. destruct (parsed_list [] read) as [b m]. cbn in *.
    exists h', (<[e := l']> A). split; [done|]. split; [done|]. by rewrite lists_insert, Hl'.
  - destruct Hl as [l He]. destruct (delete_element_ok h A e l Hh He) as (h' & -> & Hh' & _).
    exists h', (delete e A). split; [done|]. split; [done|]. apply fmap_delete.
Qed.
End Laws.

(** An element with the attributes of its tag, of which the third repeats the first. *)
Definition demo_attributes : attr_heap SizedPool := XMLElement_new (DocNode 0) (AHeap ∅ ∅ (Sized 80 pool_init)).
Lemma demo_attributes_hold : holds demo_attributes {[DocNode 0 := []]}.
Proof.
  apply (new_ok (AHeap ∅ ∅ (Sized 80 pool_init)) ∅); [|done].
  split; cbn.
  - intros e. by rewrite !lookup_empty.
  - intros e l. by rewrite lookup_empty.
  - intros e1 l1 e2 l2 a. by rewrite lookup_empty.
  - intros a. rewrite lookup_empty. by intros [].
  - unfold items_used, n_items. cbn. set_solver.
  - split; [|done]. split; [by vm_compute; lia|apply pool_init_inv].
Qed.
Lemma attribute_cells_refine_witness : exists h' A',
  run_attr (AParse (DocNode 0) [Some ([97], [49]); Some ([98], [50]); Some ([97], [51])]) demo_attributes = Ret (false, h') /\ holds h' A' /\
    lists A' = {[DocNode 0 := [([97], [49]); ([98], [50])]]} /\ CurrentAllocs (_attributePool h') = Z.of_nat (attribute_count (lists A')).
Proof.
  destruct (attribute_cells_refine demo_attributes {[DocNode 0 := []]} (AParse (DocNode 0) [Some ([97], [49]); Some ([98], [50]); Some ([97], [51])])
    demo_attributes_hold) as (h' & A' & Hr & Hh & Hl & Hc).
  - split; [done|]. by vm_compute.
  - exists h', A'. by split_and!.
Defined.
