(* ===== verification/XmlBuffer.v ===== *)
(** * Printing to memory

    [compat/tinyxml2-v34/]: an [XMLPrinter] without a file writes into a [DynArray] of
    characters that is kept with a NUL behind what was written, so that [CStr] is a
    C string at any time.  [XmlPrinter] has what is written as a list of bytes; here
    are [Write] and [Putc] as they fill the array.

    Theorem: however the output is cut into writes, [CStr] is all of it and [CStrSize]
    counts its NUL. *)

From S2P Require Import Prelude XmlText XmlPrinter XmlPool.

Abbreviation buffer := (DynArray Z).

(** The constructor. *)
Definition printer_buffer : ub buffer := Push 0 (arr_init 20).

(** [Write]: the first byte goes where the NUL is; [size] is cut to an [int] for [PushArr] and is not
    for [memcpy]. *)
Definition buffer_Write (data : list Z) (b : buffer) : ub buffer :=
  '(i, b) ← PushArr (i32 (Z.of_nat (length data))) b;
  fill_from (i - 1) (data ++ [0]) b.
Definition buffer_Putc (ch : Z) (b : buffer) : ub buffer :=
  '(i, b) ← PushArr 1 b;
  fill_from (i - 1) [ch; 0] b.
Definition ClearBuffer (b : buffer) : ub buffer := Push 0 (arr_clear b).

(** The bytes of [_mem] that were written; [CStr] is the string at their start. *)
Definition Mem (b : buffer) : list Z := omap id (_mem b).
Definition CStr (b : buffer) : list Z := c_string (Mem b) 0.
Definition CStrSize (b : buffer) : Z := _size b.

(** Writes and single characters in any order. *)
Inductive output := OWrite (data : list Z) | OPutc (ch : Z).
Definition output_bytes (o : output) : list Z := match o with OWrite data => data | OPutc ch => [ch] end.
Definition run_output (o : output) (b : buffer) : ub buffer :=
  match o with OWrite data => buffer_Write data b | OPutc ch => buffer_Putc ch b end.
Fixpoint run_outputs (os : list output) (b : buffer) : ub buffer :=
  match os with [] => Ret b | o :: os => b ← run_output o b; run_outputs os b end.

(** The array that holds [l] and the NUL behind it. *)
Definition buffered (b : buffer) (l : list Z) : Prop := arr_rep b (l ++ [0]).

Lemma fill_back b l data : arr_rep b (l ++ [0]) -> Z.of_nat (length l) + Z.of_nat (length data) + 1 <= MAX_ELEMENTS ->
  exists i b', PushArr (Z.of_nat (length data)) b = Ret (i, b') /\ exists b'', fill_from (i - 1) (data ++ [0]) b' = Ret b'' /\
    buffered b'' (l ++ data).
Proof.
  intros Hr Hle. pose proof (rep_size _ _ Hr) as Hs. rewrite length_app in Hs. cbn in Hs. unfold PushArr.
  rewrite Hs, chk32_ret by (unfold is_i32, INT32_MIN, INT32_MAX, MAX_ELEMENTS in *; lia). cbn.
  destruct (EnsureCapacity_rep b (l ++ [0]) (Z.of_nat (length l + 1) + Z.of_nat (length data))) as (b1 & -> & Hr1 & Hc); [done| |].
  { rewrite length_app. cbn. lia. }
  cbn. eexists _, _. split; [done|]. rewrite fill_with_size.
  pose proof (PopArr_rep b1 l [0] Hr1) as Hr2. destruct (arr_append _ l (data ++ [0]) Hr2) as (b2 & Hf & Hb2).
  { rewrite length_app. cbn. lia. }
  rewrite (rep_size _ _ Hr1), length_app. cbn.
  replace (Z.of_nat (length l + 1) - 1) with (Z.of_nat (length l)) by lia.
  unfold PopArr in Hf. rewrite fill_with_size in Hf. destruct (fill_from _ (data ++ [0]) b1) as [|b3]; [done|]. cbn in *.
  injection Hf as <-. eexists. split; [done|]. unfold buffered. rewrite <- app_assoc. rewrite length_app in Hb2. cbn in Hb2.
  replace (Z.of_nat (length l + 1) + Z.of_nat (length data)) with (Z.of_nat (length l) + Z.of_nat (length data + 1)) by lia. done.
Qed.

Lemma output_ok o b l : buffered b l -> Z.of_nat (length l) + Z.of_nat (length (output_bytes o)) + 1 <= MAX_ELEMENTS ->
  exists b', run_output o b = Ret b' /\ buffered b' (l ++ output_bytes o).
Proof.
  intros Hb Hle. destruct (fill_back b l (output_bytes o) Hb Hle) as (i & b1 & Hp & b2 & Hf & Hb2). exists b2. split; [|done].
  destruct o as [data|ch]; cbn in *.
  - assert (Hi : i32 (Z.of_nat (length data)) = Z.of_nat (length data)) by (unfold i32; unfold MAX_ELEMENTS in Hle; range).
    unfold buffer_Write. rewrite Hi, Hp. done.
  - unfold buffer_Putc. change 1 with (Z.of_nat 1). by rewrite Hp.
Qed.

Lemma outputs_ok os : forall b l, buffered b l ->
  Z.of_nat (length l) + Z.of_nat (length (flat_map output_bytes os)) + 1 <= MAX_ELEMENTS ->
  exists b', run_outputs os b = Ret b' /\ buffered b' (l ++ flat_map output_bytes os).
Proof.
  induction os as [|o os IH]; intros b l Hb Hle; cbn in *; [exists b; by rewrite app_nil_r|].
  rewrite length_app in Hle. destruct (output_ok o b l Hb) as (b1 & -> & Hb1); [lia|]. cbn.
  destruct (IH b1 (l ++ output_bytes o) Hb1) as (b2 & -> & Hb2); [rewrite length_app; lia|].
  exists b2. by rewrite app_assoc.
Qed.

Lemma omap_some (l : list Z) : omap id (Some <$> l) = l.
Proof. induction l as [|x l IH]; cbn; [done|]. by f_equal. Qed.

Lemma buffered_string b l : buffered b l -> text l -> CStr b = l /\ CStrSize b = Z.of_nat (length l) + 1.
Proof.
  intros Hb Ht. pose proof (rep_size _ _ Hb) as Hs. rewrite length_app in Hs. cbn in Hs. split; [|unfold CStrSize; lia].
  unfold CStr, Mem, c_string. rewrite drop_0, <- (take_drop (length (l ++ [0])) (_mem b)), (rep_elements _ _ Hb).
  rewrite omap_app, omap_some, <- app_assoc. by apply until_nul_app.
Qed.

(** Printing to memory: for every text without NUL and however the printer cuts it into writes, the
    array grows without an access outside of it, [CStr] is the text and [CStrSize] its length
    with the NUL; after [ClearBuffer] the same holds from the start. *)
Theorem printed_to_memory p os : flat_map output_bytes os = written p -> text (written p) ->
  Z.of_nat (length (written p)) < MAX_ELEMENTS ->
  exists b0 b, printer_buffer = Ret b0 /\ run_outputs os b0 = Ret b /\ CStr b = written p /\
    CStrSize b = Z.of_nat (length (written p)) + 1 /\
    exists b1, ClearBuffer b = Ret b1 /\ CStr b1 = [] /\
      exists b2, run_outputs os b1 = Ret b2 /\ CStr b2 = written p.
Proof.
  intros Hos Ht Hlt. rewrite <- Hos in *.
  destruct (Push_rep (arr_init 20) [] 0) as (b0 & H0 & Hb0); [by apply arr_init_rep|done|].
  destruct (outputs_ok os b0 [] Hb0) as (b & Hr & Hb); [cbn; lia|]. cbn in Hb.
  destruct (Push_rep (arr_clear b) [] 0) as (b1 & H1 & Hb1); [by eapply arr_clear_rep|done|].
  destruct (outputs_ok os b1 [] Hb1) as (b2 & Hr2 & Hb2); [cbn; lia|]. cbn in Hb2.
  exists b0, b. split; [done|]. split; [done|]. destruct (buffered_string b _ Hb Ht) as [-> ->]. split; [done|]. split; [done|].
  exists b1. split; [done|]. split; [by apply (buffered_string b1 []); [|constructor]|].
  exists b2. split; [done|]. by apply buffered_string.
Qed.

(** A text that is longer than the array is at first, written in two parts. *)
Definition demo_printer : XMLPrinter := Write (bytes "<a b='c'>0123456789</a>") (new_printer true 0).
Lemma printed_to_memory_witness : exists b0 b, printer_buffer = Ret b0 /\
  run_outputs [OPutc 60; OWrite (bytes "a b='c'>0123456789</a>")] b0 = Ret b /\ CStr b = written demo_printer /\ CStrSize b = 24.
Proof.
  destruct (printed_to_memory demo_printer [OPutc 60; OWrite (bytes "a b='c'>0123456789</a>")]) as (b0 & b & ? & ? & ? & ? & _).
  - by vm_compute.
  - apply (bool_decide_unpack _). by vm_compute.
  - by vm_compute.
  - by exists b0, b.
Defined.
