(* ===== verification/XmlStrings.v ===== *)
(** * The memory of strings

    [compat/tinyxml2-v34/], [StrPair]: the names and values of nodes and attributes are pairs of
    pointers, into the text of the document or into memory of their own, which they then
    free.  Memory is a set of blocks; [owned] are those that [new char\[\]] gave.  Reading
    a block that is gone and freeing what was not given are [Undef].

    Theorems: every block is freed exactly once, by the pair that owns it, and none is lost, whatever
    is done with the pairs; [SetStr] is undefined exactly when it is given the pair's own
    string. *)

From S2P Require Import Prelude XmlText.

#[local] Arguments Z.testbit : simpl never.

(** ** Memory *)

Inductive pointer := Null | At (block : nat) (offset : nat).
#[global] Instance pointer_eq_dec : EqDecision pointer.
Proof. solve_decision. Defined.

Record str_pair := Pair { sp_flags : Z; sp_start : pointer; sp_end : pointer }.
Definition no_string : str_pair := Pair 0 Null Null.

Record strings := Strings {
  blocks : gmap nat (list Z);
  owned : gset nat;
  pairs : gmap nat str_pair;
}.

Definition get_pair (i : nat) (s : strings) : ub str_pair :=
  match pairs s !! i with Some p => Ret p | None => Undef end.
Definition set_pair (i : nat) (p : str_pair) (s : strings) : strings := Strings (blocks s) (owned s) (<[i := p]> (pairs s)).

(** The C string a pointer is to, without its NUL; there must be one. *)
Definition string_at (p : pointer) (s : strings) : ub (list Z) :=
  match p with
  | Null => Undef
  | At b o =>
      match blocks s !! b with
      | Some l => if bool_decide (0 ∈ drop o l) then Ret (until_nul (drop o l)) else Undef
      | None => Undef
      end
  end.

(** [new char\[len + 1\]] filled with a string, and [delete\[\]]. *)
Definition new_string (l : list Z) (s : strings) : nat * strings :=
  let b := fresh (dom (blocks s)) in
  (b, Strings (<[b := l ++ [0]]> (blocks s)) ({[b]} ∪ owned s) (pairs s)).
Definition delete_block (p : pointer) (s : strings) : ub strings :=
  match p with
  | Null => Ret s
  | At b o =>
      if bool_decide (o = 0%nat /\ b ∈ owned s)
      then Ret (Strings (delete b (blocks s)) (owned s ∖ {[b]}) (pairs s)) else Undef
  end.

(** ** [StrPair] *)

Definition StrPair_new (i : nat) (s : strings) : strings := set_pair i no_string s.

Definition StrPair_Reset (i : nat) (s : strings) : ub strings :=
  p ← get_pair i s;
  s ← (if Z.land (sp_flags p) NEEDS_DELETE =? 0 then Ret s else delete_block (sp_start p) s);
  Ret (set_pair i no_string s).

Definition StrPair_delete (i : nat) (s : strings) : ub strings :=
  s ← StrPair_Reset i s; Ret (Strings (blocks s) (owned s) (delete i (pairs s))).

Definition TransferTo (i other : nat) (s : strings) : ub strings :=
  if decide (i = other) then Ret s
  else
    s ← StrPair_Reset other s;
    p ← get_pair i s;
    Ret (set_pair i no_string (set_pair other p s)).

Definition SetStr (i : nat) (str : pointer) (flags : Z) (s : strings) : ub strings :=
  s ← StrPair_Reset i s;
  l ← string_at str s;
  let '(b, s) := new_string l s in
  Ret (set_pair i (Pair (Z.lor flags NEEDS_DELETE) (At b 0) (At b (length l))) s).

Definition SetInternedStr (i : nat) (str : pointer) (s : strings) : ub strings :=
  s ← StrPair_Reset i s;
  p ← get_pair i s;
  Ret (set_pair i (Pair (sp_flags p) str (sp_end p)) s).

Definition StrPair_Set (i : nat) (start end_ : pointer) (flags : Z) (s : strings) : ub strings :=
  s ← StrPair_Reset i s; Ret (set_pair i (Pair (Z.lor flags NEEDS_FLUSH) start end_) s).

(** ** Ownership *)

Definition owns (p : str_pair) (b : nat) : Prop := Z.testbit (sp_flags p) 9 = true /\ sp_start p = At b 0.

Lemma needs_delete_bit f : (Z.land f NEEDS_DELETE =? 0) = negb (Z.testbit f 9).
Proof.
  unfold NEEDS_DELETE. change 0x200 with (2 ^ 9). destruct (Z.testbit f 9) eqn:Hb; cbn [negb].
  - apply Z.eqb_neq. intros H. apply (f_equal (fun z => Z.testbit z 9)) in H. by rewrite Z.land_spec, Hb in H.
  - apply Z.eqb_eq. apply Z.bits_inj'. intros n Hn. rewrite Z.land_spec, Z.bits_0.
    destruct (decide (n = 9)) as [->|Hne]; [by rewrite Hb|]. rewrite Z.pow2_bits_false by congruence. apply andb_false_r.
Qed.

(** Every owned block has one owner and is there. *)
Record tidy (s : strings) : Prop := {
  t_owner i p : pairs s !! i = Some p -> Z.testbit (sp_flags p) 9 = true -> exists b, sp_start p = At b 0 /\ b ∈ owned s;
  t_one i j p q b : pairs s !! i = Some p -> pairs s !! j = Some q -> owns p b -> owns q b -> i = j;
  t_all b : b ∈ owned s -> exists i p, pairs s !! i = Some p /\ owns p b;
  t_live b : b ∈ owned s -> is_Some (blocks s !! b);
}.

Definition unowned (p : str_pair) : Prop := Z.testbit (sp_flags p) 9 = false.

(** A pair that owns nothing may be replaced by another such pair. *)
Lemma set_tidy s i p q : tidy s -> pairs s !! i = Some p -> unowned p -> unowned q -> tidy (set_pair i q s).
Proof.
  intros [Ho H1 Ha Hl] Hi Hp Hq. split; cbn; [| | |done].
  - intros j r [[<- <-]|[_ Hj]]%lookup_insert_Some Hb; [unfold unowned in Hq; congruence|eauto].
  - intros j k r t b [[<- <-]|[_ Hj]]%lookup_insert_Some [[<- <-]|[_ Hk]]%lookup_insert_Some [Hr Hrs] [Ht Hts];
      unfold unowned in Hq; try congruence. by eapply (H1 j k r t b).
  - intros b (j & r & Hj & Hr)%Ha. exists j, r. split; [|done]. rewrite lookup_insert_ne; [done|].
    intros <-. rewrite Hi in Hj. injection Hj as <-. destruct Hr as [Hr _]. unfold unowned in Hp. congruence.
Qed.

Lemma fresh_not_owned s : tidy s -> fresh (dom (blocks s)) ∉ owned s.
Proof. intros Ht Hin%(t_live _ Ht). apply elem_of_dom in Hin. by apply is_fresh in Hin. Qed.

(** A pair that owns nothing gets a new block. *)
Lemma new_tidy s i p l f e : tidy s -> pairs s !! i = Some p -> unowned p -> Z.testbit f 9 = true ->
  let b := fresh (dom (blocks s)) in
  tidy (set_pair i (Pair f (At b 0) e) (new_string l s).2).
Proof.
  intros Ht Hi Hp Hf b. pose proof (fresh_not_owned s Ht) as Hfr. fold b in Hfr. destruct Ht as [Ho H1 Ha Hl]. split; cbn; fold b.
  - intros j r [[<- <-]|[_ Hj]]%lookup_insert_Some Hb; cbn; [exists b; set_solver|].
    destruct (Ho j r Hj Hb) as (b' & ? & ?). exists b'. set_solver.
  - assert (Hnew : forall j r, pairs s !! j = Some r -> ~ owns r b).
    { intros j r Hj [Hr Hrs]. destruct (Ho j r Hj Hr) as (b' & Hb' & Hin). rewrite Hrs in Hb'. injection Hb' as ->. done. }
    intros j k r t b' [[<- <-]|[_ Hj]]%lookup_insert_Some [[<- <-]|[_ Hk]]%lookup_insert_Some Hr Htt; [done|..].
    + destruct Hr as [_ [= <-]]. exfalso. by eapply Hnew.
    + destruct Htt as [_ [= <-]]. exfalso. by eapply Hnew.
    + by eapply (H1 j k r t b').
  - intros b' [->%elem_of_singleton|(j & r & Hj & Hr)%Ha]%elem_of_union.
    + exists i. eexists. by rewrite lookup_insert_eq.
    + exists j, r. split; [|done]. rewrite lookup_insert_ne; [done|]. intros <-. rewrite Hi in Hj. injection Hj as <-.
      destruct Hr as [Hr _]. unfold unowned in Hp. congruence.
  - intros b' [->%elem_of_singleton|Hb']%elem_of_union; [by rewrite lookup_insert_eq|].
    rewrite lookup_insert_ne; [by apply Hl|]. by intros <-.
Qed.

(** [Reset] frees the block of the pair and no other. *)
Lemma reset_ok s i p : tidy s -> pairs s !! i = Some p ->
  exists s', StrPair_Reset i s = Ret s' /\ tidy s' /\ pairs s' = <[i := no_string]> (pairs s) /\
    forall b, (owns p b -> blocks s' !! b = None) /\ (~ owns p b -> blocks s' !! b = blocks s !! b).
Proof.
  intros Ht Hi. unfold StrPair_Reset, get_pair. rewrite Hi. cbn. rewrite needs_delete_bit.
  destruct (Z.testbit (sp_flags p) 9) eqn:Hb; cbn.
  - destruct (t_owner _ Ht i p Hi Hb) as (b & Hs & Hin). rewrite Hs. cbn. rewrite bool_decide_eq_true_2 by done. cbn.
    eexists. split; [done|]. cbn. destruct Ht as [Ho H1 Ha Hl]. split; [split; cbn|split; [done|]].
    + intros j r [[<- <-]|[Hne Hj]]%lookup_insert_Some Hr; [done|]. destruct (Ho j r Hj Hr) as (b' & Hb' & Hin'). exists b'.
      split; [done|]. apply elem_of_difference. split; [done|]. intros ->%elem_of_singleton. by apply Hne, (H1 i j p r b).
    + intros j k r t b' [[<- <-]|[_ Hj]]%lookup_insert_Some [[<- <-]|[_ Hk]]%lookup_insert_Some [Hr1 Hr2] [Ht1 Ht2]; try done.
      by eapply (H1 j k r t b').
    + intros b' [(j & r & Hj & Hr)%Ha Hne]%elem_of_difference. exists j, r. split; [|done].
      rewrite lookup_insert_ne; [done|]. intros <-. rewrite Hi in Hj. injection Hj as <-. destruct Hr as [_ Hr].
      rewrite Hs in Hr. injection Hr as <-. set_solver.
    + intros b' [Hb' Hne]%elem_of_difference. rewrite lookup_delete_ne; [by apply Hl|]. set_solver.
    + intros b'. split; [intros [_ Hb']; rewrite Hs in Hb'; injection Hb' as <-; by rewrite lookup_delete_eq|].
      intros Hno. rewrite lookup_delete_ne; [done|]. intros <-. by apply Hno.
  - eexists. split; [done|]. cbn. split; [by eapply set_tidy|]. split; [done|]. intros b. split; [|done]. intros [? _]. congruence.
Qed.

(** ** Calls *)

Inductive pair_call :=
| PNew (i : nat)
| PDelete (i : nat)
| PTransfer (i other : nat)
| PSetStr (i : nat) (str : pointer) (flags : Z)
| PSetInterned (i : nat) (str : pointer)
| PSet (i : nat) (start end_ : pointer) (flags : Z).
Definition run_pair (c : pair_call) (s : strings) : ub strings :=
  match c with
  | PNew i => Ret (StrPair_new i s)
  | PDelete i => StrPair_delete i s
  | PTransfer i other => TransferTo i other s
  | PSetStr i str flags => SetStr i str flags s
  | PSetInterned i str => SetInternedStr i str s
  | PSet i start end_ flags => StrPair_Set i start end_ flags s
  end.

(** The string is not the pair's own; the flags are those of a [Mode]. *)
Definition mode_flags (f : Z) : Prop := Z.testbit f 9 = false.
Definition foreign (p : str_pair) (str : pointer) : Prop := match str with Null => True | At b _ => ~ owns p b end.
Definition pair_legal (s : strings) (c : pair_call) : Prop :=
  match c with
  | PNew i => pairs s !! i = None
  | PDelete i | PSetInterned i _ => is_Some (pairs s !! i)
  | PTransfer i other => is_Some (pairs s !! i) /\ is_Some (pairs s !! other)
  | PSetStr i str _ => exists p l, pairs s !! i = Some p /\ string_at str s = Ret l /\ foreign p str
  | PSet i _ _ flags => is_Some (pairs s !! i) /\ mode_flags flags
  end.

Lemma lor_delete f : Z.testbit (Z.lor f NEEDS_DELETE) 9 = true.
Proof. rewrite Z.lor_spec. apply orb_true_r. Qed.
Lemma lor_flush f : mode_flags f -> Z.testbit (Z.lor f NEEDS_FLUSH) 9 = false.
Proof. intros Hf. by rewrite Z.lor_spec, Hf. Qed.

Lemma string_kept s s' b o l : string_at (At b o) s = Ret l -> blocks s' !! b = blocks s !! b -> string_at (At b o) s' = Ret l.
Proof. cbn. by intros H ->. Qed.
Lemma string_is_text p s l : string_at p s = Ret l -> text l.
Proof.
  destruct p as [|b o]; cbn; [done|]. destruct (blocks s !! b); [|done]. case_bool_decide; [|done]. intros [= <-]. apply until_nul_text.
Qed.

(** After [SetStr] the pair has a string of its own, equal to the one given. *)
Lemma SetStr_ok s i p str f l : tidy s -> pairs s !! i = Some p -> string_at str s = Ret l -> foreign p str ->
  exists s' q, SetStr i str f s = Ret s' /\ tidy s' /\ pairs s' = <[i := q]> (pairs s) /\ string_at (sp_start q) s' = Ret l /\
    forall b, ~ owns p b -> is_Some (blocks s !! b) -> blocks s' !! b = blocks s !! b.
Proof.
  intros Ht Hi Hl Hf. destruct (reset_ok s i p Ht Hi) as (s1 & Hr & Ht1 & Hp1 & Hb1).
  assert (Hl1 : string_at str s1 = Ret l).
  { destruct str as [|b o]; [done|]. apply (string_kept s); [done|]. by apply Hb1. }
  assert (Hi1 : pairs s1 !! i = Some no_string) by (by rewrite Hp1, lookup_insert_eq).
  unfold SetStr. rewrite Hr. cbn -[string_at]. rewrite Hl1. cbn.
  eexists _, _. split; [done|]. split; [|split; [|split]].
  - apply (new_tidy s1 i no_string l (Z.lor f NEEDS_DELETE)); [done|done|done|apply lor_delete].
  - cbn. by rewrite Hp1, insert_insert_eq.
  - cbn. rewrite lookup_insert_eq, drop_0. rewrite bool_decide_eq_true_2 by set_solver.
    by rewrite until_nul_app by (by eapply string_is_text).
  - intros b Hb [x Hx]. cbn. rewrite lookup_insert_ne; [by apply Hb1|]. intros <-.
    pose proof (proj2 (Hb1 _) Hb) as Hs. rewrite Hx in Hs. apply elem_of_dom_2 in Hs. by apply is_fresh in Hs.
Qed.

(** [SetStr] frees the string of the pair before it reads the one it is given: with a string that starts
    inside its own it reads memory that is gone. *)
Theorem SetStr_undefined_iff s i p str f l : tidy s -> pairs s !! i = Some p -> string_at str s = Ret l ->
  SetStr i str f s = Undef <-> ~ foreign p str.
Proof.
  intros Ht Hi Hl. split.
  - intros Hu Hf. destruct (SetStr_ok s i p str f l Ht Hi Hl Hf) as (s' & q & Hs & _). congruence.
  - intros Hnf. destruct str as [|b o]; [done|]. cbn in Hnf.
    destruct (reset_ok s i p Ht Hi) as (s1 & Hr & _ & _ & Hb1). unfold SetStr. rewrite Hr. cbn.
    rewrite (proj1 (Hb1 b)); [done|]. split; [|].
    + destruct (Z.testbit (sp_flags p) 9) eqn:E; [done|]. exfalso. apply Hnf. intros [? _]. congruence.
    + destruct (decide (sp_start p = At b 0)); [done|]. exfalso. apply Hnf. by intros [_ ?].
Qed.

(** What a call does to the pairs: which of them it writes, and what they are then. *)
Definition pair_effect (s s' : strings) (c : pair_call) : Prop :=
  match c with
  | PNew i => pairs s' = <[i := no_string]> (pairs s)
  | PDelete i => pairs s' = delete i (pairs s)
  | PTransfer i other =>
      if decide (i = other) then s' = s
      else exists p, pairs s !! i = Some p /\ pairs s' = <[i := no_string]> (<[other := p]> (pairs s))
  | PSetStr i str _ => exists q, pairs s' = <[i := q]> (pairs s) /\ string_at (sp_start q) s' = string_at str s
  | PSetInterned i str => pairs s' = <[i := Pair 0 str Null]> (pairs s)
  | PSet i start end_ flags => pairs s' = <[i := Pair (Z.lor flags NEEDS_FLUSH) start end_]> (pairs s)
  end.
(** The pair that the call takes the string from, if it had one of its own. *)
Definition loses (c : pair_call) (i : nat) : Prop :=
  match c with
  | PDelete j | PSetStr j _ _ | PSetInterned j _ | PSet j _ _ _ => i = j
  | PTransfer j other => j <> other /\ i = other
  | PNew _ => False
  end.

Lemma transfer_ok s i j p q : tidy s -> i <> j -> pairs s !! i = Some p -> pairs s !! j = Some q ->
  exists s', TransferTo i j s = Ret s' /\ tidy s' /\ pairs s' = <[i := no_string]> (<[j := p]> (pairs s)) /\
    forall b, ~ owns q b -> blocks s' !! b = blocks s !! b.
Proof.
  intros Ht Hij Hi Hj. destruct (reset_ok s j q Ht Hj) as (s1 & Hr & [Ho H1 Ha Hl] & Hp1 & Hb1).
  assert (Hi1 : pairs s1 !! i = Some p) by (by rewrite Hp1, lookup_insert_ne).
  assert (Hj1 : pairs s1 !! j = Some no_string) by (by rewrite Hp1, lookup_insert_eq).
  unfold TransferTo. rewrite decide_False by done. rewrite Hr. cbn. unfold get_pair. rewrite Hi1. cbn.
  eexists. split; [done|]. split; [|split].
  - (* the owner of each block, with the two pairs exchanged *)
    assert (Hlook : forall k r, <[i := no_string]> (<[j := p]> (pairs s1)) !! k = Some r ->
      Z.testbit (sp_flags r) 9 = true -> (k = j /\ r = p) \/ (k <> i /\ k <> j /\ pairs s1 !! k = Some r)).
    { intros k r [[<- <-]|[? [[<- <-]|[? Hk]]%lookup_insert_Some]]%lookup_insert_Some Hb; [done|by left|right; by split_and!]. }
    split; cbn; [| | |done].
    + intros k r Hk Hb. destruct (Hlook k r Hk Hb) as [[-> ->]|(? & ? & Hk1)]; [by apply (Ho i)|by apply (Ho k)].
    + intros k m r t b Hk Hm Hr2 Ht2.
      destruct (Hlook k r Hk (proj1 Hr2)) as [[-> ->]|(? & ? & Hk1)], (Hlook m t Hm (proj1 Ht2)) as [[-> ->]|(? & ? & Hm1)];
        [done|exfalso|exfalso|by eapply H1].
      * assert (i = m) by (by eapply H1). congruence.
      * assert (k = i) by (by eapply H1). congruence.
    + intros b (k & r & Hk & Hr2)%Ha. destruct (decide (k = i)) as [->|Hki].
      * rewrite Hi1 in Hk. injection Hk as <-. exists j, p. by rewrite lookup_insert_ne, lookup_insert_eq.
      * exists k, r. rewrite !lookup_insert_ne; [done| |done]. intros <-. rewrite Hj1 in Hk. injection Hk as <-. by destruct Hr2.
  - cbn. rewrite Hp1. by rewrite insert_insert_eq.
  - cbn. intros b Hb. by apply Hb1.
Qed.

(** C17. Strings and their memory: in every state that calls lead to, each call is defined, makes the pairs what it
    should, and leaves every block that was allocated with exactly one pair that will free it; nothing is freed but the
    old string of the pair that gets another. *)
Theorem strings_freed_once s c : tidy s -> pair_legal s c ->
  exists s', run_pair c s = Ret s' /\ tidy s' /\ pair_effect s s' c /\
    forall i p b, pairs s !! i = Some p -> owns p b -> ~ loses c i -> blocks s' !! b = blocks s !! b.
Proof.
  intros Ht Hl.
  assert (Hkeep : forall j q s', pairs s !! j = Some q -> (forall b, ~ owns q b -> is_Some (blocks s !! b) -> blocks s' !! b = blocks s !! b) ->
    forall i p b, pairs s !! i = Some p -> owns p b -> i <> j -> blocks s' !! b = blocks s !! b).
  { intros j q s' Hj Hb i p b Hi Hp Hne. apply Hb; [intros Hq; by apply Hne, (t_one _ Ht i j p q b)|].
    destruct (t_owner _ Ht i p Hi (proj1 Hp)) as (b' & Hb' & Hin). destruct Hp as [_ Hp]. rewrite Hp in Hb'. injection Hb' as <-.
    by apply (t_live _ Ht). }
  destruct c as [i|i|i j|i str f|i str|i st en f]; cbn -[SetStr TransferTo] in *.
  - eexists. split; [done|]. split; [|done]. destruct Ht as [Ho H1 Ha Hlv]. split; cbn; [| | |done].
    + intros j r [[<- <-]|[_ Hj]]%lookup_insert_Some Hb; [done|eauto].
    + intros j k r t b [[<- <-]|[_ Hj]]%lookup_insert_Some [[<- <-]|[_ Hk]]%lookup_insert_Some [Hr Hrs] [Htt Hts]; try done.
      by eapply (H1 j k r t b).
    + intros b (j & r & Hj & Hr)%Ha. exists j, r. split; [|done]. rewrite lookup_insert_ne; [done|]. intros <-. congruence.
  - destruct Hl as [p Hi]. destruct (reset_ok s i p Ht Hi) as (s1 & Hr & [Ho H1 Ha Hlv] & Hp1 & Hb1).
    unfold StrPair_delete. rewrite Hr. cbn. eexists. split; [done|]. cbn. split; [split; cbn|split].
    + intros j r [_ Hj]%lookup_delete_Some. by eapply Ho.
    + intros j k r t b [_ Hj]%lookup_delete_Some [_ Hk]%lookup_delete_Some. by eapply H1.
    + intros b (j & r & Hj & Hr')%Ha. exists j, r. split; [|done]. rewrite lookup_delete_ne; [done|]. intros <-.
      rewrite Hp1, lookup_insert_eq in Hj. injection Hj as <-. by destruct Hr'.
    + done.
    + rewrite Hp1. apply delete_insert_eq.
    + apply (Hkeep i p _ Hi). intros b Hb _. by apply Hb1.
  - destruct Hl as [[p Hi] [q Hj]]. destruct (decide (i = j)) as [->|Hij].
    + exists s. unfold TransferTo. rewrite decide_True by done. by split_and!.
    + destruct (transfer_ok s i j p q Ht Hij Hi Hj) as (s' & -> & Ht' & Hp' & Hb'). exists s'. split; [done|]. split; [done|].
      split; [by exists p|]. intros k r b Hk Hr Hne. apply (Hkeep j q s' Hj) with k r; [by intros ? ? _; apply Hb'|done|done|].
      intros ->. by apply Hne.
  - destruct Hl as (p & l & Hi & Hstr & Hf). destruct (SetStr_ok s i p str f l Ht Hi Hstr Hf) as (s' & q & -> & Ht' & Hp' & Hq & Hb).
    exists s'. split; [done|]. split; [done|]. split; [exists q; by rewrite Hq|]. by apply (Hkeep i p).
  - destruct Hl as [p Hi]. destruct (reset_ok s i p Ht Hi) as (s1 & Hr & Ht1 & Hp1 & Hb1).
    assert (Hi1 : pairs s1 !! i = Some no_string) by (by rewrite Hp1, lookup_insert_eq).
    unfold SetInternedStr. rewrite Hr. cbn. unfold get_pair. rewrite Hi1. cbn. eexists. split; [done|].
    split; [by eapply set_tidy|]. cbn. split; [by rewrite Hp1, insert_insert_eq|].
    apply (Hkeep i p _ Hi). intros b Hb _. by apply Hb1.
  - destruct Hl as [[p Hi] Hf]. destruct (reset_ok s i p Ht Hi) as (s1 & Hr & Ht1 & Hp1 & Hb1).
    assert (Hi1 : pairs s1 !! i = Some no_string) by (by rewrite Hp1, lookup_insert_eq).
    unfold StrPair_Set. rewrite Hr. cbn. eexists. split; [done|].
    split; [eapply set_tidy; [done|done|done|by apply lor_flush]|]. cbn. split; [by rewrite Hp1, insert_insert_eq|].
    apply (Hkeep i p _ Hi). intros b Hb _. by apply Hb1.
Qed.

(** Without pairs no memory is left. *)
Lemma no_string_left s : tidy s -> pairs s = ∅ -> owned s = ∅.
Proof.
  intros Ht Hp. apply set_eq. intros b. split; [|set_solver]. intros (i & p & Hi & _)%(t_all _ Ht). by rewrite Hp, lookup_empty in Hi.
Qed.

(** A pair with a string of its own gets a part of the document. *)
Definition demo_strings : strings :=
  Strings (<[0%nat := bytes "ab" ++ [0]]> {[1%nat := bytes "x" ++ [0]]}) {[1%nat]}
    (<[0%nat := Pair NEEDS_DELETE (At 1 0) (At 1 1)]> {[1%nat := no_string]}).
Lemma demo_tidy : tidy demo_strings.
Proof.
  assert (Hp : forall i p, pairs demo_strings !! i = Some p -> Z.testbit (sp_flags p) 9 = true ->
    i = 0%nat /\ p = Pair NEEDS_DELETE (At 1 0) (At 1 1)).
  { intros i p Hi. cbn in Hi. revert Hi. intros [[<- <-]|[_ [<- <-]%lookup_singleton_Some]]%lookup_insert_Some; done. }
  split.
  - intros i p Hi Hb. destruct (Hp i p Hi Hb) as [-> ->]. exists 1%nat. split; [done|]. cbn. set_solver.
  - intros i j p q b Hi Hj [Hb _] [Hc _]. destruct (Hp i p Hi Hb) as [-> _]. by destruct (Hp j q Hj Hc) as [-> _].
  - intros b Hb. cbn in Hb. apply elem_of_singleton in Hb as ->. exists 0%nat. eexists. split; [done|]. by split.
  - intros b Hb. cbn in Hb. apply elem_of_singleton in Hb as ->. by eexists.
Qed.
Lemma strings_freed_once_witness : exists s' q, run_pair (PSetStr 0 (At 0 1) 0) demo_strings = Ret s' /\ tidy s' /\
  pairs s' !! 0%nat = Some q /\ string_at (sp_start q) s' = Ret (bytes "b").
Proof.
  destruct (strings_freed_once demo_strings (PSetStr 0 (At 0 1) 0) demo_tidy) as (s' & Hr & Ht & (q & Hp & Hq) & _).
  - eexists _, _. split; [reflexivity|]. split; [by vm_compute|]. by intros [_ [=]].
  - exists s', q. split; [done|]. split; [done|]. rewrite Hp, lookup_insert_eq. split; [done|]. rewrite Hq. by vm_compute.
Defined.
