(* ===== verification/XmlErrors.v ===== *)
(** * Error messages of tinyxml2

    [compat/tinyxml2-v34/]: [XMLDocument::SetError] with the text that it composes in a buffer of 1000
    bytes, and what tells a client of it: [ErrorID], [ErrorName], [ErrorStr], [ErrorLineNum].  [XmlDocument] has the parser's
    calls of it, without the text.

    Theorems: the buffer is never overrun, the text is cut only behind its head, and it says which error it was and
    in which line. *)

From S2P Require Import Prelude LibBase XmlText XmlDocument.

(** ** Names *)

Definition errors : list XMLError := [
  XML_SUCCESS; XML_NO_ATTRIBUTE; XML_WRONG_ATTRIBUTE_TYPE; XML_ERROR_FILE_NOT_FOUND;
  XML_ERROR_FILE_COULD_NOT_BE_OPENED; XML_ERROR_FILE_READ_ERROR; XML_ERROR_PARSING_ELEMENT;
  XML_ERROR_PARSING_ATTRIBUTE; XML_ERROR_PARSING_TEXT; XML_ERROR_PARSING_CDATA;
  XML_ERROR_PARSING_COMMENT; XML_ERROR_PARSING_DECLARATION; XML_ERROR_PARSING_UNKNOWN;
  XML_ERROR_EMPTY_DOCUMENT; XML_ERROR_MISMATCHED_ELEMENT; XML_ERROR_PARSING;
  XML_CAN_NOT_CONVERT_TEXT; XML_NO_TEXT_NODE; XML_ELEMENT_DEPTH_EXCEEDED].
Definition XML_ERROR_COUNT : nat := length errors.

Definition _errorNames : list string := [
  "XML_SUCCESS"; "XML_NO_ATTRIBUTE"; "XML_WRONG_ATTRIBUTE_TYPE"; "XML_ERROR_FILE_NOT_FOUND";
  "XML_ERROR_FILE_COULD_NOT_BE_OPENED"; "XML_ERROR_FILE_READ_ERROR"; "XML_ERROR_PARSING_ELEMENT";
  "XML_ERROR_PARSING_ATTRIBUTE"; "XML_ERROR_PARSING_TEXT"; "XML_ERROR_PARSING_CDATA";
  "XML_ERROR_PARSING_COMMENT"; "XML_ERROR_PARSING_DECLARATION"; "XML_ERROR_PARSING_UNKNOWN";
  "XML_ERROR_EMPTY_DOCUMENT"; "XML_ERROR_MISMATCHED_ELEMENT"; "XML_ERROR_PARSING";
  "XML_CAN_NOT_CONVERT_TEXT"; "XML_NO_TEXT_NODE"; "XML_ELEMENT_DEPTH_EXCEEDED"].

(** The value of an enumerator. *)
Definition error_number (e : XMLError) : nat := default 0%nat (fst <$> list_find (e =.) errors).

(** [_errorNames[errorID]]: undefined out of range. *)
Definition ErrorIDToName (e : XMLError) : ub (list Z) :=
  match _errorNames !! error_number e with Some s => Ret (bytes s) | None => Undef end.

(** ** The text *)

Definition nibble (n : Z) : Z := if n <? 10 then 48 + n else 87 + n.
(** ["%x"] of a number below 256. *)
Definition hex (n : Z) : list Z := if n <? 16 then [nibble n] else [nibble (n / 16); nibble (n mod 16)].

Definition BUFFER_SIZE : nat := 1000.

(** [snprintf( buffer + strlen( buffer ), BUFFER_SIZE - strlen( buffer ), ... )] that produces [text]:
    a byte is left for the NUL; a buffer that is full stays. *)
Definition snprintf_behind (buffer text : list Z) : list Z := buffer ++ take (BUFFER_SIZE - length buffer - 1) text.

Definition error_head (name : list Z) (e : XMLError) (lineNum : Z) : list Z :=
  bytes "Error=" ++ name ++ bytes " ErrorID=" ++ bytes (to_string (Z.of_nat (error_number e))) ++
  bytes " (0x" ++ hex (Z.of_nat (error_number e)) ++ bytes ") Line number=" ++ bytes (to_string lineNum).

(** [format] and what follows it, as the text that they give. *)
Definition error_text (e : XMLError) (lineNum : Z) (format : option (list Z)) : ub (list Z) :=
  name ← ErrorIDToName e;
  let buffer := snprintf_behind [] (error_head name e lineNum) in
  match format with
  | Some text => Ret (snprintf_behind (snprintf_behind buffer (bytes ": ")) text)
  | None => Ret buffer
  end.

(** ** The error of a document *)

Record doc_error := DocError { de_errorID : XMLError; de_errorLineNum : Z; _errorStr : option (list Z) }.
Definition doc_ClearError : doc_error := DocError XML_SUCCESS 0 None.
Definition doc_SetError (e : XMLError) (lineNum : Z) (format : option (list Z)) (_ : doc_error) : ub doc_error :=
  text ← error_text e lineNum format; Ret (DocError e lineNum (Some text)).
Definition ErrorStr (d : doc_error) : list Z := default [] (_errorStr d).
Definition ErrorName (d : doc_error) : ub (list Z) := ErrorIDToName (de_errorID d).

(** ** Names and numbers *)

Lemma error_names_match e : exists s, ErrorIDToName e = Ret (bytes s) /\ _errorNames !! error_number e = Some s /\
  errors !! error_number e = Some e /\ (error_number e < XML_ERROR_COUNT)%nat.
Proof. destruct e; eexists; split_and!; try reflexivity; vm_compute; lia. Qed.

Lemma error_names_nodup : NoDup _errorNames.
Proof. apply (bool_decide_unpack _). vm_compute. done. Qed.

(** ** What the text says *)

(** Two words in front of a separator, or of the end, are one. *)
Lemma word_inj (c : Z) a : forall b r s, c ∉ a -> c ∉ b -> (r = [] \/ head r = Some c) -> (s = [] \/ head s = Some c) ->
  a ++ r = b ++ s -> a = b /\ r = s.
Proof.
  induction a as [|x a IH]; intros [|y b] r s Ha Hb Hr Hs He; cbn in *.
  - done.
  - subst r. destruct Hr as [?|Hr]; [done|]. cbn in Hr. set_solver.
  - subst s. destruct Hs as [?|Hs]; [done|]. cbn in Hs. set_solver.
  - injection He as -> He. rewrite not_elem_of_cons in Ha, Hb. destruct (IH b r s) as [-> ->]; tauto.
Qed.

Lemma bytes_inj s t : bytes s = bytes t -> s = t.
Proof.
  revert t. induction s as [|c s IH]; intros [|d t]; cbn; try done. intros [= Hc Ht]. f_equal; [|by apply IH].
  unfold char_code in Hc. apply N2Z.inj in Hc. by rewrite <- (Ascii.ascii_N_embedding c), <- (Ascii.ascii_N_embedding d), Hc.
Qed.

Lemma not_in_bytes c s : str_forallb (fun d => negb (char_code d =? c)) s = true -> c ∉ bytes s.
Proof.
  induction s as [|d s IH]; cbn; [set_solver|]. rewrite andb_true_iff, negb_true_iff, Z.eqb_neq, not_elem_of_cons.
  intros [Hd Hs]. split; [done|by apply IH].
Qed.

Lemma line_has_no_colon z : 58 ∉ bytes (to_string z).
Proof.
  apply not_in_bytes, to_string_forallb; [|done]. intros d Hd. apply negb_true_iff, Z.eqb_neq. lia.
Qed.

Lemma to_string_inj y z : to_string y = to_string z -> y = z.
Proof.
  intros He. pose proof (ref_parse_int_to_string y (Z.min y z) (Z.max y z) ltac:(lia)) as Hy.
  pose proof (ref_parse_int_to_string z (Z.min y z) (Z.max y z) ltac:(lia)) as Hz. rewrite He in Hy. congruence.
Qed.

Lemma head_length s e z : _errorNames !! error_number e = Some s -> -2 ^ 31 <= z < 2 ^ 31 -> (length (error_head (bytes s) e z) <= 90)%nat.
Proof.
  intros Hs Hz. pose proof (to_string_length z 10 ltac:(change (10 ^ Z.of_nat 10) with 10000000000; lia) ltac:(lia)) as Hl.
  unfold error_head. rewrite !length_app, !bytes_length.
  generalize dependent (String.length (to_string z)). intros n Hl.
  destruct e; vm_compute in Hs; injection Hs as <-; vm_compute; lia.
Qed.

(** The whole text, before it is cut. *)
Definition full_text (name : list Z) (e : XMLError) (z : Z) (format : option (list Z)) : list Z :=
  error_head name e z ++ match format with Some text => bytes ": " ++ text | None => [] end.

(** [SetError] is always defined; the text fits the buffer with its NUL and is cut only behind its head. *)
Lemma error_text_fits e z format : -2 ^ 31 <= z < 2 ^ 31 -> exists s t, _errorNames !! error_number e = Some s /\
  error_text e z format = Ret t /\ t = take (BUFFER_SIZE - 1) (full_text (bytes s) e z format) /\
  (length t < BUFFER_SIZE)%nat /\ exists r, t = error_head (bytes s) e z ++ r /\ (r = [] \/ head r = Some 58).
Proof.
  intros Hz. destruct (error_names_match e) as (s & Hn & Hs & _). pose proof (head_length s e z Hs Hz) as Hl.
  unfold error_text, full_text. rewrite Hn. cbn [mbind ub_bind]. set (hd := error_head (bytes s) e z) in *. unfold BUFFER_SIZE.
  assert (Hhd : snprintf_behind [] hd = hd) by (unfold snprintf_behind, BUFFER_SIZE; cbn [app length]; apply take_ge; lia).
  rewrite Hhd. destruct format as [text|].
  - assert (Hsep : snprintf_behind hd (bytes ": ") = hd ++ bytes ": ").
    { unfold snprintf_behind, BUFFER_SIZE. f_equal. apply take_ge. rewrite bytes_length. change (String.length ": ") with 2%nat. lia. }
    rewrite Hsep. eexists s, _. split; [done|]. split; [reflexivity|]. unfold snprintf_behind, BUFFER_SIZE.
    assert (Hcut : (hd ++ bytes ": ") ++ take (1000 - length (hd ++ bytes ": ") - 1) text = take (1000 - 1) (hd ++ bytes ": " ++ text)).
    { rewrite app_assoc, take_app, (take_ge (hd ++ bytes ": ")) by (rewrite length_app, bytes_length; change (String.length ": ") with 2%nat; lia).
      do 2 f_equal. lia. }
    rewrite Hcut. split; [done|]. split; [rewrite length_take; lia|]. rewrite <- Hcut, <- app_assoc.
    eexists. split; [done|by right].
  - eexists s, _. split; [done|]. split; [reflexivity|]. rewrite app_nil_r. split; [symmetry; apply take_ge; lia|]. split; [lia|].
    exists []. rewrite app_nil_r. auto.
Qed.

Lemma name_word e s : _errorNames !! error_number e = Some s -> 32 ∉ bytes s.
Proof. intros Hs. apply not_in_bytes. destruct e; vm_compute in Hs; injection Hs as <-; reflexivity. Qed.

(** The text names the error and the line: no two errors have the same text, whatever the details. *)
Theorem error_text_tells e z format e' z' format' t : -2 ^ 31 <= z < 2 ^ 31 -> -2 ^ 31 <= z' < 2 ^ 31 ->
  error_text e z format = Ret t -> error_text e' z' format' = Ret t -> e = e' /\ z = z'.
Proof.
  intros Hz Hz' Ht Ht'. destruct (error_text_fits e z format Hz) as (s & t1 & Hs & E1 & _ & _ & r & Hr & Hc).
  destruct (error_text_fits e' z' format' Hz') as (s' & t2 & Hs' & E2 & _ & _ & r' & Hr' & Hc').
  assert (t = t1) as -> by congruence. assert (t1 = t2) as <- by congruence. rewrite Hr in Hr'. unfold error_head in Hr'.
  rewrite <- !app_assoc in Hr'. apply app_inv_head in Hr'.
  apply (word_inj 32) in Hr' as [Hname Hr']; [|by eapply name_word|by eapply name_word|by right|by right].
  apply bytes_inj in Hname as <-.
  assert (Hnum : error_number e = error_number e') by (eapply NoDup_lookup; [apply error_names_nodup|done|done]).
  destruct (error_names_match e) as (_ & _ & _ & He & _), (error_names_match e') as (_ & _ & _ & He' & _).
  rewrite Hnum in He. split; [congruence|]. rewrite Hnum in Hr'. repeat apply app_inv_head in Hr'.
  apply (word_inj 58) in Hr' as [Hline _]; [|apply line_has_no_colon|apply line_has_no_colon|done|done].
  by apply bytes_inj, to_string_inj in Hline.
Qed.

(** After [SetError] the four calls agree on the error. *)
Lemma set_error_reports e z format d : -2 ^ 31 <= z < 2 ^ 31 -> exists d', doc_SetError e z format d = Ret d' /\
  de_errorID d' = e /\ de_errorLineNum d' = z /\ error_text e z format = Ret (ErrorStr d') /\ ErrorName d' = ErrorIDToName e.
Proof.
  intros Hz. destruct (error_text_fits e z format Hz) as (s & t & _ & Ht & _). unfold doc_SetError. rewrite Ht. by eexists.
Qed.
