(* ===== verification/KernelAbi.v ===== *)
(** * Binary interfaces of the kernel

    [compat/kernel-headers/] are the headers by which the source-built display stack
    and audio platform talk to the kernel.  They hold no functions; what has to be right is the layout of
    the structures and the numbers of the [ioctl] requests, which encode a size.  This file
    has the types of C that the headers use, their layout on 32-bit and 64-bit ARM, and request
    numbers; [KernelDrm] and [KernelMsm] are the headers.

    The macros [_IOR] and so on are in headers of the kernel that are not part of the repository:
    class [IoctlNumbers], of which only is assumed that it keeps its four parts apart.

    Theorems: members of a structure are aligned, apart and inside of it; a structure without [long] and
    pointers has the same layout for both widths; a word made of flags without common bits
    tells which of them were set. *)

From S2P Require Import Prelude.

Infix ".|" := Z.lor (at level 50, left associativity) : Z_scope.

(** ** Types *)

Inductive ctype :=
| Char | S8 | U8 | S16 | U16 | S32 | U32 | S64 | U64
| Enum
| Long | ULong | SizeT
| Pointer
| Array (n : Z) (t : ctype)
| Flexible (t : ctype)
| Struct (members : list (string * ctype))
| Union (members : list (string * ctype)).

Lemma ctype_ind' (Q : ctype -> Prop) :
  (forall t, match t with Array _ _ | Flexible _ | Struct _ | Union _ => False | _ => True end -> Q t) ->
  (forall n t, Q t -> Q (Array n t)) -> (forall t, Q t -> Q (Flexible t)) ->
  (forall l, Forall (fun m => Q m.2) l -> Q (Struct l)) -> (forall l, Forall (fun m => Q m.2) l -> Q (Union l)) ->
  forall t, Q t.
Proof.
  intros Hs Ha Hf Hst Hu. fix IH 1. intros [| | | | | | | | | | | | | |n t|t|l|l]; try (by apply Hs); [apply Ha, IH|apply Hf, IH|apply Hst|apply Hu];
    induction l as [|[s t] l IHl]; constructor; [apply IH|apply IHl|apply IH|apply IHl].
Qed.

(** ** Layout *)

(** The width of [long] and of pointers, in bytes: 4 or 8.  64-bit integers are aligned to 8 in
    either case (AAPCS). *)
Definition align_up (o a : Z) : Z := (o + a - 1) / a * a.

Fixpoint alignof (w : Z) (t : ctype) : Z :=
  match t with
  | Char | S8 | U8 => 1
  | S16 | U16 => 2
  | S32 | U32 | Enum => 4
  | S64 | U64 => 8
  | Long | ULong | SizeT | Pointer => w
  | Array _ t | Flexible t => alignof w t
  | Struct l | Union l => foldr Z.max 1 (map (fun m => alignof w m.2) l)
  end.

(** Where a member begins, given where the one before it ends. *)
Definition place (w o : Z) (t : ctype) : Z := align_up o (alignof w t).
Fixpoint sizeof (w : Z) (t : ctype) : Z :=
  match t with
  | Char | S8 | U8 => 1
  | S16 | U16 => 2
  | S32 | U32 | Enum => 4
  | S64 | U64 => 8
  | Long | ULong | SizeT | Pointer => w
  | Array n t => n * sizeof w t
  | Flexible _ => 0
  | Struct l => align_up (fold_left (fun o m => place w o m.2 + sizeof w m.2) l 0) (alignof w t)
  | Union l => align_up (foldr Z.max 0 (map (fun m => sizeof w m.2) l)) (alignof w t)
  end.

(** The members of a structure with their offsets and sizes. *)
Fixpoint offsets_from (w o : Z) (l : list (string * ctype)) : list (string * (Z * Z)) :=
  match l with
  | [] => []
  | (s, t) :: l => (s, (place w o t, sizeof w t)) :: offsets_from w (place w o t + sizeof w t) l
  end.
Definition offsets (w : Z) (t : ctype) : list (string * (Z * Z)) :=
  match t with
  | Struct l => offsets_from w 0 l
  | Union l => map (fun m => (m.1, (0, sizeof w m.2))) l
  | _ => []
  end.

(** No [long] and no pointer in it. *)
Fixpoint portable (t : ctype) : bool :=
  match t with
  | Long | ULong | SizeT | Pointer => false
  | Array _ t | Flexible t => portable t
  | Struct l | Union l => forallb (fun m => portable m.2) l
  | _ => true
  end.

(** The type makes sense: no array has a negative length. *)
Fixpoint sensible (t : ctype) : bool :=
  match t with
  | Array n t => (0 <=? n) && sensible t
  | Flexible t => sensible t
  | Struct l | Union l => forallb (fun m => sensible m.2) l
  | _ => true
  end.

(** ** Members are where they should be *)

Lemma align_up_spec o a : 0 < a -> o <= align_up o a /\ (a | align_up o a) /\ align_up o a < o + a.
Proof.
  intros Ha. unfold align_up. pose proof (Z.div_mod (o + a - 1) a). pose proof (Z.mod_pos_bound (o + a - 1) a Ha).
  split; [nia|]. split; [apply Z.divide_factor_r|nia].
Qed.

Lemma foldr_max_le (l : list Z) d x : x ∈ l -> x <= foldr Z.max d l.
Proof. induction l as [|y l IH]; cbn; [set_solver|]. intros [->|Hx]%elem_of_cons; [lia|]. specialize (IH Hx). lia. Qed.
Lemma foldr_max_ge (l : list Z) d : d <= foldr Z.max d l.
Proof. induction l as [|y l IH]; cbn; lia. Qed.

Section Width.
Context (w : Z) (Hw : 0 < w).

Lemma alignof_pos t : 0 < alignof w t.
Proof.
  induction t as [t Ht| | |l _|l _] using ctype_ind'; cbn; try done.
  - by destruct t.
  - pose proof (foldr_max_ge (map (fun m => alignof w m.2) l) 1). lia.
  - pose proof (foldr_max_ge (map (fun m => alignof w m.2) l) 1). lia.
Qed.

Lemma place_ge o t : o <= place w o t.
Proof. apply align_up_spec, alignof_pos. Qed.

(** The end of the last member. *)
Definition end_from (o : Z) (l : list (string * ctype)) : Z := fold_left (fun o m => place w o m.2 + sizeof w m.2) l o.

Lemma end_ge l o : Forall (fun m : string * ctype => 0 <= sizeof w m.2) l -> o <= end_from o l.
Proof.
  unfold end_from. intros Hl. revert o. induction Hl as [|m l Hm _ IH]; intros o; cbn; [lia|].
  specialize (IH (place w o m.2 + sizeof w m.2)). pose proof (place_ge o m.2). lia.
Qed.

Lemma struct_size l : sizeof w (Struct l) = align_up (end_from 0 l) (alignof w (Struct l)).
Proof. done. Qed.

Lemma sizeof_nonneg t : sensible t = true -> 0 <= sizeof w t.
Proof.
  induction t as [t Ht|n t IH|t IH|l IH|l IH] using ctype_ind'; intros Hs; [|cbn in *..|].
  - destruct t; cbn; try done; lia.
  - apply andb_true_iff in Hs as [Hn Hs]. apply Z.leb_le in Hn. specialize (IH Hs). nia.
  - done.
  - assert (Hall : Forall (fun m : string * ctype => 0 <= sizeof w m.2) l).
    { apply Forall_forall. intros m Hm. rewrite Forall_forall in IH. apply IH; [done|].
      rewrite forallb_forall in Hs. apply Hs. by apply list_elem_of_In. }
    pose proof (end_ge l 0 Hall). pose proof (align_up_spec (end_from 0 l) _ (alignof_pos (Struct l))) as [? _].
    unfold end_from in *. cbn in *. lia.
  - pose proof (foldr_max_ge (map (fun m => sizeof w m.2) l) 0).
    pose proof (align_up_spec (foldr Z.max 0 (map (fun m => sizeof w m.2) l)) _ (alignof_pos (Union l))) as [? _]. cbn in *. lia.
Qed.

(** Pieces of memory between [lo] and [hi], one behind the other. *)
Fixpoint apart (lo hi : Z) (l : list (Z * Z)) : Prop :=
  match l with
  | [] => lo <= hi
  | (o, n) :: l => lo <= o /\ 0 <= n /\ apart (o + n) hi l
  end.

Lemma apart_weaken l : forall lo hi hi', hi <= hi' -> apart lo hi l -> apart lo hi' l.
Proof. induction l as [|[o n] l IH]; cbn; intros lo hi hi' Hh; [lia|]. intros (? & ? & ?). split_and!; eauto. Qed.

(** The members of a structure are in order, do not overlap, lie inside of it and are aligned. *)
Lemma struct_sound l : sensible (Struct l) = true ->
  apart 0 (sizeof w (Struct l)) (offsets w (Struct l)).*2 /\
  Forall2 (fun m o => (alignof w m.2 | o.2.1)) l (offsets w (Struct l)) /\ (alignof w (Struct l) | sizeof w (Struct l)).
Proof.
  intros Hs. cbn in Hs. rewrite struct_size. pose proof (align_up_spec (end_from 0 l) _ (alignof_pos (Struct l))) as (Hge & Hdiv & _).
  split; [|split; [|done]].
  - eapply apart_weaken; [exact Hge|]. cbn [offsets]. generalize 0 as o. clear Hge Hdiv.
    induction l as [|[s t] l IH]; intros o; cbn; [lia|]. cbn in Hs. apply andb_true_iff in Hs as [Ht Hs].
    split; [apply place_ge|]. split; [by apply sizeof_nonneg|]. by apply IH.
  - cbn [offsets]. generalize 0 as o. clear -Hw. induction l as [|[s t] l IH]; intros o; constructor; [|apply IH].
    cbn. apply align_up_spec, alignof_pos.
Qed.
End Width.

(** ** Widths *)

(** A type without [long] and pointers is laid out alike for every width. *)
Lemma portable_size v w t : portable t = true -> alignof v t = alignof w t /\ sizeof v t = sizeof w t.
Proof.
  induction t as [t Ht|n t IH|t IH|l IH|l IH] using ctype_ind'; intros Hp.
  - by destruct t.
  - destruct (IH Hp) as [Ha Hz]. cbn. by rewrite Ha, Hz.
  - destruct (IH Hp) as [Ha _]. by cbn.
  - assert (Hall : Forall (fun m => alignof v m.2 = alignof w m.2 /\ sizeof v m.2 = sizeof w m.2) l).
    { apply Forall_forall. intros m Hm. rewrite Forall_forall in IH. apply IH; [done|]. cbn in Hp.
      rewrite forallb_forall in Hp. apply Hp. by apply list_elem_of_In. }
    assert (Hal : alignof v (Struct l) = alignof w (Struct l)).
    { cbn. f_equal. apply map_ext_Forall. apply (Forall_impl _ _ _ Hall). by intros m []. }
    split; [done|]. rewrite !struct_size, Hal. f_equal. unfold end_from. generalize 0. clear -Hall.
    induction Hall as [|m l [Ha Hz] _ IH]; intros o; cbn; [done|]. unfold place in *. by rewrite Ha, Hz, IH.
  - assert (Hall : Forall (fun m => alignof v m.2 = alignof w m.2 /\ sizeof v m.2 = sizeof w m.2) l).
    { apply Forall_forall. intros m Hm. rewrite Forall_forall in IH. apply IH; [done|]. cbn in Hp.
      rewrite forallb_forall in Hp. apply Hp. by apply list_elem_of_In. }
    assert (Hal : alignof v (Union l) = alignof w (Union l)).
    { cbn. f_equal. apply map_ext_Forall. apply (Forall_impl _ _ _ Hall). by intros m []. }
    split; [done|]. cbn [sizeof]. rewrite Hal. f_equal. f_equal. apply map_ext_Forall. apply (Forall_impl _ _ _ Hall). by intros m [].
Qed.

Lemma portable_offsets v w t : portable t = true -> offsets v t = offsets w t.
Proof.
  destruct t as [| | | | | | | | | | | | | |n t|t|l|l]; try done; cbn; intros Hp.
  - generalize 0. induction l as [|[s t] l IH]; intros o; cbn in *; [done|]. apply andb_true_iff in Hp as [Ht Hp].
    destruct (portable_size v w t Ht) as [Ha Hz]. unfold place. by rewrite Ha, Hz, IH.
  - induction l as [|[s t] l IH]; cbn in *; [done|]. apply andb_true_iff in Hp as [Ht Hp].
    destruct (portable_size v w t Ht) as [_ Hz]. by rewrite Hz, IH.
Qed.

(** ** Flags *)

Definition all_of (l : list Z) : Z := foldr Z.lor 0 l.
Arguments all_of : simpl never.
Lemma all_of_cons f l : all_of (f :: l) = f .| all_of l.
Proof. done. Qed.

(** None is 0 and no two have a bit in common. *)
Fixpoint apart_flags (l : list Z) : bool :=
  match l with
  | [] => true
  | f :: l => negb (f =? 0) && (Z.land f (all_of l) =? 0) && apart_flags l
  end.

Lemma all_of_in s f : f ∈ s -> Z.land (all_of s) f = f.
Proof.
  induction s as [|g s IH]; [set_solver|]. intros Hf. rewrite all_of_cons, Z.land_lor_distr_l. apply Z.bits_inj'. intros n Hn.
  apply elem_of_cons in Hf as [<-|Hf]; rewrite ?Z.land_diag, ?(IH Hf), Z.lor_spec, !Z.land_spec.
  - destruct (Z.testbit f n), (Z.testbit (all_of s) n); done.
  - destruct (Z.testbit f n), (Z.testbit g n); done.
Qed.

Lemma all_of_apart l s f : apart_flags l = true -> s ⊆ l -> f ∈ l -> f ∉ s -> Z.land (all_of s) f = 0.
Proof.
  intros Hl Hs Hf Hn. assert (Hbit : forall g, g ∈ s -> Z.land g f = 0).
  { intros g Hg. specialize (Hs g Hg). assert (g <> f) as Hgf by congruence. clear Hg Hn s.
    induction l as [|x l IH]; [set_solver|]. cbn in Hl. rewrite !andb_true_iff, Z.eqb_eq in Hl. destruct Hl as [[_ Hx] Hl].
    assert (Hz : forall y, y ∈ l -> Z.land x y = 0).
    { intros y Hy. rewrite <- (all_of_in l y Hy), Z.land_assoc, Hx. done. }
    apply elem_of_cons in Hs as [->|Hs], Hf as [->|Hf]; [done|by apply Hz|rewrite Z.land_comm; by apply Hz|by apply IH]. }
  clear Hs Hl Hf Hn. induction s as [|g s IH]; [done|]. rewrite all_of_cons, Z.land_lor_distr_l, Hbit, IH; [done| |set_solver].
  intros h Hh. apply Hbit. set_solver.
Qed.

(** A word that is made of some of the flags of a family: a flag can be told to be set. *)
Lemma flag_set_iff l s f : apart_flags l = true -> s ⊆ l -> f ∈ l -> Z.land (all_of s) f <> 0 <-> f ∈ s.
Proof.
  intros Hl Hs Hf. split.
  - intros Hz. destruct (decide (f ∈ s)) as [|Hn]; [done|]. by rewrite (all_of_apart l) in Hz.
  - intros Hin. rewrite (all_of_in s f Hin). clear Hin Hs. induction l as [|x l IH]; [set_solver|]. cbn in Hl.
    rewrite !andb_true_iff, negb_true_iff, Z.eqb_neq in Hl. destruct Hl as [[Hx _] Hl]. apply elem_of_cons in Hf as [->|Hf]; auto.
Qed.

(** ** Requests *)

Inductive direction := IO_none | IO_read | IO_write | IO_both.
#[global] Instance direction_eq_dec : EqDecision direction.
Proof. solve_decision. Defined.

(** [_IO], [_IOR], [_IOW] and [_IOWR] of the kernel. *)
Class IoctlNumbers := ioc : direction -> Z -> Z -> Z -> Z.
Class IoctlLaws `{IoctlNumbers} : Prop :=
  ioc_apart d type nr size d' type' nr' size' :
    0 <= type < 256 -> 0 <= nr < 256 -> 0 <= size < 2 ^ 14 -> 0 <= type' < 256 -> 0 <= nr' < 256 -> 0 <= size' < 2 ^ 14 ->
    ioc d type nr size = ioc d' type' nr' size' -> d = d' /\ type = type' /\ nr = nr' /\ size = size'.

Record ioctl := Ioctl { io_name : string; io_dir : direction; io_type : Z; io_nr : Z; io_arg : option ctype }.
Definition arg_size (w : Z) (c : ioctl) : Z := match io_arg c with Some t => sizeof w t | None => 0 end.
Definition number `{IoctlNumbers} (w : Z) (c : ioctl) : Z := ioc (io_dir c) (io_type c) (io_nr c) (arg_size w c).

(** The parts are in range. *)
Definition encodable (w : Z) (c : ioctl) : bool :=
  (0 <=? io_type c) && (io_type c <? 256) && (0 <=? io_nr c) && (io_nr c <? 256) && (0 <=? arg_size w c) && (arg_size w c <? 2 ^ 14).

Lemma same_number `{IoctlLaws} v w c c' : encodable v c = true -> encodable w c' = true -> number v c = number w c' ->
  io_dir c = io_dir c' /\ io_type c = io_type c' /\ io_nr c = io_nr c' /\ arg_size v c = arg_size w c'.
Proof.
  unfold encodable. rewrite !andb_true_iff, !Z.leb_le, !Z.ltb_lt. intros (((((? & ?) & ?) & ?) & ?) & ?) (((((? & ?) & ?) & ?) & ?) & ?).
  apply ioc_apart; done.
Qed.

(** The numbers that most kernels use ([asm-generic/ioctl.h]). *)
Module GenericIoctl.
Definition dir_bits (d : direction) : Z := match d with IO_none => 0 | IO_write => 1 | IO_read => 2 | IO_both => 3 end.
#[export] Instance generic_numbers : IoctlNumbers :=
  fun d type nr size => dir_bits d * 2 ^ 30 + size * 2 ^ 16 + type * 2 ^ 8 + nr.
#[export] Instance generic_laws : IoctlLaws.
Proof.
  intros d type nr size d' type' nr' size' [? ?] [? ?] ? [? ?] [? ?] ? He. unfold ioc, generic_numbers in He.
  assert (dir_bits d = dir_bits d' /\ size = size' /\ type = type' /\ nr = nr') as (Hd & -> & -> & ->).
  { assert (0 <= dir_bits d < 4) by (destruct d; cbn; lia). assert (0 <= dir_bits d' < 4) by (destruct d'; cbn; lia). lia. }
  split_and!; try done. by destruct d, d'.
Qed.
End GenericIoctl.
