(* ===== verification/KernelDrm.v ===== *)
(** * Direct rendering: the kernel's common interface

    [compat/kernel-headers/include/drm/drm.h] and [drm_mode.h]: the structures of the requests that
    every DRM driver has, the requests, and the flags of modes and page flips.  The C++ branch
    is taken where the headers distinguish the languages. *)

From S2P Require Import Prelude KernelAbi.

(** ** [drm.h] and [drm_mode.h]: structures *)

Definition DRM_DISPLAY_MODE_LEN : Z := 32.
Definition drm_mode_modeinfo : ctype := Struct [
  ("clock", U32); ("hdisplay", U16); ("hsync_start", U16); ("hsync_end", U16); ("htotal", U16);
  ("hskew", U16); ("vdisplay", U16); ("vsync_start", U16); ("vsync_end", U16); ("vtotal", U16);
  ("vscan", U16); ("vrefresh", U32); ("flags", U32); ("type", U32); ("name", Array DRM_DISPLAY_MODE_LEN Char)].
Definition drm_mode_card_res : ctype := Struct [
  ("fb_id_ptr", U64); ("crtc_id_ptr", U64); ("connector_id_ptr", U64); ("encoder_id_ptr", U64);
  ("count_fbs", U32); ("count_crtcs", U32); ("count_connectors", U32); ("count_encoders", U32);
  ("min_width", U32); ("max_width", U32); ("min_height", U32); ("max_height", U32)].
Definition drm_mode_crtc : ctype := Struct [
  ("set_connectors_ptr", U64); ("count_connectors", U32); ("crtc_id", U32); ("fb_id", U32); ("x", U32);
  ("y", U32); ("gamma_size", U32); ("mode_valid", U32); ("mode", drm_mode_modeinfo)].
Definition drm_mode_set_plane : ctype := Struct [
  ("plane_id", U32); ("crtc_id", U32); ("fb_id", U32); ("flags", U32); ("crtc_x", S32); ("crtc_y", S32);
  ("crtc_w", U32); ("crtc_h", U32); ("src_x", U32); ("src_y", U32); ("src_h", U32); ("src_w", U32)].
Definition drm_mode_get_plane : ctype := Struct [
  ("plane_id", U32); ("crtc_id", U32); ("fb_id", U32); ("possible_crtcs", U32); ("gamma_size", U32);
  ("count_format_types", U32); ("format_type_ptr", U64)].
Definition drm_mode_get_plane_res : ctype := Struct [
  ("plane_id_ptr", U64); ("count_planes", U32)].
Definition drm_mode_get_encoder : ctype := Struct [
  ("encoder_id", U32); ("encoder_type", U32); ("crtc_id", U32); ("possible_crtcs", U32);
  ("possible_clones", U32)].
Definition drm_mode_get_connector : ctype := Struct [
  ("encoders_ptr", U64); ("modes_ptr", U64); ("props_ptr", U64); ("prop_values_ptr", U64);
  ("count_modes", U32); ("count_props", U32); ("count_encoders", U32); ("encoder_id", U32);
  ("connector_id", U32); ("connector_type", U32); ("connector_type_id", U32); ("connection", U32);
  ("mm_width", U32); ("mm_height", U32); ("subpixel", U32); ("pad", U32)].
Definition DRM_PROP_NAME_LEN : Z := 32.
Definition drm_mode_property_enum : ctype := Struct [
  ("value", U64); ("name", Array DRM_PROP_NAME_LEN Char)].
Definition drm_mode_get_property : ctype := Struct [
  ("values_ptr", U64); ("enum_blob_ptr", U64); ("prop_id", U32); ("flags", U32);
  ("name", Array DRM_PROP_NAME_LEN Char); ("count_values", U32); ("count_enum_blobs", U32)].
Definition drm_mode_connector_set_property : ctype := Struct [
  ("value", U64); ("prop_id", U32); ("connector_id", U32)].
Definition drm_mode_obj_get_properties : ctype := Struct [
  ("props_ptr", U64); ("prop_values_ptr", U64); ("count_props", U32); ("obj_id", U32); ("obj_type", U32)].
Definition drm_mode_obj_set_property : ctype := Struct [
  ("value", U64); ("prop_id", U32); ("obj_id", U32); ("obj_type", U32)].
Definition drm_mode_get_blob : ctype := Struct [
  ("blob_id", U32); ("length", U32); ("data", U64)].
Definition drm_mode_fb_cmd : ctype := Struct [
  ("fb_id", U32); ("width", U32); ("height", U32); ("pitch", U32); ("bpp", U32); ("depth", U32);
  ("handle", U32)].
Definition drm_mode_fb_cmd2 : ctype := Struct [
  ("fb_id", U32); ("width", U32); ("height", U32); ("pixel_format", U32); ("flags", U32);
  ("handles", Array 4 U32); ("pitches", Array 4 U32); ("offsets", Array 4 U32); ("modifier", Array 4 U64)].
Definition drm_mode_fb_dirty_cmd : ctype := Struct [
  ("fb_id", U32); ("flags", U32); ("color", U32); ("num_clips", U32); ("clips_ptr", U64)].
Definition drm_mode_mode_cmd : ctype := Struct [
  ("connector_id", U32); ("mode", drm_mode_modeinfo)].
Definition drm_mode_cursor : ctype := Struct [
  ("flags", U32); ("crtc_id", U32); ("x", S32); ("y", S32); ("width", U32); ("height", U32); ("handle", U32)].
Definition drm_mode_cursor2 : ctype := Struct [
  ("flags", U32); ("crtc_id", U32); ("x", S32); ("y", S32); ("width", U32); ("height", U32); ("handle", U32);
  ("hot_x", S32); ("hot_y", S32)].
Definition drm_mode_crtc_lut : ctype := Struct [
  ("crtc_id", U32); ("gamma_size", U32); ("red", U64); ("green", U64); ("blue", U64)].
Definition drm_color_ctm : ctype := Struct [
  ("matrix", Array 9 U64)].
Definition drm_color_ctm_3x4 : ctype := Struct [
  ("matrix", Array 12 U64)].
Definition drm_color_lut : ctype := Struct [
  ("red", U16); ("green", U16); ("blue", U16); ("reserved", U16)].
Definition drm_color_lut32 : ctype := Struct [
  ("red", U32); ("green", U32); ("blue", U32); ("reserved", U32)].
Definition drm_plane_size_hint : ctype := Struct [
  ("width", U16); ("height", U16)].
Definition hdr_metadata_infoframe : ctype := Struct [
  ("eotf", U8); ("metadata_type", U8); ("display_primaries", Array 3 (Struct [("x", U16); ("y", U16)]));
  ("white_point", Struct [("x", U16); ("y", U16)]); ("max_display_mastering_luminance", U16);
  ("min_display_mastering_luminance", U16); ("max_cll", U16); ("max_fall", U16)].
Definition hdr_output_metadata : ctype := Struct [
  ("metadata_type", U32); ("", Union [("hdmi_metadata_type1", hdr_metadata_infoframe)])].
Definition drm_mode_crtc_page_flip : ctype := Struct [
  ("crtc_id", U32); ("fb_id", U32); ("flags", U32); ("reserved", U32); ("user_data", U64)].
Definition drm_mode_crtc_page_flip_target : ctype := Struct [
  ("crtc_id", U32); ("fb_id", U32); ("flags", U32); ("sequence", U32); ("user_data", U64)].
Definition drm_mode_create_dumb : ctype := Struct [
  ("height", U32); ("width", U32); ("bpp", U32); ("flags", U32); ("handle", U32); ("pitch", U32);
  ("size", U64)].
Definition drm_mode_map_dumb : ctype := Struct [
  ("handle", U32); ("pad", U32); ("offset", U64)].
Definition drm_mode_destroy_dumb : ctype := Struct [
  ("handle", U32)].
Definition drm_mode_atomic : ctype := Struct [
  ("flags", U32); ("count_objs", U32); ("objs_ptr", U64); ("count_props_ptr", U64); ("props_ptr", U64);
  ("prop_values_ptr", U64); ("reserved", U64); ("user_data", U64)].
Definition drm_format_modifier_blob : ctype := Struct [
  ("version", U32); ("flags", U32); ("count_formats", U32); ("formats_offset", U32);
  ("count_modifiers", U32); ("modifiers_offset", U32)].
Definition drm_format_modifier : ctype := Struct [
  ("formats", U64); ("offset", U32); ("pad", U32); ("modifier", U64)].
Definition drm_mode_create_blob : ctype := Struct [
  ("data", U64); ("length", U32); ("blob_id", U32)].
Definition drm_mode_destroy_blob : ctype := Struct [
  ("blob_id", U32)].
Definition drm_mode_create_lease : ctype := Struct [
  ("object_ids", U64); ("object_count", U32); ("flags", U32); ("lessee_id", U32); ("fd", U32)].
Definition drm_mode_list_lessees : ctype := Struct [
  ("count_lessees", U32); ("pad", U32); ("lessees_ptr", U64)].
Definition drm_mode_get_lease : ctype := Struct [
  ("count_objects", U32); ("pad", U32); ("objects_ptr", U64)].
Definition drm_mode_revoke_lease : ctype := Struct [
  ("lessee_id", U32)].
Definition drm_mode_rect : ctype := Struct [
  ("x1", S32); ("y1", S32); ("x2", S32); ("y2", S32)].
Definition drm_mode_closefb : ctype := Struct [
  ("fb_id", U32); ("pad", U32)].
Definition drm_clip_rect : ctype := Struct [
  ("x1", U16); ("y1", U16); ("x2", U16); ("y2", U16)].
Definition drm_drawable_info : ctype := Struct [
  ("num_rects", U32); ("rects", Pointer)].
Definition drm_tex_region : ctype := Struct [
  ("next", U8); ("prev", U8); ("in_use", U8); ("padding", U8); ("age", U32)].
Definition drm_hw_lock : ctype := Struct [
  ("lock", U32); ("padding", Array 60 Char)].
Definition drm_version : ctype := Struct [
  ("version_major", S32); ("version_minor", S32); ("version_patchlevel", S32); ("name_len", SizeT);
  ("name", Pointer); ("date_len", SizeT); ("date", Pointer); ("desc_len", SizeT); ("desc", Pointer)].
Definition drm_unique : ctype := Struct [
  ("unique_len", SizeT); ("unique", Pointer)].
Definition drm_list : ctype := Struct [
  ("count", S32); ("version", Pointer)].
Definition drm_block : ctype := Struct [
  ("unused", S32)].
Definition drm_control : ctype := Struct [
  ("func", Enum); ("irq", S32)].
Definition drm_ctx_priv_map : ctype := Struct [
  ("ctx_id", U32); ("handle", Pointer)].
Definition drm_map : ctype := Struct [
  ("offset", ULong); ("size", ULong); ("type", Enum); ("flags", Enum); ("handle", Pointer); ("mtrr", S32)].
Definition drm_client : ctype := Struct [
  ("idx", S32); ("auth", S32); ("pid", ULong); ("uid", ULong); ("magic", ULong); ("iocs", ULong)].
Definition drm_stats : ctype := Struct [
  ("count", ULong); ("data", Array 15 (Struct [("value", ULong); ("type", Enum)]))].
Definition drm_lock : ctype := Struct [
  ("context", S32); ("flags", Enum)].
Definition drm_buf_desc : ctype := Struct [
  ("count", S32); ("size", S32); ("low_mark", S32); ("high_mark", S32); ("flags", Enum); ("agp_start", ULong)].
Definition drm_buf_info : ctype := Struct [
  ("count", S32); ("list", Pointer)].
Definition drm_buf_free : ctype := Struct [
  ("count", S32); ("list", Pointer)].
Definition drm_buf_pub : ctype := Struct [
  ("idx", S32); ("total", S32); ("used", S32); ("address", Pointer)].
Definition drm_buf_map : ctype := Struct [
  ("count", S32); ("virt", Pointer); ("list", Pointer)].
Definition drm_dma : ctype := Struct [
  ("context", S32); ("send_count", S32); ("send_indices", Pointer); ("send_sizes", Pointer); ("flags", Enum);
  ("request_count", S32); ("request_size", S32); ("request_indices", Pointer); ("request_sizes", Pointer);
  ("granted_count", S32)].
Definition drm_ctx : ctype := Struct [
  ("handle", U32); ("flags", Enum)].
Definition drm_ctx_res : ctype := Struct [
  ("count", S32); ("contexts", Pointer)].
Definition drm_draw : ctype := Struct [
  ("handle", U32)].
Definition drm_update_draw : ctype := Struct [
  ("handle", U32); ("type", U32); ("num", U32); ("data", U64)].
Definition drm_auth : ctype := Struct [
  ("magic", U32)].
Definition drm_irq_busid : ctype := Struct [
  ("irq", S32); ("busnum", S32); ("devnum", S32); ("funcnum", S32)].
Definition drm_wait_vblank_request : ctype := Struct [
  ("type", Enum); ("sequence", U32); ("signal", ULong)].
Definition drm_wait_vblank_reply : ctype := Struct [
  ("type", Enum); ("sequence", U32); ("tval_sec", Long); ("tval_usec", Long)].
Definition drm_wait_vblank : ctype := Union [
  ("request", drm_wait_vblank_request); ("reply", drm_wait_vblank_reply)].
Definition drm_modeset_ctl : ctype := Struct [
  ("crtc", U32); ("cmd", U32)].
Definition drm_agp_mode : ctype := Struct [
  ("mode", ULong)].
Definition drm_agp_buffer : ctype := Struct [
  ("size", ULong); ("handle", ULong); ("type", ULong); ("physical", ULong)].
Definition drm_agp_binding : ctype := Struct [
  ("handle", ULong); ("offset", ULong)].
Definition drm_agp_info : ctype := Struct [
  ("agp_version_major", S32); ("agp_version_minor", S32); ("mode", ULong); ("aperture_base", ULong);
  ("aperture_size", ULong); ("memory_allowed", ULong); ("memory_used", ULong); ("id_vendor", U16);
  ("id_device", U16)].
Definition drm_scatter_gather : ctype := Struct [
  ("size", ULong); ("handle", ULong)].
Definition drm_set_version : ctype := Struct [
  ("drm_di_major", S32); ("drm_di_minor", S32); ("drm_dd_major", S32); ("drm_dd_minor", S32)].
Definition drm_gem_close : ctype := Struct [
  ("handle", U32); ("pad", U32)].
Definition drm_gem_flink : ctype := Struct [
  ("handle", U32); ("name", U32)].
Definition drm_gem_open : ctype := Struct [
  ("name", U32); ("handle", U32); ("size", U64)].
Definition drm_gem_change_handle : ctype := Struct [
  ("handle", U32); ("new_handle", U32)].
Definition drm_get_cap : ctype := Struct [
  ("capability", U64); ("value", U64)].
Definition drm_set_client_cap : ctype := Struct [
  ("capability", U64); ("value", U64)].
Definition drm_prime_handle : ctype := Struct [
  ("handle", U32); ("flags", U32); ("fd", S32)].
Definition drm_syncobj_create : ctype := Struct [
  ("handle", U32); ("flags", U32)].
Definition drm_syncobj_destroy : ctype := Struct [
  ("handle", U32); ("pad", U32)].
Definition drm_syncobj_handle : ctype := Struct [
  ("handle", U32); ("flags", U32); ("fd", S32); ("pad", U32); ("point", U64)].
Definition drm_syncobj_transfer : ctype := Struct [
  ("src_handle", U32); ("dst_handle", U32); ("src_point", U64); ("dst_point", U64); ("flags", U32);
  ("pad", U32)].
Definition drm_syncobj_wait : ctype := Struct [
  ("handles", U64); ("timeout_nsec", S64); ("count_handles", U32); ("flags", U32); ("first_signaled", U32);
  ("pad", U32); ("deadline_nsec", U64)].
Definition drm_syncobj_timeline_wait : ctype := Struct [
  ("handles", U64); ("points", U64); ("timeout_nsec", S64); ("count_handles", U32); ("flags", U32);
  ("first_signaled", U32); ("pad", U32); ("deadline_nsec", U64)].
Definition drm_syncobj_eventfd : ctype := Struct [
  ("handle", U32); ("flags", U32); ("point", U64); ("fd", S32); ("pad", U32)].
Definition drm_syncobj_array : ctype := Struct [
  ("handles", U64); ("count_handles", U32); ("pad", U32)].
Definition drm_syncobj_timeline_array : ctype := Struct [
  ("handles", U64); ("points", U64); ("count_handles", U32); ("flags", U32)].
Definition drm_crtc_get_sequence : ctype := Struct [
  ("crtc_id", U32); ("active", U32); ("sequence", U64); ("sequence_ns", S64)].
Definition drm_crtc_queue_sequence : ctype := Struct [
  ("crtc_id", U32); ("flags", U32); ("sequence", U64); ("user_data", U64)].
Definition drm_set_client_name : ctype := Struct [
  ("name_len", U64); ("name", U64)].
Definition drm_event : ctype := Struct [
  ("type", U32); ("length", U32)].
Definition drm_event_vblank : ctype := Struct [
  ("base", drm_event); ("user_data", U64); ("tv_sec", U32); ("tv_usec", U32); ("sequence", U32);
  ("crtc_id", U32)].
Definition drm_event_crtc_sequence : ctype := Struct [
  ("base", drm_event); ("user_data", U64); ("time_ns", S64); ("sequence", U64)].

Definition drm_structs : list (string * ctype) := [
  ("drm_mode_modeinfo", drm_mode_modeinfo); ("drm_mode_card_res", drm_mode_card_res); ("drm_mode_crtc", drm_mode_crtc);
  ("drm_mode_set_plane", drm_mode_set_plane); ("drm_mode_get_plane", drm_mode_get_plane); ("drm_mode_get_plane_res", drm_mode_get_plane_res);
  ("drm_mode_get_encoder", drm_mode_get_encoder); ("drm_mode_get_connector", drm_mode_get_connector); ("drm_mode_property_enum", drm_mode_property_enum);
  ("drm_mode_get_property", drm_mode_get_property); ("drm_mode_connector_set_property", drm_mode_connector_set_property); ("drm_mode_obj_get_properties", drm_mode_obj_get_properties);
  ("drm_mode_obj_set_property", drm_mode_obj_set_property); ("drm_mode_get_blob", drm_mode_get_blob); ("drm_mode_fb_cmd", drm_mode_fb_cmd);
  ("drm_mode_fb_cmd2", drm_mode_fb_cmd2); ("drm_mode_fb_dirty_cmd", drm_mode_fb_dirty_cmd); ("drm_mode_mode_cmd", drm_mode_mode_cmd);
  ("drm_mode_cursor", drm_mode_cursor); ("drm_mode_cursor2", drm_mode_cursor2); ("drm_mode_crtc_lut", drm_mode_crtc_lut);
  ("drm_color_ctm", drm_color_ctm); ("drm_color_ctm_3x4", drm_color_ctm_3x4); ("drm_color_lut", drm_color_lut);
  ("drm_color_lut32", drm_color_lut32); ("drm_plane_size_hint", drm_plane_size_hint); ("hdr_metadata_infoframe", hdr_metadata_infoframe);
  ("hdr_output_metadata", hdr_output_metadata); ("drm_mode_crtc_page_flip", drm_mode_crtc_page_flip); ("drm_mode_crtc_page_flip_target", drm_mode_crtc_page_flip_target);
  ("drm_mode_create_dumb", drm_mode_create_dumb); ("drm_mode_map_dumb", drm_mode_map_dumb); ("drm_mode_destroy_dumb", drm_mode_destroy_dumb);
  ("drm_mode_atomic", drm_mode_atomic); ("drm_format_modifier_blob", drm_format_modifier_blob); ("drm_format_modifier", drm_format_modifier);
  ("drm_mode_create_blob", drm_mode_create_blob); ("drm_mode_destroy_blob", drm_mode_destroy_blob); ("drm_mode_create_lease", drm_mode_create_lease);
  ("drm_mode_list_lessees", drm_mode_list_lessees); ("drm_mode_get_lease", drm_mode_get_lease); ("drm_mode_revoke_lease", drm_mode_revoke_lease);
  ("drm_mode_rect", drm_mode_rect); ("drm_mode_closefb", drm_mode_closefb); ("drm_clip_rect", drm_clip_rect);
  ("drm_drawable_info", drm_drawable_info); ("drm_tex_region", drm_tex_region); ("drm_hw_lock", drm_hw_lock);
  ("drm_version", drm_version); ("drm_unique", drm_unique); ("drm_list", drm_list);
  ("drm_block", drm_block); ("drm_control", drm_control); ("drm_ctx_priv_map", drm_ctx_priv_map);
  ("drm_map", drm_map); ("drm_client", drm_client); ("drm_stats", drm_stats);
  ("drm_lock", drm_lock); ("drm_buf_desc", drm_buf_desc); ("drm_buf_info", drm_buf_info);
  ("drm_buf_free", drm_buf_free); ("drm_buf_pub", drm_buf_pub); ("drm_buf_map", drm_buf_map);
  ("drm_dma", drm_dma); ("drm_ctx", drm_ctx); ("drm_ctx_res", drm_ctx_res);
  ("drm_draw", drm_draw); ("drm_update_draw", drm_update_draw); ("drm_auth", drm_auth);
  ("drm_irq_busid", drm_irq_busid); ("drm_wait_vblank_request", drm_wait_vblank_request); ("drm_wait_vblank_reply", drm_wait_vblank_reply);
  ("drm_wait_vblank", drm_wait_vblank); ("drm_modeset_ctl", drm_modeset_ctl); ("drm_agp_mode", drm_agp_mode);
  ("drm_agp_buffer", drm_agp_buffer); ("drm_agp_binding", drm_agp_binding); ("drm_agp_info", drm_agp_info);
  ("drm_scatter_gather", drm_scatter_gather); ("drm_set_version", drm_set_version); ("drm_gem_close", drm_gem_close);
  ("drm_gem_flink", drm_gem_flink); ("drm_gem_open", drm_gem_open); ("drm_gem_change_handle", drm_gem_change_handle);
  ("drm_get_cap", drm_get_cap); ("drm_set_client_cap", drm_set_client_cap); ("drm_prime_handle", drm_prime_handle);
  ("drm_syncobj_create", drm_syncobj_create); ("drm_syncobj_destroy", drm_syncobj_destroy); ("drm_syncobj_handle", drm_syncobj_handle);
  ("drm_syncobj_transfer", drm_syncobj_transfer); ("drm_syncobj_wait", drm_syncobj_wait); ("drm_syncobj_timeline_wait", drm_syncobj_timeline_wait);
  ("drm_syncobj_eventfd", drm_syncobj_eventfd); ("drm_syncobj_array", drm_syncobj_array); ("drm_syncobj_timeline_array", drm_syncobj_timeline_array);
  ("drm_crtc_get_sequence", drm_crtc_get_sequence); ("drm_crtc_queue_sequence", drm_crtc_queue_sequence); ("drm_set_client_name", drm_set_client_name);
  ("drm_event", drm_event); ("drm_event_vblank", drm_event_vblank); ("drm_event_crtc_sequence", drm_event_crtc_sequence)].

(** ** [drm.h]: requests *)

Definition DRM_IOCTL_BASE : Z := 100.
Definition DRM_IO (name : string) (nr : Z) : ioctl := Ioctl name IO_none DRM_IOCTL_BASE nr None.
Definition DRM_IOR (name : string) (nr : Z) (type : ctype) : ioctl := Ioctl name IO_read DRM_IOCTL_BASE nr (Some type).
Definition DRM_IOW (name : string) (nr : Z) (type : ctype) : ioctl := Ioctl name IO_write DRM_IOCTL_BASE nr (Some type).
Definition DRM_IOWR (name : string) (nr : Z) (type : ctype) : ioctl := Ioctl name IO_both DRM_IOCTL_BASE nr (Some type).
(** Drivers have the requests between these. *)
Definition DRM_COMMAND_BASE : Z := 0x40.
Definition DRM_COMMAND_END : Z := 0xA0.

Definition drm_requests_1 : list ioctl := [
  DRM_IOWR "DRM_IOCTL_VERSION" 0x00 drm_version;
  DRM_IOWR "DRM_IOCTL_GET_UNIQUE" 0x01 drm_unique;
  DRM_IOR "DRM_IOCTL_GET_MAGIC" 0x02 drm_auth;
  DRM_IOWR "DRM_IOCTL_IRQ_BUSID" 0x03 drm_irq_busid;
  DRM_IOWR "DRM_IOCTL_GET_MAP" 0x04 drm_map;
  DRM_IOWR "DRM_IOCTL_GET_CLIENT" 0x05 drm_client;
  DRM_IOR "DRM_IOCTL_GET_STATS" 0x06 drm_stats;
  DRM_IOWR "DRM_IOCTL_SET_VERSION" 0x07 drm_set_version;
  DRM_IOW "DRM_IOCTL_MODESET_CTL" 0x08 drm_modeset_ctl].
Definition drm_requests_2 : list ioctl := [
  DRM_IOW "DRM_IOCTL_GEM_CLOSE" 0x09 drm_gem_close;
  DRM_IOWR "DRM_IOCTL_GEM_FLINK" 0x0a drm_gem_flink;
  DRM_IOWR "DRM_IOCTL_GEM_OPEN" 0x0b drm_gem_open;
  DRM_IOWR "DRM_IOCTL_GET_CAP" 0x0c drm_get_cap;
  DRM_IOW "DRM_IOCTL_SET_CLIENT_CAP" 0x0d drm_set_client_cap;
  DRM_IOW "DRM_IOCTL_SET_UNIQUE" 0x10 drm_unique;
  DRM_IOW "DRM_IOCTL_AUTH_MAGIC" 0x11 drm_auth;
  DRM_IOWR "DRM_IOCTL_BLOCK" 0x12 drm_block;
  DRM_IOWR "DRM_IOCTL_UNBLOCK" 0x13 drm_block;
  DRM_IOW "DRM_IOCTL_CONTROL" 0x14 drm_control;
  DRM_IOWR "DRM_IOCTL_ADD_MAP" 0x15 drm_map;
  DRM_IOWR "DRM_IOCTL_ADD_BUFS" 0x16 drm_buf_desc;
  DRM_IOW "DRM_IOCTL_MARK_BUFS" 0x17 drm_buf_desc;
  DRM_IOWR "DRM_IOCTL_INFO_BUFS" 0x18 drm_buf_info;
  DRM_IOWR "DRM_IOCTL_MAP_BUFS" 0x19 drm_buf_map;
  DRM_IOW "DRM_IOCTL_FREE_BUFS" 0x1a drm_buf_free;
  DRM_IOW "DRM_IOCTL_RM_MAP" 0x1b drm_map;
  DRM_IOW "DRM_IOCTL_SET_SAREA_CTX" 0x1c drm_ctx_priv_map;
  DRM_IOWR "DRM_IOCTL_GET_SAREA_CTX" 0x1d drm_ctx_priv_map;
  DRM_IO "DRM_IOCTL_SET_MASTER" 0x1e;
  DRM_IO "DRM_IOCTL_DROP_MASTER" 0x1f;
  DRM_IOWR "DRM_IOCTL_ADD_CTX" 0x20 drm_ctx;
  DRM_IOWR "DRM_IOCTL_RM_CTX" 0x21 drm_ctx;
  DRM_IOW "DRM_IOCTL_MOD_CTX" 0x22 drm_ctx;
  DRM_IOWR "DRM_IOCTL_GET_CTX" 0x23 drm_ctx;
  DRM_IOW "DRM_IOCTL_SWITCH_CTX" 0x24 drm_ctx;
  DRM_IOW "DRM_IOCTL_NEW_CTX" 0x25 drm_ctx;
  DRM_IOWR "DRM_IOCTL_RES_CTX" 0x26 drm_ctx_res;
  DRM_IOWR "DRM_IOCTL_ADD_DRAW" 0x27 drm_draw;
  DRM_IOWR "DRM_IOCTL_RM_DRAW" 0x28 drm_draw;
  DRM_IOWR "DRM_IOCTL_DMA" 0x29 drm_dma;
  DRM_IOW "DRM_IOCTL_LOCK" 0x2a drm_lock;
  DRM_IOW "DRM_IOCTL_UNLOCK" 0x2b drm_lock;
  DRM_IOW "DRM_IOCTL_FINISH" 0x2c drm_lock].
Definition drm_requests_3 : list ioctl := [
  DRM_IOWR "DRM_IOCTL_PRIME_HANDLE_TO_FD" 0x2d drm_prime_handle].
Definition drm_requests_4 : list ioctl := [
  DRM_IOWR "DRM_IOCTL_PRIME_FD_TO_HANDLE" 0x2e drm_prime_handle;
  DRM_IO "DRM_IOCTL_AGP_ACQUIRE" 0x30;
  DRM_IO "DRM_IOCTL_AGP_RELEASE" 0x31;
  DRM_IOW "DRM_IOCTL_AGP_ENABLE" 0x32 drm_agp_mode;
  DRM_IOR "DRM_IOCTL_AGP_INFO" 0x33 drm_agp_info;
  DRM_IOWR "DRM_IOCTL_AGP_ALLOC" 0x34 drm_agp_buffer;
  DRM_IOW "DRM_IOCTL_AGP_FREE" 0x35 drm_agp_buffer;
  DRM_IOW "DRM_IOCTL_AGP_BIND" 0x36 drm_agp_binding;
  DRM_IOW "DRM_IOCTL_AGP_UNBIND" 0x37 drm_agp_binding;
  DRM_IOWR "DRM_IOCTL_SG_ALLOC" 0x38 drm_scatter_gather;
  DRM_IOW "DRM_IOCTL_SG_FREE" 0x39 drm_scatter_gather;
  DRM_IOWR "DRM_IOCTL_WAIT_VBLANK" 0x3a drm_wait_vblank;
  DRM_IOWR "DRM_IOCTL_CRTC_GET_SEQUENCE" 0x3b drm_crtc_get_sequence;
  DRM_IOWR "DRM_IOCTL_CRTC_QUEUE_SEQUENCE" 0x3c drm_crtc_queue_sequence;
  DRM_IOW "DRM_IOCTL_UPDATE_DRAW" 0x3f drm_update_draw;
  DRM_IOWR "DRM_IOCTL_MODE_GETRESOURCES" 0xA0 drm_mode_card_res;
  DRM_IOWR "DRM_IOCTL_MODE_GETCRTC" 0xA1 drm_mode_crtc;
  DRM_IOWR "DRM_IOCTL_MODE_SETCRTC" 0xA2 drm_mode_crtc;
  DRM_IOWR "DRM_IOCTL_MODE_CURSOR" 0xA3 drm_mode_cursor;
  DRM_IOWR "DRM_IOCTL_MODE_GETGAMMA" 0xA4 drm_mode_crtc_lut;
  DRM_IOWR "DRM_IOCTL_MODE_SETGAMMA" 0xA5 drm_mode_crtc_lut;
  DRM_IOWR "DRM_IOCTL_MODE_GETENCODER" 0xA6 drm_mode_get_encoder;
  DRM_IOWR "DRM_IOCTL_MODE_GETCONNECTOR" 0xA7 drm_mode_get_connector;
  DRM_IOWR "DRM_IOCTL_MODE_ATTACHMODE" 0xA8 drm_mode_mode_cmd;
  DRM_IOWR "DRM_IOCTL_MODE_DETACHMODE" 0xA9 drm_mode_mode_cmd;
  DRM_IOWR "DRM_IOCTL_MODE_GETPROPERTY" 0xAA drm_mode_get_property;
  DRM_IOWR "DRM_IOCTL_MODE_SETPROPERTY" 0xAB drm_mode_connector_set_property;
  DRM_IOWR "DRM_IOCTL_MODE_GETPROPBLOB" 0xAC drm_mode_get_blob;
  DRM_IOWR "DRM_IOCTL_MODE_GETFB" 0xAD drm_mode_fb_cmd;
  DRM_IOWR "DRM_IOCTL_MODE_ADDFB" 0xAE drm_mode_fb_cmd].
Definition drm_requests_5 : list ioctl := [
  DRM_IOWR "DRM_IOCTL_MODE_RMFB" 0xAF U32;
  DRM_IOWR "DRM_IOCTL_MODE_PAGE_FLIP" 0xB0 drm_mode_crtc_page_flip;
  DRM_IOWR "DRM_IOCTL_MODE_DIRTYFB" 0xB1 drm_mode_fb_dirty_cmd].
Definition drm_requests_6 : list ioctl := [
  DRM_IOWR "DRM_IOCTL_MODE_CREATE_DUMB" 0xB2 drm_mode_create_dumb;
  DRM_IOWR "DRM_IOCTL_MODE_MAP_DUMB" 0xB3 drm_mode_map_dumb;
  DRM_IOWR "DRM_IOCTL_MODE_DESTROY_DUMB" 0xB4 drm_mode_destroy_dumb;
  DRM_IOWR "DRM_IOCTL_MODE_GETPLANERESOURCES" 0xB5 drm_mode_get_plane_res;
  DRM_IOWR "DRM_IOCTL_MODE_GETPLANE" 0xB6 drm_mode_get_plane;
  DRM_IOWR "DRM_IOCTL_MODE_SETPLANE" 0xB7 drm_mode_set_plane;
  DRM_IOWR "DRM_IOCTL_MODE_ADDFB2" 0xB8 drm_mode_fb_cmd2;
  DRM_IOWR "DRM_IOCTL_MODE_OBJ_GETPROPERTIES" 0xB9 drm_mode_obj_get_properties;
  DRM_IOWR "DRM_IOCTL_MODE_OBJ_SETPROPERTY" 0xBA drm_mode_obj_set_property;
  DRM_IOWR "DRM_IOCTL_MODE_CURSOR2" 0xBB drm_mode_cursor2;
  DRM_IOWR "DRM_IOCTL_MODE_ATOMIC" 0xBC drm_mode_atomic;
  DRM_IOWR "DRM_IOCTL_MODE_CREATEPROPBLOB" 0xBD drm_mode_create_blob;
  DRM_IOWR "DRM_IOCTL_MODE_DESTROYPROPBLOB" 0xBE drm_mode_destroy_blob;
  DRM_IOWR "DRM_IOCTL_SYNCOBJ_CREATE" 0xBF drm_syncobj_create;
  DRM_IOWR "DRM_IOCTL_SYNCOBJ_DESTROY" 0xC0 drm_syncobj_destroy;
  DRM_IOWR "DRM_IOCTL_SYNCOBJ_HANDLE_TO_FD" 0xC1 drm_syncobj_handle;
  DRM_IOWR "DRM_IOCTL_SYNCOBJ_FD_TO_HANDLE" 0xC2 drm_syncobj_handle;
  DRM_IOWR "DRM_IOCTL_SYNCOBJ_WAIT" 0xC3 drm_syncobj_wait;
  DRM_IOWR "DRM_IOCTL_SYNCOBJ_RESET" 0xC4 drm_syncobj_array;
  DRM_IOWR "DRM_IOCTL_SYNCOBJ_SIGNAL" 0xC5 drm_syncobj_array;
  DRM_IOWR "DRM_IOCTL_MODE_CREATE_LEASE" 0xC6 drm_mode_create_lease;
  DRM_IOWR "DRM_IOCTL_MODE_LIST_LESSEES" 0xC7 drm_mode_list_lessees;
  DRM_IOWR "DRM_IOCTL_MODE_GET_LEASE" 0xC8 drm_mode_get_lease;
  DRM_IOWR "DRM_IOCTL_MODE_REVOKE_LEASE" 0xC9 drm_mode_revoke_lease;
  DRM_IOWR "DRM_IOCTL_SYNCOBJ_TIMELINE_WAIT" 0xCA drm_syncobj_timeline_wait;
  DRM_IOWR "DRM_IOCTL_SYNCOBJ_QUERY" 0xCB drm_syncobj_timeline_array;
  DRM_IOWR "DRM_IOCTL_SYNCOBJ_TRANSFER" 0xCC drm_syncobj_transfer;
  DRM_IOWR "DRM_IOCTL_SYNCOBJ_TIMELINE_SIGNAL" 0xCD drm_syncobj_timeline_array].
Definition drm_requests_7 : list ioctl := [
  DRM_IOWR "DRM_IOCTL_MODE_GETFB2" 0xCE drm_mode_fb_cmd2;
  DRM_IOWR "DRM_IOCTL_SYNCOBJ_EVENTFD" 0xCF drm_syncobj_eventfd].
Definition drm_requests_8 : list ioctl := [
  DRM_IOWR "DRM_IOCTL_MODE_CLOSEFB" 0xD0 drm_mode_closefb].
Definition drm_requests_9 : list ioctl := [
  DRM_IOWR "DRM_IOCTL_SET_CLIENT_NAME" 0xD1 drm_set_client_name].
Definition drm_requests_10 : list ioctl := [
  DRM_IOWR "DRM_IOCTL_GEM_CHANGE_HANDLE" 0xD2 drm_gem_change_handle].
Definition drm_requests : list ioctl := concat [drm_requests_1; drm_requests_2; drm_requests_3; drm_requests_4;
  drm_requests_5; drm_requests_6; drm_requests_7; drm_requests_8; drm_requests_9; drm_requests_10].

(** ** [drm_mode.h]: flags *)

Definition DRM_MODE_TYPE_BUILTIN : Z := 1 ≪ 0.
Definition DRM_MODE_TYPE_CLOCK_C : Z := (1 ≪ 1) .| DRM_MODE_TYPE_BUILTIN.
Definition DRM_MODE_TYPE_CRTC_C : Z := (1 ≪ 2) .| DRM_MODE_TYPE_BUILTIN.
Definition DRM_MODE_TYPE_PREFERRED : Z := 1 ≪ 3.
Definition DRM_MODE_TYPE_DEFAULT : Z := 1 ≪ 4.
Definition DRM_MODE_TYPE_USERDEF : Z := 1 ≪ 5.
Definition DRM_MODE_TYPE_DRIVER : Z := 1 ≪ 6.
Definition DRM_MODE_TYPE_ALL : Z := DRM_MODE_TYPE_PREFERRED .| DRM_MODE_TYPE_USERDEF .| DRM_MODE_TYPE_DRIVER.
Definition DRM_MODE_FLAG_PHSYNC : Z := 1 ≪ 0.
Definition DRM_MODE_FLAG_NHSYNC : Z := 1 ≪ 1.
Definition DRM_MODE_FLAG_PVSYNC : Z := 1 ≪ 2.
Definition DRM_MODE_FLAG_NVSYNC : Z := 1 ≪ 3.
Definition DRM_MODE_FLAG_INTERLACE : Z := 1 ≪ 4.
Definition DRM_MODE_FLAG_DBLSCAN : Z := 1 ≪ 5.
Definition DRM_MODE_FLAG_CSYNC : Z := 1 ≪ 6.
Definition DRM_MODE_FLAG_PCSYNC : Z := 1 ≪ 7.
Definition DRM_MODE_FLAG_NCSYNC : Z := 1 ≪ 8.
Definition DRM_MODE_FLAG_HSKEW : Z := 1 ≪ 9.
Definition DRM_MODE_FLAG_BCAST : Z := 1 ≪ 10.
Definition DRM_MODE_FLAG_PIXMUX : Z := 1 ≪ 11.
Definition DRM_MODE_FLAG_DBLCLK : Z := 1 ≪ 12.
Definition DRM_MODE_FLAG_CLKDIV2 : Z := 1 ≪ 13.
Definition DRM_MODE_FLAG_3D_MASK : Z := 0x1f ≪ 14.
Definition DRM_MODE_FLAG_3D_NONE : Z := 0 ≪ 14.
Definition DRM_MODE_FLAG_3D_FRAME_PACKING : Z := 1 ≪ 14.
Definition DRM_MODE_FLAG_3D_FIELD_ALTERNATIVE : Z := 2 ≪ 14.
Definition DRM_MODE_FLAG_3D_LINE_ALTERNATIVE : Z := 3 ≪ 14.
Definition DRM_MODE_FLAG_3D_SIDE_BY_SIDE_FULL : Z := 4 ≪ 14.
Definition DRM_MODE_FLAG_3D_L_DEPTH : Z := 5 ≪ 14.
Definition DRM_MODE_FLAG_3D_L_DEPTH_GFX_GFX_DEPTH : Z := 6 ≪ 14.
Definition DRM_MODE_FLAG_3D_TOP_AND_BOTTOM : Z := 7 ≪ 14.
Definition DRM_MODE_FLAG_3D_SIDE_BY_SIDE_HALF : Z := 8 ≪ 14.
Definition DRM_MODE_PICTURE_ASPECT_NONE : Z := 0.
Definition DRM_MODE_PICTURE_ASPECT_4_3 : Z := 1.
Definition DRM_MODE_PICTURE_ASPECT_16_9 : Z := 2.
Definition DRM_MODE_PICTURE_ASPECT_64_27 : Z := 3.
Definition DRM_MODE_PICTURE_ASPECT_256_135 : Z := 4.
Definition DRM_MODE_FLAG_PIC_AR_MASK : Z := 0x0F ≪ 19.
Definition DRM_MODE_FLAG_PIC_AR_NONE : Z := DRM_MODE_PICTURE_ASPECT_NONE ≪ 19.
Definition DRM_MODE_FLAG_PIC_AR_4_3 : Z := DRM_MODE_PICTURE_ASPECT_4_3 ≪ 19.
Definition DRM_MODE_FLAG_PIC_AR_16_9 : Z := DRM_MODE_PICTURE_ASPECT_16_9 ≪ 19.
Definition DRM_MODE_FLAG_PIC_AR_64_27 : Z := DRM_MODE_PICTURE_ASPECT_64_27 ≪ 19.
Definition DRM_MODE_FLAG_PIC_AR_256_135 : Z := DRM_MODE_PICTURE_ASPECT_256_135 ≪ 19.
Definition DRM_MODE_FLAG_ALL : Z := DRM_MODE_FLAG_PHSYNC .| DRM_MODE_FLAG_NHSYNC .| DRM_MODE_FLAG_PVSYNC .|
  DRM_MODE_FLAG_NVSYNC .| DRM_MODE_FLAG_INTERLACE .| DRM_MODE_FLAG_DBLSCAN .| DRM_MODE_FLAG_CSYNC .|
  DRM_MODE_FLAG_PCSYNC .| DRM_MODE_FLAG_NCSYNC .| DRM_MODE_FLAG_HSKEW .| DRM_MODE_FLAG_DBLCLK .|
  DRM_MODE_FLAG_CLKDIV2 .| DRM_MODE_FLAG_3D_MASK.
Definition DRM_MODE_ROTATE_0 : Z := 1 ≪ 0.
Definition DRM_MODE_ROTATE_90 : Z := 1 ≪ 1.
Definition DRM_MODE_ROTATE_180 : Z := 1 ≪ 2.
Definition DRM_MODE_ROTATE_270 : Z := 1 ≪ 3.
Definition DRM_MODE_ROTATE_MASK : Z := DRM_MODE_ROTATE_0 .| DRM_MODE_ROTATE_90 .| DRM_MODE_ROTATE_180 .|
  DRM_MODE_ROTATE_270.
Definition DRM_MODE_REFLECT_X : Z := 1 ≪ 4.
Definition DRM_MODE_REFLECT_Y : Z := 1 ≪ 5.
Definition DRM_MODE_REFLECT_MASK : Z := DRM_MODE_REFLECT_X .| DRM_MODE_REFLECT_Y.
Definition DRM_MODE_PROP_PENDING : Z := 1 ≪ 0.
Definition DRM_MODE_PROP_RANGE : Z := 1 ≪ 1.
Definition DRM_MODE_PROP_IMMUTABLE : Z := 1 ≪ 2.
Definition DRM_MODE_PROP_ENUM : Z := 1 ≪ 3.
Definition DRM_MODE_PROP_BLOB : Z := 1 ≪ 4.
Definition DRM_MODE_PROP_BITMASK : Z := 1 ≪ 5.
Definition DRM_MODE_PROP_LEGACY_TYPE : Z := DRM_MODE_PROP_RANGE .| DRM_MODE_PROP_ENUM .| DRM_MODE_PROP_BLOB .|
  DRM_MODE_PROP_BITMASK.
Definition DRM_MODE_FB_DIRTY_ANNOTATE_COPY : Z := 0x01.
Definition DRM_MODE_FB_DIRTY_ANNOTATE_FILL : Z := 0x02.
Definition DRM_MODE_FB_DIRTY_FLAGS : Z := 0x03.
Definition DRM_MODE_CURSOR_BO : Z := 0x01.
Definition DRM_MODE_CURSOR_MOVE : Z := 0x02.
Definition DRM_MODE_CURSOR_FLAGS : Z := 0x03.
Definition DRM_MODE_PAGE_FLIP_EVENT : Z := 0x01.
Definition DRM_MODE_PAGE_FLIP_ASYNC : Z := 0x02.
Definition DRM_MODE_PAGE_FLIP_TARGET_ABSOLUTE : Z := 0x4.
Definition DRM_MODE_PAGE_FLIP_TARGET_RELATIVE : Z := 0x8.
Definition DRM_MODE_PAGE_FLIP_TARGET : Z := DRM_MODE_PAGE_FLIP_TARGET_ABSOLUTE .|
  DRM_MODE_PAGE_FLIP_TARGET_RELATIVE.
Definition DRM_MODE_PAGE_FLIP_FLAGS : Z := DRM_MODE_PAGE_FLIP_EVENT .| DRM_MODE_PAGE_FLIP_ASYNC .|
  DRM_MODE_PAGE_FLIP_TARGET.
Definition DRM_MODE_ATOMIC_TEST_ONLY : Z := 0x0100.
Definition DRM_MODE_ATOMIC_NONBLOCK : Z := 0x0200.
Definition DRM_MODE_ATOMIC_ALLOW_MODESET : Z := 0x0400.
Definition DRM_MODE_ATOMIC_FLAGS : Z := DRM_MODE_PAGE_FLIP_EVENT .| DRM_MODE_PAGE_FLIP_ASYNC .|
  DRM_MODE_ATOMIC_TEST_ONLY .| DRM_MODE_ATOMIC_NONBLOCK .| DRM_MODE_ATOMIC_ALLOW_MODESET.

(** ** [drm.h]: events *)

Definition DRM_EVENT_VBLANK : Z := 0x01.
Definition DRM_EVENT_FLIP_COMPLETE : Z := 0x02.
Definition DRM_EVENT_CRTC_SEQUENCE : Z := 0x03.

(** A mask with the flags that it is made of. *)
Definition drm_masks : list (Z * list Z) := [
  (DRM_MODE_TYPE_ALL, [DRM_MODE_TYPE_PREFERRED; DRM_MODE_TYPE_USERDEF; DRM_MODE_TYPE_DRIVER]);
  (DRM_MODE_FLAG_ALL, [DRM_MODE_FLAG_PHSYNC; DRM_MODE_FLAG_NHSYNC; DRM_MODE_FLAG_PVSYNC; DRM_MODE_FLAG_NVSYNC;
    DRM_MODE_FLAG_INTERLACE; DRM_MODE_FLAG_DBLSCAN; DRM_MODE_FLAG_CSYNC; DRM_MODE_FLAG_PCSYNC; DRM_MODE_FLAG_NCSYNC;
    DRM_MODE_FLAG_HSKEW; DRM_MODE_FLAG_DBLCLK; DRM_MODE_FLAG_CLKDIV2; DRM_MODE_FLAG_3D_MASK]);
  (DRM_MODE_ROTATE_MASK .| DRM_MODE_REFLECT_MASK, [DRM_MODE_ROTATE_0; DRM_MODE_ROTATE_90; DRM_MODE_ROTATE_180;
    DRM_MODE_ROTATE_270; DRM_MODE_REFLECT_X; DRM_MODE_REFLECT_Y]);
  (DRM_MODE_PROP_LEGACY_TYPE, [DRM_MODE_PROP_RANGE; DRM_MODE_PROP_ENUM; DRM_MODE_PROP_BLOB; DRM_MODE_PROP_BITMASK]);
  (DRM_MODE_FB_DIRTY_FLAGS, [DRM_MODE_FB_DIRTY_ANNOTATE_COPY; DRM_MODE_FB_DIRTY_ANNOTATE_FILL]);
  (DRM_MODE_CURSOR_FLAGS, [DRM_MODE_CURSOR_BO; DRM_MODE_CURSOR_MOVE]);
  (DRM_MODE_PAGE_FLIP_FLAGS, [DRM_MODE_PAGE_FLIP_EVENT; DRM_MODE_PAGE_FLIP_ASYNC; DRM_MODE_PAGE_FLIP_TARGET_ABSOLUTE;
    DRM_MODE_PAGE_FLIP_TARGET_RELATIVE]);
  (DRM_MODE_ATOMIC_FLAGS, [DRM_MODE_PAGE_FLIP_EVENT; DRM_MODE_PAGE_FLIP_ASYNC; DRM_MODE_ATOMIC_TEST_ONLY;
    DRM_MODE_ATOMIC_NONBLOCK; DRM_MODE_ATOMIC_ALLOW_MODESET])].

(** The fields of a mode's flags that hold a number. *)
Definition layouts_3d : list Z := [DRM_MODE_FLAG_3D_NONE; DRM_MODE_FLAG_3D_FRAME_PACKING;
  DRM_MODE_FLAG_3D_FIELD_ALTERNATIVE; DRM_MODE_FLAG_3D_LINE_ALTERNATIVE; DRM_MODE_FLAG_3D_SIDE_BY_SIDE_FULL;
  DRM_MODE_FLAG_3D_L_DEPTH; DRM_MODE_FLAG_3D_L_DEPTH_GFX_GFX_DEPTH; DRM_MODE_FLAG_3D_TOP_AND_BOTTOM;
  DRM_MODE_FLAG_3D_SIDE_BY_SIDE_HALF].
Definition aspect_ratios : list Z := [DRM_MODE_FLAG_PIC_AR_NONE; DRM_MODE_FLAG_PIC_AR_4_3; DRM_MODE_FLAG_PIC_AR_16_9;
  DRM_MODE_FLAG_PIC_AR_64_27; DRM_MODE_FLAG_PIC_AR_256_135].

Lemma drm_masks_ok : forallb (fun '(m, l) => (m =? all_of l) && apart_flags l) drm_masks = true.
Proof. vm_compute. done. Qed.

(** A mode's flags can be taken apart again: [x] are bits of no other field. *)
Lemma mode_flags_decode x y z : Z.land x (DRM_MODE_FLAG_3D_MASK .| DRM_MODE_FLAG_PIC_AR_MASK) = 0 ->
  y ∈ layouts_3d -> z ∈ aspect_ratios ->
  Z.land (x .| y .| z) DRM_MODE_FLAG_3D_MASK = y /\ Z.land (x .| y .| z) DRM_MODE_FLAG_PIC_AR_MASK = z.
Proof.
  intros Hx Hy Hz. rewrite Z.land_lor_distr_r in Hx. apply Z.lor_eq_0_iff in Hx as [Hx3 Hxa].
  assert (Z.land y DRM_MODE_FLAG_3D_MASK = y /\ Z.land y DRM_MODE_FLAG_PIC_AR_MASK = 0) as [Hy3 Hya].
  { revert y Hy. apply Forall_forall. repeat constructor. }
  assert (Z.land z DRM_MODE_FLAG_3D_MASK = 0 /\ Z.land z DRM_MODE_FLAG_PIC_AR_MASK = z) as [Hz3 Hza].
  { revert z Hz. apply Forall_forall. repeat constructor. }
  rewrite !Z.land_lor_distr_l, Hx3, Hxa, Hy3, Hya, Hz3, Hza, !Z.lor_0_l, Z.lor_0_r. done.
Qed.
