(* ===== verification/KernelDisplay.v ===== *)
(** * The display driver's structures

    [compat/kernel-headers/include/display/drm/sde_drm.h] (planes, scalers, write-back, events) and
    [msm_drm_pp.h] (post-processing: what a colour feature's property blob holds). *)

From S2P Require Import Prelude KernelAbi KernelDrm.

(** ** [sde_drm.h] *)

Definition SDE_MAX_PLANES : Z := 4.
Definition sde_drm_pix_ext_v1 : ctype := Struct [
  ("num_ext_pxls_lr", Array SDE_MAX_PLANES S32); ("num_ext_pxls_tb", Array SDE_MAX_PLANES S32);
  ("left_ftch", Array SDE_MAX_PLANES S32); ("right_ftch", Array SDE_MAX_PLANES S32);
  ("top_ftch", Array SDE_MAX_PLANES S32); ("btm_ftch", Array SDE_MAX_PLANES S32);
  ("left_rpt", Array SDE_MAX_PLANES S32); ("right_rpt", Array SDE_MAX_PLANES S32);
  ("top_rpt", Array SDE_MAX_PLANES S32); ("btm_rpt", Array SDE_MAX_PLANES S32)].
Definition sde_drm_scaler_v1 : ctype := Struct [
  ("pe", sde_drm_pix_ext_v1); ("init_phase_x", Array SDE_MAX_PLANES S32);
  ("phase_step_x", Array SDE_MAX_PLANES S32); ("init_phase_y", Array SDE_MAX_PLANES S32);
  ("phase_step_y", Array SDE_MAX_PLANES S32); ("horz_filter", Array SDE_MAX_PLANES U32);
  ("vert_filter", Array SDE_MAX_PLANES U32)].
Definition SDE_MAX_DE_CURVES : Z := 3.
Definition sde_drm_de_v1 : ctype := Struct [
  ("enable", U32); ("sharpen_level1", S16); ("sharpen_level2", S16); ("clip", U16); ("limit", U16);
  ("thr_quiet", U16); ("thr_dieout", U16); ("thr_low", U16); ("thr_high", U16); ("prec_shift", U16);
  ("adjust_a", Array SDE_MAX_DE_CURVES S16); ("adjust_b", Array SDE_MAX_DE_CURVES S16);
  ("adjust_c", Array SDE_MAX_DE_CURVES S16)].
Definition sde_drm_scaler_v2 : ctype := Struct [
  ("enable", U32); ("dir_en", U32); ("pe", sde_drm_pix_ext_v1); ("horz_decimate", U32);
  ("vert_decimate", U32); ("init_phase_x", Array SDE_MAX_PLANES S32);
  ("phase_step_x", Array SDE_MAX_PLANES S32); ("init_phase_y", Array SDE_MAX_PLANES S32);
  ("phase_step_y", Array SDE_MAX_PLANES S32); ("preload_x", Array SDE_MAX_PLANES U32);
  ("preload_y", Array SDE_MAX_PLANES U32); ("src_width", Array SDE_MAX_PLANES U32);
  ("src_height", Array SDE_MAX_PLANES U32); ("dst_width", U32); ("dst_height", U32);
  ("y_rgb_filter_cfg", U32); ("uv_filter_cfg", U32); ("alpha_filter_cfg", U32); ("blend_cfg", U32);
  ("lut_flag", U32); ("dir_lut_idx", U32); ("y_rgb_cir_lut_idx", U32); ("uv_cir_lut_idx", U32);
  ("y_rgb_sep_lut_idx", U32); ("uv_sep_lut_idx", U32); ("de", sde_drm_de_v1); ("dir_weight", U32);
  ("unsharp_mask_blend", U32); ("de_blend", U32); ("flags", U32); ("pre_downscale_x_0", U32);
  ("pre_downscale_x_1", U32); ("pre_downscale_y_0", U32); ("pre_downscale_y_1", U32); ("de_lpf_flags", U32);
  ("de_lpf_h", U32); ("de_lpf_l", U32); ("de_lpf_m", U32); ("dir45_en", U32); ("cor_en", U32)].
Definition sde_drm_dest_scaler_cfg : ctype := Struct [
  ("flags", U32); ("index", U32); ("lm_width", U32); ("lm_height", U32); ("scaler_cfg", U64)].
Definition SDE_MAX_DS_COUNT : Z := 4.
Definition sde_drm_dest_scaler_data : ctype := Struct [
  ("num_dest_scaler", U32); ("ds_cfg", Array SDE_MAX_DS_COUNT sde_drm_dest_scaler_cfg)].
Definition SDE_CSC_MATRIX_COEFF_SIZE : Z := 9.
Definition SDE_CSC_BIAS_SIZE : Z := 3.
Definition SDE_CSC_CLAMP_SIZE : Z := 6.
Definition sde_drm_csc_v1 : ctype := Struct [
  ("ctm_coeff", Array SDE_CSC_MATRIX_COEFF_SIZE S64); ("pre_bias", Array SDE_CSC_BIAS_SIZE U32);
  ("post_bias", Array SDE_CSC_BIAS_SIZE U32); ("pre_clamp", Array SDE_CSC_CLAMP_SIZE U32);
  ("post_clamp", Array SDE_CSC_CLAMP_SIZE U32)].
Definition sde_drm_color : ctype := Struct [
  ("color_0", U32); ("color_1", U32); ("color_2", U32); ("color_3", U32)].
Definition sde_drm_dim_layer_cfg : ctype := Struct [
  ("flags", U32); ("stage", U32); ("color_fill", sde_drm_color); ("rect", drm_clip_rect)].
Definition SDE_MAX_DIM_LAYERS : Z := 7.
Definition sde_drm_dim_layer_v1 : ctype := Struct [
  ("num_layers", U32); ("layer_cfg", Array SDE_MAX_DIM_LAYERS sde_drm_dim_layer_cfg)].
Definition sde_drm_wb_cfg : ctype := Struct [
  ("flags", U32); ("connector_id", U32); ("count_modes", U32); ("modes", U64)].
Definition SDE_MAX_ROI_V1 : Z := 4.
Definition sde_drm_roi_v1 : ctype := Struct [
  ("num_rects", U32); ("roi", Array SDE_MAX_ROI_V1 drm_clip_rect); ("roi_feature_flags", U32);
  ("spr_roi", Array SDE_MAX_ROI_V1 drm_clip_rect)].
Definition sde_drm_ubwc_stats_roi : ctype := Struct [
  ("y_coord0", U16); ("y_coord1", U16)].
Definition UBWC_STATS_MAX_ROI : Z := 0x3.
Definition sde_drm_ubwc_stats_data : ctype := Struct [
  ("roi", sde_drm_ubwc_stats_roi); ("worst_bw", Array UBWC_STATS_MAX_ROI U16);
  ("worst_bw_y_coord", Array UBWC_STATS_MAX_ROI U16); ("total_bw", Array UBWC_STATS_MAX_ROI U32);
  ("error", U32); ("meta_error", U32)].
Definition SDE_FRAME_DATA_BUFFER_MAX : Z := 0x3.
Definition sde_drm_frame_data_buffers_ctrl : ctype := Struct [
  ("num_buffers", U32); ("fds", Array SDE_FRAME_DATA_BUFFER_MAX U32)].
Definition sde_drm_frame_data_buf : ctype := Struct [
  ("fd", U32); ("offset", U32); ("status", U32)].
Definition sde_drm_plane_frame_data : ctype := Struct [
  ("plane_id", U32); ("ubwc_stats", sde_drm_ubwc_stats_data)].
Definition SDE_FRAME_DATA_MAX_PLANES : Z := 0x14.
Definition sde_drm_frame_data_packet : ctype := Struct [
  ("frame_count", U32); ("commit_count", U64);
  ("plane_frame_data", Array SDE_FRAME_DATA_MAX_PLANES sde_drm_plane_frame_data)].
Definition HDR_PRIMARIES_COUNT : Z := 3.
Definition drm_msm_ext_hdr_metadata : ctype := Struct [
  ("hdr_state", U32); ("eotf", U32); ("hdr_supported", U32);
  ("display_primaries_x", Array HDR_PRIMARIES_COUNT U32);
  ("display_primaries_y", Array HDR_PRIMARIES_COUNT U32); ("white_point_x", U32); ("white_point_y", U32);
  ("max_luminance", U32); ("min_luminance", U32); ("max_content_light_level", U32);
  ("max_average_light_level", U32); ("hdr_plus_payload", U64); ("hdr_plus_payload_size", U32)].
Definition drm_msm_ext_hdr_properties : ctype := Struct [
  ("hdr_metadata_type_one", U8); ("hdr_supported", U32); ("hdr_eotf", U32); ("hdr_max_luminance", U32);
  ("hdr_avg_luminance", U32); ("hdr_min_luminance", U32); ("hdr_plus_supported", U32)].
Definition DISPLAY_PRIMARIES_MAX : Z := 8.
Definition drm_panel_hdr_properties : ctype := Struct [
  ("hdr_enabled", U32); ("display_primaries", Array DISPLAY_PRIMARIES_MAX U32); ("peak_brightness", U32);
  ("blackness_level", U32)].
Definition drm_msm_event_req : ctype := Struct [
  ("object_id", U32); ("object_type", U32); ("event", U32); ("client_context", U64); ("index", U32)].
Definition drm_msm_event_resp : ctype := Struct [
  ("base", drm_event); ("info", drm_msm_event_req); ("data", Flexible U8)].
Definition drm_msm_power_ctrl : ctype := Struct [
  ("enable", U32); ("flags", U32)].
Definition drm_msm_early_wakeup : ctype := Struct [
  ("wakeup_hint", U32); ("connector_id", U32)].
Definition drm_msm_display_hint : ctype := Struct [
  ("data", U64); ("hint_flags", U32)].
Definition drm_msm_noise_layer_cfg : ctype := Struct [
  ("flags", U64); ("zposn", U32); ("zposattn", U32); ("attn_factor", U32); ("strength", U32);
  ("alpha_noise", U32)].
Definition DNSC_BLUR_COEF_NUM : Z := 64.
Definition DNSC_BLUR_DITHER_MATRIX_SZ : Z := 16.
Definition sde_drm_dnsc_blur_cfg : ctype := Struct [
  ("flags", U64); ("num_blocks", U32); ("src_width", U32); ("src_height", U32); ("dst_width", U32);
  ("dst_height", U32); ("flags_h", U32); ("flags_v", U32); ("phase_init_h", U32); ("phase_step_h", U32);
  ("phase_init_v", U32); ("phase_step_v", U32); ("norm_h", U32); ("ratio_h", U32); ("norm_v", U32);
  ("ratio_v", U32); ("coef_hori", Array DNSC_BLUR_COEF_NUM U32); ("coef_vert", Array DNSC_BLUR_COEF_NUM U32);
  ("dither_flags", U64); ("temporal_en", U32); ("c0_bitdepth", U32); ("c1_bitdepth", U32);
  ("c2_bitdepth", U32); ("c3_bitdepth", U32); ("dither_matrix", Array DNSC_BLUR_DITHER_MATRIX_SZ U32)].

Definition sde_structs : list (string * ctype) := [
  ("sde_drm_pix_ext_v1", sde_drm_pix_ext_v1); ("sde_drm_scaler_v1", sde_drm_scaler_v1);
  ("sde_drm_de_v1", sde_drm_de_v1); ("sde_drm_scaler_v2", sde_drm_scaler_v2);
  ("sde_drm_dest_scaler_cfg", sde_drm_dest_scaler_cfg); ("sde_drm_dest_scaler_data", sde_drm_dest_scaler_data);
  ("sde_drm_csc_v1", sde_drm_csc_v1); ("sde_drm_color", sde_drm_color);
  ("sde_drm_dim_layer_cfg", sde_drm_dim_layer_cfg); ("sde_drm_dim_layer_v1", sde_drm_dim_layer_v1);
  ("sde_drm_wb_cfg", sde_drm_wb_cfg); ("sde_drm_roi_v1", sde_drm_roi_v1);
  ("sde_drm_ubwc_stats_roi", sde_drm_ubwc_stats_roi); ("sde_drm_ubwc_stats_data", sde_drm_ubwc_stats_data);
  ("sde_drm_frame_data_buffers_ctrl", sde_drm_frame_data_buffers_ctrl);
  ("sde_drm_frame_data_buf", sde_drm_frame_data_buf); ("sde_drm_plane_frame_data", sde_drm_plane_frame_data);
  ("sde_drm_frame_data_packet", sde_drm_frame_data_packet);
  ("drm_msm_ext_hdr_metadata", drm_msm_ext_hdr_metadata);
  ("drm_msm_ext_hdr_properties", drm_msm_ext_hdr_properties);
  ("drm_panel_hdr_properties", drm_panel_hdr_properties); ("drm_msm_event_req", drm_msm_event_req);
  ("drm_msm_event_resp", drm_msm_event_resp); ("drm_msm_power_ctrl", drm_msm_power_ctrl);
  ("drm_msm_early_wakeup", drm_msm_early_wakeup); ("drm_msm_display_hint", drm_msm_display_hint);
  ("drm_msm_noise_layer_cfg", drm_msm_noise_layer_cfg); ("sde_drm_dnsc_blur_cfg", sde_drm_dnsc_blur_cfg)].

(** Requests. *)

Definition DRM_SDE_WB_CONFIG : Z := 0x40.
Definition DRM_MSM_REGISTER_EVENT : Z := 0x41.
Definition DRM_MSM_DEREGISTER_EVENT : Z := 0x42.
Definition DRM_MSM_RMFB2 : Z := 0x43.
Definition DRM_MSM_POWER_CTRL : Z := 0x44.
Definition DRM_MSM_DISPLAY_HINT : Z := 0x45.
Definition sde_requests : list ioctl := [
  DRM_IOW "DRM_IOCTL_SDE_WB_CONFIG" (DRM_COMMAND_BASE + DRM_SDE_WB_CONFIG) sde_drm_wb_cfg;
  DRM_IOW "DRM_IOCTL_MSM_REGISTER_EVENT" (DRM_COMMAND_BASE + DRM_MSM_REGISTER_EVENT) drm_msm_event_req;
  DRM_IOW "DRM_IOCTL_MSM_DEREGISTER_EVENT" (DRM_COMMAND_BASE + DRM_MSM_DEREGISTER_EVENT) drm_msm_event_req;
  DRM_IOW "DRM_IOCTL_MSM_RMFB2" (DRM_COMMAND_BASE + DRM_MSM_RMFB2) U32;
  DRM_IOW "DRM_IOCTL_MSM_POWER_CTRL" (DRM_COMMAND_BASE + DRM_MSM_POWER_CTRL) drm_msm_power_ctrl;
  DRM_IOW "DRM_IOCTL_MSM_DISPLAY_HINT" (DRM_COMMAND_BASE + DRM_MSM_DISPLAY_HINT) drm_msm_display_hint].

(** Events. *)

Definition DRM_EVENT_HISTOGRAM : Z := 0x80000000.
Definition DRM_EVENT_AD_BACKLIGHT : Z := 0x80000001.
Definition DRM_EVENT_CRTC_POWER : Z := 0x80000002.
Definition DRM_EVENT_SYS_BACKLIGHT : Z := 0x80000003.
Definition DRM_EVENT_SDE_POWER : Z := 0x80000004.
Definition DRM_EVENT_IDLE_NOTIFY : Z := 0x80000005.
Definition DRM_EVENT_PANEL_DEAD : Z := 0x80000006.
Definition DRM_EVENT_SDE_HW_RECOVERY : Z := 0x80000007.
Definition DRM_EVENT_LTM_HIST : Z := 0x80000008.
Definition DRM_EVENT_LTM_WB_PB : Z := 0x80000009.
Definition DRM_EVENT_LTM_OFF : Z := 0x8000000A.
Definition DRM_EVENT_MMRM_CB : Z := 0x8000000B.
Definition DRM_EVENT_FRAME_DATA : Z := 0x8000000C.
Definition DRM_EVENT_DIMMING_BL : Z := 0x8000000D.
Definition DRM_EVENT_VM_RELEASE : Z := 0x8000000E.
Definition DRM_EVENT_OPR_VALUE : Z := 0x8000000F.
Definition DRM_EVENT_MISR_SIGN : Z := 0x80000010.

Definition sde_events : list Z := [
  DRM_EVENT_HISTOGRAM; DRM_EVENT_AD_BACKLIGHT; DRM_EVENT_CRTC_POWER; DRM_EVENT_SYS_BACKLIGHT; DRM_EVENT_SDE_POWER;
  DRM_EVENT_IDLE_NOTIFY; DRM_EVENT_PANEL_DEAD; DRM_EVENT_SDE_HW_RECOVERY; DRM_EVENT_LTM_HIST;
  DRM_EVENT_LTM_WB_PB; DRM_EVENT_LTM_OFF; DRM_EVENT_MMRM_CB; DRM_EVENT_FRAME_DATA; DRM_EVENT_DIMMING_BL;
  DRM_EVENT_VM_RELEASE; DRM_EVENT_OPR_VALUE; DRM_EVENT_MISR_SIGN].

(** Flags. *)

Definition SCALER_LUT_SWAP : Z := 0x1.
Definition SCALER_LUT_DIR_WR : Z := 0x2.
Definition SCALER_LUT_Y_CIR_WR : Z := 0x4.
Definition SCALER_LUT_UV_CIR_WR : Z := 0x8.
Definition SCALER_LUT_Y_SEP_WR : Z := 0x10.
Definition SCALER_LUT_UV_SEP_WR : Z := 0x20.
Definition SDE_DRM_DESTSCALER_ENABLE : Z := 0x1.
Definition SDE_DRM_DESTSCALER_SCALE_UPDATE : Z := 0x2.
Definition SDE_DRM_DESTSCALER_ENHANCER_UPDATE : Z := 0x4.
Definition SDE_DRM_DESTSCALER_PU_ENABLE : Z := 0x8.
Definition SDE_DRM_DIM_LAYER_INCLUSIVE : Z := 0x1.
Definition SDE_DRM_DIM_LAYER_EXCLUSIVE : Z := 0x2.
Definition DRM_EDID_CLRMETRY_xvYCC_601 : Z := 1 ≪ 0.
Definition DRM_EDID_CLRMETRY_xvYCC_709 : Z := 1 ≪ 1.
Definition DRM_EDID_CLRMETRY_sYCC_601 : Z := 1 ≪ 2.
Definition DRM_EDID_CLRMETRY_ADOBE_YCC_601 : Z := 1 ≪ 3.
Definition DRM_EDID_CLRMETRY_ADOBE_RGB : Z := 1 ≪ 4.
Definition DRM_EDID_CLRMETRY_BT2020_CYCC : Z := 1 ≪ 5.
Definition DRM_EDID_CLRMETRY_BT2020_YCC : Z := 1 ≪ 6.
Definition DRM_EDID_CLRMETRY_BT2020_RGB : Z := 1 ≪ 7.
Definition DRM_EDID_CLRMETRY_DCI_P3 : Z := 1 ≪ 15.
Definition DNSC_BLUR_EN : Z := 1 ≪ 0.
Definition DNSC_BLUR_RND_8B_EN : Z := 1 ≪ 1.
Definition DNSC_BLUR_DITHER_EN : Z := 1 ≪ 2.
Definition DNSC_BLUR_MIRROR_BLK_CFG : Z := 1 ≪ 16.
Definition DNSC_BLUR_INDEPENDENT_BLK_CFG : Z := 1 ≪ 17.
Definition DNSC_BLUR_GAUS_FILTER : Z := 1 ≪ 0.
Definition DNSC_BLUR_PCMN_FILTER : Z := 1 ≪ 1.
Definition DRM_MSM_DISPLAY_EARLY_WAKEUP_HINT : Z := 0x01.
Definition DRM_MSM_DISPLAY_POWER_COLLAPSE_HINT : Z := 0x02.
Definition DRM_MSM_DISPLAY_IDLE_TIMEOUT_HINT : Z := 0x04.
Definition DRM_MSM_DISPLAY_MODE_CHANGE_HINT : Z := 0x08.

(** ** [msm_drm_pp.h] *)

Definition drm_msm_pcc_coeff : ctype := Struct [
  ("c", U32); ("r", U32); ("g", U32); ("b", U32); ("rg", U32); ("gb", U32); ("rb", U32); ("rgb", U32)].
Definition drm_msm_pcc : ctype := Struct [
  ("flags", U64); ("r", drm_msm_pcc_coeff); ("g", drm_msm_pcc_coeff); ("b", drm_msm_pcc_coeff);
  ("r_rr", U32); ("r_gg", U32); ("r_bb", U32); ("g_rr", U32); ("g_gg", U32); ("g_bb", U32); ("b_rr", U32);
  ("b_gg", U32); ("b_bb", U32)].
Definition PA_VLUT_SIZE : Z := 256.
Definition drm_msm_pa_vlut : ctype := Struct [
  ("flags", U64); ("val", Array PA_VLUT_SIZE U32)].
Definition drm_msm_pa_hsic : ctype := Struct [
  ("flags", U64); ("hue", U32); ("saturation", U32); ("value", U32); ("contrast", U32)].
Definition drm_msm_memcol : ctype := Struct [
  ("prot_flags", U64); ("color_adjust_p0", U32); ("color_adjust_p1", U32); ("color_adjust_p2", U32);
  ("blend_gain", U32); ("sat_hold", U32); ("val_hold", U32); ("hue_region", U32); ("sat_region", U32);
  ("val_region", U32)].
Definition drm_msm_sixzone_curve : ctype := Struct [
  ("p1", U32); ("p0", U32)].
Definition SIXZONE_LUT_SIZE : Z := 384.
Definition drm_msm_sixzone : ctype := Struct [
  ("flags", U64); ("threshold", U32); ("adjust_p0", U32); ("adjust_p1", U32); ("sat_hold", U32);
  ("val_hold", U32); ("curve", Array SIXZONE_LUT_SIZE drm_msm_sixzone_curve); ("sat_adjust_p0", U32);
  ("sat_adjust_p1", U32); ("curve_p2", Array SIXZONE_LUT_SIZE U32)].
Definition drm_msm_3d_col : ctype := Struct [
  ("c2_c1", U32); ("c0", U32)].
Definition GAMUT_3D_SCALE_OFF_TBL_NUM : Z := 3.
Definition GAMUT_3D_SCALE_OFF_SZ : Z := 16.
Definition GAMUT_3D_TBL_NUM : Z := 4.
Definition GAMUT_3D_MODE17_TBL_SZ : Z := 1229.
Definition drm_msm_3d_gamut : ctype := Struct [
  ("flags", U64); ("mode", U32);
  ("scale_off", Array GAMUT_3D_SCALE_OFF_TBL_NUM (Array GAMUT_3D_SCALE_OFF_SZ U32));
  ("col", Array GAMUT_3D_TBL_NUM (Array GAMUT_3D_MODE17_TBL_SZ drm_msm_3d_col))].
Definition PGC_TBL_LEN : Z := 512.
Definition drm_msm_pgc_lut : ctype := Struct [
  ("flags", U64); ("c0", Array PGC_TBL_LEN U32); ("c1", Array PGC_TBL_LEN U32); ("c2", Array PGC_TBL_LEN U32)].
Definition IGC_TBL_LEN : Z := 256.
Definition drm_msm_igc_lut : ctype := Struct [
  ("flags", U64); ("c0", Array IGC_TBL_LEN U32); ("c1", Array IGC_TBL_LEN U32);
  ("c2", Array IGC_TBL_LEN U32); ("strength", U32); ("c0_last", U32); ("c1_last", U32); ("c2_last", U32)].
Definition HIST_V_SIZE : Z := 256.
Definition drm_msm_hist : ctype := Struct [
  ("flags", U64); ("data", Array HIST_V_SIZE U32)].
Definition AD4_LUT_GRP0_SIZE : Z := 33.
Definition AD4_LUT_GRP1_SIZE : Z := 32.
Definition drm_msm_ad4_init : ctype := Struct [
  ("init_param_001", Array AD4_LUT_GRP0_SIZE U32); ("init_param_002", Array AD4_LUT_GRP0_SIZE U32);
  ("init_param_003", Array AD4_LUT_GRP0_SIZE U32); ("init_param_004", Array AD4_LUT_GRP0_SIZE U32);
  ("init_param_005", Array AD4_LUT_GRP1_SIZE U32); ("init_param_006", Array AD4_LUT_GRP1_SIZE U32);
  ("init_param_007", Array AD4_LUT_GRP0_SIZE U32); ("init_param_008", Array AD4_LUT_GRP0_SIZE U32);
  ("init_param_009", U32); ("init_param_010", U32); ("init_param_011", U32); ("init_param_012", U32);
  ("init_param_013", U32); ("init_param_014", U32); ("init_param_015", U32); ("init_param_016", U32);
  ("init_param_017", U32); ("init_param_018", U32); ("init_param_019", U32); ("init_param_020", U32);
  ("init_param_021", U32); ("init_param_022", U32); ("init_param_023", U32); ("init_param_024", U32);
  ("init_param_025", U32); ("init_param_026", U32); ("init_param_027", U32); ("init_param_028", U32);
  ("init_param_029", U32); ("init_param_030", U32); ("init_param_031", U32); ("init_param_032", U32);
  ("init_param_033", U32); ("init_param_034", U32); ("init_param_035", U32); ("init_param_036", U32);
  ("init_param_037", U32); ("init_param_038", U32); ("init_param_039", U32); ("init_param_040", U32);
  ("init_param_041", U32); ("init_param_042", U32); ("init_param_043", U32); ("init_param_044", U32);
  ("init_param_045", U32); ("init_param_046", U32); ("init_param_047", U32); ("init_param_048", U32);
  ("init_param_049", U32); ("init_param_050", U32); ("init_param_051", U32); ("init_param_052", U32);
  ("init_param_053", U32); ("init_param_054", U32); ("init_param_055", U32); ("init_param_056", U32);
  ("init_param_057", U32); ("init_param_058", U32); ("init_param_059", U32); ("init_param_060", U32);
  ("init_param_061", U32); ("init_param_062", U32); ("init_param_063", U32); ("init_param_064", U32);
  ("init_param_065", U32); ("init_param_066", U32); ("init_param_067", U32); ("init_param_068", U32);
  ("init_param_069", U32); ("init_param_070", U32); ("init_param_071", U32); ("init_param_072", U32);
  ("init_param_073", U32); ("init_param_074", U32); ("init_param_075", U32)].
Definition drm_msm_ad4_cfg : ctype := Struct [
  ("cfg_param_001", U32); ("cfg_param_002", U32); ("cfg_param_003", U32); ("cfg_param_004", U32);
  ("cfg_param_005", U32); ("cfg_param_006", U32); ("cfg_param_007", U32); ("cfg_param_008", U32);
  ("cfg_param_009", U32); ("cfg_param_010", U32); ("cfg_param_011", U32); ("cfg_param_012", U32);
  ("cfg_param_013", U32); ("cfg_param_014", U32); ("cfg_param_015", U32); ("cfg_param_016", U32);
  ("cfg_param_017", U32); ("cfg_param_018", U32); ("cfg_param_019", U32); ("cfg_param_020", U32);
  ("cfg_param_021", U32); ("cfg_param_022", U32); ("cfg_param_023", U32); ("cfg_param_024", U32);
  ("cfg_param_025", U32); ("cfg_param_026", U32); ("cfg_param_027", U32); ("cfg_param_028", U32);
  ("cfg_param_029", U32); ("cfg_param_030", U32); ("cfg_param_031", U32); ("cfg_param_032", U32);
  ("cfg_param_033", U32); ("cfg_param_034", U32); ("cfg_param_035", U32); ("cfg_param_036", U32);
  ("cfg_param_037", U32); ("cfg_param_038", U32); ("cfg_param_039", U32); ("cfg_param_040", U32);
  ("cfg_param_041", U32); ("cfg_param_042", U32); ("cfg_param_043", U32); ("cfg_param_044", U32);
  ("cfg_param_045", U32); ("cfg_param_046", U32); ("cfg_param_047", U32); ("cfg_param_048", U32);
  ("cfg_param_049", U32); ("cfg_param_050", U32); ("cfg_param_051", U32); ("cfg_param_052", U32);
  ("cfg_param_053", U32)].
Definition DITHER_MATRIX_SZ : Z := 16.
Definition drm_msm_dither : ctype := Struct [
  ("flags", U64); ("temporal_en", U32); ("c0_bitdepth", U32); ("c1_bitdepth", U32); ("c2_bitdepth", U32);
  ("c3_bitdepth", U32); ("matrix", Array DITHER_MATRIX_SZ U32)].
Definition drm_msm_pa_dither : ctype := Struct [
  ("flags", U64); ("strength", U32); ("offset_en", U32); ("matrix", Array DITHER_MATRIX_SZ U32)].
Definition drm_msm_ad4_roi_cfg : ctype := Struct [
  ("h_x", U32); ("h_y", U32); ("v_x", U32); ("v_y", U32); ("factor_in", U32); ("factor_out", U32)].
Definition LTM_DATA_SIZE_0 : Z := 32.
Definition LTM_DATA_SIZE_1 : Z := 128.
Definition LTM_DATA_SIZE_2 : Z := 256.
Definition LTM_BLOCK_SIZE : Z := 4.
Definition drm_msm_ltm_stats_data : ctype := Struct [
  ("stats_01", Array LTM_DATA_SIZE_0 (Array LTM_DATA_SIZE_1 U32)); ("stats_02", Array LTM_DATA_SIZE_2 U32);
  ("stats_03", Array LTM_DATA_SIZE_0 U32); ("stats_04", Array LTM_DATA_SIZE_0 U32);
  ("stats_05", Array LTM_DATA_SIZE_0 U32); ("status_flag", U32); ("display_h", U32); ("display_v", U32);
  ("init_h", Array LTM_BLOCK_SIZE U32); ("init_v", U32); ("inc_h", U32); ("inc_v", U32);
  ("portrait_en", U32); ("merge_en", U32); ("cfg_param_01", U32); ("cfg_param_02", U32);
  ("cfg_param_03", U32); ("cfg_param_04", U32); ("feature_flag", U32); ("checksum", U32)].
Definition drm_msm_ltm_init_param : ctype := Struct [
  ("init_param_01", U32); ("init_param_02", U32); ("init_param_03", U32); ("init_param_04", U32)].
Definition drm_msm_ltm_cfg_param : ctype := Struct [
  ("cfg_param_01", U32); ("cfg_param_02", U32); ("cfg_param_03", U32); ("cfg_param_04", U32);
  ("cfg_param_05", U32); ("cfg_param_06", U32)].
Definition LTM_DATA_SIZE_3 : Z := 33.
Definition drm_msm_ltm_data : ctype := Struct [
  ("data", Array LTM_DATA_SIZE_0 (Array LTM_DATA_SIZE_3 U32))].
Definition LTM_BUFFER_SIZE : Z := 5.
Definition drm_msm_ltm_buffers_ctrl : ctype := Struct [
  ("num_of_buffers", U32); ("fds", Array LTM_BUFFER_SIZE U32)].
Definition drm_msm_ltm_buffer : ctype := Struct [
  ("fd", U32); ("offset", U32); ("status", U32)].
Definition SPR_INIT_PARAM_SIZE_1 : Z := 4.
Definition SPR_INIT_PARAM_SIZE_2 : Z := 5.
Definition SPR_INIT_PARAM_SIZE_5 : Z := 32.
Definition SPR_INIT_PARAM_SIZE_3 : Z := 16.
Definition SPR_INIT_PARAM_SIZE_4 : Z := 24.
Definition SPR_INIT_PARAM_SIZE_6 : Z := 7.
Definition drm_msm_spr_init_cfg : ctype := Struct [
  ("flags", U64); ("cfg0", U16); ("cfg1", U16); ("cfg2", U16); ("cfg3", U16); ("cfg4", U16); ("cfg5", U16);
  ("cfg6", U16); ("cfg7", U16); ("cfg8", U16); ("cfg9", U16); ("cfg10", U32);
  ("cfg11", Array SPR_INIT_PARAM_SIZE_1 U16); ("cfg12", Array SPR_INIT_PARAM_SIZE_1 U16);
  ("cfg13", Array SPR_INIT_PARAM_SIZE_1 U16); ("cfg14", Array SPR_INIT_PARAM_SIZE_2 U16);
  ("cfg15", Array SPR_INIT_PARAM_SIZE_5 U16); ("cfg16", Array SPR_INIT_PARAM_SIZE_3 S32);
  ("cfg17", Array SPR_INIT_PARAM_SIZE_4 S32); ("cfg18_en", U16); ("cfg18", Array SPR_INIT_PARAM_SIZE_6 U8)].
Definition SPR_UDC_PARAM_SIZE_1 : Z := 27.
Definition SPR_UDC_PARAM_SIZE_2 : Z := 1536.
Definition drm_msm_spr_udc_cfg : ctype := Struct [
  ("flags", U64); ("init_cfg4", U16); ("init_cfg11", Array SPR_INIT_PARAM_SIZE_1 U16);
  ("cfg1", Array SPR_UDC_PARAM_SIZE_1 U16); ("cfg2", Array SPR_UDC_PARAM_SIZE_2 U16)].
Definition CFG0_PARAM_LEN : Z := 8.
Definition CFG0_PARAM2_LEN : Z := 256.
Definition CFG1_PARAM_LEN : Z := 8.
Definition CFG1_PARAM0_LEN : Z := 153.
Definition CFG3_PARAM01_LEN : Z := 4.
Definition CFG5_PARAM01_LEN : Z := 4.
Definition drm_msm_dem_cfg : ctype := Struct [
  ("flags", U64); ("pentile", U32); ("cfg0_en", U32); ("cfg0_param0_len", U32);
  ("cfg0_param0", Array CFG0_PARAM_LEN U32); ("cfg0_param1_len", U32);
  ("cfg0_param1", Array CFG0_PARAM_LEN U32); ("cfg0_param2_len", U32);
  ("cfg0_param2_c0", Array CFG0_PARAM2_LEN U64); ("cfg0_param2_c1", Array CFG0_PARAM2_LEN U64);
  ("cfg0_param2_c2", Array CFG0_PARAM2_LEN U64); ("cfg0_param3_len", U32);
  ("cfg0_param3_c0", Array CFG0_PARAM_LEN U32); ("cfg0_param3_c1", Array CFG0_PARAM_LEN U32);
  ("cfg0_param3_c2", Array CFG0_PARAM_LEN U32); ("cfg0_param4_len", U32);
  ("cfg0_param4", Array CFG0_PARAM_LEN U32); ("cfg1_en", U32); ("cfg1_high_idx", U32); ("cfg1_low_idx", U32);
  ("cfg01_param0_len", U32); ("cfg01_param0", Array CFG1_PARAM_LEN U32); ("cfg1_param0_len", U32);
  ("cfg1_param0_c0", Array CFG1_PARAM0_LEN U32); ("cfg1_param0_c1", Array CFG1_PARAM0_LEN U32);
  ("cfg1_param0_c2", Array CFG1_PARAM0_LEN U32); ("cfg2_en", U32); ("cfg3_en", U32);
  ("cfg3_param0_len", U32); ("cfg3_param0_a", Array CFG3_PARAM01_LEN U32);
  ("cfg3_param0_b", Array CFG3_PARAM01_LEN U32); ("cfg3_ab_adj", U32); ("cfg4_en", U32); ("cfg5_en", U32);
  ("cfg5_param0_len", U32); ("cfg5_param0", Array CFG5_PARAM01_LEN U32); ("cfg5_param1_len", U32);
  ("cfg5_param1", Array CFG5_PARAM01_LEN U32); ("c0_depth", U32); ("c1_depth", U32); ("c2_depth", U32);
  ("src_id", U32); ("cfg0_param2_idx", U32)].
Definition drm_msm_dem_cfg0_param2 : ctype := Struct [
  ("cfg0_param2_len", U32); ("cfg0_param2_c0", Array CFG0_PARAM2_LEN U64);
  ("cfg0_param2_c1", Array CFG0_PARAM2_LEN U64); ("cfg0_param2_c2", Array CFG0_PARAM2_LEN U64)].
Definition drm_msm_ad4_manual_str_cfg : ctype := Struct [
  ("in_str", U32); ("out_str", U32)].
Definition RC_CFG_SIZE_MAX : Z := 4.
Definition RC_DATA_SIZE_MAX : Z := 2720.
Definition drm_msm_rc_mask_cfg : ctype := Struct [
  ("flags", U64); ("cfg_param_01", U32); ("cfg_param_02", U32); ("cfg_param_03", U32);
  ("cfg_param_04", Array RC_CFG_SIZE_MAX U32); ("cfg_param_05", Array RC_CFG_SIZE_MAX U32);
  ("cfg_param_06", Array RC_CFG_SIZE_MAX U32); ("cfg_param_07", U64); ("cfg_param_08", U32);
  ("cfg_param_09", Array RC_DATA_SIZE_MAX U64); ("height", U32); ("width", U32)].
Definition drm_msm_fp16_gc : ctype := Struct [
  ("flags", U64); ("mode", U64)].
Definition FP16_CSC_CFG0_PARAM_LEN : Z := 12.
Definition FP16_CSC_CFG1_PARAM_LEN : Z := 8.
Definition drm_msm_fp16_csc : ctype := Struct [
  ("flags", U64); ("cfg_param_0_len", U32); ("cfg_param_0", Array FP16_CSC_CFG0_PARAM_LEN U32);
  ("cfg_param_1_len", U32); ("cfg_param_1", Array FP16_CSC_CFG1_PARAM_LEN U32)].
Definition drm_msm_backlight_info : ctype := Struct [
  ("brightness_max", U32); ("brightness", U32); ("bl_level_max", U32); ("bl_level", U32); ("bl_scale", U32);
  ("bl_scale_sv", U32); ("status", U32); ("min_bl", U32); ("bl_scale_max", U32); ("bl_scale_sv_max", U32)].
Definition DIMMING_BL_LUT_LEN : Z := 8192.
Definition drm_msm_dimming_bl_lut : ctype := Struct [
  ("length", U32); ("mapped_bl", Array DIMMING_BL_LUT_LEN U32)].
Definition MAX_DSI_DISPLAY : Z := 4.
Definition drm_msm_opr_value : ctype := Struct [
  ("num_valid_opr", U32); ("opr_value", Array MAX_DSI_DISPLAY U32)].
Definition SDE_MAX_ROI : Z := 4.
Definition drm_msm_roi : ctype := Struct [
  ("num_rects", U32); ("roi", Array SDE_MAX_ROI drm_clip_rect)].
Definition drm_msm_misr_sign : ctype := Struct [
  ("num_valid_misr", U64); ("roi_list", drm_msm_roi); ("misr_sign_value", Array MAX_DSI_DISPLAY U64)].

Definition pp_structs : list (string * ctype) := [
  ("drm_msm_pcc_coeff", drm_msm_pcc_coeff); ("drm_msm_pcc", drm_msm_pcc); ("drm_msm_pa_vlut", drm_msm_pa_vlut);
  ("drm_msm_pa_hsic", drm_msm_pa_hsic); ("drm_msm_memcol", drm_msm_memcol);
  ("drm_msm_sixzone_curve", drm_msm_sixzone_curve); ("drm_msm_sixzone", drm_msm_sixzone);
  ("drm_msm_3d_col", drm_msm_3d_col); ("drm_msm_3d_gamut", drm_msm_3d_gamut);
  ("drm_msm_pgc_lut", drm_msm_pgc_lut); ("drm_msm_igc_lut", drm_msm_igc_lut); ("drm_msm_hist", drm_msm_hist);
  ("drm_msm_ad4_init", drm_msm_ad4_init); ("drm_msm_ad4_cfg", drm_msm_ad4_cfg);
  ("drm_msm_dither", drm_msm_dither); ("drm_msm_pa_dither", drm_msm_pa_dither);
  ("drm_msm_ad4_roi_cfg", drm_msm_ad4_roi_cfg); ("drm_msm_ltm_stats_data", drm_msm_ltm_stats_data);
  ("drm_msm_ltm_init_param", drm_msm_ltm_init_param); ("drm_msm_ltm_cfg_param", drm_msm_ltm_cfg_param);
  ("drm_msm_ltm_data", drm_msm_ltm_data); ("drm_msm_ltm_buffers_ctrl", drm_msm_ltm_buffers_ctrl);
  ("drm_msm_ltm_buffer", drm_msm_ltm_buffer); ("drm_msm_spr_init_cfg", drm_msm_spr_init_cfg);
  ("drm_msm_spr_udc_cfg", drm_msm_spr_udc_cfg); ("drm_msm_dem_cfg", drm_msm_dem_cfg);
  ("drm_msm_dem_cfg0_param2", drm_msm_dem_cfg0_param2);
  ("drm_msm_ad4_manual_str_cfg", drm_msm_ad4_manual_str_cfg); ("drm_msm_rc_mask_cfg", drm_msm_rc_mask_cfg);
  ("drm_msm_fp16_gc", drm_msm_fp16_gc); ("drm_msm_fp16_csc", drm_msm_fp16_csc);
  ("drm_msm_backlight_info", drm_msm_backlight_info); ("drm_msm_dimming_bl_lut", drm_msm_dimming_bl_lut);
  ("drm_msm_opr_value", drm_msm_opr_value); ("drm_msm_roi", drm_msm_roi);
  ("drm_msm_misr_sign", drm_msm_misr_sign)].

Definition PA_HSIC_HUE_ENABLE : Z := 1 ≪ 0.
Definition PA_HSIC_SAT_ENABLE : Z := 1 ≪ 1.
Definition PA_HSIC_VAL_ENABLE : Z := 1 ≪ 2.
Definition PA_HSIC_CONT_ENABLE : Z := 1 ≪ 3.
Definition MEMCOL_PROT_HUE : Z := 1 ≪ 0.
Definition MEMCOL_PROT_SAT : Z := 1 ≪ 1.
Definition MEMCOL_PROT_VAL : Z := 1 ≪ 2.
Definition MEMCOL_PROT_CONT : Z := 1 ≪ 3.
Definition MEMCOL_PROT_SIXZONE : Z := 1 ≪ 4.
Definition MEMCOL_PROT_BLEND : Z := 1 ≪ 5.
Definition SIXZONE_HUE_ENABLE : Z := 1 ≪ 0.
Definition SIXZONE_SAT_ENABLE : Z := 1 ≪ 1.
Definition SIXZONE_VAL_ENABLE : Z := 1 ≪ 2.
Definition SIXZONE_SV_ENABLE : Z := 1 ≪ 3.
Definition GAMUT_3D_MODE_17 : Z := 1.
Definition GAMUT_3D_MODE_5 : Z := 2.
Definition GAMUT_3D_MODE_13 : Z := 3.
Definition GAMUT_3D_MODE5_TBL_SZ : Z := 32.
Definition GAMUT_3D_MODE13_TBL_SZ : Z := 550.
Definition LTM_STATS_SAT : Z := 1 ≪ 1.
Definition LTM_STATS_MERGE_SAT : Z := 1 ≪ 2.
Definition DEMURA_FLAG_0 : Z := 1 ≪ 0.
Definition DEMURA_FLAG_1 : Z := 1 ≪ 1.
Definition DEMURA_FLAG_2 : Z := 3 ≪ 2.
Definition DEMURA_SKIP_CFG0_PARAM2 : Z := 1 ≪ 4.
Definition DEMURA_PRECISION_0 : Z := 0 ≪ 2.
Definition DEMURA_PRECISION_1 : Z := 1 ≪ 2.
Definition DEMURA_PRECISION_2 : Z := 2 ≪ 2.
Definition DIMMING_ENABLE : Z := 1 ≪ 0.
Definition DIMMING_MIN_BL_VALID : Z := 1 ≪ 1.

(** ** Flags and tables *)

(** Flags that one word combines. *)
Definition display_flags : list (list Z) := [
  [SCALER_LUT_SWAP; SCALER_LUT_DIR_WR; SCALER_LUT_Y_CIR_WR; SCALER_LUT_UV_CIR_WR; SCALER_LUT_Y_SEP_WR; SCALER_LUT_UV_SEP_WR];
  [SDE_DRM_DESTSCALER_ENABLE; SDE_DRM_DESTSCALER_SCALE_UPDATE; SDE_DRM_DESTSCALER_ENHANCER_UPDATE; SDE_DRM_DESTSCALER_PU_ENABLE];
  [SDE_DRM_DIM_LAYER_INCLUSIVE; SDE_DRM_DIM_LAYER_EXCLUSIVE];
  [DRM_EDID_CLRMETRY_xvYCC_601; DRM_EDID_CLRMETRY_xvYCC_709; DRM_EDID_CLRMETRY_sYCC_601; DRM_EDID_CLRMETRY_ADOBE_YCC_601;
   DRM_EDID_CLRMETRY_ADOBE_RGB; DRM_EDID_CLRMETRY_BT2020_CYCC; DRM_EDID_CLRMETRY_BT2020_YCC; DRM_EDID_CLRMETRY_BT2020_RGB;
   DRM_EDID_CLRMETRY_DCI_P3];
  [DNSC_BLUR_EN; DNSC_BLUR_RND_8B_EN; DNSC_BLUR_DITHER_EN; DNSC_BLUR_MIRROR_BLK_CFG; DNSC_BLUR_INDEPENDENT_BLK_CFG];
  [DNSC_BLUR_GAUS_FILTER; DNSC_BLUR_PCMN_FILTER];
  [DRM_MSM_DISPLAY_EARLY_WAKEUP_HINT; DRM_MSM_DISPLAY_POWER_COLLAPSE_HINT; DRM_MSM_DISPLAY_IDLE_TIMEOUT_HINT;
   DRM_MSM_DISPLAY_MODE_CHANGE_HINT];
  [PA_HSIC_HUE_ENABLE; PA_HSIC_SAT_ENABLE; PA_HSIC_VAL_ENABLE; PA_HSIC_CONT_ENABLE];
  [MEMCOL_PROT_HUE; MEMCOL_PROT_SAT; MEMCOL_PROT_VAL; MEMCOL_PROT_CONT; MEMCOL_PROT_SIXZONE; MEMCOL_PROT_BLEND];
  [SIXZONE_HUE_ENABLE; SIXZONE_SAT_ENABLE; SIXZONE_VAL_ENABLE; SIXZONE_SV_ENABLE];
  [LTM_STATS_SAT; LTM_STATS_MERGE_SAT];
  [DEMURA_FLAG_0; DEMURA_FLAG_1; DEMURA_FLAG_2; DEMURA_SKIP_CFG0_PARAM2];
  [DIMMING_ENABLE; DIMMING_MIN_BL_VALID]].

Lemma display_flags_ok : forallb apart_flags display_flags = true.
Proof. vm_compute. done. Qed.

(** The precisions of [DEMURA_FLAG_2] fit its bits. *)
Lemma demura_precisions : Forall (fun p => Z.land p DEMURA_FLAG_2 = p) [DEMURA_PRECISION_0; DEMURA_PRECISION_1; DEMURA_PRECISION_2].
Proof. repeat constructor. Qed.

(** A gamut cube of [n] points a side is divided among four tables: they hold every point, and
    one entry less would not do. *)
Lemma gamut_tables :
  Forall (fun '(n, size) => GAMUT_3D_TBL_NUM * (size - 1) < n * n * n <= GAMUT_3D_TBL_NUM * size /\ size <= GAMUT_3D_MODE17_TBL_SZ)
    [(17, GAMUT_3D_MODE17_TBL_SZ); (5, GAMUT_3D_MODE5_TBL_SZ); (13, GAMUT_3D_MODE13_TBL_SZ)].
Proof. repeat constructor; done. Qed.

(** The driver's events are in the range for chipsets, apart from each other and from the
    generic ones. *)
Lemma events_distinct :
  NoDup ([DRM_EVENT_VBLANK; DRM_EVENT_FLIP_COMPLETE; DRM_EVENT_CRTC_SEQUENCE] ++ sde_events) /\
  Forall (fun e => 0x80000000 <= e < 2 ^ 32) sde_events.
Proof. split; [apply (bool_decide_unpack _); vm_compute; done|]. repeat constructor; done. Qed.
