(* ===== verification/KernelMsm.v ===== *)
(** * The GPU driver, memory and audio interfaces

    [compat/kernel-headers/include/]: [drm/msm_drm.h], [linux/msm_ion.h] and [msm_ion_ids.h],
    [linux/qti-smmu-proxy.h], [misc/adsp_sleepmon.h] and [display/media/msm_sde_rotator.h]; then the devices
    with all their requests. *)

From S2P Require Import Prelude KernelAbi KernelDrm KernelDisplay.

(** ** [msm_drm.h] *)

Definition drm_msm_timespec : ctype := Struct [
  ("tv_sec", S64); ("tv_nsec", S64)].
Definition drm_msm_param : ctype := Struct [
  ("pipe", U32); ("param", U32); ("value", U64); ("len", U32); ("pad", U32)].
Definition drm_msm_gem_new : ctype := Struct [
  ("size", U64); ("flags", U32); ("handle", U32)].
Definition drm_msm_gem_info : ctype := Struct [
  ("handle", U32); ("info", U32); ("value", U64); ("len", U32); ("pad", U32)].
Definition drm_msm_gem_cpu_prep : ctype := Struct [
  ("handle", U32); ("op", U32); ("timeout", drm_msm_timespec)].
Definition drm_msm_gem_cpu_fini : ctype := Struct [
  ("handle", U32)].
Definition drm_msm_syncobj : ctype := Struct [
  ("handle", U32); ("flags", U32); ("point", U64)].
Definition drm_msm_gem_submit_reloc : ctype := Struct [
  ("submit_offset", U32); ("_or", U32); ("shift", S32); ("reloc_idx", U32); ("reloc_offset", U64)].
Definition drm_msm_gem_submit_cmd : ctype := Struct [
  ("type", U32); ("submit_idx", U32); ("submit_offset", U32); ("size", U32); ("pad", U32);
  ("nr_relocs", U32); ("", Union [("relocs", U64); ("iova", U64)])].
Definition drm_msm_gem_submit_bo : ctype := Struct [
  ("flags", U32); ("handle", U32); ("presumed", U64)].
Definition drm_msm_gem_submit : ctype := Struct [
  ("flags", U32); ("fence", U32); ("nr_bos", U32); ("nr_cmds", U32); ("bos", U64); ("cmds", U64);
  ("fence_fd", S32); ("queueid", U32); ("in_syncobjs", U64); ("out_syncobjs", U64); ("nr_in_syncobjs", U32);
  ("nr_out_syncobjs", U32); ("syncobj_stride", U32); ("pad", U32)].
Definition drm_msm_vm_bind_op : ctype := Struct [
  ("op", U32); ("handle", U32); ("obj_offset", U64); ("iova", U64); ("range", U64); ("flags", U32);
  ("pad", U32)].
Definition drm_msm_vm_bind : ctype := Struct [
  ("flags", U32); ("nr_ops", U32); ("fence_fd", S32); ("queue_id", U32); ("in_syncobjs", U64);
  ("out_syncobjs", U64); ("nr_in_syncobjs", U32); ("nr_out_syncobjs", U32); ("syncobj_stride", U32);
  ("op_stride", U32); ("", Union [("op", drm_msm_vm_bind_op); ("ops", U64)])].
Definition drm_msm_wait_fence : ctype := Struct [
  ("fence", U32); ("flags", U32); ("timeout", drm_msm_timespec); ("queueid", U32)].
Definition drm_msm_gem_madvise : ctype := Struct [
  ("handle", U32); ("madv", U32); ("retained", U32)].
Definition drm_msm_submitqueue : ctype := Struct [
  ("flags", U32); ("prio", U32); ("id", U32)].
Definition drm_msm_submitqueue_query : ctype := Struct [
  ("data", U64); ("id", U32); ("param", U32); ("len", U32); ("pad", U32)].

Definition msm_structs : list (string * ctype) := [
  ("drm_msm_timespec", drm_msm_timespec); ("drm_msm_param", drm_msm_param);
  ("drm_msm_gem_new", drm_msm_gem_new); ("drm_msm_gem_info", drm_msm_gem_info);
  ("drm_msm_gem_cpu_prep", drm_msm_gem_cpu_prep); ("drm_msm_gem_cpu_fini", drm_msm_gem_cpu_fini);
  ("drm_msm_syncobj", drm_msm_syncobj); ("drm_msm_gem_submit_reloc", drm_msm_gem_submit_reloc);
  ("drm_msm_gem_submit_cmd", drm_msm_gem_submit_cmd); ("drm_msm_gem_submit_bo", drm_msm_gem_submit_bo);
  ("drm_msm_gem_submit", drm_msm_gem_submit); ("drm_msm_vm_bind_op", drm_msm_vm_bind_op);
  ("drm_msm_vm_bind", drm_msm_vm_bind); ("drm_msm_wait_fence", drm_msm_wait_fence);
  ("drm_msm_gem_madvise", drm_msm_gem_madvise); ("drm_msm_submitqueue", drm_msm_submitqueue);
  ("drm_msm_submitqueue_query", drm_msm_submitqueue_query)].

(** Requests. *)

Definition DRM_MSM_GET_PARAM : Z := 0x00.
Definition DRM_MSM_SET_PARAM : Z := 0x01.
Definition DRM_MSM_GEM_NEW : Z := 0x02.
Definition DRM_MSM_GEM_INFO : Z := 0x03.
Definition DRM_MSM_GEM_CPU_PREP : Z := 0x04.
Definition DRM_MSM_GEM_CPU_FINI : Z := 0x05.
Definition DRM_MSM_GEM_SUBMIT : Z := 0x06.
Definition DRM_MSM_WAIT_FENCE : Z := 0x07.
Definition DRM_MSM_GEM_MADVISE : Z := 0x08.
Definition DRM_MSM_SUBMITQUEUE_NEW : Z := 0x0A.
Definition DRM_MSM_SUBMITQUEUE_CLOSE : Z := 0x0B.
Definition DRM_MSM_SUBMITQUEUE_QUERY : Z := 0x0C.
Definition DRM_MSM_VM_BIND : Z := 0x0D.
Definition msm_requests : list ioctl := [
  DRM_IOWR "DRM_IOCTL_MSM_GET_PARAM" (DRM_COMMAND_BASE + DRM_MSM_GET_PARAM) drm_msm_param;
  DRM_IOW "DRM_IOCTL_MSM_SET_PARAM" (DRM_COMMAND_BASE + DRM_MSM_SET_PARAM) drm_msm_param;
  DRM_IOWR "DRM_IOCTL_MSM_GEM_NEW" (DRM_COMMAND_BASE + DRM_MSM_GEM_NEW) drm_msm_gem_new;
  DRM_IOWR "DRM_IOCTL_MSM_GEM_INFO" (DRM_COMMAND_BASE + DRM_MSM_GEM_INFO) drm_msm_gem_info;
  DRM_IOW "DRM_IOCTL_MSM_GEM_CPU_PREP" (DRM_COMMAND_BASE + DRM_MSM_GEM_CPU_PREP) drm_msm_gem_cpu_prep;
  DRM_IOW "DRM_IOCTL_MSM_GEM_CPU_FINI" (DRM_COMMAND_BASE + DRM_MSM_GEM_CPU_FINI) drm_msm_gem_cpu_fini;
  DRM_IOWR "DRM_IOCTL_MSM_GEM_SUBMIT" (DRM_COMMAND_BASE + DRM_MSM_GEM_SUBMIT) drm_msm_gem_submit;
  DRM_IOW "DRM_IOCTL_MSM_WAIT_FENCE" (DRM_COMMAND_BASE + DRM_MSM_WAIT_FENCE) drm_msm_wait_fence;
  DRM_IOWR "DRM_IOCTL_MSM_GEM_MADVISE" (DRM_COMMAND_BASE + DRM_MSM_GEM_MADVISE) drm_msm_gem_madvise;
  DRM_IOWR "DRM_IOCTL_MSM_SUBMITQUEUE_NEW" (DRM_COMMAND_BASE + DRM_MSM_SUBMITQUEUE_NEW) drm_msm_submitqueue;
  DRM_IOW "DRM_IOCTL_MSM_SUBMITQUEUE_CLOSE" (DRM_COMMAND_BASE + DRM_MSM_SUBMITQUEUE_CLOSE) U32;
  DRM_IOW "DRM_IOCTL_MSM_SUBMITQUEUE_QUERY" (DRM_COMMAND_BASE + DRM_MSM_SUBMITQUEUE_QUERY) drm_msm_submitqueue_query;
  DRM_IOWR "DRM_IOCTL_MSM_VM_BIND" (DRM_COMMAND_BASE + DRM_MSM_VM_BIND) drm_msm_vm_bind].

(** Flags. *)

Definition MSM_BO_SCANOUT : Z := 0x00000001.
Definition MSM_BO_GPU_READONLY : Z := 0x00000002.
Definition MSM_BO_NO_SHARE : Z := 0x00000004.
Definition MSM_BO_CACHE_MASK : Z := 0x000f0000.
Definition MSM_BO_CACHED : Z := 0x00010000.
Definition MSM_BO_WC : Z := 0x00020000.
Definition MSM_BO_UNCACHED : Z := 0x00040000.
Definition MSM_BO_CACHED_COHERENT : Z := 0x080000.
Definition MSM_BO_FLAGS : Z := MSM_BO_SCANOUT .| MSM_BO_GPU_READONLY .| MSM_BO_NO_SHARE .| MSM_BO_CACHE_MASK.
Definition MSM_PREP_READ : Z := 0x01.
Definition MSM_PREP_WRITE : Z := 0x02.
Definition MSM_PREP_NOSYNC : Z := 0x04.
Definition MSM_PREP_BOOST : Z := 0x08.
Definition MSM_PREP_FLAGS : Z := MSM_PREP_READ .| MSM_PREP_WRITE .| MSM_PREP_NOSYNC .| MSM_PREP_BOOST .| 0.
Definition MSM_SYNCOBJ_RESET : Z := 0x00000001.
Definition MSM_SYNCOBJ_FLAGS : Z := MSM_SYNCOBJ_RESET .| 0.
Definition MSM_SUBMIT_BO_READ : Z := 0x0001.
Definition MSM_SUBMIT_BO_WRITE : Z := 0x0002.
Definition MSM_SUBMIT_BO_DUMP : Z := 0x0004.
Definition MSM_SUBMIT_BO_NO_IMPLICIT : Z := 0x0008.
Definition MSM_SUBMIT_BO_FLAGS : Z := MSM_SUBMIT_BO_READ .| MSM_SUBMIT_BO_WRITE .| MSM_SUBMIT_BO_DUMP .|
  MSM_SUBMIT_BO_NO_IMPLICIT.
Definition MSM_SUBMIT_NO_IMPLICIT : Z := 0x80000000.
Definition MSM_SUBMIT_FENCE_FD_IN : Z := 0x40000000.
Definition MSM_SUBMIT_FENCE_FD_OUT : Z := 0x20000000.
Definition MSM_SUBMIT_SUDO : Z := 0x10000000.
Definition MSM_SUBMIT_SYNCOBJ_IN : Z := 0x08000000.
Definition MSM_SUBMIT_SYNCOBJ_OUT : Z := 0x04000000.
Definition MSM_SUBMIT_FENCE_SN_IN : Z := 0x02000000.
Definition MSM_SUBMIT_FLAGS : Z := MSM_SUBMIT_NO_IMPLICIT .| MSM_SUBMIT_FENCE_FD_IN .| MSM_SUBMIT_FENCE_FD_OUT
  .| MSM_SUBMIT_SUDO .| MSM_SUBMIT_SYNCOBJ_IN .| MSM_SUBMIT_SYNCOBJ_OUT .| MSM_SUBMIT_FENCE_SN_IN .| 0.
Definition MSM_VM_BIND_OP_DUMP : Z := 1.
Definition MSM_VM_BIND_OP_FLAGS : Z := MSM_VM_BIND_OP_DUMP .| 0.
Definition MSM_VM_BIND_FENCE_FD_IN : Z := 0x00000001.
Definition MSM_VM_BIND_FENCE_FD_OUT : Z := 0x00000002.
Definition MSM_VM_BIND_FLAGS : Z := MSM_VM_BIND_FENCE_FD_IN .| MSM_VM_BIND_FENCE_FD_OUT .| 0.
Definition MSM_WAIT_FENCE_BOOST : Z := 0x00000001.
Definition MSM_WAIT_FENCE_FLAGS : Z := MSM_WAIT_FENCE_BOOST .| 0.
Definition MSM_SUBMITQUEUE_ALLOW_PREEMPT : Z := 0x00000001.
Definition MSM_SUBMITQUEUE_VM_BIND : Z := 0x00000002.
Definition MSM_SUBMITQUEUE_FLAGS : Z := MSM_SUBMITQUEUE_ALLOW_PREEMPT .| MSM_SUBMITQUEUE_VM_BIND .| 0.

(** Pipes. *)

Definition MSM_PIPE_NONE : Z := 0x00.
Definition MSM_PIPE_2D0 : Z := 0x01.
Definition MSM_PIPE_2D1 : Z := 0x02.
Definition MSM_PIPE_3D0 : Z := 0x10.
Definition MSM_PIPE_ID_MASK : Z := 0xffff.
Definition MSM_PIPE_ID (x : Z) : Z := Z.land x MSM_PIPE_ID_MASK.
Definition MSM_PIPE_FLAGS (x : Z) : Z := Z.land x (Z.lnot MSM_PIPE_ID_MASK).

(** ** Requests outside of DRM *)

Definition _IOR (name : string) (type nr : Z) (arg : ctype) : ioctl := Ioctl name IO_read type nr (Some arg).
Definition _IOW (name : string) (type nr : Z) (arg : ctype) : ioctl := Ioctl name IO_write type nr (Some arg).
Definition _IOWR (name : string) (type nr : Z) (arg : ctype) : ioctl := Ioctl name IO_both type nr (Some arg).

(** ** [msm_ion.h], [msm_ion_ids.h] *)

Definition ION_BIT (nr : Z) : Z := 1 ≪ nr.
Definition ION_QSECOM_TA_HEAP_ID : Z := ION_BIT 1.
Definition ION_CAMERA_HEAP_ID : Z := ION_BIT 2.
Definition ION_DISPLAY_HEAP_ID : Z := ION_BIT 3.
Definition ION_ADSP_HEAP_ID : Z := ION_BIT 4.
Definition ION_AUDIO_ML_HEAP_ID : Z := ION_BIT 5.
Definition ION_USER_CONTIG_HEAP_ID : Z := ION_BIT 6.
Definition ION_QSECOM_HEAP_ID : Z := ION_BIT 7.
Definition ION_AUDIO_HEAP_ID : Z := ION_BIT 8.
Definition ION_CP_MM_HEAP_ID : Z := ION_BIT 9.
Definition ION_SECURE_HEAP_ID : Z := ION_BIT 10.
Definition ION_SECURE_DISPLAY_HEAP_ID : Z := ION_BIT 11.
Definition ION_SPSS_HEAP_ID : Z := ION_BIT 14.
Definition ION_SECURE_CARVEOUT_HEAP_ID : Z := ION_BIT 15.
Definition ION_TUI_CARVEOUT_HEAP_ID : Z := ION_BIT 16.
Definition ION_SYSTEM_HEAP_ID : Z := ION_BIT 25.
Definition ION_HEAP_ID_RESERVED : Z := ION_BIT 31.
Definition ION_FLAG_CP_TRUSTED_VM : Z := ION_BIT 15.
Definition ION_FLAG_CP_TOUCH : Z := ION_BIT 17.
Definition ION_FLAG_CP_BITSTREAM : Z := ION_BIT 18.
Definition ION_FLAG_CP_PIXEL : Z := ION_BIT 19.
Definition ION_FLAG_CP_NON_PIXEL : Z := ION_BIT 20.
Definition ION_FLAG_CP_CAMERA : Z := ION_BIT 21.
Definition ION_FLAG_CP_HLOS : Z := ION_BIT 22.
Definition ION_FLAG_CP_SPSS_SP : Z := ION_BIT 23.
Definition ION_FLAG_CP_SPSS_SP_SHARED : Z := ION_BIT 24.
Definition ION_FLAG_CP_SEC_DISPLAY : Z := ION_BIT 25.
Definition ION_FLAG_CP_APP : Z := ION_BIT 26.
Definition ION_FLAG_CP_CAMERA_PREVIEW : Z := ION_BIT 27.
Definition ION_FLAG_CP_CDSP : Z := ION_BIT 29.
Definition ION_FLAG_CP_SPSS_HLOS_SHARED : Z := ION_BIT 30.
Definition ION_FLAGS_CP_MASK : Z := 0x6FFE8000.
Definition ION_FLAG_ALLOW_NON_CONTIG : Z := ION_BIT 28.
Definition ION_FLAG_SECURE : Z := ION_BIT 31.
Definition ION_FLAG_POOL_FORCE_ALLOC : Z := ION_BIT 16.
Definition ION_IOC_MSM_MAGIC : Z := 77.
Definition ion_prefetch_regions : ctype := Struct [
  ("sizes", U64); ("vmid", U32); ("nr_sizes", U32)].
Definition ion_prefetch_data : ctype := Struct [
  ("len", U64); ("regions", U64); ("heap_id", U32); ("nr_regions", U32)].
Definition ion_requests : list ioctl := [
  _IOWR "ION_IOC_PREFETCH" ION_IOC_MSM_MAGIC 3 ion_prefetch_data;
  _IOWR "ION_IOC_DRAIN" ION_IOC_MSM_MAGIC 4 ion_prefetch_data].

(** ** [qti-smmu-proxy.h] *)

Definition QTI_SMMU_PROXY_CAMERA_CB : Z := 0.
Definition QTI_SMMU_PROXY_DISPLAY_CB : Z := 1.
Definition QTI_SMMU_PROXY_EVA_CB : Z := 2.
Definition QTI_SMMU_PROXY_IOC_BASE : Z := 0x55.
Definition csf_version : ctype := Struct [
  ("arch_ver", U32); ("max_ver", U32); ("min_ver", U32); ("padding", U32)].
Definition smmu_proxy_acl_ctl : ctype := Struct [
  ("dma_buf_fd", U32); ("padding", U32)].
Definition smmu_proxy_wipe_buf_ctl : ctype := Struct [
  ("context_bank_id_array", U64); ("num_cb_ids", U32); ("padding", U32)].
Definition smmu_proxy_get_dma_buf_ctl : ctype := Struct [
  ("memparcel_hdl", U64); ("dma_buf_fd", U32); ("padding", U32)].
Definition smmu_proxy_requests : list ioctl := [
  _IOR "QTI_SMMU_PROXY_GET_VERSION_IOCTL" QTI_SMMU_PROXY_IOC_BASE 0 csf_version;
  _IOW "QTI_SMMU_PROXY_AC_LOCK_BUFFER" QTI_SMMU_PROXY_IOC_BASE 1 smmu_proxy_acl_ctl;
  _IOW "QTI_SMMU_PROXY_AC_UNLOCK_BUFFER" QTI_SMMU_PROXY_IOC_BASE 2 smmu_proxy_acl_ctl;
  _IOW "QTI_SMMU_PROXY_WIPE_BUFFERS" QTI_SMMU_PROXY_IOC_BASE 3 smmu_proxy_wipe_buf_ctl;
  _IOWR "QTI_SMMU_PROXY_GET_DMA_BUF" QTI_SMMU_PROXY_IOC_BASE 4 smmu_proxy_get_dma_buf_ctl].

(** ** [adsp_sleepmon.h] *)

Definition ADSPSLEEPMON_IOCTL_AUDIO_NUM_RES : Z := 3.
Definition adspsleepmon_ioctl_audio : ctype := Struct [
  ("version", U32); ("command", U32); ("reserved", Array ADSPSLEEPMON_IOCTL_AUDIO_NUM_RES U32)].
Definition adspsleepmon_ioctl_panic : ctype := Struct [
  ("version", U32); ("command", U32)].
Definition sleepmon_requests : list ioctl := [
  _IOWR "ADSPSLEEPMON_IOCTL_AUDIO_ACTIVITY" 82 1 adspsleepmon_ioctl_audio;
  _IOWR "ADSPSLEEPMON_IOCTL_CONFIGURE_PANIC" 82 2 adspsleepmon_ioctl_panic].

(** ** [msm_sde_rotator.h] *)

Definition msm_sde_rotator_fence : ctype := Struct [
  ("index", U32); ("type", U32); ("fd", S32); ("reserved", Array 5 U32)].
Definition msm_sde_rotator_comp_ratio : ctype := Struct [
  ("index", U32); ("type", U32); ("numer", U32); ("denom", U32); ("reserved", Array 4 U32)].

(** Where the private requests of video devices begin is said by a header of the kernel. *)
Definition rotator_requests (BASE_VIDIOC_PRIVATE : Z) : list ioctl := [
  _IOWR "VIDIOC_G_SDE_ROTATOR_FENCE" 86 (BASE_VIDIOC_PRIVATE + 10) msm_sde_rotator_fence;
  _IOWR "VIDIOC_S_SDE_ROTATOR_FENCE" 86 (BASE_VIDIOC_PRIVATE + 11) msm_sde_rotator_fence;
  _IOWR "VIDIOC_G_SDE_ROTATOR_COMP_RATIO" 86 (BASE_VIDIOC_PRIVATE + 12) msm_sde_rotator_comp_ratio;
  _IOWR "VIDIOC_S_SDE_ROTATOR_COMP_RATIO" 86 (BASE_VIDIOC_PRIVATE + 13) msm_sde_rotator_comp_ratio].

(** Pixel formats: the four characters of each code. *)
Definition rotator_formats : list (string * string) := [
  ("SDE_PIX_FMT_XRGB_8888", "XR24"); ("SDE_PIX_FMT_ARGB_8888", "AR24");
  ("SDE_PIX_FMT_ABGR_8888", "RA24"); ("SDE_PIX_FMT_RGBA_8888", "AB24");
  ("SDE_PIX_FMT_BGRA_8888", "BA24"); ("SDE_PIX_FMT_RGBX_8888", "XB24");
  ("SDE_PIX_FMT_BGRX_8888", "BX24"); ("SDE_PIX_FMT_XBGR_8888", "RX24");
  ("SDE_PIX_FMT_RGBA_5551", "RA15"); ("SDE_PIX_FMT_ARGB_1555", "AR15");
  ("SDE_PIX_FMT_ABGR_1555", "AB15"); ("SDE_PIX_FMT_BGRA_5551", "BA15");
  ("SDE_PIX_FMT_BGRX_5551", "BX15"); ("SDE_PIX_FMT_RGBX_5551", "RX15");
  ("SDE_PIX_FMT_XBGR_1555", "XB15"); ("SDE_PIX_FMT_XRGB_1555", "XR15");
  ("SDE_PIX_FMT_ARGB_4444", "AR12"); ("SDE_PIX_FMT_RGBA_4444", "RA12");
  ("SDE_PIX_FMT_BGRA_4444", "bA12"); ("SDE_PIX_FMT_ABGR_4444", "AB12");
  ("SDE_PIX_FMT_RGBX_4444", "RX12"); ("SDE_PIX_FMT_XRGB_4444", "XR12");
  ("SDE_PIX_FMT_BGRX_4444", "BX12"); ("SDE_PIX_FMT_XBGR_4444", "XB12");
  ("SDE_PIX_FMT_RGB_888", "RGB3"); ("SDE_PIX_FMT_BGR_888", "BGR3");
  ("SDE_PIX_FMT_RGB_565", "RGBP"); ("SDE_PIX_FMT_BGR_565", "BG16");
  ("SDE_PIX_FMT_Y_CB_CR_H2V2", "YU12"); ("SDE_PIX_FMT_Y_CR_CB_H2V2", "YV12");
  ("SDE_PIX_FMT_Y_CR_CB_GH2V2", "YU42"); ("SDE_PIX_FMT_Y_CBCR_H2V2", "NV12");
  ("SDE_PIX_FMT_Y_CRCB_H2V2", "NV21"); ("SDE_PIX_FMT_Y_CBCR_H1V2", "NH16");
  ("SDE_PIX_FMT_Y_CRCB_H1V2", "NH61"); ("SDE_PIX_FMT_Y_CBCR_H2V1", "NV16");
  ("SDE_PIX_FMT_Y_CRCB_H2V1", "NV61"); ("SDE_PIX_FMT_YCBYCR_H2V1", "YUYV");
  ("SDE_PIX_FMT_Y_CBCR_H2V2_VENUS", "QNV2"); ("SDE_PIX_FMT_Y_CRCB_H2V2_VENUS", "QNV1");
  ("SDE_PIX_FMT_RGBA_8888_UBWC", "QRGB"); ("SDE_PIX_FMT_RGBX_8888_UBWC", "QXB4");
  ("SDE_PIX_FMT_RGB_565_UBWC", "QRG6"); ("SDE_PIX_FMT_Y_CBCR_H2V2_UBWC", "Q128");
  ("SDE_PIX_FMT_RGBA_1010102", "AB30"); ("SDE_PIX_FMT_RGBX_1010102", "XB30");
  ("SDE_PIX_FMT_ARGB_2101010", "AR30"); ("SDE_PIX_FMT_XRGB_2101010", "XR30");
  ("SDE_PIX_FMT_BGRA_1010102", "BA30"); ("SDE_PIX_FMT_BGRX_1010102", "BX30");
  ("SDE_PIX_FMT_ABGR_2101010", "RA30"); ("SDE_PIX_FMT_XBGR_2101010", "RX30");
  ("SDE_PIX_FMT_RGBA_1010102_UBWC", "QRBA"); ("SDE_PIX_FMT_RGBX_1010102_UBWC", "QXBA");
  ("SDE_PIX_FMT_Y_CBCR_H2V2_P010", "P010"); ("SDE_PIX_FMT_Y_CBCR_H2V2_P010_VENUS", "QP10");
  ("SDE_PIX_FMT_Y_CBCR_H2V2_TP10", "TP10"); ("SDE_PIX_FMT_Y_CBCR_H2V2_TP10_UBWC", "Q12A");
  ("SDE_PIX_FMT_Y_CBCR_H2V2_P010_UBWC", "Q12B")].

Definition other_structs : list (string * ctype) := [
  ("ion_prefetch_regions", ion_prefetch_regions); ("ion_prefetch_data", ion_prefetch_data);
  ("csf_version", csf_version); ("smmu_proxy_acl_ctl", smmu_proxy_acl_ctl);
  ("smmu_proxy_wipe_buf_ctl", smmu_proxy_wipe_buf_ctl);
  ("smmu_proxy_get_dma_buf_ctl", smmu_proxy_get_dma_buf_ctl);
  ("adspsleepmon_ioctl_audio", adspsleepmon_ioctl_audio);
  ("adspsleepmon_ioctl_panic", adspsleepmon_ioctl_panic); ("msm_sde_rotator_fence", msm_sde_rotator_fence);
  ("msm_sde_rotator_comp_ratio", msm_sde_rotator_comp_ratio)].

(** ** Layout of all structures *)

Definition all_structs : list (string * ctype) := drm_structs ++ sde_structs ++ pp_structs ++ msm_structs ++ other_structs.

(** Members of every structure are aligned, apart and inside of it, for both widths. *)
Lemma all_structs_sound w name l : 0 < w -> (name, Struct l) ∈ all_structs ->
  apart 0 (sizeof w (Struct l)) (offsets w (Struct l)).*2 /\
  Forall2 (fun m o => (alignof w m.2 | o.2.1)) l (offsets w (Struct l)) /\ (alignof w (Struct l) | sizeof w (Struct l)).
Proof.
  intros Hw Hin. apply (struct_sound w Hw). change (Struct l) with (name, Struct l).2. revert Hin. generalize (name, Struct l).
  apply Forall_forall. apply (bool_decide_unpack _). vm_compute. done.
Qed.

(** The chipset's structures have no pointers: their layout is that of either width. *)
Lemma chipset_structs_portable v w name t : (name, t) ∈ sde_structs ++ pp_structs ++ msm_structs ++ other_structs ->
  sizeof v t = sizeof w t /\ offsets v t = offsets w t.
Proof.
  intros Hin. assert (Hp : portable t = true).
  { change t with (name, t).2. revert Hin. generalize (name, t). apply Forall_forall. apply (bool_decide_unpack _). vm_compute. done. }
  split; [by apply portable_size|by apply portable_offsets].
Qed.

(** ** Flags *)

Definition msm_masks : list (Z * list Z) := [
  (MSM_BO_CACHE_MASK, [MSM_BO_CACHED; MSM_BO_WC; MSM_BO_UNCACHED; MSM_BO_CACHED_COHERENT]);
  (MSM_BO_FLAGS, [MSM_BO_SCANOUT; MSM_BO_GPU_READONLY; MSM_BO_NO_SHARE; MSM_BO_CACHED; MSM_BO_WC; MSM_BO_UNCACHED;
    MSM_BO_CACHED_COHERENT]);
  (MSM_PREP_FLAGS, [MSM_PREP_READ; MSM_PREP_WRITE; MSM_PREP_NOSYNC; MSM_PREP_BOOST]);
  (MSM_SYNCOBJ_FLAGS, [MSM_SYNCOBJ_RESET]);
  (MSM_SUBMIT_BO_FLAGS, [MSM_SUBMIT_BO_READ; MSM_SUBMIT_BO_WRITE; MSM_SUBMIT_BO_DUMP; MSM_SUBMIT_BO_NO_IMPLICIT]);
  (MSM_SUBMIT_FLAGS, [MSM_SUBMIT_NO_IMPLICIT; MSM_SUBMIT_FENCE_FD_IN; MSM_SUBMIT_FENCE_FD_OUT; MSM_SUBMIT_SUDO;
    MSM_SUBMIT_SYNCOBJ_IN; MSM_SUBMIT_SYNCOBJ_OUT; MSM_SUBMIT_FENCE_SN_IN]);
  (MSM_VM_BIND_OP_FLAGS, [MSM_VM_BIND_OP_DUMP]);
  (MSM_VM_BIND_FLAGS, [MSM_VM_BIND_FENCE_FD_IN; MSM_VM_BIND_FENCE_FD_OUT]);
  (MSM_WAIT_FENCE_FLAGS, [MSM_WAIT_FENCE_BOOST]);
  (MSM_SUBMITQUEUE_FLAGS, [MSM_SUBMITQUEUE_ALLOW_PREEMPT; MSM_SUBMITQUEUE_VM_BIND]);
  (ION_FLAGS_CP_MASK, [ION_FLAG_CP_TRUSTED_VM; ION_FLAG_CP_TOUCH; ION_FLAG_CP_BITSTREAM; ION_FLAG_CP_PIXEL;
    ION_FLAG_CP_NON_PIXEL; ION_FLAG_CP_CAMERA; ION_FLAG_CP_HLOS; ION_FLAG_CP_SPSS_SP; ION_FLAG_CP_SPSS_SP_SHARED;
    ION_FLAG_CP_SEC_DISPLAY; ION_FLAG_CP_APP; ION_FLAG_CP_CAMERA_PREVIEW; ION_FLAG_CP_CDSP; ION_FLAG_CP_SPSS_HLOS_SHARED])].

Lemma msm_masks_ok : forallb (fun '(m, l) => (m =? all_of l) && apart_flags l) msm_masks = true.
Proof. vm_compute. done. Qed.

(** The flags of an allocation that say nothing of content protection are not in its mask. *)
Lemma ion_flags_apart :
  apart_flags [ION_FLAGS_CP_MASK; ION_FLAG_POOL_FORCE_ALLOC; ION_FLAG_ALLOW_NON_CONTIG; ION_FLAG_SECURE] = true.
Proof. done. Qed.

Definition ion_heaps : list Z := [ION_QSECOM_TA_HEAP_ID; ION_CAMERA_HEAP_ID; ION_DISPLAY_HEAP_ID; ION_ADSP_HEAP_ID;
  ION_AUDIO_ML_HEAP_ID; ION_USER_CONTIG_HEAP_ID; ION_QSECOM_HEAP_ID; ION_AUDIO_HEAP_ID; ION_CP_MM_HEAP_ID;
  ION_SECURE_HEAP_ID; ION_SECURE_DISPLAY_HEAP_ID; ION_SPSS_HEAP_ID; ION_SECURE_CARVEOUT_HEAP_ID;
  ION_TUI_CARVEOUT_HEAP_ID; ION_SYSTEM_HEAP_ID; ION_HEAP_ID_RESERVED].

(** A set of heaps is a word from which every heap can be read, and bit 0 is left to the system heap. *)
Lemma ion_heaps_decode s h : s ⊆ ion_heaps -> h ∈ ion_heaps -> (Z.land (all_of s) h <> 0 <-> h ∈ s) /\ Z.land h (ION_BIT 0) = 0.
Proof.
  intros Hs Hh. split; [by apply (flag_set_iff ion_heaps)|]. revert h Hh. apply Forall_forall. repeat constructor.
Qed.

(** A pipe identifier with flags above it. *)
Lemma pipe_parts pipe flags : 0 <= pipe <= MSM_PIPE_ID_MASK -> Z.land flags MSM_PIPE_ID_MASK = 0 ->
  MSM_PIPE_ID (pipe .| flags) = pipe /\ MSM_PIPE_FLAGS (pipe .| flags) = flags.
Proof.
  intros Hp Hf. assert (Hm : MSM_PIPE_ID_MASK = Z.ones 16) by done. unfold MSM_PIPE_ID, MSM_PIPE_FLAGS.
  assert (Hland : Z.land pipe MSM_PIPE_ID_MASK = pipe).
  { rewrite Hm, Z.land_ones by lia. apply Z.mod_small. change MSM_PIPE_ID_MASK with (2 ^ 16 - 1) in Hp. lia. }
  rewrite !Z.land_lor_distr_l, Hf, Hland, Z.lor_0_r. split; [done|]. apply Z.bits_inj'. intros n Hn.
  apply (f_equal (fun z => Z.testbit z n)) in Hf, Hland. rewrite Z.land_spec in Hf, Hland. rewrite Z.bits_0 in Hf.
  rewrite Z.lor_spec, !Z.land_spec, !Z.lnot_spec by done.
  destruct (Z.testbit pipe n), (Z.testbit flags n), (Z.testbit MSM_PIPE_ID_MASK n); done.
Qed.

(** ** The rules of [msm_drm.h] *)

(** No member has hidden bytes before it. *)
Fixpoint no_gaps (e : Z) (l : list (Z * Z)) : bool :=
  match l with
  | [] => true
  | (o, n) :: l => (o =? e) && no_gaps (o + n) l
  end.

(** No pointers and no [long]; fields are aligned without the compiler's help. *)
Lemma msm_structs_rules : forallb (fun s => portable s.2 && no_gaps 0 (offsets 8 s.2).*2) msm_structs = true.
Proof. vm_compute. done. Qed.

(** ** Devices *)

(** The nodes of [/dev] and what they understand. *)
Definition devices (BASE_VIDIOC_PRIVATE : Z) : list (list ioctl) :=
  [drm_requests ++ msm_requests ++ sde_requests; ion_requests; smmu_proxy_requests; sleepmon_requests;
   rotator_requests BASE_VIDIOC_PRIVATE].

(** The requests of [drm.h] whose argument holds a pointer or a [long]. *)
Definition legacy_requests : list string := [
  "DRM_IOCTL_VERSION"; "DRM_IOCTL_GET_UNIQUE"; "DRM_IOCTL_GET_MAP"; "DRM_IOCTL_GET_CLIENT"; "DRM_IOCTL_GET_STATS";
  "DRM_IOCTL_SET_UNIQUE"; "DRM_IOCTL_ADD_MAP"; "DRM_IOCTL_ADD_BUFS"; "DRM_IOCTL_MARK_BUFS"; "DRM_IOCTL_INFO_BUFS";
  "DRM_IOCTL_MAP_BUFS"; "DRM_IOCTL_FREE_BUFS"; "DRM_IOCTL_RM_MAP"; "DRM_IOCTL_SET_SAREA_CTX"; "DRM_IOCTL_GET_SAREA_CTX";
  "DRM_IOCTL_RES_CTX"; "DRM_IOCTL_DMA"; "DRM_IOCTL_AGP_ENABLE"; "DRM_IOCTL_AGP_INFO"; "DRM_IOCTL_AGP_ALLOC";
  "DRM_IOCTL_AGP_FREE"; "DRM_IOCTL_AGP_BIND"; "DRM_IOCTL_AGP_UNBIND"; "DRM_IOCTL_SG_ALLOC"; "DRM_IOCTL_SG_FREE";
  "DRM_IOCTL_WAIT_VBLANK"].

Definition portable_arg (c : ioctl) : bool := match io_arg c with Some t => portable t | None => true end.
(** A request has the parts that its number can hold, and it is one of the legacy ones just if
    its size depends on the width. *)
Definition regular (c : ioctl) : bool :=
  encodable 4 c && encodable 8 c &&
  if decide (io_name c ∈ legacy_requests) then negb (arg_size 4 c =? arg_size 8 c) else portable_arg c.

Section Devices.
Context (base : Z) (Hbase : 0 <= base <= 242).

Lemma devices_regular c : c ∈ concat (devices base) -> regular c = true.
Proof.
  unfold devices. rewrite !concat_cons, app_nil_r. intros Hc. repeat rewrite app_assoc in Hc. apply elem_of_app in Hc as [Hc|Hc].
  - revert c Hc. apply Forall_forall. apply (bool_decide_unpack _). vm_compute. done.
  - unfold rotator_requests in Hc. rewrite !elem_of_cons in Hc.
    destruct Hc as [->|[->|[->|[->|Hc]]]]; [..|by apply elem_of_nil in Hc];
      unfold regular, encodable; repeat (apply andb_true_intro; split); try done;
      first [apply Z.leb_le | apply Z.ltb_lt]; cbn [io_nr _IOWR]; lia.
Qed.

Lemma device_numbers dev : dev ∈ devices base -> NoDup (io_nr <$> dev).
Proof.
  unfold devices. rewrite !elem_of_cons. intros [->|[->|[->|[->|[->|Hd]]]]]; [| | | | |by apply elem_of_nil in Hd].
  1-4: apply (bool_decide_unpack _); vm_compute; done.
  cbn. rewrite !NoDup_cons, !not_elem_of_cons. pose proof (NoDup_nil_2 (A := Z)). pose proof (not_elem_of_nil (A := Z)).
  split_and!; try lia; auto.
Qed.
End Devices.

Lemma nodup_fmap_inj {A B} (f : A -> B) l x y : NoDup (f <$> l) -> x ∈ l -> y ∈ l -> f x = f y -> x = y.
Proof.
  intros Hn [i Hi]%list_elem_of_lookup_1 [j Hj]%list_elem_of_lookup_1 Hf.
  assert (i = j) as ->; [|congruence]. apply (NoDup_lookup (f <$> l) i j (f x)); rewrite ?list_lookup_fmap, ?Hi, ?Hj; cbn; congruence.
Qed.

Lemma regular_parts c : regular c = true -> encodable 4 c = true /\ encodable 8 c = true /\
  (io_name c ∈ legacy_requests -> arg_size 4 c <> arg_size 8 c) /\ (io_name c ∉ legacy_requests -> portable_arg c = true).
Proof.
  unfold regular. rewrite !andb_true_iff. intros [[H4 H8] Hc]. split_and!; [done..| |]; destruct (decide _); try done.
  intros _. by apply negb_true_iff, Z.eqb_neq in Hc.
Qed.

(** C37. The number of a request is the same for 32-bit and 64-bit clients of every device of the headers,
    except for 26 requests of [drm.h] that older drivers have; for the others every member of the argument is at the
    same place too. *)
Theorem width_dependent_requests `{IoctlLaws} base c :
  0 <= base <= 242 -> c ∈ concat (devices base) ->
  (number 4 c = number 8 c <-> io_name c ∉ legacy_requests) /\
  (io_name c ∉ legacy_requests -> forall v w t, io_arg c = Some t -> sizeof v t = sizeof w t /\ offsets v t = offsets w t).
Proof.
  intros Hbase Hc. destruct (regular_parts c (devices_regular base Hbase c Hc)) as (H4 & H8 & Hl & Hp). split; [split|].
  - intros Hn Hin. by apply (Hl Hin), (same_number 4 8 c c).
  - intros Hin. unfold number, arg_size, portable_arg in *. destruct (io_arg c) as [t|]; [|done].
    by destruct (portable_size 4 8 t (Hp Hin)) as [_ ->].
  - intros Hin v w t Ht. unfold portable_arg in Hp. rewrite Ht in Hp.
    split; [by apply portable_size, Hp|by apply portable_offsets, Hp].
Qed.

Lemma width_dependent_requests_witness :
  let c := DRM_IOWR "DRM_IOCTL_MSM_GEM_SUBMIT" (DRM_COMMAND_BASE + DRM_MSM_GEM_SUBMIT) drm_msm_gem_submit in
  let old := DRM_IOWR "DRM_IOCTL_VERSION" 0x00 drm_version in
  (@number GenericIoctl.generic_numbers 4 c = 0xC0486446 /\ @number GenericIoctl.generic_numbers 8 c = 0xC0486446) /\
  ~ (@number GenericIoctl.generic_numbers 4 old = @number GenericIoctl.generic_numbers 8 old).
Proof.
  split.
  - assert (Hin : DRM_IOWR "DRM_IOCTL_MSM_GEM_SUBMIT" (DRM_COMMAND_BASE + DRM_MSM_GEM_SUBMIT) drm_msm_gem_submit ∈ concat (devices 192))
      by (apply (list_elem_of_lookup_2 _ (length drm_requests + 6)); vm_compute; done).
    destruct (@width_dependent_requests GenericIoctl.generic_numbers GenericIoctl.generic_laws 192 _ ltac:(lia) Hin) as [Hn _].
    split; [|vm_compute; done]. rewrite (proj2 Hn); [vm_compute; done|]. apply (bool_decide_unpack _). vm_compute. done.
  - assert (Hin : DRM_IOWR "DRM_IOCTL_VERSION" 0x00 drm_version ∈ concat (devices 192)) by constructor.
    destruct (@width_dependent_requests GenericIoctl.generic_numbers GenericIoctl.generic_laws 192 _ ltac:(lia) Hin) as [Hn _].
    intros He. apply (proj1 Hn He). apply (bool_decide_unpack _). vm_compute. done.
Defined.

(** A driver's own requests are between [DRM_COMMAND_BASE] and [DRM_COMMAND_END], those that all have are not. *)
Lemma driver_range : Forall (fun c => ~ (DRM_COMMAND_BASE <= io_nr c < DRM_COMMAND_END)) drm_requests /\
  Forall (fun c => DRM_COMMAND_BASE <= io_nr c < DRM_COMMAND_END) (msm_requests ++ sde_requests).
Proof. split; apply (bool_decide_unpack _); vm_compute; done. Qed.

(** C38. No two requests of a device have the same number, whatever the widths of the
    client that sends the one and of the client that sends the other: the kernel never takes a request for
    another one, and its driver's requests are apart from those of all drivers. *)
Theorem request_numbers_distinct `{IoctlLaws} base dev c c' v w :
  0 <= base <= 242 -> dev ∈ devices base -> c ∈ dev -> c' ∈ dev -> v ∈ [4; 8] -> w ∈ [4; 8] ->
  (number v c = number w c' -> c = c') /\
  (c ∈ drm_requests -> ~ DRM_COMMAND_BASE <= io_nr c < DRM_COMMAND_END) /\
  (c ∈ msm_requests ++ sde_requests -> DRM_COMMAND_BASE <= io_nr c < DRM_COMMAND_END).
Proof.
  intros Hbase Hdev Hc Hc' Hv Hw. destruct driver_range as [Hall Hown]. rewrite Forall_forall in Hall, Hown.
  split; [|split; [apply Hall|apply Hown]]. intros Hn.
  assert (Hreg : forall d, d ∈ dev -> encodable 4 d = true /\ encodable 8 d = true).
  { intros d Hd. destruct (regular_parts d) as (? & ? & _); [|done]. apply (devices_regular base Hbase).
    apply list_elem_of_In, in_concat. exists dev. by rewrite <- !list_elem_of_In. }
  apply (nodup_fmap_inj io_nr dev); [by apply (device_numbers base)|done..|].
  apply (same_number v w c c'); [| |done]; rewrite !elem_of_cons, elem_of_nil in Hv, Hw;
    [destruct Hv as [->|[->|[]]]|destruct Hw as [->|[->|[]]]]; by apply Hreg.
Qed.

Lemma request_numbers_distinct_witness :
  @number GenericIoctl.generic_numbers 4 (_IOWR "VIDIOC_G_SDE_ROTATOR_FENCE" 86 (192 + 10) msm_sde_rotator_fence) <>
  @number GenericIoctl.generic_numbers 8 (_IOWR "VIDIOC_S_SDE_ROTATOR_FENCE" 86 (192 + 11) msm_sde_rotator_fence).
Proof.
  intros He. destruct (@request_numbers_distinct GenericIoctl.generic_numbers GenericIoctl.generic_laws 192 (rotator_requests 192)
    (_IOWR "VIDIOC_G_SDE_ROTATOR_FENCE" 86 (192 + 10) msm_sde_rotator_fence)
    (_IOWR "VIDIOC_S_SDE_ROTATOR_FENCE" 86 (192 + 11) msm_sde_rotator_fence) 4 8) as [Hd _].
  - lia.
  - apply list_elem_of_In. cbn [devices In]. tauto.
  - apply list_elem_of_In. cbn [rotator_requests In]. tauto.
  - apply list_elem_of_In. cbn [rotator_requests In]. tauto.
  - set_solver.
  - set_solver.
  - discriminate (Hd He).
Defined.

(** The code of a pixel format names one format. *)
Lemma rotator_formats_distinct : NoDup rotator_formats.*1 /\ NoDup rotator_formats.*2 /\
  Forall (fun f => String.length f.2 = 4%nat) rotator_formats.
Proof. split_and!; apply (bool_decide_unpack _); vm_compute; done. Qed.
